(* ===== verification/_CoqProject ===== *)
-Q . S2P
Prelude.v
CString.v
Splitstr.v
Zoo.v
PanColl.v
PanOS.v
Pan.v
PanLogic.v
PanInv.v
PanRun.v
PanSignals.v
TstRes.v
TstSetup.v
TstRun.v
Effects.v
Bitmask.v
BitmaskText.v
BitmaskTypes.v
Fsx.v
FsxOps.v
FsxMain.v
FsxInv.v
FsxSound.v
FsxRun.v
FsxMainOk.v
FsxKernel.v
FsxDetect.v
FsxLog.v
FsxOptions.v
OldRes.v
OldResOk.v
EddtsOS.v
EddtsBus.v
EddtsIo.v
EddtsNet.v
EddtsLogic.v
EddtsBench.v
EddtsBusOk.v
EddtsEeprom.v
EddtsNor.v
EddtsGpio.v
EddtsNetOk.v
EddtsPan.v
LibCrc.v
LibKver.v
LibKconfig.v
LibBuffers.v
FsPattern.v
FsFlags.v
FsWlog.v
LibRange.v
LibTimer.v
PanSym.v
PanSymOk.v
PanReport.v
PanReportOk.v
PanReportLines.v
PanReportEnd.v
PanScan.v
PanLex.v
PanScanOk.v
PanScanReport.v
PanBump.v
CpusetText.v
Cpuset.v
CpusetFiles.v
CpusetQuery.v
CpusetModify.v
CpusetOk.v
CpusetMap.v
CpusetMapOk.v
CpusetIo.v
CpusetTasks.v
CpusetTasksOk.v
CpusetNuke.v
CpusetBind.v
CpusetBindOk.v
CpusetCollide.v
CpusetDist.v
CpusetDistOk.v
