(* ===== verification/Prelude.v ===== *)
(** * Verification of eDDTs: the LTP library and its programs

    The repository holds the Linux Test Project (src/ltp) and the device driver
    tests of two boards that are run with it (src/testsuite).  A test is a program
    that reports results through the library (lib/); the driver pan runs the tests
    of a command file, keeps the processes that run in a zoo file, and logs how they
    ended; the scanner of pan makes a report of that log.  The development models
    these parts as Rocq definitions translated from the C sources and proves what
    each of them promises.

    ** How C is modelled

    A C string is the list of its characters without the NUL ([cstr]); bytes and
    integers are [Z], with the wrapping of their width written out where the code can
    reach it ([s32], [u32], [s64], [u64], [swrap]).  Code with state is a state
    monad with the outcomes of the program as values: a value, the exit of the
    process with its status, undefined behaviour ([Effects]; pan has its own in
    [PanOS]).  What the kernel, the C library's allocator or a device answers is a
    parameter: a class ([OS], [System], [Console], the board of [EddtsOS]) or an
    argument, with the facts relied upon as named hypotheses; each property with
    hypotheses has a witness that meets them on a concrete input.

    A loop that is not structural takes fuel.  The fuel is the length of the data that
    each turn shortens (a string, a list, the size of the heap for a linked list), or an argument
    that the theorems quantify over: they show that the loop ends with enough of it
    and name the amount ([main_loop_sequential] for pan, [pattern_fill_check] for the
    patterns); [cpuset_nuke] has a turn for each second and one more.  Where code can
    loop for ever that is a lemma ([empty_pattern_diverges], [start_loop_spins]).

    ** Shared files

    - [Prelude]: notations, automation, generic lemmas on lists, options, integers.
    - [CString]: the part of <string.h>, <stdlib.h> and <stdio.h> that is used, with
      the round trips between formatting and scanning.
    - [Effects]: the monad and its rules.

    ** pan (src/ltp/pan)

    - [Splitstr]: splitstr.c.  The result is the tokens, and no store is outside the
      array.
    - [Zoo]: zoolib.c.  The operations on the bytes of the zoo file refine updates of
      the list of active processes.
    - [PanColl], [PanOS], [Pan]: ltp-pan.c, the command file, the world, the driver
      (run_child, check_pids, propagate_signal, the loops of main).  [PanLogic],
      [PanInv], [PanRun], [PanSignals]: for every kernel that obeys fork and wait the
      slots, counters and log agree, the loop ends when all children are reaped, a
      sequential run takes the tests in order and ends; what signals do.
    - [PanSym]: symbol.c, the symbol table of the scanner, as linked lists in a heap.
      [PanSymOk]: it implements a tree; putting and getting, stepping, and removing
      without a double free.
    - [PanReport]: tag_report.c and reporter.c, the records of a test's output and the
      report.  [PanReportOk]: the worst result of each test case is kept;
      [PanReportLines]: what the report prints; [PanReportEnd]: what the end of a
      test stores.
    - [PanScan]: scan.l and ltp-scanner.c, the patterns with the longest-match rule and
      their actions.  [PanLex], [PanScanOk]: how the lines pan writes are matched and
      what they do; [PanScanReport]: ltp-scanner reports exactly the last run of each
      tag of a log that pan wrote.
    - [PanBump]: ltp-bump.c, which signals tests through the zoo file.

    ** The library (src/ltp/lib, src/ltp/include)

    - [TstRes], [TstSetup], [TstRun]: tst_test.c, the results and the exit status, the
      set-up and clean-up, the run with children that report concurrently (a step
      relation; every schedule gives the same verdict).
    - [OldRes], [OldResOk]: tst_res.c, the old interface: the exit status tells what
      was reported, and no failure is lost in any output mode.
    - [LibCrc]: tst_checksum.c.  The table is the polynomial division; bursts of 32
      bits are detected.
    - [LibKver]: tst_kvercmp.c and testcases/lib/tst_kvcmp.c.  The command evaluates
      the comparisons it is given.
    - [LibKconfig]: tst_kconfig.c.  A test is stopped exactly when an option it needs
      is not set.
    - [LibBuffers]: tst_buffers.c.  Overruns fault, underruns are reported.
    - [LibRange]: random_range.c.  Numbers lie in their range; ranges read back.
    - [LibTimer]: tst_timer.h, tst_timer.c, tst_wallclock.c, tst_timer_test.c.  Times
      are exact; the verdict of the timer test.

    ** Tests (src/ltp/testcases, src/testsuite)

    - [Bitmask], [BitmaskText], [BitmaskTypes]: libbitmask.c of the cpuset tests: set
      operations, the two text formats and their parsers, ranges of all words.
    - libcpuset.c of the cpuset tests, for any kernel behind the class [Kernel] of
      [Cpuset], with the static variables of the library as the record [lib].
      [CpusetText]: lines and paths, with the compression in place; [Cpuset]:
      settings, creating, modifying, querying; [CpusetMap]: the map of CPUs to nodes;
      [CpusetIo]: export and import; [CpusetTasks]: process ids, moving, hierarchies,
      cpuset_nuke; [CpusetBind]: relative numbers, placements, pinning, collisions;
      [CpusetDist]: distances.  [CpusetFiles] says what a kernel promises of the
      settings files (class [CpusetFs]); [CpusetQuery], [CpusetModify], [CpusetOk]: a
      modification is all or nothing when the kernel takes old values back, and not
      in general, and a new cpuset is queried as it was created; [CpusetMapOk]: the
      map in the file is the one other processes use; [CpusetTasksOk]: sorted lists,
      and a cpuset whose tasks were moved is empty; [CpusetNuke]: cpuset_nuke ends in
      time and removes what can be removed (classes [Hierarchy], [Removable]);
      [CpusetBindOk]: pinning and asking where are inverse (class [BindFs]);
      [CpusetCollide]: collisions are reported exactly; [CpusetDistOk]: distances are
      those of the files.
    - [Fsx], [FsxOps], [FsxMain]: fsx-linux.c.  [FsxInv], [FsxSound], [FsxRun],
      [FsxMainOk]: on a kernel that obeys POSIX no run fails; [FsxKernel]: such a
      kernel; [FsxDetect], [FsxLog], [FsxOptions]: what is detected on any kernel, the log of
      operations, the options.
    - [FsPattern], [FsFlags], [FsWlog]: of fs/doio pattern.c, databin.c, dataascii.c,
      open_flags.c, string_to_tokens.c, write_log.c: fill and check, text and flags,
      the log that is read back from its end.
    - [EddtsOS], [EddtsBus], [EddtsIo], [EddtsNet]: the device driver tests of both
      boards with the option parser and the SAFE_ macros they use.  [EddtsLogic] are
      the rules for running them, [EddtsBench] a board on which all works;
      [EddtsBusOk], [EddtsEeprom], [EddtsNor], [EddtsGpio], [EddtsNetOk]: what each
      test reports and does to its device, on any board.  [EddtsPan]: from the results of a test to the line of pan's log.

    ** Bounds

    Sizes that the code fixes are those of the code (the 79 columns of the zoo, the
    buffer of 16 kB of the write log, LOGSIZE, the 512 bytes of the open flags).  The width of
    [long] is a parameter where the source uses it ([LibTimer], [random_bit]) and 64 bits
    elsewhere.  Bit fields of the write log have the little-endian layout of the
    Linux ABIs, its [char] is signed or not by an argument.

    ** Not modelled

    - Output that only goes to a terminal under a debug flag, the frequency plot of
      the timer test and bytes_by_prefix (floating point), the tables of addresses
      that sym_dump_s prints.
    - Of libcpuset.c the handles of memory_pressure, cpu_online, the free functions, the
      table of functions by name and the Fortran wrappers; its locks on the standard
      streams, since one thread is modelled.
    - The wrappers of system calls that are a call and a message, and the library
      functions that read or write one value of the kernel; the functions that use
      them take the answer as an argument.
    - doio, iogen, growfiles and fsstress, whose processes use the modelled patterns,
      logs and flags; the separate programs under testcases/kernel/syscalls and
      open_posix_testsuite; realtime, network and command tests; shell scripts, make
      and configuration files. *)
From Stdlib Require Import Ascii String ZArith Lia Bool.
From stdpp Require Import base list sets numbers.

(** * Notations *)

Declare Scope c_scope.
Delimit Scope c_scope with c.

(** A C string is the list of its characters without the terminating NUL. *)
Abbreviation cstr := (list ascii).

(** The characters of a literal. *)
Definition str (s : string) : cstr := list_ascii_of_string s.
Arguments str s%_string.
Notation "§ s" := (str s) (at level 0, s at level 0, format "§ s") : c_scope.
Open Scope c_scope.

Local Open Scope Z_scope.

(** * Automation *)

Create HintDb ltp.
Create Rewrite HintDb ltp_rw.

(** Turn the boolean tests of the hypotheses and the goal into propositions. *)
Ltac zbool :=
  repeat match goal with
  | H : (_ && _)%bool = true |- _ => apply andb_true_iff in H; destruct H
  | H : (_ || _)%bool = false |- _ => apply orb_false_iff in H; destruct H
  | H : negb _ = true |- _ => apply negb_true_iff in H
  | H : negb _ = false |- _ => apply negb_false_iff in H
  | H : (_ =? _) = true |- _ => apply Z.eqb_eq in H
  | H : (_ =? _) = false |- _ => apply Z.eqb_neq in H
  | H : (_ <? _) = true |- _ => apply Z.ltb_lt in H
  | H : (_ <? _) = false |- _ => apply Z.ltb_ge in H
  | H : (_ <=? _) = true |- _ => apply Z.leb_le in H
  | H : (_ <=? _) = false |- _ => apply Z.leb_gt in H
  end.

(** Case analysis on a boolean test of the goal, keeping the equation. *)
Ltac case_if :=
  match goal with
  | |- context [if ?b then _ else _] => destruct b eqn:?
  end.

Ltac case_if_in H :=
  match type of H with
  | context [if ?b then _ else _] => destruct b eqn:?
  end.

(** Case analysis on every test in sight, then arithmetic. *)
Ltac zcases := repeat (case_if; zbool); try lia.

(** ** Permutations of concatenations *)

Lemma perm_end {A} (a : list A) : a ≡ₚ a ++ [].
Proof. now rewrite app_nil_r. Qed.

Lemma perm_skip_app {A} (a b r r' : list A) : r ≡ₚ a ++ r' -> b ++ r ≡ₚ a ++ b ++ r'.
Proof. intros ->. apply Permutation_app_swap_app. Qed.

Lemma perm_head {A} (a l r r' : list A) : r ≡ₚ a ++ r' -> l ≡ₚ r' -> a ++ l ≡ₚ r.
Proof. now intros -> ->. Qed.

Ltac perm_find := first [reflexivity | apply perm_end | apply perm_skip_app; perm_find].

Ltac flat_cons :=
  repeat match goal with
  | |- context [?x :: ?l] => lazymatch l with [] => fail | _ => change (x :: l) with ([x] ++ l) end
  end.

(** Both sides are the same parts in another order. *)
Ltac perm :=
  flat_cons; rewrite <- ?app_assoc, ?app_nil_r; cbn [app]; flat_cons;
  repeat (eapply perm_head; [perm_find|]); rewrite ?app_nil_r; try reflexivity.

(** * Characters *)

#[export] Instance ascii_eq_dec : EqDecision ascii := ascii_dec.

(** Code of a character, 0 to 255. *)
Definition chr_code (c : ascii) : Z := Z.of_N (N_of_ascii c).

(** The character of a code. *)
Definition chr (z : Z) : ascii := ascii_of_N (Z.to_N z).

Lemma chr_code_range c : 0 <= chr_code c < 256.
Proof.
  unfold chr_code. pose proof (N_ascii_bounded c). lia.
Qed.

Lemma chr_code_chr z : 0 <= z < 256 -> chr_code (chr z) = z.
Proof.
  intros H. unfold chr_code, chr. rewrite N_ascii_embedding by lia. lia.
Qed.

Lemma chr_chr_code c : chr (chr_code c) = c.
Proof.
  unfold chr_code, chr. rewrite N2Z.id. apply ascii_N_embedding.
Qed.

Definition LF : ascii := "010"%char.
Definition TAB : ascii := "009"%char.
Definition NUL : ascii := "000"%char.

(** Character equality as a boolean. *)
Definition ceqb (a b : ascii) : bool := bool_decide (a = b).

Lemma ceqb_eq a b : ceqb a b = true <-> a = b.
Proof. unfold ceqb. apply bool_decide_eq_true. Qed.

Lemma ceqb_neq a b : ceqb a b = false <-> a <> b.
Proof. unfold ceqb. apply bool_decide_eq_false. Qed.

Lemma ceqb_refl a : ceqb a a = true.
Proof. now apply ceqb_eq. Qed.

(** Membership of a character in a list of characters. *)
Definition memc (c : ascii) (l : cstr) : bool := bool_decide (c ∈ l).

Lemma memc_true c l : memc c l = true <-> c ∈ l.
Proof. unfold memc. apply bool_decide_eq_true. Qed.

Lemma memc_false c l : memc c l = false <-> c ∉ l.
Proof. unfold memc. apply bool_decide_eq_false. Qed.

(** * Prefixes and suffixes of lists *)

Section While.
Context {A : Type} (p : A -> bool).

Fixpoint takewhile (l : list A) : list A :=
  match l with
  | [] => []
  | x :: r => if p x then x :: takewhile r else []
  end.

Fixpoint dropwhile (l : list A) : list A :=
  match l with
  | [] => []
  | x :: r => if p x then dropwhile r else l
  end.

Lemma take_drop_while l : takewhile l ++ dropwhile l = l.
Proof. induction l as [|x l IH]; simpl; [done|]. destruct (p x); simpl; congruence. Qed.

Lemma takewhile_all l : Forall (fun x => p x = true) (takewhile l).
Proof.
  induction l as [|x l IH]; simpl; [constructor|].
  destruct (p x) eqn:E; constructor; auto.
Qed.

Lemma takewhile_id l : Forall (fun x => p x = true) l -> takewhile l = l.
Proof. induction 1 as [|x l Hx _ IH]; simpl; [done|]. rewrite Hx; congruence. Qed.

Lemma dropwhile_id l : Forall (fun x => p x = true) l -> dropwhile l = [].
Proof. induction 1 as [|x l Hx _ IH]; simpl; [done|]. rewrite Hx; congruence. Qed.

Lemma takewhile_app l x r :
  Forall (fun y => p y = true) l -> p x = false -> takewhile (l ++ x :: r) = l.
Proof.
  intros H Hx. induction H as [|y l Hy _ IH]; simpl.
  - now rewrite Hx.
  - rewrite Hy. congruence.
Qed.

Lemma dropwhile_app l x r :
  Forall (fun y => p y = true) l -> p x = false -> dropwhile (l ++ x :: r) = x :: r.
Proof.
  intros H Hx. induction H as [|y l Hy _ IH]; simpl.
  - now rewrite Hx.
  - now rewrite Hy.
Qed.

Lemma dropwhile_head l x r : dropwhile l = x :: r -> p x = false.
Proof.
  induction l as [|y l IH]; simpl; [done|].
  destruct (p y) eqn:E; [auto|]. intros [= -> ->]. done.
Qed.

Lemma dropwhile_length l : (length (dropwhile l) <= length l)%nat.
Proof. induction l as [|y l IH]; simpl; [lia|]. destruct (p y); simpl; lia. Qed.

Lemma dropwhile_stop x l : p x = false -> dropwhile (x :: l) = x :: l.
Proof. intros H. simpl. now rewrite H. Qed.

Lemma takewhile_stop x l : p x = false -> takewhile (x :: l) = [].
Proof. intros H. simpl. now rewrite H. Qed.
End While.

(** * Counting *)

Section Count.
Context {A : Type} (p : A -> bool).

(** Number of elements that satisfy [p]. *)
Fixpoint count (l : list A) : Z :=
  match l with
  | [] => 0
  | x :: r => (if p x then 1 else 0) + count r
  end.

Lemma count_bounds l : 0 <= count l <= Z.of_nat (length l).
Proof. induction l as [|x l IH]; simpl length; simpl count; [lia|]. destruct (p x); lia. Qed.

Lemma count_app l1 l2 : count (l1 ++ l2) = count l1 + count l2.
Proof. induction l1 as [|x l IH]; simpl; [lia|]. rewrite IH. lia. Qed.

Lemma count_insert l i x y :
  l !! i = Some x ->
  count (<[i := y]> l) = count l - (if p x then 1 else 0) + (if p y then 1 else 0).
Proof.
  revert i. induction l as [|z l IH]; intros [|i]; simpl; try discriminate.
  - intros [= ->]. lia.
  - intros H. rewrite (IH _ H). lia.
Qed.

Lemma count_full l :
  count l = Z.of_nat (length l) -> forall i x, l !! i = Some x -> p x = true.
Proof.
  induction l as [|z l IH]; intros H [|i] x; simpl; try discriminate.
  - intros [= ->]. simpl in H. pose proof (count_bounds l). destruct (p x); [done|lia].
  - apply IH. simpl in H. pose proof (count_bounds l). destruct (p z); lia.
Qed.

Lemma count_zero l : count l = 0 -> forall i x, l !! i = Some x -> p x = false.
Proof.
  induction l as [|z l IH]; intros H [|i] x; simpl; try discriminate.
  - intros [= ->]. simpl in H. pose proof (count_bounds l). destruct (p x); [lia|done].
  - apply IH. simpl in H. pose proof (count_bounds l). destruct (p z); lia.
Qed.
End Count.

(** * Machine integers

    An integer of w bits is a [Z]; the operations that may leave its range
    are wrapped where the source computes them. *)

Definition uwrap (w z : Z) : Z := z mod 2 ^ w.
Definition swrap (w z : Z) : Z := (z + 2 ^ (w - 1)) mod 2 ^ w - 2 ^ (w - 1).

Definition u8 (z : Z) : Z := uwrap 8 z.
Definition u32 (z : Z) : Z := uwrap 32 z.
Definition s32 (z : Z) : Z := swrap 32 z.
Definition u64 (z : Z) : Z := uwrap 64 z.
Definition s64 (z : Z) : Z := swrap 64 z.

Definition INT_MAX : Z := 2147483647.
Definition INT_MIN : Z := -2147483648.
Definition LONG_MAX : Z := 9223372036854775807.
Definition LONG_MIN : Z := -9223372036854775808.

Lemma u32_small z : 0 <= z < 4294967296 -> u32 z = z.
Proof. intros H. unfold u32, uwrap. apply Z.mod_small. exact H. Qed.

Lemma u64_small z : 0 <= z < 18446744073709551616 -> u64 z = z.
Proof. intros H. unfold u64, uwrap. apply Z.mod_small. exact H. Qed.

Lemma s32_small z : INT_MIN <= z <= INT_MAX -> s32 z = z.
Proof.
  unfold s32, swrap, INT_MIN, INT_MAX. change (2 ^ (32 - 1)) with 2147483648.
  change (2 ^ 32) with 4294967296. intros H. rewrite Z.mod_small; lia.
Qed.

Lemma s64_small z : LONG_MIN <= z <= LONG_MAX -> s64 z = z.
Proof.
  unfold s64, swrap, LONG_MIN, LONG_MAX.
  change (2 ^ (64 - 1)) with 9223372036854775808.
  change (2 ^ 64) with 18446744073709551616. intros H. rewrite Z.mod_small; lia.
Qed.

Lemma u32_range z : 0 <= u32 z < 4294967296.
Proof. apply Z.mod_pos_bound. lia. Qed.

Lemma s32_range z : INT_MIN <= s32 z <= INT_MAX.
Proof.
  unfold s32, swrap, INT_MIN, INT_MAX. change (2 ^ (32 - 1)) with 2147483648.
  change (2 ^ 32) with 4294967296.
  pose proof (Z.mod_pos_bound (z + 2147483648) 4294967296). lia.
Qed.

Lemma s64_range z : LONG_MIN <= s64 z <= LONG_MAX.
Proof.
  unfold s64, swrap, LONG_MIN, LONG_MAX.
  change (2 ^ (64 - 1)) with 9223372036854775808.
  change (2 ^ 64) with 18446744073709551616.
  pose proof (Z.mod_pos_bound (z + 9223372036854775808) 18446744073709551616). lia.
Qed.

#[export] Hint Resolve s32_range s64_range u32_range chr_code_range : ltp.
#[export] Hint Rewrite s32_small s64_small u32_small using (unfold INT_MIN, INT_MAX, LONG_MIN, LONG_MAX in *; lia) : ltp_rw.

(** Integer sequence [lo; lo+1; ...] of [n] elements: the index values of a
    counting loop. *)
Fixpoint zseq (lo : Z) (n : nat) : list Z :=
  match n with
  | O => []
  | S n' => lo :: zseq (lo + 1) n'
  end.

Lemma elem_of_zseq lo n i : i ∈ zseq lo n <-> lo <= i < lo + Z.of_nat n.
Proof.
  revert lo. induction n as [|n IH]; intros lo; simpl.
  - split; [intros H; inversion H | lia].
  - rewrite elem_of_cons, IH. lia.
Qed.

Lemma zseq_app lo n m : zseq lo (n + m) = zseq lo n ++ zseq (lo + Z.of_nat n) m.
Proof.
  revert lo. induction n as [|n IH]; intros lo; simpl; [f_equal; lia|].
  rewrite IH. do 3 f_equal. lia.
Qed.

Lemma zseq_snoc lo n : zseq lo (S n) = zseq lo n ++ [lo + Z.of_nat n].
Proof. replace (S n) with (n + 1)%nat by lia. rewrite zseq_app. done. Qed.

(** * Wait status *)

Definition WTERMSIG (st : Z) : Z := Z.land st 127.
Definition WEXITSTATUS (st : Z) : Z := Z.shiftr (Z.land st 65280) 8.
Definition WIFEXITED (st : Z) : bool := WTERMSIG st =? 0.
Definition WIFSTOPPED (st : Z) : bool := Z.land st 255 =? 127.
Definition WSTOPSIG (st : Z) : Z := WEXITSTATUS st.
Definition WIFSIGNALED (st : Z) : bool := (0 <? WTERMSIG st) && (WTERMSIG st <? 127).
Definition WCOREDUMP (st : Z) : bool := negb (Z.land st 128 =? 0).
