(* ===== verification/CString.v ===== *)
(** The part of the C library the modelled sources use on strings: character
    classes, search ([strchr], [strstr], [strpbrk]), comparison, tokens
    ([strtok]), numbers ([strtol], [strtoul], [atoi], [sscanf] of one number)
    and formatting ([%d], [%0*x], [%-*.*s]).  The functions follow ISO C and,
    where ISO C leaves a case open, glibc; the lemmas are the round trips
    between formatting and scanning and the reading of [strtok] as a split. *)
From Stdlib Require Import Ascii String ZArith Lia Bool.
From stdpp Require Import base list sets numbers.
From S2P Require Import Prelude.

Local Open Scope Z_scope.

(** * Character classes *)

Definition isspace (c : ascii) : bool :=
  let z := chr_code c in (z =? 32) || ((9 <=? z) && (z <=? 13)).

(** Value of a digit in a base up to 36; 99 when the character is no digit. *)
Definition digit_val (c : ascii) : Z :=
  let z := chr_code c in
  if (48 <=? z) && (z <=? 57) then z - 48
  else if (97 <=? z) && (z <=? 122) then z - 87
  else if (65 <=? z) && (z <=? 90) then z - 55
  else 99.

Definition isdigit_base (b : Z) (c : ascii) : bool := digit_val c <? b.
Definition isdigit (c : ascii) : bool := isdigit_base 10 c.

(** The lower-case digit of a value. *)
Definition digit_chr (v : Z) : ascii := chr (if v <? 10 then 48 + v else 87 + v).

Lemma digit_val_nonneg c : 0 <= digit_val c.
Proof. unfold digit_val. zcases. Qed.

Lemma digit_val_chr v : 0 <= v < 36 -> digit_val (digit_chr v) = v.
Proof.
  intros H. unfold digit_val, digit_chr.
  destruct (v <? 10) eqn:E; zbool; rewrite chr_code_chr by lia.
  - replace ((48 <=? 48 + v) && (48 + v <=? 57)) with true by lia. lia.
  - replace ((48 <=? 87 + v) && (87 + v <=? 57)) with false by lia.
    replace ((97 <=? 87 + v) && (87 + v <=? 122)) with true by lia. lia.
Qed.

Lemma isspace_digit_chr v : 0 <= v < 36 -> isspace (digit_chr v) = false.
Proof.
  intros H. unfold isspace, digit_chr.
  destruct (v <? 10) eqn:E; zbool; rewrite chr_code_chr by lia; lia.
Qed.

(** * Search and comparison *)

(** [strchr(s, c)]: the suffix of [s] that starts at the first [c]. *)
Fixpoint strchr (s : cstr) (c : ascii) : option cstr :=
  match s with
  | [] => None
  | x :: r => if ceqb x c then Some s else strchr r c
  end.

(** [strrchr(s, c)]: the suffix of [s] that starts at the last [c]. *)
Fixpoint strrchr (s : cstr) (c : ascii) : option cstr :=
  match s with
  | [] => None
  | x :: r =>
      match strrchr r c with
      | Some t => Some t
      | None => if ceqb x c then Some s else None
      end
  end.

(** [strcmp(s, t) == 0]. *)
Definition streq (s t : cstr) : bool := bool_decide (s = t).

(** [strncmp(s, t, n) == 0]. *)
Definition strneq (s t : cstr) (n : nat) : bool := bool_decide (take n s = take n t).

Fixpoint is_prefix (p s : cstr) : bool :=
  match p, s with
  | [], _ => true
  | a :: p', b :: s' => ceqb a b && is_prefix p' s'
  | _ :: _, [] => false
  end.

(** [strstr(s, p)]: the offset of the first occurrence of [p]. *)
Fixpoint strstr (s p : cstr) : option nat :=
  if is_prefix p s then Some O
  else match s with
       | [] => None
       | _ :: r => match strstr r p with Some k => Some (S k) | None => None end
       end.

(** [strpbrk(s, accept) != NULL]. *)
Definition strpbrk (s accept : cstr) : bool := existsb (fun c => memc c accept) s.

(** The string a buffer holds: its bytes up to the first NUL. *)
Definition cstr_of (buf : cstr) : cstr := takewhile (fun c => negb (ceqb c NUL)) buf.

Lemma streq_true s t : streq s t = true <-> s = t.
Proof. unfold streq. apply bool_decide_eq_true. Qed.

Lemma streq_false s t : streq s t = false <-> s <> t.
Proof. unfold streq. apply bool_decide_eq_false. Qed.

Lemma streq_refl s : streq s s = true.
Proof. now apply streq_true. Qed.

Lemma strchr_None s c : strchr s c = None <-> c ∉ s.
Proof.
  induction s as [|x s IH]; simpl.
  - split; [intros _; set_solver | done].
  - destruct (ceqb x c) eqn:E.
    + apply ceqb_eq in E as ->. split; [done | set_solver].
    + apply ceqb_neq in E. rewrite IH. set_solver.
Qed.

Lemma strchr_app s c r : c ∉ s -> strchr (s ++ c :: r) c = Some (c :: r).
Proof.
  induction s as [|x s IH]; simpl; intros H.
  - now rewrite ceqb_refl.
  - apply not_elem_of_cons in H as [H1 H2].
    destruct (ceqb x c) eqn:E; [apply ceqb_eq in E; congruence | auto].
Qed.

Lemma strchr_Some s c t :
  strchr s c = Some t -> exists p r, s = p ++ c :: r /\ t = c :: r /\ c ∉ p.
Proof.
  induction s as [|x s IH]; simpl; [done|].
  destruct (ceqb x c) eqn:E.
  - apply ceqb_eq in E as ->. intros [= <-]. exists [], s. set_solver.
  - apply ceqb_neq in E. intros H. destruct (IH H) as (p & r & -> & -> & Hp).
    exists (x :: p), r. set_solver.
Qed.

(** * Tokens *)

(** One call of [strtok]: skip separators; NULL at the end of the string,
    otherwise the token and the text the next call continues from. *)
Definition strtok (seps s : cstr) : option (cstr * cstr) :=
  match dropwhile (fun c => memc c seps) s with
  | [] => None
  | s' =>
      Some (takewhile (fun c => negb (memc c seps)) s',
            tail (dropwhile (fun c => negb (memc c seps)) s'))
  end.

(** The tokens successive calls return, up to the first NULL. *)
Fixpoint strtok_loop (fuel : nat) (seps s : cstr) : list cstr :=
  match fuel with
  | O => []
  | S f =>
      match strtok seps s with
      | None => []
      | Some (t, r) => t :: strtok_loop f seps r
      end
  end.

(** Every call consumes a character, so the length of the string is enough
    calls. *)
Definition strtok_all (seps s : cstr) : list cstr := strtok_loop (S (length s)) seps s.

Lemma strtok_shorter seps s t r :
  strtok seps s = Some (t, r) -> (length r < length s)%nat.
Proof.
  unfold strtok. pose proof (dropwhile_length (fun c => memc c seps) s) as H1.
  destruct (dropwhile _ s) as [|x s'] eqn:E; [done|]. intros [= _ <-].
  apply dropwhile_head in E. simpl. rewrite E. simpl.
  pose proof (dropwhile_length (fun c => negb (memc c seps)) s').
  simpl in H1. destruct (dropwhile _ s'); simpl in *; lia.
Qed.

Lemma strtok_loop_fuel seps f g s :
  (length s < f)%nat -> (length s < g)%nat ->
  strtok_loop f seps s = strtok_loop g seps s.
Proof.
  revert g s. induction f as [|f IH]; intros [|g] s Hf Hg; try lia.
  simpl. destruct (strtok seps s) as [[t r]|] eqn:E; [|done].
  apply strtok_shorter in E. f_equal. apply IH; lia.
Qed.

Lemma strtok_all_unfold seps s :
  strtok_all seps s =
  match strtok seps s with None => [] | Some (t, r) => t :: strtok_all seps r end.
Proof.
  unfold strtok_all at 1. cbn [strtok_loop].
  destruct (strtok seps s) as [[t r]|] eqn:E; [|done].
  f_equal. apply strtok_shorter in E. apply strtok_loop_fuel; lia.
Qed.

(** Every token is non-empty and has no separator. *)
Lemma strtok_token seps s t r :
  strtok seps s = Some (t, r) -> t <> [] /\ Forall (fun c => c ∉ seps) t.
Proof.
  unfold strtok. destruct (dropwhile _ s) as [|x s'] eqn:E; [done|].
  apply dropwhile_head in E.
  pose proof (takewhile_all (fun c => negb (memc c seps)) (x :: s')) as Hall.
  simpl in *. rewrite E in *. simpl in *. intros [= <- _]. split; [done|].
  eapply Forall_impl; [|exact Hall]. simpl. intros c H.
  apply negb_true_iff, memc_false in H. done.
Qed.

Lemma strtok_all_tokens seps s :
  Forall (fun t => t <> [] /\ Forall (fun c => c ∉ seps) t) (strtok_all seps s).
Proof.
  unfold strtok_all. generalize (S (length s)) as f. intros f. revert s.
  induction f as [|f IH]; intros s; simpl; [constructor|].
  destruct (strtok seps s) as [[t r]|] eqn:E; constructor; [|apply IH].
  now apply strtok_token in E.
Qed.

(** Leading separators are skipped. *)
Lemma strtok_all_sep seps c s : c ∈ seps -> strtok_all seps (c :: s) = strtok_all seps s.
Proof.
  intros H. rewrite (strtok_all_unfold seps (c :: s)), (strtok_all_unfold seps s).
  unfold strtok. simpl. apply memc_true in H. now rewrite H.
Qed.

Lemma strtok_all_nil seps : strtok_all seps [] = [].
Proof. done. Qed.

(** A token followed by a separator, or by the end of the string. *)
Lemma strtok_all_token seps t c s :
  t <> [] -> Forall (fun x => x ∉ seps) t -> c ∈ seps ->
  strtok_all seps (t ++ c :: s) = t :: strtok_all seps s.
Proof.
  intros Hne Ht Hc. rewrite strtok_all_unfold. unfold strtok.
  assert (Hall : Forall (fun x => negb (memc x seps) = true) t).
  { eapply Forall_impl; [|exact Ht]. simpl. intros x Hx.
    apply memc_false in Hx. now rewrite Hx. }
  assert (Hc' : negb (memc c seps) = false).
  { apply memc_true in Hc. now rewrite Hc. }
  destruct t as [|x t]; [done|].
  rewrite <- app_comm_cons. rewrite dropwhile_stop.
  2:{ inversion Hall; subst. now apply negb_true_iff. }
  rewrite app_comm_cons, takewhile_app, dropwhile_app by done. done.
Qed.

Lemma strtok_all_last seps t :
  t <> [] -> Forall (fun x => x ∉ seps) t -> strtok_all seps t = [t].
Proof.
  intros Hne Ht. rewrite strtok_all_unfold. unfold strtok.
  assert (Hall : Forall (fun x => negb (memc x seps) = true) t).
  { eapply Forall_impl; [|exact Ht]. simpl. intros x Hx.
    apply memc_false in Hx. now rewrite Hx. }
  destruct t as [|x t]; [done|].
  rewrite dropwhile_stop.
  2:{ inversion Hall; subst. now apply negb_true_iff. }
  rewrite takewhile_id, dropwhile_id by done. done.
Qed.

(** Joining tokens with one separator between them is undone by [strtok]. *)
Fixpoint join (sep : cstr) (l : list cstr) : cstr :=
  match l with
  | [] => []
  | [t] => t
  | t :: r => t ++ sep ++ join sep r
  end.

Lemma strtok_all_join seps c l :
  c ∈ seps ->
  Forall (fun t => t <> [] /\ Forall (fun x => x ∉ seps) t) l ->
  strtok_all seps (join [c] l) = l.
Proof.
  intros Hc H. induction H as [|t l [Hne Ht] Hl IH]; [done|].
  destruct l as [|t' l]; simpl join.
  - now apply strtok_all_last.
  - rewrite strtok_all_token by done. simpl in IH. now rewrite IH.
Qed.

(** * Numbers *)

Definition num_val (b : Z) (ds : cstr) : Z :=
  fold_left (fun a c => a * b + digit_val c) ds 0.

(** The optional sign of a number: whether it is a minus, and the rest. *)
Definition scan_sign (s : cstr) : bool * cstr :=
  match s with
  | c :: r =>
      if ceqb c "-" then (true, r) else if ceqb c "+" then (false, r) else (false, s)
  | [] => (false, s)
  end.

(** The base a number is read in, and the text after a [0x] prefix. *)
Definition scan_base (base : Z) (s : cstr) : Z * cstr :=
  match s with
  | z :: r =>
      if ceqb z "0" then
        match r with
        | x :: h :: t =>
            if ((base =? 16) || (base =? 0)) && (ceqb x "x" || ceqb x "X")
               && isdigit_base 16 h
            then (16, h :: t)
            else ((if base =? 0 then 8 else base), s)
        | _ => ((if base =? 0 then 8 else base), s)
        end
      else ((if base =? 0 then 10 else base), s)
  | [] => ((if base =? 0 then 10 else base), s)
  end.

(** The common part of [strtol] and [strtoul]: white space, a sign, the base
    prefix, the digits.  [None] when there is no digit; otherwise the sign,
    the magnitude and the text after the number. *)
Definition strto (base : Z) (s : cstr) : option (bool * Z * cstr) :=
  let '(neg, s2) := scan_sign (dropwhile isspace s) in
  let '(b, s3) := scan_base base s2 in
  match takewhile (isdigit_base b) s3 with
  | [] => None
  | ds => Some (neg, num_val b ds, dropwhile (isdigit_base b) s3)
  end.

(** [strtol(s, &end, base)]: value, end, and whether errno became ERANGE. *)
Definition strtol (base : Z) (s : cstr) : Z * cstr * bool :=
  match strto base s with
  | None => (0, s, false)
  | Some (neg, m, r) =>
      let v := if neg : bool then - m else m in
      if LONG_MAX <? v then (LONG_MAX, r, true)
      else if v <? LONG_MIN then (LONG_MIN, r, true)
      else (v, r, false)
  end.

Definition ULONG_MAX : Z := 18446744073709551615.

(** [strtoul(s, &end, base)]. *)
Definition strtoul (base : Z) (s : cstr) : Z * cstr :=
  match strto base s with
  | None => (0, s)
  | Some (neg, m, r) =>
      (if ULONG_MAX <? m then ULONG_MAX else if neg : bool then u64 (- m) else m, r)
  end.

(** [atoi(s)]: glibc's [(int) strtol(s, NULL, 10)]. *)
Definition atoi (s : cstr) : Z := s32 (strtol 10 s).1.1.

(** [sscanf(s, "%u%c", &a, &c)]: the return value, what is stored in [a] and
    in [c] where it is. *)
Definition sscanf_u_c (s : cstr) : Z * option Z * option ascii :=
  match dropwhile isspace s with
  | [] => (-1, None, None)
  | _ =>
      match strto 10 s with
      | None => (0, None, None)
      | Some _ =>
          let '(v, r) := strtoul 10 s in
          match r with
          | [] => (1, Some (u32 v), None)
          | c :: _ => (2, Some (u32 v), Some c)
          end
      end
  end.

(** [sscanf(s, "%i%c", &i, &c)] (base 0) and [sscanf(s, "%d%c", ...)] (base
    10): the return value, what is stored in [i] and in [c]. *)
Definition sscanf_int_c (base : Z) (s : cstr) : Z * option Z * option ascii :=
  match dropwhile isspace s with
  | [] => (-1, None, None)
  | _ =>
      match strto base s with
      | None => (0, None, None)
      | Some _ =>
          let '(v, r, _) := strtol base s in
          match r with
          | [] => (1, Some (s32 v), None)
          | c :: _ => (2, Some (s32 v), Some c)
          end
      end
  end.

(** Digits of a natural number, most significant first. *)
Fixpoint num_str (fuel : nat) (b n : Z) : cstr :=
  match fuel with
  | O => []
  | S f => (if n <? b then [] else num_str f b (n / b)) ++ [digit_chr (n mod b)]
  end.

(** A number has at most as many digits as it has bits. *)
Definition fmt_nat (b n : Z) : cstr := num_str (S (Z.to_nat (Z.log2 n))) b n.

(** [%d]. *)
Definition fmt_d (z : Z) : cstr :=
  if z <? 0 then "-"%char :: fmt_nat 10 (- z) else fmt_nat 10 z.

(** [%0*x]. *)
Definition fmt_0x (width : nat) (n : Z) : cstr :=
  let d := fmt_nat 16 n in replicate (width - length d) "0"%char ++ d.

(** [%-*.*s] with both numbers [n]: left justified, padded with blanks or
    truncated to [n] characters. *)
Definition fmt_pad (n : nat) (s : cstr) : cstr :=
  take n s ++ replicate (n - length (take n s)) " "%char.

(** [snprintf(buf, size, ...)] of the text [s]: what is stored in [buf]. *)
Definition snprintf_buf (size : nat) (s : cstr) : cstr := take (size - 1) s.

(** ** Digits *)

Lemma num_val_snoc b ds c : num_val b (ds ++ [c]) = num_val b ds * b + digit_val c.
Proof. unfold num_val. rewrite fold_left_app. done. Qed.

Lemma num_str_val fuel b n :
  2 <= b <= 36 -> 0 <= n < 2 ^ Z.of_nat fuel -> num_val b (num_str fuel b n) = n.
Proof.
  intros Hb. revert n. induction fuel as [|f IH]; intros n Hn.
  - simpl in *. change (num_val b []) with 0. lia.
  - cbn [num_str]. rewrite num_val_snoc.
    rewrite digit_val_chr by (pose proof (Z.mod_pos_bound n b); lia).
    rewrite Nat2Z.inj_succ, Z.pow_succ_r in Hn by lia.
    destruct (n <? b) eqn:E; zbool.
    + change (num_val b []) with 0. rewrite Z.mod_small by lia. lia.
    + rewrite IH.
      * pose proof (Z.div_mod n b). lia.
      * split; [apply Z.div_pos; lia|]. apply Z.div_lt_upper_bound; nia.
Qed.

Lemma num_str_nonnil fuel b n : num_str (S fuel) b n <> [].
Proof. cbn [num_str]. intros H. apply app_nil in H as [_ H]. done. Qed.

Lemma num_str_digits fuel b n :
  2 <= b <= 36 -> 0 <= n ->
  Forall (fun c => exists v, 0 <= v < b /\ c = digit_chr v) (num_str fuel b n).
Proof.
  intros Hb. revert n. induction fuel as [|f IH]; intros n Hn; [constructor|].
  cbn [num_str]. apply Forall_app. split.
  - destruct (n <? b); [constructor|]. apply IH. apply Z.div_pos; lia.
  - constructor; [|constructor]. exists (n mod b).
    pose proof (Z.mod_pos_bound n b). split; [lia|done].
Qed.

Lemma num_str_length fuel b n w :
  2 <= b -> 0 <= n < b ^ Z.of_nat w -> (0 < w)%nat -> (length (num_str fuel b n) <= w)%nat.
Proof.
  intros Hb. revert n w. induction fuel as [|f IH]; intros n w Hn Hw; [simpl; lia|].
  cbn [num_str]. rewrite length_app. simpl length.
  destruct (n <? b) eqn:E; zbool; [simpl; lia|].
  destruct w as [|[|w]]; [lia| |].
  - change (Z.of_nat 1) with 1 in Hn. rewrite Z.pow_1_r in Hn. lia.
  - specialize (IH (n / b) (S w)).
    rewrite (Nat2Z.inj_succ (S w)), Z.pow_succ_r in Hn by lia.
    assert (0 <= n / b < b ^ Z.of_nat (S w)).
    { split; [apply Z.div_pos; lia|]. apply Z.div_lt_upper_bound; lia. }
    lia.
Qed.

Lemma fmt_d_nonneg z : 0 <= z -> fmt_d z = fmt_nat 10 z.
Proof. intros H. unfold fmt_d. now rewrite (proj2 (Z.ltb_ge z 0)) by lia. Qed.

Lemma fmt_nat_fuel n : 0 <= n -> n < 2 ^ Z.of_nat (S (Z.to_nat (Z.log2 n))).
Proof.
  intros H. rewrite Nat2Z.inj_succ, Z2Nat.id by apply Z.log2_nonneg.
  destruct (Z.eq_dec n 0) as [->|Hn]; [done|].
  apply Z.log2_spec. lia.
Qed.

Lemma fmt_nat_val b n : 2 <= b <= 36 -> 0 <= n -> num_val b (fmt_nat b n) = n.
Proof.
  intros Hb Hn. unfold fmt_nat. apply num_str_val; [done|].
  split; [done|]. now apply fmt_nat_fuel.
Qed.

Lemma fmt_nat_nonnil b n : fmt_nat b n <> [].
Proof. apply num_str_nonnil. Qed.

Lemma fmt_nat_digits b n :
  2 <= b <= 36 -> 0 <= n ->
  Forall (fun c => exists v, 0 <= v < b /\ c = digit_chr v) (fmt_nat b n).
Proof. apply num_str_digits. Qed.

Lemma fmt_nat_isdigit b n :
  2 <= b <= 36 -> 0 <= n -> Forall (fun c => isdigit_base b c = true) (fmt_nat b n).
Proof.
  intros Hb Hn. eapply Forall_impl; [|now apply fmt_nat_digits]. simpl.
  intros c (v & Hv & ->). unfold isdigit_base. rewrite digit_val_chr; lia.
Qed.

Lemma num_val_lt b ds :
  2 <= b <= 36 -> Forall (fun c => isdigit_base b c = true) ds ->
  num_val b ds < b ^ Z.of_nat (length ds).
Proof.
  intros Hb. induction ds as [|c ds IH] using rev_ind; intros Hds; [done|].
  apply Forall_app in Hds as [Hds Hc]. apply Forall_cons_1 in Hc as [Hc _].
  rewrite num_val_snoc, length_app, Nat2Z.inj_add. cbn [length]. change (Z.of_nat 1) with 1.
  rewrite Z.pow_add_r, Z.pow_1_r by lia. specialize (IH Hds).
  unfold isdigit_base in Hc. apply Z.ltb_lt in Hc. nia.
Qed.

Lemma num_val_zeros b k ds :
  num_val b (replicate k "0"%char ++ ds) = num_val b ds.
Proof.
  induction k as [|k IH]; simpl; [done|]. rewrite <- IH. unfold num_val. done.
Qed.

(** ** Scanning what was formatted *)

(** The first character of a digit string is neither blank nor a sign. *)
Lemma digit_chr_not_sign v : 0 <= v < 36 -> digit_chr v <> "-"%char /\ digit_chr v <> "+"%char.
Proof.
  intros H. split; intros E; apply (f_equal chr_code) in E; unfold digit_chr in E;
    destruct (v <? 10) eqn:Ev; zbool; rewrite chr_code_chr in E by lia;
    assert (chr_code "-" = 45) by done; assert (chr_code "+" = 43) by done; lia.
Qed.

Lemma scan_base_10 s : scan_base 10 s = (10, s).
Proof.
  destruct s as [|z r]; [done|]. unfold scan_base. simpl.
  destruct (ceqb z "0"); [|done]. destruct r as [|x [|h t]]; done.
Qed.

Lemma scan_sign_digit v s : 0 <= v < 36 -> scan_sign (digit_chr v :: s) = (false, digit_chr v :: s).
Proof.
  intros H. destruct (digit_chr_not_sign v H) as [Hm Hp]. unfold scan_sign.
  apply ceqb_neq in Hm, Hp. now rewrite Hm, Hp.
Qed.

Lemma isspace_sign c : c = "-"%char \/ c = "+"%char -> isspace c = false.
Proof. intros [-> | ->]; done. Qed.

(** The text after a number does not continue it. *)
Definition ends_number (b : Z) (r : cstr) : Prop :=
  match r with [] => True | c :: _ => isdigit_base b c = false end.

Lemma takewhile_ends b ds r :
  Forall (fun c => isdigit_base b c = true) ds -> ends_number b r ->
  takewhile (isdigit_base b) (ds ++ r) = ds /\ dropwhile (isdigit_base b) (ds ++ r) = r.
Proof.
  intros H Hr. destruct r as [|c r].
  - rewrite app_nil_r. split; [now apply takewhile_id | now apply dropwhile_id].
  - split; [now apply takewhile_app | now apply dropwhile_app].
Qed.

(** [strto] in base 10 on what [%d] and [%u] write, followed by a
    non-digit. *)
Lemma strto_fmt_nat (neg : bool) n r :
  0 <= n -> ends_number 10 r ->
  strto 10 ((if neg then ["-"%char] else []) ++ fmt_nat 10 n ++ r) = Some (neg, n, r).
Proof.
  intros Hn Hr.
  pose proof (fmt_nat_digits 10 n) as Hds. specialize (Hds ltac:(lia) Hn).
  pose proof (fmt_nat_isdigit 10 n ltac:(lia) Hn) as Hdig.
  pose proof (fmt_nat_nonnil 10 n) as Hne.
  pose proof (fmt_nat_val 10 n ltac:(lia) Hn) as Hv.
  destruct (takewhile_ends 10 _ r Hdig Hr) as [Ht Hd].
  unfold strto. destruct (fmt_nat 10 n) as [|d ds]; [done|].
  apply Forall_cons_1 in Hds as [(v & Hv' & ->) _].
  destruct neg; cbn [app] in *.
  - rewrite dropwhile_stop by (apply isspace_sign; auto).
    cbn [scan_sign]. rewrite ceqb_refl, scan_base_10, Ht, Hd, Hv. done.
  - rewrite dropwhile_stop by (apply isspace_digit_chr; lia).
    rewrite scan_sign_digit by lia. rewrite scan_base_10, Ht, Hd, Hv. done.
Qed.

(** [atoi] reads back what [%d] wrote, whatever follows it. *)
Lemma strtol_fmt_d z r :
  LONG_MIN <= z <= LONG_MAX -> ends_number 10 r -> strtol 10 (fmt_d z ++ r) = (z, r, false).
Proof.
  intros Hz Hr. unfold strtol, fmt_d. destruct (z <? 0) eqn:E; zbool.
  - pose proof (strto_fmt_nat true (- z) r ltac:(lia) Hr) as H. cbn [app] in H.
    rewrite <- app_comm_cons, H, Z.opp_involutive. zcases. done.
  - pose proof (strto_fmt_nat false z r ltac:(lia) Hr) as H. cbn [app] in H.
    rewrite H. zcases. done.
Qed.

Lemma atoi_fmt_d z r :
  INT_MIN <= z <= INT_MAX -> ends_number 10 r -> atoi (fmt_d z ++ r) = z.
Proof.
  intros Hz Hr. unfold atoi. rewrite strtol_fmt_d;
    [|unfold INT_MIN, INT_MAX, LONG_MIN, LONG_MAX in *; lia|done].
  cbn [fst]. now rewrite s32_small.
Qed.

(** ** Zero-filled hexadecimal *)

Lemma fmt_0x_length w n : (0 < w)%nat -> 0 <= n < 16 ^ Z.of_nat w -> length (fmt_0x w n) = w.
Proof.
  intros Hw Hn. unfold fmt_0x. rewrite length_app, length_replicate.
  pose proof (num_str_length (S (Z.to_nat (Z.log2 n))) 16 n w ltac:(lia) Hn Hw).
  unfold fmt_nat. lia.
Qed.

Lemma fmt_0x_digits w n :
  0 <= n -> Forall (fun c => exists v, 0 <= v < 16 /\ c = digit_chr v) (fmt_0x w n).
Proof.
  intros Hn. apply Forall_app. split; [|apply fmt_nat_digits; lia].
  apply Forall_replicate. now exists 0.
Qed.

Lemma scan_base_16_digits ds r :
  Forall (fun c => isdigit_base 16 c = true) ds -> ends_number 16 r -> hd_error r <> Some "x"%char ->
  hd_error r <> Some "X"%char -> scan_base 16 (ds ++ r) = (16, ds ++ r).
Proof.
  intros Hds Hr Hx HX. assert (Hno : forall x, hd_error (tail ds ++ r) = Some x ->
    ceqb x "x" || ceqb x "X" = false).
  { intros x Hhd. apply orb_false_iff. rewrite !ceqb_neq. destruct ds as [|d [|e ds]]; cbn in Hhd.
    1, 2: split; congruence.
    injection Hhd as <-. apply Forall_cons_1 in Hds as [_ Hds]. apply Forall_cons_1 in Hds as [He _].
    split; intros ->; done. }
  destruct ds as [|d ds]; cbn [app scan_base].
  - destruct r as [|c r]; [done|]. cbn in Hr. unfold scan_base.
    destruct (ceqb c "0") eqn:E; [|done].
    apply ceqb_eq in E. now subst.
  - cbn [tail] in Hno. destruct (ceqb d "0"); [|done].
    destruct (ds ++ r) as [|x [|h t]]; [done|done|]. now rewrite (Hno x eq_refl).
Qed.

Lemma strto_fmt_0x w n r :
  0 <= n -> r = [] \/ hd_error r = Some ","%char ->
  strto 16 (fmt_0x w n ++ r) = Some (false, n, r).
Proof.
  intros Hn Hr.
  pose proof (fmt_0x_digits w n Hn) as Hds.
  assert (Hdig : Forall (fun c => isdigit_base 16 c = true) (fmt_0x w n)).
  { eapply Forall_impl; [|exact Hds]. intros c (v & Hv & ->). unfold isdigit_base.
    rewrite digit_val_chr; lia. }
  assert (Hend : ends_number 16 r).
  { destruct r as [|c r]; [done|]. destruct Hr as [?|[= ->]]; done. }
  assert (Hb : scan_base 16 (fmt_0x w n ++ r) = (16, fmt_0x w n ++ r)).
  { apply scan_base_16_digits; try done; destruct Hr as [->|E]; cbn; congruence. }
  destruct (takewhile_ends 16 _ r Hdig Hend) as [Ht Hd].
  assert (Hv : num_val 16 (fmt_0x w n) = n).
  { unfold fmt_0x. rewrite num_val_zeros. apply fmt_nat_val; lia. }
  assert (Hne : fmt_0x w n <> []).
  { unfold fmt_0x. intros [_ E]%app_nil. now apply fmt_nat_nonnil in E. }
  unfold strto. destruct (fmt_0x w n) as [|d ds]; [done|].
  apply Forall_cons_1 in Hds as [(v & Hv' & ->) _]. cbn [app] in *.
  rewrite dropwhile_stop by (apply isspace_digit_chr; lia).
  rewrite scan_sign_digit by lia. rewrite Hb, Ht, Hd, Hv. done.
Qed.

(** ** Padding *)

Lemma fmt_pad_length n s : length (fmt_pad n s) = n.
Proof.
  unfold fmt_pad. rewrite length_app, length_replicate, length_take. lia.
Qed.

(** ** Bounds and buffers *)

(** An [int] takes at most eleven characters. *)
Lemma fmt_d_length z : INT_MIN <= z <= INT_MAX -> (1 <= length (fmt_d z) <= 11)%nat.
Proof.
  intros Hz. unfold INT_MIN, INT_MAX in Hz. unfold fmt_d.
  assert (H : forall n, 0 <= n <= 2147483648 -> (1 <= length (fmt_nat 10 n) <= 10)%nat).
  { intros n Hn. split; [|unfold fmt_nat; apply num_str_length; cbn; lia].
    pose proof (fmt_nat_nonnil 10 n). destruct (fmt_nat 10 n); [done|cbn; lia]. }
  destruct (z <? 0) eqn:E; zbool; [specialize (H (- z))|specialize (H z)]; cbn [length]; lia.
Qed.

(** A buffer that begins with characters other than NUL. *)
Lemma cstr_of_app l r : NUL ∉ l -> cstr_of (l ++ r) = l ++ cstr_of r.
Proof.
  unfold cstr_of. induction l as [|c l IH]; intros H; [done|].
  apply not_elem_of_cons in H as [H1 H2]. cbn [app takewhile].
  destruct (ceqb c NUL) eqn:E; [apply ceqb_eq in E; congruence|]. cbn. now rewrite IH.
Qed.
