(* ===== verification/Splitstr.v ===== *)
(** pan/splitstr.c: splitting a string into an argument array.

    The array is modelled with the cells the C code has: uninitialised after
    [malloc]/[realloc], NULL, or a pointer into the private copy
    [arg_string] of the string, kept as the offset of the token together with
    its text.  The offset is what [splitstr_free] hands to [free].  The results
    of the allocator are a parameter. *)
From Stdlib Require Import Ascii String ZArith Lia Bool.
From stdpp Require Import base list sets numbers.
From S2P Require Import Prelude CString.

Local Open Scope nat_scope.

(** ** Data *)

Inductive cell :=
| Uninit
| Null
| Tok (off : nat) (text : cstr).

(** Outcomes of the allocator calls of one [splitstr]. *)
Record alloc := {
  strdup_ok : bool;
  malloc_ok : bool;
  realloc_ok : nat -> bool       (* by the size asked for *)
}.

Inductive split_result :=
| SplitNull                      (* NULL returned, *argcount = 0 *)
| SplitExit (code : Z)           (* exit(code) *)
| SplitOob                       (* a store outside the array *)
| SplitOk (arg_array : list cell) (argcount : nat).

(** ** Operations *)

(** [arg_array[i] = v]; storing outside the array is an error. *)
Definition store (arr : list cell) (i : nat) (v : cell) : option (list cell) :=
  if i <? length arr then Some (<[i := v]> arr) else None.

(** A call of [strtok] on the part [rest] of [arg_string] (whose length is
    [total]) that was not scanned yet: the token with its offset, and what is
    left. *)
Definition next_tok (seps : cstr) (total : nat) (rest : cstr) : option (cell * cstr) :=
  match strtok seps rest with
  | None => None
  | Some (t, rest') =>
      Some (Tok (total - length (dropwhile (fun c => memc c seps) rest)) t, rest')
  end.

(** The [while (cur_tok != NULL)] loop. *)
Fixpoint split_loop (al : alloc) (seps : cstr) (total : nat) (fuel : nat)
    (cur : option (cell * cstr)) (arr : list cell) (num_toks max_toks : nat)
    : split_result :=
  match cur with
  | None => SplitOk arr num_toks
  | Some (tok, rest) =>
      match fuel with
      | O => SplitOob
      | S f =>
          match store arr num_toks tok with
          | None => SplitOob
          | Some arr' =>
              let num' := num_toks + 1 in
              let cur' := next_tok seps total rest in
              if num' =? max_toks then
                let max' := max_toks + 20 in
                if realloc_ok al max'
                then split_loop al seps total f cur' (arr' ++ replicate 20 Uninit) num' max'
                else SplitExit 1
              else split_loop al seps total f cur' arr' num' max_toks
          end
      end
  end.

(** The stores of NULL after the last token: [arg_array[num_toks] = NULL] and
    the loop that clears the rest. *)
Fixpoint clear_from (arr : list cell) (i : nat) (n : nat) : option (list cell) :=
  match n with
  | O => Some arr
  | S n' =>
      match store arr i Null with
      | None => None
      | Some arr' => clear_from arr' (i + 1) n'
      end
  end.

Definition splitstr (al : alloc) (s : option cstr) (separator : option cstr) : split_result :=
  match s with
  | None => SplitNull
  | Some s =>
      if strdup_ok al then
        if malloc_ok al then
          let seps := match separator with None => [" "%char; TAB] | Some q => q end in
          let total := length s in
          match split_loop al seps total (S total) (next_tok seps total s)
                           (replicate 20 Uninit) 0 20 with
          | SplitOk arr num =>
              match clear_from arr num (length arr - num) with
              | Some arr' => SplitOk arr' num
              | None => SplitOob
              end
          | r => r
          end
        else SplitNull
      else SplitNull
  end.

(** What a caller reads by walking the array up to the first NULL. *)
Fixpoint args (arr : list cell) : list cstr :=
  match arr with
  | Tok _ t :: r => t :: args r
  | _ => []
  end.

(** [splitstr_free]: the two calls of [free].  The first argument is the
    pointer in [arg_array[0]]; [free] is defined on it only when it is the
    start of the block, offset 0. *)
Inductive free_result :=
| FreeCrash                      (* NULL dereferenced *)
| FreeInvalid (off : nat)        (* free of a pointer inside a block *)
| FreeOk (string_freed : bool).

Definition splitstr_free (p_return : option (list cell)) : free_result :=
  match p_return with
  | None => FreeCrash
  | Some [] => FreeCrash
  | Some (Tok off _ :: _) => if off =? 0 then FreeOk true else FreeInvalid off
  | Some (_ :: _) => FreeOk false
  end.

(** ** Lemmas *)

Section Correct.
Context (al : alloc) (seps : cstr).

Lemma store_app l1 x l2 v :
  store (l1 ++ x :: l2) (length l1) v = Some (l1 ++ v :: l2).
Proof.
  unfold store. rewrite length_app. simpl.
  replace (length l1 <? length l1 + S (length l2)) with true
    by (symmetry; apply Nat.ltb_lt; lia).
  rewrite insert_app_r_alt, Nat.sub_diag by lia. done.
Qed.

(** The cells for the tokens of [rest]. *)
Fixpoint tok_cells (total fuel : nat) (rest : cstr) : list cell :=
  match fuel with
  | O => []
  | S f =>
      match next_tok seps total rest with
      | None => []
      | Some (c, rest') => c :: tok_cells total f rest'
      end
  end.

Lemma next_tok_shorter total rest c rest' :
  next_tok seps total rest = Some (c, rest') -> length rest' < length rest.
Proof.
  unfold next_tok. destruct (strtok seps rest) as [[t r]|] eqn:E; [|done].
  intros [= <- <-]. now apply strtok_shorter in E.
Qed.

Lemma args_tok_cells total fuel rest tl :
  args (tok_cells total fuel rest ++ Null :: tl) = strtok_loop fuel seps rest.
Proof.
  revert rest. induction fuel as [|f IH]; intros rest; simpl; [done|].
  unfold next_tok. destruct (strtok seps rest) as [[t r]|]; simpl; [|done].
  f_equal. apply IH.
Qed.

Lemma tok_cells_length total fuel rest :
  length (tok_cells total fuel rest) = length (strtok_loop fuel seps rest).
Proof.
  revert rest. induction fuel as [|f IH]; intros rest; simpl; [done|].
  unfold next_tok. destruct (strtok seps rest) as [[t r]|]; simpl; [|done].
  f_equal. apply IH.
Qed.

Hypothesis realloc_all : forall n, realloc_ok al n = true.

(** The loop fills the array with the tokens, never outside it, and leaves
    room for the terminating NULL. *)
Lemma split_loop_spec total fuel rest pre num max :
  length rest < fuel -> length pre = num -> num < max ->
  exists free,
    split_loop al seps total fuel (next_tok seps total rest)
      (pre ++ replicate (max - num) Uninit) num max
    = SplitOk (pre ++ tok_cells total fuel rest ++ replicate (S free) Uninit)
              (num + length (tok_cells total fuel rest)).
Proof.
  revert rest pre num max. induction fuel as [|f IH]; intros rest pre num max Hf Hd Hm; [lia|].
  cbn [tok_cells split_loop].
  destruct (next_tok seps total rest) as [[c rest']|] eqn:E.
  2:{ exists (max - num - 1). cbn [app length]. rewrite Nat.add_0_r.
      replace (S (max - num - 1)) with (max - num) by lia. done. }
  apply next_tok_shorter in E.
  replace (max - num) with (S (max - num - 1)) by lia. rewrite replicate_S.
  replace (store (pre ++ Uninit :: replicate (max - num - 1) Uninit) num c)
    with (Some (pre ++ c :: replicate (max - num - 1) Uninit))
    by (rewrite <- Hd; symmetry; apply store_app).
  assert (Hd' : length (pre ++ [c]) = num + 1) by (rewrite length_app; simpl; lia).
  destruct (num + 1 =? max) eqn:Em; [apply Nat.eqb_eq in Em | apply Nat.eqb_neq in Em].
  - rewrite realloc_all.
    destruct (IH rest' (pre ++ [c]) (num + 1) (max + 20)) as [free Hfree]; [lia|done|lia|].
    replace (max + 20 - (num + 1)) with 20 in Hfree by lia.
    replace (max - num - 1) with 0 by lia. change (replicate 0 Uninit) with (@nil cell).
    exists free. rewrite <- app_assoc in Hfree. cbn [app length] in *.
    rewrite <- !app_assoc in *. cbn [app] in *. rewrite Hfree. f_equal; lia.
  - destruct (IH rest' (pre ++ [c]) (num + 1) max) as [free Hfree]; [lia|done|lia|].
    exists free. rewrite <- !app_assoc in Hfree. cbn [app length] in *.
    replace (max - num - 1) with (max - (num + 1)) by lia.
    rewrite Hfree. f_equal; lia.
Qed.

Lemma clear_from_spec pre n :
  clear_from (pre ++ replicate n Uninit) (length pre) n = Some (pre ++ replicate n Null).
Proof.
  revert pre. induction n as [|n IH]; intros pre; simpl; [done|].
  rewrite store_app. specialize (IH (pre ++ [Null])).
  rewrite length_app in IH. cbn [length] in IH. rewrite <- !app_assoc in IH. exact IH.
Qed.
End Correct.

Definition seps_of (separator : option cstr) : cstr :=
  match separator with None => [" "%char; TAB] | Some q => q end.

Definition all_alloc : alloc :=
  {| strdup_ok := true; malloc_ok := true; realloc_ok := fun _ => true |}.

Lemma splitstr_cells al s separator :
  strdup_ok al = true -> malloc_ok al = true -> (forall n, realloc_ok al n = true) ->
  exists free,
    splitstr al (Some s) separator =
    SplitOk (tok_cells (seps_of separator) (length s) (S (length s)) s
               ++ replicate (S free) Null)
            (length (strtok_all (seps_of separator) s)).
Proof.
  intros H1 H2 H3. unfold splitstr. rewrite H1, H2.
  change (match separator with None => [" "%char; TAB] | Some q => q end)
    with (seps_of separator).
  destruct (split_loop_spec al (seps_of separator) H3 (length s) (S (length s)) s [] 0 20)
    as [free Hl]; [lia|done|lia|].
  change (20 - 0) with 20 in Hl. cbn [app] in Hl. cbn zeta. rewrite Hl.
  set (tc := tok_cells _ _ _ _). exists free.
  replace (length (tc ++ replicate (S free) Uninit) - (0 + length tc)) with (S free)
    by (rewrite length_app, length_replicate; lia).
  cbn [Nat.add]. rewrite clear_from_spec. f_equal.
  apply tok_cells_length.
Qed.

(** ** Properties *)

(** C40: [splitstr] returns exactly the tokens of the string, in order, followed by
    NULL up to the end of the array, and [*argcount] is their number; no store
    is outside the array however many tokens there are. *)
Theorem splitstr_correct al s separator :
  strdup_ok al = true -> malloc_ok al = true -> (forall n, realloc_ok al n = true) ->
  exists arr n,
    splitstr al (Some s) separator = SplitOk arr n /\
    args arr = strtok_all (seps_of separator) s /\
    n = length (args arr) /\ n < length arr /\
    (forall i, n <= i < length arr -> arr !! i = Some Null).
Proof.
  intros H1 H2 H3. destruct (splitstr_cells al s separator H1 H2 H3) as [free H].
  set (tc := tok_cells _ _ _ _) in H.
  exists (tc ++ replicate (S free) Null), (length (strtok_all (seps_of separator) s)).
  assert (Ha : args (tc ++ replicate (S free) Null) = strtok_all (seps_of separator) s).
  { apply args_tok_cells. }
  assert (Hlen : length tc = length (strtok_all (seps_of separator) s)).
  { apply tok_cells_length. }
  split; [exact H|]. split; [exact Ha|]. split; [now rewrite Ha|].
  rewrite length_app, length_replicate. split; [lia|].
  intros i Hi. rewrite lookup_app_r by lia. apply lookup_replicate_2. lia.
Qed.

Lemma splitstr_correct_witness :
  exists arr n,
    splitstr all_alloc (Some §"a,b") (Some §",") = SplitOk arr n /\
    args arr = strtok_all (seps_of (Some §",")) §"a,b" /\
    n = length (args arr) /\ n < length arr /\
    (forall i, n <= i < length arr -> arr !! i = Some Null).
Proof. apply (splitstr_correct all_alloc §"a,b" (Some §",")); reflexivity. Defined.

(** [splitstr_free] frees the private copy through the first token: it is a
    valid call of [free] when the string does not start with a separator,
    frees nothing (leaks the copy) when there is no token, and otherwise hands
    [free] a pointer inside the block. *)
Theorem splitstr_free_result al s separator arr n :
  strdup_ok al = true -> malloc_ok al = true -> (forall k, realloc_ok al k = true) ->
  splitstr al (Some s) separator = SplitOk arr n ->
  splitstr_free (Some arr) =
    if n =? 0 then FreeOk false
    else let skipped := length (takewhile (fun c => memc c (seps_of separator)) s) in
         if skipped =? 0 then FreeOk true else FreeInvalid skipped.
Proof.
  intros H1 H2 H3. destruct (splitstr_cells al s separator H1 H2 H3) as [free ->].
  intros [= <- <-]. set (p := fun c => memc c (seps_of separator)).
  assert (Hlen : length s - length (dropwhile p s) = length (takewhile p s)).
  { rewrite <- (take_drop_while p s) at 1. rewrite length_app. lia. }
  cbn [tok_cells]. rewrite strtok_all_unfold. unfold next_tok. fold p.
  destruct (strtok (seps_of separator) s) as [[t r]|]; [|done].
  cbn -[replicate]. now rewrite Hlen.
Qed.

Lemma splitstr_free_result_witness :
  splitstr_free (Some (Tok 1 §"a" :: replicate 19 Null)) = FreeInvalid 1.
Proof.
  apply (splitstr_free_result all_alloc §",a" (Some §",") _ 1); reflexivity.
Defined.
