(* ===== verification/Zoo.v ===== *)
(** pan/zoolib.c: the zoo file, the record of what is running.

    The open file is its bytes; [fgets], [fseek] and [fprintf] act on offsets
    as stdio does.  What the kernel answers to [fcntl], [fseek] and [fopen] is
    a parameter of each operation.  The abstract view of a well-formed zoo is
    the list of its 79-character lines, and of these the list of active pids;
    the operations are proved to refine updates of that list. *)
From Stdlib Require Import Ascii String ZArith Lia Bool.
From stdpp Require Import base list sets numbers.
From S2P Require Import Prelude CString.

Local Open Scope Z_scope.

Definition BUFLEN : nat := 81.
Definition EINTR : Z := 4.
Definition ENOENT : Z := 2.

(** ** State *)

(** An open zoo: the bytes of the file, whether this process holds the record
    lock, and the last message left in [zoo_error]. *)
Record zoo := mkZoo {
  z_bytes : cstr;
  z_locked : bool;
  z_error : string
}.

Definition set_bytes (z : zoo) (b : cstr) : zoo := mkZoo b (z_locked z) (z_error z).
Definition set_error (z : zoo) (m : string) : zoo := mkZoo (z_bytes z) (z_locked z) m.
Definition set_locked (z : zoo) (l : bool) : zoo := mkZoo (z_bytes z) l (z_error z).

(** The answers of [fcntl(F_SETLKW)]: how many attempts a signal interrupts
    and the errno of the attempt after them, 0 for success. *)
Record lock_answer := { la_intr : nat; la_errno : Z }.

(** The kernel's answers to one zoo operation. *)
Record zenv := {
  ze_lock : lock_answer;
  ze_unlock : lock_answer;
  ze_seek : bool                 (* fseek succeeds *)
}.

Definition zenv_ok : zenv :=
  {| ze_lock := {| la_intr := 0; la_errno := 0 |};
     ze_unlock := {| la_intr := 0; la_errno := 0 |};
     ze_seek := true |}.

(** ** stdio on the bytes of the file *)

Fixpoint fgets_line (n : nat) (rest : cstr) : cstr :=
  match n, rest with
  | S n', c :: r => if ceqb c LF then [c] else c :: fgets_line n' r
  | _, _ => []
  end.

(** [fgets(buf, n, fp)] with [rest] the bytes from the file position on. *)
Definition fgets (n : nat) (rest : cstr) : option cstr :=
  match rest with
  | [] => None
  | _ => Some (fgets_line (n - 1) rest)
  end.

(** Writing [text] at offset [pos]. *)
Definition overwrite (bytes : cstr) (pos : nat) (text : cstr) : cstr :=
  take pos bytes ++ text ++ drop (pos + length text) bytes.

Definition first_is (c : ascii) (buf : cstr) : bool :=
  match buf with x :: _ => ceqb x c | [] => false end.

(** ** Locking *)

(** [do { ret = fcntl(...) } while (ret == -1 && errno == EINTR)]: the errno
    of the last attempt. *)
Fixpoint fcntl_loop (intr : nat) (final : Z) : Z :=
  match intr with
  | O => final
  | S n => let errno := EINTR in
           if errno =? EINTR then fcntl_loop n final else errno
  end.

Definition zoo_lock (a : lock_answer) (z : zoo) : Z * zoo :=
  let errno := fcntl_loop (la_intr a) (la_errno a) in
  if errno =? 0 then (0, set_locked z true)
  else (-1, set_error z "failed to unlock zoo file").

Definition zoo_unlock (a : lock_answer) (z : zoo) : Z * zoo :=
  let errno := fcntl_loop (la_intr a) (la_errno a) in
  if errno =? 0 then (0, set_locked z false)
  else (-1, set_error z "failed to lock zoo file").

(** ** Opening *)

(** [zoo_getname]: the file name, from the environment variable ZOO. *)
Definition zoo_getname (ZOO : option cstr) : option cstr :=
  match ZOO with
  | Some zoo => Some (snprintf_buf 1024 (zoo ++ §"/" ++ §"active"))
  | None => None
  end.

(** The errnos of the up to three [fopen] calls, 0 for success; [r1] only
    counts when the file exists. *)
Record open_answer := { oa_r1 : Z; oa_append : Z; oa_r2 : Z }.

Definition zoo_open (a : open_answer) (fs : option cstr) : option zoo * string :=
  let r1 := match fs with None => ENOENT | Some _ => oa_r1 a end in
  let opened := mkZoo (match fs with Some b => b | None => [] end) false "" in
  if r1 =? 0 then (Some opened, ""%string)
  else if r1 =? ENOENT then
    if oa_append a =? 0 then
      if oa_r2 a =? 0 then (Some opened, ""%string) else (None, ""%string)
    else (None, "Could not open zoo"%string)
  else (None, "Could not open zoo"%string).

Definition zoo_close (fclose_ret : Z) (z : zoo) : Z * string :=
  (fclose_ret,
   if fclose_ret =? 0 then z_error z else "closing zoo caused error"%string).

(** ** Entries *)

(** The first-fit search of [zoo_mark]: offset and length of the first line
    that starts with [#]. *)
Fixpoint mark_scan (fuel pos : nat) (rest : cstr) : option (nat * nat) :=
  match fuel with
  | O => None
  | S f =>
      match fgets BUFLEN rest with
      | None => None
      | Some buf =>
          if first_is "#" buf then Some (pos, length (cstr_of buf))
          else mark_scan f (pos + length buf) (drop (length buf) rest)
      end
  end.

Definition zoo_mark (e : zenv) (fp : option zoo) (entry : cstr) : Z * option zoo :=
  match fp with
  | None => (-1, None)
  | Some z =>
      let '(r, z1) := zoo_lock (ze_lock e) z in
      if negb (r =? 0) then (-1, Some z1) else
      match mark_scan (S (length (z_bytes z1))) 0 (z_bytes z1) with
      | Some (pos, len) =>
          if ze_seek e then
            let z2 := set_bytes z1
                        (overwrite (z_bytes z1) pos (fmt_pad (len - 1) entry ++ [LF])) in
            let '(r', z3) := zoo_unlock (ze_unlock e) z2 in
            (if negb (r' =? 0) then -1 else 0, Some z3)
          else (-1, Some (set_error z1 "seek error while writing to zoo file"))
      | None =>
          if ze_seek e then
            let z2 := set_bytes z1 (z_bytes z1 ++ fmt_pad 79 entry ++ [LF]) in
            let '(r', z3) := zoo_unlock (ze_unlock e) z2 in
            (if negb (r' =? 0) then -1 else 0, Some z3)
          else (-1, Some (set_error z1 "error seeking to end of zoo file"))
      end
  end.

Definition zoo_mark_cmdline (e : zenv) (fp : option zoo) (p : Z) (tag cmdline : cstr)
    : Z * option zoo :=
  let new_entry := snprintf_buf 80 (fmt_d p ++ §"," ++ tag ++ §"," ++ cmdline) in
  zoo_mark e fp new_entry.

(** [cat_args]: the size asked of [malloc] and the string built in it; NULL
    when [malloc] fails. *)
Fixpoint cat_size (argv : list cstr) : nat :=
  match argv with [] => 0 | a :: r => (length a + 1 + cat_size r)%nat end.

Fixpoint cat_loop (first : bool) (argv : list cstr) : cstr :=
  match argv with
  | [] => []
  | a :: r => (if first then [] else [" "%char]) ++ a ++ cat_loop false r
  end.

Definition cat_args (malloc_ok : bool) (argv : list cstr) : option (nat * cstr) :=
  if malloc_ok then Some (cat_size argv, cat_loop true argv) else None.

(** [zoo_mark_args]; [%s] of a NULL command line writes [(null)]. *)
Definition zoo_mark_args (e : zenv) (malloc_ok : bool) (fp : option zoo) (p : Z)
    (tag : cstr) (argv : list cstr) : Z * option zoo :=
  let cmdline := match cat_args malloc_ok argv with
                 | Some (_, c) => c
                 | None => §"(null)"
                 end in
  zoo_mark_cmdline e fp p tag cmdline.

(** The search of [zoo_clear]: offset of the first line of the pid. *)
Fixpoint clear_scan (fuel pos : nat) (rest : cstr) (p : Z) : option nat :=
  match fuel with
  | O => None
  | S f =>
      match fgets BUFLEN rest with
      | None => None
      | Some buf =>
          if first_is "#" buf
          then clear_scan f (pos + length buf) (drop (length buf) rest) p
          else if atoi (cstr_of buf) =? p then Some pos
          else clear_scan f (pos + length buf) (drop (length buf) rest) p
      end
  end.

Definition zoo_clear (e : zenv) (fp : option zoo) (p : Z) : Z * option zoo :=
  match fp with
  | None => (-1, None)
  | Some z =>
      let '(r, z1) := zoo_lock (ze_lock e) z in
      if negb (r =? 0) then (-1, Some z1) else
      match clear_scan (S (length (z_bytes z1))) 0 (z_bytes z1) p with
      | Some pos =>
          if ze_seek e then
            let z2 := set_bytes z1 (overwrite (z_bytes z1) pos §"#") in
            let '(r', z3) := zoo_unlock (ze_unlock e) z2 in
            (if negb (r' =? 0) then -1 else 0, Some z3)
          else (-1, Some (set_error z1 "seek error while writing to zoo file"))
      | None =>
          let '(r', z3) := zoo_unlock (ze_unlock e) z1 in
          if negb (r' =? 0) then (-1, Some z3)
          else (1, Some (set_error z3 "zoo_clear() did not find pid"))
      end
  end.

(** The search of [zoo_getpid]. *)
Fixpoint getpid_scan (fuel : nat) (rest : cstr) (tag : cstr) : Z :=
  match fuel with
  | O => -1
  | S f =>
      match fgets BUFLEN rest with
      | None => -1
      | Some buf =>
          let next := getpid_scan f (drop (length buf) rest) tag in
          if first_is "#" buf then next
          else match strchr (cstr_of buf) "," with
               | None => next
               | Some s => if strneq (tail s) tag (length tag)
                           then atoi (cstr_of buf) else next
               end
      end
  end.

Definition zoo_getpid (e : zenv) (fp : option zoo) (tag : cstr) : Z * option zoo :=
  match fp with
  | None => (-1, None)
  | Some z =>
      let '(r, z1) := zoo_lock (ze_lock e) z in
      if negb (r =? 0) then (-1, Some z1) else
      let this_pid := getpid_scan (S (length (z_bytes z1))) (z_bytes z1) tag in
      let '(r', z2) := zoo_unlock (ze_unlock e) z1 in
      if negb (r' =? 0) then (-1, Some z2) else (this_pid, Some z2)
  end.

(** ** Abstract view *)

(** A line of the documented format: 79 characters, then the newline. *)
Definition line_ok (l : cstr) : Prop := length l = 79%nat /\ (LF ∉ l) /\ (NUL ∉ l).

Definition bytes_of (lines : list cstr) : cstr := flat_map (fun l => l ++ [LF]) lines.

(** The zoo is unlocked and holds exactly the lines [lines]. *)
Definition zoo_rep (lines : list cstr) (z : zoo) : Prop :=
  z_bytes z = bytes_of lines /\ Forall line_ok lines /\ z_locked z = false.

Definition is_free (l : cstr) : bool := first_is "#" l.
Definition line_pid (l : cstr) : Z := atoi (l ++ [LF]).

(** Pids of the lines in use. *)
Definition pids (lines : list cstr) : list Z :=
  line_pid <$> List.filter (fun l => negb (is_free l)) lines.

(** Specification of [zoo_mark]: the first free line, or a new one. *)
Fixpoint mark_lines (lines : list cstr) (e : cstr) : list cstr :=
  match lines with
  | [] => [e]
  | l :: r => if is_free l then e :: r else l :: mark_lines r e
  end.

(** Specification of [zoo_clear]: the first line in use by the pid becomes
    free. *)
Fixpoint clear_lines (lines : list cstr) (p : Z) : option (list cstr) :=
  match lines with
  | [] => None
  | l :: r =>
      if negb (is_free l) && (line_pid l =? p) then Some ((§"#" ++ tail l) :: r)
      else match clear_lines r p with Some r' => Some (l :: r') | None => None end
  end.

(** Specification of [zoo_getpid]. *)
Fixpoint getpid_lines (lines : list cstr) (tag : cstr) : Z :=
  match lines with
  | [] => -1
  | l :: r =>
      if is_free l then getpid_lines r tag
      else match strchr (l ++ [LF]) "," with
           | None => getpid_lines r tag
           | Some s => if strneq (tail s) tag (length tag) then line_pid l
                       else getpid_lines r tag
           end
  end.

(** ** Lemmas: reading lines *)

Lemma fgets_line_app n l r :
  LF ∉ l -> (length l < n)%nat -> fgets_line n (l ++ LF :: r) = l ++ [LF].
Proof.
  revert n. induction l as [|c l IH]; intros [|n] Hl Hn; simpl in *; try lia.
  - done.
  - apply not_elem_of_cons in Hl as [H1 H2].
    destruct (ceqb c LF) eqn:E; [apply ceqb_eq in E; congruence|].
    rewrite IH; [done|done|lia].
Qed.

Lemma fgets_ok l r : line_ok l -> fgets BUFLEN ((l ++ [LF]) ++ r) = Some (l ++ [LF]).
Proof.
  intros (H1 & H2 & _). unfold fgets. rewrite <- app_assoc.
  cbn [app]. rewrite fgets_line_app; [|done|unfold BUFLEN; lia].
  destruct l; done.
Qed.

Lemma first_is_line c l : line_ok l -> first_is c (l ++ [LF]) = first_is c l.
Proof. intros (H1 & _). destruct l; [done|done]. Qed.

Lemma cstr_of_line l : line_ok l -> cstr_of (l ++ [LF]) = l ++ [LF].
Proof.
  intros (_ & _ & H3). unfold cstr_of. apply takewhile_id, Forall_app. split.
  - apply Forall_forall. intros x Hx%list_elem_of_In. apply negb_true_iff, ceqb_neq. intros ->. done.
  - constructor; [done|constructor].
Qed.

Lemma line_length l : line_ok l -> length (l ++ [LF]) = 80%nat.
Proof. intros (H & _). rewrite length_app, H. done. Qed.

Lemma drop_line (l r : cstr) : drop (length (l ++ [LF])) ((l ++ [LF]) ++ r) = r.
Proof. apply drop_app_length. Qed.

(** The position of a line. *)
Definition line_pos (pre : list cstr) : nat := length (bytes_of pre).

Lemma bytes_of_app l1 l2 : bytes_of (l1 ++ l2) = bytes_of l1 ++ bytes_of l2.
Proof. apply flat_map_app. Qed.

Lemma bytes_of_cons l r : bytes_of (l :: r) = (l ++ [LF]) ++ bytes_of r.
Proof. done. Qed.

(** Replacing a line in place. *)
Lemma overwrite_line pre l l' post :
  length l = length l' ->
  overwrite (bytes_of (pre ++ l :: post)) (line_pos pre) (l' ++ [LF])
  = bytes_of (pre ++ l' :: post).
Proof.
  intros H. unfold overwrite, line_pos. rewrite !bytes_of_app, !bytes_of_cons.
  rewrite take_app_length, <- drop_drop, drop_app_length.
  replace (length (l' ++ [LF])) with (length (l ++ [LF])) by (rewrite !length_app; lia).
  now rewrite drop_line.
Qed.

Lemma overwrite_first pre c l post x :
  overwrite (bytes_of (pre ++ (c :: l) :: post)) (line_pos pre) [x]
  = bytes_of (pre ++ (x :: l) :: post).
Proof.
  unfold overwrite, line_pos. rewrite !bytes_of_app, !bytes_of_cons.
  rewrite take_app_length, <- drop_drop, drop_app_length. cbn. done.
Qed.

(** ** Lemmas: the scans *)

(** Cut a list at the first element that satisfies [p]. *)
Fixpoint cut {A} (p : A -> bool) (l : list A) : option (list A * A * list A) :=
  match l with
  | [] => None
  | x :: r => if p x then Some ([], x, r)
              else match cut p r with
                   | Some (a, y, b) => Some (x :: a, y, b)
                   | None => None
                   end
  end.

Lemma cut_Some {A} (p : A -> bool) l a x b :
  cut p l = Some (a, x, b) -> l = a ++ x :: b /\ p x = true.
Proof.
  revert a. induction l as [|y l IH]; intros a; simpl; [done|].
  destruct (p y) eqn:E; [intros [= <- <- <-]; done|].
  destruct (cut p l) as [[[a' y'] b']|]; [|done]. intros [= <- <- <-].
  destruct (IH a' eq_refl) as [-> ?]. done.
Qed.

Lemma mark_lines_cut lines e :
  mark_lines lines e =
  match cut is_free lines with Some (a, _, b) => a ++ e :: b | None => lines ++ [e] end.
Proof.
  induction lines as [|l r IH]; simpl; [done|].
  destruct (is_free l); [done|]. rewrite IH.
  destruct (cut is_free r) as [[[a x] b]|]; done.
Qed.

Definition uses (p : Z) (l : cstr) : bool := negb (is_free l) && (line_pid l =? p).

Lemma clear_lines_cut lines p :
  clear_lines lines p =
  match cut (uses p) lines with Some (a, l, b) => Some (a ++ (§"#" ++ tail l) :: b) | None => None end.
Proof.
  induction lines as [|l r IH]; simpl; [done|]. unfold uses at 1.
  destruct (negb (is_free l) && (line_pid l =? p)); [done|]. rewrite IH.
  destruct (cut (uses p) r) as [[[a x] b]|]; done.
Qed.

Lemma mark_scan_lines fuel pos lines :
  Forall line_ok lines -> (length lines < fuel)%nat ->
  mark_scan fuel pos (bytes_of lines) =
  match cut is_free lines with Some (a, _, _) => Some (pos + line_pos a, 80)%nat | None => None end.
Proof.
  intros H. revert fuel pos. induction H as [|l r Hl Hr IH]; intros [|f] pos Hf; simpl in Hf; try lia;
    cbn [mark_scan].
  - done.
  - rewrite bytes_of_cons, fgets_ok by done. rewrite first_is_line by done.
    rewrite cstr_of_line, drop_line, line_length by done. cbn [cut].
    unfold is_free at 1. destruct (first_is "#" l) eqn:E.
    + f_equal. f_equal. unfold line_pos. simpl. lia.
    + rewrite IH by lia. destruct (cut is_free r) as [[[a x] b]|]; [|done].
      f_equal. f_equal. unfold line_pos. rewrite bytes_of_cons, length_app, line_length by done. lia.
Qed.

Lemma clear_scan_lines fuel pos lines p :
  Forall line_ok lines -> (length lines < fuel)%nat ->
  clear_scan fuel pos (bytes_of lines) p =
  match cut (uses p) lines with Some (a, _, _) => Some (pos + line_pos a)%nat | None => None end.
Proof.
  intros H. revert fuel pos. induction H as [|l r Hl Hr IH]; intros [|f] pos Hf; simpl in Hf; try lia;
    cbn [clear_scan].
  - done.
  - rewrite bytes_of_cons, fgets_ok by done. rewrite first_is_line by done.
    rewrite cstr_of_line, drop_line, line_length by done. cbn [cut].
    unfold uses at 1, is_free at 1, line_pid at 1.
    assert (Hrec : clear_scan f (pos + 80) (bytes_of r) p =
      match (match cut (uses p) r with
             | Some (a, y, b) => Some (l :: a, y, b) | None => None end) with
      | Some (a, _, _) => Some (pos + line_pos a)%nat | None => None end).
    { rewrite IH by lia. destruct (cut (uses p) r) as [[[a x] b]|]; [|done].
      f_equal. unfold line_pos. rewrite bytes_of_cons, length_app, line_length by done. lia. }
    destruct (first_is "#" l); cbn [negb andb]; [exact Hrec|].
    destruct (atoi (l ++ [LF]) =? p); [|exact Hrec].
    f_equal. unfold line_pos. simpl. lia.
Qed.

Lemma getpid_scan_lines fuel lines tag :
  Forall line_ok lines -> (length lines < fuel)%nat ->
  getpid_scan fuel (bytes_of lines) tag = getpid_lines lines tag.
Proof.
  intros H. revert fuel. induction H as [|l r Hl Hr IH]; intros [|f] Hf; simpl in Hf; try lia;
    cbn [getpid_scan].
  - done.
  - rewrite bytes_of_cons, fgets_ok by done. rewrite first_is_line by done.
    rewrite cstr_of_line, drop_line by done. rewrite IH by lia.
    cbn [getpid_lines]. unfold is_free at 1. done.
Qed.

Lemma lines_le_bytes lines : (length lines <= length (bytes_of lines))%nat.
Proof.
  induction lines as [|l r IH]; [done|]. rewrite bytes_of_cons, !length_app. simpl. lia.
Qed.

(** ** Lemmas: refinement of the file operations *)

#[local] Arguments mark_scan : simpl never.
#[local] Arguments clear_scan : simpl never.
#[local] Arguments getpid_scan : simpl never.
#[local] Arguments overwrite : simpl never.
#[local] Arguments fmt_pad : simpl never.

(** Every system call of the operation succeeds. *)
Definition zenv_good (e : zenv) : Prop :=
  la_errno (ze_lock e) = 0 /\ la_errno (ze_unlock e) = 0 /\ ze_seek e = true.

Lemma fcntl_loop_final n f : fcntl_loop n f = f.
Proof. induction n as [|n IH]; [done|]. simpl. exact IH. Qed.

(** Text that may be part of a line. *)
Definition clean (s : cstr) : Prop := (LF ∉ s) /\ (NUL ∉ s).

Lemma clean_app s t : clean s -> clean t -> clean (s ++ t).
Proof. unfold clean. rewrite !elem_of_app. tauto. Qed.

Lemma clean_take n s : clean s -> clean (take n s).
Proof.
  unfold clean. intros [H1 H2].
  assert (H : forall c, c ∈ take n s -> c ∈ s).
  { intros c Hc. rewrite <- (take_drop n s). apply elem_of_app. now left. }
  split; intros Hc; [apply H1|apply H2]; now apply H.
Qed.

Lemma clean_blanks n : clean (replicate n " "%char).
Proof.
  split; intros H; apply elem_of_replicate in H as [H _]; discriminate.
Qed.

Lemma clean_digits ds b :
  2 <= b <= 36 ->
  Forall (fun c => exists v, 0 <= v < b /\ c = digit_chr v) ds -> clean ds.
Proof.
  intros Hb H.
  assert (Hc : forall c, c ∈ ds -> isspace c = false /\ c <> NUL).
  { intros c Hc. rewrite Forall_forall in H. apply list_elem_of_In, H in Hc.
    destruct Hc as (v & Hv & ->). split; [apply isspace_digit_chr; lia|].
    intros E. apply (f_equal digit_val) in E. rewrite digit_val_chr in E by lia.
    change (digit_val NUL) with 99 in E. lia. }
  split; intros HH; apply Hc in HH as [H1 H2]; done.
Qed.

Lemma clean_fmt_d p : clean (fmt_d p).
Proof.
  unfold fmt_d. destruct (p <? 0) eqn:E; zbool.
  - change ("-"%char :: fmt_nat 10 (- p)) with (§"-" ++ fmt_nat 10 (- p)).
    apply clean_app; [split; apply memc_false; reflexivity|].
    eapply clean_digits; [|apply fmt_nat_digits]; lia.
  - eapply clean_digits; [|apply fmt_nat_digits]; lia.
Qed.

Lemma line_ok_fmt_pad s : clean s -> line_ok (fmt_pad 79 s).
Proof.
  intros H. split; [apply fmt_pad_length|].
  apply clean_app; [now apply clean_take|apply clean_blanks].
Qed.

Lemma mark_lines_ok lines e :
  Forall line_ok lines -> line_ok e -> Forall line_ok (mark_lines lines e).
Proof.
  intros H He. induction H as [|l r Hl Hr IH]; simpl; [repeat constructor; apply He|].
  destruct (is_free l); constructor; auto.
Qed.

Lemma zoo_mark_refines e z lines entry :
  zenv_good e -> zoo_rep lines z -> clean entry ->
  exists z', zoo_mark e (Some z) entry = (0, Some z') /\
             zoo_rep (mark_lines lines (fmt_pad 79 entry)) z'.
Proof.
  intros (E1 & E2 & E3) (Hb & Hl & Hu) Hc. unfold zoo_mark, zoo_lock, zoo_unlock.
  rewrite !fcntl_loop_final, E1, E2, E3. cbn.
  rewrite Hb, mark_scan_lines; [|done|pose proof (lines_le_bytes lines); lia].
  pose proof (mark_lines_ok lines _ Hl (line_ok_fmt_pad entry Hc)) as Hok.
  rewrite mark_lines_cut in *.
  destruct (cut is_free lines) as [[[a x] b]|] eqn:Ecut; cbn.
  - apply cut_Some in Ecut as [-> _]. apply Forall_app in Hl as [_ Hx].
    apply Forall_cons_1 in Hx as [Hx _].
    eexists. split; [reflexivity|]. split; [|done]. cbn.
    apply overwrite_line. destruct Hx as [Hx _].
    rewrite (fmt_pad_length 79 entry). lia.
  - eexists. split; [reflexivity|]. split; [|done]. cbn.
    rewrite bytes_of_app, bytes_of_cons, app_nil_r. done.
Qed.

Lemma zoo_clear_refines e z lines p :
  zenv_good e -> zoo_rep lines z ->
  exists z',
    zoo_clear e (Some z) p = (match clear_lines lines p with Some _ => 0 | None => 1 end, Some z') /\
    zoo_rep (match clear_lines lines p with Some l => l | None => lines end) z'.
Proof.
  intros (E1 & E2 & E3) (Hb & Hl & Hu). unfold zoo_clear, zoo_lock, zoo_unlock.
  rewrite !fcntl_loop_final, E1, E2, E3. cbn.
  rewrite Hb, clear_scan_lines; [|done|pose proof (lines_le_bytes lines); lia].
  rewrite clear_lines_cut.
  destruct (cut (uses p) lines) as [[[a x] b]|] eqn:Ecut; cbn.
  - apply cut_Some in Ecut as [-> _]. apply Forall_app in Hl as [Ha Hx].
    apply Forall_cons_1 in Hx as [Hx Hb'].
    destruct x as [|c x]; [destruct Hx; done|].
    eexists. split; [reflexivity|]. split; [cbn; apply overwrite_first|]. split; [|done].
    apply Forall_app. split; [done|]. constructor; [|done].
    destruct Hx as (H1 & H2 & H3). split; [done|].
    apply not_elem_of_cons in H2 as [_ H2], H3 as [_ H3].
    split; apply not_elem_of_cons; done.
  - eexists. split; [reflexivity|]. done.
Qed.

Lemma fmt_d_not_hash p r : first_is "#" (fmt_d p ++ r) = false.
Proof.
  unfold fmt_d. destruct (p <? 0) eqn:E; zbool; [done|].
  pose proof (fmt_nat_digits 10 p ltac:(lia) E) as H.
  pose proof (fmt_nat_nonnil 10 p) as Hne.
  destruct (fmt_nat 10 p) as [|c ds]; [done|].
  apply Forall_cons_1 in H as [(v & Hv & ->) _]. cbn. apply ceqb_neq.
  intros Ec. apply (f_equal digit_val) in Ec. rewrite digit_val_chr in Ec by lia.
  change (digit_val "#") with 99 in Ec. lia.
Qed.

(** The line [zoo_mark_cmdline] writes starts with the pid and a comma. *)
Lemma entry_line p tag cmdline :
  INT_MIN <= p <= INT_MAX ->
  exists r, fmt_pad 79 (snprintf_buf 80 (fmt_d p ++ §"," ++ tag ++ §"," ++ cmdline))
            = fmt_d p ++ ","%char :: r.
Proof.
  intros Hp. pose proof (fmt_d_length p Hp) as Hlen.
  unfold fmt_pad, snprintf_buf. rewrite take_take. change (79 `min` (80 - 1))%nat with 79%nat.
  rewrite take_app_ge by lia.
  replace (79 - length (fmt_d p))%nat with (S (78 - length (fmt_d p))) by lia.
  cbn [take app str list_ascii_of_string]. rewrite <- app_assoc. eexists. reflexivity.
Qed.

Lemma entry_pid p tag cmdline :
  INT_MIN <= p <= INT_MAX ->
  let l := fmt_pad 79 (snprintf_buf 80 (fmt_d p ++ §"," ++ tag ++ §"," ++ cmdline)) in
  line_pid l = p /\ is_free l = false.
Proof.
  intros Hp. destruct (entry_line p tag cmdline Hp) as [r ->]. cbn zeta. split.
  - unfold line_pid. rewrite <- app_assoc. apply atoi_fmt_d; done.
  - apply fmt_d_not_hash.
Qed.

Lemma pids_app l1 l2 : pids (l1 ++ l2) = pids l1 ++ pids l2.
Proof. unfold pids. rewrite List.filter_app, fmap_app. done. Qed.

Lemma pids_cons l r : pids (l :: r) = (if is_free l then [] else [line_pid l]) ++ pids r.
Proof. unfold pids. simpl. destruct (is_free l); done. Qed.

Lemma pids_mark_lines lines e :
  is_free e = false -> pids (mark_lines lines e) ≡ₚ line_pid e :: pids lines.
Proof.
  intros He. induction lines as [|l r IH]; simpl.
  - rewrite pids_cons, He. done.
  - rewrite (pids_cons l r). destruct (is_free l) eqn:E.
    + rewrite pids_cons, He. done.
    + rewrite pids_cons, E, IH. cbn. apply perm_swap.
Qed.

Lemma pids_clear_lines lines p :
  match clear_lines lines p with
  | Some lines' => pids lines ≡ₚ p :: pids lines'
  | None => p ∉ pids lines
  end.
Proof.
  induction lines as [|l r IH]; simpl; [set_solver|].
  rewrite pids_cons. destruct (is_free l) eqn:E; cbn [negb andb].
  - destruct (clear_lines r p); [rewrite pids_cons, E; exact IH|exact IH].
  - destruct (line_pid l =? p) eqn:Ep; zbool.
    + rewrite pids_cons. subst p. done.
    + destruct (clear_lines r p) as [r'|].
      * rewrite pids_cons, E, IH. cbn. apply perm_swap.
      * cbn. apply not_elem_of_cons. split; [congruence|exact IH].
Qed.

Lemma clear_lines_length lines p lines' :
  clear_lines lines p = Some lines' -> length lines' = length lines.
Proof.
  revert lines'. induction lines as [|l r IH]; intros lines'; simpl; [done|].
  destruct (negb (is_free l) && (line_pid l =? p)); [intros [= <-]; done|].
  destruct (clear_lines r p); [|done]. intros [= <-]. simpl. f_equal. auto.
Qed.

Lemma mark_lines_length lines e :
  length (mark_lines lines e) =
  (if existsb is_free lines then length lines else S (length lines)).
Proof.
  induction lines as [|l r IH]; simpl; [done|].
  destruct (is_free l); simpl; [done|]. rewrite IH. destruct (existsb is_free r); done.
Qed.

Lemma zoo_mark_cmdline_lines e z lines p tag cmdline :
  zenv_good e -> zoo_rep lines z -> INT_MIN <= p <= INT_MAX -> clean tag -> clean cmdline ->
  exists z' entry,
    zoo_mark_cmdline e (Some z) p tag cmdline = (0, Some z') /\
    zoo_rep (mark_lines lines entry) z' /\ line_pid entry = p /\ is_free entry = false.
Proof.
  intros He Hz Hp Ht Hc. unfold zoo_mark_cmdline.
  set (entry := snprintf_buf 80 (fmt_d p ++ §"," ++ tag ++ §"," ++ cmdline)).
  assert (Hclean : clean entry).
  { apply clean_take. repeat apply clean_app; try done;
      [apply clean_fmt_d| |]; split; apply memc_false; reflexivity. }
  destruct (zoo_mark_refines e z lines entry He Hz Hclean) as (z' & H1 & H2).
  destruct (entry_pid p tag cmdline Hp) as [H3 H4].
  exists z', (fmt_pad 79 entry). done.
Qed.

(** The empty zoo, and a zoo with one entry, for the witnesses. *)
Definition zoo_empty : zoo := mkZoo [] false "".

Lemma zoo_empty_rep : zoo_rep [] zoo_empty.
Proof. split; [done|]. split; [constructor|done]. Qed.

Lemma zenv_ok_good : zenv_good zenv_ok.
Proof. done. Qed.

Lemma clean_dec s : negb (memc LF s) && negb (memc NUL s) = true -> clean s.
Proof. intros H. zbool. split; apply memc_false; done. Qed.

#[export] Hint Resolve zoo_empty_rep zenv_ok_good clean_fmt_d clean_app clean_take : ltp.

(** ** Properties *)

(** C17: [zoo_mark_cmdline] succeeds on a well-formed zoo, keeps the documented
    format of 80-character lines, adds exactly the pid to the active ones and
    uses a recycled line when there is one. *)
Theorem zoo_mark_cmdline_active e z lines p tag cmdline :
  zenv_good e -> zoo_rep lines z -> INT_MIN <= p <= INT_MAX -> clean tag -> clean cmdline ->
  exists z' lines',
    zoo_mark_cmdline e (Some z) p tag cmdline = (0, Some z') /\
    zoo_rep lines' z' /\ pids lines' ≡ₚ p :: pids lines /\
    length lines' = (if existsb is_free lines then length lines else S (length lines)).
Proof.
  intros He Hz Hp Ht Hc.
  destruct (zoo_mark_cmdline_lines e z lines p tag cmdline He Hz Hp Ht Hc)
    as (z' & entry & H1 & H2 & H3 & H4).
  exists z', (mark_lines lines entry). split; [done|]. split; [done|].
  split; [|apply mark_lines_length]. rewrite pids_mark_lines, H3; done.
Qed.

Lemma zoo_mark_cmdline_active_witness :
  exists z' lines',
    zoo_mark_cmdline zenv_ok (Some zoo_empty) 42 §"t" §"ls -l" = (0, Some z') /\
    zoo_rep lines' z' /\ pids lines' ≡ₚ [42] /\ length lines' = 1%nat.
Proof.
  apply (zoo_mark_cmdline_active zenv_ok zoo_empty [] 42 §"t" §"ls -l");
    [apply zenv_ok_good|apply zoo_empty_rep|unfold INT_MIN, INT_MAX; lia
    |apply clean_dec; reflexivity|apply clean_dec; reflexivity].
Defined.

(** [zoo_clear] returns 0 exactly when the pid is active, and then removes one
    entry of it and nothing else; otherwise it returns 1 and leaves the file
    as it was. *)
Theorem zoo_clear_active e z lines p :
  zenv_good e -> zoo_rep lines z ->
  exists z' lines',
    zoo_clear e (Some z) p = ((if decide (p ∈ pids lines) then 0 else 1), Some z') /\
    zoo_rep lines' z' /\ length lines' = length lines /\
    (if decide (p ∈ pids lines) then pids lines ≡ₚ p :: pids lines' else lines' = lines).
Proof.
  intros He Hz. destruct (zoo_clear_refines e z lines p He Hz) as (z' & H1 & H2).
  pose proof (pids_clear_lines lines p) as H3.
  pose proof (clear_lines_length lines p) as H4.
  destruct (clear_lines lines p) as [lines'|].
  - exists z', lines'. destruct (decide (p ∈ pids lines)) as [_|Hn]; [auto|].
    destruct Hn. rewrite H3. set_solver.
  - exists z', lines. destruct (decide (p ∈ pids lines)); [done|auto].
Qed.

Lemma zoo_clear_active_witness :
  exists z' lines',
    zoo_clear zenv_ok (Some zoo_empty) 7 = ((if decide (7 ∈ pids []) then 0 else 1), Some z') /\
    zoo_rep lines' z' /\ length lines' = length ([] : list cstr) /\
    (if decide (7 ∈ pids []) then pids [] ≡ₚ 7 :: pids lines' else lines' = []).
Proof.
  apply (zoo_clear_active zenv_ok zoo_empty [] 7); [apply zenv_ok_good|apply zoo_empty_rep].
Defined.

(** An entry that was marked can be cleared: marking a pid and clearing it
    succeed one after the other and restore the active pids. *)
Theorem zoo_mark_clear_roundtrip e e' z lines p tag cmdline :
  zenv_good e -> zenv_good e' -> zoo_rep lines z ->
  INT_MIN <= p <= INT_MAX -> clean tag -> clean cmdline ->
  exists z1 z2 lines2,
    zoo_mark_cmdline e (Some z) p tag cmdline = (0, Some z1) /\
    zoo_clear e' (Some z1) p = (0, Some z2) /\
    zoo_rep lines2 z2 /\ pids lines2 ≡ₚ pids lines.
Proof.
  intros He He' Hz Hp Ht Hc.
  destruct (zoo_mark_cmdline_lines e z lines p tag cmdline He Hz Hp Ht Hc)
    as (z1 & entry & H1 & H2 & H3 & H4).
  destruct (zoo_clear_refines e' z1 _ p He' H2) as (z2 & H5 & H6).
  pose proof (pids_clear_lines (mark_lines lines entry) p) as H7.
  pose proof (pids_mark_lines lines entry H4) as H8. rewrite H3 in H8.
  destruct (clear_lines (mark_lines lines entry) p) as [lines2|].
  - exists z1, z2, lines2. rewrite H8 in H7. apply Permutation_cons_inv in H7.
    split; [done|]. split; [done|]. split; [done|]. now symmetry.
  - exfalso. apply H7. rewrite H8. set_solver.
Qed.

Lemma zoo_mark_clear_roundtrip_witness :
  exists z1 z2 lines2,
    zoo_mark_cmdline zenv_ok (Some zoo_empty) 42 §"t" §"ls" = (0, Some z1) /\
    zoo_clear zenv_ok (Some z1) 42 = (0, Some z2) /\
    zoo_rep lines2 z2 /\ pids lines2 ≡ₚ pids [].
Proof.
  apply (zoo_mark_clear_roundtrip zenv_ok zenv_ok zoo_empty [] 42 §"t" §"ls");
    [apply zenv_ok_good|apply zenv_ok_good|apply zoo_empty_rep|unfold INT_MIN, INT_MAX; lia
    |apply clean_dec; reflexivity|apply clean_dec; reflexivity].
Defined.

(** When [fseek] fails, [zoo_mark] returns -1 with the record lock still
    held: the error path returns before [zoo_unlock]. *)
Theorem zoo_mark_seek_error e z entry :
  la_errno (ze_lock e) = 0 -> ze_seek e = false ->
  exists z', zoo_mark e (Some z) entry = (-1, Some z') /\
             z_locked z' = true /\ z_bytes z' = z_bytes z.
Proof.
  intros H1 H2. unfold zoo_mark, zoo_lock. rewrite fcntl_loop_final, H1, H2. cbn.
  destruct (mark_scan _ _ _) as [[pos len]|]; eexists; done.
Qed.

Lemma zoo_mark_seek_error_witness :
  exists z', zoo_mark {| ze_lock := ze_lock zenv_ok; ze_unlock := ze_unlock zenv_ok;
                         ze_seek := false |} (Some zoo_empty) §"1,a,b" = (-1, Some z') /\
             z_locked z' = true /\ z_bytes z' = z_bytes zoo_empty.
Proof. apply zoo_mark_seek_error; reflexivity. Defined.

(** [zoo_getpid] returns the pid of the first active line whose tag starts
    with [tag], and -1 when there is none; the file is not changed. *)
Theorem zoo_getpid_refines e z lines tag :
  zenv_good e -> zoo_rep lines z ->
  exists z', zoo_getpid e (Some z) tag = (getpid_lines lines tag, Some z') /\
             zoo_rep lines z'.
Proof.
  intros (E1 & E2 & E3) (Hb & Hl & Hu). unfold zoo_getpid, zoo_lock, zoo_unlock.
  rewrite !fcntl_loop_final, E1, E2. cbn.
  rewrite Hb, getpid_scan_lines; [|done|pose proof (lines_le_bytes lines); lia].
  eexists. split; [reflexivity|]. done.
Qed.

Lemma zoo_getpid_refines_witness :
  exists z', zoo_getpid zenv_ok (Some zoo_empty) §"t" = (-1, Some z') /\ zoo_rep [] z'.
Proof.
  apply (zoo_getpid_refines zenv_ok zoo_empty [] §"t"); [apply zenv_ok_good|apply zoo_empty_rep].
Defined.

Lemma cat_loop_length argv : length (cat_loop false argv) = cat_size argv.
Proof. induction argv as [|a r IH]; simpl; [done|]. rewrite length_app, IH. lia. Qed.

(** The string [cat_args] builds is the arguments separated by blanks, and it
    fills the allocated block exactly, the terminating NUL included. *)
Theorem cat_args_fits a argv :
  cat_args true (a :: argv) = Some (cat_size (a :: argv), join §" " (a :: argv)) /\
  (length (join §" " (a :: argv)) + 1)%nat = cat_size (a :: argv).
Proof.
  assert (H : forall l, cat_loop false l = match l with [] => [] | _ => §" " ++ join §" " l end).
  { induction l as [|x l IH]; [done|]. cbn [cat_loop]. rewrite IH.
    destruct l; [now rewrite app_nil_r|done]. }
  assert (Hj : cat_loop true (a :: argv) = join §" " (a :: argv)).
  { cbn [cat_loop app]. rewrite H. destruct argv; [now rewrite app_nil_r|done]. }
  split; [unfold cat_args; now rewrite Hj|]. rewrite <- Hj.
  cbn [cat_loop app]. rewrite length_app, cat_loop_length. simpl. lia.
Qed.
