(* ===== verification/PanColl.v ===== *)
(** pan/ltp-pan.c, the command collection: [slurp], [get_collection],
    [subst_pcnt_f].  The command file is its bytes; the answers of [open],
    [fstat] and [read] are parameters. *)
From Stdlib Require Import Ascii String ZArith Lia Bool.
From stdpp Require Import base list sets numbers.
From S2P Require Import Prelude CString.

Local Open Scope Z_scope.

(** ** Data *)

(** [struct coll_entry]; the list replaces the [next] links, and [pcnt_f] is
    used by the code only as a flag. *)
Record coll_entry := mkColl {
  name : cstr;
  cmdline : cstr;
  pcnt_f : bool
}.

Inductive coll_result :=
| CollNull                            (* get_collection returns NULL *)
| CollOverflow                        (* workstr[1024] written out of bounds *)
| Coll (ary : list coll_entry).

(** ** slurp *)

Record file_answer := {
  fa_open : bool;                     (* open succeeds *)
  fa_fstat : bool;                    (* fstat succeeds *)
  fa_size : Z;                        (* st_size *)
  fa_read : option cstr               (* bytes read, None on error *)
}.

(** [slurp]: NULL, or the buffer with the NUL stored after the [st_size] bytes
    read, as the string it holds. *)
Definition slurp (a : file_answer) : option cstr :=
  if fa_open a then
    if fa_fstat a then
      match fa_read a with
      | Some bytes =>
          if Z.of_nat (length bytes) =? fa_size a then Some (cstr_of bytes) else None
      | None => None
      end
    else None
  else None.

(** ** get_collection *)

Definition is_blank (c : ascii) : bool := ceqb c " " || ceqb c TAB.

(** [if ((n->pcnt_f = strstr(a, "%f"))) n->pcnt_f[1] = 's'] on the text [a]. *)
Definition mark_pcnt_f (a : cstr) : bool * cstr :=
  match strstr a §"%f" with
  | Some k => (true, <[S k := "s"%char]> a)
  | None => (false, a)
  end.

(** [strsep(&a, " \t")]: the token and the new [a]. *)
Definition strsep (a : cstr) : cstr * option cstr :=
  (takewhile (fun c => negb (is_blank c)) a,
   match dropwhile (fun c => negb (is_blank c)) a with
   | [] => None
   | _ :: r => Some r
   end).

(** A line that is not a comment, empty or indented. *)
Definition is_entry_line (a : cstr) : bool :=
  match a with
  | [] => false
  | c :: _ => negb (ceqb c "#") && negb (ceqb c " ")
  end.

(** The entry of a line; [None] when the command is missing. *)
Definition parse_line (a : cstr) : option coll_entry :=
  let '(pf, a1) := mark_pcnt_f a in
  let '(nm, a2) := strsep a1 in
  match a2 with
  | None => None
  | Some a2 =>
      match dropwhile isspace a2 with
      | [] => None
      | cmd => Some (mkColl nm cmd pf)
      end
  end.

(** The [while (a)] loop over the lines of the buffer; [None] when a test has
    no command. *)
Fixpoint coll_loop (fuel : nat) (a : option cstr) : option (list coll_entry) :=
  match fuel, a with
  | _, None => Some []
  | O, Some _ => Some []
  | S f, Some a =>
      let line := takewhile (fun c => negb (ceqb c LF)) a in
      let b := match strchr a LF with Some (_ :: r) => Some r | _ => None end in
      if is_entry_line line then
        match parse_line line with
        | None => None
        | Some e => match coll_loop f b with Some l => Some (e :: l) | None => None end
        end
      else coll_loop f b
  end.

(** [strncat(dst, src, n)]: a negative [n] is converted to a huge [size_t]. *)
Definition strncat (dst src : cstr) (n : Z) : cstr :=
  dst ++ (if n <? 0 then src else take (Z.to_nat n) src).

(** The loop that joins the command line arguments into [workstr]. *)
Fixpoint workstr_loop (argv : list cstr) (workstr : cstr) (left : Z) : cstr :=
  match argv with
  | [] => workstr
  | a :: r =>
      let w1 := strncat workstr a left in
      let left1 := left - Z.of_nat (length a) in
      let w2 := strncat w1 [" "%char] left1 in
      workstr_loop r w2 (left1 - 1)
  end.

Definition get_collection (file : file_answer) (argv : list cstr) : coll_result :=
  match slurp file with
  | None => CollNull
  | Some buf =>
      match coll_loop (S (length buf)) (Some buf) with
      | None => CollNull
      | Some l =>
          match argv with
          | [] => Coll l
          | _ =>
              let workstr := workstr_loop argv [] 1023 in
              if (1023 <? length workstr)%nat then CollOverflow
              else let '(pf, w) := mark_pcnt_f workstr in
                   Coll (l ++ [mkColl §"cmdln" w pf])
          end
      end
  end.

(** ** subst_pcnt_f *)

(** [printf] of a format with one string argument: [None] where the format
    asks for an argument that was not passed or has another conversion. *)
Fixpoint expand (fmt : cstr) (arg : option cstr) : option cstr :=
  match fmt with
  | [] => Some []
  | c :: r =>
      if ceqb c "%" then
        match r with
        | d :: r' =>
            if ceqb d "%" then
              match expand r' arg with Some t => Some (c :: t) | None => None end
            else if ceqb d "s" then
              match arg with
              | Some s => match expand r' None with Some t => Some (s ++ t) | None => None end
              | None => None
              end
            else None
        | [] => None
        end
      else match expand r arg with Some t => Some (c :: t) | None => None end
  end.

(** [subst_pcnt_f] with the process id and the value of its static counter:
    the command line and the next counter; [None] when the format string is
    outside what [snprintf] is given arguments for. *)
Definition subst_pcnt_f (e : coll_entry) (pid counter : Z) : option cstr * Z :=
  if negb (pcnt_f e) then (Some (cmdline e), counter)
  else
    let pid_and_counter := snprintf_buf 20 (fmt_d pid ++ §"_" ++ fmt_d counter) in
    (match expand (cmdline e) (Some pid_and_counter) with
     | Some t => Some (snprintf_buf 1024 t)
     | None => None
     end, s32 (counter + 1)).

(** ** Command files *)

(** What a command file consists of, and its text. *)
Inductive item :=
| Comment (text : cstr)               (* # text *)
| Empty                               (* empty line *)
| Test (nm : cstr) (sep : cstr) (cmd : cstr).

Definition item_text (i : item) : cstr :=
  match i with
  | Comment t => "#"%char :: t
  | Empty => []
  | Test nm sep cmd => nm ++ sep ++ cmd
  end.

Definition file_text (items : list item) : cstr := flat_map (fun i => item_text i ++ [LF]) items.

(** Names and commands as the runtest files have them: the name has no blank,
    no [%] and no [#] at its start, blanks separate it from the command, the
    command starts with a visible character. *)
Definition item_ok (i : item) : Prop :=
  (LF ∉ item_text i) /\ (NUL ∉ item_text i) /\
  match i with
  | Test nm sep cmd =>
      match nm with [] => False | c :: _ => c <> "#"%char end /\
      Forall (fun c => is_blank c = false) nm /\ ("%"%char ∉ nm) /\
      sep <> [] /\ Forall (fun c => is_blank c = true) sep /\
      match cmd with [] => False | c :: _ => isspace c = false end
  | _ => True
  end.

(** The entry an item stands for. *)
Definition item_entry (i : item) : list coll_entry :=
  match i with
  | Test nm _ cmd => let '(pf, c) := mark_pcnt_f cmd in [mkColl nm c pf]
  | _ => []
  end.

(** ** Lemmas *)

Lemma is_prefix_pct_f c s : c <> "%"%char -> is_prefix §"%f" (c :: s) = false.
Proof.
  intros H. cbn. destruct (ceqb "%" c) eqn:E; [|done].
  apply ceqb_eq in E. congruence.
Qed.

Lemma strstr_skip p s :
  "%"%char ∉ p ->
  strstr (p ++ s) §"%f" = match strstr s §"%f" with Some k => Some (length p + k)%nat | None => None end.
Proof.
  induction p as [|c p IH]; intros H; cbn [app length].
  - destruct (strstr s _); done.
  - apply not_elem_of_cons in H as [H1 H2].
    cbn [strstr]. rewrite is_prefix_pct_f by congruence. rewrite IH by done.
    destruct (strstr s _); done.
Qed.

Lemma mark_pcnt_f_skip p s :
  "%"%char ∉ p -> mark_pcnt_f (p ++ s) = ((mark_pcnt_f s).1, p ++ (mark_pcnt_f s).2).
Proof.
  intros H. unfold mark_pcnt_f. rewrite strstr_skip by done.
  destruct (strstr s _) as [k|]; [|done]. cbn. f_equal.
  replace (S (length p + k)) with (length p + S k)%nat by lia. apply insert_app_r.
Qed.

(** The substitution keeps the first character. *)
Lemma mark_pcnt_f_head c s : exists s', (mark_pcnt_f (c :: s)).2 = c :: s'.
Proof. unfold mark_pcnt_f. destruct (strstr _ _); cbn; eauto. Qed.

Lemma blank_isspace c : is_blank c = true -> isspace c = true /\ c <> "%"%char.
Proof.
  unfold is_blank. intros H. apply orb_true_iff in H as [H|H]; apply ceqb_eq in H as ->; done.
Qed.

Lemma parse_line_test nm sep cmd :
  item_ok (Test nm sep cmd) ->
  parse_line (nm ++ sep ++ cmd) =
    Some (mkColl nm (mark_pcnt_f cmd).2 (mark_pcnt_f cmd).1).
Proof.
  intros (_ & _ & Hn & Hnb & Hnp & Hs & Hsb & Hc). unfold parse_line.
  assert (Hsp : "%"%char ∉ nm ++ sep).
  { rewrite elem_of_app. intros [?|H]; [done|].
    rewrite Forall_forall in Hsb. apply list_elem_of_In, Hsb in H. done. }
  rewrite app_assoc, mark_pcnt_f_skip by done. rewrite <- app_assoc.
  unfold strsep. destruct sep as [|b sep]; [done|]. cbn [app].
  apply Forall_cons_1 in Hsb as [Hb Hsb].
  rewrite takewhile_app, dropwhile_app;
    [|eapply Forall_impl; [|exact Hnb]; simpl; intros c ->; done|now rewrite Hb
     |eapply Forall_impl; [|exact Hnb]; simpl; intros c ->; done|now rewrite Hb].
  destruct cmd as [|c cmd]; [done|].
  destruct (mark_pcnt_f_head c cmd) as [cmd' ->].
  rewrite dropwhile_app; [done| |done].
  eapply Forall_impl; [|exact Hsb]. simpl. intros x Hx. now apply blank_isspace in Hx.
Qed.

Lemma is_entry_line_test nm sep cmd :
  item_ok (Test nm sep cmd) -> is_entry_line (nm ++ sep ++ cmd) = true.
Proof.
  intros (_ & _ & Hn & Hnb & _). destruct nm as [|c nm]; [done|].
  apply Forall_cons_1 in Hnb as [Hb _]. cbn.
  unfold is_blank in Hb. apply orb_false_iff in Hb as [-> _].
  apply ceqb_neq in Hn as ->. done.
Qed.

Lemma coll_loop_line fuel l r :
  LF ∉ l ->
  coll_loop (S fuel) (Some (l ++ LF :: r)) =
    (if is_entry_line l then
       match parse_line l with
       | None => None
       | Some e => match coll_loop fuel (Some r) with Some es => Some (e :: es) | None => None end
       end
     else coll_loop fuel (Some r)).
Proof.
  intros H. cbn [coll_loop]. rewrite strchr_app by done.
  rewrite takewhile_app; [done| |done].
  apply Forall_forall. intros c Hc%list_elem_of_In.
  apply negb_true_iff, ceqb_neq. intros ->. done.
Qed.

Lemma coll_loop_items fuel items :
  Forall item_ok items -> (length items < fuel)%nat ->
  coll_loop fuel (Some (file_text items)) = Some (flat_map item_entry items).
Proof.
  intros H. revert fuel. induction H as [|i items Hi _ IH]; intros [|f] Hf; simpl in Hf; try lia.
  - destruct f; done.
  - change (file_text (i :: items)) with ((item_text i ++ [LF]) ++ file_text items).
    rewrite <- app_assoc. cbn [app]. rewrite coll_loop_line by apply Hi.
    rewrite IH by lia. cbn [flat_map]. destruct i as [t| |nm sep cmd]; [done|done|].
    cbn [item_text item_entry]. rewrite is_entry_line_test, parse_line_test by done.
    destruct (mark_pcnt_f cmd); done.
Qed.

Lemma items_le_text items : (length items <= length (file_text items))%nat.
Proof.
  induction items as [|i items IH]; [done|].
  change (file_text (i :: items)) with ((item_text i ++ [LF]) ++ file_text items).
  rewrite !length_app. simpl. lia.
Qed.

(** A line that is a name and nothing else. *)
Definition bare_name (nm : cstr) : Prop :=
  match nm with [] => False | c :: _ => c <> "#"%char end /\
  Forall (fun c => isspace c = false) nm /\ (NUL ∉ nm) /\ ("%"%char ∉ nm).

Lemma visible_not_blank c : isspace c = false -> is_blank c = false /\ c <> LF.
Proof.
  intros Hc. split; [|intros ->; done].
  destruct (is_blank c) eqn:E; [apply blank_isspace in E as [E _]; congruence|done].
Qed.

Lemma bare_name_line nm :
  bare_name nm -> is_entry_line nm = true /\ parse_line nm = None /\ (LF ∉ nm).
Proof.
  intros (Hn & Hb & _ & Hpct). split; [|split].
  - destruct nm as [|c nm]; [done|]. apply Forall_cons_1 in Hb as [Hc _].
    apply visible_not_blank in Hc as [Hc _]. unfold is_blank in Hc.
    apply orb_false_iff in Hc as [Hc _]. cbn. rewrite Hc. apply ceqb_neq in Hn as ->. done.
  - unfold parse_line. rewrite <- (app_nil_r nm). rewrite mark_pcnt_f_skip by done. cbn.
    rewrite !app_nil_r. unfold strsep. rewrite dropwhile_id; [done|].
    eapply Forall_impl; [|exact Hb]. simpl. intros c Hc.
    apply visible_not_blank in Hc as [-> _]. done.
  - intros H. rewrite Forall_forall in Hb. apply list_elem_of_In, Hb in H. done.
Qed.

Lemma coll_loop_no_command nm pre fuel r :
  bare_name nm -> Forall item_ok pre -> (length pre < fuel)%nat ->
  coll_loop fuel (Some (file_text pre ++ nm ++ LF :: r)) = None.
Proof.
  intros (He & Hp & HLF)%bare_name_line Hpre. revert fuel.
  induction Hpre as [|i pre Hi _ IH]; intros [|f] Hf; simpl in Hf; try lia.
  - cbn [file_text flat_map app]. rewrite (coll_loop_line f nm r HLF), He, Hp. done.
  - change (file_text (i :: pre)) with ((item_text i ++ [LF]) ++ file_text pre).
    rewrite <- !app_assoc. cbn [app]. rewrite coll_loop_line by apply Hi.
    rewrite IH by lia. destruct (is_entry_line (item_text i)), (parse_line (item_text i)); done.
Qed.

Lemma file_text_NUL items : Forall item_ok items -> NUL ∉ file_text items.
Proof.
  intros H. induction H as [|i items Hi _ IH]; [set_solver|].
  change (file_text (i :: items)) with ((item_text i ++ [LF]) ++ file_text items).
  rewrite !elem_of_app. intros [[H|H]|H]; [now apply Hi| |done].
  apply list_elem_of_singleton in H. done.
Qed.

(** A file that is opened and read in full. *)
Definition whole_file (bytes : cstr) : file_answer :=
  {| fa_open := true; fa_fstat := true; fa_size := Z.of_nat (length bytes);
     fa_read := Some bytes |}.

(** What [get_collection] computes from a well-formed file. *)
Lemma get_collection_items items argv :
  Forall item_ok items ->
  get_collection (whole_file (file_text items)) argv =
    match argv with
    | [] => Coll (flat_map item_entry items)
    | _ =>
        let workstr := workstr_loop argv [] 1023 in
        if (1023 <? length workstr)%nat then CollOverflow
        else let '(pf, w) := mark_pcnt_f workstr in
             Coll (flat_map item_entry items ++ [mkColl §"cmdln" w pf])
    end.
Proof.
  intros H. unfold get_collection, slurp, whole_file. cbn [fa_open fa_fstat fa_read fa_size].
  rewrite Z.eqb_refl.
  rewrite <- (app_nil_r (file_text items)), cstr_of_app by now apply file_text_NUL.
  change (cstr_of []) with (@nil ascii). rewrite app_nil_r.
  pose proof (items_le_text items). rewrite coll_loop_items; [done|done|lia].
Qed.

Lemma expand_plain s arg : "%"%char ∉ s -> expand s arg = Some s.
Proof.
  induction s as [|c s IH]; intros H; [done|].
  apply not_elem_of_cons in H as [H1 H2]. cbn [expand].
  destruct (ceqb c "%") eqn:E; [apply ceqb_eq in E; congruence|]. now rewrite IH.
Qed.

Lemma expand_one pre post arg :
  "%"%char ∉ pre -> "%"%char ∉ post ->
  expand (pre ++ §"%s" ++ post) (Some arg) = Some (pre ++ arg ++ post).
Proof.
  intros Hpre Hpost. induction pre as [|c p IH].
  - change ([] ++ §"%s" ++ post) with ("%"%char :: "s"%char :: post).
    cbn [expand app]. change (ceqb "s" "%") with false. cbn iota.
    rewrite !ceqb_refl, expand_plain by done. done.
  - apply not_elem_of_cons in Hpre as [H1 H2]. rewrite <- !app_comm_cons. cbn [expand].
    destruct (ceqb c "%") eqn:E; [apply ceqb_eq in E; congruence|]. now rewrite IH.
Qed.

(** ** Properties *)

(** Reading a command file gives exactly its tests in order: comments and empty
    lines are dropped, each name is paired with its command line, and the first
    [%f] of a command is marked for substitution. *)
Theorem get_collection_roundtrip items :
  Forall item_ok items ->
  get_collection (whole_file (file_text items)) [] = Coll (flat_map item_entry items).
Proof.
  intros H. now rewrite get_collection_items.
Qed.

Definition sample_items : list item :=
  [Comment §" runtest"; Test §"abort01" §" " §"abort01 -x"; Empty; Test §"fs" §" " §"fsx %f"].

Lemma sample_items_ok : Forall item_ok sample_items.
Proof.
  repeat constructor; try (apply memc_false; reflexivity); discriminate.
Qed.

Lemma get_collection_roundtrip_witness :
  get_collection (whole_file (file_text sample_items)) [] =
    Coll [mkColl §"abort01" §"abort01 -x" false; mkColl §"fs" §"fsx %s" true].
Proof. apply (get_collection_roundtrip sample_items). apply sample_items_ok. Defined.

(** A test line without a command makes [get_collection] return NULL, whatever
    follows it in the file. *)
Theorem get_collection_no_command nm pre post argv :
  Forall item_ok pre -> bare_name nm ->
  get_collection (whole_file (file_text pre ++ nm ++ LF :: post)) argv = CollNull.
Proof.
  intros Hpre Hn. unfold get_collection, slurp, whole_file.
  cbn [fa_open fa_fstat fa_read fa_size]. rewrite Z.eqb_refl.
  rewrite cstr_of_app by now apply file_text_NUL.
  rewrite cstr_of_app by apply Hn.
  change (cstr_of (LF :: post)) with (LF :: cstr_of post).
  rewrite coll_loop_no_command; [done|done|done|].
  pose proof (items_le_text pre). rewrite length_app. lia.
Qed.

Lemma get_collection_no_command_witness :
  get_collection (whole_file (file_text sample_items ++ §"abort02" ++ LF :: §"x y")) [] = CollNull.
Proof.
  apply get_collection_no_command; [apply sample_items_ok|].
  split; [discriminate|]. split; [repeat constructor|].
  split; apply memc_false; reflexivity.
Defined.

(** Arguments given on pan's command line become one entry: while they fit, the
    entry is the arguments each followed by a blank. *)
Lemma workstr_loop_fits argv w left :
  left = 1023 - Z.of_nat (length w) ->
  Z.of_nat (length (flat_map (fun a => a ++ [" "%char]) argv)) <= left ->
  workstr_loop argv w left = w ++ flat_map (fun a => a ++ [" "%char]) argv.
Proof.
  revert w left. induction argv as [|a r IH]; intros w left Hl Hfit; cbn [workstr_loop flat_map].
  - now rewrite app_nil_r.
  - cbn [flat_map] in Hfit. rewrite !length_app in Hfit. simpl in Hfit.
    unfold strncat at 2. rewrite (proj2 (Z.ltb_ge left 0)) by lia.
    rewrite take_ge by lia. unfold strncat.
    rewrite (proj2 (Z.ltb_ge (left - Z.of_nat (length a)) 0)) by lia.
    rewrite take_ge by (simpl; lia).
    rewrite IH; [now rewrite <- !app_assoc| |]; rewrite ?length_app; simpl; lia.
Qed.

(** The command line entry, and when there is room for it in [workstr]. *)
Theorem get_collection_cmdln items argv :
  Forall item_ok items -> argv <> [] ->
  Z.of_nat (length (flat_map (fun a => a ++ [" "%char]) argv)) <= 1023 ->
  get_collection (whole_file (file_text items)) argv =
    let '(pf, w) := mark_pcnt_f (flat_map (fun a => a ++ [" "%char]) argv) in
    Coll (flat_map item_entry items ++ [mkColl §"cmdln" w pf]).
Proof.
  intros H Hne Hfit. rewrite get_collection_items by done.
  destruct argv as [|a argv]; [done|]. cbn zeta.
  rewrite workstr_loop_fits; [|done|exact Hfit]. cbn [app].
  rewrite (proj2 (Nat.ltb_ge _ _)) by lia. done.
Qed.

Lemma get_collection_cmdln_witness :
  get_collection (whole_file (file_text sample_items)) [§"ls"; §"-l"] =
    Coll ([mkColl §"abort01" §"abort01 -x" false; mkColl §"fs" §"fsx %s" true]
          ++ [mkColl §"cmdln" §"ls -l " false]).
Proof.
  apply (get_collection_cmdln sample_items [§"ls"; §"-l"]);
    [apply sample_items_ok|discriminate|vm_compute; discriminate].
Defined.

(** A longer argument list is written past the end of [workstr]: the space left
    becomes negative and [strncat] takes it for a huge count. *)
Theorem get_collection_cmdln_overflow items a :
  Forall item_ok items -> (1023 < length a)%nat ->
  get_collection (whole_file (file_text items)) [a] = CollOverflow.
Proof.
  intros H Ha. rewrite get_collection_items by done. cbn [workstr_loop]. cbn zeta.
  unfold strncat. rewrite (proj2 (Z.ltb_ge 1023 0)) by lia.
  rewrite (proj2 (Z.ltb_lt (1023 - Z.of_nat (length a)) 0)) by lia.
  rewrite (proj2 (Nat.ltb_lt _ _)); [done|].
  rewrite !length_app, length_take. cbn [length]. lia.
Qed.

Lemma get_collection_cmdln_overflow_witness :
  get_collection (whole_file (file_text sample_items)) [replicate 1024 "x"%char] = CollOverflow.
Proof.
  apply get_collection_cmdln_overflow; [apply sample_items_ok|].
  rewrite length_replicate. lia.
Defined.

(** A command with one [%f] gets the pid and the counter in its place, and the
    counter advances so that the next substitution differs. *)
Theorem subst_pcnt_f_once nm pre post pid counter :
  ("%"%char ∉ pre) -> ("%"%char ∉ post) -> 0 <= counter < INT_MAX ->
  let e := mkColl nm (pre ++ §"%s" ++ post) true in
  subst_pcnt_f e pid counter =
    (Some (snprintf_buf 1024 (pre ++ snprintf_buf 20 (fmt_d pid ++ §"_" ++ fmt_d counter) ++ post)),
     counter + 1).
Proof.
  intros Hpre Hpost Hc. cbn zeta. unfold subst_pcnt_f. cbn [pcnt_f cmdline negb].
  rewrite expand_one by done. f_equal. apply s32_small. unfold INT_MIN, INT_MAX in *. lia.
Qed.

Lemma subst_pcnt_f_once_witness :
  subst_pcnt_f (mkColl §"fs" §"fsx %s -q" true) 77 1 = (Some §"fsx 77_1 -q", 2).
Proof.
  apply (subst_pcnt_f_once §"fs" §"fsx " §" -q" 77 1);
    [apply memc_false; reflexivity|apply memc_false; reflexivity|unfold INT_MAX; lia].
Defined.
