(* ===== verification/PanOS.v ===== *)
(** The world ltp-pan runs in: its global variables, the zoo file, the trace of
    what it does, and the kernel, whose answers are the methods of the class
    [OS] indexed by the number of the system call.  Code is a state monad with
    two ways out: [exit] and undefined behaviour.

    Signals are delivered at system calls: [os_signals k] are the signals
    whose handler [wait_handler] runs during call [k]. *)
From Stdlib Require Import Ascii String ZArith Lia Bool.
From stdpp Require Import base list sets numbers.
From S2P Require Import Prelude CString Zoo PanColl.

Local Open Scope Z_scope.

(** ** Constants of the platform (Linux) *)

Definition SIGHUP : Z := 1.
Definition SIGINT : Z := 2.
Definition SIGKILL : Z := 9.
Definition SIGUSR1 : Z := 10.
Definition SIGUSR2 : Z := 12.
Definition SIGALRM : Z := 14.
Definition SIGTERM : Z := 15.

Definition EPERM : Z := 1.
Definition ESRCH : Z := 3.
Definition ECHILD : Z := 10.
Definition EEXIST : Z := 17.

(** ** Answers of the kernel *)

Inductive wait_answer :=
| WaitErr (errno : Z)                 (* wait() < 0 *)
| WaitPid (pid stat_loc : Z).

Inductive fork_answer :=
| ForkErr (errno : Z)
| ForkPid (pid : Z).

(** What the parent reads from the error pipe after [fork]. *)
Inductive pipe_answer :=
| PipeEof                             (* 0: the exec succeeded *)
| PipeMsg (errbuf : cstr) (status : Z) (* the child's message; its wait status *)
| PipeErr.                            (* -1: interrupted by a signal *)

(** ** What pan does *)

Inductive event :=
| EvKill (pid sig errno : Z)
| EvRun (tag : cstr)                  (* run_child is called *)
| EvStarted (pid : Z) (tag cmd : cstr)
| EvExecFail (pid : Z) (tag : cstr) (termid : Z)
| EvReaped (pid stat_loc : Z)
| EvLog (tag : cstr) (stime dur : Z) (status : string) (stat : Z) (core : bool) (cu cs : Z)
| EvResult (tag : cstr) (result : string) (stat : Z)
| EvFailCmd (tag cmd : cstr)
| EvTconfCmd (tag cmd : cstr)
| EvTestStart (tag cmd : cstr) (stime : Z)
| EvTestEnd (tag : cstr) (init : cstr) (dur : Z) (term_type : string) (term_id : Z)
            (core : bool) (cu cs : Z)
| EvStdout (text : cstr)              (* buffered output copied to stdout *)
| EvUnlink (file : cstr)
| EvKmsg (tag : cstr) (cmd : option cstr)
| EvMsg (m : string).

(** The kernel.  [fork] and [wait] also see the history, since which pids are
    children depends on it. *)
Class OS := {
  os_signals : nat -> list Z;
  os_kill : nat -> Z -> Z -> Z;       (* errno of kill(pid, sig), 0 on success *)
  os_wait : nat -> list event -> wait_answer;
  os_fork : nat -> list event -> fork_answer;
  os_pipe : nat -> Z;                 (* errno of pipe() *)
  os_errpipe : nat -> pipe_answer;
  os_open_exist : nat -> nat;         (* EEXIST answers before the last open *)
  os_open : nat -> Z;                 (* errno of the last open *)
  os_kmsg : nat -> bool;              (* /dev/kmsg can be opened *)
  os_time : nat -> Z;
  os_times : nat -> Z * Z;            (* tms_cutime, tms_cstime *)
  os_lrand48 : nat -> Z;
  os_slurp : nat -> file_answer;      (* reading an output file back *)
  os_zoo : nat -> zenv;               (* the calls inside a zoo operation *)
  os_stop_file : nat -> bool;         (* PAN_STOP_FILE can be opened *)
  os_getpid : Z
}.

(** ** The world *)

Record world := mkWorld {
  w_tick : nat;
  w_zoo : option zoo;                 (* zoofile *)
  rec_signal : Z;
  send_signal : Z;
  lastsent : Z;                       (* static of wait_handler *)
  cmdno : Z;                          (* static of run_child *)
  counter : Z;                        (* static of subst_pcnt_f *)
  w_trace : list event                (* newest first *)
}.

Definition set_tick w v := mkWorld v (w_zoo w) (rec_signal w) (send_signal w) (lastsent w) (cmdno w) (counter w) (w_trace w).
Definition set_zoo w v := mkWorld (w_tick w) v (rec_signal w) (send_signal w) (lastsent w) (cmdno w) (counter w) (w_trace w).
Definition set_signals w r s l := mkWorld (w_tick w) (w_zoo w) r s l (cmdno w) (counter w) (w_trace w).
Definition set_cmdno w v := mkWorld (w_tick w) (w_zoo w) (rec_signal w) (send_signal w) (lastsent w) v (counter w) (w_trace w).
Definition set_counter w v := mkWorld (w_tick w) (w_zoo w) (rec_signal w) (send_signal w) (lastsent w) (cmdno w) v (w_trace w).
Definition add_event w e := mkWorld (w_tick w) (w_zoo w) (rec_signal w) (send_signal w) (lastsent w) (cmdno w) (counter w) (e :: w_trace w).

(** [wait_handler(sig)]: the signal ratchet. *)
Definition wait_handler (sig : Z) (w : world) : world :=
  if sig =? 0 then set_signals w (rec_signal w) (send_signal w) 0
  else if sig =? SIGUSR2 then set_signals w sig (send_signal w) (lastsent w)
  else
    let send :=
      if lastsent w =? 0 then sig
      else if lastsent w =? SIGUSR1 then SIGINT
      else if lastsent w =? sig then SIGTERM
      else if lastsent w =? SIGTERM then SIGHUP
      else if lastsent w =? SIGHUP then SIGKILL
      else send_signal w in
    set_signals w sig send send.

(** ** The monad *)

Inductive res (A : Type) :=
| Ok (a : A) (w : world)
| Exited (code : Z) (w : world)       (* exit(code) *)
| Undef.                              (* undefined behaviour *)
Arguments Ok {A}.
Arguments Exited {A}.
Arguments Undef {A}.

Definition M (A : Type) : Type := world -> res A.

Definition ret {A} (a : A) : M A := fun w => Ok a w.
Definition bind {A B} (m : M A) (f : A -> M B) : M B := fun w =>
  match m w with
  | Ok a w' => f a w'
  | Exited c w' => Exited c w'
  | Undef => Undef
  end.

Declare Scope pan_scope.
Delimit Scope pan_scope with pan.
Bind Scope pan_scope with M.
Notation "x <- m ;; k" := (bind m (fun x => k))
  (at level 100, m at next level, right associativity) : pan_scope.
Notation "m ;; k" := (bind m (fun _ => k)) (at level 100, right associativity) : pan_scope.
Local Open Scope pan_scope.

Definition get : M world := fun w => Ok w w.
Definition modify (f : world -> world) : M unit := fun w => Ok tt (f w).
Definition exit {A} (code : Z) : M A := fun w => Exited code w.
Definition undefined {A} : M A := fun _ => Undef.
Definition emit (e : event) : M unit := modify (fun w => add_event w e).
Definition when (b : bool) (m : M unit) : M unit := if b then m else ret tt.

(** ** System calls *)

Section Syscalls.
Context `{OS}.

(** Take the number of this system call and run the handler for the signals
    that arrive during it. *)
Definition tick : M nat := fun w =>
  let k := w_tick w in
  Ok k (fold_left (fun w s => wait_handler s w) (os_signals k) (set_tick w (S k))).

(** [kill(pid, sig)]: 0 or the errno. *)
Definition kill (pid sig : Z) : M Z :=
  k <- tick ;;
  let errno := os_kill k pid sig in
  emit (EvKill pid sig errno) ;;
  ret errno.

Definition time : M Z := k <- tick ;; ret (os_time k).
Definition times : M (Z * Z) := k <- tick ;; ret (os_times k).

(** A zoo operation on [zoofile], with the kernel's answers to it. *)
Definition zoo_op (f : zenv -> option zoo -> Z * option zoo) : M Z :=
  k <- tick ;;
  w <- get ;;
  let '(r, z) := f (os_zoo k) (w_zoo w) in
  modify (fun w => set_zoo w z) ;;
  ret r.
End Syscalls.
