(* ===== verification/Pan.v ===== *)
(** pan/ltp-pan.c, the test driver: starting tests ([run_child]), reaping them
    ([check_pids]), passing signals on ([propagate_signal], [check_orphans],
    [mark_orphan]) and the scheduling loop of [main].  The operations are the
    whole functions of the source, in the monad of [PanOS]; messages that only
    appear under a debug flag are left out. *)
From Stdlib Require Import Ascii String ZArith Lia Bool.
From stdpp Require Import base list sets numbers.
From S2P Require Import Prelude CString Splitstr Zoo PanColl PanOS.

Local Open Scope Z_scope.
Local Open Scope pan_scope.

Definition TCONF : Z := 32.

(** ** Data *)

(** [struct tag_pgrp]; [cmd] is NULL until the slot is first used. *)
Record tag_pgrp := mkTag {
  pgrp : Z;
  stopping : bool;
  mystime : Z;
  cmd : option coll_entry;
  output : cstr
}.

Definition empty_slot : tag_pgrp := mkTag 0 false 0 None [].

Definition set_pgrp t v := mkTag v (stopping t) (mystime t) (cmd t) (output t).
Definition set_stopping t v := mkTag (pgrp t) v (mystime t) (cmd t) (output t).
Definition set_start t time e := mkTag (pgrp t) (stopping t) time (Some e) (output t).
Definition set_output t v := mkTag (pgrp t) (stopping t) (mystime t) (cmd t) v.

(** [running[i].cmd->name] and [->cmdline]. *)
Definition tag_name (t : tag_pgrp) : cstr := match cmd t with Some e => name e | None => [] end.
Definition tag_cmdline (t : tag_pgrp) : cstr := match cmd t with Some e => cmdline e | None => [] end.

(** What the command line of pan fixes for the whole run. *)
Record config := {
  keep_active : nat;
  sequential : bool;
  has_brakes : bool;
  track_exit_stats : bool;
  fmt_print : bool;
  quiet_mode : bool;
  no_kmsg : bool;
  logfile : bool;                     (* a log file is open *)
  failcmdfile : bool;
  tconfcmdfile : bool;
  test_out_dir : option cstr;
  report_rts : bool;                  (* reporttype is "rts" *)
  coll : list coll_entry
}.

(** The variables of [main] the scheduling loop changes. *)
Record sched := mkSched {
  running : list tag_pgrp;            (* the keep_active slots *)
  orphans : list Z;                   (* orphan list, head first *)
  num_active : Z;
  starts : Z;
  cidx : nat;                         (* c, the command index *)
  stop : Z;
  go_idle : Z;
  exit_stat : Z;
  failcnt : Z;
  tconfcnt : Z;
  fork_in_road : bool
}.

Definition set_running s v := mkSched v (orphans s) (num_active s) (starts s) (cidx s) (stop s) (go_idle s) (exit_stat s) (failcnt s) (tconfcnt s) (fork_in_road s).
Definition set_orphans s v := mkSched (running s) v (num_active s) (starts s) (cidx s) (stop s) (go_idle s) (exit_stat s) (failcnt s) (tconfcnt s) (fork_in_road s).
Definition set_num_active s v := mkSched (running s) (orphans s) v (starts s) (cidx s) (stop s) (go_idle s) (exit_stat s) (failcnt s) (tconfcnt s) (fork_in_road s).
Definition set_starts s v := mkSched (running s) (orphans s) (num_active s) v (cidx s) (stop s) (go_idle s) (exit_stat s) (failcnt s) (tconfcnt s) (fork_in_road s).
Definition set_cidx s v := mkSched (running s) (orphans s) (num_active s) (starts s) v (stop s) (go_idle s) (exit_stat s) (failcnt s) (tconfcnt s) (fork_in_road s).
Definition set_stop s v := mkSched (running s) (orphans s) (num_active s) (starts s) (cidx s) v (go_idle s) (exit_stat s) (failcnt s) (tconfcnt s) (fork_in_road s).
Definition set_go_idle s v := mkSched (running s) (orphans s) (num_active s) (starts s) (cidx s) (stop s) v (exit_stat s) (failcnt s) (tconfcnt s) (fork_in_road s).
Definition set_exit_stat s v := mkSched (running s) (orphans s) (num_active s) (starts s) (cidx s) (stop s) (go_idle s) v (failcnt s) (tconfcnt s) (fork_in_road s).
Definition set_failcnt s v := mkSched (running s) (orphans s) (num_active s) (starts s) (cidx s) (stop s) (go_idle s) (exit_stat s) v (tconfcnt s) (fork_in_road s).
Definition set_tconfcnt s v := mkSched (running s) (orphans s) (num_active s) (starts s) (cidx s) (stop s) (go_idle s) (exit_stat s) (failcnt s) v (fork_in_road s).
Definition set_fork_in_road s v := mkSched (running s) (orphans s) (num_active s) (starts s) (cidx s) (stop s) (go_idle s) (exit_stat s) (failcnt s) (tconfcnt s) v.

Section Driver.
Context `{OS} (cfg : config).

(** ** Reports *)

(** [write_kmsg]: exit when /dev/kmsg cannot be opened. *)
Definition write_kmsg (e : event) : M unit :=
  k <- tick ;;
  if os_kmsg k then emit e
  else (emit (EvMsg "Error opening /dev/kmsg") ;; exit 1).

Definition write_test_start (t : tag_pgrp) : M unit :=
  when (report_rts cfg) (emit (EvTestStart (tag_name t) (tag_cmdline t) (mystime t))) ;;
  if no_kmsg cfg then ret tt
  else if negb (streq (tag_name t) (tag_cmdline t))
  then write_kmsg (EvKmsg (tag_name t) (Some (tag_cmdline t)))
  else write_kmsg (EvKmsg (tag_name t) None).

Definition write_test_end (t : tag_pgrp) (init_status : cstr) (exit_time : Z)
    (term_type : string) (stat_loc term_id : Z) (tms1 tms2 : Z * Z) : M unit :=
  when (report_rts cfg)
    (emit (EvTestEnd (tag_name t) init_status (exit_time - mystime t) term_type term_id
             (WCOREDUMP stat_loc) (tms2.1 - tms1.1) (tms2.2 - tms1.2))).

(** [copy_buffered_output]: the text of the output file, ended by a newline.
    For an empty file the code reads the byte before the buffer. *)
Definition copy_buffered_output (t : tag_pgrp) : M unit :=
  k <- tick ;;
  match slurp (os_slurp k) with
  | None => ret tt
  | Some text =>
      match head (rev text) with
      | None => undefined
      | Some c => emit (EvStdout (text ++ (if ceqb c LF then [] else [LF])))
      end
  end.

Definition unlink (file : cstr) : M unit := emit (EvUnlink file).

(** ** Orphaned process groups *)

Fixpoint check_orphans (l : list Z) (sig : Z) : M (list Z) :=
  match l with
  | [] => ret []
  | p :: r =>
      if p =? 0 then (r' <- check_orphans r sig ;; ret (p :: r'))
      else
        errno <- kill (- p) sig ;;
        p' <- (if negb (errno =? 0) then
                 if errno =? ESRCH then
                   (rc <- zoo_op (fun e z => zoo_clear e z p) ;;
                    when (negb (rc =? 0)) (emit (EvMsg "zoo_error")) ;;
                    ret 0)
                 else (emit (EvMsg "kill on orphaned pgrp failed") ;; ret p)
               else ret p) ;;
        r' <- check_orphans r sig ;;
        ret (p' :: r')
  end.

(** The first empty node gets the group; a new node goes after the head. *)
Fixpoint fill_orphan (l : list Z) (cpid : Z) : option (list Z) :=
  match l with
  | [] => None
  | p :: r => if p =? 0 then Some (cpid :: r)
              else match fill_orphan r cpid with Some r' => Some (p :: r') | None => None end
  end.

Definition mark_orphan (l : list Z) (cpid : Z) : list Z :=
  match fill_orphan l cpid with
  | Some l' => l'
  | None => match l with h :: r => h :: cpid :: r | [] => [cpid] end
  end.

(** ** propagate_signal *)

Fixpoint signal_slots (l : list tag_pgrp) : M (list tag_pgrp) :=
  match l with
  | [] => ret []
  | t :: r =>
      if pgrp t =? 0 then (r' <- signal_slots r ;; ret (t :: r'))
      else
        w <- get ;;
        errno <- kill (- pgrp t) (send_signal w) ;;
        when (negb (errno =? 0)) (emit (EvMsg "kill failed on tag")) ;;
        r' <- signal_slots r ;;
        ret (set_stopping t true :: r')
  end.

Definition propagate_signal (s : sched) : M sched :=
  w <- get ;;
  when (rec_signal w =? SIGALRM)
    (emit (EvMsg "PAN stop Alarm was received") ;;
     modify (fun w => set_signals w SIGTERM (send_signal w) (lastsent w))) ;;
  run' <- signal_slots (running s) ;;
  w <- get ;;
  orph' <- check_orphans (orphans s) (send_signal w) ;;
  modify (fun w => set_signals w 0 0 (lastsent w)) ;;
  ret (set_orphans (set_running s run') orph').

(** ** check_pids *)

(** [w], [status], whether the child was signaled, the change of
    [*num_active] and of [ret] from a wait status. *)
Definition decode_status (stat_loc : Z) : Z * string * bool * Z * Z :=
  if WIFSIGNALED stat_loc then (WTERMSIG stat_loc, "signaled"%string, true, -1, 0)
  else if WIFEXITED stat_loc then
    let w := WEXITSTATUS stat_loc in
    (w, "exited"%string, false, -1, if negb (w =? 0) && negb (w =? TCONF) then 1 else 0)
  else if WIFSTOPPED stat_loc then (WSTOPSIG stat_loc, "stopped"%string, false, 0, 1)
  else (0, "unknown"%string, false, 0, 1).

(** The first slot of the group. *)
Fixpoint find_slot (l : list tag_pgrp) (p : Z) : option (nat * tag_pgrp) :=
  match l with
  | [] => None
  | t :: r => if pgrp t =? p then Some (O, t)
              else match find_slot r p with Some (i, t') => Some (S i, t') | None => None end
  end.

(** The log file entry of a test that ended, with the counters. *)
Definition log_result (s : sched) (t : tag_pgrp) (status : string) (w stat_loc now : Z)
    (tms1 tms2 : Z * Z) : M sched :=
  if logfile cfg then
    if negb (fmt_print cfg) then
      (emit (EvLog (tag_name t) (mystime t) (now - mystime t) status w
               (WCOREDUMP stat_loc) (tms2.1 - tms1.1) (tms2.2 - tms1.2)) ;;
       ret s)
    else if (status =? "exited")%string && (w =? TCONF) then
      (emit (EvResult (tag_name t) "CONF" w) ;; ret (set_tconfcnt s (tconfcnt s + 1)))
    else if negb (w =? 0) then
      (emit (EvResult (tag_name t) "FAIL" w) ;; ret (set_failcnt s (failcnt s + 1)))
    else (emit (EvResult (tag_name t) "PASS" w) ;; ret s)
  else ret s.

(** The body of the loop over the slots for the slot [i] of the child. *)
Definition reap_slot (s : sched) (i : nat) (t : tag_pgrp) (cpid stat_loc : Z)
    (w : Z) (status : string) (signaled : bool) (rt : Z) (tms1 tms2 : Z * Z) : M (Z * sched) :=
  let undo := (w =? 130) && stopping t && (status =? "exited")%string in
  let w := if undo then 0 else w in
  let rt := if undo then rt - 1 else rt in
  now <- time ;;
  s <- log_result s t status w stat_loc now tms1 tms2 ;;
  when (negb (w =? 0))
    (if tconfcmdfile cfg && (w =? TCONF)
     then emit (EvTconfCmd (tag_name t) (tag_cmdline t))
     else when (failcmdfile cfg) (emit (EvFailCmd (tag_name t) (tag_cmdline t)))) ;;
  let status := if stopping t then "driver_interrupt"%string else status in
  when (match test_out_dir cfg with Some _ => true | None => false end)
    (when (negb (quiet_mode cfg)) (write_test_start t) ;;
     copy_buffered_output t ;;
     unlink (output t)) ;;
  when (negb (quiet_mode cfg))
    (write_test_end t §"ok" now status stat_loc w tms1 tms2) ;;
  let rt := if signaled && negb (stopping t) then rt + 1 else rt in
  let s := set_running s (<[i := set_pgrp t 0]> (running s)) in
  rc <- zoo_op (fun e z => zoo_clear e z cpid) ;;
  (if negb (rc =? 0) then (emit (EvMsg "zoo_error") ;; exit 1) else ret tt) ;;
  errno <- kill (- cpid) 0 ;;
  if (errno =? 0) || (errno =? EPERM) then
    rc <- zoo_op (fun e z => zoo_mark_cmdline e z cpid §"panorphan" (tag_cmdline t)) ;;
    (if negb (rc =? 0) then (emit (EvMsg "zoo_error") ;; exit 1) else ret tt) ;;
    let s := set_orphans s (mark_orphan (orphans s) cpid) in
    _ <- kill (- cpid) SIGTERM ;;
    ret (rt, s)
  else ret (rt, s).

Definition check_pids (s : sched) : M (Z * sched) :=
  orph' <- check_orphans (orphans s) 0 ;;
  let s := set_orphans s orph' in
  tms1 <- times ;;
  k <- tick ;;
  w <- get ;;
  let ans := os_wait k (w_trace w) in
  tms2 <- times ;;
  match ans with
  | WaitErr errno =>
      when (negb (errno =? EINTR) && negb (errno =? ECHILD)) (emit (EvMsg "wait() failed")) ;;
      ret (0, s)
  | WaitPid cpid stat_loc =>
      if 0 <? cpid then
        emit (EvReaped cpid stat_loc) ;;
        let '(w, status, signaled, d, rt) := decode_status stat_loc in
        let s := set_num_active s (num_active s + d) in
        match find_slot (running s) cpid with
        | Some (i, t) => reap_slot s i t cpid stat_loc w status signaled rt tms1 tms2
        | None => ret (rt, s)
        end
      else ret (0, s)
  end.

(** ** run_child *)

(** How the child runs the command: through a shell when it has shell
    characters, else directly with the arguments of [splitstr]. *)
Inductive exec_plan :=
| ExecSh (cmdl : cstr)
| ExecVp (argv : list cstr).

Definition exec_cmd (c_cmdline : cstr) : exec_plan :=
  if strpbrk c_cmdline ("034"%char :: §"';|<>$\") then ExecSh c_cmdline
  else match splitstr all_alloc (Some c_cmdline) None with
       | SplitOk arr _ => ExecVp (args arr)
       | _ => ExecVp []
       end.

(** How the child of [run_child] ends its part: the test runs, or the child
    writes a message to the error pipe and exits; [errbuf] has 1024 bytes. *)
Inductive child_end :=
| ChildRuns (plan : exec_plan)
| ChildReports (errbuf : cstr) (code : Z)
| ChildOverflow.                      (* sprintf writes past errbuf *)

Definition child_report (errbuf : cstr) (code : Z) : child_end :=
  if (1024 <=? length errbuf)%nat then ChildOverflow else ChildReports errbuf code.

(** The child after [fork], with the errnos of the [dup2] to stdout, the
    [dup2] to stderr and the exec, 0 for success. *)
Definition child_main (panname : cstr) (strerror : Z -> cstr) (colle : coll_entry)
    (c_cmdline : cstr) (capturing : bool) (dup_out dup_err exec_err : Z) : child_end :=
  let failed what errno :=
    §"pan(" ++ panname ++ §"): couldn't redirect " ++ what ++ §" for tag " ++ name colle
      ++ §".  errno:" ++ fmt_d errno ++ §"  " ++ strerror errno in
  if capturing && negb (dup_out =? 0) then child_report (failed §"stdout" dup_out) 2
  else if negb (dup_err =? 0) then child_report (failed §"stderr" dup_err) 2
  else
    let plan := exec_cmd c_cmdline in
    if exec_err =? 0 then ChildRuns plan
    else match plan with
         | ExecSh cmdl =>
             child_report (§"pan(" ++ panname ++ §"): execlp of '" ++ cmdl ++ §"' (tag "
               ++ name colle ++ §") failed.  errno:" ++ fmt_d exec_err ++ §" "
               ++ strerror exec_err) (Z.land exec_err 255)
         | ExecVp argv =>
             child_report (§"pan(" ++ panname ++ §"): execvp of '"
               ++ match argv with a :: _ => a | [] => §"(null)" end ++ §"' (tag "
               ++ name colle ++ §") failed.  errno:" ++ fmt_d exec_err ++ §"  "
               ++ strerror exec_err) (Z.land exec_err 255)
         end.

(** The file for the output of the test: EEXIST answers make it try the next
    number. *)
Fixpoint open_output (dir nm : cstr) (tries : nat) (no : Z) : cstr * Z :=
  let file := dir ++ §"/" ++ nm ++ §"." ++ fmt_d no in
  match tries with
  | O => (file, no + 1)
  | S n => open_output dir nm n (no + 1)
  end.

Definition capturing : bool := match test_out_dir cfg with Some _ => true | None => false end.

(** [run_child], opening the file that will be stdout for the test: whether it
    goes on, and the slot with the file name. *)
Definition open_stdout (colle : coll_entry) (active : tag_pgrp) : M (bool * tag_pgrp) :=
  match test_out_dir cfg with
  | Some dir =>
      k <- tick ;;
      w <- get ;;
      let '(file, no) := open_output dir (name colle) (os_open_exist k) (cmdno w) in
      modify (fun w => set_cmdno w no) ;;
      if negb (os_open k =? 0)
      then (emit (EvMsg "open of stdout file failed") ;; ret (false, set_output active file))
      else ret (true, set_output active file)
  | None => ret (true, active)
  end.

(** [run_child], when the child could not go through with the exec: its end is
    logged and -1 returned. *)
Definition exec_failed (colle : coll_entry) (active : tag_pgrp) (failcnt cpid : Z)
    (errbuf : cstr) (status : Z) : M (Z * tag_pgrp * Z) :=
  let '(termid, termtype) :=
    if WIFSIGNALED status then (WTERMSIG status, "signaled"%string)
    else if WIFEXITED status then (WEXITSTATUS status, "exited"%string)
    else if WIFSTOPPED status then (WSTOPSIG status, "stopped"%string)
    else (0, "unknown"%string) in
  end_time <- time ;;
  emit (EvExecFail cpid (name colle) termid) ;;
  failcnt' <-
    (if logfile cfg then
       if negb (fmt_print cfg) then
         (emit (EvLog (name colle) (mystime active) (end_time - mystime active)
                  termtype termid (WCOREDUMP status) 0 0) ;;
          ret failcnt)
       else if negb (termid =? 0) then
         (emit (EvResult (name colle) "FAIL" termid) ;; ret (failcnt + 1))
       else (emit (EvResult (name colle) "PASS" termid) ;; ret failcnt)
     else ret failcnt) ;;
  when (negb (quiet_mode cfg))
    (write_test_end active errbuf end_time termtype status termid (0, 0) (0, 0)) ;;
  when capturing (unlink (output active)) ;;
  ret (-1, active, failcnt').

(** [run_child], when the exec succeeded: the slot gets the process group and
    the zoo an entry. *)
Definition child_started (colle : coll_entry) (active : tag_pgrp) (failcnt cpid : Z)
    (c_cmdline : cstr) : M (Z * tag_pgrp * Z) :=
  let active := set_stopping (set_pgrp active cpid) false in
  emit (EvStarted cpid (name colle) c_cmdline) ;;
  rc <- zoo_op (fun e z => zoo_mark_cmdline e z cpid (name colle) (cmdline colle)) ;;
  if negb (rc =? 0) then (emit (EvMsg "zoo_error") ;; exit 1)
  else ret (cpid, active, failcnt).

(** [run_child(colle, active, ...)] on the slot [active]: the pid or -1, the
    slot and [*failcnt] after the call. *)
Definition run_child (colle : coll_entry) (active : tag_pgrp) (failcnt : Z)
    : M (Z * tag_pgrp * Z) :=
  r <- open_stdout colle active ;;
  let '(ok, active) := r in
  if negb ok then ret (-1, active, failcnt) else
  w <- get ;;
  let '(c_cmdline, counter') := subst_pcnt_f colle os_getpid (counter w) in
  modify (fun w => set_counter w counter') ;;
  match c_cmdline with
  | None => undefined                 (* a conversion without an argument *)
  | Some c_cmdline =>
      k <- tick ;;
      if negb (os_pipe k =? 0) then
        (emit (EvMsg "pipe() failed") ;;
         when capturing (unlink (output active)) ;;
         ret (-1, active, failcnt))
      else
        now <- time ;;
        let active := set_start active now colle in
        when (negb capturing && negb (quiet_mode cfg)) (write_test_start active) ;;
        k <- tick ;;
        w <- get ;;
        match os_fork k (w_trace w) with
        | ForkErr _ =>
            emit (EvMsg "fork failed") ;;
            when capturing (unlink (output active)) ;;
            ret (-1, active, failcnt)
        | ForkPid cpid =>
            k <- tick ;;
            match os_errpipe k with
            | PipeErr => undefined    (* errlen is used uninitialised *)
            | PipeMsg errbuf status => exec_failed colle active failcnt cpid errbuf status
            | PipeEof => child_started colle active failcnt cpid c_cmdline
            end
        end
  end.

(** ** The scheduling loop of main *)

(** The first slot without a child. *)
Fixpoint find_free (l : list tag_pgrp) : option nat :=
  match l with
  | [] => None
  | t :: r => if pgrp t =? 0 then Some O
              else match find_free r with Some i => Some (S i) | None => None end
  end.

Definition ncoll : Z := Z.of_nat (length (coll cfg)).

(** One iteration of [while ((num_active < keep_active) && (starts != 0))]; the
    result says whether the loop goes on. *)
Definition start_step (s : sched) : M (sched * bool) :=
  w <- get ;;
  if negb ((num_active s <? Z.of_nat (keep_active cfg)) && negb (starts s =? 0)) then ret (s, false)
  else if negb (stop s =? 0) || negb (rec_signal w =? 0) || negb (go_idle s =? 0)
  then ret (s, false)
  else
    s <- (if sequential cfg then ret s
          else (k <- tick ;; ret (set_cidx s (Z.to_nat (Z.rem (os_lrand48 k) ncoll))))) ;;
    match find_free (running s) with
    | None =>
        emit (EvMsg "Aborting: i == keep_active") ;;
        modify (wait_handler SIGINT) ;;
        ret (set_exit_stat s (exit_stat s + 1), false)
    | Some i =>
        match coll cfg !! cidx s, running s !! i with
        | Some colle, Some active =>
            emit (EvRun (name colle)) ;;
            r <- run_child colle active (failcnt s) ;;
            let '(cpid, active, failcnt') := r in
            let s := set_failcnt (set_running s (<[i := active]> (running s))) failcnt' in
            let s := if negb (cpid =? -1) then set_num_active s (num_active s + 1) else s in
            let s := if (negb (cpid =? -1) || sequential cfg) && (0 <? starts s)
                     then set_starts s (starts s - 1) else s in
            let s := if sequential cfg
                     then set_cidx s (if ncoll <=? Z.of_nat (S (cidx s)) then O else S (cidx s))
                     else s in
            ret (s, true)
        | _, _ => undefined
        end
    end.

(** The loop; [None] when the fuel is used up. *)
Fixpoint start_loop (fuel : nat) (s : sched) : M (option sched) :=
  match fuel with
  | O => ret None
  | S f =>
      r <- start_step s ;;
      let '(s', more) := r in
      if more : bool then start_loop f s' else ret (Some s')
  end.

(** [if (starts == 0) ... else if (starts == -1) ...] *)
Definition check_stop (s : sched) : M sched :=
  if starts s =? 0 then
    (when (negb (quiet_mode cfg)) (emit (EvMsg "incrementing stop")) ;;
     ret (set_stop s (stop s + 1)))
  else if starts s =? -1 then
    k <- tick ;;
    if os_stop_file k
    then (emit (EvMsg "Got PAN_STOP_FILE Stopping!") ;; ret (set_stop s (stop s + 1)))
    else ret s
  else ret s.

(** [if (rec_signal) ...] *)
Definition handle_signal (s : sched) : M sched :=
  w <- get ;;
  let idle_or_stop s :=
    if fork_in_road s then set_go_idle s (go_idle s + 1) else set_stop s (stop s + 1) in
  if negb (rec_signal w =? 0) then
    if rec_signal w =? SIGUSR2 then
      modify (fun w => set_signals w 0 0 (lastsent w)) ;;
      ret (idle_or_stop s)
    else
      let s := if rec_signal w =? SIGUSR1 then set_fork_in_road s false else s in
      s <- propagate_signal s ;;
      ret (idle_or_stop s)
  else ret s.

(** What [main] does with the return value of [check_pids]. *)
Definition handle_err (err : Z) (s : sched) : M sched :=
  if negb (err =? 0) then
    let s := if fork_in_road s then set_go_idle s (go_idle s + 1) else s in
    let s := if track_exit_stats cfg then set_exit_stat s (exit_stat s + 1) else s in
    when (has_brakes cfg) (emit (EvMsg "All stop!") ;; modify (wait_handler SIGINT)) ;;
    ret s
  else ret s.

(** One iteration of the outer [while (1)]; the result says whether it was the
    last one. *)
Definition main_step (fuel : nat) (s : sched) : M (option (sched * bool)) :=
  r <- start_loop fuel s ;;
  match r with
  | None => ret None
  | Some s =>
      s <- check_stop s ;;
      s <- handle_signal s ;;
      r <- check_pids s ;;
      let '(err, s) := r in
      s <- handle_err err s ;;
      if negb (stop s =? 0) && (num_active s =? 0) then ret (Some (s, true))
      else if negb (go_idle s =? 0) && (num_active s =? 0) then
        modify (wait_handler 0) ;;
        ret (Some (set_go_idle s 0, false))
      else ret (Some (s, false))
  end.

(** One iteration of the loop that waits for orphaned groups: all nodes empty
    ends it. *)
Definition orphan_step (s : sched) : M (sched * bool) :=
  if forallb (fun p => p =? 0) (orphans s) then ret (s, true)
  else
    _ <- tick ;;
    w <- get ;;
    when (rec_signal w =? 0) (modify (wait_handler SIGINT)) ;;
    s <- propagate_signal s ;;
    ret (s, false).

(** The end of [main]: the exit status. *)
Definition finish (s : sched) : M Z :=
  rc <- zoo_op (fun e z => zoo_clear e z os_getpid) ;;
  let s := if negb (rc =? 0) then set_exit_stat s (exit_stat s + 1) else s in
  ret (exit_stat s).

(** ** Start-up *)

(** The default for [starts]. *)
Definition default_starts (timed : bool) (starts : Z) : Z :=
  if timed && (starts =? -1) then -1
  else if starts =? -1 then (if sequential cfg then ncoll else 1)
  else if starts =? 0 then -1
  else if starts <? Z.of_nat (keep_active cfg) then Z.of_nat (keep_active cfg) else starts.

(** The scheduler when the loop is entered. *)
Definition init_sched (timed : bool) (starts : Z) (fork_in_road : bool) : sched :=
  {| running := replicate (keep_active cfg) empty_slot; orphans := [0]; num_active := 0;
     starts := default_starts timed starts; cidx := O; stop := 0; go_idle := 0;
     exit_stat := 0; failcnt := 0; tconfcnt := 0; fork_in_road := fork_in_road |}.

(** The entries pan makes for itself: its own, then [keep_active] lines that are
    reserved by marking and clearing them. *)
Fixpoint for_slots (n : nat) (c : Z) (f : Z -> M Z) : M unit :=
  match n with
  | O => ret tt
  | S n' =>
      rc <- f c ;;
      if negb (rc =? 0) then (emit (EvMsg "zoo_error") ;; exit 1)
      else for_slots n' (c + 1) f
  end.

Definition reserve_lines (panname : cstr) (argv : list cstr) : M unit :=
  rc <- zoo_op (fun e z => zoo_mark_args e true z os_getpid panname argv) ;;
  if negb (rc =? 0) then (emit (EvMsg "zoo_error") ;; exit 1)
  else
    for_slots (keep_active cfg) 0
      (fun c => zoo_op (fun e z => zoo_mark_cmdline e z c panname [])) ;;
    for_slots (keep_active cfg) 0 (fun c => zoo_op (fun e z => zoo_clear e z c)).

(** Iterations of the outer loop, with fuel for it and for the inner one. *)
Fixpoint main_loop (fuel ifuel : nat) (s : sched) : M (option sched) :=
  match fuel with
  | O => ret None
  | S f =>
      r <- main_step ifuel s ;;
      match r with
      | None => ret None
      | Some (s', true) => ret (Some s')
      | Some (s', false) => main_loop f ifuel s'
      end
  end.

Fixpoint orphan_loop (fuel : nat) (s : sched) : M (option sched) :=
  match fuel with
  | O => ret None
  | S f =>
      r <- orphan_step s ;;
      let '(s', fin) := r in
      if fin : bool then ret (Some s') else orphan_loop f s'
  end.

End Driver.
