(* ===== verification/PanLogic.v ===== *)
(** Reasoning about pan: weakest preconditions for the monad of [PanOS], the
    summary of a trace (which children are alive, what was logged, what was
    run), and the specifications of the operations of [Pan] in those terms. *)
From Stdlib Require Import Ascii String ZArith Lia Bool.
From stdpp Require Import base list sets numbers.
From S2P Require Import Prelude CString Splitstr Zoo PanColl PanOS Pan.

Local Open Scope Z_scope.
Local Open Scope pan_scope.

(** ** Weakest preconditions *)

(** [Q] holds when the code returns; [exit] and undefined behaviour are not
    returns. *)
Definition wp {A} (m : M A) (Q : A -> world -> Prop) (w : world) : Prop :=
  match m w with
  | Ok a w' => Q a w'
  | Exited _ _ | Undef => True
  end.

Section Wp.
Context {A B : Type}.

Lemma wp_ret (a : A) Q w : Q a w -> wp (ret a) Q w.
Proof. done. Qed.

Lemma wp_bind (m : M A) (f : A -> M B) Q w :
  wp m (fun a w' => wp (f a) Q w') w -> wp (bind m f) Q w.
Proof. unfold wp, bind. destruct (m w); done. Qed.

Lemma wp_mono (m : M A) (Q Q' : A -> world -> Prop) w :
  wp m Q w -> (forall a w', Q a w' -> Q' a w') -> wp m Q' w.
Proof. unfold wp. destruct (m w); auto. Qed.

Lemma wp_exit c (Q : A -> world -> Prop) w : wp (exit c) Q w.
Proof. done. Qed.

Lemma wp_undefined (Q : A -> world -> Prop) w : wp undefined Q w.
Proof. done. Qed.

Lemma wp_Ok (m : M A) Q w a w' : wp m Q w -> m w = Ok a w' -> Q a w'.
Proof. unfold wp. intros H E. now rewrite E in H. Qed.

Lemma wp_intro (m : M A) (Q : A -> world -> Prop) w :
  (forall a w', m w = Ok a w' -> Q a w') -> wp m Q w.
Proof. unfold wp. destruct (m w); auto. Qed.
End Wp.

Lemma wp_get Q w : Q w w -> wp get Q w.
Proof. done. Qed.

Lemma wp_modify f Q w : Q tt (f w) -> wp (modify f) Q w.
Proof. done. Qed.

Lemma wp_emit e Q w : Q tt (add_event w e) -> wp (emit e) Q w.
Proof. done. Qed.

Lemma wp_when b m (Q : unit -> world -> Prop) w :
  (b = true -> wp m Q w) -> (b = false -> Q tt w) -> wp (when b m) Q w.
Proof. unfold when. destruct b; intros H1 H2; [now apply H1|apply wp_ret; now apply H2]. Qed.

(** ** The summary of a trace *)

(** Whether a wait status says that the child is gone. *)
Definition terminated (st : Z) : bool := WIFSIGNALED st || WIFEXITED st.

Definition remove_pid (p : Z) (l : list Z) : list Z := List.filter (fun q => negb (q =? p)) l.

(** The children that were started and not reaped, newest first. *)
Fixpoint live (tr : list event) : list Z :=
  match tr with
  | [] => []
  | EvStarted p _ _ :: r => p :: live r
  | EvReaped p st :: r => if terminated st then remove_pid p (live r) else live r
  | _ :: r => live r
  end.

(** Number of results of a kind in the log. *)
Fixpoint results (kind : string) (tr : list event) : Z :=
  match tr with
  | [] => 0
  | EvResult _ k _ :: r => (if (k =? kind)%string then 1 else 0) + results kind r
  | _ :: r => results kind r
  end.

(** The tags handed to [run_child], in order. *)
Fixpoint runs (tr : list event) : list cstr :=
  match tr with
  | [] => []
  | EvRun t :: r => runs r ++ [t]
  | _ :: r => runs r
  end.

(** Whether the status of a test counts as an error: it was killed by a signal,
    or its exit status is neither 0 nor TCONF. *)
Definition bad_status (st : Z) : bool :=
  WIFSIGNALED st ||
  (WIFEXITED st && negb (WEXITSTATUS st =? 0) && negb (WEXITSTATUS st =? TCONF)).

(** Number of tests that ended in an error. *)
Fixpoint errors (tr : list event) : Z :=
  match tr with
  | [] => 0
  | EvReaped _ st :: r => (if bad_status st then 1 else 0) + errors r
  | _ :: r => errors r
  end.

(** What was run and how it ended. *)
Definition past (tr : list event) : list cstr * Z := (runs tr, errors tr).

(** Two worlds that agree on the summary. *)
Record quiet (w w' : world) : Prop := {
  quiet_live : live (w_trace w') = live (w_trace w);
  quiet_results k : results k (w_trace w') = results k (w_trace w);
  quiet_past : past (w_trace w') = past (w_trace w)
}.

Lemma quiet_runs w w' : quiet w w' -> runs (w_trace w') = runs (w_trace w).
Proof. intros [_ _ H]. now injection H. Qed.

#[export] Instance quiet_preorder : PreOrder quiet.
Proof.
  split.
  - intros w. done.
  - intros w1 w2 w3 [H1 H2 H3] [H4 H5 H6]. split; intros; congruence.
Qed.

(** A neutral step: the trace is the same up to events outside the summary. *)
Lemma quiet_trace w w' : w_trace w' = w_trace w -> quiet w w'.
Proof. intros H. split; intros; now rewrite H. Qed.

(** The post-condition of an operation that adds nothing to the summary. *)
Definition silent {A} (m : M A) : Prop := forall w, wp m (fun _ w' => quiet w w') w.

Lemma silent_ret {A} (a : A) : silent (ret a).
Proof. intros w. apply wp_ret. reflexivity. Qed.

Lemma silent_bind {A B} (m : M A) (f : A -> M B) :
  silent m -> (forall a, silent (f a)) -> silent (bind m f).
Proof.
  intros H1 H2 w. apply wp_bind. eapply wp_mono; [apply H1|]. intros a w' Hq. simpl.
  eapply wp_mono; [apply H2|]. intros b w'' Hq'. simpl in *. now transitivity w'.
Qed.

Lemma silent_get : silent get.
Proof. intros w. apply wp_get. reflexivity. Qed.

Lemma silent_exit {A} c : silent (A := A) (exit c).
Proof. intros w. apply wp_exit. Qed.

Lemma silent_undefined {A} : silent (A := A) undefined.
Proof. intros w. apply wp_undefined. Qed.

Lemma silent_when b m : silent m -> silent (when b m).
Proof. intros H w. apply wp_when; intros _; [apply H|reflexivity]. Qed.

Lemma silent_modify f : (forall w, w_trace (f w) = w_trace w) -> silent (modify f).
Proof. intros H w. apply wp_modify. apply quiet_trace, H. Qed.

(** Events outside the summary. *)
Definition neutral (e : event) : bool :=
  match e with
  | EvStarted _ _ _ | EvReaped _ _ | EvResult _ _ _ | EvRun _ => false
  | _ => true
  end.

Lemma silent_emit e : neutral e = true -> silent (emit e).
Proof.
  intros H w. apply wp_emit. split; intros; destruct e; simpl in *; try discriminate; done.
Qed.

Lemma wait_handler_trace s w : w_trace (wait_handler s w) = w_trace w.
Proof. unfold wait_handler. destruct (s =? 0), (s =? SIGUSR2); done. Qed.

Lemma deliver_trace l w : w_trace (fold_left (fun w s => wait_handler s w) l w) = w_trace w.
Proof.
  revert w. induction l as [|s l IH]; intros w; simpl; [done|].
  now rewrite IH, wait_handler_trace.
Qed.

#[export] Hint Resolve silent_ret silent_get silent_exit silent_undefined : ltp.

(** Decompose an operation into its steps. *)
Ltac silent_steps :=
  repeat first
    [ progress intros
    | apply silent_bind
    | apply silent_when
    | apply silent_ret | apply silent_get | apply silent_exit | apply silent_undefined
    | solve [apply silent_emit; reflexivity]
    | solve [apply silent_modify; intros; first [reflexivity | apply wait_handler_trace]]
    | match goal with
      | |- silent (if ?b then _ else _) => destruct b
      | |- silent (match ?x with _ => _ end) => destruct x
      end
    | solve [eauto with ltp] ].

Section Silent.
Context `{OS} (cfg : config).

Lemma silent_tick : silent tick.
Proof. intros w. unfold wp, tick. apply quiet_trace. now rewrite deliver_trace. Qed.

Lemma silent_kill p s : silent (kill p s).
Proof. unfold kill. apply silent_bind; [apply silent_tick|]. silent_steps. Qed.

Lemma silent_time : silent time.
Proof. unfold time. apply silent_bind; [apply silent_tick|]. silent_steps. Qed.

Lemma silent_times : silent times.
Proof. unfold times. apply silent_bind; [apply silent_tick|]. silent_steps. Qed.

Lemma silent_zoo_op f : silent (zoo_op f).
Proof. unfold zoo_op. apply silent_bind; [apply silent_tick|]. silent_steps. Qed.

#[local] Hint Resolve silent_tick silent_kill silent_time silent_times silent_zoo_op : ltp.

Lemma silent_write_kmsg e : neutral e = true -> silent (write_kmsg e).
Proof. intros He. unfold write_kmsg. silent_steps. now apply silent_emit. Qed.

Lemma silent_write_test_start t : silent (write_test_start cfg t).
Proof. unfold write_test_start. silent_steps; now apply silent_write_kmsg. Qed.

Lemma silent_write_test_end t i e ty st id a b : silent (write_test_end cfg t i e ty st id a b).
Proof. unfold write_test_end. silent_steps. Qed.

Lemma silent_copy_buffered_output t : silent (copy_buffered_output t).
Proof. unfold copy_buffered_output. silent_steps. Qed.

Lemma silent_unlink f : silent (unlink f).
Proof. unfold unlink. silent_steps. Qed.

#[local] Hint Resolve silent_write_test_start silent_write_test_end
  silent_copy_buffered_output silent_unlink : ltp.

Lemma silent_check_orphans l sig : silent (check_orphans l sig).
Proof. induction l as [|p l IH]; cbn [check_orphans]; silent_steps. Qed.

Lemma silent_signal_slots l : silent (signal_slots l).
Proof. induction l as [|p l IH]; cbn [signal_slots]; silent_steps. Qed.

#[local] Hint Resolve silent_check_orphans silent_signal_slots : ltp.

Lemma silent_propagate_signal s : silent (propagate_signal s).
Proof. unfold propagate_signal. silent_steps. Qed.
End Silent.

#[export] Hint Resolve silent_tick silent_kill silent_time silent_times silent_zoo_op
  silent_write_test_start silent_write_test_end silent_copy_buffered_output silent_unlink
  silent_check_orphans silent_signal_slots silent_propagate_signal : ltp.

Lemma wp_silent {A} (m : M A) (Q : A -> world -> Prop) w :
  silent m -> (forall a w', quiet w w' -> Q a w') -> wp m Q w.
Proof. intros H1 H2. eapply wp_mono; [apply H1|]. exact H2. Qed.

(** ** Values returned *)

Definition busy (t : tag_pgrp) : bool := negb (pgrp t =? 0).

(** The process groups of the slots in use. *)
Definition pgrps (l : list tag_pgrp) : list Z := pgrp <$> List.filter busy l.

(** The fields of the scheduler that only [main] itself changes. *)
Definition ctl (s : sched) := (starts s, cidx s, stop s, go_idle s, exit_stat s, fork_in_road s).

Definition mark_stopping (t : tag_pgrp) : tag_pgrp :=
  if pgrp t =? 0 then t else set_stopping t true.

Lemma mark_stopping_pgrp t : pgrp (mark_stopping t) = pgrp t.
Proof. unfold mark_stopping. destruct (pgrp t =? 0); done. Qed.

(** The counters agree with the log. *)
Definition logs_ok (s : sched) (w : world) : Prop :=
  failcnt s = results "FAIL" (w_trace w) /\ tconfcnt s = results "CONF" (w_trace w).

Lemma logs_ok_quiet s s' w w' :
  quiet w w' -> failcnt s' = failcnt s -> tconfcnt s' = tconfcnt s -> logs_ok s w -> logs_ok s' w'.
Proof. intros [_ H _] E1 E2 [L1 L2]. split; rewrite H; congruence. Qed.

Lemma wp_map_ret {A B} (m : M A) (f : A -> B) Q w :
  wp m (fun a w' => Q (f a) w') w -> wp (bind m (fun a => ret (f a))) Q w.
Proof. intros H. apply wp_bind. eapply wp_mono; [exact H|]. intros a w' Ha. now apply wp_ret. Qed.

Section Values.
Context `{OS} (cfg : config).

Lemma wp_signal_slots l (Q : list tag_pgrp -> world -> Prop) w :
  (forall w', quiet w w' -> Q (mark_stopping <$> l) w') -> wp (signal_slots l) Q w.
Proof.
  revert Q w. induction l as [|t l IH]; intros Q w HQ; cbn [signal_slots fmap list_fmap].
  - apply wp_ret, HQ. reflexivity.
  - assert (Ht : mark_stopping t = if pgrp t =? 0 then t else set_stopping t true) by done.
    cbn in HQ. rewrite Ht in HQ. destruct (pgrp t =? 0).
    + apply wp_bind, IH. intros w' Hq. apply wp_ret, HQ, Hq.
    + apply wp_bind, wp_get. apply wp_bind, wp_silent; [apply silent_kill|]. intros e w1 Hq1.
      apply wp_bind, wp_silent; [silent_steps|]. intros _ w2 Hq2.
      apply wp_bind, IH. intros w3 Hq3. apply wp_ret, HQ.
      transitivity w1; [done|]. now transitivity w2.
Qed.

(** A node of the orphan list keeps its group or becomes empty. *)
Lemma wp_check_orphans l sig (Q : list Z -> world -> Prop) w :
  (forall l' w', Forall2 (fun p p' => p' = p \/ p' = 0) l l' -> quiet w w' -> Q l' w') ->
  wp (check_orphans l sig) Q w.
Proof.
  revert Q w. induction l as [|p l IH]; intros Q w HQ; cbn [check_orphans].
  - apply wp_ret, HQ; [constructor|reflexivity].
  - destruct (p =? 0).
    + apply wp_bind, IH. intros l' w' Hl Hq. apply wp_ret, HQ; [|done]. constructor; auto.
    + apply wp_bind, wp_silent; [apply silent_kill|]. intros e w1 Hq1.
      apply wp_bind. eapply wp_mono with (Q := fun p' w2 => (p' = p \/ p' = 0) /\ quiet w1 w2).
      { destruct (negb (e =? 0)); [destruct (e =? ESRCH)|].
        - apply wp_bind, wp_silent; [apply silent_zoo_op|]. intros rc w2 Hq2.
          apply wp_bind, wp_silent; [silent_steps|]. intros _ w3 Hq3.
          apply wp_ret. split; [auto|]. now transitivity w2.
        - apply wp_bind, wp_silent; [silent_steps|]. intros _ w2 Hq2. apply wp_ret. auto.
        - apply wp_ret. split; [auto|reflexivity]. }
      intros p' w2 [Hp Hq2]. apply wp_bind, IH. intros l' w3 Hl Hq3.
      apply wp_ret, HQ; [constructor; auto|].
      transitivity w1; [done|]. now transitivity w2.
Qed.

Lemma wp_propagate_signal s (Q : sched -> world -> Prop) w :
  (forall s' w',
     running s' = mark_stopping <$> running s -> length (orphans s') = length (orphans s) ->
     num_active s' = num_active s -> ctl s' = ctl s ->
     failcnt s' = failcnt s -> tconfcnt s' = tconfcnt s -> rec_signal w' = 0 -> quiet w w' ->
     Q s' w') ->
  wp (propagate_signal s) Q w.
Proof.
  intros HQ. unfold propagate_signal. apply wp_bind, wp_get.
  apply wp_bind, wp_silent; [silent_steps|]. intros _ w1 Hq1.
  apply wp_bind, wp_signal_slots. intros w2 Hq2.
  apply wp_bind, wp_get. apply wp_bind, wp_check_orphans. intros l' w3 Hl Hq3.
  apply wp_bind, wp_modify. apply wp_ret, HQ; try done.
  - cbn. symmetry. eapply Forall2_length. exact Hl.
  - transitivity w1; [done|]. transitivity w2; [done|].
    transitivity w3; [done|]. now apply quiet_trace.
Qed.

Lemma wp_log_result s t status w0 st now a b (Q : sched -> world -> Prop) w :
  (forall s' w',
     running s' = running s -> orphans s' = orphans s -> num_active s' = num_active s ->
     ctl s' = ctl s -> live (w_trace w') = live (w_trace w) ->
     past (w_trace w') = past (w_trace w) -> (logs_ok s w -> logs_ok s' w') -> Q s' w') ->
  wp (log_result cfg s t status w0 st now a b) Q w.
Proof.
  intros HQ. unfold log_result.
  destruct (logfile cfg); [|apply wp_ret; now apply HQ].
  destruct (negb (fmt_print cfg));
    [|destruct ((status =? "exited")%string && (w0 =? TCONF)); [|destruct (negb (w0 =? 0))]];
    apply wp_bind, wp_emit, wp_ret, HQ; try done;
    intros [L1 L2]; split; simpl in *; lia.
Qed.

(** The value [check_pids] returns for a child it knows. *)
Definition reap_err (t : tag_pgrp) (w0 : Z) (status : string) (signaled : bool) (rt : Z) : Z :=
  (if (w0 =? 130) && stopping t && (status =? "exited")%string then rt - 1 else rt)
  + (if signaled && negb (stopping t) then 1 else 0).

Lemma mark_orphan_nonnil l p : mark_orphan l p <> [].
Proof.
  unfold mark_orphan. destruct (fill_orphan l p) eqn:E; [|destruct l; done].
  destruct l as [|q l]; [done|]. simpl in E. destruct (q =? 0); [by intros ->|].
  destruct (fill_orphan l p); [|done]. by intros ->.
Qed.

Lemma wp_reap_slot s i t cpid st w0 status signaled rt a b
    (Q : Z * sched -> world -> Prop) w :
  (forall s' w',
     running s' = <[i := set_pgrp t 0]> (running s) -> num_active s' = num_active s ->
     ctl s' = ctl s -> (orphans s <> [] -> orphans s' <> []) ->
     live (w_trace w') = live (w_trace w) -> past (w_trace w') = past (w_trace w) ->
     (logs_ok s w -> logs_ok s' w') ->
     Q (reap_err t w0 status signaled rt, s') w') ->
  wp (reap_slot cfg s i t cpid st w0 status signaled rt a b) Q w.
Proof.
  intros HQ. unfold reap_slot.
  apply wp_bind, wp_silent; [apply silent_time|]. intros now w1 Hq1.
  apply wp_bind, wp_log_result. intros s1 w2 Hr Ho Hn Hc Hlive Hpast Hlog.
  assert (Hend : forall (s' : sched) w',
     quiet w2 w' -> running s' = <[i := set_pgrp t 0]> (running s1) ->
     num_active s' = num_active s1 -> ctl s' = ctl s1 -> failcnt s' = failcnt s1 ->
     tconfcnt s' = tconfcnt s1 -> (orphans s1 <> [] -> orphans s' <> []) ->
     Q (reap_err t w0 status signaled rt, s') w').
  { intros s' w' Hq R1 R2 R3 R4 R5 R6. apply HQ.
    - now rewrite R1, Hr.
    - congruence.
    - congruence.
    - rewrite <- Ho. exact R6.
    - rewrite (quiet_live _ _ Hq), Hlive. apply (quiet_live _ _ Hq1).
    - rewrite (quiet_past _ _ Hq), Hpast. apply (quiet_past _ _ Hq1).
    - intros L. eapply logs_ok_quiet; [exact Hq|done|done|]. apply Hlog.
      eapply logs_ok_quiet; [exact Hq1|done|done|exact L]. }
  apply wp_bind, wp_silent; [silent_steps|]. intros _ w3 Hq3.
  apply wp_bind, wp_silent; [silent_steps|]. intros _ w4 Hq4.
  apply wp_bind, wp_silent; [silent_steps|]. intros _ w5 Hq5.
  apply wp_bind, wp_silent; [apply silent_zoo_op|]. intros rc w6 Hq6.
  apply wp_bind, wp_silent; [silent_steps|]. intros _ w7 Hq7.
  apply wp_bind, wp_silent; [apply silent_kill|]. intros errno w8 Hq8.
  assert (Hq28 : quiet w2 w8).
  { transitivity w3; [done|]. transitivity w4; [done|]. transitivity w5; [done|].
    transitivity w6; [done|]. now transitivity w7. }
  destruct ((errno =? 0) || (errno =? EPERM)).
  - apply wp_bind, wp_silent; [apply silent_zoo_op|]. intros rc' w9 Hq9.
    apply wp_bind, wp_silent; [silent_steps|]. intros _ w10 Hq10.
    apply wp_bind, wp_silent; [apply silent_kill|]. intros e' w11 Hq11.
    apply wp_ret.
    match goal with |- Q (?x, ?s') _ => replace x with (reap_err t w0 status signaled rt) end.
    + apply Hend; try done.
      * transitivity w8; [done|]. transitivity w9; [done|]. now transitivity w10.
      * intros _. apply mark_orphan_nonnil.
    + unfold reap_err. destruct (signaled && negb (stopping t)); lia.
  - apply wp_ret.
    match goal with |- Q (?x, ?s') _ => replace x with (reap_err t w0 status signaled rt) end.
    + apply Hend; done.
    + unfold reap_err. destruct (signaled && negb (stopping t)); lia.
Qed.
End Values.
