(* ===== verification/PanInv.v ===== *)
(** ltp-pan: the invariant of the scheduler and the theorems about a run.

    The kernel is constrained by two documented facts: [fork] returns the pid
    of a new process, and [wait] (without WUNTRACED) returns a child of the
    caller that has terminated. *)
From Stdlib Require Import Ascii String ZArith Lia Bool.
From stdpp Require Import base list sets numbers.
From S2P Require Import Prelude CString Splitstr Zoo PanColl PanOS Pan PanLogic.

Local Open Scope Z_scope.
Local Open Scope pan_scope.

(** ** The kernel *)

Class KernelLaws `{OS} : Prop := {
  fork_fresh k tr p : os_fork k tr = ForkPid p -> 0 < p /\ (p ∉ live tr);
  wait_child k tr p st : os_wait k tr = WaitPid p st -> (p ∈ live tr) /\ terminated st = true
}.

(** ** The invariant *)

(** The slots in use are exactly the children that are alive, and
    [num_active] counts them. *)
Record inv (cfg : config) (s : sched) (w : world) : Prop := {
  inv_len : length (running s) = keep_active cfg;
  inv_num : num_active s = count busy (running s);
  inv_live : pgrps (running s) ≡ₚ live (w_trace w);
  inv_nodup : NoDup (live (w_trace w));
  inv_pos : Forall (fun p => 0 < p) (live (w_trace w));
  inv_orph : orphans s <> []
}.

(** ** Lemmas on slots *)

Lemma pgrps_length l : Z.of_nat (length (pgrps l)) = count busy l.
Proof.
  unfold pgrps. rewrite length_fmap. induction l as [|t l IH]; [done|]. cbn.
  destruct (busy t); cbn [length]; lia.
Qed.

Lemma pgrps_cons t l : pgrps (t :: l) = (if busy t then [pgrp t] else []) ++ pgrps l.
Proof. unfold pgrps. cbn. destruct (busy t); done. Qed.

Lemma find_slot_Some l p i t :
  find_slot l p = Some (i, t) -> l !! i = Some t /\ pgrp t = p.
Proof.
  revert i. induction l as [|x l IH]; intros i; cbn; [done|].
  destruct (pgrp x =? p) eqn:E; zbool.
  - intros [= <- <-]. done.
  - destruct (find_slot l p) as [[j t']|]; [|done]. intros [= <- <-]. apply IH. done.
Qed.

Lemma find_slot_elem l p : p <> 0 -> p ∈ pgrps l -> exists i t, find_slot l p = Some (i, t).
Proof.
  intros Hp. induction l as [|x l IH]; cbn [find_slot].
  - intros H. inversion H.
  - rewrite pgrps_cons. destruct (pgrp x =? p) eqn:E; zbool; [eauto|].
    intros Hin. destruct IH as (i & t & ->); [|eauto].
    apply elem_of_app in Hin as [Hin|]; [|done].
    destruct (busy x); [apply list_elem_of_singleton in Hin; congruence | inversion Hin].
Qed.

Lemma pgrps_clear l i t :
  l !! i = Some t -> pgrp t <> 0 ->
  pgrps l ≡ₚ pgrp t :: pgrps (<[i := set_pgrp t 0]> l).
Proof.
  intros Hi Ht. revert i Hi. induction l as [|x l IH]; intros [|i] Hi; cbn in Hi; try done.
  - injection Hi as ->. cbn [insert list_insert]. rewrite !pgrps_cons.
    unfold busy at 1. apply Z.eqb_neq in Ht as ->. done.
  - cbn [insert list_insert]. rewrite !pgrps_cons, (IH i Hi).
    destruct (busy x); cbn; [apply perm_swap|done].
Qed.

Lemma pgrps_fill l i t t' :
  l !! i = Some t -> pgrp t = 0 -> pgrp t' <> 0 ->
  pgrps (<[i := t']> l) ≡ₚ pgrp t' :: pgrps l.
Proof.
  intros Hi Ht Ht'. revert i Hi. induction l as [|x l IH]; intros [|i] Hi; cbn in Hi; try done.
  - injection Hi as ->. cbn [insert list_insert]. rewrite !pgrps_cons.
    unfold busy. rewrite Ht. apply Z.eqb_neq in Ht' as ->. done.
  - cbn [insert list_insert]. rewrite !pgrps_cons, (IH i Hi).
    destruct (busy x); cbn; [apply perm_swap|done].
Qed.

Lemma pgrps_same l i t t' :
  l !! i = Some t -> pgrp t' = pgrp t -> pgrps (<[i := t']> l) = pgrps l.
Proof.
  intros Hi Ht. revert i Hi. induction l as [|x l IH]; intros [|i] Hi; cbn in Hi; try done.
  - injection Hi as ->. cbn [insert list_insert]. rewrite !pgrps_cons.
    unfold busy. now rewrite Ht.
  - change (<[S i := t']> (x :: l)) with (x :: <[i := t']> l).
    now rewrite !pgrps_cons, (IH i Hi).
Qed.

Lemma pgrps_mark_stopping l : pgrps (mark_stopping <$> l) = pgrps l.
Proof.
  induction l as [|t l IH]; [done|]. cbn [fmap list_fmap]. rewrite !pgrps_cons, IH.
  unfold busy. now rewrite mark_stopping_pgrp.
Qed.

Lemma count_mark_stopping l : count busy (mark_stopping <$> l) = count busy l.
Proof. now rewrite <- !pgrps_length, pgrps_mark_stopping. Qed.

Lemma find_free_Some l i : find_free l = Some i -> exists t, l !! i = Some t /\ pgrp t = 0.
Proof.
  revert i. induction l as [|x l IH]; intros i; cbn; [done|].
  destruct (pgrp x =? 0) eqn:E; zbool; [intros [= <-]; eauto|].
  destruct (find_free l); [|done]. intros [= <-]. apply IH. done.
Qed.

Lemma find_free_None l : find_free l = None -> count busy l = Z.of_nat (length l).
Proof.
  induction l as [|x l IH]; [done|]. cbn -[Z.of_nat].
  unfold busy at 1. destruct (pgrp x =? 0); [done|].
  destruct (find_free l); [done|]. intros _. cbn -[Z.of_nat]. rewrite IH; [lia|done].
Qed.

Lemma remove_pid_perm p l : NoDup l -> p ∈ l -> l ≡ₚ p :: remove_pid p l.
Proof.
  intros Hnd. induction Hnd as [|q l Hq _ IH]; [intros H; inversion H|].
  intros Hin. cbn. destruct (q =? p) eqn:E; zbool; cbn.
  - subst q. f_equiv. clear -Hq. induction l as [|x l IH]; [done|].
    apply not_elem_of_cons in Hq as [H1 H2]. cbn.
    destruct (x =? p) eqn:E; zbool; [congruence|]. cbn. now rewrite <- IH.
  - apply elem_of_cons in Hin as [->|Hin]; [done|]. rewrite (IH Hin) at 1. apply perm_swap.
Qed.

Lemma remove_pid_sub p l q : q ∈ remove_pid p l -> q ∈ l.
Proof.
  unfold remove_pid. rewrite !list_elem_of_In. intros H%filter_In. apply H.
Qed.

Lemma remove_pid_nodup p l : NoDup l -> NoDup (remove_pid p l).
Proof.
  intros H. induction H as [|q l Hq _ IH]; [constructor|]. cbn.
  destruct (negb (q =? p)); [|done]. constructor; [|done].
  intros Hin. apply Hq. eapply remove_pid_sub. exact Hin.
Qed.

Section Run.
Context `{KernelLaws} (cfg : config).

(** ** run_child *)

(** What a call of [run_child] that started in [w] with [fc] failures may
    return in [w']: nothing was started and the slot keeps its group, or a new
    child is alive and its group is in the slot. *)
Definition child_post (active : tag_pgrp) (fc : Z) (w : world) (r : Z * tag_pgrp * Z) (w' : world)
    : Prop :=
  let '(cpid, active', fc') := r in
  past (w_trace w') = past (w_trace w) /\
  (cpid = -1 /\ pgrp active' = pgrp active /\ live (w_trace w') = live (w_trace w)
   \/ 0 < cpid /\ pgrp active' = cpid /\ stopping active' = false /\ (cpid ∉ live (w_trace w)) /\
      live (w_trace w') = cpid :: live (w_trace w)) /\
  (fc = results "FAIL" (w_trace w) -> fc' = results "FAIL" (w_trace w')) /\
  results "CONF" (w_trace w') = results "CONF" (w_trace w).

Lemma child_post_quiet active a' fc w w' :
  quiet w w' -> pgrp a' = pgrp active -> child_post active fc w (-1, a', fc) w'.
Proof.
  intros Hq Ha. split; [apply Hq|]. split; [left; split; [done|]; split; [done|apply Hq]|].
  split; [intros ->; symmetry; apply Hq|apply Hq].
Qed.

(** A silent prefix does not matter. *)
Lemma child_post_after active active1 fc w w1 r w' :
  quiet w w1 -> pgrp active1 = pgrp active ->
  child_post active1 fc w1 r w' -> child_post active fc w r w'.
Proof.
  intros Hq Ha. destruct r as [[cpid a'] fc']. unfold child_post.
  rewrite (quiet_past _ _ Hq), (quiet_live _ _ Hq), !(quiet_results _ _ Hq), Ha. done.
Qed.

Lemma wp_open_stdout colle active w :
  wp (open_stdout cfg colle active) (fun r w' => pgrp r.2 = pgrp active /\ quiet w w') w.
Proof.
  unfold open_stdout. destruct (test_out_dir cfg) as [dir|]; [|apply wp_ret; split; [done|reflexivity]].
  apply wp_bind, wp_silent; [apply silent_tick|]. intros k w1 Hq1.
  apply wp_bind, wp_get. destruct (open_output _ _ _ _) as [file no].
  apply wp_bind, wp_modify. destruct (negb (os_open k =? 0)).
  - apply wp_bind, wp_emit, wp_ret. split; [done|]. transitivity w1; [done|]. split; intros; done.
  - apply wp_ret. split; [done|]. transitivity w1; [done|]. now apply quiet_trace.
Qed.

Lemma wp_exec_failed colle active fc cpid errbuf status w :
  wp (exec_failed cfg colle active fc cpid errbuf status) (child_post active fc w) w.
Proof.
  unfold exec_failed.
  match goal with |- context [let '(_, _) := ?x in _] => destruct x as [termid termtype] end.
  apply wp_bind, wp_silent; [apply silent_time|]. intros end_time w1 Hq1.
  apply wp_bind, wp_silent; [silent_steps|]. intros _ w2 Hq2.
  apply wp_bind.
  eapply wp_mono with (Q := fun fc' w' =>
    live (w_trace w') = live (w_trace w2) /\ past (w_trace w') = past (w_trace w2) /\
    (fc = results "FAIL" (w_trace w2) -> fc' = results "FAIL" (w_trace w')) /\
    results "CONF" (w_trace w') = results "CONF" (w_trace w2)).
  { destruct (logfile cfg); [|apply wp_ret; auto].
    destruct (negb (fmt_print cfg)); [|destruct (negb (termid =? 0))];
      apply wp_bind, wp_emit, wp_ret; repeat split; cbn; try done; intros ->; lia. }
  intros fc' w3 (L1 & L2 & L3 & L4).
  apply wp_bind, wp_silent; [silent_steps|]. intros _ w4 Hq4.
  apply wp_bind, wp_silent; [silent_steps|]. intros _ w5 Hq5.
  assert (Hq35 : quiet w3 w5) by now transitivity w4.
  apply wp_ret, (child_post_after active active fc w w2); [now transitivity w1|done|].
  unfold child_post. rewrite (quiet_past _ _ Hq35), (quiet_live _ _ Hq35), !(quiet_results _ _ Hq35).
  split; [done|]. split; [left; auto|]. auto.
Qed.

Lemma wp_child_started colle active fc cpid c_cmdline w :
  0 < cpid -> cpid ∉ live (w_trace w) ->
  wp (child_started colle active fc cpid c_cmdline) (child_post active fc w) w.
Proof.
  intros Hpos Hfresh. unfold child_started. apply wp_bind, wp_emit.
  apply wp_bind, wp_silent; [apply silent_zoo_op|]. intros rc w1 Hq.
  destruct (negb (rc =? 0)); [apply wp_bind, wp_emit, wp_exit|].
  apply wp_ret. unfold child_post.
  rewrite (quiet_past _ _ Hq), (quiet_live _ _ Hq), !(quiet_results _ _ Hq). cbn.
  split; [done|]. split; [right; auto|]. auto.
Qed.

(** A started child is alive and in its slot; a child that was not started
    leaves the slot as it was. *)
Lemma wp_run_child colle active fc w :
  wp (run_child cfg colle active fc) (child_post active fc w) w.
Proof.
  unfold run_child. apply wp_bind. eapply wp_mono; [apply wp_open_stdout|].
  intros [ok active1] w1 [Ha Hq1]. cbn [snd] in Ha.
  destruct (negb ok); [apply wp_ret; now apply child_post_quiet|].
  apply wp_bind, wp_get. destruct (subst_pcnt_f colle os_getpid (counter w1)) as [c_cmdline cnt'].
  apply wp_bind, wp_modify. destruct c_cmdline as [c_cmdline|]; [|apply wp_undefined].
  apply wp_bind, wp_silent; [apply silent_tick|]. intros k w2 Hq2.
  assert (Hq02 : quiet w w2).
  { transitivity w1; [done|]. transitivity (set_counter w1 cnt'); [now apply quiet_trace|done]. }
  destruct (negb (os_pipe k =? 0)).
  { apply wp_bind, wp_silent; [silent_steps|]. intros _ w3 Hq3.
    apply wp_bind, wp_silent; [silent_steps|]. intros _ w4 Hq4.
    apply wp_ret, child_post_quiet; [|done]. transitivity w2; [done|]. now transitivity w3. }
  apply wp_bind, wp_silent; [apply silent_time|]. intros now w3 Hq3.
  apply wp_bind, wp_silent; [silent_steps|]. intros _ w4 Hq4.
  apply wp_bind, wp_silent; [apply silent_tick|]. intros k' w5 Hq5.
  assert (Hq : quiet w w5).
  { transitivity w2; [done|]. transitivity w3; [done|]. now transitivity w4. }
  apply wp_bind, wp_get. destruct (os_fork k' (w_trace w5)) as [e|cpid] eqn:Efork.
  { apply wp_bind, wp_silent; [silent_steps|]. intros _ w6 Hq6.
    apply wp_bind, wp_silent; [silent_steps|]. intros _ w7 Hq7.
    apply wp_ret, child_post_quiet; [|done]. transitivity w5; [done|]. now transitivity w6. }
  apply fork_fresh in Efork as [Hpos Hfresh].
  apply wp_bind, wp_silent; [apply silent_tick|]. intros k'' w6 Hq6.
  rewrite <- (quiet_live _ _ Hq6) in Hfresh.
  assert (Hq' : quiet w w6) by now transitivity w5.
  destruct (os_errpipe k'') as [|errbuf status|]; [| |apply wp_undefined];
    (eapply wp_mono; [now first [apply wp_child_started | apply wp_exec_failed]|]);
    intros r w7 Hr; now apply (child_post_after active _ fc w w6 r w7 Hq') in Hr.
Qed.

(** ** The loop preserves the invariant *)

Lemma inv_quiet s s' w w' :
  quiet w w' -> pgrps (running s') = pgrps (running s) -> length (running s') = length (running s) ->
  num_active s' = num_active s -> length (orphans s') = length (orphans s) ->
  inv cfg s w -> inv cfg s' w'.
Proof.
  intros Hq Hp Hl Hn Ho [I1 I2 I3 I4 I5 I6].
  split; rewrite ?(quiet_live _ _ Hq), ?Hp, ?Hl; try done.
  - now rewrite Hn, I2, <- !pgrps_length, Hp.
  - destruct (orphans s'), (orphans s); done.
Qed.

(** What is left when one of the children is reaped. *)
Lemma inv_reaped s s' w w' i t :
  inv cfg s w -> running s !! i = Some t -> pgrp t <> 0 ->
  running s' = <[i := set_pgrp t 0]> (running s) -> num_active s' = num_active s - 1 ->
  orphans s' <> [] -> live (w_trace w') = remove_pid (pgrp t) (live (w_trace w)) ->
  inv cfg s' w'.
Proof.
  intros [I1 I2 I3 I4 I5 I6] Hi Ht Hr Hn Ho Hl.
  pose proof (pgrps_clear _ _ _ Hi Ht) as Hclear.
  assert (Hin : pgrp t ∈ live (w_trace w)) by (rewrite <- I3, Hclear; constructor).
  pose proof (remove_pid_perm _ _ I4 Hin) as Hrem.
  split; rewrite ?Hr, ?Hl; try done.
  - now rewrite length_insert.
  - rewrite Hn, I2, <- !pgrps_length, Hclear. cbn [length]. lia.
  - apply (Permutation_cons_inv (a := pgrp t)). now rewrite <- Hclear, I3, <- Hrem.
  - now apply remove_pid_nodup.
  - rewrite Hrem in I5. now apply Forall_cons_1 in I5 as [_ ?].
Qed.

(** No child was told to stop. *)
Definition undisturbed (l : list tag_pgrp) : Prop :=
  Forall (fun t => busy t = true -> stopping t = false) l.

Lemma undisturbed_clear l i t : undisturbed l -> undisturbed (<[i := set_pgrp t 0]> l).
Proof. intros Hl. now apply Forall_insert. Qed.

Lemma decode_status_terminated st :
  terminated st = true ->
  exists v status sg rt, decode_status st = (v, status, sg, -1, rt) /\
    rt + (if sg : bool then 1 else 0) = if bad_status st then 1 else 0.
Proof.
  unfold terminated, decode_status, bad_status. destruct (WIFSIGNALED st); [eauto 10|].
  cbn. intros ->. do 4 eexists. split; [reflexivity|].
  cbn. now destruct (negb (WEXITSTATUS st =? 0) && negb (WEXITSTATUS st =? TCONF)).
Qed.

(** A child that was not told to stop gives an error when its status is bad. *)
Lemma reap_err_undisturbed l i t v status sg rt :
  undisturbed l -> l !! i = Some t -> pgrp t <> 0 ->
  reap_err t v status sg rt = rt + if sg : bool then 1 else 0.
Proof.
  intros Hl Hi Ht. unfold undisturbed in Hl. rewrite Forall_lookup in Hl.
  unfold reap_err. rewrite (Hl _ _ Hi) by now apply negb_true_iff, Z.eqb_neq.
  rewrite andb_false_r, andb_true_r. done.
Qed.

(** What a call of [check_pids] does: nothing was reaped, because [wait] failed,
    or one of the children is gone and its slot is free. *)
Definition pids_post (s : sched) (w : world) (r : Z * sched) (w' : world) : Prop :=
  let '(err, s') := r in
  inv cfg s' w' /\ ctl s' = ctl s /\ runs (w_trace w') = runs (w_trace w) /\
  (logs_ok s w -> logs_ok s' w') /\
  ((exists k tr e, live tr = live (w_trace w) /\ os_wait k tr = WaitErr e) /\
   num_active s' = num_active s
   \/ num_active s' = num_active s - 1) /\
  (undisturbed (running s) ->
   undisturbed (running s') /\ (err = 0 \/ err = 1) /\
   errors (w_trace w') = errors (w_trace w) + err).

Lemma wp_check_pids s w :
  inv cfg s w -> wp (check_pids cfg s) (pids_post s w) w.
Proof.
  intros I. unfold check_pids. apply wp_bind, wp_check_orphans. intros orph' w1 Ho Hq1.
  apply Forall2_length in Ho.
  apply wp_bind, wp_silent; [apply silent_times|]. intros tms1 w2 Hq2.
  apply wp_bind, wp_silent; [apply silent_tick|]. intros k w3 Hq3.
  apply wp_bind, wp_get.
  apply wp_bind, wp_silent; [apply silent_times|]. intros tms2 w4 Hq4.
  assert (Hq03 : quiet w w3) by (transitivity w1; [done|]; now transitivity w2).
  assert (Hq : quiet w w4) by now transitivity w3.
  assert (I4 : inv cfg (set_orphans s orph') w4)
    by (eapply inv_quiet; [exact Hq| | | | |exact I]; done).
  destruct (os_wait k (w_trace w3)) as [e|cpid st] eqn:Ew.
  - apply wp_bind, wp_silent; [silent_steps|]. intros _ w5 Hq5. apply wp_ret.
    assert (Hq05 : quiet w w5) by now transitivity w4.
    split; [eapply inv_quiet; [exact Hq5| | | | |exact I4]; done|].
    split; [done|]. split; [apply (quiet_runs _ _ Hq05)|].
    split; [now apply logs_ok_quiet|]. split.
    + left. split; [|done]. exists k, (w_trace w3), e. split; [apply (quiet_live _ _ Hq03)|done].
    + intros Hu. split; [done|]. split; [auto|].
      pose proof (quiet_past _ _ Hq05) as Hp. injection Hp. lia.
  - apply wait_child in Ew as [Hin Hterm]. rewrite (quiet_live _ _ Hq03) in Hin.
    assert (Hpos : 0 < cpid).
    { pose proof (inv_pos _ _ _ I) as Hp. rewrite Stdlib.Lists.List.Forall_forall in Hp.
      apply Hp. now apply list_elem_of_In. }
    rewrite (proj2 (Z.ltb_lt 0 cpid) Hpos). apply wp_bind, wp_emit.
    destruct (decode_status_terminated st Hterm) as (v & status & sg & rt & -> & Hrt).
    destruct (find_slot_elem (running s) cpid) as (i & t & Ei); [lia| |].
    { rewrite (inv_live _ _ _ I). exact Hin. }
    cbn [running set_num_active set_orphans]. rewrite Ei.
    apply find_slot_Some in Ei as [Hi Ht].
    apply wp_reap_slot. intros s' w' R1 R2 R3 R4 R5 R6 R7. unfold pids_post.
    pose proof (quiet_past _ _ Hq) as Hp. injection R6 as R6 R8. injection Hp as Hp Hp'.
    split; [|split; [|split; [|split; [|split]]]].
    + eapply (inv_reaped _ s' _ w' i t I4); try done; [lia|apply R4, I4|].
      rewrite R5. cbn. now rewrite Hterm, Ht.
    + done.
    + rewrite R6. exact Hp.
    + intros L. apply R7.
      destruct (logs_ok_quiet s s w w4 Hq eq_refl eq_refl L). now split.
    + right. now rewrite R2.
    + intros Hu. split; [rewrite R1; now apply undisturbed_clear|].
      rewrite R8, (reap_err_undisturbed (running s) i), Hrt by (done || lia).
      split; [destruct (bad_status st); auto|]. cbn. lia.
Qed.

(** One test was handed to [run_child], at the index [cidx] of the sequential
    order, and [starts] went down. *)
Definition advanced (s : sched) (w : world) (s' : sched) (w' : world) : Prop :=
  exists colle, coll cfg !! cidx s = Some colle /\
    runs (w_trace w') = runs (w_trace w) ++ [name colle] /\
    starts s' = (if 0 <? starts s then starts s - 1 else starts s) /\
    cidx s' = (if ncoll cfg <=? Z.of_nat (S (cidx s)) then O else S (cidx s)).

Definition start_post (s : sched) (w : world) (s' : sched) (more : bool) (w' : world) : Prop :=
  inv cfg s' w' /\ (logs_ok s w -> logs_ok s' w') /\
  stop s' = stop s /\ go_idle s' = go_idle s /\ exit_stat s' = exit_stat s /\
  fork_in_road s' = fork_in_road s /\ errors (w_trace w') = errors (w_trace w) /\
  (undisturbed (running s) -> undisturbed (running s')) /\
  if more then starts s <> 0 /\ num_active s <= num_active s' <= num_active s + 1 /\
               (sequential cfg = true -> advanced s w s' w')
  else s' = s /\ quiet w w' /\
    (Z.of_nat (keep_active cfg) <= num_active s \/ starts s = 0 \/
     stop s <> 0 \/ rec_signal w <> 0 \/ go_idle s <> 0).

(** A slot that was free when the inner loop looked for one. *)
Lemma inv_started s s' w w' i t t' cpid fc fc' :
  inv cfg s w -> running s !! i = Some t -> pgrp t = 0 ->
  child_post t fc w (cpid, t', fc') w' ->
  running s' = <[i := t']> (running s) -> orphans s' = orphans s ->
  num_active s' = (if negb (cpid =? -1) then num_active s + 1 else num_active s) ->
  inv cfg s' w'.
Proof.
  intros [I1 I2 I3 I4 I5 I6] Hi Ht (_ & Hc & _) Hr Ho Hn.
  destruct Hc as [(-> & Hp & Hl) | (Hpos & Hp & _ & Hfresh & Hl)].
  - split; rewrite ?Hr, ?Hl, ?Ho; try done.
    + now rewrite length_insert.
    + rewrite Hn. cbn. now rewrite I2, <- !pgrps_length, (pgrps_same _ _ _ _ Hi Hp).
    + now rewrite (pgrps_same _ _ _ _ Hi Hp).
  - assert (Hne : pgrp t' <> 0) by lia.
    pose proof (pgrps_fill _ _ _ _ Hi Ht Hne) as Hfill. rewrite Hp in Hfill.
    split; rewrite ?Hr, ?Hl, ?Ho; try done.
    + now rewrite length_insert.
    + rewrite (proj2 (Z.eqb_neq cpid (-1))) in Hn by lia. cbn in Hn.
      rewrite Hn, I2, <- !pgrps_length, Hfill. cbn [length]. lia.
    + now rewrite Hfill, I3.
    + now constructor.
    + now constructor.
Qed.

(** The bookkeeping of [main] after a call of [run_child]. *)
Lemma start_post_run s w w1 c i t t' colle cpid fc' w2 :
  inv cfg s w -> quiet w w1 -> (sequential cfg = true -> c = cidx s) ->
  running s !! i = Some t -> pgrp t = 0 -> coll cfg !! c = Some colle -> starts s <> 0 ->
  child_post t (failcnt s) (add_event w1 (EvRun (name colle))) (cpid, t', fc') w2 ->
  let s1 := set_failcnt (set_running (set_cidx s c) (<[i := t']> (running s))) fc' in
  let s2 := if negb (cpid =? -1) then set_num_active s1 (num_active s1 + 1) else s1 in
  let s3 := if (negb (cpid =? -1) || sequential cfg) && (0 <? starts s2)
            then set_starts s2 (starts s2 - 1) else s2 in
  let s4 := if sequential cfg
            then set_cidx s3 (if ncoll cfg <=? Z.of_nat (S (cidx s3)) then O else S (cidx s3))
            else s3 in
  start_post s w s4 true w2.
Proof.
  intros I Hq Hc Hi Ht Hcoll Hstarts Hpost s1 s2 s3 s4.
  assert (I1 : inv cfg s (add_event w1 (EvRun (name colle))))
    by (destruct I; split; cbn; rewrite ?(quiet_live _ _ Hq); done).
  pose proof Hpost as (Hpast & Hchild & Hfail & Hconf). injection Hpast as Hruns Herr.
  cbn in Hruns, Herr, Hfail, Hconf.
  assert (Hs4 : running s4 = <[i := t']> (running s) /\ orphans s4 = orphans s /\
    num_active s4 = (if negb (cpid =? -1) then num_active s + 1 else num_active s) /\
    failcnt s4 = fc' /\ tconfcnt s4 = tconfcnt s /\ stop s4 = stop s /\
    go_idle s4 = go_idle s /\ exit_stat s4 = exit_stat s /\ fork_in_road s4 = fork_in_road s).
  { unfold s4, s3, s2. destruct (negb (cpid =? -1)), (sequential cfg), (0 <? _); done. }
  destruct Hs4 as (E1 & E2 & E3 & E4 & E5 & E6 & E7 & E8 & E9).
  split; [now apply (inv_started s s4 (add_event w1 (EvRun (name colle))) w2 i t t' cpid (failcnt s) fc')|].
  split.
  { intros [L1 L2].
    split; [rewrite E4; apply Hfail | rewrite E5, Hconf]; now rewrite (quiet_results _ _ Hq). }
  repeat (split; [done|]).
  pose proof (quiet_past _ _ Hq) as Hp. injection Hp as _ Hp. split; [congruence|].
  split; [intros Hu; rewrite E1; apply Forall_insert; [done|]|].
  { unfold busy. destruct Hchild as [(_ & -> & _)|(_ & _ & -> & _)]; [rewrite Ht|]; done. }
  split; [done|]. split; [rewrite E3; destruct (negb _); lia|].
  intros Hseq. exists colle. rewrite <- Hc by done. split; [done|].
  split; [now rewrite Hruns, (quiet_runs _ _ Hq)|].
  unfold s4, s3, s2. rewrite Hseq, orb_true_r.
  destruct (negb (cpid =? -1)), (0 <? starts s) eqn:E0; cbn; rewrite ?E0; cbn; split; done.
Qed.

Lemma wp_start_step s w :
  inv cfg s w ->
  wp (start_step cfg s) (fun r w' => start_post s w r.1 r.2 w') w.
Proof.
  intros I. unfold start_step. apply wp_bind, wp_get.
  assert (Hstop : forall w', quiet w w' ->
    Z.of_nat (keep_active cfg) <= num_active s \/ starts s = 0 \/ stop s <> 0 \/
    rec_signal w <> 0 \/ go_idle s <> 0 -> start_post s w s false w').
  { intros w' Hq Hwhy. split; [eapply inv_quiet; [exact Hq| | | | |exact I]; done|].
    split; [now apply logs_ok_quiet|]. pose proof (quiet_past _ _ Hq) as Hp. now injection Hp. }
  destruct (_ && _) eqn:E1; cbn [negb].
  2: { apply wp_ret, Hstop; [done|]. apply andb_false_iff in E1 as [E1|E1%negb_false_iff]; zbool; lia. }
  destruct (_ || _) eqn:E2.
  { apply wp_ret, Hstop; [done|]. apply orb_true_iff in E2 as [E2|E2].
    - apply orb_true_iff in E2 as [E2|E2]; apply negb_true_iff in E2; zbool; lia.
    - apply negb_true_iff in E2; zbool; lia. }
  apply andb_true_iff in E1 as [E1 E0]. clear Hstop E2. zbool.
  apply wp_bind. eapply wp_mono with (Q := fun s1 w1 =>
    quiet w w1 /\ exists c, s1 = set_cidx s c /\ (sequential cfg = true -> c = cidx s)).
  { destruct (sequential cfg).
    - apply wp_ret. split; [done|]. exists (cidx s). split; [now destruct s|done].
    - apply wp_bind, wp_silent; [apply silent_tick|]. intros k w1 Hq. apply wp_ret.
      split; [done|]. eexists. split; [reflexivity|done]. }
  intros s1 w1 (Hq1 & c & -> & Hc). cbn [running set_cidx].
  destruct (find_free (running s)) as [i|] eqn:Ef.
  2: { apply find_free_None in Ef. rewrite (inv_len _ _ _ I), <- (inv_num _ _ _ I) in Ef. lia. }
  apply find_free_Some in Ef as (t & Hi & Ht). cbn [cidx set_cidx]. rewrite Hi.
  destruct (coll cfg !! c) as [colle|] eqn:Ecoll; [|apply wp_undefined].
  apply wp_bind, wp_emit. apply wp_bind. eapply wp_mono; [apply wp_run_child|].
  intros [[cpid t'] fc'] w2 Hpost. apply wp_ret, (start_post_run s w w1 c i t t' colle); done.
Qed.
(** ** The order of the tests *)

(** The [i]th test of a sequential run. *)
Definition tag_at (i : nat) : cstr :=
  match coll cfg !! (i mod length (coll cfg))%nat with Some c => name c | None => [] end.

(** A sequential run of [n0] tests: what was run so far is the file's order,
    taken round, and [starts] is what is left of it. *)
Record order (n0 : Z) (s : sched) (w : world) : Prop := {
  ord_left : 0 <= starts s;
  ord_count : Z.of_nat (length (runs (w_trace w))) + starts s = n0;
  ord_idx : cidx s = (length (runs (w_trace w)) mod length (coll cfg))%nat;
  ord_runs : runs (w_trace w) = tag_at <$> seq 0 (length (runs (w_trace w)))
}.

Lemma mod_succ n m :
  (0 < m)%nat -> (S n mod m)%nat = (if (m <=? S (n mod m))%nat then O else S (n mod m)).
Proof.
  intros Hm. pose proof (Nat.mod_upper_bound n m ltac:(lia)) as Hb.
  pose proof (Nat.div_mod_eq n m) as Hd. destruct (m <=? S (n mod m))%nat eqn:E.
  - apply Nat.leb_le in E. symmetry. apply (Nat.mod_unique _ _ (S (n / m))); [lia|]. nia.
  - apply Nat.leb_gt in E. symmetry. apply (Nat.mod_unique _ _ (n / m)); [lia|]. lia.
Qed.

Lemma order_advanced n0 s w s' w' :
  order n0 s w -> starts s <> 0 -> advanced s w s' w' -> order n0 s' w'.
Proof.
  intros [O1 O2 O3 O4] Hs (colle & Hc & Hr & Hst & Hi).
  rewrite (proj2 (Z.ltb_lt 0 (starts s))) in Hst by lia.
  assert (Hne : (0 < length (coll cfg))%nat) by (destruct (coll cfg); [done|cbn; lia]).
  split; rewrite ?Hr, ?length_app, ?Hst; cbn [length]; try lia.
  - rewrite Hi, Nat.add_1_r, mod_succ, <- O3 by done. unfold ncoll in *.
    destruct (_ <=? _) eqn:E1, (_ <=? _)%nat eqn:E2; zbool; try done.
    + apply Nat.leb_gt in E2. lia.
    + apply Nat.leb_le in E2. lia.
  - rewrite seq_app, fmap_app, <- O4. f_equal. cbn. unfold tag_at. rewrite <- O3.
    now rewrite Hc.
Qed.

Lemma order_quiet n0 s s' w w' :
  runs (w_trace w') = runs (w_trace w) -> starts s' = starts s -> cidx s' = cidx s ->
  order n0 s w -> order n0 s' w'.
Proof. intros H1 H2 H3 [O1 O2 O3 O4]. split; rewrite ?H1, ?H2, ?H3; done. Qed.

(** ** The outer loop *)

(** What holds whenever the outer loop is at its head. *)
Record loop_inv (n0 : Z) (s : sched) (w : world) : Prop := {
  li_inv : inv cfg s w;
  li_logs : logs_ok s w;
  li_order : sequential cfg = true -> order n0 s w
}.

Lemma loop_inv_quiet n0 s s' w w' :
  quiet w w' -> pgrps (running s') = pgrps (running s) -> length (running s') = length (running s) ->
  num_active s' = num_active s -> length (orphans s') = length (orphans s) ->
  failcnt s' = failcnt s -> tconfcnt s' = tconfcnt s -> starts s' = starts s -> cidx s' = cidx s ->
  loop_inv n0 s w -> loop_inv n0 s' w'.
Proof.
  intros Hq H1 H2 H3 H4 H5 H6 H7 H8 [L1 L2 L3]. split.
  - now apply (inv_quiet s s' w w').
  - now apply (logs_ok_quiet s s' w w').
  - intros Hs. eapply order_quiet; [exact (quiet_runs _ _ Hq)|exact H7|exact H8|now apply L3].
Qed.

Lemma loop_inv_start n0 s w s' more w' :
  loop_inv n0 s w -> start_post s w s' more w' -> loop_inv n0 s' w'.
Proof.
  intros [L1 L2 L3] (P1 & P2 & _ & _ & _ & _ & _ & _ & P7). destruct more.
  - destruct P7 as (Hs & _ & P7). split; [done|auto|].
    intros Hseq. apply (order_advanced n0 s w); auto.
  - destruct P7 as (-> & Hq & _). now apply (loop_inv_quiet n0 s s w w').
Qed.

Lemma wp_start_loop n0 fuel s w :
  loop_inv n0 s w ->
  wp (start_loop cfg fuel s) (fun r w' => forall s', r = Some s' -> loop_inv n0 s' w') w.
Proof.
  revert s w. induction fuel as [|fuel IH]; intros s w L; cbn [start_loop]; [now apply wp_ret|].
  apply wp_bind. eapply wp_mono; [apply wp_start_step, L|]. intros [s1 more] w1 Hpost.
  pose proof (loop_inv_start _ _ _ _ _ _ L Hpost) as L1. cbn [fst snd] in L1.
  destruct more; [now apply IH|]. apply wp_ret. now intros s' [= <-].
Qed.

Lemma wp_check_stop n0 s w :
  loop_inv n0 s w -> wp (check_stop cfg s) (fun s' w' => loop_inv n0 s' w') w.
Proof.
  intros L. unfold check_stop. destruct (starts s =? 0); [|destruct (starts s =? -1)].
  - apply wp_bind, wp_silent; [silent_steps|]. intros _ w1 Hq. apply wp_ret.
    now apply (loop_inv_quiet n0 s _ w).
  - apply wp_bind, wp_silent; [apply silent_tick|]. intros k w1 Hq. destruct (os_stop_file k).
    + apply wp_bind, wp_emit, wp_ret. apply (loop_inv_quiet n0 s _ w); try done.
      transitivity w1; [done|]. split; intros; done.
    + apply wp_ret. now apply (loop_inv_quiet n0 s _ w).
  - now apply wp_ret.
Qed.

Lemma wp_handle_signal n0 s w :
  loop_inv n0 s w -> wp (handle_signal s) (fun s' w' => loop_inv n0 s' w') w.
Proof.
  intros L. unfold handle_signal. apply wp_bind, wp_get.
  destruct (negb (rec_signal w =? 0)); [|now apply wp_ret].
  destruct (rec_signal w =? SIGUSR2).
  - apply wp_bind, wp_modify, wp_ret. destruct (fork_in_road s);
      (apply (loop_inv_quiet n0 s _ w); [now apply quiet_trace|done..|exact L]).
  - set (s0 := if rec_signal w =? SIGUSR1 then set_fork_in_road s false else s).
    assert (L0 : loop_inv n0 s0 w).
    { unfold s0. destruct (rec_signal w =? SIGUSR1); [|done].
      now apply (loop_inv_quiet n0 s _ w w). }
    apply wp_bind, wp_propagate_signal. intros s' w' R1 R2 R3 R4 R5 R6 _ Hq.
    injection R4 as R7 R8 R9 R10 R11 R12. apply wp_ret.
    destruct (fork_in_road s'); apply (loop_inv_quiet n0 s0 _ w); try done; cbn;
      rewrite R1; first [apply pgrps_mark_stopping | apply length_fmap].
Qed.

Lemma wp_handle_err n0 err s w :
  loop_inv n0 s w -> wp (handle_err cfg err s) (fun s' w' => loop_inv n0 s' w') w.
Proof.
  intros L. unfold handle_err. destruct (negb (err =? 0)); [|now apply wp_ret].
  apply wp_bind, wp_silent; [silent_steps|]. intros _ w1 Hq. apply wp_ret.
  destruct (fork_in_road s), (track_exit_stats cfg); now apply (loop_inv_quiet n0 s _ w).
Qed.

Lemma loop_inv_pids n0 s w r w' : loop_inv n0 s w -> pids_post s w r w' -> loop_inv n0 r.2 w'.
Proof.
  destruct r as [err s'].
  intros [L1 L2 L3] (P1 & P2 & P3 & P4 & _). injection P2 as P5 P6 _ _ _ _. split; [done|auto|].
  intros Hs. apply (order_quiet n0 s s' w w'); auto.
Qed.

Lemma wp_main_step n0 fuel s w :
  loop_inv n0 s w ->
  wp (main_step cfg fuel s)
    (fun r w' => forall s' fin, r = Some (s', fin) ->
       loop_inv n0 s' w' /\ (fin = true -> stop s' <> 0 /\ num_active s' = 0)) w.
Proof.
  intros L. unfold main_step. apply wp_bind. eapply wp_mono; [now apply (wp_start_loop n0)|].
  intros [s1|] w1 L1; [|now apply wp_ret]. specialize (L1 s1 eq_refl).
  apply wp_bind. eapply wp_mono; [now apply (wp_check_stop n0)|]. intros s2 w2 L2.
  apply wp_bind. eapply wp_mono; [now apply (wp_handle_signal n0)|]. intros s3 w3 L3.
  apply wp_bind. eapply wp_mono; [apply wp_check_pids, L3|]. intros [err s4] w4 P4.
  pose proof (loop_inv_pids _ _ _ _ _ L3 P4) as L4. cbn [snd] in L4.
  apply wp_bind. eapply wp_mono; [now apply (wp_handle_err n0)|]. intros s5 w5 L5.
  destruct (negb (stop s5 =? 0) && (num_active s5 =? 0)) eqn:E1.
  { apply wp_ret. intros s' fin [= <- <-]. zbool. done. }
  destruct (negb (go_idle s5 =? 0) && (num_active s5 =? 0)).
  - apply wp_bind, wp_modify, wp_ret. intros s' fin [= <- <-]. split; [|done].
    now apply (loop_inv_quiet n0 s5 _ w5).
  - apply wp_ret. intros s' fin [= <- <-]. done.
Qed.
End Run.
