(* ===== verification/PanRun.v ===== *)
(** ltp-pan: the theorems about a run of the scheduler.

    For every kernel that obeys [KernelLaws], whatever fails and whatever signals
    arrive: the outer loop ends only when all children are reaped, the
    counters it prints are those of the log, and a sequential run takes the
    tests in the order of the command file.  For a kernel that also delivers
    no signals ([Calm]) a sequential run ends, within the fuel given, with
    every test run. *)
From Stdlib Require Import Ascii String ZArith Lia Bool.
From stdpp Require Import base list sets numbers.
From S2P Require Import Prelude CString Splitstr Zoo PanColl PanOS Pan PanLogic PanInv.

Local Open Scope Z_scope.
Local Open Scope pan_scope.

(** ** Total correctness *)

(** The code returns in a state with [Q] and no signal pending, or it leaves
    through [exit(1)]. *)
Definition twp {A} (m : M A) (Q : A -> world -> Prop) (w : world) : Prop :=
  match m w with
  | Ok a w' => Q a w' /\ rec_signal w' = 0
  | Exited c _ => c = 1
  | Undef => False
  end.

Section Twp.
Context {A B : Type}.

Lemma twp_ret (a : A) (Q : A -> world -> Prop) w : rec_signal w = 0 -> Q a w -> twp (ret a) Q w.
Proof. done. Qed.

Lemma twp_bind (m : M A) (f : A -> M B) Q w :
  twp m (fun a w' => rec_signal w' = 0 -> twp (f a) Q w') w -> twp (bind m f) Q w.
Proof. unfold twp, bind. destruct (m w); [|done|done]. intros [H1 H2]. now apply H1. Qed.

Lemma twp_mono (m : M A) (Q Q' : A -> world -> Prop) w :
  twp m Q w -> (forall a w', Q a w' -> Q' a w') -> twp m Q' w.
Proof. unfold twp. destruct (m w); [|done|done]. intros [H1 H2] H. auto. Qed.

(** What partial correctness shows holds as well. *)
Lemma twp_wp (m : M A) (Q Q' : A -> world -> Prop) w :
  twp m Q w -> wp m Q' w -> twp m (fun a w' => Q a w' /\ Q' a w') w.
Proof. unfold twp, wp. destruct (m w); [|done|done]. tauto. Qed.

Lemma twp_Ok (m : M A) Q w : twp m Q w ->
  (exists a w', m w = Ok a w' /\ Q a w') \/ (exists w', m w = Exited 1 w').
Proof.
  unfold twp. destruct (m w) as [a w'|c w'|]; [|intros ->|done].
  - intros [H _]. left. eauto.
  - right. eauto.
Qed.
End Twp.

(** Code that cannot go wrong in a world without signals. *)
Definition steady {A} (m : M A) : Prop :=
  forall w, rec_signal w = 0 -> twp m (fun _ _ => True) w.

Lemma steady_ret {A} (a : A) : steady (ret a).
Proof. intros w Hw. now apply twp_ret. Qed.

Lemma steady_bind {A B} (m : M A) (f : A -> M B) :
  steady m -> (forall a, steady (f a)) -> steady (bind m f).
Proof.
  intros H1 H2 w Hw. apply twp_bind. eapply twp_mono; [now apply H1|]. intros a w' _ Hw'.
  now apply H2.
Qed.

Lemma steady_get : steady get.
Proof. intros w Hw. done. Qed.

Lemma steady_exit {A} : steady (A := A) (exit 1).
Proof. intros w Hw. done. Qed.

Lemma steady_emit e : steady (emit e).
Proof. intros w Hw. done. Qed.

Lemma steady_modify f : (forall w, rec_signal (f w) = rec_signal w) -> steady (modify f).
Proof. intros Hf w Hw. unfold twp, modify. now rewrite Hf. Qed.

Lemma steady_when b m : (b = true -> steady m) -> steady (when b m).
Proof. intros H. destruct b; [now apply H|apply steady_ret]. Qed.

#[export] Hint Resolve steady_ret steady_get steady_exit steady_emit : ltp.

Ltac steady_steps :=
  repeat first
    [ progress intros
    | solve [eauto with ltp]
    | apply steady_bind
    | apply steady_when
    | apply steady_ret | apply steady_get | apply steady_exit | apply steady_emit
    | solve [apply steady_modify; intros; reflexivity]
    | match goal with
      | |- steady (if ?b then _ else _) => destruct b
      | |- steady (match ?x with _ => _ end) => let E := fresh "E" in destruct x eqn:E
      end ].

(** ** Kernels that interrupt nothing *)

(** No signal arrives, so no read of the error pipe is interrupted, and [wait]
    returns a child when there is one. *)
Class Calm `{OS} : Prop := {
  no_signals k : os_signals k = [];
  errpipe_read k : os_errpipe k <> PipeErr;
  wait_reaps k tr e : os_wait k tr = WaitErr e -> live tr = []
}.

Section Steady.
Context `{Calm} (cfg : config).

Lemma steady_tick : steady tick.
Proof. intros w Hw. unfold twp, tick. rewrite no_signals. done. Qed.

#[local] Hint Resolve steady_tick : ltp.

Lemma steady_kill p s : steady (kill p s).
Proof. unfold kill. steady_steps. Qed.

Lemma steady_time : steady time.
Proof. unfold time. steady_steps. Qed.

Lemma steady_times : steady times.
Proof. unfold times. steady_steps. Qed.

Lemma steady_zoo_op f : steady (zoo_op f).
Proof. unfold zoo_op. steady_steps. Qed.

#[local] Hint Resolve steady_kill steady_time steady_times steady_zoo_op : ltp.

Lemma steady_write_kmsg e : steady (write_kmsg e).
Proof. unfold write_kmsg. steady_steps. Qed.

#[local] Hint Resolve steady_write_kmsg : ltp.

Lemma steady_write_test_start t : steady (write_test_start cfg t).
Proof. unfold write_test_start. steady_steps. Qed.

Lemma steady_write_test_end t i e ty st id a b : steady (write_test_end cfg t i e ty st id a b).
Proof. unfold write_test_end. steady_steps. Qed.

#[local] Hint Resolve steady_write_test_start steady_write_test_end : ltp.

Lemma steady_check_orphans l sig : steady (check_orphans l sig).
Proof. induction l as [|p l IH]; cbn [check_orphans]; steady_steps. Qed.

Lemma steady_log_result s t status v st now a b : steady (log_result cfg s t status v st now a b).
Proof. unfold log_result. steady_steps. Qed.

#[local] Hint Resolve steady_check_orphans steady_log_result : ltp.

(** Without a directory for the output of the tests. *)
Hypothesis no_out_dir : test_out_dir cfg = None.

Lemma steady_reap_slot s i t cpid st v status sg rt a b :
  steady (reap_slot cfg s i t cpid st v status sg rt a b).
Proof. unfold reap_slot. rewrite no_out_dir. steady_steps. Qed.

#[local] Hint Resolve steady_reap_slot : ltp.

Lemma steady_check_pids s : steady (check_pids cfg s).
Proof. unfold check_pids. steady_steps. Qed.

Lemma steady_run_child colle active fc :
  (forall n, (subst_pcnt_f colle os_getpid n).1 <> None) -> steady (run_child cfg colle active fc).
Proof.
  intros Hfmt. unfold run_child, open_stdout, capturing, exec_failed, child_started.
  rewrite no_out_dir. apply steady_bind; [apply steady_ret|]. intros [ok act].
  destruct (negb ok); [apply steady_ret|]. apply steady_bind; [apply steady_get|]. intros w.
  specialize (Hfmt (counter w)). destruct (subst_pcnt_f _ _ _) as [[c|] n]; [|done].
  steady_steps. exfalso. eapply errpipe_read. eassumption.
Qed.
End Steady.

(** ** A sequential run ends *)

(** The configurations of the theorem: tests one after the other from the
    command file, each command line a format [subst_pcnt_f] has arguments for,
    no output directory, no brakes. *)
Record seq_config `{OS} (cfg : config) : Prop := {
  sc_seq : sequential cfg = true;
  sc_keep : (0 < keep_active cfg)%nat;
  sc_out : test_out_dir cfg = None;
  sc_brakes : has_brakes cfg = false;
  sc_coll : coll cfg <> [];
  sc_fmt : Forall (fun c => forall n, (subst_pcnt_f c os_getpid n).1 <> None) (coll cfg)
}.

(** The scheduler when no signal ever arrived. *)
Definition unsignalled (s : sched) : Prop :=
  go_idle s = 0 /\ fork_in_road s = false /\ 0 <= stop s /\ (stop s <> 0 -> starts s = 0) /\
  undisturbed (running s).

(** The exit status so far: the number of tests that ended in an error, when
    [-e] asked for it. *)
Definition exit_ok (cfg : config) (s : sched) (w : world) : Prop :=
  exit_stat s = if track_exit_stats cfg then errors (w_trace w) else 0.

Section Terminates.
Context `{KernelLaws} {CALM : Calm} (cfg : config) (SC : seq_config cfg).

Lemma num_active_live s w : inv cfg s w -> num_active s = Z.of_nat (length (live (w_trace w))).
Proof. intros I. now rewrite (inv_num _ _ _ I), <- pgrps_length, (inv_live _ _ _ I). Qed.

Lemma twp_start_step n0 s w :
  loop_inv cfg n0 s w -> rec_signal w = 0 -> twp (start_step cfg s) (fun _ _ => True) w.
Proof.
  intros [I _ O] Hw. specialize (O (sc_seq _ SC)). unfold start_step.
  apply twp_bind. split; [|done]. intros _.
  destruct (negb (_ && _)) eqn:E1; [now apply twp_ret|].
  destruct (_ || _); [now apply twp_ret|].
  apply negb_false_iff, andb_true_iff in E1 as [E1 _]. zbool.
  rewrite (sc_seq _ SC). apply twp_bind, twp_ret; [done|]. intros _.
  destruct (find_free (running s)) as [i|] eqn:Ef.
  2: { apply find_free_None in Ef. rewrite (inv_len _ _ _ I), <- (inv_num _ _ _ I) in Ef. lia. }
  apply find_free_Some in Ef as (t & -> & _).
  assert (Hlen : (0 < length (coll cfg))%nat)
    by (pose proof (sc_coll _ SC); destruct (coll cfg); [done|cbn; lia]).
  destruct (lookup_lt_is_Some_2 (coll cfg) (cidx s)) as [colle Hc].
  { rewrite (ord_idx _ _ _ _ O). apply Nat.mod_upper_bound. lia. }
  rewrite Hc.
  assert (Hfmt : forall n, (subst_pcnt_f colle os_getpid n).1 <> None).
  { pose proof (sc_fmt _ SC) as HF. rewrite Stdlib.Lists.List.Forall_forall in HF. apply HF.
    apply list_elem_of_In. exact (list_elem_of_lookup_2 _ _ _ Hc). }
  apply steady_bind; [apply steady_emit| |done]. intros _.
  apply steady_bind; [apply steady_run_child; [apply SC|exact Hfmt]|]. intros [[cpid a] fc].
  apply steady_ret.
Qed.

(** The inner loop ends when all slots are in use or all tests are started. *)
Lemma twp_start_loop n0 fuel s w :
  loop_inv cfg n0 s w -> rec_signal w = 0 -> unsignalled s -> starts s < Z.of_nat fuel ->
  twp (start_loop cfg fuel s)
    (fun r w' => exists s', r = Some s' /\ loop_inv cfg n0 s' w' /\ unsignalled s' /\
       (exit_ok cfg s w -> exit_ok cfg s' w') /\
       starts s' <= starts s /\ starts s' + num_active s' <= starts s + num_active s /\
       (starts s' = 0 \/ 0 < num_active s')) w.
Proof.
  revert s w. induction fuel as [|fuel IH]; intros s w L Hw Hu Hf.
  { pose proof (ord_left _ _ _ _ (li_order _ _ _ _ L (sc_seq _ SC))). lia. }
  cbn [start_loop]. apply twp_bind. eapply twp_mono.
  { apply twp_wp; [now apply (twp_start_step n0)|apply wp_start_step, L]. }
  intros [s1 more] w1 [_ Hpost] Hw1. cbn [fst snd] in Hpost.
  pose proof (loop_inv_start _ _ _ _ _ _ _ L Hpost) as L1.
  destruct Hpost as (_ & _ & P3 & P4 & P5 & P6 & Pe & Pu & P7).
  assert (Hx : exit_ok cfg s w -> exit_ok cfg s1 w1) by (unfold exit_ok; now rewrite P5, Pe).
  destruct more.
  - destruct P7 as (P7 & P8 & P9). destruct (P9 (sc_seq _ SC)) as (_ & _ & _ & P10 & _).
    pose proof (ord_left _ _ _ _ (li_order _ _ _ _ L (sc_seq _ SC))) as Hleft.
    rewrite (proj2 (Z.ltb_lt 0 (starts s))) in P10 by lia.
    assert (Hu1 : unsignalled s1).
    { destruct Hu as (U1 & U2 & U3 & U4 & U5). unfold unsignalled. rewrite P3, P4, P6, P10.
      repeat (split; [done|]). split; [intros Hs; specialize (U4 Hs); lia|auto]. }
    eapply twp_mono; [apply IH; [done|done|done|lia]|].
    intros r w2 (s' & -> & H1 & H2 & H3 & H4 & H5 & H6). exists s'. split; [done|]. split; [done|].
    split; [done|]. split; [auto|]. split; [lia|]. split; [lia|done].
  - destruct P7 as (-> & Hq & Hwhy). apply twp_ret; [done|]. exists s. split; [done|].
    split; [done|]. split; [done|]. split; [done|]. split; [lia|]. split; [lia|].
    destruct Hu as (U1 & U2 & U3 & U4 & U5). pose proof (sc_keep _ SC).
    destruct Hwhy as [?|[?|[?|[?|?]]]]; [lia|lia|left; auto|lia|lia].
Qed.

Lemma twp_check_stop n0 s w :
  loop_inv cfg n0 s w -> rec_signal w = 0 -> unsignalled s ->
  twp (check_stop cfg s)
    (fun s' w' => loop_inv cfg n0 s' w' /\ unsignalled s' /\ starts s' = starts s /\
       num_active s' = num_active s /\ (starts s = 0 -> stop s' <> 0) /\
       (exit_ok cfg s w -> exit_ok cfg s' w')) w.
Proof.
  intros L Hw Hu. pose proof (ord_left _ _ _ _ (li_order _ _ _ _ L (sc_seq _ SC))) as Hleft.
  eapply twp_mono; [apply twp_wp; [|apply (wp_check_stop cfg n0), L]|].
  - instantiate (1 := fun s' w' => errors (w_trace w') = errors (w_trace w) /\
      s' = if starts s =? 0 then set_stop s (stop s + 1) else s).
    unfold check_stop. destruct (starts s =? 0).
    + apply twp_bind. unfold when. destruct (negb _); (split; [|done]); intros _; now apply twp_ret.
    + destruct (starts s =? -1) eqn:E; zbool; [lia|]. now apply twp_ret.
  - intros s' w' [[He ->] L']. split; [done|]. destruct Hu as (U1 & U2 & U3 & U4 & U5).
    unfold exit_ok. rewrite He.
    destruct (starts s =? 0) eqn:E; zbool; repeat split; cbn; try done; lia.
Qed.

Lemma twp_check_pids n0 s w :
  loop_inv cfg n0 s w -> rec_signal w = 0 -> unsignalled s ->
  twp (check_pids cfg s)
    (fun r w' => loop_inv cfg n0 r.2 w' /\ unsignalled r.2 /\ ctl r.2 = ctl s /\
       num_active r.2 = Z.max 0 (num_active s - 1) /\ (r.1 = 0 \/ r.1 = 1) /\
       errors (w_trace w') = errors (w_trace w) + r.1) w.
Proof.
  intros L Hw Hu. eapply twp_mono.
  { apply twp_wp; [apply steady_check_pids; [apply SC|done]|apply wp_check_pids, L]. }
  intros [err s'] w' [_ P]. cbn [fst snd].
  split; [now apply (loop_inv_pids cfg n0 s w (err, s'))|].
  destruct Hu as (U1 & U2 & U3 & U4 & U5).
  destruct P as (I & P2 & _ & _ & P5 & P6). destruct (P6 U5) as [Pu Pe].
  pose proof P2 as Q2. injection Q2 as Q2a _ Q2b Q2c _ Q2d.
  split; [unfold unsignalled; now rewrite Q2a, Q2b, Q2c, Q2d|]. split; [done|]. split; [|done].
  pose proof (num_active_live _ _ (li_inv _ _ _ _ L)) as Hn.
  pose proof (num_active_live _ _ I) as Hn'.
  destruct P5 as [[(k & tr & e & Htr & Hwait) P5] | P5]; [|lia].
  apply wait_reaps in Hwait. rewrite <- Htr, Hwait in Hn. cbn in Hn. lia.
Qed.

Lemma twp_handle_err n0 err s w :
  loop_inv cfg n0 s w -> rec_signal w = 0 -> unsignalled s ->
  twp (handle_err cfg err s)
    (fun s' w' => loop_inv cfg n0 s' w' /\ unsignalled s' /\ starts s' = starts s /\
       num_active s' = num_active s /\ stop s' = stop s /\
       errors (w_trace w') = errors (w_trace w) /\
       exit_stat s' = exit_stat s + if negb (err =? 0) && track_exit_stats cfg then 1 else 0) w.
Proof.
  intros L Hw Hu. eapply twp_mono; [apply twp_wp; [|apply (wp_handle_err cfg n0), L]|].
  - instantiate (1 := fun s' w' => errors (w_trace w') = errors (w_trace w) /\
      s' = set_exit_stat s (exit_stat s +
             if negb (err =? 0) && track_exit_stats cfg then 1 else 0)).
    unfold handle_err. destruct Hu as (_ & -> & _). rewrite (sc_brakes _ SC).
    destruct (negb (err =? 0)).
    + apply twp_bind. split; [|done]. intros _. apply twp_ret; [done|]. split; [done|].
      destruct (track_exit_stats cfg); [done|]. destruct s; cbn. now rewrite Z.add_0_r.
    + apply twp_ret; [done|]. split; [done|]. destruct s; cbn. now rewrite Z.add_0_r.
  - intros s' w' [[He ->] L']. done.
Qed.

(** One iteration of the outer loop is the last one or makes progress. *)
Lemma twp_main_step n0 fuel s w :
  loop_inv cfg n0 s w -> rec_signal w = 0 -> unsignalled s -> starts s < Z.of_nat fuel ->
  twp (main_step cfg fuel s)
    (fun r w' => exists s' fin, r = Some (s', fin) /\ loop_inv cfg n0 s' w' /\ unsignalled s' /\
       (exit_ok cfg s w -> exit_ok cfg s' w') /\
       if fin then starts s' = 0 /\ num_active s' = 0
       else starts s' <= starts s /\ starts s' + num_active s' < starts s + num_active s) w.
Proof.
  intros L Hw Hu Hf. unfold main_step. apply twp_bind.
  eapply twp_mono; [now apply (twp_start_loop n0)|].
  intros r w1 (s1 & -> & L1 & U1 & X1 & Hs1 & Hsum & Hwhy) Hw1.
  apply twp_bind. eapply twp_mono; [now apply (twp_check_stop n0)|].
  intros s2 w2 (L2 & U2 & H2a & H2b & H2c & X2) Hw2.
  apply twp_bind. unfold handle_signal. apply twp_bind. split; [|done]. intros _.
  rewrite Hw2. cbn [Z.eqb negb]. apply twp_ret; [done|]. intros _.
  apply twp_bind. eapply twp_mono; [now apply (twp_check_pids n0)|].
  intros [err s3] w3 (L3 & U3 & H3 & Hn & Herr & Hbad) Hw3. cbn [fst snd] in *.
  injection H3 as H3a _ H3b H3c H3d _.
  apply twp_bind. eapply twp_mono; [now apply (twp_handle_err n0)|].
  intros s4 w4 (L4 & U4 & H4a & H4b & H4c & H4d & H4e) Hw4.
  pose proof (num_active_live _ _ (li_inv _ _ _ _ L2)) as Hn2.
  assert (X4 : exit_ok cfg s w -> exit_ok cfg s4 w4).
  { intros X. specialize (X2 (X1 X)). unfold exit_ok in *. rewrite H4e, H4d, H3d, X2, Hbad.
    destruct (track_exit_stats cfg), Herr as [-> | ->]; cbn; lia. }
  destruct (negb (stop s4 =? 0) && (num_active s4 =? 0)) eqn:E1.
  { apply twp_ret; [done|]. exists s4, true. repeat (split; [done|]). zbool. split; [|done].
    now apply U4. }
  pose proof U4 as (U4a & _). rewrite U4a. cbn [Z.eqb negb andb].
  apply twp_ret; [done|]. exists s4, false. repeat (split; [done|]).
  split; [lia|]. destruct Hwhy as [Hz|Hz]; [|lia].
  apply andb_false_iff in E1 as [E1|E1]; zbool; [|lia]. exfalso. apply H2c; lia.
Qed.

Lemma twp_main_loop n0 fuel ifuel s w :
  loop_inv cfg n0 s w -> rec_signal w = 0 -> unsignalled s -> exit_ok cfg s w ->
  starts s < Z.of_nat ifuel -> starts s + num_active s < Z.of_nat fuel ->
  twp (main_loop cfg fuel ifuel s)
    (fun r w' => exists s', r = Some s' /\ loop_inv cfg n0 s' w' /\
       starts s' = 0 /\ num_active s' = 0 /\ exit_ok cfg s' w') w.
Proof.
  revert s w. induction fuel as [|fuel IH]; intros s w L Hw Hu Hx Hi Hf.
  { pose proof (ord_left _ _ _ _ (li_order _ _ _ _ L (sc_seq _ SC))).
    pose proof (num_active_live _ _ (li_inv _ _ _ _ L)). lia. }
  cbn [main_loop]. apply twp_bind. eapply twp_mono; [now apply (twp_main_step n0)|].
  intros r w1 (s1 & fin & -> & L1 & U1 & X1 & H1) Hw1. destruct fin.
  - apply twp_ret; [done|]. exists s1. destruct H1. auto 10.
  - apply IH; auto; lia.
Qed.
End Terminates.

(** ** The initial state *)

(** A world in which nothing was started or logged yet. *)
Definition fresh (w : world) : Prop :=
  live (w_trace w) = [] /\ runs (w_trace w) = [] /\ (forall k, results k (w_trace w) = 0).

Lemma pgrps_replicate_empty n : pgrps (replicate n empty_slot) = [].
Proof. induction n as [|n IH]; [done|]. cbn [replicate]. now rewrite pgrps_cons, IH. Qed.

Lemma init_loop_inv cfg timed n fir w :
  fresh w -> (sequential cfg = true -> 0 <= default_starts cfg timed n) ->
  loop_inv cfg (default_starts cfg timed n) (init_sched cfg timed n fir) w.
Proof.
  intros (F1 & F2 & F3) Hs. split.
  - split; cbn -[pgrps]; rewrite ?F1, ?pgrps_replicate_empty; try done; try constructor.
    + apply length_replicate.
    + now rewrite <- pgrps_length, pgrps_replicate_empty.
  - split; cbn; now rewrite F3.
  - intros Hseq. split; cbn; rewrite ?F2; try done; [auto|].
    symmetry. now rewrite Nat.Div0.mod_0_l.
Qed.

(** ** A kernel for examples *)

(** Children exit at once with the status [st k]; the oldest is waited for
    first; the pid after the largest in use is given out. *)
#[local] Instance simple_os (st : nat -> Z) : OS := {|
  os_signals _ := [];
  os_kill _ _ _ := ESRCH;
  os_wait k tr := match rev (live tr) with p :: _ => WaitPid p (st k) | [] => WaitErr ECHILD end;
  os_fork _ tr := ForkPid (1 + fold_right Z.max 0 (live tr));
  os_pipe _ := 0;
  os_errpipe _ := PipeEof;
  os_open_exist _ := O;
  os_open _ := 0;
  os_kmsg _ := true;
  os_time k := Z.of_nat k;
  os_times _ := (0, 0);
  os_lrand48 k := Z.of_nat k;
  os_slurp _ := {| fa_open := false; fa_fstat := false; fa_size := 0; fa_read := None |};
  os_zoo _ := zenv_ok;
  os_stop_file _ := false;
  os_getpid := 100
|}.

Lemma max_upper l p : p ∈ l -> p <= fold_right Z.max 0 l.
Proof.
  induction l as [|q l IH]; intros Hin; [inversion Hin|]. cbn.
  apply elem_of_cons in Hin as [->|Hin]; [lia|]. specialize (IH Hin). lia.
Qed.

Lemma max_nonneg l : 0 <= fold_right Z.max 0 l.
Proof. induction l as [|q l IH]; cbn; lia. Qed.

Lemma simple_os_laws st : (forall k, terminated (st k) = true) -> KernelLaws (H := simple_os st).
Proof.
  intros Hst. split.
  - intros k tr p. cbn. intros [= <-]. split; [pose proof (max_nonneg (live tr)); lia|].
    intros Hin. apply max_upper in Hin. lia.
  - intros k tr p st'. cbn. destruct (rev (live tr)) as [|q r] eqn:E; [done|].
    intros [= <- <-]. split; [|apply Hst]. apply list_elem_of_In, in_rev. rewrite E. now left.
Qed.

Lemma simple_os_calm st : Calm (H := simple_os st).
Proof.
  split; [done|done|]. intros k tr e. cbn.
  destruct (rev (live tr)) as [|q r] eqn:E; [|done]. intros _.
  rewrite <- (rev_involutive (live tr)), E. done.
Qed.

Definition sample_config : config := {|
  keep_active := 2; sequential := true; has_brakes := false; track_exit_stats := true;
  fmt_print := true; quiet_mode := false; no_kmsg := false; logfile := true;
  failcmdfile := true; tconfcmdfile := false; test_out_dir := None; report_rts := true;
  coll := [mkColl §"abort01" §"abort01 -x" false; mkColl §"fs" §"fsx %s" true;
           mkColl §"sh" §"echo hi; exit 3" false]
|}.

Definition world0 : world := mkWorld O (Some zoo_empty) 0 0 0 0 1 [].

Lemma world0_fresh : fresh world0.
Proof. done. Qed.

Lemma sample_seq st : seq_config (H := simple_os st) sample_config.
Proof. split; try done; [cbn; lia|]. repeat constructor; done. Qed.

(** ** The run theorems *)

(** The states at the head of the outer loop, from the start of a run. *)
Inductive reachable `{OS} (cfg : config) (timed : bool) (n : Z) (w0 : world)
    : sched -> world -> Prop :=
| reach_init fir : reachable cfg timed n w0 (init_sched cfg timed n fir) w0
| reach_step fuel s w s' w' fin :
    reachable cfg timed n w0 s w ->
    main_step cfg fuel s w = Ok (Some (s', fin)) w' ->
    reachable cfg timed n w0 s' w'.

Lemma reachable_loop_inv `{KernelLaws} cfg timed n w0 s w :
  fresh w0 -> (sequential cfg = true -> 0 <= default_starts cfg timed n) ->
  reachable cfg timed n w0 s w -> loop_inv cfg (default_starts cfg timed n) s w.
Proof.
  intros Hf Hs. induction 1 as [fir|fuel s w s' w' fin _ IH Hstep].
  - now apply init_loop_inv.
  - exact (proj1 (wp_Ok _ _ _ _ _ (wp_main_step cfg _ fuel s w IH) Hstep s' fin eq_refl)).
Qed.

(** C7: Whatever signals arrive and whatever system calls fail, at the
    head of the outer loop the slots in use hold exactly the children that were
    started and not yet reaped, each once; [num_active] counts them, never
    exceeds [keep_active]; and the failure and TCONF counters are the numbers of FAIL and
    CONF lines in the log. *)
Theorem reachable_slots `{KernelLaws} cfg timed n w0 s w :
  fresh w0 -> (sequential cfg = true -> 0 <= default_starts cfg timed n) ->
  reachable cfg timed n w0 s w ->
  pgrps (running s) ≡ₚ live (w_trace w) /\ NoDup (pgrps (running s)) /\
  num_active s = Z.of_nat (length (live (w_trace w))) /\
  num_active s <= Z.of_nat (keep_active cfg) /\
  failcnt s = results "FAIL" (w_trace w) /\ tconfcnt s = results "CONF" (w_trace w).
Proof.
  intros Hf Hs Hr. destruct (reachable_loop_inv _ _ _ _ _ _ Hf Hs Hr) as [I [L1 L2] _].
  split; [apply I|]. split; [rewrite (inv_live _ _ _ I); apply I|].
  split; [now apply (num_active_live cfg)|]. split; [|done].
  rewrite (inv_num _ _ _ I), <- (inv_len _ _ _ I). apply count_bounds.
Qed.

Lemma reachable_slots_witness :
  exists s w,
    reachable (H := simple_os (fun _ => 256)) sample_config false (-1) world0 s w /\
    num_active s = 1 /\ failcnt s = 1 /\
    pgrps (running s) ≡ₚ live (w_trace w) /\ num_active s <= Z.of_nat (keep_active sample_config).
Proof.
  eassert (Hreach : reachable (H := simple_os (fun _ => 256)) sample_config false (-1) world0 _ _).
  { eapply (reach_step (H := simple_os (fun _ => 256)) _ _ _ _ 5);
      [apply (reach_init (H := simple_os (fun _ => 256)) _ _ _ _ false)|].
    vm_compute. reflexivity. }
  eexists _, _. split; [exact Hreach|].
  assert (KL : KernelLaws (H := simple_os (fun _ => 256))) by now apply simple_os_laws.
  destruct (reachable_slots (H0 := KL) sample_config false (-1) world0 _ _ world0_fresh
    ltac:(done) Hreach) as (P1 & _ & _ & P4 & _).
  split; [reflexivity|]. split; [reflexivity|]. split; [exact P1|exact P4].
Defined.

(** ** The end of the run *)

Lemma wp_main_loop `{KernelLaws} cfg n0 fuel ifuel s w :
  loop_inv cfg n0 s w ->
  wp (main_loop cfg fuel ifuel s)
    (fun r w' => forall s', r = Some s' ->
       loop_inv cfg n0 s' w' /\ stop s' <> 0 /\ num_active s' = 0) w.
Proof.
  revert s w. induction fuel as [|fuel IH]; intros s w L; cbn [main_loop]; [now apply wp_ret|].
  apply wp_bind. eapply wp_mono; [apply (wp_main_step cfg n0), L|]. intros [[s1 fin]|] w1 H1.
  - destruct (H1 s1 fin eq_refl) as [L1 Hfin]. destruct fin; [|now apply IH].
    apply wp_ret. intros s' [= <-]. destruct (Hfin eq_refl). auto.
  - now apply wp_ret.
Qed.

(** C16: When the outer loop ends no child is left: every child that was
    started was reaped and every slot is free, also when signals stopped the
    run half way; and in a sequential run what was run is the
    beginning of the command file, taken round. *)
Theorem main_loop_reaps_all `{KernelLaws} cfg timed n fir fuel ifuel w s' w' :
  fresh w -> (sequential cfg = true -> 0 <= default_starts cfg timed n) ->
  main_loop cfg fuel ifuel (init_sched cfg timed n fir) w = Ok (Some s') w' ->
  live (w_trace w') = [] /\ pgrps (running s') = [] /\ stop s' <> 0 /\
  (sequential cfg = true ->
   runs (w_trace w') = tag_at cfg <$> seq 0 (length (runs (w_trace w'))) /\
   Z.of_nat (length (runs (w_trace w'))) <= default_starts cfg timed n).
Proof.
  intros Hf Hs Hrun.
  pose proof (init_loop_inv cfg timed n fir w Hf Hs) as L.
  destruct (wp_Ok _ _ _ _ _ (wp_main_loop cfg _ fuel ifuel _ w L) Hrun s' eq_refl)
    as (L' & Hstop & Hn).
  pose proof (li_inv _ _ _ _ L') as I. rewrite (num_active_live cfg s' w' I) in Hn.
  assert (Hlive : live (w_trace w') = []) by (apply nil_length_inv; lia).
  split; [done|]. split; [apply Permutation_nil_r; rewrite (inv_live _ _ _ I), Hlive; done|].
  split; [done|]. intros Hseq. destruct (li_order _ _ _ _ L' Hseq) as [O1 O2 _ O4].
  split; [done|]. lia.
Qed.

(** A run that a SIGINT stops after the first tests: the signal comes with the
    system call [k0]. *)
#[local] Instance int_os (k0 : nat) : OS := {|
  os_signals k := if (k =? k0)%nat then [SIGINT] else [];
  os_kill := @os_kill (simple_os (fun _ => 2));
  os_wait := @os_wait (simple_os (fun _ => 2));
  os_fork := @os_fork (simple_os (fun _ => 2));
  os_pipe := @os_pipe (simple_os (fun _ => 2));
  os_errpipe := @os_errpipe (simple_os (fun _ => 2));
  os_open_exist := @os_open_exist (simple_os (fun _ => 2));
  os_open := @os_open (simple_os (fun _ => 2));
  os_kmsg := @os_kmsg (simple_os (fun _ => 2));
  os_time := @os_time (simple_os (fun _ => 2));
  os_times := @os_times (simple_os (fun _ => 2));
  os_lrand48 := @os_lrand48 (simple_os (fun _ => 2));
  os_slurp := @os_slurp (simple_os (fun _ => 2));
  os_zoo := @os_zoo (simple_os (fun _ => 2));
  os_stop_file := @os_stop_file (simple_os (fun _ => 2));
  os_getpid := 100
|}.

Lemma int_os_laws k0 : KernelLaws (H := int_os k0).
Proof. destruct (simple_os_laws (fun _ => 2)) as [H1 H2]; [done|]. now split. Qed.

Lemma main_loop_reaps_all_witness :
  exists s' w',
    main_loop (H := int_os 13) sample_config 9 9
      (init_sched sample_config false (-1) false) world0 = Ok (Some s') w' /\
    runs (w_trace w') = [§"abort01"; §"fs"] /\ starts s' = 1 /\
    live (w_trace w') = [] /\ pgrps (running s') = [].
Proof.
  eassert (Hrun : main_loop (H := int_os 13) sample_config 9 9
    (init_sched sample_config false (-1) false) world0 = Ok (Some _) _)
    by (vm_compute; reflexivity).
  pose proof (main_loop_reaps_all (H := int_os 13) (H0 := int_os_laws 13)
    sample_config false (-1) false 9 9 world0 _ _ world0_fresh ltac:(done) Hrun) as (P1 & P2 & _).
  eexists _, _. split; [exact Hrun|]. split; [reflexivity|]. split; [reflexivity|].
  split; [exact P1|exact P2].
Defined.

(** ** A sequential run *)

Lemma tag_at_all cfg : tag_at cfg <$> seq 0 (length (coll cfg)) = name <$> coll cfg.
Proof.
  apply list_eq. intros i. rewrite !list_lookup_fmap.
  destruct (decide (i < length (coll cfg))%nat) as [Hi|Hi].
  - rewrite lookup_seq_lt by done. cbn. unfold tag_at. rewrite Nat.mod_small by done.
    destruct (lookup_lt_is_Some_2 _ _ Hi) as [c ->]. done.
  - rewrite lookup_seq_ge by lia. rewrite lookup_ge_None_2 by lia. done.
Qed.

Lemma init_unsignalled cfg timed n : unsignalled (init_sched cfg timed n false).
Proof.
  repeat split; cbn; try done. apply Forall_replicate. done.
Qed.



(** ** The child's side of run_child *)

Lemma exec_cmd_cases c :
  exec_cmd c = if strpbrk c ("034"%char :: §"';|<>$\") then ExecSh c
               else ExecVp (strtok_all [" "%char; TAB] c).
Proof.
  unfold exec_cmd. destruct (strpbrk _ _); [done|].
  destruct (splitstr_cells all_alloc c None) as [free ->]; [done..|].
  f_equal. apply args_tok_cells.
Qed.

(** A test whose command line has a shell character is given to a shell
    unchanged, any other is executed directly with its blank-separated words
    as arguments, when the redirections and the exec succeed. *)
Theorem child_main_runs panname strerror colle c_cmdline capt :
  child_main panname strerror colle c_cmdline capt 0 0 0 =
    ChildRuns (if strpbrk c_cmdline ("034"%char :: §"';|<>$\") then ExecSh c_cmdline
               else ExecVp (strtok_all [" "%char; TAB] c_cmdline)).
Proof. unfold child_main. rewrite exec_cmd_cases. now destruct capt. Qed.

(** The message about a failed exec quotes the command line, whose length nothing
    limits, in a buffer of 1024 bytes: from that length on [sprintf] writes
    past the buffer. *)
Theorem child_main_overflow panname strerror colle c_cmdline capt errno :
  strpbrk c_cmdline ("034"%char :: §"';|<>$\") = true -> (1024 <= length c_cmdline)%nat ->
  errno <> 0 ->
  child_main panname strerror colle c_cmdline capt 0 0 errno = ChildOverflow.
Proof.
  intros Hsh Hlen Herr. unfold child_main. rewrite exec_cmd_cases, Hsh, andb_false_r.
  cbn [negb Z.eqb]. rewrite (proj2 (Z.eqb_neq errno 0) Herr). unfold child_report.
  rewrite (proj2 (Nat.leb_le 1024 _)); [done|]. rewrite !length_app. lia.
Qed.

Lemma child_main_overflow_witness :
  child_main §"pan" (fun _ => §"ENOENT") (mkColl §"t" §"x" false)
    (replicate 1023 "a"%char ++ §";") false 0 0 2 = ChildOverflow.
Proof.
  apply child_main_overflow; [reflexivity| |discriminate].
  rewrite length_app, length_replicate. apply Nat.leb_le. reflexivity.
Defined.
