(* ===== verification/PanSignals.v ===== *)
(** ltp-pan: signals.  What the ratchet of [wait_handler] sends when the user
    repeats a signal, whom [propagate_signal] reaches, the orphan list, and the start loop
    of a random run when no test can be started. *)
From Stdlib Require Import Ascii String ZArith Lia Bool.
From stdpp Require Import base list sets numbers.
From S2P Require Import Prelude CString Splitstr Zoo PanColl PanOS Pan PanLogic PanInv PanRun.

Local Open Scope Z_scope.
Local Open Scope pan_scope.

(** ** The ratchet *)

(** A signal that arrives after the one before it was propagated. *)
Definition resignal (sig : Z) (w : world) : world :=
  wait_handler sig (set_signals w 0 0 (lastsent w)).

(** The signals of the ratchet for a signal that is not part of it itself. *)
Definition ratchet (sig : Z) : list Z := [sig; SIGTERM; SIGHUP; SIGKILL; 0].

Definition plain_signal (sig : Z) : Prop :=
  sig ∉ [0; SIGUSR1; SIGUSR2; SIGTERM; SIGHUP; SIGKILL].

(** One signal moves [lastsent] one notch. *)
Lemma resignal_notch sig w i last :
  plain_signal sig -> (0 :: ratchet sig) !! i = Some last -> (i < 5)%nat -> lastsent w = last ->
  Some (send_signal (resignal sig w)) = ratchet sig !! i /\
  Some (lastsent (resignal sig w)) = ratchet sig !! i.
Proof.
  intros Hs Hi Hlt Hw. unfold plain_signal in Hs. rewrite !not_elem_of_cons in Hs.
  destruct Hs as (N1 & N2 & N3 & N4 & N5 & N6 & _).
  unfold resignal, wait_handler. cbn [lastsent set_signals]. rewrite Hw.
  rewrite !(proj2 (Z.eqb_neq sig _)) by assumption.
  destruct i as [|[|[|[|[|i]]]]]; [..|lia]; injection Hi as <-; cbn [lookup ratchet].
  - done.
  - rewrite !(proj2 (Z.eqb_neq sig _)), Z.eqb_refl by assumption. done.
  - rewrite (proj2 (Z.eqb_neq SIGTERM sig)) by (intros E; now apply N4). done.
  - rewrite (proj2 (Z.eqb_neq SIGHUP sig)) by (intros E; now apply N5). done.
  - rewrite (proj2 (Z.eqb_neq SIGKILL sig)) by (intros E; now apply N6). done.
Qed.

Lemma resignal_lastsent sig w n :
  plain_signal sig -> lastsent w = 0 ->
  Some (lastsent (Nat.iter n (resignal sig) w)) = (0 :: ratchet sig) !! (n mod 5)%nat.
Proof.
  intros Hs Hw. induction n as [|n IH]; [cbn; now rewrite Hw|].
  pose proof (Nat.mod_upper_bound n 5 ltac:(lia)) as Hb.
  destruct (resignal_notch sig (Nat.iter n (resignal sig) w) (n mod 5) _ Hs (eq_sym IH) Hb eq_refl)
    as [_ H]. change (Nat.iter (S n) (resignal sig) w) with (resignal sig (Nat.iter n (resignal sig) w)).
  rewrite H, mod_succ by lia. destruct (5 <=? S (n mod 5))%nat eqn:E.
  - apply Nat.leb_le in E. replace (n mod 5)%nat with 4%nat by lia. done.
  - done.
Qed.

(** Repeating one signal, say SIGINT, makes pan send it, then SIGTERM, SIGHUP and
    SIGKILL to its children; the one after that sends signal 0, which does nothing, and the
    ratchet starts again. *)
Theorem wait_handler_ratchet sig w n :
  plain_signal sig -> lastsent w = 0 ->
  Some (send_signal (Nat.iter (S n) (resignal sig) w)) = ratchet sig !! (n mod 5)%nat.
Proof.
  intros Hs Hw. pose proof (resignal_lastsent sig w n Hs Hw) as Hl.
  pose proof (Nat.mod_upper_bound n 5 ltac:(lia)) as Hb.
  exact (proj1 (resignal_notch sig _ (n mod 5) _ Hs (eq_sym Hl) Hb eq_refl)).
Qed.

Lemma sigint_plain : plain_signal SIGINT.
Proof. unfold plain_signal. rewrite !not_elem_of_cons. repeat split; try discriminate. apply not_elem_of_nil. Qed.

Lemma wait_handler_ratchet_witness :
  (fun n => send_signal (Nat.iter n (resignal SIGINT) world0)) <$> [1; 2; 3; 4; 5; 6]%nat =
    [SIGINT; SIGTERM; SIGHUP; SIGKILL; 0; SIGINT] /\
  Some (send_signal (Nat.iter 4 (resignal SIGINT) world0)) = Some SIGKILL.
Proof.
  split; [reflexivity|].
  exact (wait_handler_ratchet SIGINT world0 3 sigint_plain eq_refl).
Defined.

(** Repeating SIGTERM, the usual way to end a daemon, never gets beyond
    SIGTERM: the branch for a repeated signal comes before the one that would go on to
    SIGHUP and SIGKILL. *)
Theorem wait_handler_sigterm w n :
  lastsent w = 0 -> send_signal (Nat.iter (S n) (resignal SIGTERM) w) = SIGTERM.
Proof.
  intros Hw.
  assert (Hstep : forall v, lastsent v = 0 \/ lastsent v = SIGTERM ->
    send_signal (resignal SIGTERM v) = SIGTERM /\ lastsent (resignal SIGTERM v) = SIGTERM).
  { intros v Hv. unfold resignal, wait_handler. cbn [lastsent set_signals].
    destruct Hv as [-> | ->]; done. }
  assert (Hlast : forall m, lastsent (Nat.iter m (resignal SIGTERM) w) = 0 \/
                            lastsent (Nat.iter m (resignal SIGTERM) w) = SIGTERM).
  { induction m as [|m IH]; [now left|]. right. apply (Hstep _ IH). }
  apply (Hstep _ (Hlast n)).
Qed.

Lemma wait_handler_sigterm_witness :
  send_signal (Nat.iter 10 (resignal SIGTERM) world0) = SIGTERM.
Proof. exact (wait_handler_sigterm world0 9 eq_refl). Defined.

(** ** propagate_signal *)

(** The calls of [kill], oldest first. *)
Fixpoint kills (tr : list event) : list (Z * Z) :=
  match tr with
  | [] => []
  | EvKill p s _ :: r => kills r ++ [(p, s)]
  | _ :: r => kills r
  end.

(** The process groups of the orphan list. *)
Definition groups (l : list Z) : list Z := List.filter (fun p => negb (p =? 0)) l.

Section Propagate.
Context `{OS}.
Hypothesis quiet_os : forall k, os_signals k = [].

(** The code returns and only adds calls of [kill]. *)
Definition killing {A} (m : M A) (targets : list Z) (sig : Z) (Q : A -> Prop) (w : world) : Prop :=
  exists a w', m w = Ok a w' /\ Q a /\ send_signal w' = send_signal w /\ lastsent w' = lastsent w /\
    kills (w_trace w') = kills (w_trace w) ++ ((fun p => (- p, sig)) <$> targets).

Lemma killing_bind {A B} (m : M A) (f : A -> M B) t1 t2 sig (Q1 : A -> Prop) (Q : B -> Prop) w :
  killing m t1 sig Q1 w ->
  (forall a w', Q1 a -> send_signal w' = send_signal w -> killing (f a) t2 sig Q w') ->
  killing (bind m f) (t1 ++ t2) sig Q w.
Proof.
  intros (a & w1 & E1 & H1 & S1 & L1 & K1) Hf.
  destruct (Hf a w1 H1 S1) as (b & w2 & E2 & H2 & S2 & L2 & K2).
  exists b, w2. unfold bind. rewrite E1. split; [done|]. split; [done|].
  split; [congruence|]. split; [congruence|]. now rewrite K2, K1, fmap_app, app_assoc.
Qed.

Lemma killing_ret {A} (a : A) sig (Q : A -> Prop) w : Q a -> killing (ret a) [] sig Q w.
Proof. intros HQ. exists a, w. rewrite app_nil_r. done. Qed.

Lemma killing_kill p sig w : killing (kill (- p) sig) [p] sig (fun _ => True) w.
Proof.
  unfold killing, kill, bind, tick. rewrite quiet_os. cbn. eexists _, _. split; [reflexivity|]. done.
Qed.

Lemma killing_msg b m sig w : killing (when b (emit (EvMsg m))) [] sig (fun _ => True) w.
Proof. destruct b; (eexists tt, _; split; [reflexivity|]); cbn; rewrite app_nil_r; done. Qed.

Lemma killing_zoo f sig w : killing (zoo_op f) [] sig (fun _ => True) w.
Proof.
  unfold killing, zoo_op, bind, tick. rewrite quiet_os. cbn. destruct (f _ _) as [r z].
  eexists _, _. split; [reflexivity|]. cbn. rewrite app_nil_r. done.
Qed.

Lemma killing_signal_slots l w :
  killing (signal_slots l) (pgrps l) (send_signal w) (fun l' => l' = mark_stopping <$> l) w.
Proof.
  revert w. induction l as [|t l IH]; intros w; cbn [signal_slots]; [now apply killing_ret|].
  rewrite pgrps_cons. cbn [fmap list_fmap].
  assert (Hb : busy t = negb (pgrp t =? 0)) by done.
  assert (Ht : mark_stopping t = if pgrp t =? 0 then t else set_stopping t true) by done.
  rewrite Hb, Ht. destruct (pgrp t =? 0); cbn [negb app].
  - rewrite <- (app_nil_r (pgrps l)). eapply killing_bind; [apply IH|]. intros l' w' -> _.
    now apply killing_ret.
  - change (killing (errno <- kill (- pgrp t) (send_signal w) ;;
      when (negb (errno =? 0)) (emit (EvMsg "kill failed on tag")) ;;
      r' <- signal_slots l ;; ret (set_stopping t true :: r'))
      ([pgrp t] ++ pgrps l) (send_signal w)
      (fun l' => l' = set_stopping t true :: (mark_stopping <$> l)) w).
    eapply killing_bind; [apply killing_kill|]. intros e w1 _ S1.
    rewrite <- (app_nil_l (pgrps l)). eapply killing_bind; [apply killing_msg|]. intros _ w2 _ S2.
    rewrite <- (app_nil_r (pgrps l)). eapply killing_bind.
    { rewrite <- S1, <- S2. apply IH. }
    intros l' w3 -> _. now apply killing_ret.
Qed.

Lemma killing_check_orphans l sig w :
  killing (check_orphans l sig) (groups l) sig (fun _ => True) w.
Proof.
  revert w. induction l as [|p l IH]; intros w; cbn [check_orphans groups List.filter];
    [now apply killing_ret|].
  destruct (p =? 0); cbn [negb].
  - rewrite <- (app_nil_r (List.filter _ l)). eapply killing_bind; [apply IH|].
    intros. now apply killing_ret.
  - change (p :: List.filter (fun p => negb (p =? 0)) l) with ([p] ++ groups l).
    eapply killing_bind; [apply killing_kill|]. intros e w1 _ _.
    rewrite <- (app_nil_l (groups l)). eapply (killing_bind _ _ [] _ _ (fun _ => True)).
    + destruct (negb (e =? 0)); [destruct (e =? ESRCH)|now apply killing_ret].
      * eapply (killing_bind _ _ [] []); [apply killing_zoo|]. intros.
        eapply (killing_bind _ _ [] []); [apply killing_msg|]. intros. now apply killing_ret.
      * eapply (killing_bind _ _ [] []); [apply (killing_msg true)|]. intros. now apply killing_ret.
    + intros p' w2 _ _. rewrite <- (app_nil_r (groups l)). eapply killing_bind; [apply IH|].
      intros. now apply killing_ret.
Qed.

(** [propagate_signal] sends [send_signal] to the process group of every
    slot in use and then to every orphaned group, in that order and to nothing else, marks
    those slots as stopping and leaves no signal pending.  [send_signal]
    is what the handler chose: also for SIGALRM, whose change to SIGTERM
    touches [rec_signal] only. *)
Theorem propagate_signal_kills s w :
  exists s' w', propagate_signal s w = Ok s' w' /\
    kills (w_trace w') = kills (w_trace w) ++
      ((fun p => (- p, send_signal w)) <$> pgrps (running s) ++ groups (orphans s)) /\
    running s' = mark_stopping <$> running s /\ rec_signal w' = 0 /\ send_signal w' = 0.
Proof.
  assert (Hpre : exists w1, (when (rec_signal w =? SIGALRM)
      (emit (EvMsg "PAN stop Alarm was received") ;;
       modify (fun w => set_signals w SIGTERM (send_signal w) (lastsent w)))) w = Ok tt w1 /\
    send_signal w1 = send_signal w /\ kills (w_trace w1) = kills (w_trace w)).
  { destruct (rec_signal w =? SIGALRM); eexists; split; reflexivity || done. }
  destruct Hpre as (w1 & E1 & S1 & K1).
  destruct (killing_signal_slots (running s) w1) as (run' & w2 & E2 & -> & S2 & _ & K2).
  destruct (killing_check_orphans (orphans s) (send_signal w2) w2)
    as (orph' & w3 & E3 & _ & S3 & _ & K3).
  eexists _, _. unfold propagate_signal. cbn [bind get].
  unfold bind at 1. rewrite E1. unfold bind at 1. rewrite E2. cbn [bind get].
  unfold bind at 1. rewrite E3. split; [reflexivity|]. cbn.
  split; [|done]. rewrite K3, K2, K1, S2, S1, fmap_app, app_assoc. done.
Qed.
End Propagate.

(** Two tests are running and one orphaned group is left when SIGALRM comes. *)
Lemma propagate_signal_kills_witness :
  let t p := set_pgrp empty_slot p in
  let s := set_orphans (set_running (init_sched sample_config false (-1) false)
                          [t 7; empty_slot; t 9]) [0; 5] in
  let w := wait_handler SIGALRM world0 in
  exists s' w', propagate_signal (H := simple_os (fun _ => 0)) s w = Ok s' w' /\
    kills (w_trace w') = [(-7, SIGALRM); (-9, SIGALRM); (-5, SIGALRM)] /\ rec_signal w' = 0.
Proof.
  intros t s w.
  destruct (propagate_signal_kills (H := simple_os (fun _ => 0)) (fun _ => eq_refl) s w)
    as (s' & w' & E & K & _ & R & _).
  exists s', w'. split; [exact E|]. split; [exact K|exact R].
Defined.

(** ** The orphan list *)

Lemma fill_orphan_groups l p l' :
  p <> 0 -> fill_orphan l p = Some l' -> groups l' ≡ₚ p :: groups l /\ length l' = length l.
Proof.
  intros Hp. revert l'. induction l as [|q l IH]; intros l' E; cbn in E; [done|].
  destruct (q =? 0) eqn:Eq.
  - injection E as <-. cbn. rewrite Eq. apply Z.eqb_neq in Hp as ->. done.
  - destruct (fill_orphan l p) as [r|]; [|done]. injection E as <-.
    destruct (IH r eq_refl) as [IH1 IH2]. cbn. rewrite Eq. cbn.
    split; [rewrite IH1; apply perm_swap|lia].
Qed.

Lemma fill_orphan_full l p : fill_orphan l p = None -> groups l = l.
Proof.
  induction l as [|q l IH]; cbn; [done|]. destruct (q =? 0); [done|].
  destruct (fill_orphan l p); [done|]. intros _. cbn. f_equal. now apply IH.
Qed.

(** [mark_orphan] adds the group to the list and loses none; it takes a new
    node only when no node is empty, so the list never holds more nodes than groups were
    orphaned at one time. *)
Theorem mark_orphan_groups l p :
  l <> [] -> p <> 0 ->
  groups (mark_orphan l p) ≡ₚ p :: groups l /\
  length (mark_orphan l p) = Nat.max (length l) (S (length (groups l))).
Proof.
  intros Hl Hp. unfold mark_orphan. destruct (fill_orphan l p) as [l'|] eqn:E.
  - destruct (fill_orphan_groups _ _ _ Hp E) as [H1 H2]. split; [done|].
    rewrite H2. apply Permutation_length in H1. cbn in H1. rewrite <- H1.
    pose proof (filter_length_le (fun p => negb (p =? 0)) l') as Hle.
    fold (groups l') in Hle. lia.
  - pose proof (fill_orphan_full _ _ E) as Hfull. destruct l as [|h r]; [done|].
    cbn in Hfull |- *. destruct (h =? 0); cbn in *.
    + pose proof (filter_length_le (fun p => negb (p =? 0)) r) as Hle.
      rewrite Hfull in Hle. cbn in Hle. lia.
    + injection Hfull as Hfull. apply Z.eqb_neq in Hp as ->. cbn. rewrite Hfull.
      split; [apply perm_swap|lia].
Qed.

Lemma mark_orphan_groups_witness :
  groups (mark_orphan [0; 5; 0; 6] 7) ≡ₚ [7; 5; 6] /\ length (mark_orphan [4; 5] 7) = 3%nat.
Proof.
  split.
  - apply (proj1 (mark_orphan_groups [0; 5; 0; 6] 7 ltac:(discriminate) ltac:(discriminate))).
  - apply (proj2 (mark_orphan_groups [4; 5] 7 ltac:(discriminate) ltac:(discriminate))).
Defined.

(** ** A random run in which nothing can be started *)

Section Spin.
Context `{CALM : Calm} (cfg : config).
Hypothesis fork_fails : forall k tr, exists e, os_fork k tr = ForkErr e.
Hypothesis no_out_dir : test_out_dir cfg = None.

Lemma twp_run_child_fails colle active fc w :
  (forall n, (subst_pcnt_f colle os_getpid n).1 <> None) -> rec_signal w = 0 ->
  twp (run_child cfg colle active fc) (fun r _ => r.1.1 = -1 /\ pgrp r.1.2 = pgrp active) w.
Proof.
  intros Hfmt Hw. unfold run_child, open_stdout, capturing. rewrite no_out_dir.
  apply twp_bind, twp_ret; [done|]. intros _. cbn [negb].
  apply twp_bind. split; [|done]. intros _. specialize (Hfmt (counter w)).
  destruct (subst_pcnt_f _ _ _) as [[c|] n]; [|done].
  apply twp_bind. split; [|done]. intros _.
  apply twp_bind. eapply twp_mono; [apply steady_tick, Hw|]. intros k w1 _ Hw1.
  destruct (negb (os_pipe k =? 0)).
  - apply twp_bind. split; [|done]. intros _. apply twp_bind. now apply twp_ret.
  - apply twp_bind. eapply twp_mono; [now apply steady_time|]. intros now w2 _ Hw2.
    apply twp_bind. eapply twp_mono; [apply steady_when; [intros _; apply steady_write_test_start|done]|].
    intros _ w3 _ Hw3. apply twp_bind. eapply twp_mono; [now apply steady_tick|]. intros k' w4 _ Hw4.
    apply twp_bind. split; [|done]. intros _. destruct (fork_fails k' (w_trace w4)) as [e ->].
    apply twp_bind. split; [|done]. intros _. apply twp_bind. now apply twp_ret.
Qed.

Lemma find_free_insert l i t t' :
  l !! i = Some t -> pgrp t' = pgrp t -> find_free (<[i := t']> l) = find_free l.
Proof.
  revert i. induction l as [|x l IH]; intros [|i] Hi Hp; cbn in Hi; try done.
  - injection Hi as ->. cbn. now rewrite Hp.
  - change (<[S i := t']> (x :: l)) with (x :: <[i := t']> l). cbn [find_free]. now rewrite (IH i).
Qed.

(** Without [-S] and without a limit reached, a [fork] that keeps failing (or
    any other reason for which [run_child] returns -1) keeps pan in the start loop: [starts]
    is not counted down and nothing in the loop waits. *)
Theorem start_loop_spins fuel s w :
  sequential cfg = false -> coll cfg <> [] ->
  Forall (fun c => forall n, (subst_pcnt_f c os_getpid n).1 <> None) (coll cfg) ->
  num_active s < Z.of_nat (keep_active cfg) -> starts s <> 0 -> stop s = 0 -> go_idle s = 0 ->
  rec_signal w = 0 -> find_free (running s) <> None ->
  (exists w', start_loop cfg fuel s w = Ok None w') \/
  (exists w', start_loop cfg fuel s w = Exited 1 w').
Proof.
  intros Hseq Hcoll Hfmt Hn Hst Hstop Hidle Hw Hfree.
  enough (Htwp : twp (start_loop cfg fuel s) (fun r _ => r = None) w).
  { destruct (twp_Ok _ _ _ Htwp) as [(r & w' & E & ->)|Hex]; eauto. }
  revert s w Hn Hst Hstop Hidle Hw Hfree.
  induction fuel as [|fuel IH]; intros s w Hn Hst Hstop Hidle Hw Hfree; [done|].
  cbn [start_loop]. apply twp_bind. unfold start_step.
  apply twp_bind. split; [|done]. intros _.
  rewrite (proj2 (Z.ltb_lt _ _) Hn), (proj2 (Z.eqb_neq _ _) Hst), Hstop, Hidle, Hw, Hseq.
  cbn [negb andb orb Z.eqb].
  apply twp_bind, twp_bind. eapply twp_mono; [now apply steady_tick|]. intros k w1 _ Hw1.
  apply twp_ret; [done|]. intros _. cbn [running set_cidx cidx].
  destruct (find_free (running s)) as [i|] eqn:Ef; [|done].
  apply find_free_Some in Ef as Ht. destruct Ht as (t & Hi & _). rewrite Hi.
  set (c := Z.to_nat _). assert (Hc : (c < length (coll cfg))%nat).
  { unfold c, ncoll. destruct (coll cfg) as [|x l]; [done|].
    pose proof (Z.rem_bound_abs (os_lrand48 k) (Z.of_nat (length (x :: l))) ltac:(cbn; lia)).
    lia. }
  destruct (lookup_lt_is_Some_2 _ _ Hc) as [colle Hcolle]. rewrite Hcolle.
  rewrite Forall_lookup in Hfmt.
  apply twp_bind. split; [|done]. intros Hw2. apply twp_bind.
  eapply twp_mono; [apply twp_run_child_fails; [now apply (Hfmt c)|done]|].
  intros [[cpid t'] fc'] w3 [Hpid Hpg] Hw3. cbn [fst snd] in Hpid, Hpg. subst cpid.
  cbn [negb Z.eqb orb andb Z.opp Pos.eqb]. apply twp_ret; [done|]. intros _.
  apply IH; try done. cbn. rewrite (find_free_insert _ _ t); [|done|done]. now rewrite Ef.
Qed.
End Spin.

(** The kernel of the examples with a process table that is full. *)
#[local] Instance full_os : OS := {|
  os_signals := @os_signals (simple_os (fun _ => 0)); os_kill := @os_kill (simple_os (fun _ => 0));
  os_wait := @os_wait (simple_os (fun _ => 0)); os_fork _ _ := ForkErr 11;
  os_pipe := @os_pipe (simple_os (fun _ => 0));
  os_errpipe := @os_errpipe (simple_os (fun _ => 0));
  os_open_exist := @os_open_exist (simple_os (fun _ => 0));
  os_open := @os_open (simple_os (fun _ => 0)); os_kmsg := @os_kmsg (simple_os (fun _ => 0));
  os_time := @os_time (simple_os (fun _ => 0)); os_times := @os_times (simple_os (fun _ => 0));
  os_lrand48 := @os_lrand48 (simple_os (fun _ => 0));
  os_slurp := @os_slurp (simple_os (fun _ => 0)); os_zoo := @os_zoo (simple_os (fun _ => 0));
  os_stop_file := @os_stop_file (simple_os (fun _ => 0)); os_getpid := 100
|}.

Lemma full_os_calm : Calm (H := full_os).
Proof. destruct (simple_os_calm (fun _ => 0)) as [H1 H2 H3]. now split. Qed.

Definition random_config : config := {|
  keep_active := 1; sequential := false; has_brakes := false; track_exit_stats := true;
  fmt_print := true; quiet_mode := false; no_kmsg := false; logfile := true;
  failcmdfile := true; tconfcmdfile := false; test_out_dir := None; report_rts := true;
  coll := coll sample_config
|}.

Lemma start_loop_spins_witness :
  exists w', start_loop (H := full_os) random_config 50
    (init_sched random_config false (-1) false) world0 = Ok None w'.
Proof.
  destruct (start_loop_spins (CALM := full_os_calm) random_config
    (fun _ _ => ex_intro _ 11 eq_refl) eq_refl 50 (init_sched random_config false (-1) false) world0
    eq_refl ltac:(discriminate) ltac:(repeat constructor; discriminate) ltac:(reflexivity)
    ltac:(discriminate) eq_refl eq_refl eq_refl ltac:(discriminate)) as [Hrun|[w' Hrun]].
  - exact Hrun.
  - vm_compute in Hrun. discriminate.
Defined.
