(* ===== verification/TstRes.v ===== *)
(** The results of a test (lib/tst_test.c, include/tst_res_flags.h,
    lib/tst_ansi_color.c): the result flags, the counters in shared memory, the line
    [print_result] writes, and the exit status [do_exit] makes of the
    counters. *)
From Stdlib Require Import Ascii String ZArith Lia Bool.
From stdpp Require Import base list sets numbers.
From S2P Require Import Prelude CString.

Local Open Scope Z_scope.

(** ** Flags *)

Definition TTYPE_MASK : Z := 63.
Definition TPASS : Z := 0.
Definition TFAIL : Z := 1.
Definition TBROK : Z := 2.
Definition TWARN : Z := 4.
Definition TINFO : Z := 16.
Definition TCONF : Z := 32.
Definition TERRNO : Z := 256.
Definition TTERRNO : Z := 512.
Definition TRERRNO : Z := 1024.

Definition TTYPE_RESULT (ttype : Z) : Z := Z.land ttype TTYPE_MASK.
Definition has_flag (ttype flag : Z) : bool := negb (Z.land ttype flag =? 0).

(** ** The counters *)

Record results := mkResults {
  passed : Z;
  skipped : Z;
  failed : Z;
  warnings : Z;
  timeout : Z
}.

(** [tst_atomic_inc] on an int. *)
Definition atomic_inc (v : Z) : Z := s32 (v + 1).

Definition update_results (shared : option results) (ttype : Z) : option results :=
  match shared with
  | None => None
  | Some r =>
      Some (if ttype =? TCONF
            then mkResults (passed r) (atomic_inc (skipped r)) (failed r) (warnings r) (timeout r)
            else if ttype =? TPASS
            then mkResults (atomic_inc (passed r)) (skipped r) (failed r) (warnings r) (timeout r)
            else if ttype =? TWARN
            then mkResults (passed r) (skipped r) (failed r) (atomic_inc (warnings r)) (timeout r)
            else if ttype =? TFAIL
            then mkResults (passed r) (skipped r) (atomic_inc (failed r)) (warnings r) (timeout r)
            else r)
  end.

Definition results_equal (a b : results) : bool :=
  if negb (passed a =? passed b) then false
  else if negb (failed a =? failed b) then false
  else if negb (skipped a =? skipped b) then false
  else true.

(** [do_exit(ret)]: the exit status. *)
Definition do_exit (shared : option results) (ret : Z) : Z :=
  match shared with
  | None => ret
  | Some r =>
      let ret := if negb (passed r =? 0) && (ret =? TCONF) then 0 else ret in
      let ret := if negb (failed r =? 0) then Z.lor ret TFAIL else ret in
      let ret := if negb (skipped r =? 0) && (passed r =? 0) then Z.lor ret TCONF else ret in
      if negb (warnings r =? 0) then Z.lor ret TWARN else ret
  end.

(** ** Colors *)

Definition ESC : ascii := "027"%char.

Definition ANSI_COLOR_BLUE : cstr := ESC :: §"[1;34m".
Definition ANSI_COLOR_GREEN : cstr := ESC :: §"[1;32m".
Definition ANSI_COLOR_MAGENTA : cstr := ESC :: §"[1;35m".
Definition ANSI_COLOR_RED : cstr := ESC :: §"[1;31m".
Definition ANSI_COLOR_YELLOW : cstr := ESC :: §"[1;33m".
Definition ANSI_COLOR_RESET : cstr := ESC :: §"[0m".

Definition tst_ttype2color (ttype : Z) : cstr :=
  let t := TTYPE_RESULT ttype in
  if t =? TPASS then ANSI_COLOR_GREEN
  else if t =? TFAIL then ANSI_COLOR_RED
  else if t =? TBROK then ANSI_COLOR_RED
  else if t =? TCONF then ANSI_COLOR_YELLOW
  else if t =? TWARN then ANSI_COLOR_MAGENTA
  else if t =? TINFO then ANSI_COLOR_BLUE
  else [].

(** [tst_color_enabled(fd)] with its static [color], LTP_COLORIZE_OUTPUT and
    the answer of [isatty]: the return value and the new [color]. *)
Definition tst_color_enabled (color : Z) (env : option cstr) (isatty : Z) : Z * Z :=
  if negb (color =? 0) then (color - 1, color)
  else match env with
       | Some e =>
           let color := if streq e §"n" || streq e §"0" then 1 else color in
           let color := if streq e §"y" || streq e §"1" then 2 else color in
           (color - 1, color)
       | None =>
           let color := if isatty =? 0 then 1 else 2 in
           (color - 1, color)
       end.

(** ** print_result *)

Definition res_name (ttype : Z) : option cstr :=
  let t := TTYPE_RESULT ttype in
  if t =? TPASS then Some §"PASS"
  else if t =? TFAIL then Some §"FAIL"
  else if t =? TBROK then Some §"BROK"
  else if t =? TCONF then Some §"CONF"
  else if t =? TWARN then Some §"WARN"
  else if t =? TINFO then Some §"INFO"
  else None.

(** The place of a message and what it is printed with: [tst_strerrno], errno,
    TST_ERR, TST_RET, and whether stderr is colorized. *)
Record msg_env := {
  me_file : cstr;
  me_lineno : Z;
  me_strerrno : Z -> cstr;
  me_errno : Z;
  me_TST_ERR : Z;
  me_TST_RET : Z;
  me_color : bool
}.

(** [str_errno] and [int_errno]: the last flag wins. *)
Definition errno_info (e : msg_env) (ttype : Z) : option (cstr * Z) :=
  if has_flag ttype TRERRNO then
    let n := if me_TST_RET e <? 0 then s32 (- s32 (me_TST_RET e)) else s32 (me_TST_RET e) in
    Some (me_strerrno e n, n)
  else if has_flag ttype TTERRNO then Some (me_strerrno e (me_TST_ERR e), me_TST_ERR e)
  else if has_flag ttype TERRNO then Some (me_strerrno e (me_errno e), me_errno e)
  else None.

(** [snprintf(str, size, ...)] of the text [s], where [str] is [pos] bytes into
    the 1024 bytes of [buf] and [size] is what is left; the written part of
    the buffer.  [None] when it writes outside the buffer: a negative [size]
    is a huge [size_t]. *)
Definition put (buf : cstr) (pos : Z) (s : cstr) : option cstr :=
  let size := 1024 - pos in
  if size <? 0 then None
  else if size =? 0 then Some buf
  else Some (take (Z.to_nat pos) buf ++ take (Z.to_nat (size - 1)) s).

(** What a call prints: the lines, and how many TWARN results it counted. *)
Inductive printed :=
| Printed (lines : list cstr) (warned : nat)
| PrintOverflow                       (* a write outside buf *)
| PrintInvalid                        (* not a result type: tst_brk(TBROK) *)
| PrintFuel.

(** The end of [print_result]: the newline and the write. *)
Definition print_line (buf : cstr) (pos : Z) (before : printed) : printed :=
  match before with
  | Printed ls w =>
      match put buf pos [LF] with
      | None => PrintOverflow
      | Some buf => Printed (ls ++ [take (Z.to_nat (pos + 1)) buf]) w
      end
  | r => r
  end.

Definition too_long : cstr := §"Next message is too long and truncated:".

(** [print_result] and the [tst_res_(TWARN)] it calls for a long message. *)
Fixpoint print_result (fuel : nat) (e : msg_env) (ttype : Z) (msg : cstr) : printed :=
  match fuel with
  | O => PrintFuel
  | S fuel =>
      match res_name ttype with
      | None => PrintInvalid
      | Some res =>
          let warn :=
            match print_result fuel e TWARN too_long with
            | Printed ls w => Printed ls (S w)
            | r => r
            end in
          let head := me_file e ++ §":" ++ fmt_d (me_lineno e) ++ §": " in
          match put [] 0 head with
          | None => PrintOverflow
          | Some buf =>
              let pos := Z.of_nat (length head) in
              let tag := if me_color e
                         then tst_ttype2color ttype ++ res ++ §": " ++ ANSI_COLOR_RESET
                         else res ++ §": " in
              match put buf pos tag with
              | None => PrintOverflow
              | Some buf =>
                  let pos := pos + Z.of_nat (length tag) in
                  match put buf pos msg with
                  | None => PrintOverflow
                  | Some buf =>
                      let ssize := 1024 - pos - 2 in
                      let ret := Z.of_nat (length msg) in
                      let pos := pos + Z.min ret ssize in
                      if ssize <=? ret then print_line buf pos warn
                      else match errno_info e ttype with
                           | None => print_line buf pos (Printed [] 0)
                           | Some (str_errno, int_errno) =>
                               let t := §": " ++ str_errno ++ §" (" ++ fmt_d int_errno ++ §")" in
                               match put buf pos t with
                               | None => PrintOverflow
                               | Some buf =>
                                   let ssize := 1024 - pos - 2 in
                                   let ret := Z.of_nat (length t) in
                                   let pos := pos + Z.min ret ssize in
                                   print_line buf pos
                                     (if ssize <=? ret then warn else Printed [] 0)
                               end
                           end
                  end
              end
          end
      end
  end.

(** [tst_vres_]: the lines and the counters. *)
Fixpoint add_warnings (n : nat) (r : option results) : option results :=
  match n with
  | O => r
  | S n => add_warnings n (update_results r TWARN)
  end.

Definition tst_vres_ (fuel : nat) (e : msg_env) (r : option results) (ttype : Z) (msg : cstr)
    : printed * option results :=
  match print_result fuel e ttype msg with
  | Printed ls w => (Printed ls w, update_results (add_warnings w r) (TTYPE_RESULT ttype))
  | p => (p, r)
  end.

(** [tst_cvres]: inside the cleanup TBROK counts as TWARN. *)
Definition tst_cvres (fuel : nat) (e : msg_env) (r : option results) (ttype : Z) (msg : cstr)
    : printed * option results :=
  let ttype := if TTYPE_RESULT ttype =? TBROK
               then Z.lor (Z.land ttype (Z.lnot TTYPE_MASK)) TWARN else ttype in
  tst_vres_ fuel e r ttype msg.

(** ** What is printed *)

(** The part of a line before the message, and the errno text after it. *)
Definition msg_head (e : msg_env) : cstr := me_file e ++ §":" ++ fmt_d (me_lineno e) ++ §": ".

Definition msg_tag (e : msg_env) (ttype : Z) : cstr :=
  match res_name ttype with
  | Some res => if me_color e then tst_ttype2color ttype ++ res ++ §": " ++ ANSI_COLOR_RESET
                else res ++ §": "
  | None => []
  end.

Definition msg_errno (e : msg_env) (ttype : Z) : cstr :=
  match errno_info e ttype with
  | Some (s, n) => §": " ++ s ++ §" (" ++ fmt_d n ++ §")"
  | None => []
  end.

(** The line without a limit: a message that is cut loses its errno text. *)
Definition full_line (e : msg_env) (ttype : Z) (msg : cstr) : cstr :=
  let t := msg_head e ++ msg_tag e ttype ++ msg in
  if (1022 <=? length t)%nat then t else t ++ msg_errno e ttype.

Definition line_of (t : cstr) : cstr := take 1022 t ++ [LF].

(** The first [pos] bytes of the buffer are [txt]. *)
Definition holds (buf : cstr) (pos : Z) (txt : cstr) : Prop :=
  take (Z.to_nat pos) buf = txt /\ pos = Z.of_nat (length txt).

Lemma holds_nil : holds [] 0 [].
Proof. done. Qed.

Lemma put_holds buf pos txt s :
  holds buf pos txt -> (length txt <= 1022)%nat ->
  put buf pos s = Some (txt ++ take (1023 - length txt) s).
Proof.
  intros [H1 H2] Hl. unfold put. zcases. rewrite H1. repeat f_equal. lia.
Qed.

(** A text that fits is appended. *)
Lemma put_fits buf pos txt s :
  holds buf pos txt -> (length (txt ++ s) <= 1022)%nat ->
  exists buf', put buf pos s = Some buf' /\ holds buf' (pos + Z.of_nat (length s)) (txt ++ s).
Proof.
  intros Hh Hl. rewrite length_app in Hl. eexists. split; [apply put_holds; [done|lia]|].
  destruct Hh as [_ ->]. rewrite (take_ge s) by lia. split; [|rewrite length_app; lia].
  apply take_ge. rewrite length_app. lia.
Qed.

(** A text that may not fit is cut at 1022 bytes by the next write. *)
Lemma put_cut buf pos txt s :
  holds buf pos txt -> (length txt <= 1022)%nat ->
  exists buf', put buf pos s = Some buf' /\
    holds buf' (pos + Z.min (Z.of_nat (length s)) (1024 - pos - 2)) (take 1022 (txt ++ s)).
Proof.
  intros Hh Hl. eexists. split; [now apply (put_holds buf pos txt)|]. destruct Hh as [_ ->].
  assert (Hn : Z.to_nat (Z.of_nat (length txt) + Z.min (Z.of_nat (length s))
                 (1024 - Z.of_nat (length txt) - 2)) = Nat.min 1022 (length (txt ++ s)))
    by (rewrite length_app; lia).
  split; [|rewrite length_take; lia]. rewrite Hn, !take_app, take_take.
  rewrite length_app. rewrite !(take_ge txt) by lia. f_equal.
  destruct (decide (length txt + length s <= 1022)%nat).
  - rewrite !take_ge; [done|lia..].
  - f_equal. lia.
Qed.

Lemma print_line_holds buf pos txt before :
  holds buf pos txt -> (length txt <= 1022)%nat ->
  print_line buf pos before =
    match before with Printed ls w => Printed (ls ++ [txt ++ [LF]]) w | r => r end.
Proof.
  intros Hh Hl. unfold print_line. destruct before as [ls w| | |]; try done.
  rewrite (put_holds buf pos txt) by done. destruct Hh as [_ ->].
  rewrite (take_ge [LF]) by (cbn; lia). rewrite (take_ge (txt ++ [LF])); [done|].
  rewrite length_app. cbn. lia.
Qed.

Lemma tag_length e ttype : (length (msg_tag e ttype) <= 17)%nat.
Proof.
  assert (Hc : (length (tst_ttype2color ttype) <= 7)%nat)
    by (unfold tst_ttype2color; repeat case_if; cbn; lia).
  assert (Hr : forall res, res_name ttype = Some res -> length res = 4%nat)
    by (unfold res_name; intros res; repeat case_if; intros [= <-]; done).
  unfold msg_tag. destruct (res_name ttype) as [res|] eqn:E; [|cbn; lia].
  specialize (Hr res eq_refl). destruct (me_color e); rewrite !length_app; cbn; lia.
Qed.

(** The errno text after a message that fitted. *)
Lemma print_errno buf pos txt t warn :
  holds buf pos txt -> (length txt <= 1022)%nat ->
  match put buf pos t with
  | None => PrintOverflow
  | Some buf =>
      print_line buf (pos + Z.min (Z.of_nat (length t)) (1024 - pos - 2))
        (if 1024 - pos - 2 <=? Z.of_nat (length t) then warn else Printed [] 0)
  end =
  if (1022 <=? length (txt ++ t))%nat
  then match warn with Printed ls w => Printed (ls ++ [line_of (txt ++ t)]) w | r => r end
  else Printed [line_of (txt ++ t)] 0.
Proof.
  intros H Hl. destruct (put_cut _ _ _ t H Hl) as (b & -> & Hb).
  rewrite (print_line_holds _ _ _ _ Hb) by (rewrite length_take; lia). destruct H as [_ ->].
  rewrite length_app. destruct (1022 <=? length txt + length t)%nat eqn:E.
  - apply Nat.leb_le in E. rewrite (proj2 (Z.leb_le _ _)) by lia. done.
  - apply Nat.leb_gt in E. rewrite (proj2 (Z.leb_gt _ _)) by lia. done.
Qed.

(** One call of [print_result], with the call for a long message left open. *)
Lemma print_result_step fuel e ttype msg :
  res_name ttype <> None -> (length (msg_head e) <= 900)%nat ->
  print_result (S fuel) e ttype msg =
    let line := line_of (full_line e ttype msg) in
    if (1022 <=? length (full_line e ttype msg))%nat then
      match print_result fuel e TWARN too_long with
      | Printed ls w => Printed (ls ++ [line]) (S w)
      | r => r
      end
    else Printed [line] 0.
Proof.
  intros Hres Hhead. cbn [print_result]. fold (msg_head e).
  pose proof (tag_length e ttype) as Htag. unfold full_line.
  assert (Ht : msg_tag e ttype = match res_name ttype with
    | Some res => if me_color e then tst_ttype2color ttype ++ res ++ §": " ++ ANSI_COLOR_RESET
                  else res ++ §": " | None => [] end) by done.
  destruct (res_name ttype) as [res|]; [|done]. rewrite <- Ht. clear Ht Hres.
  destruct (put_fits [] 0 [] (msg_head e) holds_nil) as (b1 & -> & H1); [cbn; lia|].
  cbn [app] in H1. rewrite Z.add_0_l in H1.
  destruct (put_fits _ _ _ (msg_tag e ttype) H1) as (b2 & -> & H2); [rewrite length_app; lia|].
  set (pos := _ + _) in *. set (p := msg_head e ++ msg_tag e ttype) in *.
  replace (msg_head e ++ msg_tag e ttype ++ msg) with (p ++ msg) by (unfold p; now rewrite app_assoc).
  assert (Hp : (length p <= 917)%nat) by (unfold p; rewrite length_app; lia).
  destruct (put_cut _ _ _ msg H2) as (b3 & -> & H3); [lia|].
  pose proof H2 as [_ Hpos]. rewrite Hpos in *. clear pos H1 H2 Hpos.
  destruct (1022 <=? length (p ++ msg))%nat eqn:E; cbn zeta; rewrite ?E.
  - apply Nat.leb_le in E. rewrite length_app in E.
    rewrite (proj2 (Z.leb_le _ _)) by lia.
    rewrite (print_line_holds _ _ _ _ H3) by (rewrite length_take; lia).
    destruct (print_result fuel e TWARN too_long); done.
  - apply Nat.leb_gt in E as E'. rewrite length_app in E'.
    rewrite (proj2 (Z.leb_gt _ _)) by lia. rewrite (take_ge (p ++ msg)) in H3 by (rewrite length_app; lia).
    unfold msg_errno. destruct (errno_info e ttype) as [[s n]|].
    + rewrite (print_errno _ _ (p ++ msg)); [|done|rewrite length_app; lia].
      now destruct (print_result fuel e TWARN too_long).
    + rewrite app_nil_r, E. rewrite (print_line_holds _ _ _ _ H3) by (rewrite length_app; lia).
      unfold line_of. rewrite take_ge by (rewrite length_app; lia). done.
Qed.

Lemma print_result_closed fuel e ttype msg :
  res_name ttype <> None -> (length (msg_head e) <= 900)%nat ->
  print_result (S (S fuel)) e ttype msg =
    let long := (1022 <=? length (full_line e ttype msg))%nat in
    Printed ((if long then [line_of (full_line e TWARN too_long)] else [])
               ++ [line_of (full_line e ttype msg)])
            (if long then 1 else 0).
Proof.
  intros Hres Hhead. rewrite print_result_step by done. cbn zeta.
  destruct (1022 <=? length (full_line e ttype msg))%nat; [|done].
  rewrite print_result_step by done. cbn zeta.
  pose proof (tag_length e TWARN) as Htag.
  assert (He : msg_errno e TWARN = []) by done.
  assert (Hlen : (length (full_line e TWARN too_long) <= 956)%nat).
  { unfold full_line. rewrite He, app_nil_r.
    destruct (1022 <=? _)%nat; rewrite !length_app; cbn [length too_long]; cbn; lia. }
  rewrite (proj2 (Nat.leb_gt 1022 _)) by lia. done.
Qed.

(** ** Properties *)

(** [print_result] never writes outside its buffer and does not recurse more than once
    (file names up to 900 bytes): it writes the place, the result, the
    message and the errno text as one line cut at 1022 bytes; when it is that long, a line
    saying so comes first and one warning is counted. *)
Theorem print_result_lines fuel e ttype msg :
  res_name ttype <> None -> (length (msg_head e) <= 900)%nat ->
  print_result (S (S fuel)) e ttype msg =
    let long := (1022 <=? length (full_line e ttype msg))%nat in
    Printed ((if long then [line_of (full_line e TWARN too_long)] else [])
               ++ [line_of (full_line e ttype msg)])
            (if long then 1 else 0).
Proof. apply print_result_closed. Qed.

Definition sample_env : msg_env := {|
  me_file := §"fork01.c"; me_lineno := 42; me_strerrno := fun _ => §"ENOENT"; me_errno := 2;
  me_TST_ERR := 0; me_TST_RET := 0; me_color := false |}.

Lemma print_result_lines_witness :
  print_result 2 sample_env (Z.lor TFAIL TERRNO) §"open()" =
    Printed [§"fork01.c:42: FAIL: open(): ENOENT (2)" ++ [LF]] 0 /\
  (exists l1 l2, print_result 2 sample_env TPASS (replicate 1100 "x"%char) = Printed [l1; l2] 1).
Proof.
  split.
  - refine (print_result_lines 0 sample_env (Z.lor TFAIL TERRNO) §"open()" _ _);
      [discriminate|apply Nat.leb_le; reflexivity].
  - eexists _, _.
    refine (print_result_lines 0 sample_env TPASS (replicate 1100 "x"%char) _ _);
      [discriminate|apply Nat.leb_le; reflexivity].
Defined.

Lemma lor_zero a b : Z.lor a b = 0 <-> a = 0 /\ b = 0.
Proof. apply Z.lor_eq_0_iff. Qed.

Lemma do_exit_zero_iff r ret :
  do_exit (Some r) ret = 0 <->
  failed r = 0 /\ warnings r = 0 /\
  (ret = 0 /\ (passed r <> 0 \/ skipped r = 0) \/ ret = TCONF /\ passed r <> 0).
Proof.
  unfold do_exit.
  destruct (passed r =? 0) eqn:Ep, (failed r =? 0) eqn:Ef, (skipped r =? 0) eqn:Es,
    (warnings r =? 0) eqn:Ew, (ret =? TCONF) eqn:Er; cbn [negb andb];
    rewrite ?lor_zero; zbool; unfold TCONF, TFAIL, TWARN in *; lia.
Qed.

(** The exit status is 0 exactly when nothing failed, nothing warned, the
    test was not broken, and something passed or nothing was skipped. *)
Theorem do_exit_success r ret :
  do_exit (Some r) ret = 0 <->
  failed r = 0 /\ warnings r = 0 /\
  (ret = 0 /\ (passed r <> 0 \/ skipped r = 0) \/ ret = TCONF /\ passed r <> 0).
Proof. apply do_exit_zero_iff. Qed.

Lemma has_flag_lor a b f : has_flag (Z.lor a b) f = has_flag a f || has_flag b f.
Proof.
  unfold has_flag. rewrite Z.land_lor_distr_l.
  destruct (Z.land a f =? 0) eqn:E1, (Z.land b f =? 0) eqn:E2; zbool; cbn [negb orb];
    [rewrite E1, E2; done|..]; apply negb_true_iff, Z.eqb_neq; rewrite lor_zero; tauto.
Qed.

Lemma do_exit_all_flags r ret :
  has_flag (do_exit (Some r) ret) TFAIL = negb (failed r =? 0) || has_flag ret TFAIL /\
  has_flag (do_exit (Some r) ret) TWARN = negb (warnings r =? 0) || has_flag ret TWARN /\
  has_flag (do_exit (Some r) ret) TBROK = has_flag ret TBROK /\
  (skipped r <> 0 -> passed r = 0 -> has_flag (do_exit (Some r) ret) TCONF = true).
Proof.
  unfold do_exit.
  destruct (passed r =? 0) eqn:Ep, (failed r =? 0) eqn:Ef, (skipped r =? 0) eqn:Es,
    (warnings r =? 0) eqn:Ew, (ret =? TCONF) eqn:Er; cbn [negb andb];
    zbool; subst; rewrite ?has_flag_lor;
    change (has_flag TFAIL TFAIL) with true; change (has_flag TWARN TWARN) with true;
    change (has_flag TCONF TCONF) with true; change (has_flag TWARN TFAIL) with false;
    change (has_flag TCONF TFAIL) with false; change (has_flag TFAIL TWARN) with false;
    change (has_flag TCONF TWARN) with false; change (has_flag TFAIL TBROK) with false;
    change (has_flag TCONF TBROK) with false; change (has_flag TWARN TBROK) with false;
    rewrite ?orb_true_r, ?orb_false_r; repeat split; try done; intros; try lia.
Qed.

(** Every kind of result shows in the exit status: failures as TFAIL,
    warnings as TWARN, skips without a pass as TCONF, a broken test as
    TBROK. *)
Theorem do_exit_flags r ret :
  has_flag (do_exit (Some r) ret) TFAIL = negb (failed r =? 0) || has_flag ret TFAIL /\
  has_flag (do_exit (Some r) ret) TWARN = negb (warnings r =? 0) || has_flag ret TWARN /\
  has_flag (do_exit (Some r) ret) TBROK = has_flag ret TBROK /\
  (skipped r <> 0 -> passed r = 0 -> has_flag (do_exit (Some r) ret) TCONF = true).
Proof. apply do_exit_all_flags. Qed.
