(* ===== verification/TstSetup.v ===== *)
(** The start and the end of a test program (lib/tst_test.c): parsing of numbers
    and options, the checks of [do_setup], the resources it takes, and
    [do_cleanup], which gives them back. *)
From Stdlib Require Import Ascii String ZArith Lia Bool.
From stdpp Require Import base list sets numbers.
From S2P Require Import Prelude CString TstRes.

Local Open Scope Z_scope.

(** ** Numbers *)

Definition EINVAL : Z := 22.
Definition ERANGE : Z := 34.

(** [tst_parse_long(str, val, min, max)]: the return value and what is stored
    in [*val], if anything. *)
Definition tst_parse_long (str : option cstr) (min max : Z) : Z * option Z :=
  match str with
  | None => (0, None)
  | Some s =>
      let '(rval, rest, erange) := strtol 10 s in
      if (length rest =? length s)%nat || negb (length rest =? 0)%nat then (EINVAL, None)
      else if erange then (ERANGE, None)
      else if (max <? rval) || (rval <? min) then (ERANGE, None)
      else (0, Some rval)
  end.

Definition tst_parse_int (str : option cstr) (min max : Z) : Z * option Z :=
  match str with
  | None => (0, None)
  | Some _ =>
      match tst_parse_long str min max with
      | (0, Some rval) => (0, Some (s32 rval))
      | (ret, _) => (ret, None)
      end
  end.

(** ** Options *)

Record tst_option := { optstr : cstr; opt_help : cstr }.

(** The options of the library. *)
Definition options : list tst_option :=
  [ {| optstr := §"h"; opt_help := §"-h       Prints this help" |};
    {| optstr := §"i:"; opt_help := §"-i n     Execute test n times" |};
    {| optstr := §"I:"; opt_help := §"-I x     Execute test for n seconds" |};
    {| optstr := §"C:"; opt_help := §"-C ARG   Run child process with ARG arguments (used internally)" |} ].

Definition opt_char (o : tst_option) : ascii := match optstr o with c :: _ => c | [] => NUL end.

(** [check_option_collision]: the help text of the option that collides. *)
Fixpoint check_option_collision (toptions : list tst_option) : option cstr :=
  match toptions with
  | [] => None
  | o :: r =>
      match List.find (fun lo => ceqb (opt_char o) (opt_char lo)) options with
      | Some lo => Some (opt_help lo)
      | None => check_option_collision r
      end
  end.

Definition count_options (toptions : list tst_option) : nat := length toptions.

(** The option string of [getopt] and the size of the array it is built in. *)
Definition getopt_str (toptions : list tst_option) : cstr :=
  flat_map optstr options ++ flat_map optstr toptions.

Definition getopt_size (toptions : list tst_option) : nat :=
  2 * length options + 2 * count_options toptions.

(** What the options set: [iterations], the argument of [-I], and for each
    option of the test its [*arg] (NULL at first). *)
Record optvals := {
  iterations : Z;
  duration : option cstr;
  args : list (option cstr);
  opt_warnings : nat                  (* options passed multiple times *)
}.

Inductive opt_result :=
| OptOk (v : optvals)
| OptExit                             (* -h *)
| OptBrk (msg : string)
| OptOverflow.                        (* optstr written past its end *)

(** [parse_topt]: the first option of the test with this character. *)
Fixpoint parse_topt (toptions : list tst_option) (opt : ascii) (optarg : option cstr)
    (args : list (option cstr)) : option (list (option cstr) * bool) :=
  match toptions, args with
  | o :: r, a :: ar =>
      if ceqb (opt_char o) opt
      then Some (Some (match optarg with Some x => x | None => [] end) :: ar,
                 match a with Some _ => true | None => false end)
      else match parse_topt r opt optarg ar with
           | Some (ar', w) => Some (a :: ar', w)
           | None => None
           end
  | _, _ => None
  end.

(** The loop over the answers of [getopt]: the option character ('?' for an
    error) and [optarg]. *)
Fixpoint parse_loop (toptions : list tst_option) (opts : list (ascii * option cstr))
    (v : optvals) : opt_result :=
  match opts with
  | [] => OptOk v
  | (opt, optarg) :: r =>
      let arg := match optarg with Some x => x | None => [] end in
      if ceqb opt "?" then OptBrk "Invalid option"
      else if ceqb opt "h" then OptExit
      else if ceqb opt "i" then
        parse_loop toptions r {| iterations := atoi arg; duration := duration v;
                                 args := args v; opt_warnings := opt_warnings v |}
      else if ceqb opt "I" then
        parse_loop toptions r {| iterations := iterations v; duration := Some arg;
                                 args := args v; opt_warnings := opt_warnings v |}
      else if ceqb opt "C" then parse_loop toptions r v
      else match parse_topt toptions opt optarg (args v) with
           | None => OptBrk "Invalid option (should not happen)"
           | Some (args', again) =>
               parse_loop toptions r
                 {| iterations := iterations v; duration := duration v; args := args';
                    opt_warnings := opt_warnings v + if again : bool then 1 else 0 |}
           end
  end.

Definition parse_opts (toptions : list tst_option) (opts : list (ascii * option cstr))
    (extra : option cstr) : opt_result :=
  match check_option_collision toptions with
  | Some _ => OptBrk "Option collision"
  | None =>
      if (getopt_size toptions <? S (length (getopt_str toptions)))%nat then OptOverflow
      else
        match parse_loop toptions opts
                {| iterations := 1; duration := None;
                   args := replicate (count_options toptions) None; opt_warnings := 0 |} with
        | OptOk v => match extra with
                     | Some _ => OptBrk "Unexpected argument(s)"
                     | None => OptOk v
                     end
        | r => r
        end
  end.

(** ** The name of the test *)

Definition get_tid (argv0 : option cstr) : cstr :=
  match argv0 with
  | None | Some [] => §"ltp_empty_argv"
  | Some s => match strrchr s "/" with Some (_ :: r) => r | _ => s end
  end.

(** ** The test description *)

(** The fields of [struct tst_test] that set-up looks at; function pointers by
    whether they are set. *)
Record tst_test := mkTest {
  tcnt : Z;
  toptions : list tst_option;
  t_test : bool;
  t_test_all : bool;
  t_sample : bool;
  tconf_msg : bool;
  needs_kconfigs : bool;
  needs_root : bool;
  min_kver : bool;
  needs_drivers : list cstr;
  needs_tmpdir_flag : bool;
  needs_device : bool;
  needs_checkpoints : bool;
  needs_overlay : bool;
  format_device : bool;
  mount_device : bool;
  needs_rofs : bool;
  child_needs_reinit : bool;
  needs_devfs : bool;
  all_filesystems : bool;
  mntpoint : option cstr;
  resource_files : option (list cstr);
  request_hugepages : bool;
  bufs : bool;
  save_restore : list cstr;
  restore_wallclock : bool
}.

Definition set_device (t : tst_test) (needs format : bool) : tst_test :=
  mkTest (tcnt t) (toptions t) (t_test t) (t_test_all t) (t_sample t) (tconf_msg t)
    (needs_kconfigs t) (needs_root t) (min_kver t) (needs_drivers t) (needs_tmpdir_flag t)
    needs (needs_checkpoints t) (needs_overlay t) format (mount_device t) (needs_rofs t)
    (child_needs_reinit t) (needs_devfs t) (all_filesystems t) (mntpoint t) (resource_files t)
    (request_hugepages t) (bufs t) (save_restore t) (restore_wallclock t).

(** [tst_timer_test_setup]: a sampling test becomes a test of so many cases
    with options of its own. *)
Definition timer_setup (t : tst_test) (timer_tcnt : Z) (timer_options : list tst_option) : tst_test :=
  mkTest timer_tcnt timer_options true (t_test_all t) false (tconf_msg t)
    (needs_kconfigs t) (needs_root t) (min_kver t) (needs_drivers t) (needs_tmpdir_flag t)
    (needs_device t) (needs_checkpoints t) (needs_overlay t) (format_device t) (mount_device t)
    (needs_rofs t) (child_needs_reinit t) (needs_devfs t) (all_filesystems t) (mntpoint t)
    (resource_files t) (request_hugepages t) (bufs t) (save_restore t) (restore_wallclock t).

Definition is_some {A} (o : option A) : bool := match o with Some _ => true | None => false end.

Definition needs_tmpdir (t : tst_test) : bool :=
  needs_tmpdir_flag t || needs_device t || is_some (mntpoint t) || is_some (resource_files t)
  || needs_checkpoints t.

(** [assert_test_fn]: the message it breaks with. *)
Definition assert_test_fn (t : tst_test) : option string :=
  let cnt := (if t_test t then 1 else 0) + (if t_test_all t then 1 else 0)
             + (if t_sample t then 1 else 0) in
  if cnt =? 0 then Some "No test function speficied"%string
  else if negb (cnt =? 1) then Some "You can define only one test function"%string
  else if t_test t && (tcnt t =? 0) then Some "Number of tests (tcnt) must be > 0"%string
  else if negb (t_test t) && negb (tcnt t =? 0)
  then Some "You can define tcnt only for test()"%string
  else None.

(** ** The world of set-up *)

(** What a test program holds of the system. *)
Inductive resource := RShmFile | RShmMap | RTmpdir | RMount | RDevice | ROverlay | RClock.

#[export] Instance resource_eq_dec : EqDecision resource.
Proof. solve_decision. Defined.

(** The answers of the system: [true] is success. *)
Record setup_env := {
  se_kconfig : bool;
  se_root : bool;
  se_kver : bool;
  se_driver : cstr -> bool;
  se_shm : bool;                      (* /dev/shm is there *)
  se_ipc_open : bool;
  se_ipc_chmod : bool;
  se_ipc_trunc : bool;
  se_ipc_mmap : bool;
  se_ipc_unlink : bool;
  se_tmpdir : bool;                   (* tst_tmpdir makes a directory *)
  se_mkdir_mnt : bool;
  se_nodev : bool;                    (* the directory is mounted nodev *)
  se_devfs_mount : bool;
  se_ro_mount : bool -> bool;         (* the first mount: of a device or tmpfs *)
  se_ro_fill : bool -> bool;          (* mkdir, file and chmod below it *)
  se_ro_remount : bool -> bool;
  se_acquire : bool;
  se_mkfs : bool;
  se_mount : bool;
  se_overlay : bool;
  se_copy : cstr -> bool;
  se_hugepages : option Z;            (* what tst_request_hugepages breaks with *)
  se_bufs : bool;
  se_sys_conf : cstr -> option Z;     (* what tst_sys_conf_save breaks with *)
  se_wallclock : option Z;
  se_timer_tcnt : Z;
  se_timer_options : list tst_option
}.

(** The variables of the library and what is really held. *)
Record setup_state := mkSetup {
  test : tst_test;
  ipc_results : bool;                 (* results != NULL *)
  shm_path_set : bool;
  tmpdir_created : bool;
  mntpoint_mounted : bool;
  tdev_dev : bool;                    (* tdev.dev != NULL *)
  ovl_mounted : bool;
  clock_saved : bool;
  held : list resource
}.

Definition set_test s v := mkSetup v (ipc_results s) (shm_path_set s) (tmpdir_created s) (mntpoint_mounted s) (tdev_dev s) (ovl_mounted s) (clock_saved s) (held s).
Definition set_results s v := mkSetup (test s) v (shm_path_set s) (tmpdir_created s) (mntpoint_mounted s) (tdev_dev s) (ovl_mounted s) (clock_saved s) (held s).
Definition set_shm_path s v := mkSetup (test s) (ipc_results s) v (tmpdir_created s) (mntpoint_mounted s) (tdev_dev s) (ovl_mounted s) (clock_saved s) (held s).
Definition set_tmpdir s v := mkSetup (test s) (ipc_results s) (shm_path_set s) v (mntpoint_mounted s) (tdev_dev s) (ovl_mounted s) (clock_saved s) (held s).
Definition set_mounted s v := mkSetup (test s) (ipc_results s) (shm_path_set s) (tmpdir_created s) v (tdev_dev s) (ovl_mounted s) (clock_saved s) (held s).
Definition set_tdev s v := mkSetup (test s) (ipc_results s) (shm_path_set s) (tmpdir_created s) (mntpoint_mounted s) v (ovl_mounted s) (clock_saved s) (held s).
Definition set_ovl s v := mkSetup (test s) (ipc_results s) (shm_path_set s) (tmpdir_created s) (mntpoint_mounted s) (tdev_dev s) v (clock_saved s) (held s).
Definition set_clock s v := mkSetup (test s) (ipc_results s) (shm_path_set s) (tmpdir_created s) (mntpoint_mounted s) (tdev_dev s) (ovl_mounted s) v (held s).
Definition set_held s v := mkSetup (test s) (ipc_results s) (shm_path_set s) (tmpdir_created s) (mntpoint_mounted s) (tdev_dev s) (ovl_mounted s) (clock_saved s) v.

(** Set-up code: it goes on, breaks the test with a result type, exits, or
    writes past the option string. *)
Inductive step (A : Type) :=
| Go (a : A) (s : setup_state)
| Brk (ttype : Z) (s : setup_state)
| Exit (code : Z) (s : setup_state)
| OptsOverflow.
Arguments Go {A}.
Arguments Brk {A}.
Arguments Exit {A}.
Arguments OptsOverflow {A}.

Definition SetupM (A : Type) : Type := setup_state -> step A.

Definition go {A} (a : A) : SetupM A := fun s => Go a s.
Definition bindS {A B} (m : SetupM A) (f : A -> SetupM B) : SetupM B := fun s =>
  match m s with
  | Go a s' => f a s'
  | Brk t s' => Brk t s'
  | Exit c s' => Exit c s'
  | OptsOverflow => OptsOverflow
  end.
Definition brk {A} (ttype : Z) : SetupM A := fun s => Brk ttype s.
Definition exitS {A} (code : Z) : SetupM A := fun s => Exit code s.
Definition getS : SetupM setup_state := fun s => Go s s.
Definition modS (f : setup_state -> setup_state) : SetupM unit := fun s => Go tt (f s).
Definition whenS (b : bool) (m : SetupM unit) : SetupM unit := if b then m else go tt.

Declare Scope setup_scope.
Delimit Scope setup_scope with setup.
Bind Scope setup_scope with SetupM.
Notation "x <- m ;; k" := (bindS m (fun x => k))
  (at level 100, m at next level, right associativity) : setup_scope.
Notation "m ;; k" := (bindS m (fun _ => k)) (at level 100, right associativity) : setup_scope.
Local Open Scope setup_scope.

(** A SAFE_ call: TBROK when it fails; a call that may break the test with a
    type of its own. *)
Definition safe (ok : bool) : SetupM unit := if ok then go tt else brk TBROK.
Definition may_brk (b : option Z) : SetupM unit :=
  match b with Some ttype => brk ttype | None => go tt end.

Fixpoint remove1 (r : resource) (l : list resource) : list resource :=
  match l with
  | [] => []
  | q :: l' => if bool_decide (q = r) then l' else q :: remove1 r l'
  end.

(** Take a resource and note it in the variables. *)
Definition hold (r : resource) (note : setup_state -> setup_state) : SetupM unit :=
  modS (fun s => note (set_held s (r :: held s))).
Definition release (r : resource) (s : setup_state) : setup_state :=
  set_held s (remove1 r (held s)).

(** ** Set-up *)

Section Setup.
Variable e : setup_env.

(** [tst_tmpdir]. *)
Definition tst_tmpdir : SetupM unit :=
  safe (se_tmpdir e) ;; hold RTmpdir (fun s => set_tmpdir s true).

Definition setup_ipc : SetupM unit :=
  s <- getS ;;
  whenS (negb (se_shm e) && negb (tmpdir_created s)) tst_tmpdir ;;
  modS (fun s => set_shm_path s true) ;;
  safe (se_ipc_open e) ;; hold RShmFile (fun s => s) ;;
  safe (se_ipc_chmod e) ;;
  safe (se_ipc_trunc e) ;;
  safe (se_ipc_mmap e) ;; hold RShmMap (fun s => set_results s true) ;;
  if needs_checkpoints (test s) || child_needs_reinit (test s) then go tt
  else (safe (se_ipc_unlink e) ;; modS (release RShmFile)).

(** [prepare_and_mount_ro_fs], of the device or of a tmpfs: whether it
    failed. *)
Definition prepare_and_mount_ro_fs (dev : bool) : SetupM bool :=
  if negb (se_ro_mount e dev) then go true
  else
    hold RMount (fun s => set_mounted s true) ;;
    safe (se_ro_fill e dev) ;;
    safe (se_ro_remount e dev) ;;
    go false.

Definition prepare_and_mount_dev_fs : SetupM unit :=
  whenS (se_nodev e)
    (safe (se_devfs_mount e) ;; hold RMount (fun s => set_mounted s true)).

Definition prepare_device : SetupM unit :=
  s <- getS ;;
  whenS (format_device (test s)) (safe (se_mkfs e)) ;;
  if needs_rofs (test s) then (_ <- prepare_and_mount_ro_fs true ;; go tt)
  else whenS (mount_device (test s))
         (safe (se_mount e) ;; hold RMount (fun s => set_mounted s true)).

(** The checks of [do_setup] before anything is taken. *)
Definition setup_checks (opts : list (ascii * option cstr)) (extra : option cstr) : SetupM optvals :=
  s <- getS ;;
  whenS (tconf_msg (test s)) (brk TCONF) ;;
  whenS (needs_kconfigs (test s)) (if se_kconfig e then go tt else brk TCONF) ;;
  match assert_test_fn (test s) with Some _ => brk TBROK | None => go tt end ;;
  whenS (t_sample (test s))
    (modS (fun s => set_test s (timer_setup (test s) (se_timer_tcnt e) (se_timer_options e)))) ;;
  s <- getS ;;
  v <- match parse_opts (toptions (test s)) opts extra with
       | OptOk v => go v
       | OptExit => exitS 0
       | OptBrk _ => brk TBROK
       | OptOverflow => fun _ => OptsOverflow
       end ;;
  whenS (needs_root (test s)) (if se_root e then go tt else brk TCONF) ;;
  whenS (min_kver (test s)) (if se_kver e then go tt else brk TCONF) ;;
  if forallb (se_driver e) (needs_drivers (test s)) then go v else brk TCONF.

(** Which flags imply a device. *)
Definition imply_device (t : tst_test) : tst_test :=
  let t := if format_device t then set_device t true (format_device t) else t in
  let t := if mount_device t then set_device t true true else t in
  if all_filesystems t then set_device t true (format_device t) else t.

Definition count_true (l : list bool) : nat := length (List.filter (fun b => b) l).

(** The device of the test. *)
Definition setup_device : SetupM unit :=
  s <- getS ;;
  whenS (needs_device (test s) && negb (mntpoint_mounted s))
    ((if se_acquire e then go tt else brk TCONF) ;;
     hold RDevice (fun s => set_tdev s true) ;;
     whenS (negb (all_filesystems (test s))) prepare_device).

Definition setup_overlay : SetupM unit :=
  s <- getS ;;
  whenS (needs_overlay (test s) && negb (mount_device (test s))) (brk TBROK) ;;
  whenS (needs_overlay (test s) && negb (mntpoint_mounted s)) (brk TBROK) ;;
  whenS (needs_overlay (test s) && negb (ovl_mounted s))
    (safe (se_overlay e) ;; hold ROverlay (fun s => set_ovl s true)).

(** The first of a list of calls that breaks the test. *)
Definition first_brk (f : cstr -> option Z) (l : list cstr) : option Z :=
  head (omap f l).

(** The end of [do_setup]: the resource files and the clock. *)
Definition setup_end (v : optvals) : SetupM optvals :=
  s <- getS ;;
  match resource_files (test s) with
  | Some l => safe (forallb (se_copy e) l)
  | None => go tt
  end ;;
  whenS (restore_wallclock (test s))
    (may_brk (se_wallclock e) ;; hold RClock (fun s => set_clock s true)) ;;
  go v.

(** From the temporary directory on. *)
Definition setup_rest (v : optvals) : SetupM optvals :=
  s <- getS ;;
  whenS (needs_tmpdir (test s) && negb (tmpdir_created s)) tst_tmpdir ;;
  may_brk (first_brk (se_sys_conf e) (save_restore (test s))) ;;
  whenS (is_some (mntpoint (test s))) (safe (se_mkdir_mnt e)) ;;
  whenS ((needs_devfs (test s) || needs_rofs (test s) || mount_device (test s)
          || all_filesystems (test s)) && negb (is_some (mntpoint (test s)))) (brk TBROK) ;;
  whenS (1 <? Z.of_nat (count_true [needs_rofs (test s); needs_devfs (test s);
                                    needs_device (test s)])) (brk TBROK) ;;
  (whenS (needs_devfs (test s)) prepare_and_mount_dev_fs ;;
   whenS (needs_rofs (test s))
     (failed <- prepare_and_mount_ro_fs false ;;
      whenS failed (modS (fun s => set_test s (set_device (test s) true true))))) ;;
  setup_device ;;
  setup_overlay ;;
  setup_end v.

Definition do_setup (opts : list (ascii * option cstr)) (extra : option cstr) : SetupM optvals :=
  v <- setup_checks opts extra ;;
  modS (fun s => set_test s (imply_device (test s))) ;;
  s <- getS ;;
  whenS (request_hugepages (test s)) (may_brk (se_hugepages e)) ;;
  setup_ipc ;;
  whenS (bufs (test s)) (safe (se_bufs e)) ;;
  setup_rest v.

(** [cleanup_ipc]: the shared file is unlinked if it is there. *)
Definition cleanup_ipc (s : setup_state) : setup_state :=
  let s := if shm_path_set s then release RShmFile s else s in
  if ipc_results s then set_results (release RShmMap s) false else s.

(** [tst_rmdir]: without /dev/shm the shared file is in the directory. *)
Definition tst_rmdir (s : setup_state) : setup_state :=
  let s := release RTmpdir s in
  if se_shm e then s else release RShmFile s.

Definition do_cleanup (s : setup_state) : setup_state :=
  let s := if ovl_mounted s then release ROverlay s else s in
  let s := if mntpoint_mounted s then release RMount s else s in
  let s := if needs_device (test s) && tdev_dev s then release RDevice s else s in
  let s := if tmpdir_created s then tst_rmdir s else s in
  let s := if restore_wallclock (test s) && clock_saved s
           then set_clock (release RClock s) false else s in
  cleanup_ipc s.
End Setup.

(** ** What is held and what the library believes *)

Definition opt_res (b : bool) (r : resource) : list resource := if b then [r] else [].

(** The resources the variables of the library stand for. *)
Definition known (s : setup_state) : list resource :=
  opt_res (ipc_results s) RShmMap ++ opt_res (tmpdir_created s) RTmpdir
  ++ opt_res (mntpoint_mounted s) RMount ++ opt_res (tdev_dev s) RDevice
  ++ opt_res (ovl_mounted s) ROverlay ++ opt_res (clock_saved s) RClock.

(** Everything held is known, and the shared file, if it is there: its path is
    known then; a device was asked for, a clock to be restored as well. *)
Definition held_ok (file : bool) (s : setup_state) : Prop :=
  held s ≡ₚ opt_res file RShmFile ++ known s /\
  (file = true -> shm_path_set s = true) /\
  (tdev_dev s = true -> needs_device (test s) = true) /\
  (clock_saved s = true -> restore_wallclock (test s) = true).

Lemma remove1_perm r l l' : l ≡ₚ r :: l' -> remove1 r l ≡ₚ l'.
Proof.
  revert l'. induction l as [|q l IH]; intros l' H; [now apply Permutation_nil_cons in H|].
  cbn. destruct (decide (q = r)) as [->|Hne].
  - rewrite bool_decide_true by done. now apply (Permutation_cons_inv (a := r)).
  - rewrite bool_decide_false by done.
    assert (Hin : q ∈ r :: l') by (rewrite <- H; constructor).
    apply elem_of_cons in Hin as [->|Hin]; [done|].
    apply elem_of_Permutation in Hin as [k Hk]. rewrite Hk. f_equiv. apply IH.
    apply (Permutation_cons_inv (a := q)). rewrite H, Hk. apply perm_swap.
Qed.

#[export] Instance remove1_proper r : Proper ((≡ₚ) ==> (≡ₚ)) (remove1 r).
Proof.
  intros l l' H. destruct (decide (r ∈ l)) as [Hin|Hout].
  - apply elem_of_Permutation in Hin as [k Hk].
    rewrite (remove1_perm r l k Hk). symmetry. apply remove1_perm. now rewrite <- H.
  - assert (Hsame : forall m, r ∉ m -> remove1 r m = m).
    { induction m as [|q m IH]; intros Hm; [done|]. apply not_elem_of_cons in Hm as [H1 H2]. cbn.
      rewrite bool_decide_false by congruence. now rewrite IH. }
    rewrite !Hsame; [done| |done]. now rewrite <- H.
Qed.

(** [do_cleanup] gives back everything, whatever was taken. *)
Lemma do_cleanup_releases e file s : held_ok file s -> held (do_cleanup e s) = [].
Proof.
  intros (Hp & Hf & Hdev & Hclk). apply Permutation_nil_r. symmetry.
  destruct s as [t res path tmp mnt dev ovl clk h]. cbn in *.
  unfold do_cleanup, cleanup_ipc, tst_rmdir, release.
  assert (Hd : needs_device t && dev = dev) by (destruct dev; [now rewrite Hdev|apply andb_false_r]).
  assert (Hc : restore_wallclock t && clk = clk)
    by (destruct clk; [now rewrite Hclk|apply andb_false_r]).
  assert (Hfile : path = false -> file = false)
    by (intros ->; destruct file; [now specialize (Hf eq_refl)|done]).
  destruct ovl, mnt; cbn; rewrite Hd; destruct dev; cbn; destruct tmp, (se_shm e); cbn; rewrite Hc;
    destruct clk; cbn; destruct path, res; cbn; rewrite Hp; try rewrite Hfile by done;
    destruct file; done.
Qed.

(** ** Set-up keeps track of what it holds *)

(** From [s], the code goes on with [Q], breaks the test in a state that can be
    cleaned up, or exits with nothing held. *)
Definition tracks {A} (m : SetupM A) (Q : A -> setup_state -> Prop) (s : setup_state) : Prop :=
  match m s with
  | Go a s' => Q a s'
  | Brk _ s' => exists file, held_ok file s'
  | Exit _ s' => held s' = []
  | OptsOverflow => exists l opts extra, parse_opts l opts extra = OptOverflow
  end.

Lemma tracks_bind {A B} (m : SetupM A) (f : A -> SetupM B) Q s :
  tracks m (fun a s' => tracks (f a) Q s') s -> tracks (bindS m f) Q s.
Proof. unfold tracks, bindS. destruct (m s); done. Qed.

Lemma tracks_mono {A} (m : SetupM A) (Q Q' : A -> setup_state -> Prop) s :
  tracks m Q s -> (forall a s', Q a s' -> Q' a s') -> tracks m Q' s.
Proof. unfold tracks. destruct (m s); auto. Qed.

Lemma tracks_get (Q : setup_state -> setup_state -> Prop) s : Q s s -> tracks getS Q s.
Proof. done. Qed.

Lemma tracks_mod f (Q : unit -> setup_state -> Prop) s : Q tt (f s) -> tracks (modS f) Q s.
Proof. done. Qed.

Lemma tracks_when b m (Q : unit -> setup_state -> Prop) s :
  (b = true -> tracks m Q s) -> (b = false -> Q tt s) -> tracks (whenS b m) Q s.
Proof. destruct b; intros H1 H2; [exact (H1 eq_refl)|exact (H2 eq_refl)]. Qed.

Lemma tracks_safe file b (Q : unit -> setup_state -> Prop) s :
  held_ok file s -> Q tt s -> tracks (safe b) Q s.
Proof. destruct b; [done|]. exists file. done. Qed.

Lemma tracks_may_brk file b (Q : unit -> setup_state -> Prop) s :
  held_ok file s -> Q tt s -> tracks (may_brk b) Q s.
Proof. destruct b; [|done]. exists file. done. Qed.

(** A check that breaks the test. *)
Lemma tracks_check file b (Q : unit -> setup_state -> Prop) t s :
  held_ok file s -> (b = false -> Q tt s) -> tracks (whenS b (brk t)) Q s.
Proof. destruct b; intros H1 H2; [now exists file|exact (H2 eq_refl)]. Qed.

(** Taking what is not yet held keeps the variables and the world together. *)
Lemma held_ok_hold file r s s' :
  shm_path_set s' = shm_path_set s ->
  held s' = r :: held s -> known s' ≡ₚ r :: known s ->
  (tdev_dev s' = true -> needs_device (test s') = true) ->
  (clock_saved s' = true -> restore_wallclock (test s') = true) ->
  held_ok file s -> held_ok file s'.
Proof.
  intros H1 H2 H3 H4 H5 (Hp & Hf & _ & _). split; [|split; [rewrite H1; exact Hf|done]].
  rewrite H2, H3, Hp. apply Permutation_middle.
Qed.

Definition same {A} (f : setup_state -> A) (s s' : setup_state) : Prop := f s' = f s.

(** The variables an operation leaves alone. *)
Definition after_ipc s := (mntpoint_mounted s, tdev_dev s, ovl_mounted s, clock_saved s, test s).
Definition after_tmpdir s := (ipc_results s, after_ipc s).
Definition after_mount s := (tdev_dev s, ovl_mounted s, clock_saved s, test s).
Definition after_device s := (ovl_mounted s, clock_saved s, test s).
Definition after_overlay s := (clock_saved s, test s).

(** Close the goals of [held_ok_hold]: one variable of the state is [false]. *)
Ltac hold_tac r s H :=
  apply (held_ok_hold _ r s);
    [reflexivity|reflexivity| |cbn; first [apply H|done]|cbn; first [apply H|done]|exact H];
  destruct s; cbn in *; subst; unfold known; cbn; rewrite <- ?Permutation_middle; reflexivity.

Section Tracks.
Variable e : setup_env.

Lemma tracks_tmpdir file s :
  held_ok file s -> tmpdir_created s = false ->
  tracks (tst_tmpdir e) (fun _ s' => held_ok file s' /\ same after_tmpdir s s') s.
Proof.
  intros H Ht. apply tracks_bind, (tracks_safe file); [done|]. split; [|done].
  hold_tac RTmpdir s H.
Qed.

Lemma tracks_setup_ipc s :
  held_ok false s -> ipc_results s = false ->
  tracks (setup_ipc e) (fun _ s' => (exists file, held_ok file s') /\ same after_ipc s s') s.
Proof.
  intros H Hi. apply tracks_bind, tracks_get, tracks_bind.
  eapply tracks_mono with (Q := fun _ s1 => held_ok false s1 /\ same after_tmpdir s s1).
  { apply tracks_when; [|done]. intros Hb. apply andb_true_iff in Hb as [_ Hb%negb_true_iff].
    now apply tracks_tmpdir. }
  intros _ s1 [H1 F1]. injection F1 as F1 F2 F3 F4 F5 F6.
  apply tracks_bind, tracks_mod. set (s2 := set_shm_path s1 true).
  assert (H2 : held_ok false s2) by (destruct H1 as (? & _ & ?); done).
  apply tracks_bind, (tracks_safe false); [done|]. apply tracks_bind, tracks_mod.
  set (s3 := set_held s2 _).
  assert (H3 : held_ok true s3) by (destruct H2 as (Hp & _ & ?); split; [exact (perm_skip RShmFile Hp)|done]).
  do 3 (apply tracks_bind, (tracks_safe true); [done|]). apply tracks_bind, tracks_mod.
  set (s4 := set_results _ true). assert (H4 : held_ok true s4).
  { assert (Hi3 : ipc_results s3 = false) by (cbn; congruence). hold_tac RShmMap s3 H3. }
  assert (F7 : same after_ipc s s4) by (unfold same, after_ipc; cbn; congruence).
  destruct (_ || _); [split; [now exists true|done]|].
  apply tracks_bind, (tracks_safe true); [done|]. apply tracks_mod. split; [|done].
  exists false. destruct H4 as (Hp & _ & H4). split; [exact (remove1_perm RShmFile (held s4) _ Hp)|done].
Qed.

Lemma tracks_ro_fs file dev s :
  held_ok file s -> mntpoint_mounted s = false ->
  tracks (prepare_and_mount_ro_fs e dev)
    (fun failed s' => held_ok file s' /\ same after_mount s s' /\
                      (failed = true -> mntpoint_mounted s' = false)) s.
Proof.
  intros H Hm. unfold prepare_and_mount_ro_fs. destruct (negb (se_ro_mount e dev)); [done|].
  apply tracks_bind, tracks_mod. set (s1 := set_mounted _ true).
  assert (H1 : held_ok file s1) by hold_tac RMount s H.
  do 2 (apply tracks_bind, (tracks_safe file); [done|]). done.
Qed.

Lemma tracks_mount file b s :
  held_ok file s -> mntpoint_mounted s = false ->
  tracks (safe b ;; hold RMount (fun s => set_mounted s true))
    (fun _ s' => held_ok file s' /\ same after_mount s s') s.
Proof.
  intros H Hm. apply tracks_bind, (tracks_safe file); [done|]. apply tracks_mod. split; [|done].
  hold_tac RMount s H.
Qed.

Lemma tracks_prepare_device file s :
  held_ok file s -> mntpoint_mounted s = false ->
  tracks (prepare_device e) (fun _ s' => held_ok file s' /\ same after_mount s s') s.
Proof.
  intros H Hm. apply tracks_bind, tracks_get, tracks_bind. apply tracks_when.
  all: intros _; try (apply (tracks_safe file); [done|]).
  all: destruct (needs_rofs (test s));
    [apply tracks_bind; eapply tracks_mono; [now apply (tracks_ro_fs file)|];
     intros _ s' (H1 & H2 & _); done
    |apply tracks_when; intros _; [now apply tracks_mount|done]].
Qed.

Lemma tracks_setup_device file s :
  held_ok file s -> tdev_dev s = false ->
  tracks (setup_device e) (fun _ s' => held_ok file s' /\ same after_device s s') s.
Proof.
  intros H Hd. apply tracks_bind, tracks_get, tracks_when; [|done].
  intros Hb. apply andb_true_iff in Hb as [Hn Hm%negb_true_iff].
  apply tracks_bind. destruct (se_acquire e); [|now exists file].
  apply tracks_bind, tracks_mod. set (s1 := set_tdev _ true).
  assert (H1 : held_ok file s1) by hold_tac RDevice s H.
  apply tracks_when; [|done]. intros _.
  eapply tracks_mono; [now apply (tracks_prepare_device file)|]. intros _ s' [H2 F2].
  injection F2 as F3 F4 F5 F6. split; [done|]. unfold same, after_device. cbn in *. congruence.
Qed.

Lemma tracks_setup_overlay file s :
  held_ok file s ->
  tracks (setup_overlay e) (fun _ s' => held_ok file s' /\ same after_overlay s s') s.
Proof.
  intros H. apply tracks_bind, tracks_get.
  do 2 (apply tracks_bind, (tracks_check file); [done|]; intros _).
  apply tracks_when; [|done]. intros Hb. apply andb_true_iff in Hb as [_ Ho%negb_true_iff].
  apply tracks_bind, (tracks_safe file); [done|]. apply tracks_mod. split; [|done].
  hold_tac ROverlay s H.
Qed.
(** Nothing taken yet. *)
Definition untouched (s : setup_state) : Prop :=
  ipc_results s = false /\ mntpoint_mounted s = false /\ tdev_dev s = false /\
  ovl_mounted s = false /\ clock_saved s = false /\ tmpdir_created s = false.

Lemma untouched_held s : held_ok false s -> untouched s -> held s = [].
Proof.
  intros (Hp & _) (U1 & U2 & U3 & U4 & U5 & U6). apply Permutation_nil_r. symmetry.
  rewrite Hp. unfold known. now rewrite U1, U2, U3, U4, U5, U6.
Qed.

Lemma held_ok_test file s t :
  held_ok file s -> tdev_dev s = false -> clock_saved s = false -> held_ok file (set_test s t).
Proof.
  intros (H1 & H2 & _ & _) Hd Hc. split; [done|]. split; [done|]. cbn. now rewrite Hd, Hc.
Qed.

Lemma tracks_setup_checks opts extra s :
  held_ok false s -> untouched s ->
  tracks (setup_checks e opts extra) (fun _ s' => held_ok false s' /\ untouched s') s.
Proof.
  intros H Hu. pose proof Hu as (_ & _ & Hd & _ & Hc & _).
  unfold setup_checks. apply tracks_bind, tracks_get.
  apply tracks_bind, (tracks_check false); [done|]. intros _.
  apply tracks_bind, tracks_when; intros _; [destruct (se_kconfig e); [|now exists false]|].
  all: apply tracks_bind; destruct (assert_test_fn (test s)); [now exists false|].
  all: apply tracks_bind.
  all: eapply tracks_mono with (Q := fun _ s' => held_ok false s' /\ untouched s');
    [apply tracks_when; [intros _; apply tracks_mod; split; [now apply held_ok_test|done]|done]|].
  all: intros _ s1 [H1 U1]; apply tracks_bind, tracks_get, tracks_bind.
  all: destruct (parse_opts (toptions (test s1)) opts extra) eqn:Ep;
    [|now apply untouched_held|now exists false|exact (ex_intro _ _ (ex_intro _ _ (ex_intro _ _ Ep)))].
  all: apply tracks_bind, tracks_when; intros _; [destruct (se_root e); [|now exists false]|].
  all: apply tracks_bind, tracks_when; intros _; [destruct (se_kver e); [|now exists false]|].
  all: destruct (forallb _ _); [done|now exists false].
Qed.

(** The mounts of [needs_devfs] and [needs_rofs], of which one at most is
    set. *)
Lemma tracks_special_fs file s s0 :
  held_ok file s -> mntpoint_mounted s = false -> tdev_dev s = false -> clock_saved s = false ->
  needs_devfs (test s0) && needs_rofs (test s0) = false ->
  tracks (whenS (needs_devfs (test s0)) (prepare_and_mount_dev_fs e) ;;
          whenS (needs_rofs (test s0))
            (failed <- prepare_and_mount_ro_fs e false ;;
             whenS failed (modS (fun s => set_test s (set_device (test s) true true)))))
    (fun _ s' => held_ok file s' /\ tdev_dev s' = false /\
                 ovl_mounted s' = ovl_mounted s /\ clock_saved s' = false) s.
Proof.
  intros H Hm Hd Hc Hx. apply tracks_bind, tracks_when; intros Edev.
  - rewrite Edev in Hx. cbn in Hx. rewrite Hx. apply tracks_when; intros _; [|done].
    eapply tracks_mono; [now apply (tracks_mount file)|]. intros _ s1 [H1 F1].
    injection F1 as F1 F2 F3 F4. apply tracks_when; [done|]. intros _. split; [done|].
    split; [congruence|]. split; congruence.
  - apply tracks_when; intros _; [|done]. apply tracks_bind.
    eapply tracks_mono; [now apply (tracks_ro_fs file)|]. intros failed s1 (H1 & F1 & Hf).
    injection F1 as F1 F2 F3 F4. apply tracks_when; intros _.
    + apply tracks_mod. split; [apply held_ok_test; congruence|]. cbn. split; [congruence|split; congruence].
    + split; [done|]. split; [congruence|split; congruence].
Qed.

Lemma count_true_two a b c : (1 <? Z.of_nat (count_true [a; b; c])) = false -> b && a = false.
Proof. destruct a, b, c; done. Qed.

(** The end of [do_setup]. *)
Lemma tracks_setup_end file v s :
  held_ok file s -> clock_saved s = false ->
  tracks (setup_end e v) (fun _ s' => exists file, held_ok file s') s.
Proof.
  intros H Hc. unfold setup_end. apply tracks_bind, tracks_get, tracks_bind.
  eapply tracks_mono with (Q := fun _ s' => s' = s).
  { destruct (resource_files (test s)); [|done]. now apply (tracks_safe file). }
  intros _ s' ->. apply tracks_bind, tracks_when; [|now exists file]. intros Hw.
  apply tracks_bind, (tracks_may_brk file); [done|]. apply tracks_mod. exists file.
  hold_tac RClock s H.
Qed.

(** [do_setup] from the temporary directory on. *)
Lemma tracks_setup_rest file v s :
  held_ok file s -> mntpoint_mounted s = false -> tdev_dev s = false ->
  ovl_mounted s = false -> clock_saved s = false ->
  tracks (setup_rest e v) (fun _ s' => exists file, held_ok file s') s.
Proof.
  intros H Hm Hd Ho Hc. unfold setup_rest. apply tracks_bind, tracks_get, tracks_bind.
  eapply tracks_mono with (Q := fun _ s1 => held_ok file s1 /\ same after_tmpdir s s1).
  { apply tracks_when; [|done]. intros Hb. apply andb_true_iff in Hb as [_ Hb%negb_true_iff].
    now apply tracks_tmpdir. }
  intros _ s1 [H1 F1]. injection F1 as _ F1 F2 F3 F4 _.
  apply tracks_bind, (tracks_may_brk file); [done|].
  apply tracks_bind. apply tracks_when; intros _; [apply (tracks_safe file); [done|]|];
  (apply tracks_bind, (tracks_check file); [done|]; intros _);
  (apply tracks_bind, (tracks_check file); [done|]; intros Hcount%count_true_two);
  (apply tracks_bind; eapply tracks_mono;
     [apply (tracks_special_fs file s1 s); [done|congruence|congruence|congruence|done]|]);
  intros _ s2 (H2 & Hd2 & Ho2 & Hc2);
  (apply tracks_bind; eapply tracks_mono; [now apply (tracks_setup_device file)|]);
  intros _ s3 [H3 F3'];
  (apply tracks_bind; eapply tracks_mono; [now apply (tracks_setup_overlay file)|]);
  intros _ s4 [H4 F4']; injection F3' as _ F3b _; injection F4' as F4a _;
  apply (tracks_setup_end file); congruence.
Qed.

Lemma tracks_do_setup opts extra s :
  held_ok false s -> untouched s ->
  tracks (do_setup e opts extra) (fun _ s' => exists file, held_ok file s') s.
Proof.
  intros H Hu. unfold do_setup. apply tracks_bind.
  eapply tracks_mono; [now apply tracks_setup_checks|]. intros v s1 [H1 (U1 & U2 & U3 & U4 & U5 & U6)].
  apply tracks_bind, tracks_mod. set (s2 := set_test s1 _).
  assert (H2 : held_ok false s2) by now apply held_ok_test.
  apply tracks_bind, tracks_get, tracks_bind, tracks_when; intros _;
    [apply (tracks_may_brk false); [done|]|];
  (apply tracks_bind; eapply tracks_mono; [now apply (tracks_setup_ipc s2)|]);
  intros _ s3 [[file H3] F3]; injection F3 as F3a F3b F3c F3d F3e;
  (apply tracks_bind, tracks_when; intros _; [apply (tracks_safe file); [done|]|]);
  apply (tracks_setup_rest file); congruence.
Qed.
End Tracks.

(** ** Properties *)

(** The state a test program starts in. *)
Definition setup_init (t : tst_test) : setup_state :=
  mkSetup t false false false false false false false [].

Lemma setup_init_ok t : held_ok false (setup_init t) /\ untouched (setup_init t).
Proof. repeat split; done. Qed.


Lemma getopt_str_length l :
  length (getopt_str l) = (7 + length (flat_map optstr l))%nat.
Proof. unfold getopt_str. now rewrite length_app. Qed.

(** The option string of [parse_opts] fits in its array exactly when the
    options of the test have at most two characters on average; with
    one- and two-character options (a letter, or a letter and a colon) it always
    does. *)
Theorem parse_opts_fits l opts extra :
  check_option_collision l = None ->
  (parse_opts l opts extra = OptOverflow <->
   (2 * count_options l < length (flat_map optstr l))%nat) /\
  (Forall (fun o => (length (optstr o) <= 2)%nat) l -> parse_opts l opts extra <> OptOverflow).
Proof.
  intros Hc.
  assert (Hiff : parse_opts l opts extra = OptOverflow <->
    (2 * count_options l < length (flat_map optstr l))%nat).
  { unfold parse_opts. rewrite Hc, getopt_str_length. unfold getopt_size.
    destruct (_ <? _)%nat eqn:E.
    - apply Nat.ltb_lt in E. cbn [length options] in E. split; [lia|done].
    - apply Nat.ltb_ge in E. cbn [length options] in E. split; [|lia].
      assert (Hl : forall o v, parse_loop l o v <> OptOverflow).
      { induction o as [|[c a] o IH]; intros v; cbn [parse_loop]; [done|].
        repeat case_if; try done. destruct (parse_topt _ _ _ _) as [[? ?]|]; done. }
      destruct (parse_loop l opts _) eqn:El; try done; [destruct extra; done|].
      intros _. now apply Hl in El. }
  split; [exact Hiff|]. intros Hl. rewrite Hiff. clear -Hl. unfold count_options.
  induction Hl as [|o l Ho _ IH]; [cbn; lia|]. cbn [flat_map length]. rewrite length_app. lia.
Qed.

Lemma parse_opts_fits_witness :
  parse_opts [ {| optstr := §"v"; opt_help := §"-v" |}; {| optstr := §"m:"; opt_help := §"-m x" |} ]
    [("m"%char, Some §"7"); ("i"%char, Some §"3")] None <> OptOverflow.
Proof.
  apply (parse_opts_fits [ {| optstr := §"v"; opt_help := §"-v" |};
                           {| optstr := §"m:"; opt_help := §"-m x" |} ]); [reflexivity|].
  repeat constructor.
Defined.

(** [tst_parse_long] accepts exactly what is written by [%ld] of a number in the
    range: it stores that number, and for a number outside the
    range or with text after it stores nothing and returns an error. *)
Theorem tst_parse_long_roundtrip z r min max :
  LONG_MIN <= z <= LONG_MAX -> ends_number 10 r ->
  tst_parse_long (Some (fmt_d z ++ r)) min max =
    if negb (length r =? 0)%nat then (EINVAL, None)
    else if (min <=? z) && (z <=? max) then (0, Some z) else (ERANGE, None).
Proof.
  intros Hz Hr. unfold tst_parse_long. rewrite strtol_fmt_d by done.
  rewrite (proj2 (Nat.eqb_neq (length r) _)).
  2: { rewrite length_app. pose proof (fmt_nat_nonnil 10) as Hne. unfold fmt_d.
       case_if; cbn [length]; [lia|]. specialize (Hne z).
       destruct (fmt_nat 10 z); [done|cbn; lia]. }
  cbn [orb]. destruct (negb (length r =? 0)%nat); [done|].
  destruct (min <=? z) eqn:E1, (z <=? max) eqn:E2; zbool; cbn [andb]; zcases; done.
Qed.

Lemma tst_parse_long_roundtrip_witness :
  tst_parse_long (Some §"-42") (-100) 100 = (0, Some (-42)) /\
  tst_parse_long (Some §"7s") 0 10 = (EINVAL, None).
Proof.
  split.
  - apply (tst_parse_long_roundtrip (-42) [] (-100) 100); [|done]. split; discriminate.
  - apply (tst_parse_long_roundtrip 7 §"s" 0 10); [|done]. split; discriminate.
Defined.
