(* ===== verification/TstRun.v ===== *)
(** The run of a test (lib/tst_test.c): the test process with the children it
    forks, which report into the same counters, and the library process that
    forks it, waits for it and makes the exit status.

    A test function is what it does to the library: the list of its calls.  A
    child runs concurrently with its parent; the counters are incremented
    atomically, so an execution is a sequence of steps of the processes in any
    order. *)
From Stdlib Require Import Ascii String ZArith Lia Bool.
From stdpp Require Import base list sets numbers relations.
From S2P Require Import Prelude CString PanOS TstRes.

Local Open Scope Z_scope.

(** ** Reports *)

Record report := mkReport { rp_env : msg_env; rp_ttype : Z; rp_msg : cstr }.

(** [tst_res] on the counters. *)
Definition tst_res (r : results) (p : report) : results :=
  match (tst_vres_ 2 (rp_env p) (Some r) (rp_ttype p) (rp_msg p)).2 with
  | Some r' => r'
  | None => r
  end.

(** A report with a result type and a file name of ordinary length. *)
Definition report_ok (p : report) : Prop :=
  res_name (rp_ttype p) <> None /\ (length (msg_head (rp_env p)) <= 900)%nat.

(** ** Processes *)

(** What a child does: it reports, breaks, exits, or is killed; at the end of the test
    function it exits with 0. *)
Inductive kcall :=
| KRes (p : report)
| KBrk (p : report)
| KExit (code : Z)
| KKilled (sig : Z).

Inductive call :=
| CRes (p : report)
| CBrk (p : report)
| CFork (kid : list kcall)
| CReap.                              (* tst_reap_children *)

(** A child that was not waited for: what it has left to do, or its wait
    status. *)
Inductive kid :=
| Running (l : list kcall)
| Zombie (status : Z).

(** [check_child_status]: what the test is broken with. *)
Definition check_child_status (status : Z) : option Z :=
  if WIFSIGNALED status then Some TBROK
  else if negb (WIFEXITED status) then Some TBROK
  else
    let ret := WEXITSTATUS status in
    if ret =? TPASS then None
    else if (ret =? TBROK) || (ret =? TCONF) then Some ret
    else Some TBROK.

(** The wait status of [exit(code)]. *)
Definition exited (code : Z) : Z := Z.shiftl (Z.land code 255) 8.

(** [tst_brk] on the counters: only the warning about a long message counts. *)
Definition tst_brk_counts (r : results) (p : report) : results :=
  match print_result 2 (rp_env p) (rp_ttype p) (rp_msg p) with
  | Printed _ w => match add_warnings w (Some r) with Some r' => r' | None => r end
  | _ => r
  end.

(** ** Interleaved execution *)

(** The test process: in the test function; in [tst_reap_children], before
    going on with the function or, at its end, in [run_tests]; done; broken. *)
Inductive phase :=
| InTest (l : list call)
| Reaping (next : option (list call))
| Done
| Broken (ttype : Z).

Record proc := mkProc { ph : phase; res : results; kids : list kid }.

(** A step of a child: its new state and the counters. *)
Definition kid_step (k : list kcall) (r : results) : kid * results :=
  match k with
  | [] => (Zombie (exited 0), r)
  | KRes p :: k' => (Running k', tst_res r p)
  | KBrk p :: _ => (Zombie (exited (TTYPE_RESULT (rp_ttype p))), tst_brk_counts r p)
  | KExit c :: _ => (Zombie (exited c), r)
  | KKilled sig :: _ => (Zombie sig, r)
  end.

Inductive pstep : proc -> proc -> Prop :=
| ps_res p l r ks :
    pstep (mkProc (InTest (CRes p :: l)) r ks) (mkProc (InTest l) (tst_res r p) ks)
| ps_brk p l r ks :
    pstep (mkProc (InTest (CBrk p :: l)) r ks)
          (mkProc (Broken (TTYPE_RESULT (rp_ttype p))) (tst_brk_counts r p) ks)
| ps_fork k l r ks :
    pstep (mkProc (InTest (CFork k :: l)) r ks) (mkProc (InTest l) r (Running k :: ks))
| ps_reap l r ks :
    pstep (mkProc (InTest (CReap :: l)) r ks) (mkProc (Reaping (Some l)) r ks)
| ps_end r ks :
    pstep (mkProc (InTest []) r ks) (mkProc (Reaping None) r ks)
| ps_wait next r ks1 st ks2 :
    check_child_status st = None ->
    pstep (mkProc (Reaping next) r (ks1 ++ Zombie st :: ks2)) (mkProc (Reaping next) r (ks1 ++ ks2))
| ps_wait_bad next r ks1 st ks2 t :
    check_child_status st = Some t ->
    pstep (mkProc (Reaping next) r (ks1 ++ Zombie st :: ks2)) (mkProc (Broken t) r (ks1 ++ ks2))
| ps_reaped next r :
    pstep (mkProc (Reaping next) r [])
          (mkProc (match next with Some l => InTest l | None => Done end) r [])
| ps_kid f r ks1 k ks2 :
    pstep (mkProc f r (ks1 ++ Running k :: ks2))
          (mkProc f (kid_step k r).2 (ks1 ++ (kid_step k r).1 :: ks2)).

(** ** One schedule *)

(** The schedule in which a child runs as soon as it is forked. *)
Fixpoint run_kid (k : list kcall) (r : results) : results * Z :=
  match k with
  | [] => (r, exited 0)
  | KRes p :: k' => run_kid k' (tst_res r p)
  | KBrk p :: _ => (tst_brk_counts r p, exited (TTYPE_RESULT (rp_ttype p)))
  | KExit c :: _ => (r, exited c)
  | KKilled sig :: _ => (r, sig)
  end.

(** [tst_reap_children] on the statuses of the children. *)
Definition tst_reap_children (sts : list Z) : option Z := head (omap check_child_status sts).

Fixpoint run_fn (l : list call) (r : results) (sts : list Z) : option Z * results :=
  match l with
  | [] => (tst_reap_children sts, r)
  | CRes p :: l' => run_fn l' (tst_res r p) sts
  | CBrk p :: _ => (Some (TTYPE_RESULT (rp_ttype p)), tst_brk_counts r p)
  | CFork k :: l' => let '(r', st) := run_kid k r in run_fn l' r' (st :: sts)
  | CReap :: l' =>
      match tst_reap_children sts with
      | Some t => (Some t, r)
      | None => run_fn l' r []
      end
  end.

(** [run_tests] on the test functions: what the test is broken with, and the
    counters. *)
Fixpoint run_tests (fs : list (list call)) (r : results) : option Z * results :=
  match fs with
  | [] => (None, r)
  | l :: fs' =>
      match run_fn l r [] with
      | (Some t, r') => (Some t, r')
      | (None, r') => if results_equal r r' then (Some TBROK, r') else run_tests fs' r'
      end
  end.

(** [do_test_cleanup]: a [tst_brk] in it ([true]) is a warning and returns. *)
Fixpoint do_test_cleanup (l : list (bool * report)) (r : results) : results :=
  match l with
  | [] => r
  | (brk, p) :: l' =>
      let r' := if brk : bool
                then match (tst_cvres 2 (rp_env p) (Some r) (rp_ttype p) (rp_msg p)).2 with
                     | Some r' => r' | None => r end
                else tst_res r p in
      do_test_cleanup l' r'
  end.

(** [setup()]: it is over at a [tst_brk] ([true]). *)
Fixpoint do_test_setup (l : list (bool * report)) (r : results) : option Z * results :=
  match l with
  | [] => (None, r)
  | (true, p) :: _ => (Some (TTYPE_RESULT (rp_ttype p)), tst_brk_counts r p)
  | (false, p) :: l' => do_test_setup l' (tst_res r p)
  end.

(** A test program: its set-up, its cleanup, and the test functions of each
    iteration. *)
Record program := {
  pg_setup : list (bool * report);
  pg_cleanup : list (bool * report);
  pg_tests : nat -> list (list call)
}.

(** The loop of [testrun]: [i] iterations done; [before k] says whether the
    clock is before [stop_time] at its [k]th reading.  [None] when the fuel is
    used up. *)
Fixpoint test_loop (fuel : nat) (iterations : Z) (before : nat -> bool) (pg : program)
    (i k : nat) (r : results) : option (option Z * results) :=
  match fuel with
  | O => None
  | S fuel =>
      let more := Z.of_nat i <? u32 iterations in
      if more || before k then
        match run_tests (pg_tests pg k) r with
        | (Some t, r') => Some (Some t, r')
        | (None, r') => test_loop fuel iterations before pg (if more then S i else i) (S k) r'
        end
      else Some (None, r)
  end.

(** [testrun]: the wait status of the test process and the counters; a broken
    test is cleaned up before it exits. *)
Definition testrun (fuel : nat) (iterations : Z) (before : nat -> bool) (pg : program)
    (r : results) : option (Z * results) :=
  let finish code r := Some (exited code, do_test_cleanup (pg_cleanup pg) r) in
  match do_test_setup (pg_setup pg) r with
  | (Some t, r') => finish t r'
  | (None, r') =>
      match test_loop fuel iterations before pg 0 0 r' with
      | None => None
      | Some (Some t, r'') => finish t r''
      | Some (None, r'') => finish 0 r''
      end
  end.

(** ** The library process *)

(** A forked test process: what it does to the counters, and its wait
    status. *)
Definition trial : Type := results -> results * Z.

Inductive lib_result :=
| LRet (ret : Z)
| LExit (code : Z).                   (* do_exit *)

(** [fork_testrun] after the wait. *)
Definition fork_testrun (run : trial) (r : results) : lib_result * results :=
  let '(r', status) := run r in
  if WIFEXITED status && negb (WEXITSTATUS status =? 0) then (LRet (WEXITSTATUS status), r')
  else if WIFSIGNALED status then (LExit (do_exit (Some r') TBROK), r')
  else (LRet 0, r').

(** [run_tcases_per_fs]: a filesystem on which the device cannot be prepared
    ([false]) breaks the test. *)
Fixpoint per_fs_loop (fss : list (bool * trial)) (ret : Z) (r : results) : lib_result * results :=
  match fss with
  | [] => (LRet ret, r)
  | (prepared, run) :: fss' =>
      if negb prepared then (LExit (do_exit (Some r) TBROK), r)
      else
        match fork_testrun run r with
        | (LExit c, r') => (LExit c, r')
        | (LRet ret, r') =>
            if ret =? TCONF then
              per_fs_loop fss' ret
                (match update_results (Some r') ret with Some r'' => r'' | None => r' end)
            else if ret =? 0 then per_fs_loop fss' ret r'
            else (LExit (do_exit (Some r') ret), r')
        end
  end.

Definition run_tcases_per_fs (fss : list (bool * trial)) (r : results) : lib_result * results :=
  match fss with
  | [] => (LExit (do_exit (Some r) TCONF), r)
  | _ => per_fs_loop fss 0 r
  end.

(** A variant runs on all filesystems or once. *)
Definition run_variant (v : list (bool * trial) + trial) (r : results) : lib_result * results :=
  match v with
  | inl fss => run_tcases_per_fs fss r
  | inr run => fork_testrun run r
  end.

(** [tst_run_tcases] after [do_setup]: the exit status of the program. *)
Fixpoint tst_run_tcases (variants : list (list (bool * trial) + trial)) (ret : Z) (r : results)
    : Z * results :=
  match variants with
  | [] => (do_exit (Some r) ret, r)
  | v :: vs =>
      match run_variant v r with
      | (LExit c, r') => (c, r')
      | (LRet x, r') =>
          let ret := Z.lor ret x in
          if negb (Z.land ret (Z.lnot TCONF) =? 0) then (do_exit (Some r') ret, r')
          else tst_run_tcases vs ret r'
      end
  end.

(** ** Counting *)

(** What is added to the counters: passed, skipped, failed, warnings. *)
Record delta := mkDelta { d_pass : Z; d_skip : Z; d_fail : Z; d_warn : Z }.

Definition dzero : delta := mkDelta 0 0 0 0.
Definition dadd (a b : delta) : delta :=
  mkDelta (d_pass a + d_pass b) (d_skip a + d_skip b) (d_fail a + d_fail b) (d_warn a + d_warn b).

Lemma dadd_assoc a b c : dadd a (dadd b c) = dadd (dadd a b) c.
Proof. unfold dadd. cbn. f_equal; lia. Qed.

Lemma dadd_comm a b : dadd a b = dadd b a.
Proof. unfold dadd. cbn. f_equal; lia. Qed.

Lemma dadd_zero_l a : dadd dzero a = a.
Proof. now destruct a. Qed.

Lemma dadd_zero_r a : dadd a dzero = a.
Proof. rewrite dadd_comm. apply dadd_zero_l. Qed.

Definition add (r : results) (d : delta) : results :=
  mkResults (s32 (passed r + d_pass d)) (s32 (skipped r + d_skip d)) (s32 (failed r + d_fail d))
    (s32 (warnings r + d_warn d)) (timeout r).

(** The counters are ints. *)
Definition ints (r : results) : Prop :=
  INT_MIN <= passed r <= INT_MAX /\ INT_MIN <= skipped r <= INT_MAX /\
  INT_MIN <= failed r <= INT_MAX /\ INT_MIN <= warnings r <= INT_MAX.

Lemma s32_add_s32 x y : s32 (s32 x + y) = s32 (x + y).
Proof.
  unfold s32, swrap. change (2 ^ (32 - 1)) with 2147483648. change (2 ^ 32) with 4294967296.
  f_equal.
  replace ((x + 2147483648) mod 4294967296 - 2147483648 + y + 2147483648)
    with ((x + 2147483648) mod 4294967296 + y) by lia.
  rewrite Z.add_mod_idemp_l by lia. f_equal. lia.
Qed.

Lemma add_add r a b : add (add r a) b = add r (dadd a b).
Proof. unfold add, dadd. cbn. f_equal; rewrite s32_add_s32, Z.add_assoc; reflexivity. Qed.

Lemma add_zero r : ints r -> add r dzero = r.
Proof.
  intros (H1 & H2 & H3 & H4). destruct r. unfold add. cbn in *.
  rewrite !Z.add_0_r, !s32_small by done. done.
Qed.

Lemma add_ints r d : ints (add r d).
Proof. unfold ints, add. cbn. auto using s32_range. Qed.

(** What a report adds: its result, and a warning when its line is cut. *)
Definition cut_warns (p : report) : Z :=
  if (1022 <=? length (full_line (rp_env p) (rp_ttype p) (rp_msg p)))%nat then 1 else 0.

Definition report_delta (p : report) : delta :=
  let t := TTYPE_RESULT (rp_ttype p) in
  mkDelta (if t =? TPASS then 1 else 0) (if t =? TCONF then 1 else 0)
    (if t =? TFAIL then 1 else 0) ((if t =? TWARN then 1 else 0) + cut_warns p).

Definition brk_delta (p : report) : delta := mkDelta 0 0 0 (cut_warns p).

Lemma add_warnings_add r n : ints r ->
  add_warnings n (Some r) = Some (add r (mkDelta 0 0 0 (Z.of_nat n))).
Proof.
  revert r. induction n as [|n IH]; intros r Hr; cbn [add_warnings].
  - f_equal. symmetry. now apply add_zero.
  - assert (Hw : update_results (Some r) TWARN = Some (add r (mkDelta 0 0 0 1))).
    { cbn. f_equal. destruct Hr as (H1 & H2 & H3 & H4). unfold add. cbn.
      rewrite !Z.add_0_r, (s32_small (passed r)), (s32_small (skipped r)), (s32_small (failed r))
        by done. done. }
    rewrite Hw, IH by apply add_ints. f_equal. rewrite add_add. f_equal. unfold dadd. cbn.
    f_equal. lia.
Qed.

Lemma update_results_add r t : ints r ->
  update_results (Some r) t = Some (add r
    (mkDelta (if t =? TPASS then 1 else 0) (if t =? TCONF then 1 else 0)
       (if t =? TFAIL then 1 else 0) (if t =? TWARN then 1 else 0))).
Proof.
  intros (H1 & H2 & H3 & H4). unfold update_results, add, atomic_inc.
  destruct (Z.eqb_spec t TCONF) as [->|N1]; [|destruct (Z.eqb_spec t TPASS) as [->|N2];
    [|destruct (Z.eqb_spec t TWARN) as [->|N3]; [|destruct (Z.eqb_spec t TFAIL) as [->|N4]]]];
    rewrite ?(proj2 (Z.eqb_neq t _)) by done; cbn; rewrite ?Z.add_0_r;
    rewrite ?(s32_small (passed r)), ?(s32_small (skipped r)), ?(s32_small (failed r)),
      ?(s32_small (warnings r)) by done; try done.
  now destruct r.
Qed.

Lemma tst_res_add r p : ints r -> report_ok p -> tst_res r p = add r (report_delta p).
Proof.
  intros Hr [H1 H2]. unfold tst_res, tst_vres_. rewrite print_result_closed by done. cbn zeta.
  set (w := if (1022 <=? _)%nat then 1%nat else 0%nat). cbn [snd].
  rewrite add_warnings_add by done.
  assert (Hw : Z.of_nat w = cut_warns p) by (unfold w, cut_warns; now destruct (1022 <=? _)%nat).
  rewrite Hw, update_results_add by apply add_ints. rewrite add_add. f_equal.
  unfold dadd, report_delta. cbn. f_equal. lia.
Qed.

Lemma tst_brk_counts_add r p :
  ints r -> report_ok p -> tst_brk_counts r p = add r (brk_delta p).
Proof.
  intros Hr [H1 H2]. unfold tst_brk_counts. rewrite print_result_closed by done.
  cbv beta iota zeta. rewrite add_warnings_add by done. unfold brk_delta, cut_warns.
  now destruct (1022 <=? _)%nat.
Qed.

(** ** Every schedule counts the same *)

Fixpoint kid_total (k : list kcall) : delta :=
  match k with
  | KRes p :: k' => dadd (report_delta p) (kid_total k')
  | KBrk p :: _ => brk_delta p
  | _ => dzero
  end.

(** The wait status a child will have. *)
Fixpoint kid_status (k : list kcall) : Z :=
  match k with
  | [] => exited 0
  | KRes _ :: k' => kid_status k'
  | KBrk p :: _ => exited (TTYPE_RESULT (rp_ttype p))
  | KExit c :: _ => exited c
  | KKilled sig :: _ => sig
  end.

Fixpoint fn_total (l : list call) : delta :=
  match l with
  | [] => dzero
  | CRes p :: l' => dadd (report_delta p) (fn_total l')
  | CBrk p :: _ => brk_delta p
  | CFork k :: l' => dadd (kid_total k) (fn_total l')
  | CReap :: l' => fn_total l'
  end.

(** Neither the function nor a child of it breaks the test. *)
Definition status_good (st : Z) : bool :=
  match check_child_status st with None => true | Some _ => false end.

Definition call_good (c : call) : bool :=
  match c with CBrk _ => false | CFork k => status_good (kid_status k) | _ => true end.

Definition kcall_ok (c : kcall) : Prop :=
  match c with KRes p | KBrk p => report_ok p | _ => True end.
Definition call_ok (c : call) : Prop :=
  match c with CRes p | CBrk p => report_ok p | CFork k => Forall kcall_ok k | CReap => True end.

Definition kid_pending (k : kid) : delta :=
  match k with Running k => kid_total k | Zombie _ => dzero end.
Definition kid_good (k : kid) : bool :=
  match k with Running k => status_good (kid_status k) | Zombie st => status_good st end.
Definition kid_ok (k : kid) : Prop :=
  match k with Running k => Forall kcall_ok k | Zombie _ => True end.

Fixpoint kids_pending (ks : list kid) : delta :=
  match ks with [] => dzero | k :: ks' => dadd (kid_pending k) (kids_pending ks') end.

Definition calls_left (f : phase) : list call :=
  match f with InTest l | Reaping (Some l) => l | _ => [] end.

(** What is still to be counted. *)
Definition pending (s : proc) : delta := dadd (fn_total (calls_left (ph s))) (kids_pending (kids s)).

Definition proc_ok (s : proc) : Prop :=
  ints (res s) /\ Forall call_ok (calls_left (ph s)) /\ Forall kid_ok (kids s).

Definition proc_good (s : proc) : bool :=
  forallb call_good (calls_left (ph s)) && forallb kid_good (kids s).

Definition broken (s : proc) : bool := match ph s with Broken _ => true | _ => false end.

Lemma kids_pending_app a b : kids_pending (a ++ b) = dadd (kids_pending a) (kids_pending b).
Proof.
  induction a as [|k a IH]; cbn; [now rewrite dadd_zero_l|]. now rewrite IH, dadd_assoc.
Qed.

Lemma dadd_swap a b c : dadd a (dadd b c) = dadd b (dadd a c).
Proof. rewrite !dadd_assoc. f_equal. apply dadd_comm. Qed.

(** A child's step moves what it had to count into the counters. *)
Lemma kid_step_counts k r :
  ints r -> Forall kcall_ok k ->
  ints (kid_step k r).2 /\ kid_ok (kid_step k r).1 /\
  (forall d, add (kid_step k r).2 (dadd (kid_pending (kid_step k r).1) d) =
             add r (dadd (kid_total k) d)) /\
  kid_good (kid_step k r).1 = status_good (kid_status k).
Proof.
  intros Hr Hk. destruct k as [|[p|p|c|sig] k]; cbn [kid_step fst snd].
  - done.
  - apply Forall_cons_1 in Hk as [Hp Hk]. rewrite tst_res_add by done.
    split; [apply add_ints|]. split; [done|]. split; [|done].
    intros d. rewrite add_add. cbn [kid_pending kid_total]. now rewrite dadd_assoc.
  - apply Forall_cons_1 in Hk as [Hp Hk]. rewrite tst_brk_counts_add by done.
    split; [apply add_ints|]. split; [done|]. split; [|done].
    intros d. rewrite add_add. cbn [kid_pending kid_total]. now rewrite dadd_zero_l.
  - done.
  - done.
Qed.

(** A step that does not break the test keeps the counters plus what is still to be
    counted, and whether the test will break. *)
Lemma pstep_counts s s' :
  proc_ok s -> pstep s s' -> broken s' = false ->
  proc_ok s' /\ add (res s') (pending s') = add (res s) (pending s) /\
  (proc_good s' = true -> proc_good s = true).
Proof.
  unfold proc_ok, pending, proc_good. intros (Hr & Hc & Hk) Hstep Hb.
  destruct Hstep as [p l r ks|p l r ks|k l r ks|l r ks|r ks|next r ks1 st ks2 Hst
                    |next r ks1 st ks2 t Hst|next r|f r ks1 k ks2];
    cbn [ph res kids calls_left] in *.
  - apply Forall_cons_1 in Hc as [Hp Hc]. rewrite tst_res_add by done.
    split; [split; [apply add_ints|done]|]. split; [|done].
    rewrite add_add. cbn [fn_total]. now rewrite dadd_assoc.
  - done.
  - apply Forall_cons_1 in Hc as [Hp Hc]. split; [split; [done|]; split; [done|now constructor]|].
    cbn. split; [f_equal; now rewrite dadd_swap, dadd_assoc|].
    intros [H1 H2]%andb_true_iff. apply andb_true_iff in H2 as [H2 H3]. now rewrite H1, H2, H3.
  - apply Forall_cons_1 in Hc as [Hp Hc]. done.
  - done.
  - apply Forall_app in Hk as [Hk1 Hk2]. apply Forall_cons_1 in Hk2 as [_ Hk2].
    split; [split; [done|]; split; [done|now apply Forall_app]|].
    rewrite !kids_pending_app, !forallb_app. cbn. rewrite dadd_zero_l. split; [done|].
    unfold status_good. now rewrite Hst.
  - done.
  - destruct next; done.
  - apply Forall_app in Hk as [Hk1 Hk2]. apply Forall_cons_1 in Hk2 as [Hk0 Hk2].
    destruct (kid_step_counts k r Hr Hk0) as (K1 & K2 & K3 & K4).
    split; [split; [done|]; split; [done|]; apply Forall_app; split; [done|now constructor]|].
    rewrite !kids_pending_app, !forallb_app. cbn. rewrite K4. split; [|done].
    rewrite (dadd_swap (kids_pending ks1)), (dadd_swap _ (kid_pending _)), K3.
    f_equal. rewrite (dadd_swap (kids_pending ks1)). apply dadd_swap.
Qed.

Lemma broken_stays s s' : rtc pstep s s' -> broken s = true -> broken s' = true.
Proof.
  induction 1 as [|s s1 s' Hstep _ IH]; [done|]. intros Hb. apply IH.
  destruct Hstep; unfold broken in *; cbn in *; try done.
Qed.

Lemma run_counts s r' :
  rtc pstep s (mkProc Done r' []) -> proc_ok s ->
  r' = add (res s) (pending s) /\ proc_good s = true.
Proof.
  intros Hrun. remember (mkProc Done r' []) as fin eqn:Efin.
  induction Hrun as [s|s s1 s' Hstep Hrun IH]; intros Hok.
  - subst s. cbn. split; [|done]. symmetry. apply add_zero. apply Hok.
  - assert (Hb : broken s1 = false).
    { destruct (broken s1) eqn:E; [|done]. apply (broken_stays _ _ Hrun) in E. now subst s'. }
    destruct (pstep_counts s s1 Hok Hstep Hb) as (Hok1 & Hadd & Hgood).
    destruct (IH Efin Hok1) as [IH1 IH2]. split; [congruence|auto].
Qed.

(** ** The sequential schedule is one of them *)

Lemma run_kid_total k r :
  ints r -> Forall kcall_ok k -> run_kid k r = (add r (kid_total k), kid_status k).
Proof.
  revert r. induction k as [|[p|p|c|sig] k IH]; intros r Hr Hk; cbn [run_kid kid_total kid_status];
    rewrite ?add_zero by done; try done.
  - apply Forall_cons_1 in Hk as [Hp Hk]. rewrite tst_res_add, IH by (done || apply add_ints).
    now rewrite add_add.
  - apply Forall_cons_1 in Hk as [Hp Hk]. now rewrite tst_brk_counts_add.
Qed.

Lemma run_kid_steps k f r ks1 ks2 :
  rtc pstep (mkProc f r (ks1 ++ Running k :: ks2))
            (mkProc f (run_kid k r).1 (ks1 ++ Zombie (run_kid k r).2 :: ks2)).
Proof.
  revert r. induction k as [|[p|p|c|sig] k IH]; intros r;
    (eapply rtc_l; [apply ps_kid|]); cbn [kid_step fst snd run_kid]; [done|apply IH|done..].
Qed.

(** All children are reaped when their statuses are good. *)
Lemma reap_steps next r sts :
  tst_reap_children sts = None ->
  rtc pstep (mkProc (Reaping next) r (Zombie <$> sts))
            (mkProc (match next with Some l => InTest l | None => Done end) r []).
Proof.
  unfold tst_reap_children. induction sts as [|st sts IH]; intros H; cbn in H |- *.
  - apply rtc_once, ps_reaped.
  - destruct (check_child_status st) as [t|] eqn:E; [done|].
    eapply rtc_l; [now apply (ps_wait next r [] st)|]. now apply IH.
Qed.

Lemma run_fn_steps l r sts r' :
  run_fn l r sts = (None, r') ->
  rtc pstep (mkProc (InTest l) r (Zombie <$> sts)) (mkProc Done r' []).
Proof.
  revert r sts. induction l as [|[p|p|k|] l IH]; intros r sts; cbn [run_fn].
  - intros [= H <-]. eapply rtc_l; [apply ps_end|]. now apply (reap_steps None).
  - intros H. eapply rtc_l; [apply ps_res|]. now apply IH.
  - done.
  - destruct (run_kid k r) as [r1 st] eqn:E. intros H. eapply rtc_l; [apply ps_fork|].
    pose proof (run_kid_steps k (InTest l) r [] (Zombie <$> sts)) as Hk. rewrite E in Hk.
    etransitivity; [exact Hk|]. apply (IH r1 (st :: sts) H).
  - destruct (tst_reap_children sts) as [t|] eqn:E; [done|]. intros H.
    eapply rtc_l; [apply ps_reap|]. etransitivity; [now apply (reap_steps (Some l))|].
    now apply (IH r []).
Qed.

Lemma run_fn_total l r sts :
  ints r -> Forall call_ok l -> forallb call_good l = true -> tst_reap_children sts = None ->
  run_fn l r sts = (None, add r (fn_total l)).
Proof.
  revert r sts. induction l as [|[p|p|k|] l IH]; intros r sts Hr Hl Hg Hs; cbn [run_fn fn_total].
  - now rewrite Hs, add_zero.
  - apply Forall_cons_1 in Hl as [Hp Hl]. rewrite tst_res_add, IH by (done || apply add_ints).
    now rewrite add_add.
  - done.
  - apply Forall_cons_1 in Hl as [Hp Hl]. rewrite run_kid_total by done. cbn in Hg.
    apply andb_true_iff in Hg as [Hg1 Hg2]. rewrite IH; [now rewrite add_add|apply add_ints|done|done|].
    unfold tst_reap_children, status_good in *. cbn.
    destruct (check_child_status (kid_status k)); done.
  - apply Forall_cons_1 in Hl as [_ Hl]. rewrite Hs. now apply IH.
Qed.

(** ** Properties *)

(** C32: A test function with children that run concurrently with it ends well in some
    execution exactly when it does in the schedule that runs every child at
    its fork, and the counters are then the same in all executions: no
    report is lost and none is counted twice. *)
Theorem run_fn_all_schedules l r r' :
  ints r -> Forall call_ok l ->
  rtc pstep (mkProc (InTest l) r []) (mkProc Done r' []) <-> run_fn l r [] = (None, r').
Proof.
  intros Hr Hl. split; intros H.
  - destruct (run_counts _ _ H) as [-> Hg]; [done|]. unfold proc_good, pending in *. cbn in *.
    rewrite andb_true_r in Hg. rewrite dadd_zero_r. now apply run_fn_total.
  - now apply (run_fn_steps l r [] r').
Qed.

Definition rep (ttype : Z) : report := mkReport sample_env ttype §"msg".

Definition no_results : results := mkResults 0 0 0 0 300.

Lemma rep_ok t : res_name t <> None -> report_ok (rep t).
Proof. intros H. split; [done|]. apply Nat.leb_le. reflexivity. Qed.

Definition forking_test : list call :=
  [CFork [KRes (rep TPASS); KRes (rep TFAIL)]; CRes (rep TPASS); CFork [KRes (rep TINFO); KExit 0]].

Lemma run_fn_all_schedules_witness :
  ints no_results /\ Forall call_ok forking_test /\
  run_fn forking_test no_results [] = (None, mkResults 2 0 1 0 300) /\
  rtc pstep (mkProc (InTest forking_test) no_results [])
            (mkProc Done (mkResults 2 0 1 0 300) []).
Proof.
  assert (Hi : ints no_results) by (unfold ints, INT_MIN, INT_MAX; cbn; lia).
  assert (Hc : Forall call_ok forking_test) by (repeat constructor; try (apply rep_ok; discriminate)).
  split; [exact Hi|]. split; [exact Hc|]. split; [vm_compute; reflexivity|].
  apply (run_fn_all_schedules forking_test no_results); [exact Hi|exact Hc|vm_compute; reflexivity].
Defined.

(** What a test function must have reported: results, modulo the width of the
    counters. *)
Definition counted (d : delta) : Prop :=
  ~ (s32 (d_pass d) = 0 /\ s32 (d_fail d) = 0 /\ s32 (d_skip d) = 0).

Fixpoint fns_total (fs : list (list call)) : delta :=
  match fs with [] => dzero | l :: fs' => dadd (fn_total l) (fns_total fs') end.

Lemma s32_add_same x d : INT_MIN <= x <= INT_MAX -> (x = s32 (x + d) <-> s32 d = 0).
Proof.
  unfold s32, swrap, INT_MIN, INT_MAX. change (2 ^ (32 - 1)) with 2147483648.
  change (2 ^ 32) with 4294967296. intros Hx.
  pose proof (Z.div_mod (x + d + 2147483648) 4294967296 ltac:(lia)) as H1.
  pose proof (Z.mod_pos_bound (x + d + 2147483648) 4294967296 ltac:(lia)).
  pose proof (Z.div_mod (d + 2147483648) 4294967296 ltac:(lia)) as H2.
  pose proof (Z.mod_pos_bound (d + 2147483648) 4294967296 ltac:(lia)).
  split; intros E; nia.
Qed.

Lemma results_equal_add r d : ints r -> (results_equal r (add r d) = false <-> counted d).
Proof.
  intros (H1 & H2 & H3 & _). unfold counted, results_equal, add. cbn.
  rewrite <- (s32_add_same (passed r)), <- (s32_add_same (failed r)),
    <- (s32_add_same (skipped r)) by done.
  destruct (Z.eqb_spec (passed r) (s32 (passed r + d_pass d))); cbn [negb];
    [destruct (Z.eqb_spec (failed r) (s32 (failed r + d_fail d))); cbn [negb];
     [destruct (Z.eqb_spec (skipped r) (s32 (skipped r + d_skip d)))|]|]; cbn [negb];
    split; intros H; try done; tauto.
Qed.

Lemma run_fn_None l r r' :
  ints r -> Forall call_ok l ->
  (run_fn l r [] = (None, r') <-> forallb call_good l = true /\ r' = add r (fn_total l)).
Proof.
  intros Hr Hl. split.
  - intros H. apply run_fn_steps in H. destruct (run_counts _ _ H) as [-> Hg]; [done|].
    unfold proc_good, pending in *. cbn in *. rewrite andb_true_r in Hg. now rewrite dadd_zero_r.
  - intros [Hg ->]. now apply run_fn_total.
Qed.

(** C39: [run_tests] goes through exactly when no test function is broken and every one of them
    reported a result: passed, failed or skipped; the counters are then
    those before plus all reports.  A function that reports nothing, or only
    information and warnings, breaks the test. *)
Theorem run_tests_complete fs r r' :
  ints r -> Forall (Forall call_ok) fs ->
  (run_tests fs r = (None, r') <->
   Forall (fun l => forallb call_good l = true /\ counted (fn_total l)) fs /\
   r' = add r (fns_total fs)).
Proof.
  intros Hr Hfs. revert r Hr. induction Hfs as [|l fs Hl _ IH]; intros r Hr; cbn [run_tests fns_total].
  - rewrite add_zero by done. split; [intros [= <-]; split; [constructor|done]|].
    now intros [_ ->].
  - destruct (run_fn l r []) as [[t|] r1] eqn:E.
    + split; [done|]. intros [[[Hg _] _]%Forall_cons_1 _].
      assert (H : run_fn l r [] = (None, add r (fn_total l))) by now apply run_fn_None.
      congruence.
    + apply (run_fn_None l r r1 Hr Hl) in E as [Hg ->]. rewrite <- add_add.
      destruct (results_equal r (add r (fn_total l))) eqn:Eq.
      * split; [done|]. intros [[[_ Hc] _]%Forall_cons_1 _].
        apply (results_equal_add r (fn_total l) Hr) in Hc. congruence.
      * rewrite (IH (add r (fn_total l)) (add_ints _ _)).
        apply (results_equal_add r (fn_total l) Hr) in Eq. split.
        -- intros [Hf ->]. split; [now constructor|done].
        -- intros [[_ Hf]%Forall_cons_1 ->]. done.
Qed.

Lemma forking_test_ok : Forall call_ok forking_test.
Proof. repeat constructor; try (apply rep_ok; discriminate). Qed.

Lemma no_results_ints : ints no_results.
Proof. unfold ints, INT_MIN, INT_MAX. cbn. lia. Qed.

Lemma run_tests_complete_witness :
  run_tests [forking_test; [CRes (rep TCONF)]] no_results = (None, mkResults 2 1 1 0 300) /\
  run_tests [forking_test; [CRes (rep TINFO)]] no_results <> (None, mkResults 2 0 1 0 300).
Proof.
  split.
  - apply (run_tests_complete [forking_test; [CRes (rep TCONF)]] no_results);
      [apply no_results_ints|repeat constructor; try (apply rep_ok; discriminate)|].
    split; [|vm_compute; reflexivity]. repeat constructor; intros (H1 & H2 & H3);
      vm_compute in H1, H2, H3; discriminate.
  - rewrite (run_tests_complete [forking_test; [CRes (rep TINFO)]] no_results);
      [|apply no_results_ints|repeat constructor; try (apply rep_ok; discriminate)].
    intros [[_ [[_ Hc] _]%Forall_cons_1]%Forall_cons_1 _]. apply Hc. vm_compute. done.
Defined.

(** ** The loop of iterations *)

Lemma u32_iterations n : 0 <= n <= INT_MAX -> u32 n = n.
Proof. unfold INT_MAX. intros H. apply u32_small. lia. Qed.

Lemma test_loop_ends fuel n before pg i k r :
  0 <= n <= INT_MAX -> (forall j, before j = false) ->
  Z.of_nat i <= n -> n - Z.of_nat i < Z.of_nat fuel ->
  exists out, test_loop fuel n before pg i k r = Some out.
Proof.
  intros Hn Hb. revert i k r. induction fuel as [|fuel IH]; intros i k r Hi Hf; [lia|].
  cbn [test_loop]. rewrite Hb, orb_false_r, u32_iterations by done.
  destruct (Z.of_nat i <? n) eqn:E; zbool; [|eauto].
  destruct (run_tests (pg_tests pg k) r) as [[t|] r']; [eauto|]. apply IH; lia.
Qed.

(** What the iterations from [k] on report together. *)
Fixpoint iters_total (pg : program) (k m : nat) : delta :=
  match m with
  | O => dzero
  | S m => dadd (fns_total (pg_tests pg k)) (iters_total pg (S k) m)
  end.

Definition iteration_good (pg : program) (k : nat) : Prop :=
  Forall (Forall call_ok) (pg_tests pg k) /\
  forall r, ints r -> run_tests (pg_tests pg k) r = (None, add r (fns_total (pg_tests pg k))).

Lemma test_loop_good fuel n before pg i m r :
  0 <= n <= INT_MAX -> (forall j, before j = false) -> ints r ->
  n = Z.of_nat (i + m) -> (m < fuel)%nat ->
  (forall j, (i <= j < i + m)%nat -> iteration_good pg j) ->
  test_loop fuel n before pg i i r = Some (None, add r (iters_total pg i m)).
Proof.
  intros Hn Hb. revert i m r. induction fuel as [|fuel IH]; intros i m r Hr Hm Hf Hg; [lia|].
  cbn [test_loop]. rewrite Hb, orb_false_r, u32_iterations by done.
  destruct m as [|m]; cbn [iters_total].
  - rewrite (proj2 (Z.ltb_ge _ _)) by lia. now rewrite add_zero.
  - rewrite (proj2 (Z.ltb_lt _ _)) by lia.
    destruct (Hg i ltac:(lia)) as [_ Hgi]. rewrite (Hgi r Hr).
    rewrite (IH (S i) m); [now rewrite add_add|apply add_ints|lia|lia|].
    intros j Hj. apply Hg. lia.
Qed.

(** Without [-I] the loop of [testrun] ends after [iterations] rounds; when
    set-up succeeds and all functions of all rounds report their results, the
    test process exits with 0 and every report of every round was
    counted, then those of the cleanup. *)
Theorem testrun_iterations fuel n before pg r :
  0 <= n <= INT_MAX -> (forall j, before j = false) -> n < Z.of_nat fuel ->
  ints r -> pg_setup pg = [] ->
  (exists out, testrun fuel n before pg r = Some out) /\
  ((forall j, (j < Z.to_nat n)%nat ->
      Forall (Forall call_ok) (pg_tests pg j) /\
      Forall (fun l => forallb call_good l = true /\ counted (fn_total l)) (pg_tests pg j)) ->
   testrun fuel n before pg r =
     Some (exited 0, do_test_cleanup (pg_cleanup pg) (add r (iters_total pg 0 (Z.to_nat n))))).
Proof.
  intros Hn Hb Hf Hr Hs. unfold testrun. rewrite Hs. cbn [do_test_setup]. split.
  - destruct (test_loop_ends fuel n before pg 0 0 r) as [[[t|] r'] ->]; [done|done|lia|lia|eauto..].
  - intros Hg. rewrite (test_loop_good fuel n before pg 0 (Z.to_nat n)); [done..|lia|lia|].
    intros j Hj. destruct (Hg j ltac:(lia)) as [H1 H2]. split; [done|]. intros r0 Hr0.
    revert r0 Hr0. induction H1 as [|l fs Hl _ IH]; intros r0 Hr0; cbn [run_tests fns_total].
    + now rewrite add_zero.
    + apply Forall_cons_1 in H2 as [[Hgl Hcl] H2].
      rewrite (run_fn_total l r0 []) by done.
      rewrite (proj2 (results_equal_add r0 (fn_total l) Hr0) Hcl), <- add_add.
      apply IH; [done|apply add_ints].
Qed.

Definition sample_program : program := {|
  pg_setup := []; pg_cleanup := [(true, rep TBROK)]; pg_tests := fun _ => [forking_test] |}.

Lemma testrun_iterations_witness :
  testrun 4 3 (fun _ => false) sample_program no_results =
    Some (exited 0, mkResults 6 0 3 1 300).
Proof.
  refine (proj2 (testrun_iterations 4 3 (fun _ => false) sample_program no_results _ _ _ _ _) _).
  - split; discriminate.
  - reflexivity.
  - reflexivity.
  - apply no_results_ints.
  - reflexivity.
  - intros j _. split; [constructor; [apply forking_test_ok|constructor]|].
    repeat constructor. intros (H1 & _). vm_compute in H1. discriminate.
Defined.

(** ** The exit status of the program *)

Lemma do_exit_zero r ret :
  do_exit (Some r) ret = 0 ->
  failed r = 0 /\ warnings r = 0 /\ (passed r <> 0 \/ skipped r = 0) /\ (ret = 0 \/ ret = TCONF).
Proof. intros H. apply do_exit_zero_iff in H. unfold TCONF in *. lia. Qed.

Lemma fork_testrun_exit run r c r' :
  fork_testrun run r = (LExit c, r') -> c = do_exit (Some r') TBROK.
Proof.
  unfold fork_testrun. destruct (run r) as [r1 st].
  destruct (WIFEXITED st && _); [done|]. destruct (WIFSIGNALED st); [|done]. congruence.
Qed.

Lemma per_fs_exit fss ret r c r' :
  per_fs_loop fss ret r = (LExit c, r') -> exists x, c = do_exit (Some r') x.
Proof.
  revert ret r. induction fss as [|[prepared run] fss IH]; intros ret r; cbn [per_fs_loop]; [done|].
  destruct (negb prepared); [intros E; exists TBROK; congruence|].
  destruct (fork_testrun run r) as [[x|c1] r1] eqn:E.
  - destruct (x =? TCONF); [apply IH|]. destruct (x =? 0); [apply IH|].
    intros E1. exists x. congruence.
  - intros E1. apply fork_testrun_exit in E. exists TBROK. congruence.
Qed.

Lemma run_variant_exit v r c r' :
  run_variant v r = (LExit c, r') -> exists x, c = do_exit (Some r') x.
Proof.
  destruct v as [fss|run]; cbn [run_variant].
  - unfold run_tcases_per_fs. destruct fss as [|f fss]; [|apply per_fs_exit].
    intros E. exists TCONF. congruence.
  - intros H. apply fork_testrun_exit in H. eauto.
Qed.

(** When a test program exits with 0, nothing it reported failed or warned,
    and something passed or nothing was skipped: whatever number of variants and filesystems
    it ran on and however their test processes ended. *)
Theorem tst_run_tcases_zero vs ret r r' :
  tst_run_tcases vs ret r = (0, r') ->
  failed r' = 0 /\ warnings r' = 0 /\ (passed r' <> 0 \/ skipped r' = 0).
Proof.
  revert ret r. induction vs as [|v vs IH]; intros ret r; cbn [tst_run_tcases].
  - intros H. assert (E : do_exit (Some r) ret = 0) by congruence.
    assert (r = r') as <- by congruence. apply do_exit_zero in E. tauto.
  - destruct (run_variant v r) as [[x|c] r1] eqn:E.
    + destruct (negb _); [|exact (IH _ _)]. intros H.
      assert (E1 : do_exit (Some r1) (Z.lor ret x) = 0) by congruence.
      assert (r1 = r') as <- by congruence. apply do_exit_zero in E1. tauto.
    + intros H. injection H as -> <-. apply run_variant_exit in E as [x E]. symmetry in E.
      apply do_exit_zero in E. tauto.
Qed.

Lemma tst_run_tcases_zero_witness :
  let run r := (add r (mkDelta 3 1 0 0), exited 0) in
  let skip r := (add r (mkDelta 0 0 0 0), exited TCONF) in
  let r' := mkResults 6 3 0 0 300 in
  tst_run_tcases [inr run; inl [(true, skip); (true, run)]] 0 no_results = (0, r') /\
  failed r' = 0 /\ warnings r' = 0 /\ (passed r' <> 0 \/ skipped r' = 0).
Proof.
  intros run skip r'.
  assert (H : tst_run_tcases [inr run; inl [(true, skip); (true, run)]] 0 no_results = (0, r'))
    by (vm_compute; reflexivity).
  split; [exact H|]. exact (tst_run_tcases_zero _ 0 no_results r' H).
Defined.

(** The variants that were run through before: all of them passed or were
    skipped. *)
Inductive passes : list (list (bool * trial) + trial) -> Z -> results -> Z -> results -> Prop :=
| passes_nil ret r : passes [] ret r ret r
| passes_cons v vs ret r x r1 ret2 r2 :
    run_variant v r = (LRet x, r1) -> Z.land (Z.lor ret x) (Z.lnot TCONF) = 0 ->
    passes vs (Z.lor ret x) r1 ret2 r2 -> passes (v :: vs) ret r ret2 r2.

Lemma tst_run_tcases_app vs1 vs2 ret r ret1 r1 :
  passes vs1 ret r ret1 r1 -> tst_run_tcases (vs1 ++ vs2) ret r = tst_run_tcases vs2 ret1 r1.
Proof.
  induction 1 as [ret r|v vs ret r x r1 ret2 r2 Hv Hx _ IH]; [done|].
  cbn [app tst_run_tcases]. rewrite Hv, Hx. exact IH.
Qed.

Lemma not_skip ret x : x <> 0 -> x <> TCONF -> 0 <= x -> Z.land (Z.lor ret x) (Z.lnot TCONF) <> 0.
Proof.
  intros H0 Hc Hx H. rewrite Z.land_lor_distr_l in H. apply Z.lor_eq_0_iff in H as [_ H].
  assert (E : x = Z.land x TCONF).
  { rewrite <- (Z.lor_0_l (Z.land x TCONF)), <- H, <- Z.land_lor_distr_r, Z.lor_comm.
    rewrite Z.lor_lnot_diag. symmetry. apply Z.land_m1_r. }
  assert (Hb : x = if Z.testbit x 5 then TCONF else 0).
  { rewrite E at 1. apply Z.bits_inj'. intros n Hn. rewrite Z.land_spec.
    unfold TCONF. change 32 with (2 ^ 5). rewrite Z.pow2_bits_eqb by lia.
    destruct (Z.eqb_spec 5 n) as [<-|Hne].
    - rewrite andb_true_r. destruct (Z.testbit x 5); [now rewrite Z.pow2_bits_true|done].
    - rewrite andb_false_r. destruct (Z.testbit x 5); [now rewrite Z.pow2_bits_false|].
      now rewrite Z.bits_0. }
  destruct (Z.testbit x 5); done.
Qed.

(** A test process that is killed, by the timeout or by any other signal, breaks the
    program: TBROK is in the exit status.  One that exits with a status
    other than 0 and TCONF ends the program there, with that status and the
    flags of the counters. *)
Theorem tst_run_tcases_broken vs1 run vs2 r ret1 r1 r' st :
  passes vs1 0 r ret1 r1 -> run r1 = (r', st) -> 0 <= WEXITSTATUS st ->
  let code := (tst_run_tcases (vs1 ++ inr run :: vs2) 0 r).1 in
  (WIFSIGNALED st = true -> has_flag code TBROK = true) /\
  (WIFEXITED st = true -> WEXITSTATUS st <> 0 -> WEXITSTATUS st <> TCONF ->
   code = do_exit (Some r') (Z.lor ret1 (WEXITSTATUS st))).
Proof.
  intros Hp Hr Hst. cbn zeta. rewrite (tst_run_tcases_app _ _ _ _ _ _ Hp).
  cbn [tst_run_tcases run_variant]. unfold fork_testrun. rewrite Hr. split.
  - intros Hs. assert (He : WIFEXITED st = false).
    { unfold WIFSIGNALED, WIFEXITED in *. zbool. apply Z.eqb_neq. lia. }
    rewrite He, Hs. cbn [andb fst].
    now rewrite (proj1 (proj2 (proj2 (do_exit_all_flags r' TBROK)))).
  - intros He H0 Hc. rewrite He, (proj2 (Z.eqb_neq _ _) H0). cbn [andb negb].
    rewrite (proj2 (Z.eqb_neq _ _) (not_skip ret1 _ H0 Hc Hst)). done.
Qed.

Lemma tst_run_tcases_broken_witness :
  let ok r := (add r (mkDelta 3 1 0 0), exited 0) in
  let killed r := (add r (mkDelta 1 0 0 0), SIGKILL) in
  has_flag (tst_run_tcases [inr ok; inr killed; inr ok] 0 no_results).1 TBROK = true.
Proof.
  intros ok killed.
  refine (proj1 (tst_run_tcases_broken [inr ok] killed [inr ok] no_results 0
    (mkResults 3 1 0 0 300) (mkResults 4 1 0 0 300) SIGKILL _ _ _) _).
  - apply (passes_cons (inr ok) [] 0 no_results 0 (mkResults 3 1 0 0 300));
      [vm_compute; reflexivity|reflexivity|apply passes_nil].
  - vm_compute. reflexivity.
  - discriminate.
  - reflexivity.
Defined.

(** ** The watchdog of the library process *)

Inductive wd_signal := SigAlrm | SigUsr1.

(** [alarm_handler] and [heartbeat_handler] on [sigkill_retries]: [None] when
    the library gives up with [_exit(TFAIL)]; with the seconds of the alarm
    that is set. *)
Definition alarm_handler (sigkill_retries : Z) : option (Z * Z) :=
  let n := sigkill_retries + 1 in
  if 10 <? n then None else Some (n, 5).

Definition heartbeat_handler (results_timeout : Z) : option (Z * Z) := Some (0, results_timeout).

Fixpoint watchdog (timeout : Z) (l : list wd_signal) (retries alarm : Z) : option (Z * Z) :=
  match l with
  | [] => Some (retries, alarm)
  | s :: l' =>
      match (match s with SigAlrm => alarm_handler retries | SigUsr1 => heartbeat_handler timeout end) with
      | None => None
      | Some (n, a) => watchdog timeout l' n a
      end
  end.

(** The alarms since the last heartbeat. *)
Fixpoint silent_alarms (l : list wd_signal) (n : Z) : Z :=
  match l with
  | [] => n
  | SigAlrm :: l' => silent_alarms l' (n + 1)
  | SigUsr1 :: l' => silent_alarms l' 0
  end.

Lemma watchdog_prefix timeout l n a :
  0 <= n <= 10 ->
  (watchdog timeout l n a = None <-> exists l1 l2, l = l1 ++ l2 /\ 10 < silent_alarms l1 n).
Proof.
  revert n a. induction l as [|s l IH]; intros n a Hn; cbn [watchdog].
  - split; [done|]. intros (l1 & l2 & E & H). symmetry in E. apply app_eq_nil in E as [-> _].
    cbn in H. lia.
  - destruct s; cbn [alarm_handler heartbeat_handler].
    + unfold alarm_handler. destruct (10 <? n + 1) eqn:E; zbool.
      * split; [|done]. intros _. exists [SigAlrm], l. split; [done|]. cbn. lia.
      * rewrite (IH (n + 1) 5) by lia. split.
        -- intros (l1 & l2 & -> & H). exists (SigAlrm :: l1), l2. done.
        -- intros ([|s l1] & l2 & E1 & H); [cbn in H; lia|]. injection E1 as <- ->.
           exists l1, l2. done.
    + unfold heartbeat_handler. rewrite (IH 0 timeout) by lia. split.
      * intros (l1 & l2 & -> & H). exists (SigUsr1 :: l1), l2. done.
      * intros ([|s l1] & l2 & E1 & H); [cbn in H; lia|]. injection E1 as <- ->.
        exists l1, l2. done.
Qed.

(** The library process gives up on its test process exactly when more than ten
    alarms in a row came without a heartbeat of the test. *)
Theorem watchdog_gives_up timeout l :
  watchdog timeout l 0 timeout = None <->
  exists l1 l2, l = l1 ++ l2 /\ 10 < silent_alarms l1 0.
Proof. apply watchdog_prefix. lia. Qed.
