(* ===== verification/Effects.v ===== *)
(** A monad for C programs with global state: a computation ends with a value,
    ends the process with an exit status, or does something undefined.  The
    total-correctness predicate [ends] and its rules. *)
From Stdlib Require Import Ascii String ZArith Lia Bool.
From stdpp Require Import base list sets numbers.
From S2P Require Import Prelude.

Local Open Scope Z_scope.

Section Effects.
Context {S : Type}.

Inductive outcome (A : Type) :=
| Done (a : A) (s : S)
| Exited (code : Z) (s : S)
| Undefined.
#[global] Arguments Done {A} a s.
#[global] Arguments Exited {A} code s.
#[global] Arguments Undefined {A}.

Definition E (A : Type) : Type := S -> outcome A.

#[global] Instance E_ret : MRet E := fun A a s => Done a s.
#[global] Instance E_bind : MBind E := fun A B f m s =>
  match m s with
  | Done a s => f a s
  | Exited c s => Exited c s
  | Undefined => Undefined
  end.

Definition get : E S := fun s => Done s s.
Definition gets {A} (f : S -> A) : E A := fun s => Done (f s) s.
Definition modify (f : S -> S) : E unit := fun s => Done tt (f s).
Definition exit {A} (code : Z) : E A := fun s => Exited code s.
Definition undefined {A} : E A := fun _ => Undefined.
Definition when (b : bool) (m : E unit) : E unit := if b then m else mret tt.

(** An access that is undefined when it is out of bounds. *)
Definition require (b : bool) : E unit := if b then mret tt else undefined.

(** The computation ends with a value and a state that satisfy [Q]. *)
Definition ends {A} (m : E A) (Q : A -> S -> Prop) (s : S) : Prop :=
  match m s with
  | Done a s' => Q a s'
  | _ => False
  end.

(** If the computation ends with a value, it satisfies [Q]. *)
Definition may_end {A} (m : E A) (Q : A -> S -> Prop) (s : S) : Prop :=
  match m s with
  | Done a s' => Q a s'
  | _ => True
  end.

Lemma ends_ret {A} (a : A) Q s : Q a s -> ends (mret a) Q s.
Proof. done. Qed.

Lemma ends_bind {A B} (m : E A) (f : A -> E B) Q s :
  ends m (fun a s' => ends (f a) Q s') s -> ends (m ≫= f) Q s.
Proof. unfold ends, mbind, E_bind. now destruct (m s). Qed.

Lemma ends_mono {A} (m : E A) (Q Q' : A -> S -> Prop) s :
  ends m Q s -> (forall a s', Q a s' -> Q' a s') -> ends m Q' s.
Proof. unfold ends. destruct (m s); auto. Qed.

Lemma ends_gets {A} (f : S -> A) Q s : Q (f s) s -> ends (gets f) Q s.
Proof. done. Qed.

Lemma ends_modify f Q s : Q tt (f s) -> ends (modify f) Q s.
Proof. done. Qed.

Lemma ends_when b m Q s :
  (b = true -> ends m Q s) -> (b = false -> Q tt s) -> ends (when b m) Q s.
Proof. intros H1 H2. destruct b; [now apply H1|now apply ends_ret, H2]. Qed.

Lemma ends_require b Q s : b = true -> Q tt s -> ends (require b) Q s.
Proof. unfold require. now intros ->. Qed.

Lemma ends_Done {A} (m : E A) Q s : ends m Q s -> exists a s', m s = Done a s' /\ Q a s'.
Proof. unfold ends. destruct (m s); try done. eauto. Qed.

Lemma may_end_bind {A B} (m : E A) (f : A -> E B) Q s :
  may_end m (fun a s' => may_end (f a) Q s') s -> may_end (m ≫= f) Q s.
Proof. unfold may_end, mbind, E_bind. now destruct (m s). Qed.

Lemma may_end_mono {A} (m : E A) (Q Q' : A -> S -> Prop) s :
  may_end m Q s -> (forall a s', Q a s' -> Q' a s') -> may_end m Q' s.
Proof. unfold may_end. destruct (m s); auto. Qed.

Lemma may_end_true {A} (m : E A) s : may_end m (fun _ _ => True) s.
Proof. unfold may_end. now destruct (m s). Qed.

(** The computation ends with a value and a state that satisfy [Q], or exits with
    a status and a state that satisfy [X]. *)
Definition runs {A} (m : E A) (Q : A -> S -> Prop) (X : Z -> S -> Prop) (s : S) : Prop :=
  match m s with
  | Done a s' => Q a s'
  | Exited c s' => X c s'
  | Undefined => False
  end.

Lemma bind_Done {A B} (m : E A) (f : A -> E B) a s s' : m s = Done a s' -> (m ≫= f) s = f a s'.
Proof. unfold mbind, E_bind. now intros ->. Qed.

Lemma bind_inv_Done {A B} (m : E A) (f : A -> E B) b s s' : (m ≫= f) s = Done b s' -> exists a s1, m s = Done a s1 /\ f a s1 = Done b s'.
Proof. unfold mbind, E_bind. destruct (m s) as [a s1| |]; [|done..]. eauto. Qed.

Lemma bind_Exited {A B} (m : E A) (f : A -> E B) c s s' : m s = Exited c s' -> (m ≫= f) s = Exited c s'.
Proof. unfold mbind, E_bind. now intros ->. Qed.

Lemma runs_ret {A} (a : A) Q X s : Q a s -> runs (mret a) Q X s.
Proof. done. Qed.

Lemma runs_bind {A B} (m : E A) (f : A -> E B) Q X s :
  runs m (fun a s' => runs (f a) Q X s') X s -> runs (m ≫= f) Q X s.
Proof. unfold runs, mbind, E_bind. now destruct (m s). Qed.

Lemma runs_mono {A} (m : E A) (Q Q' : A -> S -> Prop) (X X' : Z -> S -> Prop) s :
  runs m Q X s -> (forall a s', Q a s' -> Q' a s') -> (forall c s', X c s' -> X' c s') -> runs m Q' X' s.
Proof. unfold runs. destruct (m s); auto. Qed.

Lemma runs_get Q X s : Q s s -> runs get Q X s.
Proof. done. Qed.

Lemma runs_modify f Q X s : Q tt (f s) -> runs (modify f) Q X s.
Proof. done. Qed.

Lemma runs_exit {A} c (Q : A -> S -> Prop) X s : X c s -> runs (exit c) Q X s.
Proof. done. Qed.

Lemma runs_when b m Q X s :
  (b = true -> runs m Q X s) -> (b = false -> Q tt s) -> runs (when b m) Q X s.
Proof. intros H1 H2. destruct b; [now apply H1|now apply runs_ret, H2]. Qed.

Lemma runs_require b Q X s : b = true -> Q tt s -> runs (require b) Q X s.
Proof. unfold require. now intros ->. Qed.

Lemma runs_Exited {A} (m : E A) X s : runs m (fun _ _ => False) X s -> exists c s', m s = Exited c s' /\ X c s'.
Proof. unfold runs. destruct (m s); try done. eauto. Qed.
End Effects.

Arguments outcome : clear implicits.
Arguments E : clear implicits.

(** One step through a computation. *)
Ltac estep :=
  match goal with
  | |- ends (_ ≫= _) _ _ => apply ends_bind
  | |- ends (mret _) _ _ => apply ends_ret
  | |- ends (gets _) _ _ => apply ends_gets
  | |- ends (modify _) _ _ => apply ends_modify
  | |- ends (when _ _) _ _ => apply ends_when; intros ?
  | |- ends (require _) _ _ => apply ends_require
  | |- may_end (_ ≫= _) _ _ => apply may_end_bind
  | |- runs (_ ≫= _) _ _ _ => apply runs_bind
  | |- runs (mret _) _ _ _ => apply runs_ret
  | |- runs get _ _ _ => apply runs_get
  | |- runs (modify _) _ _ _ => apply runs_modify
  | |- runs (exit _) _ _ _ => apply runs_exit
  | |- runs (when _ _) _ _ _ => apply runs_when; intros ?
  | |- runs (require _) _ _ _ => apply runs_require
  end.

(** * Parts of buffers *)

Section Buffers.
Context {A : Type}.

(** [n] elements from [off] on. *)
Definition slice (off n : Z) (l : list A) : list A := take (Z.to_nat n) (drop (Z.to_nat off) l).

(** [memcpy(l + off, bs, length bs)]. *)
Definition splice (off : Z) (bs l : list A) : list A :=
  take (Z.to_nat off) l ++ bs ++ drop (Z.to_nat off + length bs) l.

Lemma length_splice off bs l :
  0 <= off -> off + Z.of_nat (length bs) <= Z.of_nat (length l) ->
  length (splice off bs l) = length l.
Proof. intros Ho Hl. unfold splice. rewrite !length_app, length_take, length_drop. lia. Qed.

Lemma length_slice off n l :
  0 <= off -> 0 <= n -> off + n <= Z.of_nat (length l) -> length (slice off n l) = Z.to_nat n.
Proof. intros Ho Hn Hl. unfold slice. rewrite length_take, length_drop. lia. Qed.

Lemma lookup_slice off n l i :
  0 <= off -> (i < Z.to_nat n)%nat -> slice off n l !! i = l !! (Z.to_nat off + i)%nat.
Proof. intros Ho Hi. unfold slice. now rewrite lookup_take_lt, lookup_drop by done. Qed.

Lemma lookup_splice off bs l i :
  0 <= off -> off + Z.of_nat (length bs) <= Z.of_nat (length l) ->
  splice off bs l !! i =
    if decide (Z.to_nat off <= i < Z.to_nat off + length bs)%nat
    then bs !! (i - Z.to_nat off)%nat else l !! i.
Proof.
  intros Ho Hl. unfold splice. destruct (decide _) as [[H1 H2]|H].
  - rewrite lookup_app_r by (rewrite length_take; lia). rewrite length_take.
    rewrite lookup_app_l by lia. f_equal. lia.
  - destruct (decide (i < Z.to_nat off)%nat).
    + rewrite lookup_app_l by (rewrite length_take; lia). now rewrite lookup_take_lt.
    + rewrite lookup_app_r by (rewrite length_take; lia). rewrite length_take.
      rewrite lookup_app_r by lia. rewrite lookup_drop. f_equal. lia.
Qed.
End Buffers.
