(* ===== verification/Bitmask.v ===== *)
(** The bitmask library of the cpuset tests
    (testcases/kernel/controllers/cpuset/cpuset_lib/libbitmask.c): masks as
    arrays of 64-bit words, the set operations, which also work in place, and
    the hexadecimal and list formats with their parsers. *)
From Stdlib Require Import Ascii String ZArith Lia Bool.
From stdpp Require Import base list sets numbers.
From S2P Require Import Prelude CString.

Local Open Scope Z_scope.

(** ** Masks *)

Definition bitsperlong : Z := 64.
Definition howmany (x y : Z) : Z := (x + (y - 1)) / y.
Definition longsperbits (n : Z) : Z := howmany n bitsperlong.

Record bitmask := mkMask { size : Z; maskp : list Z }.

Definition word (b : bitmask) (n : Z) : Z :=
  match maskp b !! Z.to_nat (n / bitsperlong) with Some w => w | None => 0 end.

Definition _getbit (b : bitmask) (n : Z) : Z :=
  if n <? size b then Z.land (Z.shiftr (word b n) (n mod bitsperlong)) 1 else 0.

Definition _setbit (b : bitmask) (n v : Z) : bitmask :=
  if n <? size b then
    let w := if negb (v =? 0)
             then Z.lor (word b n) (Z.shiftl 1 (n mod bitsperlong))
             else Z.land (word b n) (u64 (Z.lnot (Z.shiftl 1 (n mod bitsperlong)))) in
    mkMask (size b) (<[Z.to_nat (n / bitsperlong) := w]> (maskp b))
  else b.

(** [bitmask_alloc]: [malloc] and [calloc] may fail. *)
Definition bitmask_alloc (malloc_ok calloc_ok : bool) (n : Z) : option bitmask :=
  if negb malloc_ok then None
  else if negb calloc_ok then None
  else Some (mkMask n (replicate (Z.to_nat (longsperbits n)) 0)).

(** ** Loops over the bits *)

(** [for (i = lo; ...; i++)] of [k] iterations, on the mask that is changed. *)
Fixpoint loop_up (k : nat) (i : Z) (f : bitmask -> Z -> bitmask) (b : bitmask) : bitmask :=
  match k with
  | O => b
  | S k => loop_up k (i + 1) f (f b i)
  end.

(** [for (i = k - 1; i >= 0; i--)]. *)
Fixpoint loop_down (k : nat) (f : bitmask -> Z -> bitmask) (b : bitmask) : bitmask :=
  match k with
  | O => b
  | S k => loop_down k f (f b (Z.of_nat k))
  end.

(** An operand of an operation on [bmp1]: another mask, or [bmp1] itself. *)
Inductive operand := Self | Other (b : bitmask).

Definition rd (o : operand) (cur : bitmask) : bitmask :=
  match o with Self => cur | Other b => b end.

Definition for_bits (v : bitmask -> Z -> Z) (b : bitmask) : bitmask :=
  loop_up (Z.to_nat (size b)) 0 (fun b i => _setbit b i (v b i)) b.

Definition bitmask_copy (b : bitmask) (o : operand) : bitmask :=
  for_bits (fun b i => _getbit (rd o b) i) b.
Definition bitmask_setall (b : bitmask) : bitmask := for_bits (fun _ _ => 1) b.
Definition bitmask_clearall (b : bitmask) : bitmask := for_bits (fun _ _ => 0) b.
Definition bitmask_complement (b : bitmask) (o : operand) : bitmask :=
  for_bits (fun b i => if _getbit (rd o b) i =? 0 then 1 else 0) b.
Definition bitmask_shiftright (b : bitmask) (o : operand) (n : Z) : bitmask :=
  for_bits (fun b i => _getbit (rd o b) (u32 (i + n))) b.
Definition bitmask_shiftleft (b : bitmask) (o : operand) (n : Z) : bitmask :=
  loop_down (Z.to_nat (size b)) (fun b i => _setbit b i (_getbit (rd o b) (u32 (i - n)))) b.
Definition bitmask_and (b : bitmask) (o2 o3 : operand) : bitmask :=
  for_bits (fun b i => Z.land (_getbit (rd o2 b) i) (_getbit (rd o3 b) i)) b.
Definition bitmask_andnot (b : bitmask) (o2 o3 : operand) : bitmask :=
  for_bits (fun b i => Z.land (_getbit (rd o2 b) i) (u32 (Z.lnot (_getbit (rd o3 b) i)))) b.
Definition bitmask_or (b : bitmask) (o2 o3 : operand) : bitmask :=
  for_bits (fun b i => Z.lor (_getbit (rd o2 b) i) (_getbit (rd o3 b) i)) b.
Definition bitmask_eor (b : bitmask) (o2 o3 : operand) : bitmask :=
  for_bits (fun b i => Z.lxor (_getbit (rd o2 b) i) (_getbit (rd o3 b) i)) b.

Definition bitmask_setrange (b : bitmask) (i j : Z) : bitmask :=
  loop_up (Z.to_nat (j - i)) i (fun b n => _setbit b n 1) b.
Definition bitmask_clearrange (b : bitmask) (i j : Z) : bitmask :=
  loop_up (Z.to_nat (j - i)) i (fun b n => _setbit b n 0) b.
Definition bitmask_keeprange (b : bitmask) (i j : Z) : bitmask :=
  let b := bitmask_clearrange b 0 i in bitmask_clearrange b j (size b).

Definition bitmask_setbit (b : bitmask) (i : Z) : bitmask := _setbit b i 1.
Definition bitmask_clearbit (b : bitmask) (i : Z) : bitmask := _setbit b i 0.

(** ** Queries *)

Definition bitmask_isbitset (b : bitmask) (i : Z) : bool := negb (_getbit b i =? 0).
Definition bitmask_isbitclear (b : bitmask) (i : Z) : bool := _getbit b i =? 0.
Definition bits_upto (n : Z) : list Z := seqZ 0 n.

Definition bitmask_weight (b : bitmask) : Z :=
  fold_left (fun w i => if negb (_getbit b i =? 0) then w + 1 else w) (bits_upto (size b)) 0.
Definition bitmask_isallset (b : bitmask) : bool :=
  forallb (fun i => negb (_getbit b i =? 0)) (bits_upto (size b)).
Definition bitmask_isallclear (b : bitmask) : bool :=
  forallb (fun i => _getbit b i =? 0) (bits_upto (size b)).
Definition bitmask_equal (b1 b2 : bitmask) : bool :=
  forallb (fun i => _getbit b1 i =? _getbit b2 i) (bits_upto (Z.max (size b1) (size b2))).
Definition bitmask_subset (b1 b2 : bitmask) : bool :=
  forallb (fun i => _getbit b1 i <=? _getbit b2 i) (bits_upto (size b1)).
Definition bitmask_disjoint (b1 b2 : bitmask) : bool :=
  forallb (fun i => Z.land (_getbit b1 i) (_getbit b2 i) =? 0) (bits_upto (size b1)).
Definition bitmask_intersects (b1 b2 : bitmask) : bool :=
  existsb (fun i => negb (Z.land (_getbit b1 i) (_getbit b2 i) =? 0)) (bits_upto (size b1)).

(** [bitmask_next]: the first set bit at or above [i], the size if none. *)
Fixpoint next_loop (k : nat) (b : bitmask) (n : Z) : Z :=
  match k with
  | O => n
  | S k => if n <? size b then if negb (_getbit b n =? 0) then n else next_loop k b (n + 1)
           else n
  end.
Definition bitmask_next (b : bitmask) (i : Z) : Z := next_loop (Z.to_nat (size b - i)) b i.
Definition bitmask_first (b : bitmask) : Z := bitmask_next b 0.
Definition bitmask_last (b : bitmask) : Z :=
  fold_left (fun m i => if negb (_getbit b i =? 0) then i else m) (bits_upto (size b)) (size b).

(** The position of the [n]th set bit, the size if there is none. *)
Fixpoint rel_loop (k : nat) (b : bitmask) (i n : Z) : Z :=
  match k with
  | O => i
  | S k => if negb (_getbit b i =? 0)
           then if n =? 0 then i else rel_loop k b (i + 1) (n - 1)
           else rel_loop k b (i + 1) n
  end.
Definition bitmask_rel_to_abs_pos (b : bitmask) (n : Z) : Z :=
  rel_loop (Z.to_nat (size b)) b 0 n.
Definition bitmask_abs_to_rel_pos (b : bitmask) (n : Z) : Z :=
  if _getbit b n =? 0 then size b
  else fold_left (fun w i => if negb (_getbit b i =? 0) then w + 1 else w) (bits_upto n) 0.

(** ** Writing *)

(** [len += snprintf(buf + len, MAX(buflen - len, 0), ...)] of the text [s]: the
    text in [buf] and [len]. *)
Definition append (buflen : Z) (st : cstr * Z) (s : cstr) : cstr * Z :=
  let '(out, len) := st in
  (if 0 <? buflen - len
   then take (Z.to_nat len) out ++ take (Z.to_nat (buflen - len - 1)) s else out,
   len + Z.of_nat (length s)).

Definition HEXCHUNKSZ : Z := 32.
Definition HEXCHARSZ : nat := 8.

(** The value of a chunk of 32 bits. *)
Definition chunk_val (b : bitmask) (chunk : Z) : Z :=
  fold_left (fun val bit => Z.lor (u32 (Z.shiftl val 1)) (_getbit b (chunk * HEXCHUNKSZ + bit)))
    (rev (seqZ 0 HEXCHUNKSZ)) 0.

(** [%0*x] of a chunk. *)
Definition hex_chunk (b : bitmask) (k : nat) : cstr := fmt_0x HEXCHARSZ (chunk_val b (Z.of_nat k)).

Fixpoint hex_loop (k : nat) (b : bitmask) (buflen : Z) (sep : cstr) (st : cstr * Z) : cstr * Z :=
  match k with
  | O => st
  | S chunk =>
      hex_loop chunk b buflen §","
        (append buflen st (sep ++ hex_chunk b chunk))
  end.

Definition bitmask_displayhex (buflen : Z) (b : bitmask) : cstr * Z :=
  if buflen <? 1 then ([], 0)
  else hex_loop (Z.to_nat (u32 (size b + (HEXCHUNKSZ - 1)) / HEXCHUNKSZ)) b buflen [] ([], 0).

Definition emit (buflen rbot rtop : Z) (st : cstr * Z) : cstr * Z :=
  let st := if 0 <? snd st then append buflen st §"," else st in
  if rbot =? rtop then append buflen st (fmt_d (s32 rbot))
  else append buflen st (fmt_d (s32 rbot) ++ §"-" ++ fmt_d (s32 rtop)).

Fixpoint list_loop (fuel : nat) (b : bitmask) (buflen cur rbot : Z) (st : cstr * Z) : cstr * Z :=
  match fuel with
  | O => st
  | S fuel =>
      if cur <? size b then
        let rtop := cur in
        let cur := bitmask_next b (cur + 1) in
        if (size b <=? cur) || (rtop + 1 <? cur)
        then list_loop fuel b buflen cur cur (emit buflen rbot rtop st)
        else list_loop fuel b buflen cur rbot st
      else st
  end.

Definition bitmask_displaylist (buflen : Z) (b : bitmask) : cstr * Z :=
  let first := bitmask_first b in
  list_loop (Z.to_nat (size b)) b buflen first first ([], 0).

(** ** Parsing *)

Definition nexttoken (q : option cstr) (sep : ascii) : option cstr :=
  match q with
  | None => None
  | Some s => match strchr s sep with Some (_ :: r) => Some r | _ => None end
  end.

(** The number of tokens. *)
Fixpoint count_tokens (fuel : nat) (q : option cstr) : nat :=
  match fuel, q with
  | S fuel, Some _ => S (count_tokens fuel (nexttoken q ","))
  | _, _ => O
  end.

(** The bits of one chunk, from the highest down; [None] when a bit is outside
    the words of the mask. *)
Fixpoint set_chunk (k : nat) (size : Z) (chunk val : Z) (b : bitmask) : option bitmask :=
  match k with
  | O => Some b
  | S bit =>
      let n := u32 (chunk * HEXCHUNKSZ + Z.of_nat bit) in
      if size <=? n then None
      else set_chunk bit size chunk val
             (_setbit b n (Z.land (Z.shiftr val (Z.of_nat bit)) 1))
  end.

Fixpoint parsehex_loop (fuel : nat) (size : Z) (q : option cstr) (chunk : Z) (b : bitmask)
    : option bitmask :=
  match fuel, q with
  | S fuel, Some p =>
      let q := nexttoken q "," in
      let '(v, endptr) := strtoul 16 p in
      let val := u32 v in
      let nchars_read := Z.of_nat (length p) - Z.of_nat (length endptr) in
      if (nchars_read <? 1) || (Z.of_nat HEXCHARSZ <? nchars_read) then None
      else if match q with
              | Some r => negb (Z.of_nat (length endptr) - Z.of_nat (length r) =? 1)
              | None => false
              end
      then None
      else match set_chunk (Z.to_nat HEXCHUNKSZ) size chunk val b with
           | None => None
           | Some b => parsehex_loop fuel size q (chunk - 1) b
           end
  | _, _ => Some b
  end.

(** The return value and the mask; on an error the mask is cleared. *)
Definition bitmask_parsehex (buf : cstr) (b : bitmask) : Z * bitmask :=
  let b := bitmask_clearall b in
  let size := longsperbits (size b) * 8 * 8 in
  let fuel := S (length buf) in
  let nchunks := count_tokens fuel (Some buf) in
  match parsehex_loop fuel size (Some buf) (Z.of_nat nchunks - 1) b with
  | Some b' => (0, b')
  | None => (-1, bitmask_clearall b)
  end.

Definition scan_was_ok (sret : Z) (nextc : option ascii) (ok_next_chars : cstr) : bool :=
  (sret =? 1) ||
  ((sret =? 2) && match nextc with Some c => memc c ok_next_chars || ceqb c NUL | None => false end).

(** [while (a <= b) ...]: [None] when the fuel is used up. *)
Fixpoint set_stride (fuel : nat) (a b s : Z) (m : bitmask) : option bitmask :=
  if b <? a then Some m
  else match fuel with
       | O => None
       | S fuel => set_stride fuel (u32 (a + s)) b s (_setbit m a 1)
       end.

Inductive parsed (A : Type) :=
| Parsed (a : A)
| ParseErr
| ParseDiverges.                      (* out of fuel *)
Arguments Parsed {A}.
Arguments ParseErr {A}.
Arguments ParseDiverges {A}.

(** Whether the token that starts at [c1] begins before the one at [c2]. *)
Definition before (c1 c2 : option cstr) : bool :=
  match c1, c2 with
  | Some x, Some y => (length y <? length x)%nat
  | Some _, None => true
  | None, _ => false
  end.

(** One token: the begin, end and stride of its range. *)
Definition parse_range (p : cstr) : option (Z * Z * Z) :=
  let '(sret, a, nextc) := sscanf_u_c p in
  match a with
  | Some a =>
      if negb (scan_was_ok sret nextc §",-") then None
      else
        let c1 := nexttoken (Some p) "-" in
        let c2 := nexttoken (Some p) "," in
        match c1 with
        | Some p1 =>
            if before c1 c2 then
              let '(sret, b, nextc) := sscanf_u_c p1 in
              match b with
              | Some b =>
                  if negb (scan_was_ok sret nextc §",:") then None
                  else
                    let c3 := nexttoken c1 ":" in
                    match c3 with
                    | Some p3 =>
                        if before c3 c2 then
                          let '(sret, s, nextc) := sscanf_u_c p3 in
                          match s with
                          | Some s => if negb (scan_was_ok sret nextc §",") then None
                                      else Some (a, b, s)
                          | None => None
                          end
                        else Some (a, b, 1)
                    | None => Some (a, b, 1)
                    end
              | None => None
              end
            else Some (a, a, 1)
        | None => Some (a, a, 1)
        end
  | None => None
  end.

Fixpoint parselist_loop (fuel sfuel : nat) (q : option cstr) (m : bitmask) : parsed bitmask :=
  match fuel, q with
  | S fuel, Some p =>
      match parse_range p with
      | None => ParseErr
      | Some (a, b, s) =>
          if b <? a then ParseErr
          else if size m <=? b then ParseErr
          else match set_stride sfuel a b s m with
               | None => ParseDiverges
               | Some m => parselist_loop fuel sfuel (nexttoken q ",") m
               end
      end
  | _, _ => Parsed m
  end.

Definition bitmask_parselist (sfuel : nat) (buf : cstr) (m : bitmask) : option (Z * bitmask) :=
  let m := bitmask_clearall m in
  match parselist_loop (S (length buf)) sfuel (Some buf) m with
  | Parsed m' => Some (0, m')
  | ParseErr => Some (-1, bitmask_clearall m)
  | ParseDiverges => None
  end.

(** ** Bits *)

(** A mask as [bitmask_alloc] makes it. *)
Record wf (b : bitmask) : Prop := {
  wf_size : 0 <= size b <= INT_MAX;
  wf_words : Z.of_nat (length (maskp b)) = longsperbits (size b)
}.

(** The set a mask stands for. *)
Definition bit (b : bitmask) (n : Z) : bool := negb (_getbit b n =? 0).

Lemma land_1_testbit v k : 0 <= k -> negb (Z.land (Z.shiftr v k) 1 =? 0) = Z.testbit v k.
Proof.
  intros Hk. change 1 with (Z.ones 1). rewrite Z.land_ones by lia. change (2 ^ 1) with 2.
  rewrite <- Z.bit0_mod, Z.shiftr_spec, Z.add_0_l by lia. now destruct (Z.testbit v k).
Qed.

Lemma getbit_testbit b n :
  0 <= n < size b -> _getbit b n = Z.b2z (Z.testbit (word b n) (n mod 64)).
Proof.
  intros Hn. unfold _getbit. rewrite (proj2 (Z.ltb_lt n (size b))) by lia.
  unfold bitsperlong. change (Z.land ?x 1) with (Z.land x (Z.ones 1)). rewrite Z.land_ones by lia.
  change (2 ^ 1) with 2. rewrite <- Z.bit0_mod, Z.shiftr_spec by lia. now rewrite Z.add_0_l.
Qed.

Lemma getbit_bit b n : 0 <= n -> _getbit b n = Z.b2z (bit b n).
Proof.
  intros Hn. unfold bit. destruct (decide (n < size b)) as [H|H].
  - rewrite getbit_testbit by lia. now destruct (Z.testbit _ _).
  - unfold _getbit. rewrite (proj2 (Z.ltb_ge n (size b))) by lia. done.
Qed.

Lemma bit_out b n : size b <= n -> bit b n = false.
Proof. intros H. unfold bit, _getbit. now rewrite (proj2 (Z.ltb_ge n (size b))) by lia. Qed.

Lemma setbit_size b n v : size (_setbit b n v) = size b.
Proof. unfold _setbit. now destruct (n <? size b). Qed.

Lemma setbit_wf b n v : wf b -> wf (_setbit b n v).
Proof.
  intros [H1 H2]. split; rewrite ?setbit_size; [done|]. unfold _setbit.
  destruct (n <? size b); cbn; rewrite ?length_insert; done.
Qed.

Lemma word_index b n :
  wf b -> 0 <= n < size b -> (Z.to_nat (n / 64) < length (maskp b))%nat.
Proof.
  intros [H1 H2] Hn. apply Nat2Z.inj_lt. rewrite H2. unfold longsperbits, howmany, bitsperlong.
  rewrite Z2Nat.id by (apply Z.div_pos; lia). apply Z.div_lt_upper_bound; [lia|].
  pose proof (Z.div_mod (size b + (64 - 1)) 64 ltac:(lia)).
  pose proof (Z.mod_pos_bound (size b + (64 - 1)) 64 ltac:(lia)). lia.
Qed.

(** One word after [_setbit]. *)
Lemma setbit_word_testbit w k j v :
  0 <= k < 64 -> 0 <= j < 64 ->
  Z.testbit (if negb (v =? 0) then Z.lor w (Z.shiftl 1 k)
             else Z.land w (u64 (Z.lnot (Z.shiftl 1 k)))) j =
  if j =? k then negb (v =? 0) else Z.testbit w j.
Proof.
  intros Hk Hj. rewrite Z.shiftl_1_l. destruct (negb (v =? 0)).
  - rewrite Z.lor_spec, Z.pow2_bits_eqb, Z.eqb_sym by lia.
    destruct (j =? k); [apply orb_true_r|apply orb_false_r].
  - rewrite Z.land_spec. unfold u64, uwrap. rewrite Z.mod_pow2_bits_low by lia.
    rewrite Z.lnot_spec, Z.pow2_bits_eqb, Z.eqb_sym by lia.
    destruct (j =? k); [apply andb_false_r|apply andb_true_r].
Qed.

(** [_setbit] sets its bit and no other. *)
Lemma bit_setbit b n v m :
  wf b -> 0 <= n -> 0 <= m ->
  bit (_setbit b n v) m = if (m =? n) && (n <? size b) then negb (v =? 0) else bit b m.
Proof.
  intros Hwf Hn Hm. destruct (decide (m < size b)) as [Hlt|Hge].
  2: { rewrite !bit_out by (rewrite ?setbit_size; lia).
       destruct (m =? n) eqn:E; [|done]. zbool. subst.
       now rewrite (proj2 (Z.ltb_ge n (size b))) by lia. }
  unfold bit. rewrite !getbit_testbit by (rewrite ?setbit_size; lia).
  unfold _setbit. destruct (n <? size b) eqn:En; zbool.
  2: { rewrite andb_false_r. done. }
  rewrite andb_true_r. unfold word. change bitsperlong with 64. cbn [maskp].
  destruct (decide (m / 64 = n / 64)) as [Hq|Hq].
  - rewrite Hq, list_lookup_insert_eq by (apply word_index; [done|lia]).
    rewrite setbit_word_testbit by (apply Z.mod_pos_bound; lia).
    assert (Hmn : (m mod 64 =? n mod 64) = (m =? n)).
    { pose proof (Z.div_mod m 64 ltac:(lia)). pose proof (Z.div_mod n 64 ltac:(lia)).
      destruct (m =? n) eqn:E; zbool; [subst; apply Z.eqb_refl|]. apply Z.eqb_neq. lia. }
    rewrite Hmn. destruct (m =? n); [now destruct (v =? 0)|]. now rewrite <- Hq.
  - rewrite list_lookup_insert_ne.
    2: { intros E. apply Hq. apply Z2Nat.inj in E; [done|apply Z.div_pos; lia..]. }
    destruct (m =? n) eqn:E; [zbool; subst; done|done].
Qed.

(** ** The loops *)

(** The value written at [i] depends on the bits from [i] on only, which the
    loop has not changed yet. *)
Definition reads_up (b0 : bitmask) (v : bitmask -> Z -> Z) : Prop :=
  forall i b, 0 <= i < size b0 -> size b = size b0 -> (forall j, i <= j -> bit b j = bit b0 j) ->
    v b i = v b0 i.

Lemma loop_up_spec b0 v k lo b :
  reads_up b0 v -> wf b -> size b = size b0 -> 0 <= lo ->
  (forall j, lo <= j -> bit b j = bit b0 j) ->
  let b' := loop_up k lo (fun b i => _setbit b i (v b i)) b in
  wf b' /\ size b' = size b0 /\
  forall j, 0 <= j ->
    bit b' j = if (lo <=? j) && (j <? Z.min (lo + Z.of_nat k) (size b0))
               then negb (v b0 j =? 0) else bit b j.
Proof.
  intros Hv. revert lo b. induction k as [|k IH]; intros lo b Hwf Hs Hlo Hb; cbn [loop_up].
  - cbn zeta. split; [done|]. split; [done|]. intros j Hj.
    destruct (lo <=? j) eqn:E; [|done]. zbool. now rewrite (proj2 (Z.ltb_ge j _)) by lia.
  - set (b1 := _setbit b lo (v b lo)).
    assert (Hb1 : forall j, 0 <= j -> bit b1 j =
      if (j =? lo) && (lo <? size b0) then negb (v b0 lo =? 0) else bit b j).
    { intros j Hj. unfold b1. rewrite bit_setbit, Hs by done.
      destruct (lo <? size b0) eqn:E; [|now rewrite !andb_false_r]. zbool. now rewrite (Hv lo b) by (done || lia). }
    destruct (IH (lo + 1) b1) as (I1 & I2 & I3).
    + now apply setbit_wf.
    + unfold b1. now rewrite setbit_size.
    + lia.
    + intros j Hj. rewrite Hb1 by lia. rewrite (proj2 (Z.eqb_neq j lo)) by lia. apply Hb. lia.
    + cbn zeta in I1, I2, I3 |- *. split; [done|]. split; [done|].
      intros j Hj. rewrite I3, Hb1 by done.
      replace (lo + 1 + Z.of_nat k) with (lo + Z.of_nat (S k)) by lia.
      destruct (lo + 1 <=? j) eqn:E1; zbool.
      * rewrite (proj2 (Z.leb_le lo j)), (proj2 (Z.eqb_neq j lo)) by lia. done.
      * cbn [andb]. destruct (j =? lo) eqn:E2; zbool; cbn [andb].
        -- subst j. rewrite Z.leb_refl. cbn [andb]. destruct (lo <? size b0) eqn:E3; zbool.
           ++ now rewrite (proj2 (Z.ltb_lt lo _)) by lia.
           ++ now rewrite (proj2 (Z.ltb_ge lo _)) by lia.
        -- now rewrite (proj2 (Z.leb_gt lo j)) by lia.
Qed.

Lemma for_bits_spec b v :
  reads_up b v -> wf b ->
  wf (for_bits v b) /\ size (for_bits v b) = size b /\
  forall j, 0 <= j < size b -> bit (for_bits v b) j = negb (v b j =? 0).
Proof.
  intros Hv Hwf. pose proof (wf_size b Hwf) as Hs.
  destruct (loop_up_spec b v (Z.to_nat (size b)) 0 b) as (H1 & H2 & H3); [done..|].
  cbn zeta in *. split; [done|]. split; [done|]. intros j Hj. unfold for_bits.
  rewrite H3 by lia. rewrite (proj2 (Z.leb_le 0 j)), (proj2 (Z.ltb_lt j _)) by lia. done.
Qed.

Definition reads_down (b0 : bitmask) (v : bitmask -> Z -> Z) : Prop :=
  forall i b, 0 <= i < size b0 -> size b = size b0 ->
    (forall j, 0 <= j <= i -> bit b j = bit b0 j) -> v b i = v b0 i.

Lemma loop_down_spec b0 v k b :
  reads_down b0 v -> wf b -> size b = size b0 -> Z.of_nat k <= size b0 ->
  (forall j, 0 <= j < Z.of_nat k -> bit b j = bit b0 j) ->
  let b' := loop_down k (fun b i => _setbit b i (v b i)) b in
  wf b' /\ size b' = size b0 /\
  forall j, 0 <= j -> bit b' j = if j <? Z.of_nat k then negb (v b0 j =? 0) else bit b j.
Proof.
  intros Hv. revert b. induction k as [|k IH]; intros b Hwf Hs Hk Hb; cbn [loop_down].
  - cbn zeta. split; [done|]. split; [done|]. intros j Hj. now rewrite (proj2 (Z.ltb_ge j _)) by lia.
  - set (b1 := _setbit b (Z.of_nat k) (v b (Z.of_nat k))).
    assert (Hb1 : forall j, 0 <= j -> bit b1 j =
      if j =? Z.of_nat k then negb (v b0 (Z.of_nat k) =? 0) else bit b j).
    { intros j Hj. unfold b1. rewrite bit_setbit, Hs by (done || lia).
      rewrite (proj2 (Z.ltb_lt (Z.of_nat k) (size b0))), andb_true_r by lia.
      rewrite (Hv (Z.of_nat k) b); [done|lia|done|]. intros i Hi. apply Hb. lia. }
    destruct (IH b1) as (I1 & I2 & I3).
    + now apply setbit_wf.
    + unfold b1. now rewrite setbit_size.
    + lia.
    + intros j Hj. rewrite Hb1 by lia. rewrite (proj2 (Z.eqb_neq j _)) by lia. apply Hb. lia.
    + cbn zeta in I1, I2, I3 |- *. split; [done|]. split; [done|].
      intros j Hj. rewrite I3, Hb1 by done.
      destruct (j <? Z.of_nat k) eqn:E1; zbool.
      * now rewrite (proj2 (Z.ltb_lt j _)) by lia.
      * destruct (j =? Z.of_nat k) eqn:E2; zbool.
        -- subst j. now rewrite (proj2 (Z.ltb_lt _ _)) by lia.
        -- now rewrite (proj2 (Z.ltb_ge j _)) by lia.
Qed.

(** Reading an operand at or above the current bit. *)
Lemma rd_up b0 b o i n :
  0 <= i <= n -> size b = size b0 -> (forall j, i <= j -> bit b j = bit b0 j) ->
  _getbit (rd o b) n = _getbit (rd o b0) n.
Proof.
  intros Hn Hs Hb. destruct o; [|done]. cbn. rewrite !getbit_bit by lia. now rewrite Hb by lia.
Qed.

Lemma b2z_eqb b : negb (Z.b2z b =? 0) = b.
Proof. now destruct b. Qed.

(** ** Properties of the set operations *)

Lemma shiftright_bit b o n i :
  wf b -> 0 <= i < size b -> 0 <= n <= INT_MAX ->
  bit (bitmask_shiftright b o n) i = bit (rd o b) (i + n).
Proof.
  intros Hwf Hi Hn. pose proof (wf_size b Hwf) as Hs. unfold INT_MAX in *.
  unfold bitmask_shiftright.
  destruct (for_bits_spec b (fun b i => _getbit (rd o b) (u32 (i + n)))) as (_ & _ & H); [|done|].
  - intros j b' Hj Hsz Hb. destruct o as [|b2]; [|done]. cbn in *.
    rewrite u32_small, !getbit_bit by lia. now rewrite Hb by lia.
  - rewrite H by lia. cbn. rewrite u32_small, getbit_bit by lia. apply b2z_eqb.
Qed.

Lemma shiftleft_bit b o n i :
  wf b -> wf (rd o b) -> 0 <= i < size b -> 0 <= n <= INT_MAX ->
  bit (bitmask_shiftleft b o n) i = (n <=? i) && bit (rd o b) (i - n).
Proof.
  intros Hwf Hwf2 Hi Hn. pose proof (wf_size b Hwf) as Hs. pose proof (wf_size _ Hwf2) as Hs2.
  unfold INT_MAX in *. unfold bitmask_shiftleft.
  assert (Hv : forall b' j, 0 <= j < size b ->
    _getbit (rd o b') (u32 (j - n)) = if n <=? j then _getbit (rd o b') (j - n)
                                      else _getbit (rd o b') (j - n + 4294967296)).
  { intros b' j Hj. destruct (n <=? j) eqn:E; zbool; [now rewrite u32_small by lia|].
    f_equal. unfold u32, uwrap. symmetry. apply (Z.mod_unique _ _ (-1)); [left; lia|].
    change (2 ^ 32) with 4294967296. lia. }
  destruct (loop_down_spec b (fun b i => _getbit (rd o b) (u32 (i - n)))
              (Z.to_nat (size b)) b) as (_ & _ & H); [|done|done|lia|done|].
  - intros j b' Hj Hsz Hb. rewrite !Hv by lia. destruct o as [|b2]; [|done]. cbn in *.
    destruct (n <=? j) eqn:E; zbool; rewrite !getbit_bit by lia; [now rewrite Hb by lia|].
    now rewrite !bit_out by lia.
  - cbn zeta in H. rewrite H, (proj2 (Z.ltb_lt i _)), Hv by lia.
    destruct (n <=? i) eqn:E; zbool; rewrite getbit_bit, b2z_eqb by lia; [done|].
    now rewrite bit_out by lia.
Qed.

(** The operations compute the set operations bit by bit, also when an operand
    is the mask that is changed: the bits read are never the ones already
    written.  A shift moves the bits and fills with clear bits. *)
Theorem bitmask_set_operations b o2 o3 n i :
  wf b -> wf (rd o2 b) -> 0 <= i < size b -> 0 <= n <= INT_MAX ->
  bit (bitmask_copy b o2) i = bit (rd o2 b) i /\
  bit (bitmask_complement b o2) i = negb (bit (rd o2 b) i) /\
  bit (bitmask_and b o2 o3) i = bit (rd o2 b) i && bit (rd o3 b) i /\
  bit (bitmask_andnot b o2 o3) i = bit (rd o2 b) i && negb (bit (rd o3 b) i) /\
  bit (bitmask_or b o2 o3) i = bit (rd o2 b) i || bit (rd o3 b) i /\
  bit (bitmask_eor b o2 o3) i = xorb (bit (rd o2 b) i) (bit (rd o3 b) i) /\
  bit (bitmask_shiftright b o2 n) i = bit (rd o2 b) (i + n) /\
  bit (bitmask_shiftleft b o2 n) i = (n <=? i) && bit (rd o2 b) (i - n).
Proof.
  intros Hwf Hwf2 Hi Hn. pose proof (wf_size b Hwf) as Hs. pose proof (wf_size _ Hwf2) as Hs2.
  unfold INT_MAX in *.
  assert (Hup : forall f : Z -> Z -> Z,
    reads_up b (fun b i => f (_getbit (rd o2 b) i) (_getbit (rd o3 b) i))).
  { intros f j b' Hj Hsz Hb. now rewrite !(rd_up b b' _ j j) by (done || lia). }
  assert (Hbits : forall f : Z -> Z -> Z,
    bit (for_bits (fun b i => f (_getbit (rd o2 b) i) (_getbit (rd o3 b) i)) b) i =
    negb (f (Z.b2z (bit (rd o2 b) i)) (Z.b2z (bit (rd o3 b) i)) =? 0)).
  { intros f. destruct (for_bits_spec b _ (Hup f) Hwf) as (_ & _ & H).
    rewrite H, !getbit_bit by lia. done. }
  repeat split.
  - unfold bitmask_copy. rewrite (Hbits (fun x _ => x)). apply b2z_eqb.
  - unfold bitmask_complement. rewrite (Hbits (fun x _ => if x =? 0 then 1 else 0)).
    now destruct (bit _ i).
  - unfold bitmask_and. rewrite (Hbits Z.land). now destruct (bit _ i), (bit _ i).
  - unfold bitmask_andnot. rewrite (Hbits (fun x y => Z.land x (u32 (Z.lnot y)))).
    now destruct (bit _ i), (bit _ i).
  - unfold bitmask_or. rewrite (Hbits Z.lor). now destruct (bit _ i), (bit _ i).
  - unfold bitmask_eor. rewrite (Hbits Z.lxor). now destruct (bit _ i), (bit _ i).
  - apply shiftright_bit; done.
  - apply shiftleft_bit; done.
Qed.

Definition mask8 (w : Z) : bitmask := mkMask 8 [w].

Lemma mask8_wf w : wf (mask8 w).
Proof. split; [unfold INT_MAX; cbn; lia|done]. Qed.

(** Shifting the mask 00101101 left by two in place. *)
Lemma bitmask_set_operations_witness :
  bit (bitmask_shiftleft (mask8 45) Self 2) 4 = true /\
  bit (bitmask_andnot (mask8 45) Self (Other (mask8 1))) 0 = false.
Proof.
  split.
  - apply (bitmask_set_operations (mask8 45) Self Self 2 4);
      [apply mask8_wf|apply mask8_wf|cbn; lia|unfold INT_MAX; lia].
  - apply (bitmask_set_operations (mask8 45) Self (Other (mask8 1)) 2 0);
      [apply mask8_wf|apply mask8_wf|cbn; lia|unfold INT_MAX; lia].
Defined.

(** ** Queries *)

Lemma bits_upto_iff n i : i ∈ bits_upto n <-> 0 <= i < n.
Proof. unfold bits_upto. rewrite elem_of_seqZ. lia. Qed.

Lemma forallb_bits (f : Z -> bool) n :
  forallb f (bits_upto n) = true <-> forall i, 0 <= i < n -> f i = true.
Proof.
  rewrite forallb_forall. split; intros H i Hi; apply H.
  - now apply list_elem_of_In, bits_upto_iff.
  - now apply bits_upto_iff, list_elem_of_In.
Qed.

Lemma existsb_bits (f : Z -> bool) n :
  existsb f (bits_upto n) = true <-> exists i, 0 <= i < n /\ f i = true.
Proof.
  rewrite existsb_exists. split; intros (i & Hi & Hf); exists i; (split; [|done]).
  - now apply bits_upto_iff, list_elem_of_In.
  - now apply list_elem_of_In, bits_upto_iff.
Qed.

(** The comparisons are those of the sets of bits, also between masks of
    different sizes. *)
Theorem bitmask_comparisons b1 b2 :
  wf b1 -> wf b2 ->
  (bitmask_equal b1 b2 = true <-> forall i, 0 <= i -> bit b1 i = bit b2 i) /\
  (bitmask_subset b1 b2 = true <-> forall i, 0 <= i -> bit b1 i = true -> bit b2 i = true) /\
  (bitmask_intersects b1 b2 = true <-> exists i, 0 <= i /\ bit b1 i = true /\ bit b2 i = true) /\
  bitmask_disjoint b1 b2 = negb (bitmask_intersects b1 b2) /\
  (bitmask_isallclear b1 = true <-> forall i, 0 <= i -> bit b1 i = false) /\
  (bitmask_isallset b1 = true <-> forall i, 0 <= i < size b1 -> bit b1 i = true).
Proof.
  intros Hwf1 Hwf2. unfold bitmask_equal, bitmask_subset, bitmask_intersects, bitmask_disjoint,
    bitmask_isallclear, bitmask_isallset. rewrite !forallb_bits, !existsb_bits.
  assert (Hin : forall b i, bit b i = true -> i < size b).
  { intros b i Hb. destruct (decide (i < size b)); [done|]. rewrite bit_out in Hb by lia. done. }
  split; [|split; [|split; [|split; [|split]]]].
  - split; intros H i Hi.
    + destruct (decide (i < Z.max (size b1) (size b2))); [|now rewrite !bit_out by lia].
      specialize (H i ltac:(lia)). rewrite !getbit_bit in H by lia.
      now destruct (bit b1 i), (bit b2 i).
    + rewrite !getbit_bit, H by lia. apply Z.eqb_refl.
  - split; intros H i Hi.
    + intros Hb. specialize (H i ltac:(split; [lia|eauto])). rewrite !getbit_bit, Hb in H by lia.
      now destruct (bit b2 i).
    + rewrite !getbit_bit by lia. specialize (H i ltac:(lia)). destruct (bit b1 i); [|now destruct (bit b2 i)].
      now rewrite H.
  - split; intros (i & Hi & Hb); exists i.
    + rewrite !getbit_bit in Hb by lia. split; [lia|]. now destruct (bit b1 i), (bit b2 i).
    + destruct Hb as [Hb1 Hb2]. split; [split; [lia|eauto]|].
      rewrite !getbit_bit, Hb1, Hb2 by lia. done.
  - induction (bits_upto (size b1)) as [|i l IH]; [done|]. cbn [forallb existsb].
    rewrite IH, negb_orb, negb_involutive. done.
  - split; intros H i Hi.
    + destruct (decide (i < size b1)); [|now apply bit_out; lia]. unfold bit. rewrite H by lia. done.
    + specialize (H i ltac:(lia)). unfold bit in H. now apply negb_false_iff in H.
  - done.
Qed.

(** {0, 2, 3, 5} and {0, 2}. *)
Lemma bitmask_comparisons_witness :
  bitmask_subset (mask8 5) (mask8 45) = true /\ bitmask_disjoint (mask8 5) (mask8 45) = false /\
  (bitmask_equal (mask8 5) (mask8 45) = true <->
   forall i, 0 <= i -> bit (mask8 5) i = bit (mask8 45) i).
Proof.
  split; [vm_compute; reflexivity|]. split; [vm_compute; reflexivity|].
  exact (proj1 (bitmask_comparisons (mask8 5) (mask8 45) (mask8_wf 5) (mask8_wf 45))).
Defined.

(** The number of set bits below [n]. *)
Definition rank (b : bitmask) (n : Z) : Z :=
  fold_left (fun w i => if negb (_getbit b i =? 0) then w + 1 else w) (bits_upto n) 0.

Lemma rank_S b n : 0 <= n -> rank b (n + 1) = rank b n + Z.b2z (bit b n).
Proof.
  intros Hn. unfold rank, bits_upto. rewrite seqZ_app by lia. rewrite fold_left_app.
  cbn [seqZ]. replace (seqZ (0 + n) 1) with [n] by (rewrite seqZ_cons, seqZ_nil by lia; f_equal; lia).
  cbn [fold_left]. fold (bit b n). destruct (bit b n); cbn [Z.b2z]; lia.
Qed.

Lemma rank_0 b : rank b 0 = 0.
Proof. reflexivity. Qed.

Lemma rank_mono b m n : 0 <= m <= n -> rank b m <= rank b n.
Proof.
  intros H. replace n with (m + Z.of_nat (Z.to_nat (n - m))) by lia.
  induction (Z.to_nat (n - m)) as [|k IH]; [rewrite Z.add_0_r; lia|].
  rewrite Nat2Z.inj_succ. replace (m + Z.succ (Z.of_nat k)) with (m + Z.of_nat k + 1) by lia.
  rewrite rank_S by lia. destruct (bit b _); cbn [Z.b2z]; lia.
Qed.

Lemma rank_step b m k : 0 <= m < k -> bit b m = true -> rank b m + 1 <= rank b k.
Proof.
  intros Hm Hb. pose proof (rank_mono b (m + 1) k ltac:(lia)) as H.
  rewrite rank_S, Hb in H by lia. cbn [Z.b2z] in H. lia.
Qed.

Lemma rank_clear b m k :
  0 <= m <= k -> (forall j, m <= j < k -> bit b j = false) -> rank b m = rank b k.
Proof.
  intros Hm Hno. replace k with (m + Z.of_nat (Z.to_nat (k - m))) in * by lia.
  induction (Z.to_nat (k - m)) as [|d IH]; [now rewrite Z.add_0_r|].
  rewrite Nat2Z.inj_succ in *. replace (m + Z.succ (Z.of_nat d)) with (m + Z.of_nat d + 1) in * by lia.
  rewrite rank_S, Hno by lia. cbn [Z.b2z]. rewrite Z.add_0_r. apply IH; [lia|].
  intros j Hj. apply Hno. lia.
Qed.

Lemma bitmask_next_spec b i :
  0 <= i ->
  let n := bitmask_next b i in
  i <= n /\ (n < size b -> bit b n = true) /\ (forall j, i <= j < n -> bit b j = false) /\
  (n = i \/ n <= size b).
Proof.
  intros Hi. unfold bitmask_next. remember (Z.to_nat (size b - i)) as k eqn:Hk.
  revert i Hi Hk. induction k as [|k IH]; intros i Hi Hk; cbn [next_loop].
  - cbn zeta. split; [lia|]. split; [intros; lia|]. split; [intros; lia|]. now left.
  - rewrite (proj2 (Z.ltb_lt i (size b))) by lia. fold (bit b i).
    destruct (bit b i) eqn:E; cbn zeta.
    + split; [lia|]. split; [done|]. split; [intros; lia|]. now left.
    + destruct (IH (i + 1)) as (H1 & H2 & H3 & H4); [lia|lia|]. cbn zeta in *.
      split; [lia|]. split; [done|]. split; [|right; lia].
      intros j Hj. destruct (decide (j = i)) as [->|]; [done|]. apply H3. lia.
Qed.

(** The loop finds the bit with [n] set bits before it from [i] on. *)
Lemma rel_loop_spec k b i n p :
  0 <= i -> i <= p < i + Z.of_nat k -> bit b p = true -> rank b p = rank b i + n ->
  rel_loop k b i n = p.
Proof.
  revert i n. induction k as [|k IH]; intros i n Hi Hp Hb Hr; [lia|]. cbn [rel_loop].
  fold (bit b i). pose proof (rank_S b i Hi) as HS.
  destruct (decide (p = i)) as [->|Hne].
  - rewrite Hb. replace n with 0 by lia. done.
  - pose proof (rank_mono b (i + 1) p ltac:(lia)).
    destruct (bit b i); cbn [Z.b2z] in HS.
    + rewrite (proj2 (Z.eqb_neq n 0)) by lia. apply IH; lia || done.
    + apply IH; lia || done.
Qed.

(** [bitmask_last] is the greatest set bit, the size if there is none. *)
Lemma bitmask_last_spec b n :
  wf b -> 0 <= n -> bit b n = true ->
  bit b (bitmask_last b) = true /\ n <= bitmask_last b.
Proof.
  intros Hwf Hn Hb. pose proof (wf_size b Hwf) as Hs.
  assert (Hlt : n < size b).
  { destruct (decide (n < size b)); [done|]. rewrite bit_out in Hb by lia. done. }
  assert (Hgen : forall m0 k, n < Z.of_nat k ->
    let m := fold_left (fun m i => if negb (_getbit b i =? 0) then i else m)
               (bits_upto (Z.of_nat k)) m0 in bit b m = true /\ n <= m).
  { intros m0. induction k as [|k IH]; intros Hk; [lia|]. cbn zeta. unfold bits_upto in *.
    rewrite Nat2Z.inj_succ, <- Z.add_1_r, seqZ_app, fold_left_app by lia.
    replace (seqZ (0 + Z.of_nat k) 1) with [Z.of_nat k]
      by (rewrite seqZ_cons, seqZ_nil by lia; f_equal; lia).
    cbn [fold_left]. fold (bit b (Z.of_nat k)). destruct (bit b (Z.of_nat k)) eqn:E; [split; [done|lia]|].
    apply IH. destruct (decide (n = Z.of_nat k)); [congruence|lia]. }
  specialize (Hgen (size b) (Z.to_nat (size b))). rewrite Z2Nat.id in Hgen by lia.
  exact (Hgen Hlt).
Qed.

(** [bitmask_abs_to_rel_pos] numbers the set bits from 0 up to the weight, and
    [bitmask_rel_to_abs_pos] is its inverse; the first set bit is numbered 0,
    the last one the weight less one. *)
Theorem bitmask_positions b n :
  wf b -> 0 <= n -> bit b n = true ->
  0 <= bitmask_abs_to_rel_pos b n < bitmask_weight b /\
  bitmask_rel_to_abs_pos b (bitmask_abs_to_rel_pos b n) = n /\
  (bitmask_abs_to_rel_pos b n = 0 <-> n = bitmask_first b) /\
  (bitmask_abs_to_rel_pos b n = bitmask_weight b - 1 <-> n = bitmask_last b).
Proof.
  intros Hwf Hn Hb. assert (Hlt : n < size b).
  { destruct (decide (n < size b)); [done|]. rewrite bit_out in Hb by lia. done. }
  assert (Habs : bitmask_abs_to_rel_pos b n = rank b n).
  { unfold bitmask_abs_to_rel_pos. rewrite getbit_bit, Hb by lia. done. }
  rewrite Habs. change (bitmask_weight b) with (rank b (size b)).
  pose proof (rank_mono b 0 n ltac:(lia)) as H0. rewrite rank_0 in H0.
  destruct (bitmask_next_spec b 0 ltac:(lia)) as (N1 & N2 & N3 & _). cbn zeta in *.
  fold (bitmask_first b) in *. destruct (bitmask_last_spec b n Hwf Hn Hb) as [L1 L2].
  assert (L3 : bitmask_last b < size b).
  { destruct (decide (bitmask_last b < size b)); [done|]. rewrite bit_out in L1 by lia. done. }
  assert (Hf : bitmask_first b <= n).
  { destruct (decide (n < bitmask_first b)); [rewrite N3 in Hb by lia; done|lia]. }
  split; [split; [lia|]|split; [|split; split]].
  - pose proof (rank_step b n (size b) ltac:(lia) Hb). lia.
  - apply rel_loop_spec; rewrite ?rank_0; try done; lia.
  - intros Hr. destruct (decide (n = bitmask_first b)); [done|].
    pose proof (rank_step b (bitmask_first b) n ltac:(lia) (N2 ltac:(lia))).
    pose proof (rank_mono b 0 (bitmask_first b) ltac:(lia)). rewrite rank_0 in *. lia.
  - intros ->. rewrite <- (rank_clear b 0 (bitmask_first b)) by (done || lia). done.
  - intros Hr. destruct (decide (n = bitmask_last b)); [done|].
    pose proof (rank_step b n (bitmask_last b) ltac:(lia) Hb).
    pose proof (rank_step b (bitmask_last b) (size b) ltac:(lia) L1). lia.
  - intros ->. rewrite <- (rank_clear b (bitmask_last b + 1) (size b)); [|lia|].
    + rewrite rank_S, L1 by lia. cbn [Z.b2z]. lia.
    + intros j Hj. destruct (bit b j) eqn:E; [|done].
      destruct (bitmask_last_spec b j Hwf ltac:(lia) E). lia.
Qed.

(** Bit 3 of {0, 2, 3, 5}. *)
Lemma bitmask_positions_witness :
  bitmask_abs_to_rel_pos (mask8 45) 3 = 2 /\
  bitmask_rel_to_abs_pos (mask8 45) (bitmask_abs_to_rel_pos (mask8 45) 3) = 3.
Proof.
  split; [vm_compute; reflexivity|].
  apply (bitmask_positions (mask8 45) 3 (mask8_wf 45)); [lia|vm_compute; reflexivity].
Defined.
