(* ===== verification/BitmaskText.v ===== *)
(** The list and hexadecimal formats of the bitmask library: what
    [bitmask_displaylist] and [bitmask_displayhex] write, and that
    [bitmask_parselist] and [bitmask_parsehex] read it back. *)
From Stdlib Require Import Ascii String ZArith Lia Bool.
From stdpp Require Import base list sets numbers.
From S2P Require Import Prelude CString Bitmask.

Local Open Scope Z_scope.

(** ** The list format *)

(** The ranges [bitmask_displaylist] writes. *)
Fixpoint ranges (fuel : nat) (b : bitmask) (cur rbot : Z) : list (Z * Z) :=
  match fuel with
  | O => []
  | S fuel =>
      if cur <? size b then
        let next := bitmask_next b (cur + 1) in
        if (size b <=? next) || (cur + 1 <? next)
        then (rbot, cur) :: ranges fuel b next next
        else ranges fuel b next rbot
      else []
  end.

Definition in_range (n : Z) (r : Z * Z) : Prop := r.1 <= n <= r.2.

Definition range_ok (b : bitmask) (r : Z * Z) : Prop := 0 <= r.1 <= r.2 /\ r.2 < size b.

Lemma ranges_ge fuel b cur rbot r :
  0 <= rbot <= cur -> 0 <= cur -> r ∈ ranges fuel b cur rbot -> rbot <= r.1.
Proof.
  revert cur rbot. induction fuel as [|fuel IH]; intros cur rbot Hr Hc Hin; cbn [ranges] in Hin;
    [inversion Hin|].
  destruct (cur <? size b); [|inversion Hin].
  pose proof (bitmask_next_spec b (cur + 1) ltac:(lia)) as (N1 & _). cbn zeta in N1.
  destruct (_ || _).
  - apply elem_of_cons in Hin as [->|Hin]; [cbn; lia|]. apply IH in Hin; lia.
  - apply IH in Hin; lia.
Qed.

(** The ranges are the set bits. *)
Lemma ranges_spec fuel b cur rbot :
  size b - cur <= Z.of_nat fuel -> 0 <= rbot <= cur ->
  (cur < size b -> forall j, rbot <= j <= cur -> bit b j = true) ->
  (size b <= cur -> rbot = cur) ->
  Forall (range_ok b) (ranges fuel b cur rbot) /\
  forall n, rbot <= n -> (bit b n = true <-> Exists (in_range n) (ranges fuel b cur rbot)).
Proof.
  revert cur rbot. induction fuel as [|fuel IH]; intros cur rbot Hf Hr Hset Hend; cbn [ranges].
  - split; [constructor|]. intros n Hn. rewrite bit_out by lia.
    split; [done|]. intros H. inversion H.
  - destruct (cur <? size b) eqn:Ecur; zbool.
    2: { split; [constructor|]. intros n Hn. rewrite bit_out by lia.
         split; [done|]. intros H. inversion H. }
    pose proof (bitmask_next_spec b (cur + 1) ltac:(lia)) as (N1 & N2 & N3 & N4).
    cbn zeta in *. set (next := bitmask_next b (cur + 1)) in *.
    destruct ((size b <=? next) || (cur + 1 <? next)) eqn:Egap.
    + destruct (IH next next) as [I1 I2]; [lia|lia| |done|].
      { intros Hlt j Hj. replace j with next by lia. now apply N2. }
      split; [constructor; [split; cbn; lia|done]|].
      intros n Hn. rewrite Exists_cons. unfold in_range at 1. cbn [fst snd].
      destruct (decide (n <= cur)) as [Hle|Hgt].
      { split; [intros _; left; lia|]. intros _. apply Hset; lia. }
      destruct (decide (next <= n)) as [Hge|Hlt].
      { rewrite <- I2 by done. split; [auto|]. intros [?|?]; [lia|done]. }
      rewrite N3 by lia. split; [done|]. intros [?|Hex]; [lia|].
      apply Exists_exists in Hex as (r & Hin%list_elem_of_In & Hr').
      assert (Hge : next <= r.1).
      { exact (ranges_ge fuel b next next r ltac:(lia) ltac:(lia) Hin). }
      unfold in_range in Hr'. lia.
    + apply orb_false_iff in Egap as [E1 E2]. zbool.
      destruct (IH next rbot) as [I1 I2]; [lia|lia| |lia|done].
      intros Hlt j Hj. destruct (decide (j = next)) as [->|]; [now apply N2|]. apply Hset; lia.
Qed.

Definition range_text (r : Z * Z) : cstr :=
  if r.1 =? r.2 then fmt_d r.1 else fmt_d r.1 ++ §"-" ++ fmt_d r.2.

(** The text after the ranges [l] are written behind [out]. *)
Fixpoint texts (out : cstr) (l : list (Z * Z)) : cstr :=
  match l with
  | [] => out
  | r :: l => texts (out ++ (match out with [] => [] | _ => §"," end) ++ range_text r) l
  end.

Lemma texts_length out l : (length out <= length (texts out l))%nat.
Proof.
  revert out. induction l as [|r l IH]; intros out; cbn [texts]; [lia|].
  etransitivity; [|apply IH]. rewrite length_app. lia.
Qed.

Lemma append_fits buflen out s :
  Z.of_nat (length (out ++ s)) < buflen ->
  append buflen (out, Z.of_nat (length out)) s = (out ++ s, Z.of_nat (length (out ++ s))).
Proof.
  intros H. rewrite length_app in *. unfold append. rewrite (proj2 (Z.ltb_lt _ _)) by lia.
  rewrite Nat2Z.id, !take_ge by lia. f_equal. lia.
Qed.

Lemma emit_fits buflen out r :
  let out' := out ++ (match out with [] => [] | _ => §"," end) ++ range_text r in
  0 <= r.1 <= r.2 -> r.2 <= INT_MAX -> Z.of_nat (length out') < buflen ->
  emit buflen r.1 r.2 (out, Z.of_nat (length out)) = (out', Z.of_nat (length out')).
Proof.
  intros out' Hr Hmax Hlen. unfold emit. cbn [snd].
  rewrite !s32_small by (unfold INT_MIN, INT_MAX in *; lia).
  assert (Hst : (if 0 <? Z.of_nat (length out) then append buflen (out, Z.of_nat (length out)) §","
                 else (out, Z.of_nat (length out))) =
    (out ++ match out with [] => [] | _ => §"," end,
     Z.of_nat (length (out ++ match out with [] => [] | _ => §"," end)))).
  { unfold out' in Hlen. rewrite app_assoc, length_app in Hlen.
    destruct out as [|c out]; [done|]. rewrite (proj2 (Z.ltb_lt _ _)) by (cbn; lia).
    apply append_fits. lia. }
  rewrite Hst. clear Hst. subst out'.
  rewrite (app_assoc out _ (range_text r)) in Hlen |- *. unfold range_text in *.
  destruct (r.1 =? r.2); now apply append_fits.
Qed.

Lemma list_loop_text fuel b buflen cur rbot out :
  size b <= INT_MAX -> 0 <= rbot <= cur ->
  Z.of_nat (length (texts out (ranges fuel b cur rbot))) < buflen ->
  list_loop fuel b buflen cur rbot (out, Z.of_nat (length out)) =
    (texts out (ranges fuel b cur rbot), Z.of_nat (length (texts out (ranges fuel b cur rbot)))).
Proof.
  intros Hs. revert cur rbot out. induction fuel as [|fuel IH]; intros cur rbot out Hr Hlen;
    cbn [list_loop ranges] in *; [done|].
  destruct (cur <? size b) eqn:E; zbool; [|done].
  pose proof (bitmask_next_spec b (cur + 1) ltac:(lia)) as (N1 & _). cbn zeta in *.
  destruct (_ || _).
  - cbn [texts] in Hlen |- *.
    pose proof (emit_fits buflen out (rbot, cur)) as He. cbn zeta in He. cbn [fst snd] in He.
    rewrite He; [|lia|lia|].
    + apply IH; [lia|done].
    + eapply Z.le_lt_trans; [|exact Hlen]. apply inj_le, texts_length.
  - apply IH; [lia|done].
Qed.

(** *** Parsing a range *)

Lemma sscanf_fmt z c r :
  0 <= z <= INT_MAX -> isdigit_base 10 c = false ->
  sscanf_u_c (fmt_d z ++ c :: r) = (2, Some z, Some c).
Proof.
  intros Hz Hc. unfold INT_MAX in Hz. rewrite fmt_d_nonneg by lia.
  assert (Hs : strto 10 (fmt_nat 10 z ++ c :: r) = Some (false, z, c :: r))
    by now apply (strto_fmt_nat false z (c :: r)).
  unfold sscanf_u_c. rewrite Hs. unfold strtoul. rewrite Hs.
  destruct (dropwhile isspace _) eqn:E.
  - exfalso. unfold strto in Hs. now rewrite E in Hs.
  - unfold ULONG_MAX. rewrite (proj2 (Z.ltb_ge _ z)) by lia. now rewrite u32_small by lia.
Qed.

Lemma sscanf_fmt_end z :
  0 <= z <= INT_MAX -> sscanf_u_c (fmt_d z) = (1, Some z, None).
Proof.
  intros Hz. unfold INT_MAX in Hz. rewrite fmt_d_nonneg by lia.
  assert (Hs : strto 10 (fmt_nat 10 z) = Some (false, z, [])).
  { rewrite <- (app_nil_r (fmt_nat 10 z)). apply (strto_fmt_nat false z []); [lia|done]. }
  unfold sscanf_u_c. rewrite Hs. unfold strtoul. rewrite Hs.
  destruct (dropwhile isspace _) eqn:E.
  - exfalso. unfold strto in Hs. now rewrite E in Hs.
  - unfold ULONG_MAX. rewrite (proj2 (Z.ltb_ge _ z)) by lia. now rewrite u32_small by lia.
Qed.

(** A character that is not in [s] is looked for behind it. *)
Lemma nexttoken_app s c r : c ∉ s -> nexttoken (Some (s ++ r)) c = nexttoken (Some r) c.
Proof.
  induction s as [|x s IH]; intros H; [done|]. apply not_elem_of_cons in H as [H1 H2].
  cbn [nexttoken app strchr] in *. rewrite (proj2 (ceqb_neq x c)) by congruence. now apply IH.
Qed.

Lemma nexttoken_length s c t : nexttoken (Some s) c = Some t -> (length t < length s)%nat.
Proof.
  cbn [nexttoken]. destruct (strchr s c) as [[|x u]|] eqn:E; [done| |done].
  intros [= <-]. apply strchr_Some in E as (p & r & -> & [= _ ->] & _). rewrite length_app. cbn. lia.
Qed.

Lemma fmt_d_no_sep z c : 0 <= z -> isdigit_base 10 c = false -> c ∉ fmt_d z.
Proof.
  intros Hz Hc Hin. rewrite fmt_d_nonneg in Hin by done.
  pose proof (fmt_nat_isdigit 10 z ltac:(lia) Hz) as Hd. rewrite Stdlib.Lists.List.Forall_forall in Hd.
  apply list_elem_of_In in Hin. apply Hd in Hin. congruence.
Qed.

(** What [texts] puts behind a range: the end, or a comma and more. *)
Definition range_end (rest : cstr) : Prop :=
  rest = [] \/ exists t, rest = ","%char :: t /\ ":"%char ∉ t.

Lemma sscanf_fmt_rest z rest :
  0 <= z <= INT_MAX -> range_end rest ->
  exists sret c, sscanf_u_c (fmt_d z ++ rest) = (sret, Some z, c) /\
    forall ok, memc "," ok = true -> scan_was_ok sret c ok = true.
Proof.
  intros Hz [->|(t & -> & _)].
  - rewrite app_nil_r. eexists _, _. split; [now apply sscanf_fmt_end|done].
  - eexists _, _. split; [now apply sscanf_fmt|].
    intros ok Hok. unfold scan_was_ok. now rewrite Hok.
Qed.

Lemma range_end_colon rest : range_end rest -> nexttoken (Some rest) ":" = None.
Proof.
  intros [->|(t & -> & Ht)]; [done|]. cbn [nexttoken strchr ceqb].
  change (ceqb "," ":") with false. cbn iota. now rewrite (proj2 (strchr_None t ":") Ht).
Qed.

Lemma range_end_comma rest : range_end rest ->
  nexttoken (Some rest) "," = match rest with [] => None | _ :: t => Some t end.
Proof. now intros [->|(t & -> & _)]. Qed.

(** A minus sign behind a range comes after its comma. *)
Lemma range_end_dash rest : range_end rest ->
  before (nexttoken (Some rest) "-") (nexttoken (Some rest) ",") = false.
Proof.
  intros [->|(t & -> & _)]; [done|].
  change (nexttoken (Some (","%char :: t)) ",") with (Some t).
  change (nexttoken (Some (","%char :: t)) "-") with (nexttoken (Some t) "-").
  destruct (nexttoken (Some t) "-") as [u|] eqn:E; [|done].
  apply nexttoken_length in E. cbn [before]. apply Nat.ltb_ge. lia.
Qed.

Lemma parse_range_text r rest :
  0 <= r.1 <= r.2 -> r.2 <= INT_MAX -> range_end rest ->
  parse_range (range_text r ++ rest) = Some (r.1, r.2, 1).
Proof.
  destruct r as [a b]. cbn [fst snd]. intros Hr Hb Hrest. unfold range_text. cbn [fst snd].
  destruct (a =? b) eqn:E; zbool.
  - subst b. destruct (sscanf_fmt_rest a rest ltac:(lia) Hrest) as (sret & c & Hs & Hok).
    unfold parse_range. rewrite Hs, Hok by done. cbn [negb].
    rewrite !nexttoken_app by (apply fmt_d_no_sep; [lia|done]).
    pose proof (range_end_dash rest Hrest) as Hd.
    destruct (nexttoken (Some rest) "-"); [now rewrite Hd|done].
  - destruct (sscanf_fmt_rest b rest ltac:(lia) Hrest) as (sret & c & Hs & Hok).
    rewrite <- !app_assoc. unfold parse_range.
    change (§"-" ++ fmt_d b ++ rest) with ("-"%char :: fmt_d b ++ rest).
    rewrite sscanf_fmt by (done || lia). cbn [negb scan_was_ok].
    rewrite !nexttoken_app by (apply fmt_d_no_sep; [lia|done]).
    change (nexttoken (Some ("-"%char :: fmt_d b ++ rest)) "-") with (Some (fmt_d b ++ rest)).
    change (nexttoken (Some ("-"%char :: fmt_d b ++ rest)) ",")
      with (nexttoken (Some (fmt_d b ++ rest)) ",").
    change (scan_was_ok 2 (Some "-"%char) (§",-")) with true. cbn [negb].
    destruct (before _ _) eqn:Eb.
    + rewrite Hs, Hok by done. cbn [negb].
      rewrite nexttoken_app by (apply fmt_d_no_sep; [lia|done]).
      now rewrite range_end_colon.
    + exfalso. cbn [before] in Eb. destruct (nexttoken (Some (fmt_d b ++ rest)) ",") eqn:Ec; [|done].
      apply nexttoken_length in Ec. apply Nat.ltb_ge in Eb. lia.
Qed.

(** *** The ranges of a text *)

Definition rest_text (l : list (Z * Z)) : cstr :=
  concat (map (fun r => ","%char :: range_text r) l).

Lemma range_text_sep r c :
  0 <= r.1 <= r.2 -> isdigit_base 10 c = false -> c <> "-"%char -> c ∉ range_text r.
Proof.
  intros Hr Hc Hd. unfold range_text. destruct (r.1 =? r.2).
  - apply fmt_d_no_sep; [lia|done].
  - rewrite !not_elem_of_app. repeat split; try (apply fmt_d_no_sep; [lia|done]).
    intros H%list_elem_of_singleton. congruence.
Qed.

Lemma rest_text_end l :
  Forall (fun r => 0 <= r.1 <= r.2) l -> range_end (rest_text l).
Proof.
  intros Hl. destruct l as [|r l]; [now left|]. right. eexists. split; [reflexivity|].
  assert (Hall : forall l, Forall (fun r => 0 <= r.1 <= r.2) l -> ":"%char ∉ rest_text l).
  { clear. induction 1 as [|r l Hr Hl IH]; [apply not_elem_of_nil|].
    cbn [rest_text map concat app]. rewrite not_elem_of_cons, not_elem_of_app.
    split; [done|]. split; [now apply range_text_sep|exact IH]. }
  apply Forall_cons_1 in Hl as [Hr Hl]. rewrite not_elem_of_app.
  split; [now apply range_text_sep|now apply Hall].
Qed.

Lemma fmt_d_nonempty z : 0 <= z -> fmt_d z <> [].
Proof. intros H. rewrite fmt_d_nonneg by done. apply fmt_nat_nonnil. Qed.

Lemma range_text_nonempty r : 0 <= r.1 -> range_text r <> [].
Proof.
  intros H. unfold range_text. destruct (r.1 =? r.2); [now apply fmt_d_nonempty|].
  pose proof (fmt_d_nonempty r.1 H). destruct (fmt_d r.1); [done|discriminate].
Qed.

Lemma texts_rest out l : out <> [] -> texts out l = out ++ rest_text l.
Proof.
  revert out. induction l as [|r l IH]; intros out Ho; cbn [texts].
  - now rewrite app_nil_r.
  - rewrite IH by (destruct out; [done|discriminate]). destruct out; [done|].
    cbn [rest_text map concat]. rewrite <- app_assoc. f_equal.
Qed.

Lemma texts_cons r l : 0 <= r.1 -> texts [] (r :: l) = range_text r ++ rest_text l.
Proof. intros H. cbn [texts app]. apply texts_rest. now apply range_text_nonempty. Qed.

Lemma set_stride_one fuel a b m :
  wf m -> 0 <= a -> a <= b + 1 -> b < size m -> b + 1 - a <= Z.of_nat fuel ->
  exists m', set_stride fuel a b 1 m = Some m' /\ wf m' /\ size m' = size m /\
    forall n, 0 <= n -> bit m' n = bit m n || ((a <=? n) && (n <=? b)).
Proof.
  intros Hwf. pose proof (wf_size m Hwf) as Hs. unfold INT_MAX in Hs. revert a m Hwf Hs.
  induction fuel as [|fuel IH]; intros a m Hwf Hs Ha Hab Hb Hf; cbn [set_stride];
    destruct (b <? a) eqn:E; zbool; try lia.
  1, 2: exists m; split; [done|]; split; [done|]; split; [done|]; intros n Hn;
    assert (Hout : (a <=? n) && (n <=? b) = false) by lia; now rewrite Hout, orb_false_r.
  rewrite u32_small by lia.
  destruct (IH (a + 1) (_setbit m a 1)) as (m' & H1 & H2 & H3 & H4);
    rewrite ?setbit_size; try lia; [now apply setbit_wf|].
  exists m'. rewrite setbit_size in H3. split; [done|]. split; [done|]. split; [done|].
  intros n Hn. rewrite H4, bit_setbit by (done || lia).
  destruct (decide (n = a)) as [->|Hne].
  - rewrite Z.eqb_refl, (proj2 (Z.ltb_lt a (size m))) by lia.
    rewrite Z.leb_refl, (proj2 (Z.leb_le a b)) by lia.
    now destruct (bit m a).
  - rewrite (proj2 (Z.eqb_neq n a)) by done. cbn [andb].
    assert (Hle : (a + 1 <=? n) = (a <=? n)) by lia. now rewrite Hle.
Qed.

(** One turn of the loop of [bitmask_parselist] on a written range. *)
Lemma parselist_step fuel sfuel r rest m :
  wf m -> range_ok m r -> range_end rest -> size m <= Z.of_nat sfuel ->
  exists m', parselist_loop (S fuel) sfuel (Some (range_text r ++ rest)) m =
      parselist_loop fuel sfuel (match rest with [] => None | _ :: t => Some t end) m' /\
    wf m' /\ size m' = size m /\
    forall n, 0 <= n -> bit m' n = true <-> bit m n = true \/ in_range n r.
Proof.
  intros Hwf [Hr Hrs] Hend Hsf. pose proof (wf_size m Hwf) as Hs.
  destruct (set_stride_one sfuel r.1 r.2 m Hwf) as (m' & H1 & H2 & H3 & H4); [lia..|].
  exists m'. split; [|split; [done|split; [done|]]].
  - cbn [parselist_loop]. rewrite parse_range_text by (done || lia).
    rewrite (proj2 (Z.ltb_ge r.2 r.1)), (proj2 (Z.leb_gt (size m) r.2)), H1 by lia.
    rewrite nexttoken_app by now apply range_text_sep.
    now rewrite range_end_comma.
  - intros n Hn. rewrite H4 by done. unfold in_range. rewrite orb_true_iff, andb_true_iff, !Z.leb_le. tauto.
Qed.

Lemma parselist_ranges fuel sfuel r l m :
  wf m -> Forall (range_ok m) (r :: l) ->
  (S (length l) < fuel)%nat -> size m <= Z.of_nat sfuel ->
  exists m', parselist_loop fuel sfuel (Some (range_text r ++ rest_text l)) m = Parsed m' /\
    wf m' /\ size m' = size m /\
    forall n, 0 <= n -> bit m' n = true <-> bit m n = true \/ Exists (in_range n) (r :: l).
Proof.
  revert fuel r m. induction l as [|r' l IH]; intros [|fuel] r m Hwf Hok Hf Hsf; try (cbn in Hf; lia);
    apply Forall_cons_1 in Hok as [Hr Hok].
  - destruct (parselist_step fuel sfuel r [] m) as (m' & H1 & H2 & H3 & H4); try done; [now left|].
    exists m'. change (rest_text []) with (@nil ascii). rewrite H1. split; [now destruct fuel|]. split; [done|]. split; [done|].
    intros n Hn. rewrite H4, Exists_cons, Exists_nil by done. tauto.
  - assert (Hend : range_end (rest_text (r' :: l))).
    { apply rest_text_end. eapply Forall_impl; [|exact Hok]. now intros x [? ?]. }
    destruct (parselist_step fuel sfuel r (rest_text (r' :: l)) m) as (m1 & H1 & H2 & H3 & H4);
      try done.
    destruct (IH fuel r' m1) as (m' & I1 & I2 & I3 & I4); [done| |cbn in Hf; lia|lia|].
    { eapply Forall_impl; [|exact Hok]. intros x. unfold range_ok. now rewrite H3. }
    exists m'. rewrite H1. split; [exact I1|]. split; [done|]. split; [lia|].
    intros n Hn. rewrite I4, H4, (Exists_cons _ r) by done. tauto.
Qed.

(** *** Writing and reading back *)

(** The length is that of the whole text, also where it was cut. *)
Lemma emit_len buflen r o out :
  0 <= r.1 <= r.2 -> r.2 <= INT_MAX ->
  snd (emit buflen r.1 r.2 (o, Z.of_nat (length out))) =
  Z.of_nat (length (out ++ (match out with [] => [] | _ => §"," end) ++ range_text r)).
Proof.
  intros Hr Hm. unfold emit, range_text. cbn [snd].
  rewrite !s32_small by (unfold INT_MIN, INT_MAX in *; lia).
  destruct out as [|c out]; (destruct (r.1 =? r.2));
    cbn [length]; rewrite ?(proj2 (Z.ltb_lt 0 (Z.of_nat (S _)))) by lia;
    change (0 <? Z.of_nat 0) with false; cbn iota; cbn [append snd]; rewrite !length_app; cbn [length]; lia.
Qed.

Lemma list_loop_len fuel b buflen cur rbot o out :
  size b <= INT_MAX -> 0 <= rbot <= cur ->
  snd (list_loop fuel b buflen cur rbot (o, Z.of_nat (length out))) =
  Z.of_nat (length (texts out (ranges fuel b cur rbot))).
Proof.
  intros Hs. revert cur rbot o out. induction fuel as [|fuel IH]; intros cur rbot o out Hr;
    cbn [list_loop ranges]; [done|].
  destruct (cur <? size b) eqn:E; zbool; [|done].
  pose proof (bitmask_next_spec b (cur + 1) ltac:(lia)) as (N1 & _). cbn zeta in *.
  destruct (_ || _); [|apply IH; lia].
  pose proof (emit_len buflen (rbot, cur) o out ltac:(cbn; lia) ltac:(cbn; lia)) as He.
  cbn [fst snd] in He. destruct (emit _ _ _ _) as [o' len']. cbn [snd] in He. subst len'.
  cbn [texts]. apply IH. lia.
Qed.

Lemma clearall_spec m :
  wf m -> wf (bitmask_clearall m) /\ size (bitmask_clearall m) = size m /\
    forall n, 0 <= n -> bit (bitmask_clearall m) n = false.
Proof.
  intros Hwf. destruct (for_bits_spec m (fun _ _ => 0)) as (H1 & H2 & H3); [now intros ?|done|].
  split; [done|]. split; [done|]. intros n Hn. destruct (decide (n < size m)).
  - apply H3. lia.
  - apply bit_out. unfold bitmask_clearall. lia.
Qed.

Lemma rest_text_length l : (length l <= length (rest_text l))%nat.
Proof.
  induction l as [|r l IH]; [done|]. unfold rest_text in *. cbn [map concat app length].
  rewrite length_app. lia.
Qed.

Definition list_ranges (b : bitmask) : list (Z * Z) :=
  ranges (Z.to_nat (size b)) b (bitmask_first b) (bitmask_first b).

Lemma list_ranges_spec b :
  wf b ->
  Forall (range_ok b) (list_ranges b) /\
  forall n, 0 <= n -> bit b n = true <-> Exists (in_range n) (list_ranges b).
Proof.
  intros Hwf. pose proof (wf_size b Hwf) as Hs. unfold list_ranges.
  pose proof (bitmask_next_spec b 0 ltac:(lia)) as (N1 & N2 & N3 & N4). cbn zeta in *.
  fold (bitmask_first b) in *. set (f := bitmask_first b) in *.
  destruct (ranges_spec (Z.to_nat (size b)) b f f) as [R1 R2]; [lia|lia| |done|].
  { intros Hlt j Hj. replace j with f by lia. now apply N2. }
  split; [done|]. intros n Hn. destruct (decide (n < f)) as [Hlt|Hge]; [|apply R2; lia].
  rewrite N3 by lia. split; [done|]. intros (r & Hin%list_elem_of_In & Hr)%Exists_exists.
  pose proof (ranges_ge _ b f f r ltac:(lia) ltac:(lia) Hin). unfold in_range in Hr. lia.
Qed.

(** What is written, where it fits. *)
Lemma displaylist_text b buflen :
  wf b -> snd (bitmask_displaylist buflen b) < buflen ->
  fst (bitmask_displaylist buflen b) = texts [] (list_ranges b).
Proof.
  intros Hwf. pose proof (wf_size b Hwf) as Hs.
  pose proof (bitmask_next_spec b 0 ltac:(lia)) as (N1 & _). cbn zeta in N1.
  fold (bitmask_first b) in N1. unfold bitmask_displaylist, list_ranges.
  rewrite (list_loop_len _ b buflen _ _ [] []) by lia. intros Hlen.
  now rewrite (list_loop_text _ b buflen _ _ []) by (done || lia).
Qed.

(** The text of a mask in the list format. *)
Definition list_text (b : bitmask) : cstr := texts [] (list_ranges b).

Lemma list_text_parse b m sfuel :
  wf b -> wf m -> size m = size b -> size b <= Z.of_nat sfuel ->
  exists r m', bitmask_parselist sfuel (list_text b) m = Some (r, m') /\ wf m' /\
    size m' = size b /\ (forall n, 0 <= n -> bit m' n = bit b n) /\
    ((r = 0 /\ exists n, 0 <= n /\ bit b n = true) \/
     (r = -1 /\ forall n, 0 <= n -> bit b n = false)).
Proof.
  intros Hwf Hm Hsz Hsf. unfold list_text.
  destruct (list_ranges_spec b Hwf) as [R1 R2]. destruct (clearall_spec m Hm) as (C1 & C2 & C3).
  destruct (list_ranges b) as [|r l].
  - assert (Hno : forall n, 0 <= n -> bit b n = false).
    { intros n Hn. apply not_true_iff_false. rewrite R2 by lia. now rewrite Exists_nil. }
    destruct (clearall_spec _ C1) as (D1 & D2 & D3).
    exists (-1), (bitmask_clearall (bitmask_clearall m)). split; [done|]. split; [done|].
    split; [lia|]. split; [|now right]. intros n Hn. now rewrite D3, Hno.
  - pose proof (Forall_cons_1 _ _ _ R1) as [[Hr Hrs] _].
    rewrite texts_cons by lia. unfold bitmask_parselist.
    pose proof (rest_text_length l). pose proof (range_text_nonempty r ltac:(lia)).
    edestruct (parselist_ranges (S (length (range_text r ++ rest_text l))) sfuel r l
      (bitmask_clearall m) C1) as (m' & P1 & P2 & P3 & P4).
    + eapply Forall_impl; [|exact R1]. intros x. unfold range_ok. now rewrite C2, Hsz.
    + rewrite length_app. destruct (range_text r); [done|]. cbn. lia.
    + lia.
    + rewrite P1. exists 0, m'. split; [done|]. split; [done|]. split; [lia|]. split.
      * intros n Hn. apply eq_iff_eq_true. rewrite P4, C3, R2 by done. naive_solver.
      * left. split; [done|]. exists r.1. split; [lia|]. apply R2; [lia|].
        apply Exists_cons. left. unfold in_range. lia.
Qed.

(** Reading back what [bitmask_displaylist] wrote, where the buffer was large
    enough by its return value, gives the bits of the mask, whatever was in the
    mask that receives them.  The call succeeds unless the mask is empty: the
    empty text is refused, with the mask cleared. *)
Theorem displaylist_parselist b m buflen sfuel :
  wf b -> wf m -> size m = size b -> size b <= Z.of_nat sfuel ->
  snd (bitmask_displaylist buflen b) < buflen ->
  exists r m', bitmask_parselist sfuel (fst (bitmask_displaylist buflen b)) m = Some (r, m') /\
    size m' = size b /\ (forall n, 0 <= n -> bit m' n = bit b n) /\
    ((r = 0 /\ exists n, 0 <= n /\ bit b n = true) \/
     (r = -1 /\ forall n, 0 <= n -> bit b n = false)).
Proof.
  intros Hwf Hm Hsz Hsf Hlen. rewrite displaylist_text by done.
  destruct (list_text_parse b m sfuel Hwf Hm Hsz Hsf) as (r & m' & H1 & _ & H2 & H3 & H4). eauto 6.
Qed.

(** The bits 0, 2, 3 and 5, through a buffer of 16 bytes. *)
Lemma displaylist_parselist_witness :
  exists r m', bitmask_parselist 8 (fst (bitmask_displaylist 16 (mask8 45))) (mask8 255) =
      Some (r, m') /\ size m' = 8 /\ (forall n, 0 <= n -> bit m' n = bit (mask8 45) n) /\
    ((r = 0 /\ exists n, 0 <= n /\ bit (mask8 45) n = true) \/
     (r = -1 /\ forall n, 0 <= n -> bit (mask8 45) n = false)).
Proof.
  apply (displaylist_parselist (mask8 45) (mask8 255) 16 8);
    [apply mask8_wf|apply mask8_wf|reflexivity|cbn; lia|vm_compute; reflexivity].
Defined.

Lemma next_loop_ext k b1 b2 n :
  size b1 = size b2 -> (forall i, 0 <= i -> bit b1 i = bit b2 i) -> 0 <= n ->
  next_loop k b1 n = next_loop k b2 n.
Proof.
  intros Hs Hb. revert n. induction k as [|k IH]; intros n Hn; cbn [next_loop]; [done|].
  assert (E : _getbit b1 n = _getbit b2 n) by (rewrite !getbit_bit by lia; now rewrite Hb).
  now rewrite E, Hs, IH by lia.
Qed.

Lemma bitmask_next_ext b1 b2 n :
  size b1 = size b2 -> (forall i, 0 <= i -> bit b1 i = bit b2 i) -> 0 <= n ->
  bitmask_next b1 n = bitmask_next b2 n.
Proof. intros Hs Hb Hn. unfold bitmask_next. rewrite Hs. now apply next_loop_ext. Qed.

Lemma ranges_ext fuel b1 b2 cur rbot :
  size b1 = size b2 -> (forall i, 0 <= i -> bit b1 i = bit b2 i) -> 0 <= cur ->
  ranges fuel b1 cur rbot = ranges fuel b2 cur rbot.
Proof.
  intros Hs Hb. revert cur rbot. induction fuel as [|fuel IH]; intros cur rbot Hc; cbn [ranges]; [done|].
  rewrite Hs, (bitmask_next_ext b1 b2 (cur + 1)) by (done || lia).
  pose proof (bitmask_next_spec b2 (cur + 1) ltac:(lia)) as (N1 & _). cbn zeta in N1.
  now rewrite !IH by lia.
Qed.

(** The text depends on the bits only. *)
Lemma list_text_ext b1 b2 :
  size b1 = size b2 -> (forall i, 0 <= i -> bit b1 i = bit b2 i) -> list_text b1 = list_text b2.
Proof.
  intros Hs Hb. unfold list_text, list_ranges, bitmask_first. rewrite Hs, (bitmask_next_ext b1 b2 0) by (done || lia).
  pose proof (bitmask_next_spec b2 0 ltac:(lia)) as (N1 & _). cbn zeta in N1.
  now rewrite (ranges_ext _ b1 b2) by (done || lia).
Qed.

Lemma list_text_nil b : wf b -> (list_text b = [] <-> forall n, 0 <= n -> bit b n = false).
Proof.
  intros Hwf. destruct (list_ranges_spec b Hwf) as [R1 R2]. unfold list_text.
  destruct (list_ranges b) as [|r l].
  - split; [|done]. intros _ n Hn. apply not_true_iff_false. rewrite R2 by lia. now rewrite Exists_nil.
  - pose proof (Forall_cons_1 _ _ _ R1) as [[Hr Hrs] _]. rewrite texts_cons by lia. split.
    + intros [E _]%app_nil. now apply range_text_nonempty in E; [|lia].
    + intros Hno. assert (Ht : bit b r.1 = true); [|now rewrite Hno in Ht by lia].
      apply R2; [lia|]. apply Exists_cons. left. unfold in_range. lia.
Qed.

Lemma list_text_chars b c :
  wf b -> isdigit_base 10 c = false -> c <> "-"%char -> c <> ","%char -> c ∉ list_text b.
Proof.
  intros Hwf Hd Hm Hc. destruct (list_ranges_spec b Hwf) as [R1 _]. unfold list_text.
  destruct R1 as [|r l [Hr _] Hl]; [apply not_elem_of_nil|]. rewrite texts_cons, not_elem_of_app by lia.
  split; [now apply range_text_sep|]. induction Hl as [|q l [Hq _] Hl IH]; [apply not_elem_of_nil|].
  unfold rest_text in *. cbn [map concat app]. rewrite not_elem_of_cons, not_elem_of_app.
  split; [done|]. split; [now apply range_text_sep|done].
Qed.

(** ** The hexadecimal format *)

Lemma lor_shift_bit v (p : bool) n :
  0 <= v < 2 ^ n -> 0 <= n < 32 ->
  let w := Z.lor (u32 (Z.shiftl v 1)) (Z.b2z p) in
  0 <= w < 2 ^ (n + 1) /\
  forall i, 0 <= i -> Z.testbit w i = if i =? 0 then p else Z.testbit v (i - 1).
Proof.
  intros Hv Hn. cbn zeta. rewrite Z.shiftl_mul_pow2 by lia. change (2 ^ 1) with 2.
  assert (Hp : 2 ^ (n + 1) = 2 * 2 ^ n) by (rewrite <- Z.pow_succ_r by lia; f_equal; lia).
  pose proof (Z.pow_le_mono_r 2 n 31 ltac:(lia) ltac:(lia)) as H31. change (2 ^ 31) with 2147483648 in H31.
  rewrite u32_small by lia.
  assert (Hw : Z.lor (v * 2) (Z.b2z p) = 2 * v + Z.b2z p).
  { apply Z.bits_inj'. intros i Hi. rewrite Z.lor_spec.
    destruct (Z.eq_dec i 0) as [->|Hne].
    - rewrite Z.testbit_0_r, Z.b2z_bit0, Z.mul_comm, Z.testbit_even_0. done.
    - replace i with (Z.succ (i - 1)) by lia.
      rewrite Z.testbit_succ_r, Z.mul_comm, Z.testbit_even_succ by lia.
      destruct p; cbn [Z.b2z]; rewrite ?Z.testbit_0_l, ?orb_false_r by lia; [|done].
      change 1 with (2 * 0 + 1) at 2. rewrite Z.testbit_odd_succ, Z.testbit_0_l by lia.
      apply orb_false_r. }
  rewrite Hw. split; [destruct p; cbn [Z.b2z]; lia|].
  intros i Hi. destruct (i =? 0) eqn:E; zbool.
  - subst. apply Z.testbit_0_r.
  - replace i with (Z.succ (i - 1)) at 1 by lia. apply Z.testbit_succ_r. lia.
Qed.

Lemma chunk_fold b base n j :
  Z.of_nat n <= 32 -> 0 <= base + j ->
  let v := fold_left (fun v i => Z.lor (u32 (Z.shiftl v 1)) (_getbit b (base + i)))
             (rev (seqZ j (Z.of_nat n))) 0 in
  0 <= v < 2 ^ Z.of_nat n /\
  forall i, 0 <= i -> Z.testbit v i = (i <? Z.of_nat n) && bit b (base + j + i).
Proof.
  revert j. induction n as [|n IH]; intros j Hn Hj; cbn zeta.
  - change (Z.of_nat 0) with 0. rewrite seqZ_nil by lia. split; [done|].
    intros i Hi. rewrite (proj2 (Z.ltb_ge i 0)) by lia. apply Z.testbit_0_l.
  - rewrite Nat2Z.inj_succ, seqZ_cons, Z.pred_succ by lia. cbn [rev]. rewrite fold_left_app.
    cbn [fold_left]. destruct (IH (Z.succ j)) as [H1 H2]; [lia|lia|].
    rewrite (getbit_bit b (base + j)) by lia.
    destruct (lor_shift_bit _ (bit b (base + j)) (Z.of_nat n) H1) as [L1 L2]; [lia|].
    split; [exact L1|]. intros i Hi. rewrite L2 by done. destruct (i =? 0) eqn:E; zbool.
    + subst i. rewrite (proj2 (Z.ltb_lt 0 _)), Z.add_0_r by lia. done.
    + rewrite H2 by lia. replace (base + Z.succ j + (i - 1)) with (base + j + i) by lia.
      f_equal. apply eq_iff_eq_true. rewrite !Z.ltb_lt. clear - Hi. lia.
Qed.

(** The chunk written is the 32 bits of the mask. *)
Lemma chunk_val_spec b k :
  0 <= k ->
  0 <= chunk_val b k < 16 ^ Z.of_nat HEXCHARSZ /\
  forall i, 0 <= i < HEXCHUNKSZ -> Z.testbit (chunk_val b k) i = bit b (k * HEXCHUNKSZ + i).
Proof.
  intros Hk. unfold chunk_val, HEXCHUNKSZ.
  pose proof (chunk_fold b (k * 32) 32 0) as H. cbn zeta in H. change (Z.of_nat 32) with 32 in H.
  specialize (H ltac:(lia) ltac:(lia)). set (v := fold_left _ _ _) in *. clearbody v.
  change (2 ^ 32) with (16 ^ Z.of_nat HEXCHARSZ) in H. destruct H as [H1 H2].
  split; [exact H1|]. intros i Hi. rewrite H2 by lia.
  rewrite (proj2 (Z.ltb_lt i 32)) by lia. now rewrite Z.add_0_r.
Qed.

(** What is written behind the chunk [k], and from it on. *)
Fixpoint hex_rest (b : bitmask) (k : nat) : cstr :=
  match k with
  | O => []
  | S k => ","%char :: hex_chunk b k ++ hex_rest b k
  end.

Definition hex_text (b : bitmask) (k : nat) : cstr := hex_chunk b k ++ hex_rest b k.

Lemma hex_text_S b k : hex_text b (S k) = hex_chunk b (S k) ++ §"," ++ hex_text b k.
Proof. change (§",") with [","%char]. unfold hex_text. cbn [hex_rest app]. reflexivity. Qed.

Lemma hex_loop_S k b buflen sep st :
  hex_loop (S k) b buflen sep st = hex_loop k b buflen §"," (append buflen st (sep ++ hex_chunk b k)).
Proof. cbn [hex_loop]. reflexivity. Qed.

Lemma hex_loop_text k b buflen sep o out :
  snd (hex_loop (S k) b buflen sep (o, Z.of_nat (length out))) =
    Z.of_nat (length (out ++ sep ++ hex_text b k)) /\
  (Z.of_nat (length (out ++ sep ++ hex_text b k)) < buflen -> o = out ->
   fst (hex_loop (S k) b buflen sep (o, Z.of_nat (length out))) = out ++ sep ++ hex_text b k).
Proof.
  revert sep o out. induction k as [|k IH]; intros sep o out.
  - rewrite hex_loop_S. cbn [hex_loop]. unfold hex_text. cbn [hex_rest]. rewrite app_nil_r. split.
    + cbn [append snd]. rewrite !length_app. lia.
    + intros Hlen ->. now rewrite append_fits.
  - rewrite hex_loop_S, hex_text_S, !(app_assoc sep), !(app_assoc out _ (§"," ++ _)).
    set (out' := out ++ sep ++ hex_chunk b (S k)).
    destruct (append buflen (o, Z.of_nat (length out)) (sep ++ hex_chunk b (S k))) as [o' l'] eqn:Ea.
    assert (Hl : l' = Z.of_nat (length out')).
    { unfold append in Ea. injection Ea as _ <-. unfold out'. rewrite !length_app. lia. }
    subst l'. destruct (IH §"," o' out') as [I1 I2]. split; [exact I1|].
    intros Hlen ->. apply I2; [exact Hlen|]. rewrite append_fits in Ea.
    + unfold out'. congruence.
    + unfold out' in Hlen |- *. rewrite (length_app (out ++ _)) in Hlen. lia.
Qed.

Lemma hex_loop_start k b buflen :
  snd (hex_loop (S k) b buflen [] ([], 0)) = Z.of_nat (length (hex_text b k)) /\
  (Z.of_nat (length (hex_text b k)) < buflen ->
   fst (hex_loop (S k) b buflen [] ([], 0)) = hex_text b k).
Proof.
  pose proof (hex_loop_text k b buflen [] [] []) as [T1 T2].
  assert (E0 : Z.of_nat (length (@nil ascii)) = 0) by done. rewrite E0, !app_nil_l in *.
  split; [exact T1|]. intros H. now apply T2.
Qed.

#[local] Opaque chunk_val fmt_0x.

Lemma hex_chunk_val b k :
  0 <= chunk_val b (Z.of_nat k) < 16 ^ Z.of_nat HEXCHARSZ.
Proof. apply chunk_val_spec. lia. Qed.

Lemma hex_chunk_length b k : length (hex_chunk b k) = HEXCHARSZ.
Proof. unfold hex_chunk. rewrite fmt_0x_length; [done|apply Nat.lt_0_succ|apply hex_chunk_val]. Qed.

Lemma hex_chunk_comma b k : ","%char ∉ hex_chunk b k.
Proof.
  unfold hex_chunk. intros Hin. destruct (hex_chunk_val b k) as [Hpos _].
  pose proof (fmt_0x_digits HEXCHARSZ (chunk_val b (Z.of_nat k)) Hpos) as Hd.
  rewrite Stdlib.Lists.List.Forall_forall in Hd. apply list_elem_of_In, Hd in Hin as (v & Hv & E).
  apply (f_equal digit_val) in E. rewrite digit_val_chr in E by lia.
  change (digit_val ",") with 99 in E. lia.
Qed.

Lemma hex_strtoul b k :
  strtoul 16 (hex_text b k) = (chunk_val b (Z.of_nat k), hex_rest b k).
Proof.
  pose proof (hex_chunk_val b k) as Hv. unfold strtoul, hex_text, hex_chunk.
  rewrite strto_fmt_0x; [|lia|destruct k; [now left|now right]].
  assert (H : (ULONG_MAX <? chunk_val b (Z.of_nat k)) = false).
  { apply Z.ltb_ge. change (16 ^ Z.of_nat HEXCHARSZ) with 4294967296 in Hv. unfold ULONG_MAX. lia. }
  now rewrite H.
Qed.

Lemma hex_nexttoken b k :
  nexttoken (Some (hex_text b k)) "," = match k with O => None | S k => Some (hex_text b k) end.
Proof.
  unfold hex_text. rewrite nexttoken_app by apply hex_chunk_comma.
  destruct k as [|k]; [done|]. cbn [hex_rest nexttoken strchr]. now rewrite ceqb_refl.
Qed.

Lemma hex_text_length b k : (k < length (hex_text b k))%nat.
Proof.
  unfold hex_text. rewrite length_app, hex_chunk_length. unfold HEXCHARSZ.
  induction k as [|k IH]; [cbn; lia|]. cbn [hex_rest length].
  rewrite length_app, hex_chunk_length. unfold HEXCHARSZ. lia.
Qed.

Lemma count_tokens_hex fuel b k :
  (k < fuel)%nat -> count_tokens fuel (Some (hex_text b k)) = S k.
Proof.
  revert k. induction fuel as [|fuel IH]; intros k Hk; [lia|].
  cbn [count_tokens]. rewrite hex_nexttoken. f_equal. destruct k as [|k].
  - now destruct fuel.
  - apply IH. lia.
Qed.

(** [set_chunk] writes the bits of its value. *)
Lemma set_chunk_spec k words chunk v m :
  wf m -> 0 <= chunk -> chunk * HEXCHUNKSZ + Z.of_nat k <= words -> words < 2 ^ 32 ->
  exists m', set_chunk k words chunk v m = Some m' /\ wf m' /\ size m' = size m /\
    forall n, 0 <= n ->
      bit m' n = if (chunk * HEXCHUNKSZ <=? n) && (n <? chunk * HEXCHUNKSZ + Z.of_nat k)
                    && (n <? size m)
                 then Z.testbit v (n - chunk * HEXCHUNKSZ) else bit m n.
Proof.
  intros Hwf Hc Hk Hw. unfold HEXCHUNKSZ in *. revert m Hwf Hk.
  induction k as [|k IH]; intros m Hwf Hk; cbn [set_chunk].
  - exists m. split; [done|]. split; [done|]. split; [done|]. intros n Hn.
    destruct (Z.leb_spec (chunk * 32) n), (Z.ltb_spec n (chunk * 32 + Z.of_nat 0)); cbn [andb];
      lia || done.
  - unfold HEXCHUNKSZ. rewrite u32_small by lia. set (n0 := chunk * 32 + Z.of_nat k).
    rewrite (proj2 (Z.leb_gt words n0)) by lia.
    edestruct IH as (m' & H1 & H2 & H3 & H4); [|lia|exists m'; split; [exact H1|]].
    { now apply setbit_wf. }
    rewrite setbit_size in *. split; [done|]. split; [done|]. intros n Hn.
    rewrite H4, bit_setbit by (done || lia).
    fold n0. replace (chunk * 32 + Z.of_nat (S k)) with (n0 + 1) by lia.
    destruct (Z.eqb_spec n n0) as [->|Hne].
    + rewrite Z.ltb_irrefl, (proj2 (Z.leb_le (chunk * 32) n0)), (proj2 (Z.ltb_lt n0 (n0 + 1))) by lia.
      rewrite land_1_testbit by lia. now replace (n0 - chunk * 32) with (Z.of_nat k) by lia.
    + assert (Hlt : (n <? n0 + 1) = (n <? n0)); [|now rewrite Hlt].
      apply eq_iff_eq_true. rewrite !Z.ltb_lt. lia.
Qed.

(** One turn of the loop of [bitmask_parsehex] on a written chunk. *)
Lemma parsehex_step fuel words b k m :
  wf m -> size m = size b -> (Z.of_nat k + 1) * HEXCHUNKSZ <= words -> words < 2 ^ 32 ->
  exists m', parsehex_loop (S fuel) words (Some (hex_text b k)) (Z.of_nat k) m =
      parsehex_loop fuel words (match k with O => None | S k => Some (hex_text b k) end)
        (Z.of_nat k - 1) m' /\
    wf m' /\ size m' = size m /\
    forall n, 0 <= n ->
      bit m' n = if (Z.of_nat k * HEXCHUNKSZ <=? n) && (n <? (Z.of_nat k + 1) * HEXCHUNKSZ)
                 then bit b n else bit m n.
Proof.
  intros Hwf Hsz Hw Hw32. pose proof (hex_chunk_val b k) as Hv.
  change (16 ^ Z.of_nat HEXCHARSZ) with (2 ^ 32) in Hv.
  destruct (set_chunk_spec (Z.to_nat HEXCHUNKSZ) words (Z.of_nat k) (chunk_val b (Z.of_nat k)) m)
    as (m' & H1 & H2 & H3 & H4); [done|lia|unfold HEXCHUNKSZ in *; lia|done|].
  exists m'. split; [|split; [done|split; [done|]]].
  - cbn [parsehex_loop]. rewrite hex_strtoul, hex_nexttoken.
    assert (Hlen : Z.of_nat (length (hex_text b k)) - Z.of_nat (length (hex_rest b k)) = 8).
    { unfold hex_text. rewrite length_app, hex_chunk_length. unfold HEXCHARSZ. lia. }
    rewrite Hlen. cbn [orb Z.ltb Z.compare Pos.compare]. rewrite u32_small by lia.
    assert (Hq : match match k with O => None | S k => Some (hex_text b k) end with
      | Some r => negb (Z.of_nat (length (hex_rest b k)) - Z.of_nat (length r) =? 1)
      | None => false end = false).
    { destruct k as [|k]; [done|]. cbn [hex_rest length]. fold (hex_text b k).
      apply negb_false_iff, Z.eqb_eq. lia. }
    rewrite Hq, H1. reflexivity.
  - intros n Hn. rewrite H4 by done. rewrite Z2Nat.id by done.
    replace (Z.of_nat k * HEXCHUNKSZ + HEXCHUNKSZ) with ((Z.of_nat k + 1) * HEXCHUNKSZ) by lia.
    destruct (Z.leb_spec (Z.of_nat k * HEXCHUNKSZ) n), (Z.ltb_spec n ((Z.of_nat k + 1) * HEXCHUNKSZ));
      cbn [andb]; try done.
    destruct (Z.ltb_spec n (size m)); [|now rewrite !bit_out by lia].
    rewrite (proj2 (chunk_val_spec b (Z.of_nat k) ltac:(lia))) by (unfold HEXCHUNKSZ in *; lia).
    f_equal. lia.
Qed.

(** [bitmask_parsehex] on the chunks from [k] down. *)
Lemma parsehex_text fuel words b k m :
  wf m -> size m = size b -> (S k < fuel)%nat ->
  (Z.of_nat k + 1) * HEXCHUNKSZ <= words -> words < 2 ^ 32 ->
  exists m', parsehex_loop fuel words (Some (hex_text b k)) (Z.of_nat k) m = Some m' /\
    wf m' /\ size m' = size m /\
    forall n, 0 <= n ->
      bit m' n = if n <? (Z.of_nat k + 1) * HEXCHUNKSZ then bit b n else bit m n.
Proof.
  revert fuel m. induction k as [|k IH]; intros [|fuel] m Hwf Hsz Hf Hw Hw32; try lia;
    edestruct (parsehex_step fuel words b _ m Hwf Hsz Hw Hw32) as (m1 & H1 & H2 & H3 & H4).
  - exists m1. rewrite H1. split; [now destruct fuel|]. split; [done|]. split; [done|].
    intros n Hn. rewrite H4 by done. now rewrite (proj2 (Z.leb_le _ n)) by lia.
  - destruct (IH fuel m1) as (m' & I1 & I2 & I3 & I4); [done|lia|lia|unfold HEXCHUNKSZ in *; lia|done|].
    exists m'. rewrite H1. replace (Z.of_nat (S k) - 1) with (Z.of_nat k) by lia.
    split; [done|]. split; [done|]. split; [lia|]. intros n Hn. rewrite I4, H4 by done.
    unfold HEXCHUNKSZ. replace (Z.of_nat (S k) * 32) with ((Z.of_nat k + 1) * 32) by lia.
    destruct (Z.ltb_spec n ((Z.of_nat k + 1) * 32)), (Z.leb_spec ((Z.of_nat k + 1) * 32) n),
      (Z.ltb_spec n ((Z.of_nat (S k) + 1) * 32)); cbn [andb]; lia || done.
Qed.

(** Reading back what [bitmask_displayhex] wrote, where the buffer was large
    enough by its return value, succeeds and gives the bits of the mask. *)
Theorem displayhex_parsehex b m buflen :
  wf b -> wf m -> size m = size b -> 0 < size b ->
  snd (bitmask_displayhex buflen b) < buflen ->
  exists m', bitmask_parsehex (fst (bitmask_displayhex buflen b)) m = (0, m') /\
    size m' = size b /\ forall n, 0 <= n -> bit m' n = bit b n.
Proof.
  intros Hwf Hm Hsz Hpos Hlen. pose proof (wf_size b Hwf) as Hs. unfold INT_MAX in Hs.
  assert (Hk : exists k, Z.to_nat (u32 (size b + (HEXCHUNKSZ - 1)) / HEXCHUNKSZ) = S k /\
    Z.of_nat k * 32 < size b <= (Z.of_nat k + 1) * 32).
  { unfold HEXCHUNKSZ. rewrite u32_small by lia. exists (Z.to_nat ((size b - 1) / 32)).
    replace (size b + (32 - 1)) with (size b - 1 + 1 * 32) by lia.
    rewrite Z.div_add by lia. pose proof (Z.div_mod (size b - 1) 32 ltac:(lia)).
    pose proof (Z.mod_pos_bound (size b - 1) 32 ltac:(lia)). lia. }
  destruct Hk as (k & Hk & Hkb). unfold bitmask_displayhex in *. rewrite Hk in *.
  destruct (hex_loop_start k b buflen) as [T1 T2].
  destruct (buflen <? 1) eqn:E; [cbn in Hlen; zbool; lia|].
  rewrite T1 in Hlen. rewrite T2 by done.
  destruct (clearall_spec m Hm) as (C1 & C2 & C3).
  pose proof (hex_text_length b k) as Htl. unfold bitmask_parsehex.
  rewrite count_tokens_hex by lia. replace (Z.of_nat (S k) - 1) with (Z.of_nat k) by lia.
  edestruct (parsehex_text (S (length (hex_text b k)))
    (longsperbits (size (bitmask_clearall m)) * 8 * 8) b k (bitmask_clearall m) C1)
    as (m' & P1 & P2 & P3 & P4).
  { lia. } { lia. }
  1, 2: rewrite C2, Hsz; unfold longsperbits, howmany, bitsperlong, HEXCHUNKSZ;
    pose proof (Z.div_mod (size b + (64 - 1)) 64 ltac:(lia));
    pose proof (Z.mod_pos_bound (size b + (64 - 1)) 64 ltac:(lia)); lia.
  rewrite P1. exists m'. split; [done|]. split; [lia|]. intros n Hn. rewrite P4 by done.
  unfold HEXCHUNKSZ. destruct (Z.ltb_spec n ((Z.of_nat k + 1) * 32)); [done|].
  rewrite C3, bit_out by lia. done.
Qed.

(** A mask of 40 bits in two chunks. *)
Definition mask40 (w : Z) : bitmask := mkMask 40 [w].

Lemma displayhex_parsehex_witness :
  fst (bitmask_displayhex 32 (mask40 180388626493)) = §"0000002a,0000003d" /\
  exists m', bitmask_parsehex (fst (bitmask_displayhex 32 (mask40 180388626493))) (mask40 0) = (0, m') /\
    size m' = 40 /\ forall n, 0 <= n -> bit m' n = bit (mask40 180388626493) n.
Proof.
  split; [vm_compute; reflexivity|].
  apply (displayhex_parsehex (mask40 180388626493) (mask40 0) 32);
    [split; [unfold INT_MAX; cbn; lia|done]|split; [unfold INT_MAX; cbn; lia|done]|reflexivity
    |cbn; lia|vm_compute; reflexivity].
Defined.

(** ** A stride of zero *)

(** Without progress the loop over a range ends on no input. *)
Lemma set_stride_zero fuel a b m : 0 <= a <= b -> a < 2 ^ 32 -> set_stride fuel a b 0 m = None.
Proof.
  intros Hab Ha. revert m. induction fuel as [|fuel IH]; intros m; cbn [set_stride];
    rewrite (proj2 (Z.ltb_ge b a)) by lia; [done|].
  rewrite Z.add_0_r, u32_small by done || lia. apply IH.
Qed.

(** [bitmask_parselist] does not reject a stride of zero: on the list 0-5:0 it
    runs forever, whatever the mask, if the mask has the bits. *)
Theorem parselist_zero_stride sfuel m :
  wf m -> 5 < size m -> bitmask_parselist sfuel §"0-5:0" m = None.
Proof.
  intros Hwf Hs. destruct (clearall_spec m Hwf) as (_ & C2 & _).
  unfold bitmask_parselist. cbn [parselist_loop length].
  change (parse_range §"0-5:0") with (Some (0, 5, 0)). cbn iota.
  rewrite C2, (proj2 (Z.leb_gt (size m) 5)) by done. cbn [Z.ltb Z.compare].
  now rewrite set_stride_zero by (done || lia).
Qed.

Lemma parselist_zero_stride_witness : bitmask_parselist 1000 §"0-5:0" (mask8 0) = None.
Proof. apply (parselist_zero_stride 1000 (mask8 0)); [apply mask8_wf|cbn; lia]. Defined.
