(* ===== verification/BitmaskTypes.v ===== *)
(** Every operation of the bitmask library, the parsers included, keeps the
    size of a mask and its words in range. *)
From Stdlib Require Import Ascii String ZArith Lia Bool.
From stdpp Require Import base list sets numbers relations.
From S2P Require Import Prelude CString Bitmask.

Local Open Scope Z_scope.

(** ** Types *)

(** A mask with the words of [unsigned long]. *)
Definition typed (n : Z) (b : bitmask) : Prop :=
  wf b /\ size b = n /\ Forall (fun w => 0 <= w < 2 ^ 64) (maskp b).

(** What an operation of the library makes of a mask. *)
Inductive mask_op (b : bitmask) : bitmask -> Prop :=
| op_copy o : mask_op b (bitmask_copy b o)
| op_setall : mask_op b (bitmask_setall b)
| op_clearall : mask_op b (bitmask_clearall b)
| op_complement o : mask_op b (bitmask_complement b o)
| op_shiftright o n : mask_op b (bitmask_shiftright b o n)
| op_shiftleft o n : mask_op b (bitmask_shiftleft b o n)
| op_and o2 o3 : mask_op b (bitmask_and b o2 o3)
| op_andnot o2 o3 : mask_op b (bitmask_andnot b o2 o3)
| op_or o2 o3 : mask_op b (bitmask_or b o2 o3)
| op_eor o2 o3 : mask_op b (bitmask_eor b o2 o3)
| op_setrange i j : mask_op b (bitmask_setrange b i j)
| op_clearrange i j : mask_op b (bitmask_clearrange b i j)
| op_keeprange i j : mask_op b (bitmask_keeprange b i j)
| op_setbit i : mask_op b (bitmask_setbit b i)
| op_clearbit i : mask_op b (bitmask_clearbit b i)
| op_parsehex buf r b' : bitmask_parsehex buf b = (r, b') -> mask_op b b'
| op_parselist f buf r b' : bitmask_parselist f buf b = Some (r, b') -> mask_op b b'.

Lemma lor_range x y : 0 <= x < 2 ^ 64 -> 0 <= y < 2 ^ 64 -> 0 <= Z.lor x y < 2 ^ 64.
Proof.
  intros Hx Hy. split; [apply Z.lor_nonneg; lia|].
  destruct (decide (Z.lor x y = 0)) as [->|Hne]; [done|].
  apply Z.log2_lt_pow2; [pose proof (Z.lor_nonneg x y); lia|].
  rewrite Z.log2_lor by lia. apply Z.max_lub_lt.
  - destruct (decide (x = 0)) as [->|]; [done|]. apply Z.log2_lt_pow2; lia.
  - destruct (decide (y = 0)) as [->|]; [done|]. apply Z.log2_lt_pow2; lia.
Qed.

Lemma land_range x y : 0 <= x < 2 ^ 64 -> 0 <= y < 2 ^ 64 -> 0 <= Z.land x y < 2 ^ 64.
Proof.
  intros Hx Hy. pose proof (proj2 (Z.land_nonneg x y) ltac:(lia)). split; [done|].
  destruct (decide (Z.land x y = 0)) as [->|Hne]; [done|].
  apply Z.log2_lt_pow2; [lia|]. pose proof (Z.log2_land x y ltac:(lia) ltac:(lia)) as Hl.
  destruct (decide (x = 0)) as [->|]; [done|].
  pose proof (proj1 (Z.log2_lt_pow2 x 64 ltac:(lia)) ltac:(lia)). lia.
Qed.

Lemma word_range n b i : typed n b -> 0 <= word b i < 2 ^ 64.
Proof.
  intros (_ & _ & H). unfold word. destruct (maskp b !! _) as [w|] eqn:E; [|lia].
  now apply (Forall_lookup_1 _ _ _ _ H E).
Qed.

Lemma setbit_typed n b i v : typed n b -> typed n (_setbit b i v).
Proof.
  intros Ht. pose proof (word_range n b i Ht) as Hw. destruct Ht as (H1 & H2 & H3).
  split; [now apply setbit_wf|]. split; [now rewrite setbit_size|].
  unfold _setbit. destruct (i <? size b); [|done]. cbn [maskp].
  apply Forall_insert; [done|]. pose proof (Z.mod_pos_bound i bitsperlong ltac:(done)) as Hm.
  destruct (negb (v =? 0)).
  - apply lor_range; [done|]. rewrite Z.shiftl_1_l. unfold bitsperlong in *. split; [lia|].
    apply Z.pow_lt_mono_r; lia.
  - apply land_range; [done|]. unfold u64, uwrap. apply Z.mod_pos_bound. done.
Qed.

Lemma loop_up_typed n k i f b :
  (forall b i, typed n b -> typed n (f b i)) -> typed n b -> typed n (loop_up k i f b).
Proof. intros Hf. revert i b. induction k; cbn [loop_up]; auto. Qed.

Lemma loop_down_typed n k f b :
  (forall b i, typed n b -> typed n (f b i)) -> typed n b -> typed n (loop_down k f b).
Proof. intros Hf. revert b. induction k; cbn [loop_down]; auto. Qed.

Lemma for_bits_typed n v b : typed n b -> typed n (for_bits v b).
Proof. intros H. apply loop_up_typed; [|done]. intros. now apply setbit_typed. Qed.

Create HintDb typed.
#[local] Hint Resolve setbit_typed loop_up_typed loop_down_typed for_bits_typed : typed.

Lemma clearrange_typed n b i j : typed n b -> typed n (bitmask_clearrange b i j).
Proof. intros. apply loop_up_typed; eauto with typed. Qed.

Lemma set_chunk_typed n k words chunk v b b' :
  typed n b -> set_chunk k words chunk v b = Some b' -> typed n b'.
Proof.
  revert b. induction k as [|k IH]; intros b Hb; cbn [set_chunk]; [congruence|].
  destruct (words <=? _); [done|]. apply IH. now apply setbit_typed.
Qed.

Lemma parsehex_typed n fuel words q chunk b b' :
  typed n b -> parsehex_loop fuel words q chunk b = Some b' -> typed n b'.
Proof.
  revert q chunk b. induction fuel as [|fuel IH]; intros q chunk b Hb; cbn [parsehex_loop];
    [congruence|].
  destruct q as [p|]; [|congruence]. destruct (strtoul 16 p) as [v e].
  destruct (_ || _); [done|]. destruct (match nexttoken _ _ with Some _ => _ | None => _ end); [done|].
  destruct (set_chunk _ _ _ _ b) as [b1|] eqn:E; [|done]. apply IH. eapply set_chunk_typed; eauto.
Qed.

Lemma set_stride_typed n fuel a z s b b' :
  typed n b -> set_stride fuel a z s b = Some b' -> typed n b'.
Proof.
  revert a b. induction fuel as [|fuel IH]; intros a b Hb; cbn [set_stride];
    (destruct (z <? a); [congruence|]); [done|]. apply IH. now apply setbit_typed.
Qed.

Lemma parselist_typed n fuel sfuel q b b' :
  typed n b -> parselist_loop fuel sfuel q b = Parsed b' -> typed n b'.
Proof.
  revert q b. induction fuel as [|fuel IH]; intros q b Hb; cbn [parselist_loop]; [congruence|].
  destruct q as [p|]; [|congruence]. destruct (parse_range p) as [[[a z] s]|]; [|done].
  destruct (z <? a); [done|]. destruct (size b <=? z); [done|].
  destruct (set_stride _ _ _ _ b) as [b1|] eqn:E; [|done]. apply IH. eapply set_stride_typed; eauto.
Qed.

Lemma mask_op_typed n b b' : mask_op b b' -> typed n b -> typed n b'.
Proof.
  intros Hop Hb. destruct Hop; try (now apply for_bits_typed); try (now apply setbit_typed).
  - apply loop_down_typed; eauto with typed.
  - apply loop_up_typed; eauto with typed.
  - now apply clearrange_typed.
  - now apply clearrange_typed, clearrange_typed.
  - unfold bitmask_parsehex in H. destruct (parsehex_loop _ _ _ _ _) as [b1|] eqn:E.
    + assert (b1 = b') by congruence. subst. eapply parsehex_typed; [|exact E]. now apply for_bits_typed.
    + assert (b' = bitmask_clearall (bitmask_clearall b)) by congruence. subst.
      now apply for_bits_typed, for_bits_typed.
  - unfold bitmask_parselist in H. destruct (parselist_loop _ _ _ _) as [b1| |] eqn:E; [| |done].
    + assert (b1 = b') by congruence. subst. eapply parselist_typed; [|exact E]. now apply for_bits_typed.
    + assert (b' = bitmask_clearall (bitmask_clearall b)) by congruence. subst.
      now apply for_bits_typed, for_bits_typed.
Qed.

Lemma alloc_typed n b : 0 <= n <= INT_MAX -> bitmask_alloc true true n = Some b -> typed n b.
Proof.
  intros Hn [= <-]. split; [split; cbn [size maskp]; [done|]|split; [done|]].
  - rewrite length_replicate, Z2Nat.id; [done|]. unfold longsperbits, howmany, bitsperlong.
    apply Z.div_pos; lia.
  - cbn [maskp]. now apply Forall_replicate.
Qed.


