(* ===== verification/Fsx.v ===== *)
(** The file system exerciser (testcases/kernel/fs/fsx-linux/fsx-linux.c):
    random reads, writes, mapped accesses and truncations of a file, checked
    against a copy of its contents in memory.  The kernel is the class
    [System]: each call changes its state and answers.  Output is not modelled;
    the log of operations is. *)
From Stdlib Require Import Ascii String ZArith Lia Bool.
From stdpp Require Import base list sets numbers.
From S2P Require Import Prelude CString Effects.

Local Open Scope Z_scope.

(** ** The kernel *)

Inductive whence := SEEK_SET | SEEK_END.

(** The calls fsx makes.  A buffer the kernel fills is answered as the list of
    its bytes; a mapping is the address it starts at. *)
Class System := {
  sys : Type;
  malloc_ok : sys -> Z -> bool;
  random : sys -> sys * Z;
  gettimeofday : sys -> sys * (Z * Z);
  open_ : sys -> cstr -> bool -> sys * Z;          (* path, with O_CREAT and O_TRUNC *)
  close_ : sys -> Z -> sys * Z;
  lseek : sys -> Z -> Z -> whence -> sys * Z;
  read_ : sys -> Z -> Z -> sys * (Z * list Z);
  write_ : sys -> Z -> list Z -> sys * Z;
  ftruncate : sys -> Z -> Z -> sys * Z;
  fstat_size : sys -> Z -> sys * option Z;
  mmap : sys -> Z -> Z -> Z -> sys * option Z;     (* length, descriptor, offset *)
  mload : sys -> Z -> Z -> list Z;                 (* address, length *)
  mstore : sys -> Z -> list Z -> sys;
  msync : sys -> Z -> Z -> sys * Z;
  munmap : sys -> Z -> Z -> sys * Z
}.

(** ** Global variables *)

Inductive operation :=
| OP_READ | OP_WRITE | OP_TRUNCATE | OP_CLOSEOPEN | OP_MAPREAD | OP_MAPWRITE | OP_SKIPPED.

Definition op_code (o : operation) : Z :=
  match o with
  | OP_READ => 1 | OP_WRITE => 2 | OP_TRUNCATE => 3 | OP_CLOSEOPEN => 4
  | OP_MAPREAD => 5 | OP_MAPWRITE => 6 | OP_SKIPPED => 7
  end.

Record log_entry := mkEntry { operation_ : operation; tv : Z * Z; args : Z * Z * Z }.

Definition LOGSIZE : nat := 1000.

Inductive fd_iteration_policy := FD_SINGLE | FD_ROTATE | FD_RANDOM.

(** The variables the options set. *)
Record options := mkOptions {
  simulatedopcount : Z; closeprob : Z; debugstart : Z; maxfilelen : Z; sizechecks : bool;
  maxoplen : Z; quiet : bool; progressinterval : Z; readbdy : Z; style : Z; truncbdy : Z;
  writebdy : Z; monitorstart : Z; monitorend : Z; lite : bool; numops : Z; randomoplen : bool;
  seed : Z; mapped_writes : bool; mapped_reads : bool; fd_policy : fd_iteration_policy;
  debug0 : Z
}.

Section Fsx.
Context `{System}.

(** The variables the operations change, and the kernel. *)
Record state := mkState {
  kernel : sys;
  file_size : Z; biggest : Z; testcalls : Z; debug : Z; badoff : Z; fd_last : Z;
  original_buf : list Z; good_buf : list Z; temp_buf : list Z;
  oplog : list log_entry; logptr : nat; logcount : Z;
  test_files : list (cstr * Z); fsxgoodfd : Z;
  tf_buf : option Z                      (* its size *)
}.

Definition set_kernel k s := mkState k (file_size s) (biggest s) (testcalls s) (debug s) (badoff s) (fd_last s) (original_buf s) (good_buf s) (temp_buf s) (oplog s) (logptr s) (logcount s) (test_files s) (fsxgoodfd s) (tf_buf s).
Definition set_file_size v s := mkState (kernel s) v (biggest s) (testcalls s) (debug s) (badoff s) (fd_last s) (original_buf s) (good_buf s) (temp_buf s) (oplog s) (logptr s) (logcount s) (test_files s) (fsxgoodfd s) (tf_buf s).
Definition set_biggest v s := mkState (kernel s) (file_size s) v (testcalls s) (debug s) (badoff s) (fd_last s) (original_buf s) (good_buf s) (temp_buf s) (oplog s) (logptr s) (logcount s) (test_files s) (fsxgoodfd s) (tf_buf s).
Definition set_testcalls v s := mkState (kernel s) (file_size s) (biggest s) v (debug s) (badoff s) (fd_last s) (original_buf s) (good_buf s) (temp_buf s) (oplog s) (logptr s) (logcount s) (test_files s) (fsxgoodfd s) (tf_buf s).
Definition set_debug v s := mkState (kernel s) (file_size s) (biggest s) (testcalls s) v (badoff s) (fd_last s) (original_buf s) (good_buf s) (temp_buf s) (oplog s) (logptr s) (logcount s) (test_files s) (fsxgoodfd s) (tf_buf s).
Definition set_badoff v s := mkState (kernel s) (file_size s) (biggest s) (testcalls s) (debug s) v (fd_last s) (original_buf s) (good_buf s) (temp_buf s) (oplog s) (logptr s) (logcount s) (test_files s) (fsxgoodfd s) (tf_buf s).
Definition set_fd_last v s := mkState (kernel s) (file_size s) (biggest s) (testcalls s) (debug s) (badoff s) v (original_buf s) (good_buf s) (temp_buf s) (oplog s) (logptr s) (logcount s) (test_files s) (fsxgoodfd s) (tf_buf s).
Definition set_original_buf v s := mkState (kernel s) (file_size s) (biggest s) (testcalls s) (debug s) (badoff s) (fd_last s) v (good_buf s) (temp_buf s) (oplog s) (logptr s) (logcount s) (test_files s) (fsxgoodfd s) (tf_buf s).
Definition set_good_buf v s := mkState (kernel s) (file_size s) (biggest s) (testcalls s) (debug s) (badoff s) (fd_last s) (original_buf s) v (temp_buf s) (oplog s) (logptr s) (logcount s) (test_files s) (fsxgoodfd s) (tf_buf s).
Definition set_temp_buf v s := mkState (kernel s) (file_size s) (biggest s) (testcalls s) (debug s) (badoff s) (fd_last s) (original_buf s) (good_buf s) v (oplog s) (logptr s) (logcount s) (test_files s) (fsxgoodfd s) (tf_buf s).
Definition set_log v p c s := mkState (kernel s) (file_size s) (biggest s) (testcalls s) (debug s) (badoff s) (fd_last s) (original_buf s) (good_buf s) (temp_buf s) v p c (test_files s) (fsxgoodfd s) (tf_buf s).
Definition set_test_files v s := mkState (kernel s) (file_size s) (biggest s) (testcalls s) (debug s) (badoff s) (fd_last s) (original_buf s) (good_buf s) (temp_buf s) (oplog s) (logptr s) (logcount s) v (fsxgoodfd s) (tf_buf s).
Definition set_fsxgoodfd v s := mkState (kernel s) (file_size s) (biggest s) (testcalls s) (debug s) (badoff s) (fd_last s) (original_buf s) (good_buf s) (temp_buf s) (oplog s) (logptr s) (logcount s) (test_files s) v (tf_buf s).
Definition set_tf_buf v s := mkState (kernel s) (file_size s) (biggest s) (testcalls s) (debug s) (badoff s) (fd_last s) (original_buf s) (good_buf s) (temp_buf s) (oplog s) (logptr s) (logcount s) (test_files s) (fsxgoodfd s) v.

Abbreviation F := (E state).

(** A call of the kernel. *)
Definition call {A} (f : sys -> sys * A) : F A := fun s =>
  let '(k, a) := f (kernel s) in Done a (set_kernel k s).

(** ** The log *)

Definition log4 (o : operation) (a0 a1 a2 : Z) (t : Z * Z) : F unit :=
  s ← get;
  require (logptr s <? length (oplog s))%nat;;
  modify (fun s =>
    let p := S (logptr s) in
    set_log (<[logptr s := mkEntry o t (s32 a0, s32 a1, s32 a2)]> (oplog s))
      (if (LOGSIZE <=? p)%nat then O else p) (s32 (logcount s + 1)) s).

(** The entries [logdump] prints from slot [i] on, with their numbers. *)
Fixpoint dump_from (count i : nat) (total : Z) (log : list log_entry) : list (Z * log_entry) :=
  match count with
  | O => []
  | S count =>
      let opnum := Z.of_nat i + 1 + Z.quot total (Z.of_nat LOGSIZE) * Z.of_nat LOGSIZE in
      let rest := dump_from count (if (S i =? LOGSIZE)%nat then O else S i) total log in
      match log !! i with
      | Some lp => (opnum, lp) :: rest
      | None => rest
      end
  end.

Definition logdump (s : state) : list (Z * log_entry) :=
  if logcount s <? Z.of_nat LOGSIZE
  then dump_from (Z.to_nat (logcount s)) 0 (logcount s) (oplog s)
  else dump_from LOGSIZE (logptr s) (logcount s) (oplog s).

(** The texts of [logdump].  The arguments are [int]s, added as they are printed. *)
Definition hex (z : Z) : cstr := §"0x" ++ fmt_nat 16 (u32 z).

Definition range_text (name : cstr) (a0 a1 : Z) : cstr :=
  name ++ hex a0 ++ §" thru " ++ hex (a0 + a1 - 1) ++ §" (" ++ hex a1 ++ §" bytes)".

(** The bad offset is one of the bytes an operation touched. *)
Definition touches (bad from upto : Z) : bool := (from <=? bad) && (bad <? upto).

Definition dump_op (bad : Z) (e : log_entry) : cstr :=
  let '(a0, a1, a2) := args e in
  let mark (b : bool) (text : cstr) := if b then TAB :: text else [] in
  match operation_ e with
  | OP_MAPREAD =>
      range_text §"MAPREAD  " a0 a1 ++ mark (touches bad a0 (s32 (a0 + a1))) §"***RRRR***"
  | OP_MAPWRITE =>
      range_text §"MAPWRITE " a0 a1 ++ mark (touches bad a0 (s32 (a0 + a1))) §"******WWWW"
  | OP_READ =>
      range_text §"READ     " a0 a1 ++ mark (touches bad a0 (s32 (a0 + a1))) §"***RRRR***"
  | OP_WRITE =>
      range_text §"WRITE    " a0 a1 ++
      (if a2 <? a0 then §" HOLE" else if a2 <? s32 (a0 + a1) then §" EXTEND" else []) ++
      mark (((a0 <=? bad) || (a2 <=? bad)) && (bad <? s32 (a0 + a1))) §"***WWWW"
  | OP_TRUNCATE =>
      let down := a0 <? a1 in
      §"TRUNCATE " ++ (if down then §"DOWN" else §"UP") ++ TAB :: §"from " ++ hex a1 ++ §" to " ++ hex a0 ++
      mark (if down then touches bad a0 a1 else touches bad a1 a0) §"******WWWW"
  | OP_CLOSEOPEN => §"CLOSE/OPEN"
  | OP_SKIPPED => §"SKIPPED (no operation)"
  end.

(** [%06lu]. *)
Definition fmt_06 (z : Z) : cstr :=
  let d := fmt_nat 10 (u64 z) in replicate (6 - length d) "0"%char ++ d.

Definition dump_line (bad : Z) (shown : Z * log_entry) : cstr :=
  fmt_d shown.1 ++ §": " ++ fmt_nat 10 (u64 (tv shown.2).1) ++ §"." ++ fmt_06 (tv shown.2).2 ++
  §" " ++ dump_op bad shown.2.

(** What [logdump] prints, by lines. *)
Definition logdump_text (s : state) : list cstr :=
  (§"LOG DUMP (" ++ fmt_d (logcount s) ++ §" total operations):") :: (dump_line (badoff s) <$> logdump s).

(** ** Failures *)

Definition save_buffer (opt : options) (buffer : list Z) (bufferlength fd : Z) : F unit :=
  if (fd <=? 0) || (bufferlength =? 0) then mret tt
  else if INT_MAX <? bufferlength then exit 67
  else
    len ← (if lite opt then
             size_by_seek ← call (fun k => lseek k fd 0 SEEK_END);
             mret (if size_by_seek =? -1 then bufferlength
                   else if size_by_seek <? bufferlength then size_by_seek else bufferlength)
           else mret bufferlength);
    _ ← call (fun k => lseek k fd 0 SEEK_SET);
    _ ← call (fun k => write_ k fd (take (Z.to_nat len) buffer));
    mret tt.

Definition report_failure {A} (opt : options) (status : Z) : F A :=
  s ← get;
  (if fsxgoodfd s =? 0 then mret tt
   else save_buffer opt (good_buf s) (file_size s) (fsxgoodfd s);;
        _ ← call (fun k => close_ k (fsxgoodfd s)); mret tt);;
  exit status.

(** [short_at(&buf[i])]. *)
Definition short_at (buf : list Z) (i : Z) : option Z :=
  match buf !! Z.to_nat i, buf !! S (Z.to_nat i) with
  | Some a, Some b => Some (Z.lor (Z.shiftl a 8) b)
  | _, _ => None
  end.

(** The loop over the bytes of [check_buffers]: the number of bad bytes and the
    last bad offset.  At the first one it reads two bytes of each buffer. *)
Fixpoint bad_loop (k : nat) (good temp : list Z) (offset i n bad : Z) : option (Z * Z) :=
  match k with
  | O => Some (n, bad)
  | S k =>
      match good !! Z.to_nat offset, temp !! Z.to_nat i with
      | Some c, Some t =>
          if c =? t then bad_loop k good temp (offset + 1) (i + 1) n bad
          else if (n =? 0) && (match short_at temp i, short_at good offset with
                               | Some _, Some _ => false
                               | _, _ => true
                               end)
          then None
          else bad_loop k good temp (offset + 1) (i + 1) (n + 1) offset
      | _, _ => None
      end
  end.

Definition bytes_eqb (a b : list Z) : bool := bool_decide (a = b).

Definition check_buffers (opt : options) (offset size : Z) : F unit :=
  s ← get;
  require ((offset + size <=? Z.of_nat (length (good_buf s))) &&
           (size <=? Z.of_nat (length (temp_buf s))));;
  if bytes_eqb (slice offset size (good_buf s)) (slice 0 size (temp_buf s)) then mret tt
  else match bad_loop (Z.to_nat size) (good_buf s) (temp_buf s) offset 0 0 (badoff s) with
       | None => undefined
       | Some (_, bad) => modify (set_badoff (s32 bad));; report_failure opt 110
       end.

(** ** The test files *)

(** The index of the file the next operation uses. *)
Definition get_tf (opt : options) : F nat :=
  s ← get;
  index ← match fd_policy opt with
          | FD_ROTATE => modify (set_fd_last (s32 (fd_last s + 1)));; mret (u32 (fd_last s))
          | FD_RANDOM => r ← call random; mret (u32 r)
          | FD_SINGLE => mret 0
          end;
  require (negb (length (test_files s) =? 0)%nat);;
  mret (Z.to_nat (index mod Z.of_nat (length (test_files s)))).

(** [tf->fd]. *)
Definition tf_fd (tf : nat) : F Z :=
  s ← get;
  match test_files s !! tf with Some (_, fd) => mret fd | None => undefined end.

Definition get_fd (opt : options) : F Z := tf ← get_tf opt; tf_fd tf.

Fixpoint open_loop (opt : options) (argv : list cstr) : F (list (cstr * Z)) :=
  match argv with
  | [] => mret []
  | path :: argv =>
      fd ← call (fun k => open_ k path (negb (lite opt)));
      if fd <? 0 then exit 91
      else rest ← open_loop opt argv; mret ((path, fd) :: rest)
  end.

(** The policy is fixed to FD_SINGLE when there is one file. *)
Definition single_policy (opt : options) (argc : nat) : options :=
  if (argc =? 1)%nat then
    mkOptions (simulatedopcount opt) (closeprob opt) (debugstart opt) (maxfilelen opt)
      (sizechecks opt) (maxoplen opt) (quiet opt) (progressinterval opt) (readbdy opt) (style opt)
      (truncbdy opt) (writebdy opt) (monitorstart opt) (monitorend opt) (lite opt) (numops opt)
      (randomoplen opt) (seed opt) (mapped_writes opt) (mapped_reads opt) FD_SINGLE (debug0 opt)
  else opt.

Definition open_test_files (opt : options) (argv : list cstr) : F unit :=
  s ← get;
  (if malloc_ok (kernel s) (Z.of_nat (length argv) * 16) then mret tt else exit 1);;
  files ← open_loop opt argv;
  modify (set_test_files files).

Fixpoint close_loop (opt : options) (files : list (cstr * Z)) : F unit :=
  match files with
  | [] => mret tt
  | (_, fd) :: files =>
      r ← call (fun k => close_ k fd);
      if r =? 0 then close_loop opt files else report_failure opt 99
  end.

Definition close_test_files (opt : options) : F unit :=
  s ← get; close_loop opt (test_files s).

(** ** Checks of the size *)

Definition check_size (opt : options) : F unit :=
  fd ← get_fd opt;
  st ← call (fun k => fstat_size k fd);
  let st_size := match st with Some z => z | None => -1 end in
  size_by_seek ← call (fun k => lseek k fd 0 SEEK_END);
  s ← get;
  if negb (file_size s =? st_size) || negb (file_size s =? size_by_seek)
  then report_failure opt 120 else mret tt.

Definition check_trunc_hack (opt : options) : F unit :=
  fd ← get_fd opt;
  _ ← call (fun k => ftruncate k fd 0);
  _ ← call (fun k => ftruncate k fd 100000);
  st ← call (fun k => fstat_size k fd);
  let st_size := match st with Some z => z | None => -1 end in
  if st_size =? 100000 then _ ← call (fun k => ftruncate k fd 0); mret tt else exit 130.

(** ** Output *)

Definition alloc_tf_buf : F unit :=
  s ← get;
  let len := Z.of_nat (length (fmt_nat 10 (u32 (Z.of_nat (length (test_files s)) - 1)) ++ §" ")) + 1 in
  if malloc_ok (kernel s) len then modify (set_tf_buf (Some len)) else exit 1.

(** Writes the index of the file and a blank into the buffer. *)
Definition fill_tf_buf (tf : nat) : F unit :=
  s ← get;
  (match tf_buf s with None => alloc_tf_buf | Some _ => mret tt end);;
  s ← get;
  require (match tf_buf s with
           | Some len => Z.of_nat (length (fmt_nat 10 (Z.of_nat tf) ++ §" ")) <? len
           | None => false
           end).

Definition output_line (opt : options) (tf : nat) (offset size : Z) : F unit :=
  s ← get;
  let shown :=
    negb (quiet opt) &&
    ((negb (progressinterval opt =? 0) && (testcalls s mod progressinterval opt =? 0)) ||
     (negb (debug s =? 0) &&
      ((monitorstart opt =? -1) ||
       ((monitorstart opt <? u32 (offset + size)) &&
        ((monitorend opt =? -1) || (offset <=? monitorend opt)))))) in
  if negb shown then mret tt
  else match fd_policy opt with
       | FD_SINGLE => mret tt
       | _ => fill_tf_buf tf
       end.

(** The times that are printed with [-d -d]. *)
Definition debug_time (opt : options) (offset size : Z) : F unit :=
  s ← get;
  when (negb (quiet opt) &&
        ((1 <? debug s) &&
         ((monitorstart opt =? -1) ||
          ((monitorstart opt <? u32 (offset + size)) &&
           ((monitorend opt =? -1) || (offset <=? monitorend opt))))))
    (_ ← call gettimeofday; mret tt).
End Fsx.
