(* ===== verification/FsxOps.v ===== *)
(** The operations of the file system exerciser and its main program. *)
From Stdlib Require Import Ascii String ZArith Lia Bool.
From stdpp Require Import base list sets numbers.
From S2P Require Import Prelude CString Effects Fsx.

Local Open Scope Z_scope.

Section Ops.
Context `{System}.
Abbreviation F := (E state).

(** ** Reads *)

(** The kernel fills the first bytes of [temp_buf], which is undefined when the
    buffer is shorter than what was asked for. *)
Definition read_temp (fd size : Z) : F Z :=
  s ← get;
  require (size <=? Z.of_nat (length (temp_buf s)));;
  r ← call (fun k => read_ k fd size);
  let bytes := take (Z.to_nat size) r.2 in
  modify (fun s => set_temp_buf (splice 0 bytes (temp_buf s)) s);;
  mret (u32 r.1).

Definition doread (opt : options) (offset size : Z) : F unit :=
  tf ← get_tf opt;
  fd ← tf_fd tf;
  let offset := offset - offset mod readbdy opt in
  t ← call gettimeofday;
  s ← get;
  if size =? 0 then log4 OP_SKIPPED (op_code OP_READ) offset size t
  else if file_size s <? u32 (size + offset) then log4 OP_SKIPPED (op_code OP_READ) offset size t
  else
    log4 OP_READ offset size 0 t;;
    if testcalls s <=? simulatedopcount opt then mret tt
    else
      output_line opt tf offset size;;
      ret ← call (fun k => lseek k fd offset SEEK_SET);
      (if ret =? -1 then report_failure opt 140 else mret tt);;
      iret ← read_temp fd size;
      debug_time opt offset size;;
      (if iret =? size then mret tt else report_failure opt 141);;
      check_buffers opt offset size.

(** [memcpy(temp_buf, p + pg_offset, size)]. *)
Definition load_temp (addr size : Z) : F unit :=
  s ← get;
  require (size <=? Z.of_nat (length (temp_buf s)));;
  modify (fun s => set_temp_buf (splice 0 (take (Z.to_nat size) (mload (kernel s) addr size)) (temp_buf s)) s).

(** [page_size] is what [getpagesize] answers. *)
Definition domapread (opt : options) (page_size offset size : Z) : F unit :=
  tf ← get_tf opt;
  fd ← tf_fd tf;
  let offset := offset - offset mod readbdy opt in
  t ← call gettimeofday;
  s ← get;
  if size =? 0 then log4 OP_SKIPPED (op_code OP_MAPREAD) offset size t
  else if file_size s <? u32 (size + offset) then log4 OP_SKIPPED (op_code OP_MAPREAD) offset size t
  else
    log4 OP_MAPREAD offset size 0 t;;
    if testcalls s <=? simulatedopcount opt then mret tt
    else
      output_line opt tf offset size;;
      let pg_offset := Z.land offset (page_size - 1) in
      let map_size := u32 (pg_offset + size) in
      p ← call (fun k => mmap k map_size fd (offset - pg_offset));
      match p with
      | None => report_failure opt 190
      | Some p =>
          debug_time opt offset size;;
          load_temp (p + pg_offset) size;;
          debug_time opt offset size;;
          r ← call (fun k => munmap k p map_size);
          (if r =? 0 then mret tt else report_failure opt 191);;
          debug_time opt offset size;;
          check_buffers opt offset size
      end.

(** ** Writes *)

(** The loop of [gendata], out of bounds when it leaves a buffer. *)
Fixpoint gendata (k : nat) (calls : Z) (original good : list Z) (offset : Z) : option (list Z) :=
  match k with
  | O => Some good
  | S k =>
      match original !! Z.to_nat offset, good !! Z.to_nat offset with
      | Some o, Some _ =>
          let c := calls mod 256 in
          let c := if offset mod 2 =? 0 then c else (c + o) mod 256 in
          gendata k calls original (<[Z.to_nat offset := c]> good) (offset + 1)
      | _, _ => None
      end
  end.

(** [memset(buf + off, 0, n)]. *)
Definition memset0 (off n : Z) (buf : list Z) : option (list Z) :=
  if off + n <=? Z.of_nat (length buf) then Some (splice off (replicate (Z.to_nat n) 0) buf)
  else None.

Definition set_good (g : option (list Z)) : F unit :=
  match g with Some g => modify (set_good_buf g) | None => undefined end.

(** What [dowrite] and [domapwrite] do to the copy: [code] is the status of the
    failure in lite mode. *)
Definition write_good (opt : options) (offset size code : Z) : F unit :=
  s ← get;
  set_good (gendata (Z.to_nat size) (testcalls s) (original_buf s) (good_buf s) offset);;
  s ← get;
  if file_size s <? u32 (offset + size) then
    (if file_size s <? offset
     then set_good (memset0 (file_size s) (offset - file_size s) (good_buf s)) else mret tt);;
    modify (set_file_size (u32 (offset + size)));;
    if lite opt then report_failure opt code else mret tt
  else mret tt.

Definition dowrite (opt : options) (offset size : Z) : F unit :=
  tf ← get_tf opt;
  fd ← tf_fd tf;
  let offset := offset - offset mod writebdy opt in
  t ← call gettimeofday;
  s ← get;
  if size =? 0 then log4 OP_SKIPPED (op_code OP_WRITE) offset size t
  else
    log4 OP_WRITE offset size (file_size s) t;;
    write_good opt offset size 149;;
    if testcalls s <=? simulatedopcount opt then mret tt
    else
      output_line opt tf offset size;;
      ret ← call (fun k => lseek k fd offset SEEK_SET);
      (if ret =? -1 then report_failure opt 150 else mret tt);;
      s ← get;
      iret ← call (fun k => write_ k fd (slice offset size (good_buf s)));
      debug_time opt offset size;;
      if u32 iret =? size then mret tt else report_failure opt 151.

(** The end of [domapwrite]: the file is extended, mapped and stored into. *)
Definition map_store (opt : options) (page_size fd cur_filesize offset size : Z) : F unit :=
  s ← get;
  (if cur_filesize <? file_size s then
     r ← call (fun k => ftruncate k fd (file_size s));
     if r =? -1 then exit 201 else debug_time opt offset size
   else mret tt);;
  let pg_offset := Z.land offset (page_size - 1) in
  let map_size := u32 (pg_offset + size) in
  p ← call (fun k => mmap k map_size fd (offset - pg_offset));
  match p with
  | None => report_failure opt 202
  | Some p =>
      debug_time opt offset size;;
      modify (fun s => set_kernel (mstore (kernel s) (p + pg_offset) (slice offset size (good_buf s))) s);;
      debug_time opt offset size;;
      r ← call (fun k => msync k p map_size);
      (if r =? 0 then mret tt else report_failure opt 203);;
      debug_time opt offset size;;
      r ← call (fun k => munmap k p map_size);
      (if r =? 0 then mret tt else report_failure opt 204);;
      debug_time opt offset size
  end.

Definition domapwrite (opt : options) (page_size offset size : Z) : F unit :=
  tf ← get_tf opt;
  fd ← tf_fd tf;
  let offset := offset - offset mod writebdy opt in
  t ← call gettimeofday;
  s ← get;
  if size =? 0 then log4 OP_SKIPPED (op_code OP_MAPWRITE) offset size t
  else
    log4 OP_MAPWRITE offset size 0 t;;
    write_good opt offset size 200;;
    if testcalls s <=? simulatedopcount opt then mret tt
    else
      output_line opt tf offset size;;
      map_store opt page_size fd (file_size s) offset size.

(** ** Truncation, closing and reopening *)

Definition debug_time2 (opt : options) : F unit :=
  s ← get;
  when (negb (quiet opt) && (1 <? debug s)) (_ ← call gettimeofday; mret tt).

Definition dotruncate (opt : options) (size : Z) : F unit :=
  s0 ← get;
  tf ← get_tf opt;
  fd ← tf_fd tf;
  let size := size - size mod truncbdy opt in
  t ← call gettimeofday;
  when (biggest s0 <? size) (modify (set_biggest size));;
  log4 OP_TRUNCATE size (u32 (file_size s0)) 0 t;;
  s ← get;
  (if file_size s <? size
   then set_good (memset0 (file_size s) (size - file_size s) (good_buf s)) else mret tt);;
  modify (set_file_size size);;
  if testcalls s <=? simulatedopcount opt then mret tt
  else
    output_line opt tf (u32 (s32 (file_size s0))) size;;
    r ← call (fun k => ftruncate k fd size);
    (if r =? -1 then report_failure opt 160 else mret tt);;
    debug_time2 opt.

Definition writefileimage (opt : options) : F unit :=
  fd ← get_fd opt;
  r ← call (fun k => lseek k fd 0 SEEK_SET);
  (if r =? -1 then report_failure opt 171 else mret tt);;
  s ← get;
  iret ← call (fun k => write_ k fd (take (Z.to_nat (file_size s)) (good_buf s)));
  (if iret =? file_size s then mret tt else report_failure opt 172);;
  if lite opt then mret tt
  else
    r ← call (fun k => ftruncate k fd (file_size s));
    if r =? -1 then report_failure opt 173 else mret tt.

Definition docloseopen (opt : options) : F unit :=
  tf ← get_tf opt;
  s ← get;
  if testcalls s <=? simulatedopcount opt then mret tt
  else
    t ← call gettimeofday;
    log4 OP_CLOSEOPEN (file_size s) (u32 (file_size s)) 0 t;;
    fd ← tf_fd tf;
    r ← call (fun k => close_ k fd);
    (if r =? 0 then mret tt else report_failure opt 180);;
    debug_time2 opt;;
    match test_files s !! tf with
    | None => undefined
    | Some (path, _) =>
        fd ← call (fun k => open_ k path false);
        modify (fun s => set_test_files (<[tf := (path, fd)]> (test_files s)) s);;
        (if fd <? 0 then report_failure opt 181 else mret tt);;
        debug_time2 opt
    end.

(** ** One test *)

(** [a % b], which traps when [b] is zero. *)
Definition umod (a b : Z) : F Z := require (negb (b =? 0));; mret (a mod b).

(** The operation chosen and its arguments. *)
Definition run_op (opt : options) (page_size op : Z) : F unit :=
  if negb (lite opt) && (op =? 3) && (Z.land (style opt) 1 =? 0) then
    r ← call random;
    size ← umod r (maxfilelen opt);
    dotruncate opt (u32 size)
  else
    size ← (if randomoplen opt then
              require (maxoplen opt <? INT_MAX);;
              r ← call random; umod r (maxoplen opt + 1)
            else mret (maxoplen opt));
    if negb (lite opt) && (op =? 3) then dotruncate opt (u32 size)
    else
      offset ← call random;
      if (op =? 1) || (op =? (if lite opt then 3 else 4)) then
        offset ← umod offset (maxfilelen opt);
        let size := if maxfilelen opt <? u64 (offset + size) then maxfilelen opt - offset else size in
        if negb (op =? 1) then domapwrite opt page_size (u32 offset) (u32 size)
        else dowrite opt (u32 offset) (u32 size)
      else
        s ← get;
        let offset := if file_size s =? 0 then 0 else offset mod u64 (file_size s) in
        let size := if u64 (file_size s) <? u64 (offset + size) then u64 (file_size s - offset) else size in
        if negb (op =? 0) then domapread opt page_size (u32 offset) (u32 size)
        else doread opt (u32 offset) (u32 size).

Definition test (opt : options) (page_size : Z) : F unit :=
  rv ← call random;
  let op := rv mod (3 + (if lite opt then 0 else 1) + (if mapped_writes opt then 1 else 0)) in
  let op := if (op =? 2) && negb (mapped_reads opt) then 0 else op in
  s ← get;
  (if (0 <? simulatedopcount opt) && (testcalls s =? simulatedopcount opt)
   then writefileimage opt else mret tt);;
  modify (fun s => set_testcalls (u64 (testcalls s + 1)) s);;
  s ← get;
  when ((0 <? debugstart opt) && (debugstart opt <=? testcalls s)) (modify (set_debug 1));;
  run_op opt page_size op;;
  s ← get;
  (if sizechecks opt && (simulatedopcount opt <? testcalls s) then check_size opt else mret tt);;
  if negb (closeprob opt =? 0) && (Z.shiftr rv 3 <? Z.quot (Z.shiftl 1 28) (closeprob opt))
  then docloseopen opt else mret tt.

Fixpoint tests (n : nat) (opt : options) (page_size : Z) : F unit :=
  match n with
  | O => mret tt
  | S n => test opt page_size;; tests n opt page_size
  end.
End Ops.
