(* ===== verification/FsxMain.v ===== *)
(** The main program of the file system exerciser: its options, the set-up, the
    tests and the end. *)
From Stdlib Require Import Ascii String ZArith Lia Bool.
From stdpp Require Import base list sets numbers.
From S2P Require Import Prelude CString Effects Fsx FsxOps.

Local Open Scope Z_scope.

(** ** The options *)

Definition with_simulatedopcount v o := mkOptions v (closeprob o) (debugstart o) (maxfilelen o) (sizechecks o) (maxoplen o) (quiet o) (progressinterval o) (readbdy o) (style o) (truncbdy o) (writebdy o) (monitorstart o) (monitorend o) (lite o) (numops o) (randomoplen o) (seed o) (mapped_writes o) (mapped_reads o) (fd_policy o) (debug0 o).
Definition with_closeprob v o := mkOptions (simulatedopcount o) v (debugstart o) (maxfilelen o) (sizechecks o) (maxoplen o) (quiet o) (progressinterval o) (readbdy o) (style o) (truncbdy o) (writebdy o) (monitorstart o) (monitorend o) (lite o) (numops o) (randomoplen o) (seed o) (mapped_writes o) (mapped_reads o) (fd_policy o) (debug0 o).
Definition with_debugstart v o := mkOptions (simulatedopcount o) (closeprob o) v (maxfilelen o) (sizechecks o) (maxoplen o) (quiet o) (progressinterval o) (readbdy o) (style o) (truncbdy o) (writebdy o) (monitorstart o) (monitorend o) (lite o) (numops o) (randomoplen o) (seed o) (mapped_writes o) (mapped_reads o) (fd_policy o) (debug0 o).
Definition with_maxfilelen v o := mkOptions (simulatedopcount o) (closeprob o) (debugstart o) v (sizechecks o) (maxoplen o) (quiet o) (progressinterval o) (readbdy o) (style o) (truncbdy o) (writebdy o) (monitorstart o) (monitorend o) (lite o) (numops o) (randomoplen o) (seed o) (mapped_writes o) (mapped_reads o) (fd_policy o) (debug0 o).
Definition with_sizechecks v o := mkOptions (simulatedopcount o) (closeprob o) (debugstart o) (maxfilelen o) v (maxoplen o) (quiet o) (progressinterval o) (readbdy o) (style o) (truncbdy o) (writebdy o) (monitorstart o) (monitorend o) (lite o) (numops o) (randomoplen o) (seed o) (mapped_writes o) (mapped_reads o) (fd_policy o) (debug0 o).
Definition with_maxoplen v o := mkOptions (simulatedopcount o) (closeprob o) (debugstart o) (maxfilelen o) (sizechecks o) v (quiet o) (progressinterval o) (readbdy o) (style o) (truncbdy o) (writebdy o) (monitorstart o) (monitorend o) (lite o) (numops o) (randomoplen o) (seed o) (mapped_writes o) (mapped_reads o) (fd_policy o) (debug0 o).
Definition with_quiet v o := mkOptions (simulatedopcount o) (closeprob o) (debugstart o) (maxfilelen o) (sizechecks o) (maxoplen o) v (progressinterval o) (readbdy o) (style o) (truncbdy o) (writebdy o) (monitorstart o) (monitorend o) (lite o) (numops o) (randomoplen o) (seed o) (mapped_writes o) (mapped_reads o) (fd_policy o) (debug0 o).
Definition with_progressinterval v o := mkOptions (simulatedopcount o) (closeprob o) (debugstart o) (maxfilelen o) (sizechecks o) (maxoplen o) (quiet o) v (readbdy o) (style o) (truncbdy o) (writebdy o) (monitorstart o) (monitorend o) (lite o) (numops o) (randomoplen o) (seed o) (mapped_writes o) (mapped_reads o) (fd_policy o) (debug0 o).
Definition with_readbdy v o := mkOptions (simulatedopcount o) (closeprob o) (debugstart o) (maxfilelen o) (sizechecks o) (maxoplen o) (quiet o) (progressinterval o) v (style o) (truncbdy o) (writebdy o) (monitorstart o) (monitorend o) (lite o) (numops o) (randomoplen o) (seed o) (mapped_writes o) (mapped_reads o) (fd_policy o) (debug0 o).
Definition with_truncbdy v o := mkOptions (simulatedopcount o) (closeprob o) (debugstart o) (maxfilelen o) (sizechecks o) (maxoplen o) (quiet o) (progressinterval o) (readbdy o) (style o) v (writebdy o) (monitorstart o) (monitorend o) (lite o) (numops o) (randomoplen o) (seed o) (mapped_writes o) (mapped_reads o) (fd_policy o) (debug0 o).
Definition with_writebdy v o := mkOptions (simulatedopcount o) (closeprob o) (debugstart o) (maxfilelen o) (sizechecks o) (maxoplen o) (quiet o) (progressinterval o) (readbdy o) (style o) (truncbdy o) v (monitorstart o) (monitorend o) (lite o) (numops o) (randomoplen o) (seed o) (mapped_writes o) (mapped_reads o) (fd_policy o) (debug0 o).
Definition with_monitorstart v o := mkOptions (simulatedopcount o) (closeprob o) (debugstart o) (maxfilelen o) (sizechecks o) (maxoplen o) (quiet o) (progressinterval o) (readbdy o) (style o) (truncbdy o) (writebdy o) v (monitorend o) (lite o) (numops o) (randomoplen o) (seed o) (mapped_writes o) (mapped_reads o) (fd_policy o) (debug0 o).
Definition with_monitorend v o := mkOptions (simulatedopcount o) (closeprob o) (debugstart o) (maxfilelen o) (sizechecks o) (maxoplen o) (quiet o) (progressinterval o) (readbdy o) (style o) (truncbdy o) (writebdy o) (monitorstart o) v (lite o) (numops o) (randomoplen o) (seed o) (mapped_writes o) (mapped_reads o) (fd_policy o) (debug0 o).
Definition with_lite v o := mkOptions (simulatedopcount o) (closeprob o) (debugstart o) (maxfilelen o) (sizechecks o) (maxoplen o) (quiet o) (progressinterval o) (readbdy o) (style o) (truncbdy o) (writebdy o) (monitorstart o) (monitorend o) v (numops o) (randomoplen o) (seed o) (mapped_writes o) (mapped_reads o) (fd_policy o) (debug0 o).
Definition with_numops v o := mkOptions (simulatedopcount o) (closeprob o) (debugstart o) (maxfilelen o) (sizechecks o) (maxoplen o) (quiet o) (progressinterval o) (readbdy o) (style o) (truncbdy o) (writebdy o) (monitorstart o) (monitorend o) (lite o) v (randomoplen o) (seed o) (mapped_writes o) (mapped_reads o) (fd_policy o) (debug0 o).
Definition with_randomoplen v o := mkOptions (simulatedopcount o) (closeprob o) (debugstart o) (maxfilelen o) (sizechecks o) (maxoplen o) (quiet o) (progressinterval o) (readbdy o) (style o) (truncbdy o) (writebdy o) (monitorstart o) (monitorend o) (lite o) (numops o) v (seed o) (mapped_writes o) (mapped_reads o) (fd_policy o) (debug0 o).
Definition with_seed v o := mkOptions (simulatedopcount o) (closeprob o) (debugstart o) (maxfilelen o) (sizechecks o) (maxoplen o) (quiet o) (progressinterval o) (readbdy o) (style o) (truncbdy o) (writebdy o) (monitorstart o) (monitorend o) (lite o) (numops o) (randomoplen o) v (mapped_writes o) (mapped_reads o) (fd_policy o) (debug0 o).
Definition with_mapped_writes v o := mkOptions (simulatedopcount o) (closeprob o) (debugstart o) (maxfilelen o) (sizechecks o) (maxoplen o) (quiet o) (progressinterval o) (readbdy o) (style o) (truncbdy o) (writebdy o) (monitorstart o) (monitorend o) (lite o) (numops o) (randomoplen o) (seed o) v (mapped_reads o) (fd_policy o) (debug0 o).
Definition with_mapped_reads v o := mkOptions (simulatedopcount o) (closeprob o) (debugstart o) (maxfilelen o) (sizechecks o) (maxoplen o) (quiet o) (progressinterval o) (readbdy o) (style o) (truncbdy o) (writebdy o) (monitorstart o) (monitorend o) (lite o) (numops o) (randomoplen o) (seed o) (mapped_writes o) v (fd_policy o) (debug0 o).
Definition with_fd_policy v o := mkOptions (simulatedopcount o) (closeprob o) (debugstart o) (maxfilelen o) (sizechecks o) (maxoplen o) (quiet o) (progressinterval o) (readbdy o) (style o) (truncbdy o) (writebdy o) (monitorstart o) (monitorend o) (lite o) (numops o) (randomoplen o) (seed o) (mapped_writes o) (mapped_reads o) v (debug0 o).
Definition set_debug0 v o := mkOptions (simulatedopcount o) (closeprob o) (debugstart o) (maxfilelen o) (sizechecks o) (maxoplen o) (quiet o) (progressinterval o) (readbdy o) (style o) (truncbdy o) (writebdy o) (monitorstart o) (monitorend o) (lite o) (numops o) (randomoplen o) (seed o) (mapped_writes o) (mapped_reads o) (fd_policy o) v.

(** The initial values. *)
Definition options0 : options :=
  mkOptions 0 0 0 (256 * 1024) true (64 * 1024) false 0 1 0 1 1 (-1) (-1) false (-1) true 1 true true
    FD_RANDOM 0.

(** [int] arithmetic, undefined when it overflows. *)
Definition int_mul (a b : Z) : option Z :=
  if (INT_MIN <=? a * b) && (a * b <=? INT_MAX) then Some (a * b) else None.

(** A number with an optional unit, and the text after it. *)
Definition getnum (s : cstr) : option (Z * cstr) :=
  let '(v, e, _) := strtol 0 s in
  let ret := s32 v in
  match e with
  | c :: r =>
      let unit :=
        if memc c §"bB" then Some 512 else if memc c §"kK" then Some 1024
        else if memc c §"mM" then Some (1024 * 1024) else if memc c §"wW" then Some 4 else None in
      match unit with
      | Some u => match int_mul ret u with Some v => Some (v, r) | None => None end
      | None => Some (ret, e)
      end
  | [] => Some (ret, e)
  end.

Abbreviation P := (E options).

Definition usage {A} : P A := exit 90.

Definition num (arg : cstr) : P (Z * cstr) :=
  match getnum arg with Some r => mret r | None => undefined end.

(** A number that must not satisfy [bad]. *)
Definition num_opt (arg : cstr) (bad : Z -> bool) (set : Z -> options -> options) : P unit :=
  r ← num arg;
  modify (set r.1);;
  if bad r.1 then usage else mret tt.

Definition assign_fd_policy (policy : cstr) : P unit :=
  if bool_decide (policy = §"random") then modify (with_fd_policy FD_RANDOM)
  else if bool_decide (policy = §"rotate") then modify (with_fd_policy FD_ROTATE)
  else exit 1.

Definition no_sizechecks : P unit := modify (with_sizechecks false).

Definition monitor_opt (arg : cstr) : P unit :=
  r ← num arg;
  modify (with_monitorstart r.1);;
  if r.1 <? 0 then usage
  else match r.2 with
       | c :: endp =>
           if negb (ceqb c ":") then usage
           else
             r ← num endp;
             modify (with_monitorend r.1);;
             (if r.1 <? 0 then usage else mret tt);;
             when (r.1 =? 0) (modify (with_monitorend (-1)));;
             modify (set_debug0 1);;
             no_sizechecks                          (* no break *)
       | [] => usage
       end.

(** One answer of [getopt]; [now] is [time(0)].  The option [s] is stored in a
    variable of [main], not in the global [style]. *)
Definition parse_opt (now : Z) (ch : ascii) (arg : cstr) : P unit :=
  if ceqb ch "b" then
    r ← num arg; (if u64 r.1 =? 0 then usage else modify (with_simulatedopcount (u64 r.1 - 1)))
  else if ceqb ch "c" then num_opt arg (fun v => v <=? 0) with_closeprob
  else if ceqb ch "d" then modify (fun o => set_debug0 (debug0 o + 1) o)
  else if ceqb ch "l" then num_opt arg (fun v => u64 v =? 0) (fun v => with_maxfilelen (u64 v))
  else if ceqb ch "m" then monitor_opt arg
  else if ceqb ch "n" then no_sizechecks
  else if ceqb ch "o" then num_opt arg (fun v => v <=? 0) with_maxoplen
  else if ceqb ch "p" then num_opt arg (fun _ => false) (fun v => with_progressinterval (u64 v))
  else if ceqb ch "q" then modify (with_quiet true)
  else if ceqb ch "r" then num_opt arg (fun v => v <=? 0) with_readbdy
  else if ceqb ch "s" then num_opt arg (fun v => (v <? 0) || (1 <? v)) (fun _ o => o)
  else if ceqb ch "t" then num_opt arg (fun v => v <=? 0) with_truncbdy
  else if ceqb ch "w" then num_opt arg (fun v => v <=? 0) with_writebdy
  else if ceqb ch "D" then num_opt arg (fun v => u64 v <? 1) (fun v => with_debugstart (u64 v))
  else if ceqb ch "I" then assign_fd_policy arg
  else if ceqb ch "L" then modify (with_lite true)
  else if ceqb ch "N" then num_opt arg (fun v => v <? 0) with_numops
  else if ceqb ch "O" then modify (with_randomoplen false)
  else if ceqb ch "P" then mret tt
  else if ceqb ch "R" then modify (with_mapped_reads false)
  else if ceqb ch "S" then
    r ← num arg;
    let seed := if r.1 =? 0 then Z.rem now 10000 else r.1 in
    modify (with_seed seed);; (if seed <? 0 then usage else mret tt)
  else if ceqb ch "W" then modify (with_mapped_writes false)
  else usage.

Fixpoint parse_opts (now : Z) (answers : list (ascii * cstr)) : P unit :=
  match answers with
  | [] => mret tt
  | (ch, arg) :: answers => parse_opt now ch arg;; parse_opts now answers
  end.

(** ** The run *)

Section Main.
Context `{System}.
Abbreviation F := (E state).

(** The global variables at the start. *)
Definition state0 (k : sys) : state :=
  mkState k 0 0 0 0 (-1) 0 [] [] [] (replicate LOGSIZE (mkEntry OP_SKIPPED (0, 0) (0, 0, 0))) 0 0 [] 0 None.

(** [for (i = 0; i < maxfilelen; i++) original_buf[i] = random() % 256] *)
Fixpoint fill_random (n : nat) : F (list Z) :=
  match n with
  | O => mret []
  | S n => r ← call random; rest ← fill_random n; mret (r mod 256 :: rest)
  end.

Definition malloc (n code : Z) : F unit :=
  s ← get; if malloc_ok (kernel s) n then mret tt else exit code.

(** In lite mode the size of the existing file is the size for all. *)
Definition lite_size (opt : options) : F options :=
  fd ← get_fd opt;
  size ← call (fun k => lseek k fd 0 SEEK_END);
  modify (set_file_size size);;
  (if size =? -1 then exit 94 else mret tt);;
  r ← call (fun k => lseek k fd 0 SEEK_SET);
  (if r =? -1 then exit 95 else mret tt);;
  mret (with_maxfilelen (u64 size) opt).

Definition zero_file (opt : options) : F unit :=
  fd ← get_fd opt;
  s ← get;
  written ← call (fun k => write_ k fd (take (Z.to_nat (maxfilelen opt)) (good_buf s)));
  if u64 written =? maxfilelen opt then mret tt else exit 98.

Definition alloc_buffers (opt : options) : F unit :=
  malloc (maxfilelen opt) 96;;
  original ← fill_random (Z.to_nat (maxfilelen opt));
  modify (set_original_buf original);;
  malloc (maxfilelen opt) 97;;
  modify (set_good_buf (replicate (Z.to_nat (maxfilelen opt)) 0));;
  malloc (maxoplen opt) 99;;
  modify (set_temp_buf (replicate (Z.to_nat (maxoplen opt)) 0)).

(** Everything before the tests: the options as they are used in them. *)
Definition set_up (opt : options) (argv : list cstr) (goodfile logfile : cstr) : F options :=
  (if (length argv <? 1)%nat then exit 90 else mret tt);;
  modify (set_debug (debug0 opt));;
  open_test_files opt argv;;
  let opt := single_policy opt (length argv) in
  fd ← call (fun k => open_ k goodfile true);
  modify (set_fsxgoodfd fd);;
  (if fd <? 0 then exit 92 else mret tt);;
  lf ← call (fun k => open_ k logfile true);
  (if lf <? 0 then exit 93 else mret tt);;
  opt ← (if lite opt then lite_size opt else mret opt);
  alloc_buffers opt;;
  (if lite opt then zero_file opt else check_trunc_hack opt);;
  mret opt.

(** The handler of all signals. *)
Definition cleanup (sig : Z) : F unit := exit sig.

(** Without a number of operations the tests go on until a signal [sig] comes,
    here after [stop] tests. *)
Definition fsx_main (opt : options) (argv : list cstr) (goodfile logfile : cstr) (page_size : Z)
    (stop : nat) (sig : Z) : F unit :=
  opt ← set_up opt argv goodfile logfile;
  if numops opt =? -1 then tests stop opt page_size;; cleanup sig
  else
    tests (Z.to_nat (numops opt)) opt page_size;;
    close_test_files opt.
End Main.
