(* ===== verification/FsxInv.v ===== *)
(** The file system exerciser on a kernel that does what POSIX says: the laws
    of the calls, the invariant of the copy in memory, and that no operation
    breaks it. *)
From Stdlib Require Import Ascii String ZArith Lia Bool.
From stdpp Require Import base list sets numbers.
From S2P Require Import Prelude CString Effects Fsx FsxOps.

Local Open Scope Z_scope.

(** ** A kernel without faults *)

(** [write] at [off] of a file with contents [l]: a hole is filled with zeros. *)
Definition overwrite (off : Z) (bs l : list Z) : list Z :=
  resize (Z.to_nat off) 0 l ++ bs ++ drop (Z.to_nat off + length bs) l.

(** All the paths name one regular file with contents [data]; [is_open] are the
    descriptors on it, [mapped p off len] the mappings of it. *)
Class Posix `{System} := {
  data : sys -> list Z;
  is_path : cstr -> Prop;
  is_open : sys -> Z -> Prop;
  pos : sys -> Z -> Z;
  mapped : sys -> Z -> Z -> Z -> Prop;
  pagesize : Z;
  same (k k' : sys) : Prop :=
    data k' = data k /\ (forall fd, is_open k fd -> is_open k' fd) /\
    (forall p off len, mapped k p off len -> mapped k' p off len);
  still (k k' : sys) : Prop := same k k' /\ (forall fd, is_open k fd -> pos k' fd = pos k fd);
  pagesize_pow2 : exists n, 0 <= n /\ pagesize = 2 ^ n;
  malloc_law k n : 0 <= n <= INT_MAX -> malloc_ok k n = true;
  random_law k k' r : random k = (k', r) -> 0 <= r <= INT_MAX /\ still k k';
  time_law k k' t : gettimeofday k = (k', t) -> same k k';
  seek_set_law k k' fd off r :
    lseek k fd off SEEK_SET = (k', r) -> is_open k fd -> 0 <= off ->
    r = off /\ pos k' fd = off /\ same k k' /\
    (forall fd', fd' <> fd -> is_open k fd' -> pos k' fd' = pos k fd');
  seek_end_law k k' fd r :
    lseek k fd 0 SEEK_END = (k', r) -> is_open k fd -> r = Z.of_nat (length (data k)) /\ same k k' /\
    (forall fd', fd' <> fd -> is_open k fd' -> pos k' fd' = pos k fd');
  read_law k k' fd n r bs :
    read_ k fd n = (k', (r, bs)) -> is_open k fd -> 0 <= n ->
    bs = slice (pos k fd) n (data k) /\ r = Z.of_nat (length bs) /\ same k k';
  write_law k k' fd bs r :
    write_ k fd bs = (k', r) -> is_open k fd ->
    r = Z.of_nat (length bs) /\ data k' = overwrite (pos k fd) bs (data k) /\
    (forall fd, is_open k fd -> is_open k' fd);
  ftruncate_law k k' fd n r :
    ftruncate k fd n = (k', r) -> is_open k fd -> 0 <= n ->
    r = 0 /\ data k' = resize (Z.to_nat n) 0 (data k) /\ (forall fd, is_open k fd -> is_open k' fd);
  fstat_law k k' fd r :
    fstat_size k fd = (k', r) -> is_open k fd -> r = Some (Z.of_nat (length (data k))) /\ same k k';
  mmap_law k k' len fd off r :
    mmap k len fd off = (k', r) -> is_open k fd -> 0 < len <= INT_MAX -> 0 <= off -> off mod pagesize = 0 ->
    exists p, r = Some p /\ mapped k' p off len /\ same k k';
  mload_law k p off len o n :
    mapped k p off len -> 0 <= o -> 0 <= n -> o + n <= len -> off + o + n <= Z.of_nat (length (data k)) ->
    mload k (p + o) n = slice (off + o) n (data k);
  mstore_law k p off len o bs :
    mapped k p off len -> 0 <= o -> o + Z.of_nat (length bs) <= len ->
    off + o + Z.of_nat (length bs) <= Z.of_nat (length (data k)) ->
    data (mstore k (p + o) bs) = splice (off + o) bs (data k) /\
    (forall fd, is_open k fd -> is_open (mstore k (p + o) bs) fd) /\
    mapped (mstore k (p + o) bs) p off len;
  msync_law k k' p off len r : msync k p len = (k', r) -> mapped k p off len -> r = 0 /\ same k k';
  munmap_law k k' p off len r :
    munmap k p len = (k', r) -> mapped k p off len ->
    r = 0 /\ data k' = data k /\ (forall fd, is_open k fd -> is_open k' fd);
  close_law k k' fd r :
    close_ k fd = (k', r) -> is_open k fd ->
    r = 0 /\ data k' = data k /\ (forall fd', fd' <> fd -> is_open k fd' -> is_open k' fd');
  open_law k k' path fd :
    open_ k path false = (k', fd) -> is_path path ->
    0 <= fd /\ (~ is_open k fd) /\ is_open k' fd /\ data k' = data k /\ pos k' fd = 0 /\
    (forall fd', is_open k fd' -> is_open k' fd' /\ pos k' fd' = pos k fd');
  creat_law k k' path fd :
    open_ k path true = (k', fd) -> is_path path ->
    0 <= fd /\ (~ is_open k fd) /\ is_open k' fd /\ data k' = [] /\ pos k' fd = 0 /\
    (forall fd', is_open k fd' -> is_open k' fd' /\ pos k' fd' = pos k fd');
  other_file_law k k' path creat fd :
    open_ k path creat = (k', fd) -> (~ is_path path) -> 0 <= fd /\ still k k'
}.

Section Inv.
Context `{Posix}.
Context (opt : options).
Abbreviation F := (E state).

Lemma same_refl k : same k k.
Proof. split; [done|]. split; auto. Qed.

Lemma same_trans k1 k2 k3 : same k1 k2 -> same k2 k3 -> same k1 k3.
Proof. intros (A1 & A2 & A3) (B1 & B2 & B3). split; [congruence|]. split; auto. Qed.

(** The file and its descriptors are as before. *)
Definition kept (k k' : sys) : Prop :=
  data k' = data k /\ (forall fd, is_open k fd -> is_open k' fd).

Lemma same_kept k k' : same k k' -> kept k k'.
Proof. intros (A1 & A2 & _). now split. Qed.

Lemma kept_refl k : kept k k.
Proof. now split. Qed.

Lemma kept_trans k1 k2 k3 : kept k1 k2 -> kept k2 k3 -> kept k1 k3.
Proof. intros [A1 A2] [B1 B2]. split; [congruence|auto]. Qed.

Hint Resolve same_refl same_kept kept_refl kept_trans : ltp.

Lemma ends_call {A} (f : sys -> sys * A) (Q : A -> state -> Prop) s :
  (forall k a, f (kernel s) = (k, a) -> Q a (set_kernel k s)) -> ends (call f) Q s.
Proof. intros HQ. unfold ends, call. destruct (f (kernel s)) as [k a] eqn:E. auto. Qed.

Lemma ends_get (Q : state -> state -> Prop) s : Q s s -> ends get Q s.
Proof. done. Qed.

(** ** The invariant *)

(** Options [main] accepts, with sizes that fit in an [int]. *)
Record sane : Prop := {
  sane_len : 0 < maxfilelen opt <= INT_MAX;
  sane_op : 0 < maxoplen opt < INT_MAX;
  sane_r : 0 < readbdy opt; sane_w : 0 < writebdy opt; sane_t : 0 < truncbdy opt;
  sane_style : style opt = 0;
  sane_sim : 0 <= simulatedopcount opt
}.

Definition tf_room (n : nat) (len : Z) : Prop :=
  Z.of_nat (length (fmt_nat 10 (Z.of_nat n - 1))) + 1 < len.

Record inv (s : state) : Prop := {
  i_files : test_files s <> [];
  i_nfiles : Z.of_nat (length (test_files s)) <= INT_MAX;
  i_open : Forall (fun f => is_path f.1 /\ is_open (kernel s) f.2) (test_files s);
  i_nodup : NoDup (snd <$> test_files s);
  i_orig : Z.of_nat (length (original_buf s)) = maxfilelen opt;
  i_good : Z.of_nat (length (good_buf s)) = maxfilelen opt;
  i_temp : Z.of_nat (length (temp_buf s)) = maxoplen opt;
  i_size : 0 <= file_size s <= maxfilelen opt;
  i_log : (logptr s < LOGSIZE)%nat /\ length (oplog s) = LOGSIZE;
  i_tf : match tf_buf s with Some len => tf_room (length (test_files s)) len | None => True end;
  i_lite : lite opt = true ->
    file_size s = maxfilelen opt /\ Z.of_nat (length (data (kernel s))) = maxfilelen opt
}.

(** The copy is the file. *)
Definition synced (s : state) : Prop :=
  data (kernel s) = take (Z.to_nat (file_size s)) (good_buf s).

(** Nothing but the log, the choice of the file and the kernel's own affairs
    changed. *)
Record idle (s s' : state) : Prop := {
  d_kernel : kept (kernel s) (kernel s');
  d_size : file_size s' = file_size s; d_calls : testcalls s' = testcalls s;
  d_orig : original_buf s' = original_buf s; d_good : good_buf s' = good_buf s;
  d_temp : length (temp_buf s') = length (temp_buf s);
  d_files : test_files s' = test_files s; 
  d_inv : inv s -> inv s'
}.

Lemma idle_trans s1 s2 s3 : idle s1 s2 -> idle s2 s3 -> idle s1 s3.
Proof.
  intros A B. destruct A, B. constructor; try congruence; eauto with ltp.
Qed.

Lemma idle_refl s : idle s s.
Proof. constructor; auto with ltp. Qed.

Lemma idle_synced s s' : idle s s' -> synced s -> synced s'.
Proof. intros [[D _] ? _ _ G _ _ _]. unfold synced. congruence. Qed.

Lemma idle_kernel s k : kept (kernel s) k -> idle s (set_kernel k s).
Proof.
  intros Hk. constructor; try done. intros [?????????? Hl]. destruct Hk as [HD HO].
  constructor; try done; cbn.
  - eapply Forall_impl; [|exact i_open0]. cbn. intros [p fd] [? ?]. split; [done|]. now apply HO.
  - now rewrite HD.
Qed.

(** ** The steps that change nothing *)

Lemma time_idle s : ends (call gettimeofday) (fun _ s' => idle s s') s.
Proof. apply ends_call. intros k t Hk. apply idle_kernel. apply time_law in Hk. auto with ltp. Qed.

Lemma random_idle s :
  ends (call random) (fun r s' => idle s s' /\ 0 <= r <= INT_MAX) s.
Proof.
  apply ends_call. intros k r Hk. apply random_law in Hk as [? [? _]].
  split; [apply idle_kernel; auto with ltp|done].
Qed.

Lemma fd_last_idle v s : idle s (set_fd_last v s).
Proof. constructor; try done. now intros []. Qed.

Lemma get_tf_idle s :
  test_files s <> [] -> ends (get_tf opt) (fun tf s' => idle s s' /\ (tf < length (test_files s))%nat) s.
Proof.
  intros Hf.
  assert (Hn : (0 < length (test_files s))%nat) by (destruct (test_files s); [done|cbn; lia]).
  unfold get_tf. estep. apply ends_get. estep.
  apply (ends_mono _ (fun idx s' => idle s s' /\ 0 <= idx)).
  - destruct (fd_policy opt).
    + apply ends_ret. split; [apply idle_refl|lia].
    + estep. estep. apply ends_ret. split; [apply fd_last_idle|apply u32_range].
    + estep. eapply ends_mono; [apply random_idle|]. intros r s' [? ?].
      apply ends_ret. split; [done|apply u32_range].
  - intros idx s' [Hi Hidx]. estep. estep; [|apply ends_ret; split; [done|]].
    + apply negb_true_iff, Nat.eqb_neq. lia.
    + pose proof (Z.mod_pos_bound idx (Z.of_nat (length (test_files s))) ltac:(lia)). lia.
Qed.

(** The files are open. *)
Definition files_open (s : state) : Prop :=
  test_files s <> [] /\ Forall (fun f => is_path f.1 /\ is_open (kernel s) f.2) (test_files s).

Lemma inv_files s : inv s -> files_open s.
Proof. now intros []. Qed.

Lemma tf_fd_open s tf :
  files_open s -> (tf < length (test_files s))%nat ->
  ends (tf_fd tf) (fun fd s' => s' = s /\ is_open (kernel s) fd /\
    exists path, test_files s !! tf = Some (path, fd)) s.
Proof.
  intros [_ Hopen] Htf. destruct (lookup_lt_is_Some_2 _ _ Htf) as [[path fd] Hl].
  unfold tf_fd. estep. apply ends_get. rewrite Hl. apply ends_ret. split; [done|].
  split; [|eauto]. now apply (Forall_lookup_1 _ _ _ _ Hopen Hl).
Qed.

(** The file and the time at the start of an operation. *)
Lemma start_idle {A} (k : nat -> Z -> Z * Z -> F A) Q s :
  inv s ->
  (forall tf fd t s', idle s s' -> (tf < length (test_files s))%nat -> is_open (kernel s) fd ->
     ends (k tf fd t) Q s') ->
  ends (tf ← get_tf opt; fd ← tf_fd tf; t ← call gettimeofday; k tf fd t) Q s.
Proof.
  intros Hinv Hk. estep. eapply ends_mono; [now apply get_tf_idle, inv_files|]. intros tf s1 [H1 Htf].
  pose proof (d_inv _ _ H1 Hinv) as Hinv1. rewrite <- (d_files _ _ H1) in Htf.
  estep. eapply ends_mono; [apply tf_fd_open; [now apply inv_files|done]|]. intros fd s2 (-> & Ho & path & Hl).
  estep. eapply ends_mono; [apply time_idle|]. intros t s3 H3.
  apply Hk; [now apply (idle_trans _ s1)|now rewrite <- (d_files _ _ H1)|].
  rewrite (d_files _ _ H1) in Hl. now apply (Forall_lookup_1 _ _ _ _ (i_open s Hinv) Hl).
Qed.

Lemma idle_files s s' : idle s s' -> files_open s -> files_open s'.
Proof.
  intros D [H1 H2]. split; rewrite (d_files _ _ D); [done|].
  eapply Forall_impl; [|exact H2]. intros [p fd] [? ?]. split; [done|]. now apply (d_kernel _ _ D).
Qed.

Lemma get_fd_open s :
  files_open s -> ends (get_fd opt) (fun fd s' => idle s s' /\ is_open (kernel s') fd) s.
Proof.
  intros Hf. unfold get_fd. estep. eapply ends_mono; [apply get_tf_idle, Hf|]. intros tf s1 [H1 Htf].
  rewrite <- (d_files _ _ H1) in Htf. eapply ends_mono; [apply tf_fd_open; eauto using idle_files|].
  now intros fd s2 (-> & Ho & _).
Qed.

Lemma log4_idle o a0 a1 a2 t s : inv s -> ends (log4 o a0 a1 a2 t) (fun _ s' => idle s s') s.
Proof.
  intros Hinv. pose proof (i_log s Hinv) as [Hp Hl]. unfold log4. estep. apply ends_get. estep. estep.
  - apply Nat.ltb_lt. congruence.
  - estep. constructor; try done. intros [? ? ? ? ? ? ? ? _ ? ?].
    constructor; try done. cbn [logptr oplog set_log]. rewrite length_insert. split; [|done].
    destruct (Nat.leb_spec LOGSIZE (S (logptr s))); [apply Nat.lt_0_succ|done].
Qed.

(** Only the kernel changed. *)
Definition only_kernel (s s' : state) : Prop :=
  exists k, s' = set_kernel k s /\ same (kernel s) k.

Lemma only_kernel_idle s s' : only_kernel s s' -> idle s s'.
Proof. intros (k & -> & Hk). apply idle_kernel. auto with ltp. Qed.

Lemma time_when_idle (b : bool) s :
  ends (when b (_ ← call gettimeofday; mret tt)) (fun _ s' => only_kernel s s') s.
Proof.
  estep; [|exists (kernel s); split; [now destruct s|apply same_refl]].
  estep. apply ends_call. intros k t Hk. apply time_law in Hk. apply ends_ret. now exists k.
Qed.

Lemma debug_time_idle off n s : ends (debug_time opt off n) (fun _ s' => only_kernel s s') s.
Proof. unfold debug_time. estep. apply ends_get. apply time_when_idle. Qed.

Lemma debug_time2_idle s : ends (debug_time2 opt) (fun _ s' => only_kernel s s') s.
Proof. unfold debug_time2. estep. apply ends_get. apply time_when_idle. Qed.

(** *** The buffer for the number of the file *)

Lemma alloc_tf_buf_idle s :
  inv s -> ends alloc_tf_buf (fun _ s' => idle s s' /\ exists len, tf_buf s' = Some len) s.
Proof.
  intros Hinv. pose proof (i_nfiles s Hinv) as Hn. pose proof (i_files s Hinv) as Hf.
  assert (Hpos : 0 < Z.of_nat (length (test_files s))) by (destruct (test_files s); [done|cbn; lia]).
  unfold INT_MAX in Hn. unfold alloc_tf_buf. estep. apply ends_get.
  rewrite u32_small by lia. set (n := Z.of_nat (length (test_files s)) - 1) in *.
  assert (Hlen : (length (fmt_nat 10 n) <= 10)%nat).
  { apply num_str_length; [lia| |lia]. change (10 ^ Z.of_nat 10) with 10000000000. lia. }
  rewrite malloc_law by (rewrite length_app; change (length §" ") with 1%nat; unfold INT_MAX; lia).
  estep. split; [|eauto]. constructor; try done.
  intros [? ? ? ? ? ? ? ? ? _ ?]. constructor; try done. cbn [tf_buf set_tf_buf test_files].
  unfold tf_room. fold n. rewrite length_app. change (length §" ") with 1%nat. lia.
Qed.

Lemma fmt_nat_length_mono a b : 0 <= a <= b -> (length (fmt_nat 10 a) <= length (fmt_nat 10 b))%nat.
Proof.
  intros Hab. apply num_str_length; [lia| |].
  - split; [lia|]. eapply Z.le_lt_trans; [exact (proj2 Hab)|].
    rewrite <- (fmt_nat_val 10 b) at 1 by lia. apply num_val_lt; [lia|]. apply fmt_nat_isdigit; lia.
  - pose proof (fmt_nat_nonnil 10 b). destruct (fmt_nat 10 b); [done|cbn; lia].
Qed.

Lemma fill_tf_buf_idle tf s :
  inv s -> (tf < length (test_files s))%nat -> ends (fill_tf_buf tf) (fun _ s' => idle s s') s.
Proof.
  intros Hinv Htf. unfold fill_tf_buf. estep. apply ends_get. estep.
  apply (ends_mono _ (fun _ s' => idle s s' /\ exists len, tf_buf s' = Some len)).
  - destruct (tf_buf s) eqn:E; [apply ends_ret; split; [apply idle_refl|eauto]|].
    now apply alloc_tf_buf_idle.
  - intros _ s' (Hs & len & E). estep. apply ends_get. rewrite E. apply ends_require; [|done].
    pose proof (i_tf s' (d_inv _ _ Hs Hinv)) as Hr. rewrite E, (d_files _ _ Hs) in Hr.
    unfold tf_room in Hr. apply Z.ltb_lt. rewrite length_app.
    change (length §" ") with 1%nat.
    pose proof (fmt_nat_length_mono (Z.of_nat tf) (Z.of_nat (length (test_files s)) - 1)). lia.
Qed.

Lemma output_line_idle tf off n s :
  inv s -> (tf < length (test_files s))%nat -> ends (output_line opt tf off n) (fun _ s' => idle s s') s.
Proof.
  intros Hinv Htf. unfold output_line. estep. apply ends_get. cbn zeta.
  destruct (negb _); [apply ends_ret, idle_refl|].
  destruct (fd_policy opt); [apply ends_ret, idle_refl|now apply fill_tf_buf_idle..].
Qed.
End Inv.

#[export] Hint Resolve same_refl same_kept kept_refl kept_trans idle_refl : ltp.
