(* ===== verification/FsxSound.v ===== *)
(** On a kernel that does what POSIX says no operation of the file system
    exerciser fails, and the copy in memory stays equal to the file. *)
From Stdlib Require Import Ascii String ZArith Lia Bool.
From stdpp Require Import base list sets numbers.
From S2P Require Import Prelude CString Effects Fsx FsxOps FsxInv.

Local Open Scope Z_scope.

Section Sound.
Context `{Posix}.
Context (opt : options) (Hsane : sane opt).
Abbreviation F := (E state).

(** The step [m] is idle; go on from there. *)
Ltac idle_step lem :=
  estep; eapply ends_mono; [now apply lem|].

Lemma temp_idle t s : length t = length (temp_buf s) -> idle opt s (set_temp_buf t s).
Proof.
  intros Ht. constructor; try done. intros []. constructor; try done. cbn. congruence.
Qed.

(** ** Reads *)

Lemma slice_splice (bs l : list Z) :
  (length bs <= length l)%nat -> slice 0 (Z.of_nat (length bs)) (splice 0 bs l) = bs.
Proof.
  intros Hl. unfold slice, splice. rewrite Nat2Z.id. change (Z.to_nat 0) with 0%nat.
  rewrite drop_0. cbn [take]. now rewrite app_nil_l, take_app_length.
Qed.

Lemma slice_take off n m (l : list Z) :
  0 <= off -> 0 <= n -> off + n <= m -> slice off n (take (Z.to_nat m) l) = slice off n l.
Proof.
  intros Ho Hn Hm. unfold slice. rewrite skipn_firstn_comm, take_take. f_equal. lia.
Qed.

Lemma read_temp_ok fd size s :
  inv opt s -> is_open (kernel s) fd -> 0 <= size <= maxoplen opt -> 0 <= pos (kernel s) fd ->
  pos (kernel s) fd + size <= Z.of_nat (length (data (kernel s))) ->
  ends (read_temp fd size) (fun r s' => idle opt s s' /\ r = size /\
    slice 0 size (temp_buf s') = slice (pos (kernel s) fd) size (data (kernel s))) s.
Proof.
  intros Hinv Ho Hn Hp Hle. pose proof (i_temp _ s Hinv) as Ht. pose proof (sane_op _ Hsane).
  unfold INT_MAX in *. unfold read_temp. estep. apply ends_get. estep. estep; [lia|]. estep.
  apply ends_call. intros k [r bs] Hr. apply read_law in Hr as (-> & -> & Hsame); [|done|lia].
  pose proof (length_slice (pos (kernel s) fd) size (data (kernel s)) Hp ltac:(lia) Hle) as Hlen.
  cbn [snd fst]. rewrite take_ge by lia. rewrite Hlen, Z2Nat.id by lia.
  set (bs := slice _ _ _) in *. estep. estep. estep.
  split; [|split; [apply u32_small; lia|]].
  - apply (idle_trans _ _ (set_kernel k s)); [apply idle_kernel; auto with ltp|].
    apply temp_idle. rewrite length_splice; cbn; lia.
  - cbn [temp_buf set_temp_buf set_kernel]. replace size with (Z.of_nat (length bs)) by lia.
    apply slice_splice. lia.
Qed.

(** Equal bytes pass the check. *)
Lemma check_buffers_ok off size s :
  0 <= off -> 0 <= size -> off + size <= Z.of_nat (length (good_buf s)) ->
  size <= Z.of_nat (length (temp_buf s)) ->
  slice 0 size (temp_buf s) = slice off size (good_buf s) ->
  ends (check_buffers opt off size) (fun _ s' => s' = s) s.
Proof.
  intros Ho Hn Hg Ht E. unfold check_buffers. estep. apply ends_get. estep. estep; [lia|].
  rewrite E. unfold bytes_eqb. rewrite bool_decide_true by done. now apply ends_ret.
Qed.

(** When the file is in use, the copy is the file. *)
Definition live (s : state) : Prop := simulatedopcount opt < testcalls s -> synced s.

Lemma idle_live s s' : idle opt s s' -> live s -> live s'.
Proof.
  intros Hs Hl Hc. apply (idle_synced opt s s' Hs). apply Hl. now rewrite <- (d_calls _ _ _ Hs).
Qed.

Lemma synced_length s : inv opt s -> synced s -> Z.of_nat (length (data (kernel s))) = file_size s.
Proof.
  intros Hinv Hsy. rewrite Hsy, length_take. pose proof (i_good _ s Hinv). pose proof (i_size _ s Hinv).
  lia.
Qed.

(** The argument rounded down to a boundary. *)
Lemma round_down a b : 0 <= a -> 0 < b -> 0 <= a - a mod b <= a.
Proof. intros Ha Hb. pose proof (Z.mod_pos_bound a b Hb). pose proof (Z.mod_le a b Ha Hb). lia. Qed.

(** Since [s0] nothing happened, and the invariant holds. *)
Definition since (s0 s : state) : Prop := idle opt s0 s /\ inv opt s /\ live s.

Lemma since_idle s0 s s' : since s0 s -> idle opt s s' -> since s0 s'.
Proof.
  intros (A1 & A2 & A3) Hi. split; [now apply (idle_trans _ _ s)|].
  split; [now apply (d_inv _ _ _ Hi)|now apply (idle_live s)].
Qed.

Lemma since_refl s : inv opt s -> live s -> since s s.
Proof. intros. split; [apply idle_refl|done]. Qed.

(** Go on after a step that changed nothing. *)
Lemma since_bind {A B} (m : F A) (f : A -> F B) (P : A -> state -> Prop) Q s0 s :
  since s0 s ->
  ends m (fun a s' => idle opt s s' /\ P a s') s ->
  (forall a s', since s0 s' -> P a s' -> ends (f a) Q s') ->
  ends (m ≫= f) Q s.
Proof.
  intros Hs Hm Hf. estep. eapply ends_mono; [exact Hm|]. intros a s' [Hi HP].
  apply Hf; [now apply (since_idle _ s)|done].
Qed.

Lemma since_skip {B} (m : F unit) (f : unit -> F B) Q s0 s :
  since s0 s -> ends m (fun _ s' => idle opt s s') s ->
  (forall s', since s0 s' -> ends (f tt) Q s') -> ends (m ≫= f) Q s.
Proof.
  intros Hs Hm Hf. apply (since_bind m f (fun _ _ => True) Q s0 s Hs).
  - eapply ends_mono; [exact Hm|]. auto.
  - intros [] s' Hs' _. now apply Hf.
Qed.

Lemma since_log4 o a0 a1 a2 t s0 s :
  since s0 s -> ends (log4 o a0 a1 a2 t) (fun _ s' => idle opt s0 s') s.
Proof.
  intros Hs. eapply ends_mono; [apply log4_idle, Hs|]. intros u s' Hi. now apply (since_idle _ s).
Qed.

(** The part [doread] and [domapread] share: the tests that skip the operation,
    and the log. *)
Lemma read_prefix (k : Z -> F unit) opc opr o size s :
  inv opt s -> live s -> 0 <= o -> 0 <= size -> o + size <= INT_MAX ->
  (forall fd s', since s s' -> is_open (kernel s) fd -> 0 < size -> o + size <= file_size s ->
     synced s' -> ends (k fd) (fun _ s' => idle opt s s') s') ->
  ends (tf ← get_tf opt; fd ← tf_fd tf; t ← call gettimeofday; s ← get;
        if size =? 0 then log4 OP_SKIPPED opc o size t
        else if file_size s <? u32 (size + o) then log4 OP_SKIPPED opc o size t
        else log4 opr o size 0 t;;
             if testcalls s <=? simulatedopcount opt then mret tt
             else output_line opt tf o size;; k fd)
    (fun _ s' => idle opt s s') s.
Proof.
  intros Hinv Hlive Ho Hn Hmax Hk. unfold INT_MAX in *.
  apply start_idle; [done|]. intros tf fd t s1 H1 Htf Hfd.
  pose proof (since_idle s s s1 (since_refl s Hinv Hlive) H1) as Hs1. rewrite <- (d_files _ _ _ H1) in Htf.
  estep. apply ends_get. rewrite u32_small by lia. rewrite (d_size _ _ _ H1), (d_calls _ _ _ H1).
  destruct (Z.eqb_spec size 0); [now apply since_log4|].
  destruct (Z.ltb_spec (file_size s) (size + o)); [now apply since_log4|].
  apply (since_skip _ _ _ s s1 Hs1); [apply log4_idle, Hs1|]. intros s2 Hs2.
  destruct (Z.leb_spec (testcalls s) (simulatedopcount opt)) as [|Hlv]; [apply ends_ret, Hs2|].
  apply (since_skip _ _ _ s s2 Hs2); [apply output_line_idle; [apply Hs2|]|].
  { rewrite (d_files _ _ _ (proj1 Hs2)), <- (d_files _ _ _ H1). done. }
  intros s3 Hs3. apply Hk; try done; try lia. apply Hs3. now rewrite (d_calls _ _ _ (proj1 Hs3)).
Qed.

(** The part after the bytes were read. *)
Lemma check_since o size s s' :
  since s s' -> 0 <= o -> 0 <= size <= maxoplen opt -> o + size <= file_size s ->
  slice 0 size (temp_buf s') = slice o size (good_buf s) ->
  ends (check_buffers opt o size) (fun _ s'' => idle opt s s'') s'.
Proof.
  intros Hs Ho Hn Hsz E. pose proof (i_good _ _ (proj1 (proj2 Hs))). pose proof (i_temp _ _ (proj1 (proj2 Hs))).
  pose proof (i_size _ _ (proj1 (proj2 Hs))). rewrite (d_size _ _ _ (proj1 Hs)) in *.
  eapply ends_mono; [apply check_buffers_ok|]; try lia.
  - now rewrite E, (d_good _ _ _ (proj1 Hs)).
  - intros v s'' ->. apply Hs.
Qed.

Lemma debug_since {B} off n (f : unit -> F B) Q s0 s :
  since s0 s -> (forall s', since s0 s' -> only_kernel s s' -> ends (f tt) Q s') ->
  ends (debug_time opt off n ≫= f) Q s.
Proof.
  intros Hs Hf. estep. eapply ends_mono; [apply debug_time_idle|]. intros [] s' Hk.
  apply Hf; [|done]. apply (since_idle _ s); [done|now apply only_kernel_idle].
Qed.

Lemma doread_ok off size s :
  inv opt s -> live s -> 0 <= off -> 0 <= size <= maxoplen opt -> off + size <= INT_MAX ->
  ends (doread opt off size) (fun _ s' => idle opt s s') s.
Proof.
  intros Hinv Hlive Ho Hn Hmax. unfold doread. cbn zeta.
  pose proof (round_down off (readbdy opt) Ho (sane_r _ Hsane)) as Hoff.
  set (o := off - off mod readbdy opt) in *. clearbody o.
  apply (read_prefix (fun fd => _)); try lia; try done. intros fd s3 Hs3 Hfd Hpos Hsz Hsync.
  estep. apply ends_call. intros k r Hk.
  pose proof (proj2 (d_kernel _ _ _ (proj1 Hs3)) fd Hfd) as Hfd3.
  apply seek_set_law in Hk as (-> & Hp & Hk & _); [|done|lia].
  rewrite (proj2 (Z.eqb_neq o (-1))) by lia. estep. estep.
  assert (Hs4 : since s (set_kernel k s3)) by (apply (since_idle _ s3); [done|apply idle_kernel; auto with ltp]).
  assert (Hdata : data k = take (Z.to_nat (file_size s)) (good_buf s)).
  { rewrite (proj1 Hk), Hsync, (d_size _ _ _ (proj1 Hs3)), (d_good _ _ _ (proj1 Hs3)). done. }
  pose proof (i_good _ _ Hinv). pose proof (i_size _ _ Hinv).
  apply (since_bind _ _ (fun r s' => r = size /\ slice 0 size (temp_buf s') = slice o size (good_buf s)) _ s _ Hs4).
  { eapply ends_mono; [apply (read_temp_ok fd); [apply Hs4|now apply (proj1 (proj2 Hk))|lia|cbn; lia|]|].
    - cbn. rewrite Hdata, length_take. lia.
    - cbn. intros a s' (Hi & -> & E). split; [done|]. split; [done|].
      rewrite E, Hp, Hdata. apply slice_take; lia. }
  intros a s5 Hs5 [-> E]. apply (debug_since _ _ _ _ s s5 Hs5). intros s6 Hs6 (k6 & -> & _).
  rewrite Z.eqb_refl. estep. estep. now apply check_since.
Qed.

(** *** Mapped reads *)

Lemma page_offset o :
  0 <= o -> let pg := Z.land o (pagesize - 1) in 0 <= pg <= o /\ pg < pagesize /\ (o - pg) mod pagesize = 0.
Proof.
  intros Ho. destruct pagesize_pow2 as (n & Hn & E). cbn zeta.
  assert (Hp : 0 < pagesize) by (rewrite E; now apply Z.pow_pos_nonneg).
  assert (Hl : Z.land o (pagesize - 1) = o mod pagesize).
  { rewrite E. replace (2 ^ n - 1) with (Z.ones n) by (rewrite Z.ones_equiv; lia). now apply Z.land_ones. }
  rewrite Hl. pose proof (Z.mod_pos_bound o pagesize Hp). pose proof (Z.mod_le o pagesize Ho Hp).
  split; [lia|]. split; [lia|]. rewrite Zminus_mod_idemp_r, Z.sub_diag. apply Z.mod_0_l. lia.
Qed.

Lemma load_temp_ok p off len o size s :
  inv opt s -> mapped (kernel s) p off len -> 0 <= o -> 0 <= size <= maxoplen opt -> 0 <= off ->
  o + size <= len -> off + o + size <= Z.of_nat (length (data (kernel s))) ->
  ends (load_temp (p + o) size) (fun _ s' => idle opt s s' /\ kernel s' = kernel s /\
    slice 0 size (temp_buf s') = slice (off + o) size (data (kernel s))) s.
Proof.
  intros Hinv Hm Ho Hn Hoff Hlen Hd. pose proof (i_temp _ s Hinv) as Ht.
  unfold load_temp. estep. apply ends_get. estep. estep; [lia|]. estep.
  rewrite (mload_law _ p off len o size) by (done || lia).
  pose proof (length_slice (off + o) size (data (kernel s)) ltac:(lia) ltac:(lia) Hd) as Hl.
  rewrite take_ge by lia. set (bs := slice (off + o) _ _) in *.
  split; [|split; [done|]].
  - apply temp_idle. rewrite length_splice; lia.
  - cbn [temp_buf set_temp_buf]. replace size with (Z.of_nat (length bs)) by lia. apply slice_splice. lia.
Qed.

Lemma domapread_ok off size s :
  inv opt s -> live s -> 0 <= off -> 0 <= size <= maxoplen opt -> off + size <= INT_MAX ->
  ends (domapread opt pagesize off size) (fun _ s' => idle opt s s') s.
Proof.
  intros Hinv Hlive Ho Hn Hmax. unfold domapread. cbn zeta.
  pose proof (round_down off (readbdy opt) Ho (sane_r _ Hsane)) as Hoff.
  set (o := off - off mod readbdy opt) in *. clearbody o.
  destruct (page_offset o ltac:(lia)) as (Hpg & Hpp & Hmod). cbn zeta in Hmod.
  set (pg := Z.land o (pagesize - 1)) in *. clearbody pg.
  apply (read_prefix (fun fd => _)); try lia; try done. intros fd s3 Hs3 Hfd Hpos Hsz Hsync.
  unfold INT_MAX in *. rewrite u32_small by lia.
  pose proof (proj2 (d_kernel _ _ _ (proj1 Hs3)) fd Hfd) as Hfd3.
  estep. apply ends_call. intros k r Hk.
  apply mmap_law in Hk as (p & -> & Hm & Hk); [|done|unfold INT_MAX; lia|lia|done].
  assert (Hs4 : since s (set_kernel k s3)) by (apply (since_idle _ s3); [done|apply idle_kernel; auto with ltp]).
  assert (Hdata : data k = take (Z.to_nat (file_size s)) (good_buf s)).
  { rewrite (proj1 Hk), Hsync, (d_size _ _ _ (proj1 Hs3)), (d_good _ _ _ (proj1 Hs3)). done. }
  pose proof (i_good _ _ Hinv). pose proof (i_size _ _ Hinv).
  apply (debug_since _ _ _ _ s _ Hs4). intros s5 Hs5 (k5 & -> & Hk5). cbn [set_kernel kernel] in *.
  assert (Hd5 : data k5 = take (Z.to_nat (file_size s)) (good_buf s)) by (rewrite (proj1 Hk5); done).
  apply (since_bind _ _ (fun _ s' => kernel s' = k5 /\ slice 0 size (temp_buf s') = slice o size (good_buf s)) _ s _ Hs5).
  { eapply ends_mono; [apply (load_temp_ok p (o - pg) (pg + size) pg); cbn; try lia|].
    - apply Hs5.
    - apply Hk5, Hm.
    - rewrite Hd5, length_take. lia.
    - cbn. intros u s' (Hi & Hks & E). split; [done|]. split; [done|].
      rewrite E, Hd5. replace (o - pg + pg) with o by lia. apply slice_take; lia. }
  intros u s6 Hs6 [Hk6 E6]. apply (debug_since _ _ _ _ s _ Hs6). intros s7 Hs7 (k7 & -> & Hk7).
  estep. apply ends_call. intros k8 r Hr. cbn [set_kernel kernel] in *.
  apply (munmap_law _ _ _ (o - pg)) in Hr as (-> & Hd8 & Ho8); [|apply Hk7; rewrite Hk6; apply Hk5, Hm].
  rewrite Z.eqb_refl. estep. estep.
  match goal with |- ends _ _ ?st => assert (Hs8 : since s st) end.
  { apply (since_idle _ _ _ Hs7). apply idle_kernel. now split. }
  apply (debug_since _ _ _ _ s _ Hs8). intros s9 Hs9 (k9 & -> & _). now apply check_since.
Qed.

(** ** Writes *)

(** The byte [gendata] puts at [i]. *)
Definition gen_byte (calls : Z) (original : list Z) (i : nat) : option Z :=
  match original !! i with
  | Some o => Some (if Z.of_nat i mod 2 =? 0 then calls mod 256 else (calls mod 256 + o) mod 256)
  | None => None
  end.

Lemma gendata_spec k calls original good off :
  0 <= off -> off + Z.of_nat k <= Z.of_nat (length original) -> length original = length good ->
  exists g, gendata k calls original good off = Some g /\ length g = length good /\
    forall i, g !! i = if decide (Z.to_nat off <= i < Z.to_nat off + k)%nat
                       then gen_byte calls original i else good !! i.
Proof.
  revert good off. induction k as [|k IH]; intros good off Ho Hl Hlen; cbn [gendata].
  - exists good. split; [done|]. split; [done|]. intros i. destruct (decide _); [lia|done].
  - destruct (lookup_lt_is_Some_2 original (Z.to_nat off) ltac:(lia)) as [o Eo].
    destruct (lookup_lt_is_Some_2 good (Z.to_nat off) ltac:(lia)) as [c Ec].
    rewrite Eo, Ec. set (v := if _ =? 0 then _ else _).
    destruct (IH (<[Z.to_nat off := v]> good) (off + 1)) as (g & G1 & G2 & G3);
      [lia|lia|rewrite length_insert; done|].
    rewrite length_insert in G2. exists g. split; [done|]. split; [done|]. intros i. rewrite G3.
    destruct (decide (i = Z.to_nat off)) as [->|Hne].
    + rewrite decide_False, decide_True by lia. rewrite list_lookup_insert_eq by lia.
      unfold gen_byte. rewrite Eo, Z2Nat.id by lia. done.
    + rewrite list_lookup_insert_ne by done.
      destruct (decide _), (decide _); try lia; done.
Qed.

(** *** The copy after a write *)

(** [g2] is the copy [g] of a file of [fs] bytes after the bytes from [off] to
    [off + n] changed and the gap before them was cleared. *)
Definition patched (fs off n : Z) (g g2 : list Z) : Prop :=
  length g2 = length g /\
  (forall i, Z.of_nat i < fs -> Z.of_nat i < off \/ off + n <= Z.of_nat i -> g2 !! i = g !! i) /\
  (forall i, fs <= Z.of_nat i < off -> g2 !! i = Some 0).

Lemma lookup_overwrite off bs l i :
  0 <= off ->
  overwrite off bs l !! i =
    if decide (i < Z.to_nat off)%nat then (match l !! i with Some x => Some x | None => Some 0 end)
    else if decide (i < Z.to_nat off + length bs)%nat then bs !! (i - Z.to_nat off)%nat
    else l !! i.
Proof.
  intros Ho. unfold overwrite. destruct (decide _).
  - rewrite lookup_app_l by (rewrite length_resize; lia).
    destruct (l !! i) eqn:E.
    + rewrite lookup_resize; [done|lia|]. now apply lookup_lt_Some in E.
    + apply lookup_resize_new; [|done]. now apply lookup_ge_None in E.
  - rewrite lookup_app_r by (rewrite length_resize; lia). rewrite length_resize.
    destruct (decide _).
    + now rewrite lookup_app_l by lia.
    + rewrite lookup_app_r by lia. rewrite lookup_drop. f_equal. lia.
Qed.

Lemma overwrite_patched fs off n g g2 :
  patched fs off n g g2 -> 0 <= fs <= Z.of_nat (length g) -> 0 <= off -> 0 <= n ->
  off + n <= Z.of_nat (length g) ->
  overwrite off (slice off n g2) (take (Z.to_nat fs) g) = take (Z.to_nat (Z.max fs (off + n))) g2.
Proof.
  intros (P1 & P2 & P3) Hfs Ho Hn Hl. apply list_eq. intros i.
  rewrite lookup_overwrite by done. rewrite length_slice by lia.
  destruct (decide (i < Z.to_nat off)%nat) as [Hi|Hi].
  - rewrite (lookup_take_lt g2) by lia. destruct (decide (i < Z.to_nat fs)%nat).
    + rewrite lookup_take_lt by done. rewrite P2 by lia.
      destruct (lookup_lt_is_Some_2 g i ltac:(lia)) as [x ->]. done.
    + rewrite lookup_take_ge by lia. rewrite P3 by lia. done.
  - destruct (decide (i < Z.to_nat off + Z.to_nat n)%nat).
    + rewrite lookup_slice, (lookup_take_lt g2) by lia. f_equal. lia.
    + destruct (decide (i < Z.to_nat fs)%nat).
      * rewrite !lookup_take_lt by lia. rewrite P2 by lia. done.
      * rewrite !lookup_take_ge by lia. done.
Qed.

(** The same for a mapped write, after the file was extended. *)
Lemma splice_patched fs off n g g2 :
  patched fs off n g g2 -> 0 <= fs <= Z.of_nat (length g) -> 0 <= off -> 0 <= n ->
  off + n <= Z.of_nat (length g) ->
  splice off (slice off n g2) (resize (Z.to_nat (Z.max fs (off + n))) 0 (take (Z.to_nat fs) g)) =
  take (Z.to_nat (Z.max fs (off + n))) g2.
Proof.
  intros (P1 & P2 & P3) Hfs Ho Hn Hl. apply list_eq. intros i.
  rewrite lookup_splice by (rewrite ?length_resize, ?length_slice; lia). rewrite length_slice by lia.
  destruct (decide _) as [Hi|Hi].
  - rewrite lookup_slice, lookup_take_lt by lia. f_equal. lia.
  - destruct (decide (i < Z.to_nat (Z.max fs (off + n)))%nat) as [Hm|Hm].
    + rewrite (lookup_take_lt g2) by lia. destruct (decide (i < Z.to_nat fs)%nat).
      * rewrite lookup_resize by (rewrite ?length_take; lia). rewrite lookup_take_lt by lia.
        rewrite P2 by lia. done.
      * rewrite lookup_resize_new by (rewrite ?length_take; lia). rewrite P3 by lia. done.
    + rewrite lookup_take_ge, lookup_ge_None_2 by (rewrite ?length_resize; lia). done.
Qed.

Definition set_file (fs : Z) (g : list Z) (s : state) : state := set_file_size fs (set_good_buf g s).

Lemma set_file_good g s : set_file (file_size s) g s = set_good_buf g s.
Proof. now destruct s. Qed.

Lemma memset0_spec off n g :
  0 <= off -> 0 <= n -> off + n <= Z.of_nat (length g) ->
  exists g2, memset0 off n g = Some g2 /\ length g2 = length g /\
    forall i, g2 !! i = if decide (off <= Z.of_nat i < off + n) then Some 0 else g !! i.
Proof.
  intros Ho Hn Hl. unfold memset0. rewrite (proj2 (Z.leb_le _ _)) by done. eexists. split; [done|].
  rewrite length_splice by (rewrite ?length_replicate; lia). split; [done|]. intros i.
  rewrite lookup_splice by (rewrite ?length_replicate; lia). rewrite length_replicate.
  destruct (decide (Z.to_nat off <= i < Z.to_nat off + Z.to_nat n)%nat), (decide _); try lia; [|done].
  apply lookup_replicate_2. lia.
Qed.

Lemma write_good_ok off size code s :
  inv opt s -> 0 <= off -> 0 < size -> off + size <= maxfilelen opt ->
  ends (write_good opt off size code) (fun _ s' => exists g2,
    patched (file_size s) off size (good_buf s) g2 /\
    s' = set_file (Z.max (file_size s) (off + size)) g2 s) s.
Proof.
  intros Hinv Ho Hn Hl. pose proof (sane_len _ Hsane). unfold INT_MAX in *.
  pose proof (i_orig _ s Hinv). pose proof (i_good _ s Hinv). pose proof (i_size _ s Hinv).
  unfold write_good. estep. apply ends_get. estep.
  destruct (gendata_spec (Z.to_nat size) (testcalls s) (original_buf s) (good_buf s) off)
    as (g & -> & Hg & Hlk); [lia..|]. rewrite u32_small by lia.
  cbn [set_good]. estep. estep. apply ends_get. cbn [file_size set_good_buf good_buf].
  assert (Hp : file_size s >= off -> patched (file_size s) off size (good_buf s) g).
  { intros Hge. split; [done|]. split; [|intros; lia]. intros i Hi Hout. rewrite Hlk.
    now rewrite decide_False by lia. }
  destruct (Z.ltb_spec (file_size s) (off + size)) as [Hext|Hin].
  2: { apply ends_ret. exists g. split; [apply Hp; lia|]. rewrite Z.max_l, set_file_good by lia. done. }
  assert (Hlite : lite opt = false).
  { destruct (lite opt) eqn:E; [|done]. destruct (i_lite _ s Hinv E). lia. }
  rewrite Hlite, Z.max_r by lia. estep. destruct (Z.ltb_spec (file_size s) off) as [Hgap|Hno].
  - destruct (memset0_spec (file_size s) (off - file_size s) g) as (g2 & -> & Hg2 & Hlk2); [lia..|].
    cbn [set_good]. estep. estep. estep. apply ends_ret. exists g2. split; [|done].
    split; [congruence|]. split; intros i Hi.
    + intros Hout. rewrite Hlk2, decide_False, Hlk, decide_False by lia. done.
    + now rewrite Hlk2, decide_True by lia.
  - estep. estep. estep. apply ends_ret. exists g. split; [apply Hp; lia|done].
Qed.

(** The invariant after the copy changed. *)
Lemma set_file_inv fs g s :
  inv opt s -> length g = length (good_buf s) -> 0 <= fs <= maxfilelen opt ->
  (lite opt = true -> fs = maxfilelen opt) -> inv opt (set_file fs g s).
Proof.
  intros Hi Hg Hfs Hl. destruct Hi. constructor; try done; cbn; [congruence|].
  intros E. split; [auto|]. now apply i_lite.
Qed.

(** The kernel's file changed. *)
Lemma kernel_inv k s :
  inv opt s -> (forall fd, is_open (kernel s) fd -> is_open k fd) ->
  (lite opt = true -> length (data k) = length (data (kernel s))) -> inv opt (set_kernel k s).
Proof.
  intros Hi Ho Hl. destruct Hi. constructor; try done; cbn.
  - eapply Forall_impl; [|exact i_open]. cbn. intros [? ?] [? ?]. auto.
  - intros E. rewrite Hl by done. now apply i_lite.
Qed.

(** The invariant holds again at the end of an operation. *)
Definition step (s s' : state) : Prop := inv opt s' /\ live s' /\ testcalls s' = testcalls s.

Lemma idle_step s s' : inv opt s -> live s -> idle opt s s' -> step s s'.
Proof.
  intros Hi Hl Hd. split; [now apply (d_inv _ _ _ Hd)|]. split; [now apply (idle_live s)|apply (d_calls _ _ _ Hd)].
Qed.

Lemma step_idle s s1 s2 : step s s1 -> idle opt s1 s2 -> step s s2.
Proof.
  intros (H1 & H2 & H3) Hd. split; [now apply (d_inv _ _ _ Hd)|].
  split; [now apply (idle_live s1)|]. now rewrite (d_calls _ _ _ Hd).
Qed.

(** In use after the copy changed and before the file, which holds [d], did. *)
Record pending (s : state) (off size : Z) (fd : Z) (d : list Z) (s' : state) : Prop := {
  p_inv : inv opt s';
  p_calls : testcalls s' = testcalls s;
  p_live : simulatedopcount opt < testcalls s;
  p_open : is_open (kernel s') fd;
  p_data : data (kernel s') = d;
  p_size : file_size s' = Z.max (file_size s) (off + size);
  p_good : patched (file_size s) off size (good_buf s) (good_buf s')
}.

Lemma pending_idle s off size fd d s1 s2 :
  pending s off size fd d s1 -> idle opt s1 s2 -> pending s off size fd d s2.
Proof.
  intros [] Hd. constructor; [now apply (d_inv _ _ _ Hd)|now rewrite (d_calls _ _ _ Hd)|done| | | |].
  - now apply (d_kernel _ _ _ Hd).
  - now rewrite (proj1 (d_kernel _ _ _ Hd)).
  - now rewrite (d_size _ _ _ Hd).
  - now rewrite (d_good _ _ _ Hd).
Qed.

(** The part [dowrite] and [domapwrite] share. *)
Lemma write_prefix (k : Z -> Z -> F unit) opc opr (a2 : state -> Z) code o size s :
  inv opt s -> live s -> 0 <= o -> 0 <= size -> o + size <= maxfilelen opt ->
  (forall fd s', 0 < size ->
     pending s o size fd (take (Z.to_nat (file_size s)) (good_buf s)) s' -> ends (k fd (file_size s)) (fun _ s'' => step s s'') s') ->
  ends (tf ← get_tf opt; fd ← tf_fd tf; t ← call gettimeofday; s ← get;
        if size =? 0 then log4 OP_SKIPPED opc o size t
        else log4 opr o size (a2 s) t;;
             write_good opt o size code;;
             if testcalls s <=? simulatedopcount opt then mret tt
             else output_line opt tf o size;; k fd (file_size s))
    (fun _ s' => step s s') s.
Proof.
  intros Hinv Hlive Ho Hn Hmax Hk.
  apply start_idle; [done|]. intros tf fd t s1 H1 Htf Hfd.
  pose proof (since_idle s s s1 (since_refl s Hinv Hlive) H1) as Hs1. rewrite <- (d_files _ _ _ H1) in Htf.
  estep. apply ends_get. rewrite (d_calls _ _ _ H1), (d_size _ _ _ H1).
  destruct (Z.eqb_spec size 0).
  { eapply ends_mono; [now apply (since_log4 _ _ _ _ _ s)|]. intros u s' Hi. now apply idle_step. }
  apply (since_skip _ _ _ s s1 Hs1); [apply log4_idle, Hs1|]. intros s2 Hs2.
  pose proof (proj1 Hs2) as D2. pose proof (i_size _ _ Hinv) as Hsz.
  estep. eapply ends_mono; [apply write_good_ok; try lia; apply Hs2|].
  intros u s3 (g2 & Hp & ->). rewrite (d_size _ _ _ D2), (d_good _ _ _ D2) in *.
  assert (Hinv3 : inv opt (set_file (Z.max (file_size s) (o + size)) g2 s2)).
  { apply set_file_inv; [apply Hs2|now rewrite (d_good _ _ _ D2); apply Hp|lia|].
    intros E. destruct (i_lite _ _ Hinv E). lia. }
  destruct (Z.leb_spec (testcalls s) (simulatedopcount opt)) as [Hsim|Hlv].
  { apply ends_ret. split; [done|]. split; [|apply (d_calls _ _ _ D2)].
    intros Hc. cbn in Hc. rewrite (d_calls _ _ _ D2) in Hc. lia. }
  estep. eapply ends_mono; [apply output_line_idle; [done|]|].
  { cbn. rewrite (d_files _ _ _ D2), <- (d_files _ _ _ H1). done. }
  intros v s4 Hs4. apply Hk; [lia|]. refine (pending_idle _ _ _ _ _ _ _ _ Hs4).
  constructor; cbn; try done.
  - apply (d_calls _ _ _ D2).
  - now apply (d_kernel _ _ _ D2).
  - rewrite (proj1 (d_kernel _ _ _ D2)). now apply Hlive.
Qed.

(** The write went through. *)
Lemma pending_done s off size fd d s1 k :
  pending s off size fd d s1 ->
  data k = take (Z.to_nat (Z.max (file_size s) (off + size))) (good_buf s1) ->
  (forall fd, is_open (kernel s1) fd -> is_open k fd) ->
  step s (set_kernel k s1).
Proof.
  intros [] Hd Ho. split; [|split; [|done]].
  - apply kernel_inv; [done|done|]. intros E. destruct (i_lite _ _ p_inv0 E) as [E1 E2].
    rewrite p_size0 in E1. pose proof (i_good _ _ p_inv0). rewrite Hd, length_take. lia.
  - intros _. unfold synced. cbn. now rewrite p_size0.
Qed.

Lemma dowrite_ok off size s :
  inv opt s -> live s -> 0 <= off -> 0 <= size -> off + size <= maxfilelen opt ->
  ends (dowrite opt off size) (fun _ s' => step s s') s.
Proof.
  intros Hinv Hlive Ho Hn Hmax. unfold dowrite. cbn zeta. pose proof (sane_len _ Hsane).
  pose proof (round_down off (writebdy opt) Ho (sane_w _ Hsane)) as Hoff.
  set (o := off - off mod writebdy opt) in *. clearbody o. unfold INT_MAX in *.
  apply (write_prefix (fun fd _ => _) _ _ file_size); try lia; try done. intros fd s1 Hpos Hp.
  estep. apply ends_call. intros k r Hk. pose proof (p_open _ _ _ _ _ _ Hp) as Hfd.
  apply seek_set_law in Hk as (-> & Hk & Hsame & _); [|done|lia].
  rewrite (proj2 (Z.eqb_neq o (-1))) by lia. estep. estep. estep. apply ends_get.
  pose proof (pending_idle _ _ _ _ _ _ _ Hp (idle_kernel _ s1 k (same_kept _ _ Hsame))) as Hp2.
  estep. apply ends_call. intros k2 r Hr. cbn [set_kernel kernel good_buf] in *.
  pose proof (i_good _ _ Hinv) as Hg. pose proof (i_size _ _ Hinv).
  pose proof (proj1 (p_good _ _ _ _ _ _ Hp2)) as Hlen. cbn in Hlen.
  apply write_law in Hr as (-> & Hd & Hop); [|now apply (proj1 (proj2 Hsame))].
  rewrite length_slice, Z2Nat.id by lia.
  assert (Hst : step s (set_kernel k2 (set_kernel k s1))).
  { apply (pending_done s o size fd _ _ _ Hp2); [|done]. pose proof (p_data _ _ _ _ _ _ Hp2) as Hd2.
    cbn in Hd2. rewrite Hd, Hk, Hd2. apply overwrite_patched; try lia. apply Hp2. }
  estep. eapply ends_mono; [apply debug_time_idle|]. intros u s5 H5. rewrite u32_small, Z.eqb_refl by lia.
  apply ends_ret. apply (step_idle _ _ _ Hst). now apply only_kernel_idle.
Qed.

(** Extending the file before a mapped write. *)
Lemma extend_ok o size fd s s1 :
  inv opt s -> 0 <= o -> 0 < size -> o + size <= maxfilelen opt ->
  pending s o size fd (take (Z.to_nat (file_size s)) (good_buf s)) s1 ->
  ends (if file_size s <? file_size s1 then
          r ← call (fun k => ftruncate k fd (file_size s1));
          if r =? -1 then exit 201 else debug_time opt o size
        else mret tt)
    (fun _ s2 => pending s o size fd
       (resize (Z.to_nat (Z.max (file_size s) (o + size))) 0 (take (Z.to_nat (file_size s)) (good_buf s))) s2) s1.
Proof.
  intros Hinv Ho Hn Hmax Hp. pose proof (p_size _ _ _ _ _ _ Hp) as Hsz. rewrite Hsz.
  pose proof (i_good _ _ Hinv). pose proof (i_size _ _ Hinv).
  destruct (Z.ltb_spec (file_size s) (Z.max (file_size s) (o + size))) as [Hext|Hno].
  - estep. apply ends_call. intros k r Hr.
    apply ftruncate_law in Hr as (-> & Hd & Hop); [|apply Hp|lia]. cbn [Z.eqb].
    eapply ends_mono; [apply debug_time_idle|]. intros u s2 K2.
    apply (pending_idle _ _ _ _ _ (set_kernel k s1)); [|now apply only_kernel_idle].
    destruct Hp. constructor; try done; cbn.
    + apply kernel_inv; [done|done|]. intros E. destruct (i_lite _ _ Hinv E). lia.
    + auto.
    + now rewrite Hd, p_data0.
  - apply ends_ret. rewrite Z.max_l by lia.
    rewrite resize_all_alt; [done|]. rewrite length_take. lia.
Qed.

(** Nothing happens to the file while it is mapped. *)
Lemma mapped_debug {B} p off len (f : unit -> F B) Q o n s s1 :
  step s s1 -> mapped (kernel s1) p off len ->
  (forall s2, step s s2 -> mapped (kernel s2) p off len -> ends (f tt) Q s2) ->
  ends (debug_time opt o n ≫= f) Q s1.
Proof.
  intros Hs Hm Hf. estep. eapply ends_mono; [apply debug_time_idle|]. intros [] s2 H2.
  apply Hf; [apply (step_idle _ _ _ Hs); now apply only_kernel_idle|].
  destruct H2 as (k & -> & Hk). now apply Hk.
Qed.

(** The end of a mapped write. *)
Lemma unmap_ok p off len o n s s1 :
  step s s1 -> mapped (kernel s1) p off len ->
  ends (debug_time opt o n;;
        r ← call (fun k => msync k p len);
        (if r =? 0 then mret tt else report_failure opt 203);;
        debug_time opt o n;;
        r ← call (fun k => munmap k p len);
        (if r =? 0 then mret tt else report_failure opt 204);;
        debug_time opt o n) (fun _ s' => step s s') s1.
Proof.
  intros Hs Hm. apply (mapped_debug p off len _ _ _ _ s s1 Hs Hm). intros s2 Hs2 Hm2.
  estep. apply ends_call. intros k3 r Hr. apply (msync_law _ _ _ off) in Hr as [-> Hk3]; [|done].
  rewrite Z.eqb_refl. estep. estep.
  apply (mapped_debug p off len _ _ _ _ s).
  { apply (step_idle _ s2); [done|]. apply idle_kernel. auto with ltp. }
  { now apply Hk3. }
  intros s4 Hs4 Hm4. estep. apply ends_call. intros k5 r Hr.
  apply (munmap_law _ _ _ off) in Hr as (-> & Hd5 & Ho5); [|done].
  rewrite Z.eqb_refl. estep. estep. eapply ends_mono; [apply debug_time_idle|]. intros u s6 H6.
  apply (step_idle _ (set_kernel k5 s4)); [|now apply only_kernel_idle].
  apply (step_idle _ s4); [done|]. apply idle_kernel. now split.
Qed.

Lemma map_store_ok o size fd s s1 :
  inv opt s -> 0 <= o -> 0 < size -> o + size <= maxfilelen opt ->
  pending s o size fd (take (Z.to_nat (file_size s)) (good_buf s)) s1 ->
  ends (map_store opt pagesize fd (file_size s) o size) (fun _ s' => step s s') s1.
Proof.
  intros Hinv Ho Hn Hmax Hp. pose proof (sane_len _ Hsane). unfold INT_MAX in *.
  destruct (page_offset o ltac:(lia)) as (Hpg & Hpp & Hmod). cbn zeta in Hmod.
  unfold map_store. cbn zeta. set (pg := Z.land o (pagesize - 1)) in *. clearbody pg.
  estep. apply ends_get. estep. eapply ends_mono; [apply (extend_ok o size fd s); try lia; done|].
  intros u s2 Hp2. clear Hp. rewrite u32_small by lia. estep. apply ends_call. intros k r Hr.
  apply mmap_law in Hr as (p & -> & Hm & Hk); [|apply Hp2|unfold INT_MAX; lia|lia|done].
  pose proof (pending_idle _ _ _ _ _ _ _ Hp2 (idle_kernel _ s2 k (same_kept _ _ Hk))) as Hp3.
  estep. eapply ends_mono; [apply debug_time_idle|]. intros v s4 H4.
  pose proof (pending_idle _ _ _ _ _ _ _ Hp3 (only_kernel_idle _ _ _ H4)) as Hp4.
  destruct H4 as (k4 & -> & Hk4). cbn [kernel set_kernel] in Hk4. apply Hk4 in Hm.
  pose proof (i_good _ _ Hinv). pose proof (i_size _ _ Hinv).
  pose proof (p_data _ _ _ _ _ _ Hp4) as Hd4. cbn in Hd4.
  destruct (p_good _ _ _ _ _ _ Hp4) as [Hlen4 _]. cbn in Hlen4.
  destruct (mstore_law k4 p (o - pg) (pg + size) pg (slice o size (good_buf s2))) as (Hd5 & Ho5 & Hm5);
    [done|lia|rewrite length_slice; lia|rewrite length_slice, Hd4, length_resize; lia|].
  estep. estep. apply (unmap_ok p (o - pg)); [|done].
  apply (pending_done _ _ _ _ _ _ _ Hp4); [|done]. cbn. rewrite Hd5.
  replace (o - pg + pg) with o by lia. rewrite Hd4. apply splice_patched; try lia. apply Hp4.
Qed.

Lemma domapwrite_ok off size s :
  inv opt s -> live s -> 0 <= off -> 0 <= size -> off + size <= maxfilelen opt ->
  ends (domapwrite opt pagesize off size) (fun _ s' => step s s') s.
Proof.
  intros Hinv Hlive Ho Hn Hmax. unfold domapwrite. cbn zeta.
  pose proof (round_down off (writebdy opt) Ho (sane_w _ Hsane)) as Hoff.
  set (o := off - off mod writebdy opt) in *. clearbody o.
  apply (write_prefix (fun fd cur => map_store opt pagesize fd cur o size) _ _ (fun _ => 0)); try lia; try done.
  intros fd s1 Hpos Hp. apply map_store_ok; try done; lia.
Qed.

(** ** Truncation *)

Lemma resize_shadow fs n g g2 :
  0 <= fs <= Z.of_nat (length g) -> 0 <= n <= Z.of_nat (length g) -> length g2 = length g ->
  (forall i, Z.of_nat i < fs -> g2 !! i = g !! i) -> (forall i, fs <= Z.of_nat i < n -> g2 !! i = Some 0) ->
  resize (Z.to_nat n) 0 (take (Z.to_nat fs) g) = take (Z.to_nat n) g2.
Proof.
  intros Hfs Hn Hlen Hlow Hgap. apply list_eq. intros i.
  destruct (decide (i < Z.to_nat n)%nat).
  - rewrite (lookup_take_lt g2) by lia. destruct (decide (i < Z.to_nat fs)%nat).
    + rewrite lookup_resize by (rewrite ?length_take; lia). rewrite lookup_take_lt by lia.
      now rewrite Hlow by lia.
    + rewrite lookup_resize_new by (rewrite ?length_take; lia). now rewrite Hgap by lia.
  - rewrite lookup_take_ge, lookup_ge_None_2 by (rewrite ?length_resize; lia). done.
Qed.

(** The copy after a truncation to [n]. *)
Lemma trunc_good_ok n s :
  0 <= file_size s <= Z.of_nat (length (good_buf s)) -> 0 <= n <= Z.of_nat (length (good_buf s)) ->
  ends (if file_size s <? n then set_good (memset0 (file_size s) (n - file_size s) (good_buf s)) else mret tt)
    (fun _ s' => exists g, s' = set_good_buf g s /\ length g = length (good_buf s) /\
       resize (Z.to_nat n) 0 (take (Z.to_nat (file_size s)) (good_buf s)) = take (Z.to_nat n) g) s.
Proof.
  intros Hfs Hn. destruct (Z.ltb_spec (file_size s) n).
  - destruct (memset0_spec (file_size s) (n - file_size s) (good_buf s)) as (g2 & -> & G1 & G2); [lia..|].
    cbn [set_good]. estep. exists g2. split; [done|]. split; [done|]. apply resize_shadow; try lia.
    + intros i Hi. now rewrite G2, decide_False by lia.
    + intros i Hi. now rewrite G2, decide_True by lia.
  - apply ends_ret. exists (good_buf s). split; [now destruct s|]. split; [done|].
    apply resize_shadow; done || lia.
Qed.

Lemma dotruncate_ok size s :
  inv opt s -> live s -> lite opt = false -> 0 <= size <= maxfilelen opt ->
  ends (dotruncate opt size) (fun _ s' => step s s') s.
Proof.
  intros Hinv Hlive Hlite Hn. unfold dotruncate. cbn zeta.
  pose proof (round_down size (truncbdy opt) ltac:(lia) (sane_t _ Hsane)) as Hr.
  set (n := size - size mod truncbdy opt) in *. clearbody n.
  pose proof (i_good _ _ Hinv) as Hg. pose proof (i_size _ _ Hinv) as Hsz.
  estep. apply ends_get. apply start_idle; [done|]. intros tf fd t s1 H1 Htf Hfd.
  pose proof (since_idle s s s1 (since_refl s Hinv Hlive) H1) as Hs1.
  apply (since_skip _ _ _ s s1 Hs1).
  { estep; [|apply idle_refl]. estep. constructor; try done. now intros []. }
  intros s2 Hs2. apply (since_skip _ _ _ s s2 Hs2); [apply log4_idle, Hs2|]. intros s3 Hs3.
  pose proof (proj1 Hs3) as D3. pose proof (d_size _ _ _ D3) as E1. pose proof (d_good _ _ _ D3) as E2.
  pose proof (d_calls _ _ _ D3) as E3. estep. apply ends_get.
  estep. eapply ends_mono; [apply trunc_good_ok; rewrite ?E1, ?E2; lia|].
  intros u s4 (g & -> & Hlen & Hres). rewrite E1, E2, E3 in *.
  estep. estep. change (set_file_size n (set_good_buf g s3)) with (set_file n g s3).
  assert (Hinv4 : inv opt (set_file n g s3)).
  { apply set_file_inv; [apply Hs3|now rewrite E2|lia|congruence]. }
  destruct (Z.leb_spec (testcalls s) (simulatedopcount opt)) as [Hsim|Hlv].
  { apply ends_ret. split; [done|]. split; [|done]. intros Hc. cbn in Hc. lia. }
  estep. eapply ends_mono; [apply output_line_idle; [done|]|].
  { cbn. now rewrite (d_files _ _ _ D3). }
  intros v s5 D5. estep. apply ends_call. intros k r Hk.
  pose proof (proj2 (d_kernel _ _ _ D3) fd Hfd) as Hfd3.
  apply ftruncate_law in Hk as (-> & Hd & Hop); [|now apply (d_kernel _ _ _ D5)|lia].
  change (0 =? -1) with false. estep. estep. eapply ends_mono; [apply debug_time2_idle|]. intros w s6 K6.
  apply (step_idle _ (set_kernel k s5)); [|now apply only_kernel_idle].
  split; [|split; [|cbn; rewrite (d_calls _ _ _ D5); done]].
  - apply kernel_inv; [now apply (d_inv _ _ _ D5)|done|congruence].
  - intros _. unfold synced. cbn. rewrite Hd, (proj1 (d_kernel _ _ _ D5)), (d_size _ _ _ D5), (d_good _ _ _ D5).
    cbn. rewrite (proj1 (d_kernel _ _ _ D3)), Hlive by done. exact Hres.
Qed.
End Sound.
