(* ===== verification/FsxRun.v ===== *)
(** Whole tests of the file system exerciser: on a kernel that does what POSIX
    says every number of tests ends without a failure. *)
From Stdlib Require Import Ascii String ZArith Lia Bool.
From stdpp Require Import base list sets numbers.
From S2P Require Import Prelude CString Effects Fsx FsxOps FsxInv FsxSound.

Local Open Scope Z_scope.

Section Run.
Context `{Posix}.
Context (opt : options) (Hsane : sane opt).
Abbreviation F := (E state).

(** ** Writing the image after the simulated operations *)

Lemma overwrite_0 (bs l : list Z) : overwrite 0 bs l = bs ++ drop (length bs) l.
Proof. unfold overwrite. change (Z.to_nat 0) with 0%nat. now rewrite resize_0. Qed.

Lemma writefileimage_ok s :
  inv opt s ->
  ends (writefileimage opt) (fun _ s' => inv opt s' /\ synced s' /\ testcalls s' = testcalls s) s.
Proof.
  intros Hinv. pose proof (i_good _ _ Hinv) as Hg. pose proof (i_size _ _ Hinv) as Hsz.
  unfold writefileimage. estep. eapply ends_mono; [now apply get_fd_open, (inv_files opt)|]. intros fd s1 [D1 Hfd].
  pose proof (d_inv _ _ _ D1 Hinv) as Hinv1. pose proof (d_size _ _ _ D1) as E1.
  pose proof (d_good _ _ _ D1) as E2. pose proof (d_calls _ _ _ D1) as E3.
  estep. apply ends_call. intros k2 r Hr. apply seek_set_law in Hr as (-> & Hp & Hk2 & _); [|done|lia].
  change (0 =? -1) with false. estep. estep. estep. apply ends_get. estep. apply ends_call. intros k3 r Hr.
  cbn [kernel set_kernel file_size good_buf] in *. rewrite E1, E2 in *.
  apply write_law in Hr as (-> & Hd3 & Ho3); [|now apply Hk2].
  set (img := take (Z.to_nat (file_size s)) (good_buf s)) in *.
  assert (Hlen : Z.of_nat (length img) = file_size s) by (unfold img; rewrite length_take; lia).
  rewrite Hp, overwrite_0, (proj1 Hk2) in Hd3. rewrite Hlen, Z.eqb_refl. estep. estep.
  assert (Hopen : forall fd, is_open (kernel s1) fd -> is_open k3 fd) by (intros; apply Ho3, Hk2; done).
  destruct (lite opt) eqn:El.
  - destruct (i_lite _ _ Hinv1 El) as [L1 L2]. rewrite drop_ge, app_nil_r in Hd3 by lia.
    apply ends_ret. split; [|split; [|done]].
    + apply (kernel_inv opt k3 s1); [done|done|]. intros _. rewrite Hd3. lia.
    + unfold synced. cbn. rewrite E1, E2. done.
  - estep. apply ends_call. intros k4 r Hr.
    apply ftruncate_law in Hr as (-> & Hd4 & Ho4); [|now apply Hopen|lia].
    apply ends_ret. cbn [kernel set_kernel] in *. split; [|split; [|done]].
    + apply (kernel_inv opt k4 s1); [done| |congruence]. intros. now apply Ho4, Hopen.
    + unfold synced. cbn. rewrite E1, E2, Hd4, Hd3. fold img.
      rewrite <- Hlen, Nat2Z.id, resize_app_le by lia. apply resize_all.
Qed.

(** ** The size, and reopening the file *)

Lemma check_size_ok s : inv opt s -> synced s -> ends (check_size opt) (fun _ s' => idle opt s s') s.
Proof.
  intros Hinv Hsync. unfold check_size. estep. eapply ends_mono; [now apply get_fd_open, (inv_files opt)|]. intros fd s1 [D1 Hfd].
  pose proof (idle_synced _ _ _ D1 Hsync) as Hs1. pose proof (d_inv _ _ _ D1 Hinv) as Hinv1.
  pose proof (synced_length _ _ Hinv1 Hs1) as Hlen.
  estep. apply ends_call. intros k2 r Hr. apply fstat_law in Hr as [-> Hk2]; [|done].
  estep. apply ends_call. intros k3 r Hr. cbn [kernel set_kernel] in *.
  apply seek_end_law in Hr as (-> & Hk3 & _); [|now apply Hk2]. rewrite (proj1 Hk2), Hlen.
  estep. apply ends_get. cbn [file_size set_kernel]. rewrite Z.eqb_refl. apply ends_ret.
  apply (idle_trans _ _ s1); [done|]. apply (idle_trans _ _ (set_kernel k2 s1)); apply idle_kernel; auto with ltp.
Qed.

Lemma NoDup_insert_fresh (l : list (cstr * Z)) i path old fd :
  l !! i = Some (path, old) -> NoDup (snd <$> l) ->
  (forall j p f, l !! j = Some (p, f) -> j <> i -> f <> fd) ->
  NoDup (snd <$> <[i := (path, fd)]> l).
Proof.
  intros Hi Hnd Hfresh. apply NoDup_alt. intros j1 j2 f Hj1 Hj2.
  rewrite list_lookup_fmap in Hj1, Hj2. rewrite NoDup_alt in Hnd.
  apply fmap_Some in Hj1 as ([p1 f1] & Hj1 & ->). apply fmap_Some in Hj2 as ([p2 f2] & Hj2 & E). cbn in E. subst f2.
  rewrite list_lookup_insert_Some in Hj1, Hj2.
  destruct Hj1 as [(-> & E1 & _)|[N1 Hj1]], Hj2 as [(-> & E2 & _)|[N2 Hj2]]; try done.
  - exfalso. injection E1 as -> ->. now apply (Hfresh _ _ _ Hj2).
  - exfalso. injection E2 as -> ->. now apply (Hfresh _ _ _ Hj1).
  - apply (Hnd _ _ f1); rewrite list_lookup_fmap, ?Hj1, ?Hj2; done.
Qed.

(** One file was closed and opened again. *)
Lemma reopened_step s tf path old fd k s0 :
  inv opt s -> live opt s -> testcalls s = testcalls s0 ->
  test_files s !! tf = Some (path, old) -> is_path path ->
  is_open k fd -> data k = data (kernel s) ->
  (forall f, f <> old -> is_open (kernel s) f -> is_open k f /\ f <> fd) ->
  step opt s0 (set_test_files (<[tf := (path, fd)]> (test_files s)) (set_kernel k s)).
Proof.
  intros Hinv Hlive Hc Hl Hp Hfd Hd Ho.
  assert (Hother : forall j p f, test_files s !! j = Some (p, f) -> j <> tf -> is_path p /\ is_open k f /\ f <> fd).
  { intros j p f Hj Hne. destruct (Forall_lookup_1 _ _ _ _ (i_open _ _ Hinv) Hj) as [? ?].
    split; [done|]. apply Ho; [|done]. intros ->. apply Hne.
    pose proof (i_nodup _ _ Hinv) as Hnd. rewrite NoDup_alt in Hnd.
    apply (Hnd _ _ old); rewrite list_lookup_fmap, ?Hj, ?Hl; done. }
  split; [|split; [|done]].
  - destruct Hinv. constructor; try done; cbn.
    + intros E. apply (f_equal length) in E. rewrite length_insert in E. now destruct (test_files s).
    + now rewrite length_insert.
    + apply Forall_lookup. intros j [p f] Hj. apply list_lookup_insert_Some in Hj as [(-> & E & _)|[Hne Hj]].
      * now injection E as <- <-.
      * destruct (Hother j p f Hj ltac:(done)) as (? & ? & _). done.
    + apply (NoDup_insert_fresh _ _ _ old); [done..|]. intros j p f Hj Hne. now apply (Hother j p f).
    + rewrite length_insert. done.
    + now rewrite Hd.
  - intros Hlv. unfold synced. cbn. rewrite Hd. now apply Hlive.
Qed.

Lemma docloseopen_ok s :
  inv opt s -> live opt s -> ends (docloseopen opt) (fun _ s' => step opt s s') s.
Proof.
  intros Hinv Hlive. unfold docloseopen. estep. eapply ends_mono; [now apply get_tf_idle, (inv_files opt)|]. intros tf s1 [D1 Htf].
  pose proof (since_idle _ s s s1 (since_refl _ s Hinv Hlive) D1) as Hs1. estep. apply ends_get.
  destruct (testcalls s1 <=? simulatedopcount opt); [now apply ends_ret, idle_step|].
  apply (since_bind opt _ _ (fun _ _ => True) _ s s1 Hs1).
  { eapply ends_mono; [apply time_idle|]. intros a s' Hi. split; [exact Hi|exact I]. }
  intros t s2 Hs2 _. apply (since_skip _ _ _ _ s s2 Hs2); [apply log4_idle, Hs2|]. intros s3 Hs3.
  rewrite (d_files _ _ _ D1). destruct Hs3 as (D3 & Hinv3 & Hlive3). pose proof (d_files _ _ _ D3) as E3.
  rewrite <- E3 in Htf. estep. eapply ends_mono; [apply tf_fd_open; [now apply (inv_files opt)|done]|]. intros fd ? (-> & Hfd & path & Hl).
  estep. apply ends_call. intros k4 r Hr. apply close_law in Hr as (-> & Hd4 & Ho4); [|done].
  rewrite Z.eqb_refl. estep. estep. estep. eapply ends_mono; [apply debug_time2_idle|]. intros [] s5 (k5 & -> & Hk5).
  rewrite <- E3, Hl. estep. apply ends_call. intros k6 nfd Hr. cbn [kernel set_kernel] in *.
  apply open_law in Hr as (Hpos & Hnew & Hopen & Hd6 & _ & Ho6);
    [|now apply (Forall_lookup_1 _ _ _ _ (i_open _ _ Hinv3) Hl)].
  estep. estep. rewrite (proj2 (Z.ltb_ge nfd 0)) by done. estep. estep.
  match goal with |- ends _ _ ?st => assert (Hst : step opt s st) end.
  { apply (reopened_step s3 tf path fd nfd k6); try done.
    - apply (d_calls _ _ _ D3).
    - now apply (Forall_lookup_1 _ _ _ _ (i_open _ _ Hinv3) Hl).
    - rewrite Hd6, (proj1 Hk5). done.
    - intros f Hne Hf. assert (Hf5 : is_open k5 f) by (apply Hk5, Ho4; done).
      split; [now apply Ho6|]. congruence. }
  eapply ends_mono; [apply debug_time2_idle|]. intros v s7 H7. apply (step_idle _ _ _ _ Hst). now apply only_kernel_idle.
Qed.

(** ** One test *)

Lemma umod_ok a b (Q : Z -> state -> Prop) s :
  0 < b -> Q (a mod b) s -> ends (umod a b) Q s.
Proof.
  intros Hb HQ. unfold umod. estep. estep; [|now apply ends_ret].
  apply negb_true_iff, Z.eqb_neq. lia.
Qed.

(** The length of the next operation. *)
Lemma oplen_ok s :
  inv opt s -> live opt s ->
  ends (if randomoplen opt then
          require (maxoplen opt <? INT_MAX);; r ← call random; umod r (maxoplen opt + 1)
        else mret (maxoplen opt))
    (fun size s' => idle opt s s' /\ 0 <= size <= maxoplen opt) s.
Proof.
  intros Hinv Hlive. pose proof (sane_op _ Hsane). destruct (randomoplen opt).
  - estep. estep; [apply Z.ltb_lt; lia|]. estep. eapply ends_mono; [apply random_idle|].
    intros r s' [D Hr]. apply umod_ok; [lia|]. split; [done|].
    pose proof (Z.mod_pos_bound r (maxoplen opt + 1) ltac:(lia)). lia.
  - apply ends_ret. split; [apply idle_refl|lia].
Qed.

Lemma ends_after (m : F unit) s s1 :
  step opt s s1 -> ends m (fun _ s' => step opt s1 s') s1 -> ends m (fun _ s' => step opt s s') s1.
Proof.
  intros (_ & _ & C1) Hm. eapply ends_mono; [exact Hm|]. intros u s2 (I2 & L2 & C2).
  split; [done|]. split; [done|]. congruence.
Qed.

Lemma ends_after_idle (m : F unit) s s1 :
  step opt s s1 -> ends m (fun _ s' => idle opt s1 s') s1 -> ends m (fun _ s' => step opt s s') s1.
Proof.
  intros Hs Hm. eapply ends_mono; [exact Hm|]. intros u s2 D2. now apply (step_idle _ _ s1).
Qed.

(** The arguments of a write. *)
Lemma write_case_ok op r size s :
  inv opt s -> live opt s -> 0 <= r <= INT_MAX -> 0 <= size <= maxoplen opt ->
  ends (offset ← umod r (maxfilelen opt);
        let size := if maxfilelen opt <? u64 (offset + size) then maxfilelen opt - offset else size in
        if negb (op =? 1) then domapwrite opt pagesize (u32 offset) (u32 size)
        else dowrite opt (u32 offset) (u32 size)) (fun _ s' => step opt s s') s.
Proof.
  intros Hinv Hlive Hr Hsize. pose proof (sane_len _ Hsane) as Hlen. pose proof (sane_op _ Hsane) as Hol.
  unfold INT_MAX in *. estep. apply umod_ok; [lia|].
  pose proof (Z.mod_pos_bound r (maxfilelen opt) ltac:(lia)) as Ho.
  set (o := r mod maxfilelen opt) in *. clearbody o. rewrite (u64_small (o + size)) by lia. cbn zeta.
  set (n := if maxfilelen opt <? o + size then maxfilelen opt - o else size).
  assert (Hn : 0 <= n /\ o + n <= maxfilelen opt).
  { unfold n. destruct (Z.ltb_spec (maxfilelen opt) (o + size)); lia. }
  clearbody n. rewrite !u32_small by lia.
  destruct (negb (op =? 1)); [apply domapwrite_ok|apply dowrite_ok]; done || lia.
Qed.

(** The arguments of a read. *)
Lemma read_case_ok op r size s :
  inv opt s -> live opt s -> 0 <= r <= INT_MAX -> 0 <= size <= maxoplen opt ->
  ends (s ← get;
        let offset := if file_size s =? 0 then 0 else r mod u64 (file_size s) in
        let size := if u64 (file_size s) <? u64 (offset + size) then u64 (file_size s - offset) else size in
        if negb (op =? 0) then domapread opt pagesize (u32 offset) (u32 size)
        else doread opt (u32 offset) (u32 size)) (fun _ s' => idle opt s s') s.
Proof.
  intros Hinv Hlive Hr Hsize. pose proof (sane_len _ Hsane) as Hlen. pose proof (sane_op _ Hsane) as Hol.
  pose proof (i_size _ _ Hinv) as Hsz. unfold INT_MAX in *. estep. apply ends_get. cbn zeta.
  rewrite (u64_small (file_size s)) by lia.
  set (o := if file_size s =? 0 then 0 else r mod file_size s).
  assert (Ho : 0 <= o <= file_size s).
  { unfold o. destruct (Z.eqb_spec (file_size s) 0); [lia|].
    pose proof (Z.mod_pos_bound r (file_size s) ltac:(lia)). lia. }
  clearbody o. rewrite (u64_small (o + size)), (u64_small (file_size s - o)) by lia.
  set (n := if file_size s <? o + size then file_size s - o else size).
  assert (Hn : 0 <= n <= size /\ o + n <= file_size s).
  { unfold n. destruct (Z.ltb_spec (file_size s) (o + size)); lia. }
  clearbody n. rewrite !u32_small by lia.
  destruct (negb (op =? 0)); [apply domapread_ok|apply doread_ok]; unfold INT_MAX; done || lia.
Qed.

Lemma run_op_ok op s :
  inv opt s -> live opt s -> ends (run_op opt pagesize op) (fun _ s' => step opt s s') s.
Proof.
  intros Hinv Hlive. pose proof (sane_len _ Hsane) as Hlen.
  unfold run_op. rewrite (sane_style _ Hsane).
  change (Z.land 0 1 =? 0) with true. rewrite andb_true_r.
  destruct (negb (lite opt) && (op =? 3)) eqn:Etr; zbool.
  - estep. eapply ends_mono; [apply random_idle|]. intros r s1 [D1 Hr].
    estep. apply umod_ok; [lia|]. pose proof (Z.mod_pos_bound r (maxfilelen opt) ltac:(lia)).
    pose proof (idle_step opt s s1 Hinv Hlive D1) as Hs1. unfold INT_MAX in *. rewrite u32_small by lia.
    apply (ends_after _ s s1 Hs1). apply dotruncate_ok; try apply Hs1; done || lia.
  - estep. eapply ends_mono; [now apply oplen_ok|]. intros size s1 [D1 Hsize].
    estep. eapply ends_mono; [apply random_idle|]. intros r s2 [D2 Hr].
    pose proof (idle_step opt s s2 Hinv Hlive (idle_trans _ _ _ _ D1 D2)) as Hs2.
    destruct ((op =? 1) || (op =? _)).
    + apply (ends_after _ s s2 Hs2). apply write_case_ok; try apply Hs2; done.
    + apply (ends_after_idle _ s s2 Hs2). apply read_case_ok; try apply Hs2; done.
Qed.

(** Between two tests: the image is written when the simulation is over. *)
Definition ready (s : state) : Prop :=
  inv opt s /\ (simulatedopcount opt = 0 \/ simulatedopcount opt < testcalls s -> synced s) /\ 0 <= testcalls s.

Lemma testcalls_inv v s : inv opt s -> inv opt (set_testcalls v s).
Proof. intros []. now constructor. Qed.

Lemma debug_idle v s : idle opt s (set_debug v s).
Proof. constructor; try done. now intros []. Qed.

Lemma test_ok s :
  ready s -> testcalls s + 1 < 2 ^ 64 ->
  ends (test opt pagesize) (fun _ s' => ready s' /\ testcalls s' = testcalls s + 1) s.
Proof.
  intros (Hinv & Hsync & Hc) Hbound. pose proof (sane_sim _ Hsane) as Hsim.
  unfold test. cbn zeta. estep. eapply ends_mono; [apply random_idle|]. intros rv s1 [D1 Hrv].
  pose proof (d_inv _ _ _ D1 Hinv) as I1. pose proof (d_calls _ _ _ D1) as C1.
  estep. apply ends_get. estep.
  apply (ends_mono _ (fun _ s' => inv opt s' /\ testcalls s' = testcalls s /\
    (simulatedopcount opt <= testcalls s -> synced s'))).
  { rewrite C1. destruct ((0 <? simulatedopcount opt) && (testcalls s =? simulatedopcount opt)) eqn:E; zbool.
    - eapply ends_mono; [now apply writefileimage_ok|]. intros u s2 (I2 & S2 & C2).
      split; [done|]. split; [congruence|done].
    - apply ends_ret. split; [done|]. split; [done|]. intros Hle. apply (idle_synced _ _ _ D1), Hsync.
      apply andb_false_iff in E. destruct E as [E|E]; zbool; lia. }
  intros u s2 (I2 & C2 & S2). estep. estep. estep. apply ends_get. cbn [testcalls set_testcalls].
  rewrite C2, u64_small by (change (2 ^ 64) with 18446744073709551616 in Hbound; lia).
  set (s3 := set_testcalls (testcalls s + 1) s2).
  assert (I3 : inv opt s3) by now apply testcalls_inv.
  assert (L3 : live opt s3) by (intros Hl; apply S2; unfold s3 in Hl; cbn in Hl; lia).
  estep. apply (ends_mono _ (fun _ s' => idle opt s3 s')).
  { estep; [estep; apply debug_idle|apply idle_refl]. }
  intros v s4 D4. pose proof (idle_step opt s3 s4 I3 L3 D4) as Hs4.
  estep. eapply ends_mono; [apply (ends_after _ s3 s4 Hs4), run_op_ok; apply Hs4|]. intros w s5 (I5 & L5 & C5).
  cbn in C5. estep. apply ends_get. estep.
  apply (ends_mono _ (fun _ s' => step opt s3 s')).
  { destruct (sizechecks opt && (simulatedopcount opt <? testcalls s5)) eqn:E; zbool.
    - eapply ends_mono; [apply check_size_ok; [done|now apply L5]|]. intros x s6 D6. now apply (step_idle _ _ s5).
    - now apply ends_ret. }
  intros x s6 Hs6. apply (ends_mono _ (fun _ s' => step opt s3 s')).
  { destruct (_ && _); [|now apply ends_ret]. apply (ends_after _ s3 s6 Hs6), docloseopen_ok; apply Hs6. }
  intros y s7 (I7 & L7 & C7). cbn in C7. split; [|done]. split; [done|]. split; [|lia].
  intros Ho. apply L7. destruct Ho; lia.
Qed.

Lemma tests_ok n s :
  ready s -> testcalls s + Z.of_nat n < 2 ^ 64 ->
  ends (tests n opt pagesize) (fun _ s' => ready s' /\ testcalls s' = testcalls s + Z.of_nat n) s.
Proof.
  revert s. induction n as [|n IH]; intros s Hs Hb; cbn [tests].
  - apply ends_ret. split; [done|lia].
  - estep. eapply ends_mono; [apply test_ok; [done|lia]|]. intros u s1 [Hs1 C1].
    eapply ends_mono; [apply IH; [done|lia]|]. intros v s2 [Hs2 C2]. split; [done|lia].
Qed.
End Run.
