(* ===== verification/FsxMainOk.v ===== *)
(** The main program of the file system exerciser on a kernel that does what
    POSIX says, and the options. *)
From Stdlib Require Import Ascii String ZArith Lia Bool.
From stdpp Require Import base list sets numbers.
From S2P Require Import Prelude CString Effects Fsx FsxOps FsxMain FsxInv FsxSound FsxRun.

Local Open Scope Z_scope.

Section MainOk.
Context `{Posix}.
Abbreviation F := (E state).

Lemma still_refl k : still k k.
Proof. split; [apply same_refl|done]. Qed.

Lemma still_trans k1 k2 k3 : still k1 k2 -> still k2 k3 -> still k1 k3.
Proof.
  intros [A1 A2] [B1 B2]. split; [now apply (same_trans _ k2)|].
  intros fd Hfd. rewrite B2, A2; [done|done|]. now apply A1.
Qed.

(** ** Opening the files *)

(** The descriptors [files] are open on [k], at the start of the file. *)
Definition fresh_files (k : sys) (files : list (cstr * Z)) : Prop :=
  Forall (fun f => is_path f.1 /\ is_open k f.2 /\ pos k f.2 = 0) files /\ NoDup files.*2.

Lemma fresh_files_still k k' files : still k k' -> fresh_files k files -> fresh_files k' files.
Proof.
  intros [Hs Hp] [Hf Hnd]. split; [|done]. eapply Forall_impl; [|exact Hf].
  intros f (? & ? & ?). split; [done|]. split; [now apply Hs|]. now rewrite Hp.
Qed.

Lemma open_loop_ok opt argv s :
  Forall is_path argv ->
  ends (open_loop opt argv) (fun files s' => exists k, s' = set_kernel k s /\
    files.*1 = argv /\ fresh_files k files /\
    Forall (fun f => ~ is_open (kernel s) f.2) files /\
    (forall fd, is_open (kernel s) fd -> is_open k fd /\ pos k fd = pos (kernel s) fd) /\
    data k = match argv with [] => data (kernel s) | _ => if lite opt then data (kernel s) else [] end) s.
Proof.
  revert s. induction argv as [|path argv IH]; intros s Hp; cbn [open_loop].
  - apply ends_ret. exists (kernel s). split; [now destruct s|]. cbn. repeat split; auto using NoDup_nil_2.
  - apply Forall_cons_1 in Hp as [Hpath Hp]. estep. apply ends_call. intros k1 fd Hr.
    assert (Hfd : 0 <= fd /\ (~ is_open (kernel s) fd) /\ is_open k1 fd /\
      data k1 = (if lite opt then data (kernel s) else []) /\ pos k1 fd = 0 /\
      (forall f, is_open (kernel s) f -> is_open k1 f /\ pos k1 f = pos (kernel s) f)).
    { destruct (lite opt); [apply open_law in Hr|apply creat_law in Hr]; done. }
    destruct Hfd as (H1 & H2 & H3 & H4 & H5 & H6). rewrite (proj2 (Z.ltb_ge fd 0)) by done.
    estep. eapply ends_mono; [now apply IH|]. cbn [kernel set_kernel].
    intros files s2 (k2 & -> & F1 & [F2 F2'] & F3 & F4 & F5). apply ends_ret.
    exists k2. split; [done|]. split; [cbn; now f_equal|]. split; [split|split; [|split]].
    + constructor; [|done]. cbn. destruct (F4 fd H3) as [? E]. rewrite E. done.
    + cbn. constructor; [|done]. intros (f & E & Hin)%list_elem_of_fmap. rewrite Forall_forall in F3.
      apply (F3 f); [now apply list_elem_of_In|]. now rewrite <- E.
    + constructor; [done|]. eapply Forall_impl; [|exact F3]. intros f Hn Ho. now apply Hn, H6.
    + intros f Hf. destruct (H6 f Hf) as [H6a H6b]. destruct (F4 f H6a) as [? E]. split; [done|congruence].
    + rewrite F5, H4. destruct argv; [done|]. now destruct (lite opt).
Qed.

Lemma open_test_files_ok opt argv s :
  Forall is_path argv -> argv <> [] -> Z.of_nat (length argv) * 16 <= INT_MAX ->
  ends (open_test_files opt argv) (fun _ s' => exists k files,
    s' = set_test_files files (set_kernel k s) /\ length files = length argv /\ fresh_files k files /\
    data k = (if lite opt then data (kernel s) else [])) s.
Proof.
  intros Hp Hne Hn. unfold open_test_files. estep. apply ends_get. estep.
  rewrite malloc_law by (unfold INT_MAX in *; lia). estep. estep.
  eapply ends_mono; [now apply open_loop_ok|]. intros files s2 (k2 & -> & F1 & F2 & _ & _ & F6).
  estep. exists k2, files. split; [done|]. split; [now rewrite <- F1, length_fmap|]. split; [done|].
  rewrite F6. now destruct argv.
Qed.

(** The descriptor for a call: no file moves. *)
Lemma get_fd_still opt s :
  fresh_files (kernel s) (test_files s) -> test_files s <> [] ->
  ends (get_fd opt) (fun fd s' => exists k v,
    s' = set_fd_last v (set_kernel k s) /\ still (kernel s) k /\ is_open k fd /\ pos k fd = 0) s.
Proof.
  intros [Hf _] Hne. assert (Hn : (0 < length (test_files s))%nat) by (destruct (test_files s); [done|cbn; lia]).
  unfold get_fd, get_tf. estep. estep. apply ends_get. estep.
  apply (ends_mono _ (fun idx s' => 0 <= idx /\ exists k v, s' = set_fd_last v (set_kernel k s) /\ still (kernel s) k)).
  { destruct (fd_policy opt).
    - apply ends_ret. split; [lia|]. exists (kernel s), (fd_last s). split; [now destruct s|apply still_refl].
    - estep. estep. apply ends_ret. split; [apply u32_range|]. eexists (kernel s), _. split; [now destruct s|apply still_refl].
    - estep. apply ends_call. intros k r [_ Hk]%random_law. apply ends_ret. split; [apply u32_range|].
      exists k, (fd_last s). split; [now destruct s|done]. }
  intros idx s' (Hi & k & v & -> & Hk). estep. estep; [|apply ends_ret].
  { apply negb_true_iff, Nat.eqb_neq. lia. }
  pose proof (Z.mod_pos_bound idx (Z.of_nat (length (test_files s))) ltac:(lia)) as Hm.
  destruct (lookup_lt_is_Some_2 (test_files s) (Z.to_nat (idx mod Z.of_nat (length (test_files s)))) ltac:(lia))
    as [[path fd] Hl]. unfold tf_fd. estep. apply ends_get. cbn [test_files set_fd_last set_kernel]. rewrite Hl.
  apply ends_ret. exists k, v. split; [done|]. split; [done|].
  destruct (Forall_lookup_1 _ _ _ _ Hf Hl) as (_ & Ho & Hp). cbn in Ho, Hp.
  split; [now apply Hk|]. destruct Hk as [_ Hk]. now rewrite Hk.
Qed.

Lemma fill_random_ok n s :
  ends (fill_random n) (fun l s' => length l = n /\ exists k, s' = set_kernel k s /\ still (kernel s) k) s.
Proof.
  revert s. induction n as [|n IH]; intros s; cbn [fill_random].
  - apply ends_ret. split; [done|]. exists (kernel s). split; [now destruct s|apply still_refl].
  - estep. apply ends_call. intros k r [_ Hk]%random_law.
    estep. eapply ends_mono; [apply IH|]. intros l s2 (Hl & k2 & -> & Hk2). apply ends_ret.
    split; [cbn; lia|]. exists k2. split; [done|]. now apply (still_trans _ k).
Qed.

(** The buffers: nothing else changes. *)
Lemma alloc_buffers_ok opt s :
  sane opt ->
  ends (alloc_buffers opt) (fun _ s' => exists k original,
    length original = Z.to_nat (maxfilelen opt) /\ still (kernel s) k /\
    s' = set_temp_buf (replicate (Z.to_nat (maxoplen opt)) 0)
           (set_good_buf (replicate (Z.to_nat (maxfilelen opt)) 0)
              (set_original_buf original (set_kernel k s)))) s.
Proof.
  intros Hsane. pose proof (sane_len _ Hsane). pose proof (sane_op _ Hsane).
  assert (Hm : forall n code s (Q : unit -> state -> Prop), 0 <= n <= INT_MAX -> Q tt s -> ends (malloc n code) Q s).
  { intros n code s0 Q Hn HQ. unfold malloc. estep. apply ends_get. rewrite malloc_law by done. now apply ends_ret. }
  unfold alloc_buffers. estep. apply Hm; [lia|]. estep.
  eapply ends_mono; [apply fill_random_ok|]. intros original s1 (Hlen & k & -> & Hk).
  estep. estep. estep. apply Hm; [lia|]. estep. estep. estep. apply Hm; [lia|]. estep.
  exists k, original. done.
Qed.

(** ** The set-up *)

(** A state after the files are open, before the buffers are there. *)
Record opening (n : nat) (d : list Z) (s : state) : Prop := {
  o_fresh : fresh_files (kernel s) (test_files s);
  o_files : length (test_files s) = n;
  o_data : data (kernel s) = d;
  o_log : logptr s = 0%nat /\ length (oplog s) = LOGSIZE;
  o_tf : tf_buf s = None; o_calls : testcalls s = 0
}.

(** With the buffers the invariant holds. *)
Lemma opening_inv opt n d original s :
  sane opt -> opening n d s -> (0 < n)%nat -> Z.of_nat n <= INT_MAX ->
  length original = Z.to_nat (maxfilelen opt) -> 0 <= file_size s <= maxfilelen opt ->
  (lite opt = true -> file_size s = maxfilelen opt /\ Z.of_nat (length d) = maxfilelen opt) ->
  inv opt (set_temp_buf (replicate (Z.to_nat (maxoplen opt)) 0)
            (set_good_buf (replicate (Z.to_nat (maxfilelen opt)) 0) (set_original_buf original s))).
Proof.
  intros Hsane [[Hf Hnd] Hn Hd [Hl1 Hl2] Ht Hc] Hpos Hmax Ho Hfs Hlite.
  pose proof (sane_len _ Hsane). pose proof (sane_op _ Hsane).
  constructor; cbn; rewrite ?length_replicate; try lia; try done.
  - intros E. rewrite E in Hn. cbn in Hn. lia.
  - eapply Forall_impl; [|exact Hf]. now intros f (? & ? & _).
  - rewrite Hl1. split; [apply Nat.lt_0_succ|done].
  - now rewrite Ht.
  - intros E. rewrite Hd. now apply Hlite.
Qed.

Lemma opening_kernel n d k s : opening n d s -> still (kernel s) k -> opening n d (set_kernel k s).
Proof.
  intros [] Hk. constructor; try done; cbn; [now apply (fresh_files_still (kernel s))|].
  destruct Hk as [(Hd & _) _]. congruence.
Qed.

Lemma sane_single opt n : sane opt -> sane (single_policy opt n).
Proof. intros []. unfold single_policy. destruct (n =? 1)%nat; now constructor. Qed.

Lemma sane_maxfilelen opt v : sane opt -> 0 < v <= INT_MAX -> sane (with_maxfilelen v opt).
Proof. intros [] Hv. now constructor. Qed.

Lemma check_trunc_hack_ok opt s :
  inv opt s -> lite opt = false -> fresh_files (kernel s) (test_files s) ->
  ends (check_trunc_hack opt) (fun _ s' => inv opt s' /\ data (kernel s') = [] /\
    file_size s' = file_size s /\ testcalls s' = testcalls s) s.
Proof.
  intros Hinv Hlite Hf. unfold check_trunc_hack.
  estep. eapply ends_mono; [apply get_fd_still; [done|apply Hinv]|]. intros fd s1 (k1 & v & -> & Hk1 & Ho1 & _).
  estep. apply ends_call. intros k2 r (-> & Hd2 & Ho2)%ftruncate_law; [|done|lia].
  estep. apply ends_call. intros k3 r (-> & Hd3 & Ho3)%ftruncate_law; [|now apply Ho2|lia].
  estep. apply ends_call. intros k4 r (-> & Hk4)%fstat_law; [|now apply Ho3, Ho2].
  cbn [kernel set_kernel set_fd_last] in *. rewrite Hd3, length_resize.
  rewrite Z2Nat.id, Z.eqb_refl by lia. estep. apply ends_call. intros k5 r Hr. cbn [kernel set_kernel set_fd_last] in *.
  apply ftruncate_law in Hr as (-> & Hd5 & Ho5); [|now apply Hk4, Ho3, Ho2|lia].
  apply ends_ret. split; [|split; [|done]].
  - apply (kernel_inv opt k5 (set_fd_last v s)); [now apply (d_inv _ _ _ (fd_last_idle opt v s))| |congruence].
    intros f Hfd. cbn in Hfd. apply Ho5, Hk4, Ho3, Ho2, Hk1, Hfd.
  - cbn. rewrite Hd5. apply resize_0.
Qed.

Lemma lite_size_ok opt n d s :
  opening n d s -> (0 < n)%nat -> 0 < Z.of_nat (length d) <= INT_MAX ->
  ends (lite_size opt) (fun opt' s' => opt' = with_maxfilelen (Z.of_nat (length d)) opt /\
    opening n d s' /\ file_size s' = Z.of_nat (length d)) s.
Proof.
  intros Ho Hn Hd. pose proof (o_fresh _ _ _ Ho) as Hf. unfold INT_MAX in *. unfold lite_size.
  estep. eapply ends_mono; [apply get_fd_still; [done|]|].
  { intros E. pose proof (o_files _ _ _ Ho) as Hl. rewrite E in Hl. cbn in Hl. lia. }
  intros fd s1 (k1 & v & -> & Hk1 & Hfd & Hp1). estep. apply ends_call.
  intros k2 r (-> & Hk2 & Hp2)%seek_end_law; [|done]. cbn [kernel set_kernel set_fd_last] in *.
  rewrite (proj1 (proj1 Hk1)), (o_data _ _ _ Ho). estep. estep. rewrite (proj2 (Z.eqb_neq _ (-1))) by lia.
  estep. estep. estep. apply ends_call. intros k3 r Hr. cbn [kernel set_kernel set_fd_last set_file_size] in *.
  apply seek_set_law in Hr as (-> & Hp3 & Hk3 & Hp3'); [|now apply Hk2|lia].
  rewrite (proj2 (Z.eqb_neq 0 (-1))) by lia. estep. estep. estep.
  rewrite u64_small by lia. split; [done|]. split; [|done].
  assert (Hst : forall f, is_open (kernel s) f -> pos (kernel s) f = 0 -> is_open k3 f /\ pos k3 f = 0).
  { intros f Hof Hpf. split; [apply Hk3, Hk2, Hk1, Hof|].
    destruct (decide (f = fd)) as [->|Hne]; [done|].
    assert (Ho2 : is_open k2 f) by (apply Hk2, Hk1, Hof). assert (Ho1 : is_open k1 f) by (apply Hk1, Hof).
    rewrite Hp3', Hp2, (proj2 Hk1) by done. done. }
  destruct Ho as [[Hf1 Hf2] ? ? ? ? ?]. constructor; try done; cbn.
  - split; [|done]. eapply Forall_impl; [|exact Hf1]. intros f (? & Hof & Hpf). split; [done|]. now apply Hst.
  - rewrite (proj1 Hk3), (proj1 Hk2), (proj1 (proj1 Hk1)). done.
Qed.

Lemma zero_file_ok opt s :
  sane opt -> inv opt s -> fresh_files (kernel s) (test_files s) ->
  good_buf s = replicate (Z.to_nat (maxfilelen opt)) 0 ->
  Z.of_nat (length (data (kernel s))) = maxfilelen opt ->
  ends (zero_file opt) (fun _ s' => inv opt s' /\ data (kernel s') = replicate (Z.to_nat (maxfilelen opt)) 0 /\
    good_buf s' = good_buf s /\ file_size s' = file_size s /\ testcalls s' = testcalls s) s.
Proof.
  intros Hsane Hinv Hf Hg Hd. pose proof (sane_len _ Hsane). unfold INT_MAX in *. unfold zero_file.
  estep. eapply ends_mono; [apply get_fd_still; [done|apply Hinv]|]. intros fd s1 (k1 & v & -> & Hk1 & Ho1 & Hp1).
  estep. apply ends_get. estep. apply ends_call. cbn [kernel set_kernel set_fd_last good_buf]. intros k2 r Hr.
  rewrite Hg, take_ge in Hr by (rewrite length_replicate; lia).
  apply write_law in Hr as (-> & Hd2 & Ho2); [|done].
  rewrite Hp1, overwrite_0, length_replicate, drop_ge, app_nil_r in Hd2 by (rewrite (proj1 (proj1 Hk1)); lia).
  rewrite length_replicate, Z2Nat.id, u64_small, Z.eqb_refl by lia. apply ends_ret.
  split; [|done]. apply (kernel_inv opt k2 (set_fd_last v s)); [now apply (d_inv _ _ _ (fd_last_idle opt v s))| |].
  - intros f Hfd. apply Ho2, Hk1, Hfd.
  - intros _. cbn. rewrite Hd2, length_replicate. lia.
Qed.

(** The options after the set-up: in lite mode with the size of the file. *)
Definition run_options (opt : options) (n : nat) (d : list Z) : options :=
  if lite opt then with_maxfilelen (Z.of_nat (length d)) (single_policy opt n) else single_policy opt n.

Lemma single_policy_lite opt n : lite (single_policy opt n) = lite opt.
Proof. unfold single_policy. now destruct (n =? 1)%nat. Qed.

Lemma run_options_fields opt n d :
  numops (run_options opt n d) = numops opt /\ simulatedopcount (run_options opt n d) = simulatedopcount opt /\
  lite (run_options opt n d) = lite opt.
Proof. unfold run_options, single_policy. now destruct (lite opt) eqn:E, (n =? 1)%nat. Qed.

(** The size and the buffers, once the files are open. *)
Lemma set_up_end opt n d s :
  sane opt -> opening n (if lite opt then d else []) s -> (0 < n)%nat -> Z.of_nat n <= INT_MAX ->
  file_size s = 0 -> (lite opt = true -> 0 < Z.of_nat (length d) <= INT_MAX) ->
  let opt' := run_options opt n d in
  ends (o ← (if lite (single_policy opt n) then lite_size (single_policy opt n) else mret (single_policy opt n));
        alloc_buffers o;;
        (if lite o then zero_file o else check_trunc_hack o);; mret o)
    (fun o s' => o = opt' /\ sane opt' /\ ready opt' s' /\ testcalls s' = 0) s.
Proof.
  intros Hsane Ho Hn Hmax Hfs Hlite opt'. pose proof (sane_single opt n Hsane) as Hs1.
  pose proof (sane_len _ Hs1) as Hl1. subst opt'.
  rewrite single_policy_lite. destruct (run_options_fields opt n d) as (_ & _ & El).
  unfold run_options in *. destruct (lite opt).
  - specialize (Hlite eq_refl). pose proof (sane_maxfilelen _ _ Hs1 Hlite) as Hs2.
    estep. eapply ends_mono; [now apply (lite_size_ok _ n d)|]. intros o s1 (-> & Ho1 & F1).
    estep. eapply ends_mono; [now apply alloc_buffers_ok|]. intros u s2 (k & original & Hlen & Hk & ->).
    pose proof (opening_kernel _ _ _ _ Ho1 Hk) as Ho2. rewrite El. estep.
    eapply ends_mono; [apply zero_file_ok; [done| |apply Ho2|done|]|].
    + apply (opening_inv _ n d); try done; cbn. lia.
    + cbn. rewrite (proj1 (proj1 Hk)), (o_data _ _ _ Ho1). done.
    + cbn. intros v s3 (I3 & D3 & G3 & F3 & C3). apply ends_ret. split; [done|]. split; [done|].
      rewrite (o_calls _ _ _ Ho1) in C3. split; [|done]. split; [done|]. split; [|lia]. intros _.
      unfold synced. rewrite D3, F3, G3, F1, Nat2Z.id. symmetry. apply take_ge. rewrite length_replicate. lia.
  - estep. estep. estep. eapply ends_mono; [now apply alloc_buffers_ok|]. intros u s2 (k & original & Hlen & Hk & ->).
    pose proof (opening_kernel _ _ _ _ Ho Hk) as Ho2. rewrite El. estep.
    eapply ends_mono; [apply check_trunc_hack_ok; [|done|apply Ho2]|].
    + apply (opening_inv _ n []); try done; cbn; lia || congruence.
    + cbn. intros v s3 (I3 & D3 & F3 & C3). apply ends_ret. split; [done|]. split; [done|].
      rewrite (o_calls _ _ _ Ho) in C3. split; [|done]. split; [done|]. split; [|lia]. intros _.
      unfold synced. now rewrite D3, F3, Hfs.
Qed.

Lemma set_up_ok opt argv goodfile logfile k :
  sane opt -> Forall is_path argv -> argv <> [] -> Z.of_nat (length argv) * 16 <= INT_MAX ->
  (~ is_path goodfile) -> (~ is_path logfile) ->
  (lite opt = true -> 0 < Z.of_nat (length (data k)) <= INT_MAX) ->
  let opt' := run_options opt (length argv) (data k) in
  ends (set_up opt argv goodfile logfile)
    (fun o s' => o = opt' /\ sane opt' /\ ready opt' s' /\ testcalls s' = 0) (state0 k).
Proof.
  intros Hsane Hp Hne Hlen Hg Hlog Hlite opt'. unfold set_up.
  assert (Hn : (0 < length argv)%nat) by (destruct argv; [done|cbn; lia]).
  rewrite (proj2 (Nat.ltb_ge _ _)) by lia. estep. estep. estep. estep. estep.
  eapply ends_mono; [now apply open_test_files_ok|]. intros u s1 (k1 & files & -> & Hfl & Hf & Hd).
  cbn [kernel set_debug state0] in Hd. cbn zeta.
  estep. apply ends_call. intros k2 fd [Hfd Hk2]%other_file_law; [|done].
  estep. estep. rewrite (proj2 (Z.ltb_ge fd 0)) by done. estep. estep.
  estep. apply ends_call. intros k3 lf [Hlf Hk3]%other_file_law; [|done].
  rewrite (proj2 (Z.ltb_ge lf 0)) by done. estep. estep. cbn [kernel set_kernel set_test_files set_fsxgoodfd] in *.
  apply (set_up_end opt (length argv) (data k)); try done; [|unfold INT_MAX in *; lia].
  pose proof (still_trans _ _ _ Hk2 Hk3) as Hk. constructor; try done; cbn.
  - now apply (fresh_files_still k1).
  - rewrite (proj1 (proj1 Hk)), Hd. done.
Qed.

(** ** The end *)

Lemma close_loop_ok opt files s :
  Forall (fun f => is_open (kernel s) f.2) files -> NoDup files.*2 ->
  ends (close_loop opt files) (fun _ s' => exists k, s' = set_kernel k s /\ data k = data (kernel s)) s.
Proof.
  revert s. induction files as [|[p fd] files IH]; intros s Hf Hnd; cbn [close_loop].
  - apply ends_ret. exists (kernel s). split; [now destruct s|done].
  - apply Forall_cons_1 in Hf as [Hfd Hf]. cbn in Hnd.
    pose proof (NoDup_cons_1_1 _ _ Hnd) as Hni. pose proof (NoDup_cons_1_2 _ _ Hnd) as Hnd'.
    estep. apply ends_call. intros k r Hr. apply close_law in Hr as (-> & Hd & Ho); [|done].
    rewrite Z.eqb_refl. eapply ends_mono; [apply IH; [|exact Hnd']|].
    + apply Forall_forall. intros f Hin. apply list_elem_of_In in Hin. cbn. apply Ho.
      * intros E. apply Hni. rewrite <- E. now apply list_elem_of_fmap_2.
      * rewrite Forall_forall in Hf. now apply Hf, list_elem_of_In.
    + cbn. intros u s2 (k2 & -> & Hd2). exists k2. split; [done|congruence].
Qed.

(** C1: On a kernel that does what POSIX says, for every choice of operations and
    arguments by [random], every sane combination of options and any number of
    paths to the file, fsx ends without a failure after the operations asked for,
    never accesses a buffer out of bounds, and its copy is then the contents of
    the file, unless all the operations were simulated. *)
Theorem fsx_main_ok opt argv goodfile logfile k stop sig :
  sane opt -> Forall is_path argv -> argv <> [] -> Z.of_nat (length argv) * 16 <= INT_MAX ->
  (~ is_path goodfile) -> (~ is_path logfile) ->
  (lite opt = true -> 0 < Z.of_nat (length (data k)) <= INT_MAX) ->
  0 <= numops opt < 2 ^ 64 ->
  exists s, fsx_main opt argv goodfile logfile pagesize stop sig (state0 k) = Done tt s /\
    testcalls s = numops opt /\
    (simulatedopcount opt = 0 \/ simulatedopcount opt < numops opt ->
     data (kernel s) = take (Z.to_nat (file_size s)) (good_buf s)).
Proof.
  intros Hsane Hp Hne Hlen Hg Hlog Hlite Hops.
  destruct (run_options_fields opt (length argv) (data k)) as (En & Es & _).
  assert (Hend : ends (fsx_main opt argv goodfile logfile pagesize stop sig)
    (fun _ s => testcalls s = numops opt /\
      (simulatedopcount opt = 0 \/ simulatedopcount opt < numops opt -> synced s)) (state0 k)).
  { unfold fsx_main. estep. eapply ends_mono; [now apply set_up_ok|]. intros o s1 (-> & Hs1 & Hr1 & C1).
    rewrite En. rewrite (proj2 (Z.eqb_neq _ (-1))) by lia. estep.
    eapply ends_mono; [apply tests_ok; [done|done|lia]|]. intros u s2 [(I2 & S2 & _) C2].
    unfold close_test_files. estep. apply ends_get.
    eapply ends_mono; [apply close_loop_ok; [|apply I2]|].
    - eapply Forall_impl; [|exact (i_open _ _ I2)]. now intros f [_ ?].
    - cbn. intros v s3 (k3 & -> & Hd). cbn. split; [lia|]. intros Hsim. unfold synced. cbn. rewrite Hd.
      apply S2. rewrite Es. lia. }
  destruct (ends_Done _ _ _ Hend) as ([] & s & Hs & Hc & Hsync). exists s. done.
Qed.
End MainOk.
