(* ===== verification/FsxKernel.v ===== *)
(** A kernel in memory that does what POSIX says, and a run of the file system
    exerciser on it. *)
From Stdlib Require Import Ascii String ZArith Lia Bool.
From stdpp Require Import base list sets numbers gmap.
From S2P Require Import Prelude CString Effects Fsx FsxOps FsxMain FsxInv FsxSound FsxRun FsxMainOk.

Local Open Scope Z_scope.

(** The contents of the file, the positions of the descriptors on it, its
    mappings, and the seed. *)
Record mem := mkMem {
  m_data : list Z; m_fds : gmap nat Z; m_maps : gmap nat (Z * Z); m_seed : Z
}.

(** The address space of a mapping. *)
Definition Block : Z := 2 ^ 40.

Definition m_pos (k : mem) (fd : Z) : option Z :=
  if fd <? 0 then None else m_fds k !! Z.to_nat fd.

Definition m_seek (k : mem) (fd p : Z) : mem :=
  mkMem (m_data k) (<[Z.to_nat fd := p]> (m_fds k)) (m_maps k) (m_seed k).

Definition m_set (k : mem) (d : list Z) : mem := mkMem d (m_fds k) (m_maps k) (m_seed k).

Definition m_map (k : mem) (a : Z) : option (Z * Z) :=
  match m_maps k !! Z.to_nat (a / Block) with
  | Some (off, _) => Some (off, a mod Block)
  | None => None
  end.

#[export] Instance mem_system : System := {|
  sys := mem;
  malloc_ok _ _ := true;
  random k :=
    let r := (m_seed k * 1103515245 + 12345) mod 2 ^ 31 in
    (mkMem (m_data k) (m_fds k) (m_maps k) r, r);
  gettimeofday k := (k, (0, 0));
  open_ k path creat :=
    if bool_decide (path = §"f") then
      let fd := fresh (dom (m_fds k)) in
      (mkMem (if creat then [] else m_data k) (<[fd := 0]> (m_fds k)) (m_maps k) (m_seed k), Z.of_nat fd)
    else (k, 100);
  close_ k fd :=
    match m_pos k fd with
    | Some _ => (mkMem (m_data k) (delete (Z.to_nat fd) (m_fds k)) (m_maps k) (m_seed k), 0)
    | None => (k, -1)
    end;
  lseek k fd off w :=
    match m_pos k fd with
    | Some _ =>
        let p := match w with SEEK_SET => off | SEEK_END => Z.of_nat (length (m_data k)) end in
        (m_seek k fd p, p)
    | None => (k, -1)
    end;
  read_ k fd n :=
    match m_pos k fd with
    | Some p =>
        let bs := slice p n (m_data k) in
        (m_seek k fd (p + Z.of_nat (length bs)), (Z.of_nat (length bs), bs))
    | None => (k, (-1, []))
    end;
  write_ k fd bs :=
    match m_pos k fd with
    | Some p =>
        (m_set (m_seek k fd (p + Z.of_nat (length bs))) (overwrite p bs (m_data k)), Z.of_nat (length bs))
    | None => (k, -1)
    end;
  ftruncate k fd n :=
    match m_pos k fd with
    | Some _ => (m_set k (resize (Z.to_nat n) 0 (m_data k)), 0)
    | None => (k, -1)
    end;
  fstat_size k fd :=
    (k, match m_pos k fd with Some _ => Some (Z.of_nat (length (m_data k))) | None => None end);
  mmap k len fd off :=
    match m_pos k fd with
    | Some _ =>
        let i := fresh (dom (m_maps k)) in
        (mkMem (m_data k) (m_fds k) (<[i := (off, len)]> (m_maps k)) (m_seed k), Some (Z.of_nat i * Block))
    | None => (k, None)
    end;
  mload k a n :=
    match m_map k a with Some (off, o) => slice (off + o) n (m_data k) | None => [] end;
  mstore k a bs :=
    match m_map k a with Some (off, o) => m_set k (splice (off + o) bs (m_data k)) | None => k end;
  msync k _ _ := (k, 0);
  munmap k p _ := (mkMem (m_data k) (m_fds k) (delete (Z.to_nat (p / Block)) (m_maps k)) (m_seed k), 0)
|}.

Definition m_open (k : mem) (fd : Z) : Prop := is_Some (m_pos k fd).
Definition m_at (k : mem) (fd : Z) : Z := match m_pos k fd with Some p => p | None => 0 end.
Definition m_mapped (k : mem) (p off len : Z) : Prop :=
  exists i, p = Z.of_nat i * Block /\ m_maps k !! i = Some (off, len) /\ 0 < len < Block.

Lemma m_pos_seek k fd p fd' :
  m_open k fd -> m_pos (m_seek k fd p) fd' = if decide (fd' = fd) then Some p else m_pos k fd'.
Proof.
  unfold m_open, m_pos. intros [q Hq]. cbn. destruct (Z.ltb_spec fd 0); [done|].
  destruct (decide (fd' = fd)) as [->|Hne].
  - rewrite (proj2 (Z.ltb_ge fd 0)) by done. now rewrite lookup_insert_eq.
  - destruct (Z.ltb_spec fd' 0); [done|]. rewrite lookup_insert_ne by lia. done.
Qed.

Lemma m_pos_fresh k d fd :
  let i := fresh (dom (m_fds k)) in
  let k' := mkMem d (<[i := 0]> (m_fds k)) (m_maps k) (m_seed k) in
  m_pos k (Z.of_nat i) = None /\ m_pos k' (Z.of_nat i) = Some 0 /\
  (m_open k fd -> m_open k' fd /\ m_at k' fd = m_at k fd).
Proof.
  intros i k'. pose proof (is_fresh (dom (m_fds k))) as Hf. fold i in Hf. apply not_elem_of_dom in Hf.
  assert (Hn : m_pos k (Z.of_nat i) = None).
  { unfold m_pos. destruct (_ <? _); [done|]. now rewrite Nat2Z.id. }
  split; [done|]. unfold m_open, m_at, m_pos, k' in *. cbn.
  split; [rewrite (proj2 (Z.ltb_ge (Z.of_nat i) 0)), Nat2Z.id by lia; apply lookup_insert_eq|].
  destruct (Z.ltb_spec fd 0); [by intros []|]. intros [q Hq].
  destruct (decide (i = Z.to_nat fd)) as [->|Hne]; [congruence|].
  rewrite lookup_insert_ne by done. rewrite Hq. done.
Qed.

Lemma m_map_at k p off len o :
  m_mapped k p off len -> 0 <= o <= len -> m_map k (p + o) = Some (off, o).
Proof.
  intros (i & -> & Hm & Hl) Ho. unfold m_map. unfold Block in *.
  rewrite Z.add_comm, Z.div_add, Z.mod_add by lia. rewrite Z.div_small, Z.mod_small by lia.
  now rewrite Z.add_0_l, Nat2Z.id, Hm.
Qed.

(** ** Its laws *)

Definition m_same (k k' : mem) : Prop :=
  m_data k' = m_data k /\ (forall fd, m_open k fd -> m_open k' fd) /\
  (forall p off len, m_mapped k p off len -> m_mapped k' p off len).

Lemma m_seek_same k fd p :
  m_open k fd -> m_same k (m_seek k fd p) /\ m_at (m_seek k fd p) fd = p /\
  (forall fd', fd' <> fd -> m_at (m_seek k fd p) fd' = m_at k fd').
Proof.
  intros Ho. split; [split; [done|split; [|done]]|split].
  - intros fd' Hf. unfold m_open. rewrite m_pos_seek by done. now destruct (decide _).
  - unfold m_at. rewrite m_pos_seek by done. now rewrite decide_True.
  - intros fd' Hne. unfold m_at. rewrite m_pos_seek by done. now rewrite decide_False.
Qed.

(** Only the data changed. *)
Lemma m_set_open k d fd : m_open (m_set k d) fd <-> m_open k fd.
Proof. done. Qed.

Lemma mem_open_law k k' path creat fd :
  open_ k path creat = (k', fd) -> path = §"f" ->
  0 <= fd /\ (~ m_open k fd) /\ m_open k' fd /\ m_data k' = (if creat then [] else m_data k) /\ m_at k' fd = 0 /\
  (forall fd', m_open k fd' -> m_open k' fd' /\ m_at k' fd' = m_at k fd').
Proof.
  cbn. intros Hr ->. rewrite bool_decide_true in Hr by done. injection Hr as <- <-.
  set (i := fresh (dom (m_fds k))). set (d := if creat then [] else m_data k).
  destruct (m_pos_fresh k d 0) as (H1 & H2 & _). fold i in H1, H2.
  split; [lia|]. split; [intros [q Hq]; congruence|]. split; [now exists 0|]. split; [done|].
  split; [unfold m_at; now rewrite H2|]. intros fd' Hf. destruct (m_pos_fresh k d fd') as (_ & _ & H3). auto.
Qed.

Lemma mem_close_law k k' fd r :
  close_ k fd = (k', r) -> m_open k fd ->
  r = 0 /\ m_data k' = m_data k /\ (forall fd', fd' <> fd -> m_open k fd' -> m_open k' fd').
Proof.
  cbn. intros Hr [q Hq]. rewrite Hq in Hr. injection Hr as <- <-. split; [done|]. split; [done|].
  unfold m_open, m_pos in *. cbn. intros fd' Hne. destruct (Z.ltb_spec fd' 0); [done|].
  destruct (Z.ltb_spec fd 0); [done|]. rewrite lookup_delete_ne by lia. done.
Qed.

Lemma mem_mmap_law k k' len fd off r :
  mmap k len fd off = (k', r) -> m_open k fd -> 0 < len <= INT_MAX ->
  exists p, r = Some p /\ m_mapped k' p off len /\ m_same k k'.
Proof.
  cbn. intros Hr [q Hq] Hl. rewrite Hq in Hr. injection Hr as <- <-.
  set (i := fresh (dom (m_maps k))). eexists. split; [done|].
  pose proof (is_fresh (dom (m_maps k))) as Hf. fold i in Hf. apply not_elem_of_dom in Hf.
  split; [exists i; split; [done|]; split; [apply lookup_insert_eq|]|split; [done|split; [done|]]].
  - unfold INT_MAX, Block in *. lia.
  - intros p o l (j & -> & Hj & Hlen). exists j. split; [done|]. split; [|done]. cbn.
    rewrite lookup_insert_ne by congruence. done.
Qed.

Lemma mem_mstore_law k p off len o bs :
  m_mapped k p off len -> 0 <= o -> o + Z.of_nat (length bs) <= len ->
  m_data (mstore k (p + o) bs) = splice (off + o) bs (m_data k) /\
  (forall fd, m_open k fd -> m_open (mstore k (p + o) bs) fd) /\
  m_mapped (mstore k (p + o) bs) p off len.
Proof.
  intros Hm Ho Hl. cbn. rewrite (m_map_at k p off len o) by (done || lia). done.
Qed.

#[export] Instance mem_posix : Posix.
Proof.
  unshelve refine {|
    data := m_data : sys -> list Z; is_path := fun p => p = §"f"; is_open := m_open : sys -> Z -> Prop;
    pos := m_at : sys -> Z -> Z; mapped := m_mapped : sys -> Z -> Z -> Z -> Prop; pagesize := 4096
  |}.
  - exists 12. done.
  - done.
  - cbn. intros k k' r [= <- <-]. pose proof (Z.mod_pos_bound (m_seed k * 1103515245 + 12345) (2 ^ 31) ltac:(done)) as Hr.
    change (2 ^ 31) with 2147483648 in *. unfold INT_MAX. split; [lia|]. done.
  - cbn. intros k k' t [= <- <-]. done.
  - cbn. intros k k' fd off r Hr Ho Hoff. destruct (m_seek_same k fd off Ho) as (H1 & H2 & H3).
    destruct Ho as [p E]. rewrite E in Hr. injection Hr as <- <-. split; [done|]. split; [done|]. split; [done|]. auto.
  - cbn. intros k k' fd r Hr Ho. destruct (m_seek_same k fd (Z.of_nat (length (m_data k))) Ho) as (H1 & H2 & H3).
    destruct Ho as [p E]. rewrite E in Hr. injection Hr as <- <-. split; [done|]. split; [done|]. auto.
  - cbn. intros k k' fd n r bs Hr Ho Hn. unfold m_at. pose proof Ho as [p E]. rewrite E in *.
    injection Hr as <- <- <-. split; [done|]. split; [done|]. now apply m_seek_same.
  - cbn. intros k k' fd bs r Hr Ho. unfold m_at. pose proof Ho as [p E]. rewrite E in *.
    injection Hr as <- <-. split; [done|]. split; [done|]. intros f Hf.
    apply m_set_open. now apply (m_seek_same k fd _ Ho).
  - cbn. intros k k' fd n r Hr [p E] Hn. rewrite E in Hr. injection Hr as <- <-. done.
  - cbn. intros k k' fd r Hr [p E]. rewrite E in Hr. injection Hr as <- <-. done.
  - intros k k' len fd off r Hr Ho Hl Hoff _. now apply (mem_mmap_law k k' len fd).
  - cbn. intros k p off len o n Hm Ho Hn Hl Hd. now rewrite (m_map_at k p off len o) by (done || lia).
  - intros k p off len o bs Hm Ho Hl Hd. now apply mem_mstore_law.
  - cbn. intros k k' p off len r [= <- <-]. done.
  - cbn. intros k k' p off len r [= <- <-]. done.
  - intros k k' fd r. apply mem_close_law.
  - intros k k' path fd Hr Hp. now apply (mem_open_law k k' path false).
  - intros k k' path fd Hr Hp. now apply (mem_open_law k k' path true).
  - cbn. intros k k' path creat fd Hr Hp. rewrite bool_decide_false in Hr by done. injection Hr as <- <-. done.
Defined.

(** Two paths to one file, eight operations, half of them simulated, with lite
    mode off. *)
Definition sample_options : options :=
  mkOptions 4 2 0 64 true 16 true 0 1 0 1 1 (-1) (-1) false 8 true 1 true true FD_RANDOM 0.

Lemma fsx_main_ok_witness :
  exists s, fsx_main sample_options [§"f"; §"f"] §"f.fsxgood" §"f.fsxlog" 4096 0 0
      (state0 (mkMem [7; 8] ∅ ∅ 1)) = Done tt s /\
    testcalls s = 8 /\
    (4 = 0 \/ 4 < 8 -> data (kernel s) = take (Z.to_nat (file_size s)) (good_buf s)).
Proof.
  apply (@fsx_main_ok mem_system mem_posix sample_options [§"f"; §"f"] §"f.fsxgood" §"f.fsxlog" (mkMem [7; 8] ∅ ∅ 1) 0 0).
  - constructor; cbn; unfold INT_MAX; lia.
  - repeat constructor.
  - discriminate.
  - cbn. unfold INT_MAX. lia.
  - cbn. discriminate.
  - cbn. discriminate.
  - discriminate.
  - cbn. lia.
Defined.
