(* ===== verification/FsxDetect.v ===== *)
(** What the file system exerciser detects, on any kernel: a read that ends
    normally delivered the bytes of the copy, and a wrong byte ends the program
    with the offset of the last one recorded. *)
From Stdlib Require Import Ascii String ZArith Lia Bool.
From stdpp Require Import base list sets numbers.
From S2P Require Import Prelude CString Effects Fsx FsxOps FsxMain FsxKernel.

Local Open Scope Z_scope.

Section Detect.
Context `{System}.
Context (opt : options).
Abbreviation F := (E state).

(** ** The report *)

Definition differ (good temp : list Z) (offset i : Z) : Prop :=
  good !! Z.to_nat offset <> temp !! Z.to_nat i.

(** The loop finds the last bad byte. *)
Lemma bad_loop_spec k good temp offset i n bad :
  0 <= offset -> 0 <= i -> offset + Z.of_nat k < Z.of_nat (length good) ->
  i + Z.of_nat k < Z.of_nat (length temp) -> 0 <= n ->
  exists n' bad', bad_loop k good temp offset i n bad = Some (n', bad') /\ n <= n' /\
    ((bad' = bad /\ forall j, 0 <= j < Z.of_nat k -> ~ differ good temp (offset + j) (i + j)) \/
     (exists j, 0 <= j < Z.of_nat k /\ bad' = offset + j /\ differ good temp (offset + j) (i + j) /\
        forall j', j < j' < Z.of_nat k -> ~ differ good temp (offset + j') (i + j'))).
Proof.
  revert offset i n bad. induction k as [|k IH]; intros offset i n bad Ho Hi Hg Ht Hn; cbn [bad_loop].
  { exists n, bad. split; [done|]. split; [lia|]. left. split; [done|]. lia. }
  destruct (lookup_lt_is_Some_2 good (Z.to_nat offset) ltac:(lia)) as [c Ec].
  destruct (lookup_lt_is_Some_2 temp (Z.to_nat i) ltac:(lia)) as [t Et].
  destruct (lookup_lt_is_Some_2 good (S (Z.to_nat offset)) ltac:(lia)) as [c' Ec'].
  destruct (lookup_lt_is_Some_2 temp (S (Z.to_nat i)) ltac:(lia)) as [t' Et'].
  assert (Hshift : forall j, differ good temp (offset + 1 + (j - 1)) (i + 1 + (j - 1)) <-> differ good temp (offset + j) (i + j)).
  { intros j. replace (offset + 1 + (j - 1)) with (offset + j) by lia.
    now replace (i + 1 + (j - 1)) with (i + j) by lia. }
  assert (H0 : differ good temp (offset + 0) (i + 0) <-> c <> t).
  { unfold differ. rewrite !Z.add_0_r, Ec, Et. split; congruence. }
  rewrite Ec, Et. destruct (Z.eqb_spec c t) as [Heq|Hne].
  - destruct (IH (offset + 1) (i + 1) n bad) as (n' & bad' & E1 & E2 & E3); [lia..|].
    exists n', bad'. split; [done|]. split; [done|]. destruct E3 as [[-> Hno]|(j & Hj & -> & Hd & Hlast)].
    + left. split; [done|]. intros j Hj. destruct (decide (j = 0)) as [->|]; [rewrite H0; auto|].
      rewrite <- Hshift. apply Hno. lia.
    + right. exists (j + 1). split; [lia|]. split; [lia|]. split.
      * rewrite <- Hshift. replace (j + 1 - 1) with j by lia. done.
      * intros j' Hj'. rewrite <- Hshift. apply Hlast. lia.
  - unfold short_at. rewrite Ec, Et, Ec', Et', andb_false_r.
    destruct (IH (offset + 1) (i + 1) (n + 1) offset) as (n' & bad' & E1 & E2 & E3); [lia..|].
    exists n', bad'. split; [done|]. split; [lia|]. right. destruct E3 as [[-> Hno]|(j & Hj & -> & Hd & Hlast)].
    + exists 0. split; [lia|]. split; [lia|]. split; [now apply H0|]. intros j' Hj'.
      rewrite <- Hshift. apply Hno. lia.
    + exists (j + 1). split; [lia|]. split; [lia|]. split.
      * rewrite <- Hshift. replace (j + 1 - 1) with j by lia. done.
      * intros j' Hj'. rewrite <- Hshift. apply Hlast. lia.
Qed.

(** [report_failure] ends the program with its status. *)
Lemma report_failure_exits {A} status s :
  file_size s <= INT_MAX ->
  exists k, report_failure (A := A) opt status s = Exited status (set_kernel k s).
Proof.
  intros Hs. unfold report_failure, mbind, E_bind, get. cbn.
  destruct (fsxgoodfd s =? 0); [exists (kernel s); now destruct s|].
  unfold save_buffer. destruct (_ || _).
  - cbn. unfold call. destruct (close_ _ _) as [k r]. now exists k.
  - rewrite (proj2 (Z.ltb_ge _ _)) by done. unfold mbind, E_bind, call.
    destruct (lite opt).
    + cbn. destruct (lseek _ _ _ SEEK_END) as [k1 r1]. cbn. destruct (lseek _ _ _ SEEK_SET) as [k2 r2]. cbn.
      destruct (write_ _ _ _) as [k3 r3]. cbn. destruct (close_ _ _) as [k4 r4]. now exists k4.
    + cbn. destruct (lseek _ _ _ SEEK_SET) as [k2 r2]. cbn.
      destruct (write_ _ _ _) as [k3 r3]. cbn. destruct (close_ _ _) as [k4 r4]. now exists k4.
Qed.

Lemma slices_differ good temp off size :
  0 <= off -> 0 <= size -> off + size <= Z.of_nat (length good) -> size <= Z.of_nat (length temp) ->
  slice off size good <> slice 0 size temp ->
  ~ forall j, 0 <= j < size -> ~ differ good temp (off + j) (0 + j).
Proof.
  intros Ho Hn Hg Ht Hne Hno. apply Hne. apply list_eq. intros i.
  destruct (decide (i < Z.to_nat size)%nat).
  - rewrite !lookup_slice by lia. specialize (Hno (Z.of_nat i) ltac:(lia)). unfold differ in Hno.
    replace (Z.to_nat (off + Z.of_nat i)) with (Z.to_nat off + i)%nat in Hno by lia.
    replace (Z.to_nat (0 + Z.of_nat i)) with (Z.to_nat 0 + i)%nat in Hno by lia.
    destruct (decide (good !! (Z.to_nat off + i)%nat = temp !! (Z.to_nat 0 + i)%nat)); [done|]. now destruct Hno.
  - rewrite !lookup_ge_None_2 by (rewrite length_slice; lia). done.
Qed.

(** A buffer that differs from the copy is always noticed: whatever the kernel
    does meanwhile, the program ends with status 110 and [badoff] is the offset of
    the last byte that is wrong. *)
Theorem check_buffers_report off size s :
  0 <= off -> 0 <= size -> off + size < Z.of_nat (length (good_buf s)) ->
  size < Z.of_nat (length (temp_buf s)) -> off + size <= INT_MAX -> file_size s <= INT_MAX ->
  slice off size (good_buf s) <> slice 0 size (temp_buf s) ->
  exists s' j, check_buffers opt off size s = Exited 110 s' /\ 0 <= j < size /\ badoff s' = off + j /\
    differ (good_buf s) (temp_buf s) (off + j) j /\
    forall j', j < j' < size -> ~ differ (good_buf s) (temp_buf s) (off + j') j'.
Proof.
  intros Ho Hn Hg Ht Hmax Hfs Hne. unfold INT_MAX in *.
  destruct (bad_loop_spec (Z.to_nat size) (good_buf s) (temp_buf s) off 0 0 (badoff s))
    as (n' & bad' & E & _ & Hbad); [lia..|]. rewrite !Z2Nat.id in Hbad by lia.
  destruct Hbad as [[_ Hno]|(j & Hj & -> & Hd & Hlast)].
  { exfalso. revert Hno. apply slices_differ; lia || done. }
  destruct (report_failure_exits (A := unit) 110 (set_badoff (s32 (off + j)) s)) as [k Hk]; [unfold INT_MAX; cbn; lia|].
  exists (set_kernel k (set_badoff (s32 (off + j)) s)), j. split; [|split; [done|split; [|done]]].
  - unfold check_buffers. unfold mbind at 1, E_bind, get. unfold require at 1.
    rewrite (proj2 (Z.leb_le (off + size) _)), (proj2 (Z.leb_le size _)) by lia. cbn [andb].
    unfold mbind at 1, E_bind, mret, E_ret. unfold bytes_eqb. rewrite bool_decide_false by done. rewrite E.
    exact Hk.
  - cbn. apply s32_small. unfold INT_MIN, INT_MAX. lia.
Qed.

(** ** Reads that end *)

(** The buffers and the size are as before. *)
Definition framed (s s' : state) : Prop :=
  good_buf s' = good_buf s /\ temp_buf s' = temp_buf s /\ file_size s' = file_size s /\ testcalls s' = testcalls s.

Definition frames {A} (m : F A) : Prop := forall s, may_end m (fun _ s' => framed s s') s.

Lemma frames_bind {A B} (m : F A) (f : A -> F B) : frames m -> (forall a, frames (f a)) -> frames (m ≫= f).
Proof.
  intros Hm Hf s. apply may_end_bind. eapply may_end_mono; [apply Hm|]. intros a s1 (E1 & E2 & E3 & E4).
  eapply may_end_mono; [apply Hf|]. intros b s2 (E5 & E6 & E7 & E8). repeat split; congruence.
Qed.

Lemma frames_ret {A} (a : A) : frames (mret a).
Proof. now intros s. Qed.

Lemma frames_call {A} (f : sys -> sys * A) : frames (call f).
Proof. intros s. unfold may_end, call. now destruct (f (kernel s)). Qed.

Lemma frames_get : frames get.
Proof. now intros s. Qed.

Lemma frames_modify f : (forall s, framed s (f s)) -> frames (modify f).
Proof. intros Hf s. apply Hf. Qed.

Lemma frames_require b : frames (require b).
Proof. intros s. unfold require. now destruct b. Qed.

Lemma frames_exit {A} c : frames (@exit state A c).
Proof. now intros s. Qed.

Lemma frames_undefined {A} : frames (@undefined state A).
Proof. now intros s. Qed.

Create HintDb frames.
#[local] Hint Resolve frames_ret frames_call frames_get frames_require frames_exit frames_undefined : frames.

Ltac frames_tac :=
  repeat first
    [ solve [eauto with frames]
    | apply frames_bind; [|intros ?]
    | apply frames_modify; intros ?
    | match goal with
      | |- frames (when ?b _) => unfold when; destruct b
      | |- frames (if ?b then _ else _) => destruct b
      | |- frames (match ?x with _ => _ end) => destruct x
      end ].

Lemma frames_get_tf : frames (get_tf opt).
Proof. unfold get_tf. frames_tac; done. Qed.

Lemma frames_tf_fd tf : frames (tf_fd tf).
Proof. unfold tf_fd. frames_tac. Qed.

Lemma frames_log4 o a0 a1 a2 t : frames (log4 o a0 a1 a2 t).
Proof. unfold log4. frames_tac; done. Qed.

Lemma frames_fill_tf_buf tf : frames (fill_tf_buf tf).
Proof. unfold fill_tf_buf, alloc_tf_buf. frames_tac; done. Qed.
#[local] Hint Resolve frames_get_tf frames_tf_fd frames_log4 frames_fill_tf_buf : frames.

Lemma frames_output_line tf off n : frames (output_line opt tf off n).
Proof. unfold output_line. frames_tac. Qed.

Lemma frames_debug_time off n : frames (debug_time opt off n).
Proof. unfold debug_time. frames_tac. Qed.
#[local] Hint Resolve frames_output_line frames_debug_time : frames.

Lemma framed_trans s1 s2 s3 : framed s1 s2 -> framed s2 s3 -> framed s1 s3.
Proof. unfold framed. intuition congruence. Qed.

Lemma may_end_framed {A B} (m : F A) (f : A -> F B) Q s0 s :
  framed s0 s -> frames m -> (forall a s', framed s0 s' -> may_end (f a) Q s') -> may_end (m ≫= f) Q s.
Proof.
  intros Hs Hm Hf. apply may_end_bind. eapply may_end_mono; [apply Hm|].
  intros a s' Hs'. apply Hf. now apply (framed_trans _ s).
Qed.

Lemma report_failure_ends {A B} status (f : A -> F B) Q s : may_end (report_failure opt status ≫= f) Q s.
Proof.
  apply may_end_bind. unfold report_failure. apply may_end_bind. eapply may_end_mono; [apply may_end_true|].
  intros s1 s2 _. apply may_end_bind. eapply may_end_mono; [apply may_end_true|]. done.
Qed.

Lemma report_failure_ends' {A} status (Q : A -> state -> Prop) s : may_end (report_failure opt status) Q s.
Proof.
  unfold report_failure. apply may_end_bind. eapply may_end_mono; [apply may_end_true|].
  intros s1 s2 _. apply may_end_bind. eapply may_end_mono; [apply may_end_true|]. done.
Qed.

Lemma check_buffers_ends off size s :
  may_end (check_buffers opt off size)
    (fun _ s' => s' = s /\ slice off size (good_buf s) = slice 0 size (temp_buf s)) s.
Proof.
  unfold check_buffers. apply may_end_bind. unfold get, may_end at 1. apply may_end_bind.
  unfold require. destruct (_ && _); [|done]. unfold may_end at 1, mret, E_ret.
  unfold bytes_eqb. destruct (bool_decide_reflect (slice off size (good_buf s) = slice 0 size (temp_buf s))); [done|].
  destruct (bad_loop _ _ _ _ _ _ _) as [[m bad]|]; [|done].
  apply may_end_bind. unfold may_end at 1, modify. apply report_failure_ends'.
Qed.

(** The bytes the kernel puts into [temp_buf]. *)
Definition delivered (size : Z) (bytes temp : list Z) : list Z := splice 0 (take (Z.to_nat size) bytes) temp.

Lemma read_temp_ends fd size s :
  may_end (read_temp fd size) (fun r s' => exists k,
    r = u32 (read_ k fd size).2.1 /\ good_buf s' = good_buf s /\
    temp_buf s' = delivered size (read_ k fd size).2.2 (temp_buf s)) s.
Proof.
  unfold read_temp. apply may_end_bind. unfold get, may_end at 1. apply may_end_bind.
  unfold require. destruct (_ <=? _); [|done]. unfold may_end at 1, mret, E_ret.
  apply may_end_bind. unfold call, may_end at 1. destruct (read_ (kernel s) fd size) as [k' [r bs]] eqn:E.
  cbn. exists (kernel s). rewrite E. done.
Qed.

(** The operation was skipped or only simulated. *)
Definition not_done (o size : Z) (s : state) : Prop :=
  size = 0 \/ file_size s < u32 (size + o) \/ testcalls s <= simulatedopcount opt.

(** What the two read operations do before they read. *)
Lemma read_front_ends o size op rest Q s :
  (not_done o size s -> forall s', Q tt s') ->
  (forall tf fd s', framed s s' -> may_end (rest tf fd) Q s') ->
  may_end (tf ← get_tf opt; fd ← tf_fd tf; t ← call gettimeofday; s ← get;
    if size =? 0 then log4 OP_SKIPPED (op_code op) o size t
    else if file_size s <? u32 (size + o) then log4 OP_SKIPPED (op_code op) o size t
    else log4 op o size 0 t;; (if testcalls s <=? simulatedopcount opt then mret tt else rest tf fd)) Q s.
Proof.
  intros Hskip Hrest. unfold not_done in Hskip.
  apply (may_end_framed _ _ _ s s); [done|apply frames_get_tf|]. intros tf s1 F1.
  apply (may_end_framed _ _ _ s s1); [done|apply frames_tf_fd|]. intros fd s2 F2.
  apply (may_end_framed _ _ _ s s2); [done|apply frames_call|]. intros t s3 F3.
  apply may_end_bind. unfold get, may_end at 1. pose proof F3 as (_ & _ & E3 & E4). rewrite E3, E4.
  destruct (Z.eqb_spec size 0); [eapply may_end_mono; [apply may_end_true|]; intros []; auto|].
  destruct (Z.ltb_spec (file_size s) (u32 (size + o))); [eapply may_end_mono; [apply may_end_true|]; intros []; auto|].
  apply (may_end_framed _ _ _ s s3); [done|apply frames_log4|]. intros _ s4 F4.
  destruct (Z.leb_spec (testcalls s) (simulatedopcount opt)); [unfold may_end, mret, E_ret; auto|]. now apply Hrest.
Qed.

Lemma load_temp_ends addr size s :
  may_end (load_temp addr size) (fun _ s' => exists k,
    good_buf s' = good_buf s /\ temp_buf s' = delivered size (mload k addr size) (temp_buf s)) s.
Proof.
  unfold load_temp. apply may_end_bind. unfold get, may_end at 1. apply may_end_bind.
  unfold require. destruct (_ <=? _); [|done]. cbn. now exists (kernel s).
Qed.

(** What a read that was done leaves: the buffer holds what the kernel delivered,
    and that is what the copy holds. *)
Definition agreed (o size : Z) (bytes : list Z) (s s' : state) : Prop :=
  temp_buf s' = delivered size bytes (temp_buf s) /\ good_buf s' = good_buf s /\
  slice 0 size (temp_buf s') = slice o size (good_buf s).

Lemma check_agreed o size bs s s0 s' :
  framed s s0 -> good_buf s' = good_buf s0 -> temp_buf s' = delivered size bs (temp_buf s0) ->
  may_end (check_buffers opt o size) (fun _ => agreed o size bs s) s'.
Proof.
  intros (G & T & _) G' T'. eapply may_end_mono; [apply check_buffers_ends|]. intros u s1 [-> E].
  unfold agreed. rewrite G', G in *. rewrite T', T in *. done.
Qed.

Lemma doread_ends off size s :
  let o := off - off mod readbdy opt in
  may_end (doread opt off size) (fun _ s' => not_done o size s \/
    exists k fd, u32 (read_ k fd size).2.1 = size /\ agreed o size (read_ k fd size).2.2 s s') s.
Proof.
  intros o. unfold doread. fold o. apply (read_front_ends o size OP_READ); [auto|]. intros tf fd s4 F4.
  apply (may_end_framed _ _ _ s s4); [done|apply frames_output_line|]. intros _ s5 F5.
  apply (may_end_framed _ _ _ s s5); [done|apply frames_call|]. intros ret s6 F6.
  destruct (ret =? -1); [apply report_failure_ends|].
  apply (may_end_framed _ _ _ s s6); [done|apply frames_ret|]. intros _ s7 F7.
  apply may_end_bind. eapply may_end_mono; [apply read_temp_ends|]. intros r s8 (k & -> & G8 & T8).
  apply (may_end_framed _ _ _ s8 s8); [done|apply frames_debug_time|]. intros _ s9 F9.
  destruct (Z.eqb_spec (u32 (read_ k fd size).2.1) size); [|apply report_failure_ends].
  apply (may_end_framed _ _ _ s8 s9); [done|apply frames_ret|]. intros _ s10 (G10 & T10 & _).
  eapply may_end_mono; [apply (check_agreed o size (read_ k fd size).2.2 s s7); [done|congruence..]|].
  intros u s' E. right. now exists k, fd.
Qed.

Lemma domapread_ends page_size off size s :
  let o := off - off mod readbdy opt in
  may_end (domapread opt page_size off size) (fun _ s' => not_done o size s \/
    exists k addr, agreed o size (mload k addr size) s s') s.
Proof.
  intros o. unfold domapread. fold o. apply (read_front_ends o size OP_MAPREAD); [auto|]. intros tf fd s4 F4.
  apply (may_end_framed _ _ _ s s4); [done|apply frames_output_line|]. intros _ s5 F5.
  apply (may_end_framed _ _ _ s s5); [done|apply frames_call|]. intros [p|] s6 F6; [|apply report_failure_ends'].
  apply (may_end_framed _ _ _ s s6); [done|apply frames_debug_time|]. intros _ s7 F7.
  apply may_end_bind. eapply may_end_mono; [apply load_temp_ends|]. intros _ s8 (k & G8 & T8).
  apply (may_end_framed _ _ _ s8 s8); [done|apply frames_debug_time|]. intros _ s9 F9.
  apply (may_end_framed _ _ _ s8 s9); [done|apply frames_call|]. intros r s10 F10.
  destruct (r =? 0); [|apply report_failure_ends].
  apply (may_end_framed _ _ _ s8 s10); [done|apply frames_ret|]. intros _ s11 F11.
  apply (may_end_framed _ _ _ s8 s11); [done|apply frames_debug_time|]. intros _ s12 (G12 & T12 & _).
  eapply may_end_mono; [apply (check_agreed o size (mload k (p + Z.land o (page_size - 1)) size) s s7); [done|congruence..]|].
  intros u s' E. right. eexists k, _. exact E.
Qed.

(** C18: Reads are checked on any kernel, obeying or not: after a [read] or a mapped
    read that ends normally, the read was skipped, or the kernel answered with the
    number of bytes asked for, the buffer holds what it delivered, and those are
    the bytes of the copy. Everything else ends the program. *)
Theorem reads_checked page_size off size s s' :
  let o := off - off mod readbdy opt in
  (doread opt off size s = Done tt s' -> not_done o size s \/
     exists k fd, u32 (read_ k fd size).2.1 = size /\ agreed o size (read_ k fd size).2.2 s s') /\
  (domapread opt page_size off size s = Done tt s' -> not_done o size s \/
     exists k addr, agreed o size (mload k addr size) s s').
Proof.
  intros o. split; intros E.
  - pose proof (doread_ends off size s) as Hm. unfold may_end in Hm. now rewrite E in Hm.
  - pose proof (domapread_ends page_size off size s) as Hm. unfold may_end in Hm. now rewrite E in Hm.
Qed.
End Detect.

(** ** An instance *)

Definition sample_opt : options :=
  mkOptions 0 0 0 64 true 16 true 0 1 0 1 1 (-1) (-1) false 8 true 1 true true FD_RANDOM 0.

(** A file of four bytes open on descriptor 3, the copy given, and a buffer of eight
    bytes. *)
Definition sample_state (good : list Z) : state :=
  set_test_files [(§"f", 3)] (set_testcalls 1 (set_file_size 4
    (set_good_buf good (set_temp_buf (replicate 8 0) (state0 (mkMem [7; 8; 9; 10] {[ 3%nat := 0 ]} ∅ 1)))))).

(** The state a computation ends in. *)
Definition last_state {A} (m : E state A) (s : state) : state :=
  match m s with Done _ s' => s' | _ => s end.

Definition ended {A} (r : outcome state A) : bool := match r with Done _ _ => true | _ => false end.

Lemma last_state_done (m : E state unit) s : ended (m s) = true -> m s = Done tt (last_state m s).
Proof. unfold last_state. now destruct (m s) as [[]| |]. Qed.

Lemma check_buffers_report_witness :
  exists s' j, check_buffers sample_opt 1 3 (sample_state [7; 8; 9; 10; 0; 0]) = Exited 110 s' /\ 0 <= j < 3 /\
    badoff s' = 1 + j /\
    differ (good_buf (sample_state [7; 8; 9; 10; 0; 0])) (temp_buf (sample_state [7; 8; 9; 10; 0; 0])) (1 + j) j /\
    forall j', j < j' < 3 ->
      ~ differ (good_buf (sample_state [7; 8; 9; 10; 0; 0])) (temp_buf (sample_state [7; 8; 9; 10; 0; 0])) (1 + j') j'.
Proof.
  apply (check_buffers_report sample_opt 1 3 (sample_state [7; 8; 9; 10; 0; 0]));
    vm_compute; congruence.
Defined.

Lemma reads_checked_witness :
  let s := sample_state [7; 8; 9; 10; 0; 0] in
  let o := 1 - 1 mod readbdy sample_opt in
  ((not_done sample_opt o 2 s \/
    exists k fd, u32 (read_ k fd 2).2.1 = 2 /\
      agreed o 2 (read_ k fd 2).2.2 s (last_state (doread sample_opt 1 2) s)) /\
   (not_done sample_opt o 2 s \/
    exists k addr, agreed o 2 (mload k addr 2) s (last_state (domapread sample_opt 4096 1 2) s))) /\
  ~ not_done sample_opt o 2 s.
Proof.
  intros s o. split; [split|].
  - apply (proj1 (reads_checked sample_opt 4096 1 2 s (last_state (doread sample_opt 1 2) s))).
    apply last_state_done. vm_compute. reflexivity.
  - apply (proj2 (reads_checked sample_opt 4096 1 2 s (last_state (domapread sample_opt 4096 1 2) s))).
    apply last_state_done. vm_compute. reflexivity.
  - intros [E|[E|E]]; vm_compute in E; congruence.
Defined.
