(* ===== verification/FsxLog.v ===== *)
(** The operation log of the file system exerciser: the ring of [log4] and
    [logdump] keeps the last [LOGSIZE] operations of the history. *)
From Stdlib Require Import Ascii String ZArith Lia Bool.
From stdpp Require Import base list sets numbers.
From S2P Require Import Prelude CString Effects Fsx FsxMain FsxKernel.

Local Open Scope nat_scope.

Lemma LOGSIZE_pos : 0 < LOGSIZE.
Proof. apply Nat.lt_0_succ. Qed.
#[local] Opaque LOGSIZE.

(** A call of [log4]. *)
Record log_call := mkCall { l_op : operation; l_args : Z * Z * Z; l_time : Z * Z }.

Definition logged (c : log_call) : log_entry :=
  mkEntry (l_op c) (l_time c) (s32 (l_args c).1.1, s32 (l_args c).1.2, s32 (l_args c).2).

(** The number [logdump] gives the entry of the call numbered [m] from 0, when
    [n] operations were logged. *)
Definition shown_number (n m : nat) : Z :=
  if decide (m / LOGSIZE = n / LOGSIZE) then Z.of_nat m + 1 else Z.of_nat m + 1 + Z.of_nat LOGSIZE.

Section Ring.
Context `{System}.

Definition log_call_run (c : log_call) : E state unit :=
  log4 (l_op c) (l_args c).1.1 (l_args c).1.2 (l_args c).2 (l_time c).

Fixpoint log_run (cs : list log_call) : E state unit :=
  match cs with
  | [] => mret tt
  | c :: cs => log_call_run c;; log_run cs
  end.

(** The ring holds the end of the history [es]. *)
Record ring (s : state) (es : list log_entry) : Prop := {
  r_len : length (oplog s) = LOGSIZE;
  r_ptr : logptr s = length es mod LOGSIZE;
  r_count : logcount s = Z.of_nat (length es);
  r_slots : forall m, m < length es -> length es <= m + LOGSIZE -> oplog s !! (m mod LOGSIZE) = es !! m
}.

(** Two calls less than a round apart use different slots. *)
Lemma slots_differ m n : m < n -> n < m + LOGSIZE -> m mod LOGSIZE <> n mod LOGSIZE.
Proof.
  intros H1 H2 Heq. pose proof LOGSIZE_pos.
  pose proof (Nat.div_mod_eq m LOGSIZE). pose proof (Nat.div_mod_eq n LOGSIZE).
  assert (n = m + LOGSIZE * (n / LOGSIZE - m / LOGSIZE)) by nia.
  destruct (n / LOGSIZE - m / LOGSIZE) as [|q]; nia.
Qed.

Lemma next_slot n :
  (if LOGSIZE <=? S (n mod LOGSIZE) then 0 else S (n mod LOGSIZE)) = S n mod LOGSIZE.
Proof.
  pose proof LOGSIZE_pos. pose proof (Nat.mod_upper_bound n LOGSIZE ltac:(lia)).
  pose proof (Nat.div_mod_eq n LOGSIZE) as Hn. destruct (Nat.leb_spec LOGSIZE (S (n mod LOGSIZE))).
  - apply (Nat.mod_unique _ _ (S (n / LOGSIZE))); nia.
  - apply (Nat.mod_unique _ _ (n / LOGSIZE)); nia.
Qed.

Lemma log_call_ring c es s :
  ring s es -> (Z.of_nat (S (length es)) <= INT_MAX)%Z ->
  ends (log_call_run c) (fun _ s' => ring s' (es ++ [logged c])) s.
Proof.
  intros [Hl Hp Hc Hs] Hn. pose proof LOGSIZE_pos. unfold log_call_run, log4.
  pose proof (Nat.mod_upper_bound (length es) LOGSIZE ltac:(lia)).
  estep. unfold get, ends at 1. estep. estep; [apply Nat.ltb_lt; lia|]. estep.
  split; cbn -[Nat.modulo Nat.leb].
  - now rewrite length_insert.
  - rewrite Hp, length_app, Nat.add_1_r. apply next_slot.
  - rewrite Hc, length_app, s32_small by (unfold INT_MIN; lia). cbn. lia.
  - intros m Hm1 Hm2. rewrite length_app in *. cbn [length] in *. rewrite Hp.
    destruct (decide (m = length es)) as [->|].
    + rewrite list_lookup_insert_eq by lia. now rewrite list_lookup_middle.
    + rewrite list_lookup_insert_ne by (intros E; symmetry in E; revert E; apply slots_differ; lia).
      rewrite lookup_app_l by lia. apply Hs; lia.
Qed.

Lemma log_run_ring cs es s :
  ring s es -> (Z.of_nat (length es + length cs) <= INT_MAX)%Z ->
  ends (log_run cs) (fun _ s' => ring s' (es ++ (logged <$> cs))) s.
Proof.
  revert es s. induction cs as [|c cs IH]; intros es s Hr Hn; cbn [log_run fmap list_fmap].
  { estep. now rewrite app_nil_r. }
  cbn [length] in Hn. estep. eapply ends_mono; [apply (log_call_ring c es s Hr); lia|]. intros u s' Hr'.
  eapply ends_mono; [apply (IH _ _ Hr'); rewrite length_app; cbn; lia|].
  intros v s2. now rewrite <- app_assoc.
Qed.

(** The dump of a ring from the call [m] on. *)
Lemma dump_from_ring s es count m :
  ring s es -> m + count <= length es -> length es <= m + LOGSIZE ->
  dump_from count (m mod LOGSIZE) (logcount s) (oplog s) =
  zip (shown_number (length es) <$> seq m count) (take count (drop m es)).
Proof.
  intros [Hl Hp Hc Hs]. revert m. induction count as [|count IH]; intros m H1 H2; [done|].
  destruct (lookup_lt_is_Some_2 es m ltac:(lia)) as [e He].
  cbn [dump_from seq fmap list_fmap]. rewrite Hs, He by lia. rewrite (drop_S es e m He). cbn [take zip_with].
  pose proof LOGSIZE_pos as HL. f_equal.
  - f_equal. unfold shown_number. rewrite Hc.
    rewrite Z.quot_div_nonneg, <- Nat2Z.inj_div by lia.
    pose proof (Nat.div_mod_eq m LOGSIZE). pose proof (Nat.div_mod_eq (length es) LOGSIZE).
    pose proof (Nat.mod_upper_bound m LOGSIZE ltac:(lia)).
    pose proof (Nat.mod_upper_bound (length es) LOGSIZE ltac:(lia)).
    destruct (decide _) as [E|E]; [rewrite <- E; nia|].
    assert (length es / LOGSIZE = S (m / LOGSIZE)) as -> by nia. nia.
  - rewrite <- IH by lia. f_equal. rewrite <- next_slot.
    pose proof (Nat.mod_upper_bound m LOGSIZE ltac:(lia)).
    destruct (Nat.eqb_spec (S (m mod LOGSIZE)) LOGSIZE), (Nat.leb_spec LOGSIZE (S (m mod LOGSIZE))); lia.
Qed.

(** Refinement of the log to the history of the program: after any number of
    [log4] calls, none of which leaves the ring, [logdump] lists the last
    [LOGSIZE] operations, or all of them, oldest first. The number it shows is the
    operation's own when the round of the ring it was logged in is still the
    current one, and [LOGSIZE] too high otherwise. *)
Theorem logdump_history cs k :
  (Z.of_nat (length cs) <= INT_MAX)%Z ->
  exists s, log_run cs (state0 k) = Done tt s /\
    logdump s = zip (shown_number (length cs) <$> seq (length cs - LOGSIZE) (length cs `min` LOGSIZE))
                    (drop (length cs - LOGSIZE) (logged <$> cs)).
Proof.
  intros Hn. assert (H0 : ring (state0 k) []).
  { pose proof LOGSIZE_pos. split; cbn [state0 oplog logptr logcount length]; [apply length_replicate|now rewrite Nat.Div0.mod_0_l|done|lia]. }
  destruct (ends_Done _ _ _ (log_run_ring cs [] _ H0 Hn)) as ([] & s & E & Hr). exists s. split; [done|].
  cbn [app] in Hr. set (es := logged <$> cs) in *.
  assert (Hlen : length es = length cs) by apply length_fmap. rewrite <- Hlen.
  pose proof Hr as [Hl Hp Hc _]. unfold logdump. rewrite Hc. destruct (Z.ltb_spec (Z.of_nat (length es)) (Z.of_nat LOGSIZE)).
  - replace (length es - LOGSIZE) with 0 by lia. rewrite Nat2Z.id, Nat.min_l by lia.
    pose proof (dump_from_ring s es (length es) 0 Hr ltac:(lia) ltac:(lia)) as Hd.
    rewrite Nat.Div0.mod_0_l, Hc in Hd. rewrite Hd. now rewrite firstn_all2 by (rewrite drop_0; lia).
  - pose proof (dump_from_ring s es LOGSIZE (length es - LOGSIZE) Hr ltac:(lia) ltac:(lia)) as Hd.
    assert (Hm : (length es - LOGSIZE) mod LOGSIZE = logptr s).
    { rewrite Hp. pose proof LOGSIZE_pos. replace (length es) with (length es - LOGSIZE + 1 * LOGSIZE) at 2 by lia.
      now rewrite Nat.Div0.mod_add. }
    rewrite Hm, Hc in Hd. rewrite Hd, Nat.min_r by lia. now rewrite firstn_all2 by (rewrite length_drop; lia).
Qed.
End Ring.

(** A thousand and one operations, the first of which is overwritten. *)
Definition sample_calls : list log_call :=
  mkCall OP_WRITE (0, 4, 0)%Z (0, 0)%Z :: replicate 1000 (mkCall OP_READ (0, 4, 0)%Z (0, 0)%Z).

Lemma logdump_history_witness :
  exists s, log_run sample_calls (state0 (mkMem [] ∅ ∅ 1%Z)) = Done tt s /\
    logdump s = zip (shown_number (length sample_calls) <$> seq (length sample_calls - LOGSIZE) (length sample_calls `min` LOGSIZE))
                    (drop (length sample_calls - LOGSIZE) (logged <$> sample_calls)).
Proof.
  apply (@logdump_history mem_system sample_calls (mkMem [] ∅ ∅ 1%Z)). unfold sample_calls, INT_MAX.
  rewrite length_cons, length_replicate. vm_compute. discriminate.
Defined.
