(* ===== verification/FsxOptions.v ===== *)
(** The options the file system exerciser accepts. *)
From Stdlib Require Import Ascii String ZArith Lia Bool.
From stdpp Require Import base list sets numbers.
From S2P Require Import Prelude CString Effects Fsx FsxOps FsxMain FsxInv FsxKernel.

Local Open Scope Z_scope.

(** What every accepted command line guarantees. *)
Record accepted (o : options) : Prop := {
  a_len : 0 < maxfilelen o; a_op : 0 < maxoplen o;
  a_r : 0 < readbdy o; a_w : 0 < writebdy o; a_t : 0 < truncbdy o;
  a_style : style o = 0;
  a_sim : 0 <= simulatedopcount o;
  a_seed : 0 <= seed o;
  a_close : 0 <= closeprob o;
  a_num : -1 <= numops o
}.

Lemma accepted_options0 : accepted options0.
Proof. split; cbn; lia. Qed.

Lemma u64_nonneg z : 0 <= u64 z.
Proof. unfold u64, uwrap. now apply Z.mod_pos_bound. Qed.

(** An option whose setter keeps the options accepted, but for values it refuses. *)
Lemma num_opt_accepted arg bad set o :
  (forall v, bad v = false -> accepted (set v o)) -> may_end (num_opt arg bad set) (fun _ => accepted) o.
Proof.
  intros Hset. unfold num_opt, num. estep. destruct (getnum arg) as [[v e]|]; [|done].
  unfold may_end at 1, mret, E_ret. estep. unfold may_end at 1, modify. cbn [fst].
  destruct (bad v) eqn:E; [done|]. now apply Hset.
Qed.

Lemma num_accepted {B} arg (f : Z * cstr -> E options B) Q o :
  (forall r, may_end (f r) Q o) -> may_end (num arg ≫= f) Q o.
Proof. intros Hf. unfold num. estep. destruct (getnum arg) as [r|]; [apply Hf|done]. Qed.

(** Setters of fields that are not constrained. *)
Ltac accept := intros;
  match goal with Ho : accepted _ |- _ => destruct Ho; split; cbn in *; try (lia || done) end.

Lemma monitor_accepted arg o : accepted o -> may_end (monitor_opt arg) (fun _ => accepted) o.
Proof.
  intros Ho. unfold monitor_opt. apply num_accepted. intros [v [|c e]]; cbn [fst snd].
  - estep. unfold may_end at 1, modify. now destruct (v <? 0).
  - estep. unfold may_end at 1, modify. destruct (v <? 0); [done|]. destruct (negb _); [done|].
    apply num_accepted. intros [w e']. cbn [fst snd]. estep. unfold may_end at 1, modify.
    estep. destruct (w <? 0); [done|]. unfold may_end at 1, mret, E_ret. estep.
    unfold when. destruct (w =? 0); cbn; now accept.
Qed.

Lemma parse_opt_accepted now ch arg o :
  accepted o -> may_end (parse_opt now ch arg) (fun _ => accepted) o.
Proof.
  intros Ho. unfold parse_opt.
  repeat match goal with
  | |- may_end (if ceqb ch ?c then _ else _) _ _ => destruct (ceqb ch c)
  end; try done; try (apply num_opt_accepted; intros v Hv; pose proof (u64_nonneg v); accept);
  try (apply monitor_accepted; done); try (cbn; accept; fail).
  - apply num_accepted. intros r. pose proof (u64_nonneg r.1). destruct (Z.eqb_spec (u64 r.1) 0); [done|]. cbn. accept.
  - unfold assign_fd_policy. repeat destruct (bool_decide _); cbn; done || accept.
  - apply num_accepted. intros r. set (v := if r.1 =? 0 then _ else _). estep. unfold may_end at 1, modify.
    destruct (Z.ltb_spec v 0); [done|]. cbn. accept.
Qed.

Lemma parse_opts_keep now answers o :
  accepted o -> may_end (parse_opts now answers) (fun _ => accepted) o.
Proof.
  revert o. induction answers as [|[ch arg] answers IH]; intros o Ho; cbn [parse_opts]; [done|].
  estep. eapply may_end_mono; [now apply parse_opt_accepted|]. auto.
Qed.

(** Whatever the command line, the options [main] goes on with after [getopt]
    meet the conditions the tests rely on: lengths and boundaries are positive, and
    [style] is still 0, the [-s] option included; with lengths an [int] can hold
    they are the options the run was shown to be sound for. *)
Theorem parse_opts_accepted now answers o :
  FsxMain.parse_opts now answers options0 = Done tt o ->
  accepted o /\ (maxfilelen o <= INT_MAX -> maxoplen o < INT_MAX -> sane o).
Proof.
  intros E. pose proof (parse_opts_keep now answers options0 accepted_options0) as Ho.
  unfold may_end in Ho. rewrite E in Ho. split; [done|]. intros Hl Hm. destruct Ho. now split.
Qed.

Lemma parse_opts_accepted_witness :
  let o := with_mapped_writes false (with_maxoplen 4096 options0) in
  accepted o /\ (maxfilelen o <= INT_MAX -> maxoplen o < INT_MAX -> sane o).
Proof.
  apply (parse_opts_accepted 0 [("o"%char, §"4k"); ("s"%char, §"1"); ("W"%char, [])]). vm_compute. reflexivity.
Defined.
