(* ===== verification/OldRes.v ===== *)
(** The results of a test written for the old interface (lib/tst_res.c,
    lib/safe_macros.c): [tst_resm], [tst_brkm], [tst_exit] and what they
    print. *)
From Stdlib Require Import Ascii String ZArith Lia Bool.
From stdpp Require Import base list sets numbers.
From S2P Require Import Prelude CString TstRes Effects.

Local Open Scope Z_scope.

(** ** State *)

Inductive mode := VERBOSE | NOPASS | DISCARD.

(** A result that is held back: [Last_tcid], [Last_num], [Last_type] and
    [Last_mesg]. *)
Record last := mkLast { Last_tcid : cstr; Last_num : Z; Last_type : Z; Last_mesg : cstr }.

Record tst := mkTst {
  T_exitval : Z;
  passed_cnt : Z;
  T_mode : mode;
  Buffered : option last;
  tst_count : Z;
  first_time : bool;
  tst_brk_entered : Z;
  stdout : list cstr
}.

Definition tst0 : tst := mkTst 0 0 VERBOSE None 0 true 0 [].

Definition set_exitval v t := mkTst v (passed_cnt t) (T_mode t) (Buffered t) (tst_count t) (first_time t) (tst_brk_entered t) (stdout t).
Definition set_passed v t := mkTst (T_exitval t) v (T_mode t) (Buffered t) (tst_count t) (first_time t) (tst_brk_entered t) (stdout t).
Definition set_mode v t := mkTst (T_exitval t) (passed_cnt t) v (Buffered t) (tst_count t) false (tst_brk_entered t) (stdout t).
Definition set_buffered v t := mkTst (T_exitval t) (passed_cnt t) (T_mode t) v (tst_count t) (first_time t) (tst_brk_entered t) (stdout t).
Definition set_count v t := mkTst (T_exitval t) (passed_cnt t) (T_mode t) (Buffered t) v (first_time t) (tst_brk_entered t) (stdout t).
Definition set_entered v t := mkTst (T_exitval t) (passed_cnt t) (T_mode t) (Buffered t) (tst_count t) (first_time t) v (stdout t).
Definition put_line l t := mkTst (T_exitval t) (passed_cnt t) (T_mode t) (Buffered t) (tst_count t) (first_time t) (tst_brk_entered t) (stdout t ++ [l]).

(** What the test and its environment give: [TCID], the variable TOUTPUT,
    whether stdout is colorized, [tst_strerrno] and [strerror]. *)
Record tst_env := mkEnv {
  TCID : cstr;
  TOUTPUT : option cstr;
  colored : bool;
  tst_strerrno : Z -> cstr;
  strerror : Z -> cstr
}.

(** The error numbers a message can be printed with. *)
Record errs := mkErrs { errno : Z; TEST_ERRNO : Z; TEST_RETURN : Z }.

(** A [__FILE__] and [__LINE__]; [None] is a NULL file. *)
Abbreviation place := (option (cstr * Z)).

Definition USERMESG : Z := 2048.

(** A process that [abort]s is killed by SIGABRT: the status a shell shows. *)
Definition SIGABRT_status : Z := 134.
Definition abort {A} : E tst A := exit SIGABRT_status.

Definition strttype (ttype : Z) : cstr :=
  let t := TTYPE_RESULT ttype in
  if t =? TPASS then §"TPASS"
  else if t =? TFAIL then §"TFAIL"
  else if t =? TBROK then §"TBROK"
  else if t =? TCONF then §"TCONF"
  else if t =? TWARN then §"TWARN"
  else if t =? TINFO then §"TINFO"
  else §"???".

(** [%-*s] and [%*s]. *)
Definition fmt_left (n : nat) (s : cstr) : cstr := s ++ replicate (n - length s) " "%char.
Definition fmt_right (n : nat) (s : cstr) : cstr := replicate (n - length s) " "%char ++ s.

Section Res.
Context (e : tst_env).

(** ** Printing *)

Definition errno_part (name : cstr) (n : Z) : cstr :=
  §": " ++ name ++ §"=" ++ tst_strerrno e n ++ §"(" ++ fmt_d n ++ §"): " ++ strerror e n.

(** The parts of the line, in the order they are added to it. *)
Definition segments (r : errs) (m : mode) (tcid : cstr) (tnum ttype : Z) (tmesg : cstr) : list cstr :=
  let type := strttype ttype in
  [fmt_left 8 tcid ++ §" " ++ fmt_right 4 (fmt_d tnum) ++
     match m with VERBOSE => §"  " | _ => §"       " end;
   (if colored e then tst_ttype2color ttype ++ type ++ ANSI_COLOR_RESET else type) ++ §"  :  " ++ tmesg] ++
  (if has_flag ttype TERRNO then [errno_part §"errno" (errno r)] else []) ++
  (if has_flag ttype TTERRNO then [errno_part §"TEST_ERRNO" (TEST_ERRNO r)] else []) ++
  (if has_flag ttype TRERRNO then
     let n := s32 (TEST_RETURN r) in
     [errno_part §"TEST_RETURN" (if TEST_RETURN r <? 0 then s32 (- n) else n)]
   else []).

(** The line is built in an array of [USERMESG] bytes; [None] when it is too
    long, the newline and the NUL included. *)
Fixpoint build (size : Z) (text : cstr) (segs : list cstr) : option cstr :=
  match segs with
  | [] => if USERMESG <=? size + 1 then None else Some (text ++ [LF])
  | seg :: segs =>
      let size := size + Z.of_nat (length seg) in
      if USERMESG <=? size then None else build size (text ++ seg) segs
  end.

Definition tst_print (r : errs) (tcid : cstr) (tnum ttype : Z) (tmesg : cstr) : E tst unit :=
  let ttype_result := TTYPE_RESULT ttype in
  modify (fun t => set_exitval (Z.lor (T_exitval t) ttype_result) t);;
  t ← get;
  if match T_mode t with
     | DISCARD => true
     | NOPASS => negb (ttype_result =? TFAIL) && negb (ttype_result =? TBROK) && negb (ttype_result =? TWARN)
     | VERBOSE => false
     end
  then mret tt
  else match build 0 [] (segments r (T_mode t) tcid tnum ttype tmesg) with
       | None => abort
       | Some line => modify (put_line line)
       end.

Definition check_env : E tst unit :=
  t ← get;
  if negb (first_time t) then mret tt
  else modify (set_mode match TOUTPUT e with
                        | None => VERBOSE
                        | Some v => if streq v §"NOPASS" then NOPASS
                                    else if streq v §"DISCARD" then DISCARD else VERBOSE
                        end).

Definition tst_condense (r : errs) (tnum ttype : Z) (tmesg : cstr) : E tst unit :=
  let ttype_result := TTYPE_RESULT ttype in
  t ← get;
  let now := mkLast (TCID e) tnum ttype_result tmesg in
  match Buffered t with
  | Some l =>
      if streq (Last_tcid l) (TCID e) && (Last_type l =? ttype_result) && streq (Last_mesg l) tmesg
      then mret tt
      else tst_print r (Last_tcid l) (Last_num l) (Last_type l) (Last_mesg l);;
           modify (set_buffered (Some now))
  | None => modify (set_buffered (Some now))
  end.

(** [EXPAND_VAR_ARGS(buf, arg_fmt, n)] for the expanded text [msg]. *)
Definition expand_var_args (msg : cstr) (n : Z) : E tst cstr :=
  let buf := take (Z.to_nat (n - 1)) msg in
  match buf with [] => abort | _ => mret buf end.

Definition tst_res__ (r : errs) (p : place) (ttype : Z) (msg : cstr) : E tst unit :=
  let ttype_result := TTYPE_RESULT ttype in
  let head := match p with
              | Some (file, lineno) =>
                  if negb (ttype_result =? TPASS) && negb (ttype_result =? TINFO)
                  then file ++ §":" ++ fmt_d lineno ++ §": " else []
              | None => []
              end in
  let len := Z.of_nat (length head) in
  require (len <? USERMESG);;
  body ← expand_var_args msg (USERMESG - len);
  let tmesg := head ++ body in
  modify (fun t => set_exitval (Z.lor (T_exitval t) ttype_result) t);;
  when (ttype_result =? TPASS) (modify (fun t => set_passed (s32 (passed_cnt t + 1)) t));;
  check_env;;
  if (ttype_result =? TWARN) || (ttype_result =? TINFO) then tst_print r (TCID e) 0 ttype tmesg
  else
    t ← get;
    when (tst_count t <? 0) (tst_print r (TCID e) 0 TWARN §"tst_res(): tst_count < 0 is not valid");;
    (match T_mode t with
     | DISCARD => mret tt
     | NOPASS => tst_condense r (s32 (tst_count t + 1)) ttype tmesg
     | VERBOSE => tst_print r (TCID e) (s32 (tst_count t + 1)) ttype tmesg
     end);;
    modify (fun t => set_count (s32 (tst_count t + 1)) t).

Definition tst_resm_ (r : errs) (p : place) (ttype : Z) (msg : cstr) : E tst unit :=
  tmesg ← expand_var_args msg USERMESG;
  tst_res__ r p ttype tmesg.

(** ** The end *)

Definition tst_old_flush (r : errs) : E tst unit :=
  t ← get;
  match Buffered t, T_mode t with
  | Some l, NOPASS =>
      tst_print r (Last_tcid l) (Last_num l) (Last_type l) (Last_mesg l);;
      modify (set_buffered None)
  | _, _ => mret tt
  end.

Definition tst_exit {A} (r : errs) : E tst A :=
  tst_old_flush r;;
  modify (fun t => set_exitval (Z.land (T_exitval t) (Z.lnot TINFO)) t);;
  t ← get;
  when ((T_exitval t =? TCONF) && negb (passed_cnt t =? 0))
    (modify (fun t => set_exitval (Z.land (T_exitval t) (Z.lnot TCONF)) t));;
  t ← get;
  exit (T_exitval t).

(** [func] is the clean-up of the test. *)
Definition tst_brk__ (r : errs) (p : place) (ttype : Z) (func : option (E tst unit)) (msg : cstr) : E tst unit :=
  let ttype_result := TTYPE_RESULT ttype in
  tmesg ← expand_var_args msg USERMESG;
  ttype ← (if negb (ttype_result =? TFAIL) && negb (ttype_result =? TBROK) && negb (ttype_result =? TCONF)
           then tst_print r (TCID e) 0 TWARN
                  (§"tst_brk__: Invalid Type: " ++ fmt_d ttype_result ++ §". Using TBROK");;
                mret (Z.lor (Z.land ttype (Z.lnot ttype_result)) TBROK)
           else mret ttype);
  tst_res__ r p ttype tmesg;;
  t ← get;
  (if tst_brk_entered t =? 0 then
     if ttype_result =? TCONF
     then tst_res__ r p ttype §"Remaining cases not appropriate for configuration"
     else when (ttype_result =? TBROK) (tst_res__ r p TBROK §"Remaining cases broken")
   else mret tt);;
  (match func with
   | Some f =>
       modify (fun t => set_entered (s32 (tst_brk_entered t + 1)) t);;
       f;;
       modify (fun t => set_entered (s32 (tst_brk_entered t - 1)) t)
   | None => mret tt
   end);;
  t ← get;
  if tst_brk_entered t =? 0 then tst_exit r else mret tt.

Definition tst_brkm_ {A} (r : errs) (p : place) (ttype : Z) (func : option (E tst unit)) (msg : cstr) : E tst A :=
  tmesg ← expand_var_args msg USERMESG;
  tst_brk__ r p ttype func tmesg;;
  abort.

Definition tst_require_root (r : errs) (p : place) (euid : Z) : E tst unit :=
  if euid =? 0 then mret tt else tst_brkm_ r p TCONF None §"Test needs to be run as root".

(** ** Children *)

(** [tst_fork] returns the answer of [fork]. *)
Definition tst_fork (r : errs) (child : Z) : E tst Z :=
  tst_old_flush r;;
  when (child =? 0) (modify (set_exitval 0));;
  mret child.

(** [tst_record_childstatus] for a child that was waited for; [tst_strsig]
    names a signal. *)
Definition tst_record_childstatus (tst_strsig : Z -> cstr) (r : errs) (p : place) (cleanup : option (E tst unit))
    (child status : Z) : E tst unit :=
  if WIFEXITED status then
    let ttype_result := TTYPE_RESULT (WEXITSTATUS status) in
    modify (fun t => set_exitval (Z.lor (T_exitval t) ttype_result) t);;
    when (ttype_result =? TPASS) (tst_resm_ r p TINFO §"Child process returned TPASS");;
    when (has_flag ttype_result TFAIL) (tst_resm_ r p TINFO §"Child process returned TFAIL");;
    when (has_flag ttype_result TBROK) (tst_resm_ r p TINFO §"Child process returned TBROK");;
    when (has_flag ttype_result TCONF) (tst_resm_ r p TINFO §"Child process returned TCONF")
  else
    tst_brkm_ r p TBROK cleanup
      (§"child process(" ++ fmt_d child ++ §") killed by unexpected signal " ++ tst_strsig (WTERMSIG status) ++
       §"(" ++ fmt_d (WTERMSIG status) ++ §")").

(** ** Bytes in hexadecimal *)

(** The loop of [tst_resm_hexd_] from byte [i] on; [cur] is what is before
    [pmesg] in [tmesg]. *)
Fixpoint hexd_loop (r : errs) (p : place) (ttype : Z) (size i : Z) (bytes : list Z) (cur : cstr) : E tst unit :=
  match bytes with
  | [] => mret tt
  | b :: bytes =>
      let cur := (match cur with [] => [] | _ => cur ++ §" " end) ++ fmt_0x 2 b in
      if ((i + 1) mod 16 =? 0) || (i + 1 =? size)
      then tst_res__ r p ttype cur;; hexd_loop r p ttype size (i + 1) bytes []
      else hexd_loop r p ttype size (i + 1) bytes cur
  end.

Definition tst_resm_hexd_ (r : errs) (p : place) (ttype : Z) (buf : list Z) (msg : cstr) : E tst unit :=
  let size := Z.of_nat (length buf) in
  tmesg ← expand_var_args msg USERMESG;
  if (16 <? size) || (size =? 0) || (USERMESG <=? Z.of_nat (length tmesg) + size * 3)
  then tst_res__ r p ttype tmesg;; hexd_loop r p ttype size 0 buf []
  else hexd_loop r p ttype size 0 buf tmesg.
End Res.
