(* ===== verification/OldResOk.v ===== *)
(** What the old interface for results promises: the exit status tells what was
    reported, in every output mode, and no failure that was reported is lost. *)
From Stdlib Require Import Ascii String ZArith Lia Bool.
From stdpp Require Import base list sets numbers.
From S2P Require Import Prelude CString TstRes Effects OldRes.

Local Open Scope Z_scope.

(** ** Lines that fit *)

Record short_env (e : tst_env) : Prop := {
  se_tcid : (length (TCID e) <= 100)%nat;
  se_name : forall n, (length (tst_strerrno e n) <= 50)%nat;
  se_text : forall n, (length (strerror e n) <= 100)%nat
}.

Definition is_int (z : Z) : Prop := INT_MIN <= z <= INT_MAX.

Definition short_errs (r : errs) : Prop := is_int (errno r) /\ is_int (TEST_ERRNO r).

Definition short_place (p : place) : Prop :=
  match p with Some (file, lineno) => (length file <= 100)%nat /\ is_int lineno | None => True end.

Definition short_msg (msg : cstr) : Prop := (0 < length msg <= 600)%nat.

Lemma length_fmt_d z : is_int z -> (length (fmt_d z) <= 11)%nat.
Proof.
  unfold is_int, INT_MIN, INT_MAX, fmt_d, fmt_nat. intros Hz.
  assert (H : forall n, 0 <= n <= 2147483648 -> (length (num_str (S (Z.to_nat (Z.log2 n))) 10 n) <= 10)%nat).
  { intros n Hn. apply num_str_length; [lia| |lia]. change (10 ^ Z.of_nat 10) with 10000000000. lia. }
  destruct (Z.ltb_spec z 0); [cbn [length]|]; [specialize (H (- z) ltac:(lia))|specialize (H z ltac:(lia))]; lia.
Qed.

Lemma build_fits segs size text :
  size + Z.of_nat (length (concat segs)) + 1 < USERMESG -> build size text segs = Some (text ++ concat segs ++ [LF]).
Proof.
  unfold USERMESG. revert size text. induction segs as [|seg segs IH]; intros size text; cbn [concat build].
  - cbn. unfold USERMESG. intros Hs. rewrite (proj2 (Z.leb_gt _ _)) by lia. done.
  - rewrite length_app. intros Hs. unfold USERMESG. rewrite (proj2 (Z.leb_gt _ _)) by lia.
    rewrite IH by lia. now rewrite <- !app_assoc.
Qed.

Section Ok.
Context (e : tst_env) (SE : short_env e).

(** The line of a result. *)
Definition res_line (r : errs) (m : mode) (tcid : cstr) (tnum ttype : Z) (tmesg : cstr) : cstr :=
  concat (segments e r m tcid tnum ttype tmesg) ++ [LF].

Lemma length_errno_part name n :
  is_int n -> (length name <= 11)%nat -> (length (errno_part e name n) <= 180)%nat.
Proof.
  intros Hn Hl. unfold errno_part. rewrite !length_app. pose proof (se_name e SE n). pose proof (se_text e SE n).
  pose proof (length_fmt_d n Hn). cbn [str list_ascii_of_string length]. lia.
Qed.

Lemma length_type ttype : (length (strttype ttype) <= 5)%nat.
Proof. unfold strttype. repeat destruct (_ =? _); cbn; lia. Qed.

Lemma length_color ttype : (length (tst_ttype2color ttype) <= 7)%nat.
Proof. unfold tst_ttype2color. repeat destruct (_ =? _); cbn; lia. Qed.

Lemma length_segments r m tnum ttype tmesg :
  short_errs r -> is_int tnum -> (length tmesg <= 720)%nat ->
  (length (concat (segments e r m (TCID e) tnum ttype tmesg)) <= 1500)%nat.
Proof.
  intros [H1 H2] Hn Ht. unfold segments.
  set (n := if TEST_RETURN r <? 0 then _ else _).
  assert (Hi : is_int n).
  { subst n. unfold is_int. destruct (_ <? _); apply s32_range. }
  pose proof (length_errno_part §"errno" _ H1 ltac:(cbn; lia)).
  pose proof (length_errno_part §"TEST_ERRNO" _ H2 ltac:(cbn; lia)).
  pose proof (length_errno_part §"TEST_RETURN" _ Hi ltac:(cbn; lia)).
  pose proof (se_tcid e SE). pose proof (length_fmt_d tnum Hn). pose proof (length_type ttype). pose proof (length_color ttype).
  assert (length ANSI_COLOR_RESET = 4%nat) by reflexivity.
  cbn [app concat]. rewrite !length_app, !concat_app, !length_app. unfold fmt_left, fmt_right.
  rewrite !length_app, !length_replicate.
  assert ((length (match m with VERBOSE => §"  " | _ => §"       " end) <= 7)%nat) by (destruct m; cbn; lia).
  assert ((length (if colored e then tst_ttype2color ttype ++ strttype ttype ++ ANSI_COLOR_RESET else strttype ttype) <= 16)%nat)
    by (destruct (colored e); rewrite ?length_app; lia).
  assert (length §" " = 1%nat) by reflexivity. assert (length §"  :  " = 5%nat) by reflexivity.
  destruct (has_flag ttype TERRNO), (has_flag ttype TTERRNO), (has_flag ttype TRERRNO);
    cbn [concat length]; rewrite ?app_nil_r; cbn [length]; lia.
Qed.

(** ** The calls on lines that fit *)

Definition env_mode : mode :=
  match TOUTPUT e with
  | None => VERBOSE
  | Some v => if streq v §"NOPASS" then NOPASS else if streq v §"DISCARD" then DISCARD else VERBOSE
  end.

(** Results that are not printed. *)
Definition hidden (m : mode) (rt : Z) : bool :=
  match m with
  | DISCARD => true
  | NOPASS => negb (rt =? TFAIL) && negb (rt =? TBROK) && negb (rt =? TWARN)
  | VERBOSE => false
  end.

Definition printed (r : errs) (tnum ttype : Z) (tmesg : cstr) (t : tst) : tst :=
  let t := set_exitval (Z.lor (T_exitval t) (TTYPE_RESULT ttype)) t in
  if hidden (T_mode t) (TTYPE_RESULT ttype) then t
  else put_line (res_line r (T_mode t) (TCID e) tnum ttype tmesg) t.

Definition same_result (l : last) (rt : Z) (tmesg : cstr) : bool :=
  streq (Last_tcid l) (TCID e) && (Last_type l =? rt) && streq (Last_mesg l) tmesg.

Definition condensed (r : errs) (tnum ttype : Z) (tmesg : cstr) (t : tst) : tst :=
  let rt := TTYPE_RESULT ttype in
  match Buffered t with
  | Some l =>
      if same_result l rt tmesg then t
      else set_buffered (Some (mkLast (TCID e) tnum rt tmesg)) (printed r (Last_num l) (Last_type l) (Last_mesg l) t)
  | None => set_buffered (Some (mkLast (TCID e) tnum rt tmesg)) t
  end.

Definition message (p : place) (ttype : Z) (msg : cstr) : cstr :=
  match p with
  | Some (file, lineno) =>
      if negb (TTYPE_RESULT ttype =? TPASS) && negb (TTYPE_RESULT ttype =? TINFO)
      then (file ++ §":" ++ fmt_d lineno ++ §": ") ++ msg else msg
  | None => msg
  end.

Definition with_env (t : tst) : tst := if first_time t then set_mode env_mode t else t.

(** A counted result. *)
Definition counted (ttype : Z) (t : tst) : tst :=
  let rt := TTYPE_RESULT ttype in
  let t := set_exitval (Z.lor (T_exitval t) rt) t in
  with_env (if rt =? TPASS then set_passed (s32 (passed_cnt t + 1)) t else t).

Definition resulted (r : errs) (p : place) (ttype : Z) (msg : cstr) (t : tst) : tst :=
  let rt := TTYPE_RESULT ttype in
  let tmesg := message p ttype msg in
  let t := counted ttype t in
  if (rt =? TWARN) || (rt =? TINFO) then printed r 0 ttype tmesg t
  else
    let n := s32 (tst_count t + 1) in
    let t := match T_mode t with
             | DISCARD => t
             | NOPASS => condensed r n ttype tmesg t
             | VERBOSE => printed r n ttype tmesg t
             end in
    set_count (s32 (tst_count t + 1)) t.

(** What is held back fits as well. *)
Definition buffer_ok (t : tst) : Prop :=
  match Buffered t with
  | Some l => Last_tcid l = TCID e /\ is_int (Last_num l) /\ (length (Last_mesg l) <= 720)%nat
  | None => True
  end.

Lemma tst_print_eq r tnum ttype tmesg t :
  short_errs r -> is_int tnum -> (length tmesg <= 720)%nat ->
  tst_print e r (TCID e) tnum ttype tmesg t = Done tt (printed r tnum ttype tmesg t).
Proof.
  intros Hr Hn Ht. unfold tst_print, printed. unfold mbind at 1, E_bind, modify. unfold mbind at 1, E_bind, get.
  fold (hidden (T_mode (set_exitval (Z.lor (T_exitval t) (TTYPE_RESULT ttype)) t)) (TTYPE_RESULT ttype)).
  destruct (hidden _ _); [done|]. unfold res_line. rewrite build_fits; [done|].
  pose proof (length_segments r (T_mode (set_exitval (Z.lor (T_exitval t) (TTYPE_RESULT ttype)) t)) tnum ttype tmesg Hr Hn Ht).
  unfold USERMESG. lia.
Qed.

Lemma tst_condense_eq r tnum ttype tmesg t :
  short_errs r -> buffer_ok t -> tst_condense e r tnum ttype tmesg t = Done tt (condensed r tnum ttype tmesg t).
Proof.
  intros Hr Hb. unfold tst_condense, condensed, buffer_ok, same_result in *. unfold mbind at 1, E_bind, get.
  destruct (Buffered t) as [l|]; [|done]. destruct Hb as (Hl & Hn & Hm). destruct (_ && _); [done|].
  unfold mbind, E_bind. rewrite Hl, tst_print_eq by done. done.
Qed.

Lemma length_message p ttype msg :
  short_place p -> short_msg msg -> (length (message p ttype msg) <= 720)%nat.
Proof.
  unfold short_msg, message. intros Hp Hm. destruct p as [[file lineno]|]; [|lia]. destruct Hp as [Hf Hl].
  pose proof (length_fmt_d lineno Hl). assert (length §":" = 1%nat) by reflexivity. assert (length §": " = 2%nat) by reflexivity.
  destruct (_ && _); rewrite ?length_app; lia.
Qed.

Lemma expand_short n msg t :
  (0 < length msg)%nat -> Z.of_nat (length msg) < n -> expand_var_args msg n t = Done msg t.
Proof.
  intros H1 H2. unfold expand_var_args. rewrite take_ge by lia. destruct msg; [cbn in H1; lia|done].
Qed.

Lemma tst_res_eq r p ttype msg t :
  short_errs r -> short_place p -> short_msg msg -> buffer_ok t -> 0 <= tst_count t ->
  tst_res__ e r p ttype msg t = Done tt (resulted r p ttype msg t).
Proof.
  intros Hr Hp Hm Hb Hc. unfold tst_res__. pose proof (length_message p ttype msg Hp Hm) as Hlen.
  set (head := match p with Some _ => _ | None => _ end).
  assert (Hmsg : message p ttype msg = head ++ msg).
  { subst head. unfold message. destruct p as [[file lineno]|]; [|done]. now destruct (_ && _). }
  rewrite Hmsg, length_app in Hlen. unfold short_msg in Hm.
  rewrite (bind_Done _ _ tt t t); [|unfold require; rewrite (proj2 (Z.ltb_lt _ _)) by (unfold USERMESG; lia); done].
  rewrite (bind_Done _ _ msg t t) by (apply expand_short; unfold USERMESG; lia). rewrite <- Hmsg.
  unfold resulted, counted. set (t1 := set_exitval _ t). rewrite (bind_Done _ _ tt t t1) by done.
  set (t2 := if TTYPE_RESULT ttype =? TPASS then set_passed (s32 (passed_cnt t1 + 1)) t1 else t1).
  rewrite (bind_Done _ _ tt t1 t2) by (subst t2; unfold when; now destruct (_ =? TPASS)).
  set (t3 := with_env t2).
  rewrite (bind_Done _ _ tt t2 t3)
    by (unfold t3, check_env, with_env, env_mode, mbind, E_bind, get; now destruct (first_time t2)).
  assert (Hb3 : Buffered t3 = Buffered t /\ tst_count t3 = tst_count t).
  { subst t3 t2 t1. unfold with_env. destruct (_ =? TPASS); cbn; destruct (first_time t); done. }
  assert (Hlm : (length (message p ttype msg) <= 720)%nat) by now apply length_message.
  destruct (_ || _); [rewrite tst_print_eq by (done || (unfold is_int, INT_MIN, INT_MAX; lia)); done|].
  rewrite (bind_Done _ _ t3 t3 t3) by done.
  rewrite (bind_Done _ _ tt t3 t3) by (unfold when; rewrite (proj2 (Z.ltb_ge _ _)) by lia; done).
  erewrite bind_Done; [reflexivity|]. destruct (T_mode t3).
  - rewrite tst_print_eq by (done || apply s32_range). done.
  - rewrite tst_condense_eq by (unfold buffer_ok in *; rewrite ?(proj1 Hb3); done). done.
  - done.
Qed.

(** ** What the state stands for *)

(** [n] results at most were reported, [v] is the union of their types and [p]
    of them passed; no clean-up is running. *)
Record lib_at (n v p : Z) (t : tst) : Prop := {
  la_val : T_exitval t = v;
  la_pass : passed_cnt t = p;
  la_p : 0 <= p <= n;
  la_count : 0 <= tst_count t <= n;
  la_buf : buffer_ok t;
  la_last : match Buffered t with Some l => Z.lor v (TTYPE_RESULT (Last_type l)) = v | None => True end;
  la_entered : tst_brk_entered t = 0
}.

Lemma lib_at_tst0 : lib_at 0 0 0 tst0.
Proof. split; cbn; try lia; done. Qed.

Lemma lor_twice a b : Z.lor (Z.lor a b) b = Z.lor a b.
Proof. now rewrite <- Z.lor_assoc, Z.lor_diag. Qed.

Lemma TTYPE_RESULT_twice ttype : TTYPE_RESULT (TTYPE_RESULT ttype) = TTYPE_RESULT ttype.
Proof. unfold TTYPE_RESULT. now rewrite <- Z.land_assoc, Z.land_diag. Qed.

(** What [printed] changes: the line, and the union. *)
Lemma printed_spec r tnum ttype tmesg t :
  let t' := printed r tnum ttype tmesg t in
  T_exitval t' = Z.lor (T_exitval t) (TTYPE_RESULT ttype) /\ passed_cnt t' = passed_cnt t /\
  tst_count t' = tst_count t /\ Buffered t' = Buffered t /\ tst_brk_entered t' = tst_brk_entered t /\
  T_mode t' = T_mode t /\ first_time t' = first_time t /\
  stdout t' = stdout t ++ (if hidden (T_mode t) (TTYPE_RESULT ttype) then []
                           else [res_line r (T_mode t) (TCID e) tnum ttype tmesg]).
Proof. unfold printed. cbn. destruct (hidden _ _); cbn; rewrite ?app_nil_r; done. Qed.

(** What [counted] changes. *)
Lemma counted_spec ttype t :
  let t' := counted ttype t in
  T_exitval t' = Z.lor (T_exitval t) (TTYPE_RESULT ttype) /\
  passed_cnt t' = (if TTYPE_RESULT ttype =? TPASS then s32 (passed_cnt t + 1) else passed_cnt t) /\
  tst_count t' = tst_count t /\ Buffered t' = Buffered t /\ tst_brk_entered t' = tst_brk_entered t /\
  first_time t' = false /\ T_mode t' = (if first_time t then env_mode else T_mode t) /\ stdout t' = stdout t.
Proof.
  unfold counted, with_env. cbn. destruct (TTYPE_RESULT ttype =? TPASS); cbn; destruct (first_time t) eqn:E; cbn; rewrite ?E; done.
Qed.

Lemma condensed_spec r tnum ttype tmesg n v p t :
  lib_at n v p t -> Z.lor v (TTYPE_RESULT ttype) = v -> is_int tnum -> (length tmesg <= 720)%nat ->
  lib_at n v p (condensed r tnum ttype tmesg t) /\
  first_time (condensed r tnum ttype tmesg t) = first_time t /\ T_mode (condensed r tnum ttype tmesg t) = T_mode t.
Proof.
  intros Ht Hv Hn Hl. destruct Ht as [T1 T2 T3 T4 T5 T6 T7]. unfold condensed.
  assert (Hbuf : forall t', T_exitval t' = v -> passed_cnt t' = p -> tst_count t' = tst_count t -> tst_brk_entered t' = 0 ->
    lib_at n v p (set_buffered (Some (mkLast (TCID e) tnum (TTYPE_RESULT ttype) tmesg)) t')).
  { intros t' H1 H2 H3 H4. split; cbn; try (done || lia). now rewrite TTYPE_RESULT_twice. }
  destruct (Buffered t) as [l|] eqn:E; [|auto].
  destruct (same_result _ _ _); [now split; [split; rewrite ?E|]|].
  destruct (printed_spec r (Last_num l) (Last_type l) (Last_mesg l) t) as (H1 & H2 & H3 & H4 & H5 & H6 & H7 & _).
  split; [|done]. apply Hbuf; rewrite ?H1, ?H2, ?H3, ?H5; congruence.
Qed.

Lemma resulted_at r pl ttype msg n v p t :
  short_place pl -> short_msg msg -> lib_at n v p t -> n < INT_MAX ->
  lib_at (n + 1) (Z.lor v (TTYPE_RESULT ttype)) (if TTYPE_RESULT ttype =? TPASS then p + 1 else p) (resulted r pl ttype msg t).
Proof.
  intros Hp Hm Ht Hn. pose proof (length_message pl ttype msg Hp Hm) as Hl.
  destruct Ht as [T1 T2 T3 T4 T5 T6 T7]. unfold resulted.
  destruct (counted_spec ttype t) as (C1 & C2 & C3 & C4 & C5 & C6 & C7 & C8). set (t1 := counted ttype t) in *.
  set (v' := Z.lor v (TTYPE_RESULT ttype)). set (p' := if _ =? TPASS then p + 1 else p).
  assert (Hp' : p' = passed_cnt t1).
  { rewrite C2. subst p'. destruct (_ =? TPASS); [rewrite s32_small by (unfold INT_MIN in *; lia)|]; lia. }
  assert (Ht1' : lib_at (n + 1) v' p' t1).
  { split.
    - now rewrite C1, T1.
    - done.
    - rewrite Hp', C2. destruct (_ =? TPASS); [rewrite s32_small by (unfold INT_MIN in *; lia)|]; lia.
    - lia.
    - unfold buffer_ok in *. now rewrite C4.
    - rewrite C4. destruct (Buffered t) as [l|]; [|done]. subst v'.
      rewrite (Z.lor_comm v), <- Z.lor_assoc, T6. done.
    - congruence. }
  assert (Hc1 : tst_count t1 + 1 <= n + 1) by lia.
  assert (Hpr : forall k, lib_at (n + 1) v' p' (printed r k ttype (message pl ttype msg) t1)).
  { intros k. destruct (printed_spec r k ttype (message pl ttype msg) t1) as (H1 & H2 & H3 & H4 & H5 & _).
    destruct Ht1' as [U1 U2 U3 U4 U5 U6 U7].
    split; unfold buffer_ok in *; rewrite ?H1, ?H2, ?H3, ?H4, ?H5, ?U1; try done. subst v'. now rewrite lor_twice. }
  destruct (_ || _); [apply Hpr|].
  set (t2 := match T_mode t1 with VERBOSE => _ | NOPASS => _ | DISCARD => _ end).
  assert (H2 : lib_at (n + 1) v' p' t2 /\ tst_count t2 = tst_count t1).
  { subst t2. destruct (T_mode t1).
    - split; [apply Hpr|]. apply printed_spec.
    - split; [apply condensed_spec; try done; [subst v'; apply lor_twice|apply s32_range]|].
      unfold condensed. destruct (Buffered t1) as [l|]; [|done]. destruct (same_result _ _ _); [done|].
      cbn. apply printed_spec.
    - done. }
  destruct H2 as [[U1 U2 U3 U4 U5 U6 U7] H2]. split; try done. cbn.
  rewrite s32_small by (unfold INT_MIN in *; lia). lia.
Qed.

(** ** The exit status *)

(** The status for a union [v] of result types when [p] results passed. *)
Definition verdict (v p : Z) : Z :=
  let v := Z.land v (Z.lnot TINFO) in
  if (v =? TCONF) && negb (p =? 0) then 0 else v.

Lemma tst_old_flush_at r n v p t :
  short_errs r -> lib_at n v p t ->
  exists t', tst_old_flush e r t = Done tt t' /\ T_exitval t' = v /\ passed_cnt t' = p.
Proof.
  intros Hr [T1 T2 T3 T4 T5 T6 T7]. unfold tst_old_flush. rewrite (bind_Done _ _ t t t) by done.
  unfold buffer_ok in T5. destruct (Buffered t) as [l|]; [|eauto]. destruct T5 as (B1 & B2 & B3).
  destruct (T_mode t); [eauto| |eauto]. rewrite B1.
  rewrite (bind_Done _ _ tt t (printed r (Last_num l) (Last_type l) (Last_mesg l) t)) by now apply tst_print_eq.
  destruct (printed_spec r (Last_num l) (Last_type l) (Last_mesg l) t) as (H1 & H2 & _).
  eexists. split; [done|]. cbn. rewrite H1, H2. split; congruence.
Qed.

Lemma tst_exit_at {A} r n v p t :
  short_errs r -> lib_at n v p t -> exists t', @tst_exit e A r t = Exited (verdict v p) t'.
Proof.
  intros Hr Ht. destruct (tst_old_flush_at r n v p t Hr Ht) as (t1 & H1 & H2 & H3).
  unfold tst_exit, verdict. rewrite (bind_Done _ _ tt t t1) by done. rewrite (bind_Done _ _ tt t1 _) by done.
  rewrite (bind_Done _ _ (set_exitval (Z.land (T_exitval t1) (Z.lnot TINFO)) t1) _ _) by done.
  cbn [T_exitval passed_cnt set_exitval]. rewrite H2, H3. unfold when.
  destruct (Z.eqb_spec (Z.land v (Z.lnot TINFO)) TCONF) as [Hc|Hc]; cbn [andb].
  - destruct (negb (p =? 0)); rewrite Hc; cbn; eauto.
  - cbn. eauto.
Qed.

(** Reports with their place and the error numbers of the moment. *)
Record report := mkRep { rp_errs : errs; rp_place : place; rp_type : Z; rp_msg : cstr }.

Definition short_report (x : report) : Prop :=
  short_errs (rp_errs x) /\ short_place (rp_place x) /\ short_msg (rp_msg x).

Definition rtype (x : report) : Z := TTYPE_RESULT (rp_type x).

Fixpoint resm_all (xs : list report) : E tst unit :=
  match xs with
  | [] => mret tt
  | x :: xs => tst_resm_ e (rp_errs x) (rp_place x) (rp_type x) (rp_msg x);; resm_all xs
  end.

Fixpoint types (xs : list report) : Z :=
  match xs with [] => 0 | x :: xs => Z.lor (rtype x) (types xs) end.

Definition passes (xs : list report) : Z := Z.of_nat (length (filter (fun x => rtype x = TPASS) xs)).

Lemma tst_resm_eq r p ttype msg t n v k :
  short_errs r -> short_place p -> short_msg msg -> lib_at n v k t ->
  tst_resm_ e r p ttype msg t = Done tt (resulted r p ttype msg t).
Proof.
  intros Hr Hp Hm Ht. unfold tst_resm_. unfold short_msg in *.
  rewrite (bind_Done _ _ msg t t) by (apply expand_short; unfold USERMESG; lia).
  apply tst_res_eq; try done; apply Ht.
Qed.

Lemma resm_all_at xs n v p t :
  Forall short_report xs -> lib_at n v p t -> n + Z.of_nat (length xs) <= INT_MAX ->
  exists t', resm_all xs t = Done tt t' /\ lib_at (n + Z.of_nat (length xs)) (Z.lor v (types xs)) (p + passes xs) t'.
Proof.
  intros Hxs. revert n v p t. induction Hxs as [|x xs (H1 & H2 & H3) _ IH]; intros n v p t Ht Hn.
  - exists t. split; [done|]. cbn. now rewrite Z.lor_0_r, !Z.add_0_r.
  - cbn [length resm_all] in *. pose proof (resulted_at (rp_errs x) _ (rp_type x) _ n v p t H2 H3 Ht ltac:(lia)) as Ht'.
    rewrite (bind_Done _ _ tt t _ (tst_resm_eq _ _ _ _ t n v p H1 H2 H3 Ht)).
    destruct (IH _ _ _ _ Ht' ltac:(lia)) as (t' & E & Hat). exists t'. split; [done|].
    cbn [types]. unfold passes, rtype in *. rewrite filter_cons. rewrite Z.lor_assoc.
    replace (n + Z.of_nat (S (length xs))) with (n + 1 + Z.of_nat (length xs)) by lia.
    destruct (decide _) as [E'|E'].
    + rewrite (proj2 (Z.eqb_eq _ _)) in Hat by done. cbn [length].
      replace (p + Z.of_nat (S _)) with (p + 1 + Z.of_nat (length (filter (fun x => TTYPE_RESULT (rp_type x) = TPASS) xs))) by lia.
      done.
    + now rewrite (proj2 (Z.eqb_neq _ _)) in Hat.
Qed.

(** ** Types as sets *)

Definition result_type (t : Z) : Prop := t ∈ [TPASS; TFAIL; TBROK; TWARN; TINFO; TCONF].

Definition flags (f b w i c : bool) : Z :=
  (if f then TFAIL else 0) + (if b then TBROK else 0) + (if w then TWARN else 0) + (if i then TINFO else 0) +
  (if c then TCONF else 0).

Definition some_type (t : Z) (xs : list report) : bool := existsb (fun x => rtype x =? t) xs.

Lemma types_flags xs :
  Forall (fun x => result_type (rtype x)) xs ->
  types xs = flags (some_type TFAIL xs) (some_type TBROK xs) (some_type TWARN xs) (some_type TINFO xs) (some_type TCONF xs).
Proof.
  induction 1 as [|x xs Hx _ IH]; [done|]. cbn [types some_type existsb].
  change (existsb (fun x => rtype x =? ?t) xs) with (some_type t xs). rewrite IH.
  unfold result_type in Hx. rewrite !elem_of_cons, elem_of_nil in Hx.
  generalize (some_type TFAIL xs) (some_type TBROK xs) (some_type TWARN xs) (some_type TINFO xs) (some_type TCONF xs).
  intros f b w i c. destruct Hx as [->|[->|[->|[->|[->|[->|[]]]]]]]; destruct f, b, w, i, c; reflexivity.
Qed.

Lemma some_type_spec t xs : some_type t xs = true <-> Exists (fun x => rtype x = t) xs.
Proof.
  unfold some_type. rewrite existsb_exists, Exists_exists. split; intros (x & H1 & H2); exists x; split; try done;
    [now apply Z.eqb_eq|now apply Z.eqb_eq].
Qed.

Lemma passes_zero xs : passes xs = 0 <-> some_type TPASS xs = false.
Proof.
  unfold passes, some_type. induction xs as [|x xs IH]; [done|]. rewrite filter_cons. cbn [existsb].
  destruct (decide (rtype x = TPASS)) as [E|E].
  - rewrite E. cbn [length]. split; [lia|done].
  - rewrite (proj2 (Z.eqb_neq _ _)) by done. done.
Qed.

Lemma verdict_flags f b w i c p :
  verdict (flags f b w i c) p = flags f b w false (c && negb (negb (f || b || w) && negb (p =? 0))).
Proof. unfold verdict. destruct f, b, w, i, c, (p =? 0); reflexivity. Qed.

(** ** Broken tests *)

Lemma tst_brkm_at {A} r pl ttype msg n v p t :
  short_errs r -> short_place pl -> short_msg msg -> lib_at n v p t -> n + 2 <= INT_MAX ->
  TTYPE_RESULT ttype ∈ [TFAIL; TBROK; TCONF] ->
  exists t', @tst_brkm_ e A r pl ttype None msg t = Exited (verdict (Z.lor v (TTYPE_RESULT ttype)) p) t'.
Proof.
  intros Hr Hp Hm Ht Hn Hty. unfold tst_brkm_. assert (Hm' := Hm). unfold short_msg in Hm'.
  assert (Hex : expand_var_args msg USERMESG t = Done msg t) by (apply expand_short; unfold USERMESG; lia).
  rewrite (bind_Done _ _ msg t t) by done.
  rewrite !elem_of_cons, elem_of_nil in Hty.
  set (t1 := resulted r pl ttype msg t).
  assert (H1 : lib_at (n + 1) (Z.lor v (TTYPE_RESULT ttype)) p t1).
  { pose proof (resulted_at r pl ttype msg n v p t Hp Hm Ht ltac:(lia)) as H1.
    rewrite (proj2 (Z.eqb_neq (TTYPE_RESULT ttype) TPASS)) in H1; [done|].
    destruct Hty as [->|[->|[->|[]]]]; discriminate. }
  assert (H2 : exists t2, (if tst_brk_entered t1 =? 0 then
     if TTYPE_RESULT ttype =? TCONF
     then tst_res__ e r pl ttype §"Remaining cases not appropriate for configuration"
     else when (TTYPE_RESULT ttype =? TBROK) (tst_res__ e r pl TBROK §"Remaining cases broken")
   else mret tt) t1 = Done tt t2 /\ lib_at (n + 2) (Z.lor v (TTYPE_RESULT ttype)) p t2).
  { assert (Hagain : forall ty m, short_msg m -> TTYPE_RESULT ty = TTYPE_RESULT ttype ->
      exists t2, tst_res__ e r pl ty m t1 = Done tt t2 /\ lib_at (n + 2) (Z.lor v (TTYPE_RESULT ttype)) p t2).
    { intros ty m Hm2 Hty2. exists (resulted r pl ty m t1). split; [apply tst_res_eq; try done; apply H1|].
      pose proof (resulted_at r pl ty m _ _ _ t1 Hp Hm2 H1 ltac:(lia)) as H2.
      rewrite Hty2, lor_twice in H2. rewrite (proj2 (Z.eqb_neq (TTYPE_RESULT ttype) TPASS)) in H2.
      - now replace (n + 2) with (n + 1 + 1) by lia.
      - destruct Hty as [->|[->|[->|[]]]]; discriminate. }
    rewrite (la_entered _ _ _ _ H1), Z.eqb_refl.
    destruct (Z.eqb_spec (TTYPE_RESULT ttype) TCONF) as [Hc|Hc]; [apply Hagain; [unfold short_msg; cbn; lia|done]|].
    unfold when. destruct (Z.eqb_spec (TTYPE_RESULT ttype) TBROK) as [Hb|Hb].
    - apply Hagain; [unfold short_msg; cbn; lia|]. now rewrite Hb.
    - exists t1. split; [done|]. destruct H1. split; try done; lia. }
  destruct H2 as (t2 & E2 & H2).
  destruct (tst_exit_at (A := unit) r _ _ _ t2 Hr H2) as (t3 & E3). exists t3.
  assert (Hbrk : tst_brk__ e r pl ttype None msg t = Exited (verdict (Z.lor v (TTYPE_RESULT ttype)) p) t3).
  { unfold tst_brk__. rewrite (bind_Done _ _ msg t t) by done.
    rewrite (bind_Done _ _ ttype t t) by (destruct Hty as [->|[->|[->|[]]]]; reflexivity).
    rewrite (bind_Done _ _ tt t t1) by (apply tst_res_eq; try done; apply Ht).
    rewrite (bind_Done _ _ t1 t1 t1) by done. rewrite (bind_Done _ _ tt t1 t2 E2).
    rewrite (bind_Done _ _ tt t2 t2) by done. rewrite (bind_Done _ _ t2 t2 t2) by done.
    rewrite (la_entered _ _ _ _ H2), Z.eqb_refl. exact E3. }
  now apply bind_Exited.
Qed.

(** The status as the flags of the result types. *)
Definition status_of (xs : list report) : Z :=
  flags (some_type TFAIL xs) (some_type TBROK xs) (some_type TWARN xs) false
    (some_type TCONF xs && negb (negb (some_type TFAIL xs || some_type TBROK xs || some_type TWARN xs) && some_type TPASS xs)).

Lemma exit_flags xs r :
  Forall short_report xs -> Forall (fun x => result_type (rtype x)) xs -> short_errs r ->
  Z.of_nat (length xs) <= INT_MAX ->
  exists t, (resm_all xs;; tst_exit e r) tst0 = @Exited _ unit (status_of xs) t.
Proof.
  intros Hs Hv Hr Hn. destruct (resm_all_at xs 0 0 0 tst0 Hs lib_at_tst0 ltac:(lia)) as (t & E & Ht).
  destruct (tst_exit_at (A := unit) r _ _ _ t Hr Ht) as (t' & E'). exists t'. rewrite (bind_Done _ _ tt tst0 t E), E'.
  rewrite Z.lor_0_l, Z.add_0_l, types_flags, verdict_flags by done.
  assert (Hp : negb (passes xs =? 0) = some_type TPASS xs).
  { pose proof (passes_zero xs) as Hz. destruct (Z.eqb_spec (passes xs) 0), (some_type TPASS xs); try done; exfalso; intuition congruence. }
  unfold status_of. now rewrite Hp.
Qed.

(** C27: The exit status of a test, whatever the output mode: a bit is set exactly
    when a failed, a broken or a warning result was reported, and that of TCONF when a
    skipped one was, unless all others were harmless and one passed.  So the
    status is 0 exactly when there is no failed, broken or warning result and a skipped one only beside
    one that passed. *)
Theorem old_exit_status xs r :
  Forall short_report xs -> Forall (fun x => result_type (rtype x)) xs -> short_errs r ->
  Z.of_nat (length xs) <= INT_MAX ->
  exists t status,
    (resm_all xs;; tst_exit e r) tst0 = @Exited _ unit status t /\
    status = flags (some_type TFAIL xs) (some_type TBROK xs) (some_type TWARN xs) false
               (some_type TCONF xs && negb (negb (some_type TFAIL xs || some_type TBROK xs || some_type TWARN xs) &&
                                            some_type TPASS xs)) /\
    (status = 0 <-> some_type TFAIL xs = false /\ some_type TBROK xs = false /\ some_type TWARN xs = false /\
                    (some_type TCONF xs = true -> some_type TPASS xs = true)).
Proof.
  intros Hs Hv Hr Hn. destruct (exit_flags xs r Hs Hv Hr Hn) as (t & E). exists t, (status_of xs). split; [exact E|]. split; [done|].
  unfold status_of.
  destruct (some_type TFAIL xs), (some_type TBROK xs), (some_type TWARN xs), (some_type TCONF xs), (some_type TPASS xs);
    (split; [intros HH; vm_compute in HH; repeat split; congruence|
             intros (A1 & A2 & A3 & A4); try congruence; try reflexivity; specialize (A4 eq_refl); congruence]).
Qed.

(** A [tst_brkm] in a clean-up that [tst_brkm] runs, as a SAFE_ macro that fails
    makes one: it does not return to the clean-up. *)
Lemma tst_brkm_entered {A} r pl ttype msg t :
  short_errs r -> short_place pl -> short_msg msg -> buffer_ok t -> 0 <= tst_count t -> tst_brk_entered t <> 0 ->
  TTYPE_RESULT ttype ∈ [TFAIL; TBROK; TCONF] ->
  @tst_brkm_ e A r pl ttype None msg t = Exited SIGABRT_status (resulted r pl ttype msg t).
Proof.
  intros Hr Hp Hm Hb Hc Ht Hty. unfold tst_brkm_. assert (Hm' := Hm). unfold short_msg in Hm'.
  assert (Hex : expand_var_args msg USERMESG t = Done msg t) by (apply expand_short; unfold USERMESG; lia).
  rewrite (bind_Done _ _ msg t t) by done. rewrite !elem_of_cons, elem_of_nil in Hty.
  set (t1 := resulted r pl ttype msg t).
  assert (He : (tst_brk_entered t1 =? 0) = false).
  { apply Z.eqb_neq. unfold t1, resulted.
    destruct (counted_spec ttype t) as (_ & _ & _ & C4 & C5 & _). set (t0 := counted ttype t) in *.
    destruct (_ || _); [destruct (printed_spec r 0 ttype (message pl ttype msg) t0) as (_ & _ & _ & _ & -> & _); congruence|].
    cbn. destruct (T_mode t0); [|unfold condensed; destruct (Buffered t0) as [l|]; [destruct (same_result _ _ _)|]|]; cbn;
      rewrite ?(proj1 (proj2 (proj2 (proj2 (proj2 (printed_spec r _ _ _ t0)))))); congruence. }
  rewrite (bind_Done _ _ tt t t1); [done|]. unfold tst_brk__. rewrite (bind_Done _ _ msg t t) by done.
  rewrite (bind_Done _ _ ttype t t) by (destruct Hty as [->|[->|[->|[]]]]; reflexivity).
  rewrite (bind_Done _ _ tt t t1) by now apply tst_res_eq.
  rewrite (bind_Done _ _ t1 t1 t1) by done.
  rewrite (bind_Done _ _ tt t1 t1) by now rewrite He.
  rewrite (bind_Done _ _ tt t1 t1) by done. rewrite (bind_Done _ _ t1 t1 t1) by done. now rewrite He.
Qed.

(** ** No failure is lost *)

(** Failed, broken and warning results. *)
Definition important (x : report) : Prop := rtype x ∈ [TFAIL; TBROK; TWARN].

Definition report_text (x : report) : cstr := message (rp_place x) (rp_type x) (rp_msg x).

(** A line for the result was printed, or it is held back. *)
Definition shown (x : report) (t : tst) : Prop :=
  exists r n ty, TTYPE_RESULT ty = rtype x /\ res_line r env_mode (TCID e) n ty (report_text x) ∈ stdout t.

Definition held (x : report) (t : tst) : Prop :=
  exists l, Buffered t = Some l /\ Last_type l = rtype x /\ Last_mesg l = report_text x.

Lemma printed_shows x r n ty t :
  important x -> T_mode t = env_mode -> env_mode <> DISCARD -> TTYPE_RESULT ty = rtype x ->
  shown x (printed r n ty (report_text x) t).
Proof.
  intros Hx Hm Hd Hty. exists r, n, ty. split; [done|].
  destruct (printed_spec r n ty (report_text x) t) as (_ & _ & _ & _ & _ & _ & _ & ->). rewrite Hty, Hm.
  assert (Hh : hidden env_mode (rtype x) = false).
  { unfold important in Hx. rewrite !elem_of_cons, elem_of_nil in Hx. destruct env_mode; [done| |done].
    destruct Hx as [->|[->|[->|[]]]]; reflexivity. }
  rewrite Hh. apply elem_of_app. right. now apply list_elem_of_singleton.
Qed.

Lemma printed_keeps x r n ty m t : shown x t \/ held x t -> shown x (printed r n ty m t) \/ held x (printed r n ty m t).
Proof.
  destruct (printed_spec r n ty m t) as (_ & _ & _ & HB & _ & _ & _ & HS). intros [(r' & n' & ty' & H1 & H2)|(l & H1 & H2)].
  - left. exists r', n', ty'. split; [done|]. rewrite HS. apply elem_of_app. now left.
  - right. exists l. now rewrite HB.
Qed.

Lemma condensed_keeps x r n ty m t :
  important x -> T_mode t = env_mode -> env_mode <> DISCARD -> shown x t \/ held x t ->
  shown x (condensed r n ty m t) \/ held x (condensed r n ty m t).
Proof.
  intros Hx Hm Hd Ht. unfold condensed. destruct (Buffered t) as [l|] eqn:E.
  - destruct (same_result _ _ _); [done|]. left.
    destruct Ht as [Hs|(l' & H1 & H2 & H3)].
    + destruct (printed_keeps x r (Last_num l) (Last_type l) (Last_mesg l) t (or_introl Hs)) as [Hs'|(l' & H1 & _)]; [done|].
      destruct Hs as (r' & n' & ty' & H3 & H4). exists r', n', ty'. split; [done|]. cbn.
      destruct (printed_spec r (Last_num l) (Last_type l) (Last_mesg l) t) as (_ & _ & _ & _ & _ & _ & _ & ->).
      apply elem_of_app. now left.
    + rewrite E in H1. injection H1 as <-. rewrite H3. apply (printed_shows x r (Last_num l) (Last_type l) t); try done.
      rewrite H2. unfold rtype. apply TTYPE_RESULT_twice.
  - destruct Ht as [Hs|(l & H1 & _)]; [now left|congruence].
Qed.

Lemma condensed_takes x r n t :
  shown x (condensed r n (rp_type x) (report_text x) t) \/ held x (condensed r n (rp_type x) (report_text x) t).
Proof.
  right. unfold condensed. destruct (Buffered t) as [l|] eqn:E; [|now eexists].
  unfold same_result. destruct (streq (Last_tcid l) (TCID e)); [|now eexists].
  destruct (Z.eqb_spec (Last_type l) (TTYPE_RESULT (rp_type x))) as [H1|]; [|now eexists].
  unfold streq. destruct (bool_decide_reflect (Last_mesg l = report_text x)); [|now eexists]. now exists l.
Qed.

(** The mode is that of the environment, and results are held back only without the passes. *)
Definition mode_ok (t : tst) : Prop :=
  (first_time t = false -> T_mode t = env_mode) /\
  (Buffered t <> None -> env_mode = NOPASS /\ first_time t = false).

Lemma counted_mode ttype t : mode_ok t -> T_mode (counted ttype t) = env_mode.
Proof.
  intros [Hm _]. destruct (counted_spec ttype t) as (_ & _ & _ & _ & _ & _ & -> & _).
  destruct (first_time t); auto.
Qed.

Lemma resulted_mode r p ttype msg t : mode_ok t -> mode_ok (resulted r p ttype msg t).
Proof.
  intros Hm. unfold resulted. pose proof (counted_mode ttype t Hm) as Hc. destruct Hm as [_ Hm].
  destruct (counted_spec ttype t) as (_ & _ & _ & CB & _ & CF & _). set (t0 := counted ttype t) in *. rewrite <- CB in Hm.
  assert (Hpr : forall k ty m, T_mode (printed r k ty m t0) = env_mode /\ Buffered (printed r k ty m t0) = Buffered t0 /\
                               first_time (printed r k ty m t0) = false).
  { intros k ty m. destruct (printed_spec r k ty m t0) as (_ & _ & _ & -> & _ & -> & -> & _). done. }
  assert (Hk : forall t', T_mode t' = env_mode -> first_time t' = false ->
                          (Buffered t' = Buffered t0 \/ T_mode t0 = NOPASS) -> mode_ok t').
  { intros t' H1 H2 H3. split; [done|]. intros Hb. destruct H3 as [H3|H3]; [|split; congruence].
    rewrite H3 in Hb. split; [now apply Hm|done]. }
  destruct (_ || _); [apply Hk; try apply Hpr; left; apply Hpr|].
  set (t1 := match T_mode t0 with VERBOSE => _ | NOPASS => _ | DISCARD => _ end).
  enough (Hs : mode_ok t1) by exact Hs. subst t1. destruct (T_mode t0) eqn:E.
  - apply Hk; try apply Hpr. left. apply Hpr.
  - unfold condensed. destruct (Buffered t0) as [l|]; [destruct (same_result _ _ _)|]; apply Hk; cbn; try apply Hpr; auto; congruence.
  - apply Hk; auto; congruence.
Qed.

(** A later result does not lose an earlier one, and the new one is shown or held. *)
Lemma resulted_tracks x y t :
  important x -> env_mode <> DISCARD -> mode_ok t -> (shown x t \/ held x t) \/ x = y ->
  let t' := resulted (rp_errs y) (rp_place y) (rp_type y) (rp_msg y) t in shown x t' \/ held x t'.
Proof.
  intros Hx Hd Hm Ht. cbn zeta. unfold resulted. fold (report_text y).
  pose proof (counted_mode (rp_type y) t Hm) as Hc.
  destruct (counted_spec (rp_type y) t) as (_ & _ & _ & CB & _ & _ & _ & CS). set (t0 := counted (rp_type y) t) in *.
  assert (Ht0 : (shown x t0 \/ held x t0) \/ x = y).
  { unfold shown, held in *. now rewrite CB, CS. }
  assert (Hpr : forall k, shown x (printed (rp_errs y) k (rp_type y) (report_text y) t0) \/
                          held x (printed (rp_errs y) k (rp_type y) (report_text y) t0)).
  { intros k. destruct Ht0 as [Ht0|<-]; [now apply printed_keeps|]. left. now apply printed_shows. }
  destruct (_ || _); [apply Hpr|]. set (t1 := match T_mode t0 with VERBOSE => _ | NOPASS => _ | DISCARD => _ end).
  enough (Hs : shown x t1 \/ held x t1) by exact Hs.
  subst t1. destruct (T_mode t0) eqn:E; [apply Hpr| |congruence].
  destruct Ht0 as [Ht0|<-]; [apply condensed_keeps; congruence|apply condensed_takes].
Qed.

Lemma resm_all_tracks xs n v p t x :
  Forall short_report xs -> lib_at n v p t -> n + Z.of_nat (length xs) <= INT_MAX ->
  important x -> env_mode <> DISCARD -> mode_ok t -> (shown x t \/ held x t) \/ x ∈ xs ->
  exists t', resm_all xs t = Done tt t' /\ (shown x t' \/ held x t') /\ mode_ok t'.
Proof.
  intros Hxs. revert n v p t. induction Hxs as [|y xs (H1 & H2 & H3) _ IH]; intros n v p t Ht Hn Hx Hd Hm Hin.
  - exists t. split; [done|]. destruct Hin as [Hin|Hin]; [done|]. now apply elem_of_nil in Hin.
  - cbn [length resm_all] in *. pose proof (resulted_at (rp_errs y) _ (rp_type y) _ n v p t H2 H3 Ht ltac:(lia)) as Ht'.
    rewrite (bind_Done _ _ tt t _ (tst_resm_eq _ _ _ _ t n v p H1 H2 H3 Ht)).
    apply (IH _ _ _ _ Ht'); try done; [lia|now apply resulted_mode|].
    rewrite elem_of_cons in Hin. destruct Hin as [Hin|[->|Hin]]; [left; apply resulted_tracks; auto..|now right].
Qed.

Lemma flush_shows r x n v p t :
  short_errs r -> lib_at n v p t -> important x -> env_mode <> DISCARD -> mode_ok t -> shown x t \/ held x t ->
  exists t', tst_old_flush e r t = Done tt t' /\ shown x t'.
Proof.
  intros Hr Hat Hx Hd [Hm1 Hm2] Ht. unfold tst_old_flush. rewrite (bind_Done _ _ t t t) by done.
  pose proof (la_buf _ _ _ _ Hat) as Hb. unfold buffer_ok in Hb. destruct (Buffered t) as [l|] eqn:E.
  - destruct (Hm2 ltac:(done)) as [Hn Hf]. rewrite (Hm1 Hf), Hn. destruct Hb as (B1 & B2 & B3). rewrite B1.
    rewrite (bind_Done _ _ tt t (printed r (Last_num l) (Last_type l) (Last_mesg l) t)) by now apply tst_print_eq.
    eexists. split; [done|]. destruct Ht as [Hs|(l' & H1 & H2 & H3)].
    + destruct Hs as (r' & n' & ty' & H1 & H2). exists r', n', ty'. split; [done|]. cbn.
      destruct (printed_spec r (Last_num l) (Last_type l) (Last_mesg l) t) as (_ & _ & _ & _ & _ & _ & _ & ->).
      apply elem_of_app. now left.
    + rewrite E in H1. injection H1 as <-. rewrite H3.
      destruct (printed_shows x r (Last_num l) (Last_type l) t Hx (Hm1 Hf) Hd) as (r' & n' & ty' & Hs).
      { rewrite H2. unfold rtype. apply TTYPE_RESULT_twice. }
      now exists r', n', ty'.
  - exists t. split; [done|]. destruct Ht as [Ht|(l & H1 & _)]; [done|congruence].
Qed.

(** C34: Every failed, broken or warning result of a test is on its standard output
    when it exits, with its type and its message, unless TOUTPUT asks for none:
    holding results back to drop repetitions loses none of them. *)
Theorem failures_printed xs r x :
  Forall short_report xs -> short_errs r -> Z.of_nat (length xs) <= INT_MAX ->
  env_mode <> DISCARD -> x ∈ xs -> important x ->
  exists t status, (resm_all xs;; tst_exit e r) tst0 = @Exited _ unit status t /\ shown x t.
Proof.
  intros Hs Hr Hn Hd Hin Hx.
  destruct (resm_all_at xs 0 0 0 tst0 Hs lib_at_tst0 ltac:(lia)) as (t & E & Hat).
  destruct (resm_all_tracks xs 0 0 0 tst0 x Hs lib_at_tst0 ltac:(lia) Hx Hd) as (t' & E' & Hsh & Hm); [done|now right|].
  rewrite E in E'. injection E' as <-. destruct (flush_shows r x _ _ _ t Hr Hat Hx Hd Hm Hsh) as (t1 & E1 & H1).
  rewrite (bind_Done _ _ tt tst0 t E). unfold tst_exit. rewrite (bind_Done _ _ tt t t1 E1).
  rewrite (bind_Done _ _ tt t1 (set_exitval (Z.land (T_exitval t1) (Z.lnot TINFO)) t1)) by done.
  set (t2 := set_exitval _ t1). rewrite (bind_Done _ _ t2 t2 t2) by done. unfold when.
  destruct (_ && _); eexists _, _; (split; [done|exact H1]).
Qed.

(** A clean-up function that breaks the test itself, as every SAFE_ macro that
    fails does, is not gone on with: the process aborts, and neither the rest
    of the clean-up nor the status of the result that broke the test first survives. *)
Theorem brkm_in_cleanup_aborts {A} r1 p1 ty1 msg1 r2 p2 ty2 msg2 (rest : E tst unit) :
  short_errs r1 -> short_place p1 -> short_msg msg1 -> short_errs r2 -> short_place p2 -> short_msg msg2 ->
  TTYPE_RESULT ty1 ∈ [TFAIL; TBROK; TCONF] -> TTYPE_RESULT ty2 ∈ [TFAIL; TBROK; TCONF] ->
  exists t, @tst_brkm_ e A r1 p1 ty1 (Some (@tst_brkm_ e unit r2 p2 ty2 None msg2;; rest)) msg1 tst0 =
            Exited SIGABRT_status t.
Proof.
  intros Hr1 Hp1 Hm1 Hr2 Hp2 Hm2 Hty1 Hty2. unfold tst_brkm_ at 1. assert (Hm1' := Hm1). unfold short_msg in Hm1'.
  assert (Hex : expand_var_args msg1 USERMESG tst0 = Done msg1 tst0) by (apply expand_short; unfold USERMESG; lia).
  rewrite (bind_Done _ _ msg1 tst0 tst0 Hex). rewrite !elem_of_cons, elem_of_nil in Hty1.
  set (t1 := resulted r1 p1 ty1 msg1 tst0).
  assert (H1 : exists v p, lib_at 1 v p t1)
    by (eexists _, _; apply (resulted_at r1 p1 ty1 msg1 0 0 0 tst0 Hp1 Hm1 lib_at_tst0); unfold INT_MAX; lia).
  destruct H1 as (v & p & H1).
  assert (H2 : exists t2 n v p, (if tst_brk_entered t1 =? 0 then
     if TTYPE_RESULT ty1 =? TCONF
     then tst_res__ e r1 p1 ty1 §"Remaining cases not appropriate for configuration"
     else when (TTYPE_RESULT ty1 =? TBROK) (tst_res__ e r1 p1 TBROK §"Remaining cases broken")
   else mret tt) t1 = Done tt t2 /\ lib_at n v p t2).
  { rewrite (la_entered _ _ _ _ H1), Z.eqb_refl. unfold when.
    assert (Hagain : forall ty m, short_msg m -> exists t2 n v p, tst_res__ e r1 p1 ty m t1 = Done tt t2 /\ lib_at n v p t2).
    { intros ty m Hm. eexists _, _, _, _. split; [apply tst_res_eq; try done; apply H1|].
      apply (resulted_at r1 p1 ty m _ _ _ t1 Hp1 Hm H1). unfold INT_MAX. lia. }
    destruct (_ =? TCONF); [apply Hagain; unfold short_msg; cbn; lia|].
    destruct (_ =? TBROK); [apply Hagain; unfold short_msg; cbn; lia|]. now exists t1, 1, v, p. }
  destruct H2 as (t2 & n2 & v2 & q2 & E2 & H2). set (t3 := set_entered (s32 (tst_brk_entered t2 + 1)) t2).
  assert (E3 : @tst_brkm_ e unit r2 p2 ty2 None msg2 t3 = Exited SIGABRT_status (resulted r2 p2 ty2 msg2 t3)).
  { apply tst_brkm_entered; try done; [apply H2|apply H2|]. cbn. now rewrite (la_entered _ _ _ _ H2). }
  exists (resulted r2 p2 ty2 msg2 t3). apply bind_Exited.
  unfold tst_brk__ at 1. rewrite (bind_Done _ _ msg1 tst0 tst0 Hex).
  rewrite (bind_Done _ _ ty1 tst0 tst0) by (destruct Hty1 as [->|[->|[->|[]]]]; reflexivity).
  rewrite (bind_Done _ _ tt tst0 t1) by now apply tst_res_eq.
  rewrite (bind_Done _ _ t1 t1 t1) by done. rewrite (bind_Done _ _ tt t1 t2 E2).
  apply bind_Exited. rewrite (bind_Done _ _ tt t2 t3) by done. apply bind_Exited. now apply bind_Exited.
Qed.
End Ok.

(** ** Instances *)

Definition sample_tst_env (out : option cstr) : tst_env := mkEnv §"wdt_test" out false (fun _ => §"EIO") (fun _ => §"I/O error").

Lemma sample_short out : short_env (sample_tst_env out).
Proof. split; cbn; lia. Qed.

Definition no_errs : errs := mkErrs 5 0 0.

Lemma no_errs_short : short_errs no_errs.
Proof. split; unfold is_int, INT_MIN, INT_MAX; cbn; lia. Qed.

Definition sample_reports : list report :=
  [mkRep no_errs None TPASS §"set"; mkRep no_errs (Some (§"t.c", 7)) (Z.lor TFAIL TERRNO) §"get"; mkRep no_errs None TCONF §"skip"].

Lemma sample_reports_short : Forall short_report sample_reports.
Proof.
  repeat constructor; try apply no_errs_short; unfold short_report, short_place, short_msg, is_int, INT_MIN, INT_MAX; cbn; try lia; try done.
Qed.

Lemma old_exit_status_witness :
  exists t status,
    (resm_all (sample_tst_env None) sample_reports;; tst_exit (sample_tst_env None) no_errs) tst0 = @Exited _ unit status t /\
    status = 33 /\ (status = 0 <-> false = true).
Proof.
  destruct (old_exit_status (sample_tst_env None) (sample_short None) sample_reports no_errs) as (t & st & E & Hst & Hz).
  - apply sample_reports_short.
  - repeat constructor; unfold result_type; rewrite !elem_of_cons; vm_compute; auto 8.
  - apply no_errs_short.
  - unfold INT_MAX. cbn. lia.
  - exists t, st. split; [exact E|]. rewrite Hst. split; [reflexivity|]. split; [intros H0; discriminate H0|discriminate].
Defined.

Lemma failures_printed_witness :
  exists t status,
    (resm_all (sample_tst_env (Some §"NOPASS")) sample_reports;; tst_exit (sample_tst_env (Some §"NOPASS")) no_errs) tst0 =
      @Exited _ unit status t /\
    shown (sample_tst_env (Some §"NOPASS")) (mkRep no_errs (Some (§"t.c", 7)) (Z.lor TFAIL TERRNO) §"get") t.
Proof.
  apply (failures_printed (sample_tst_env (Some §"NOPASS")) (sample_short _) sample_reports no_errs).
  - apply sample_reports_short.
  - apply no_errs_short.
  - unfold INT_MAX. cbn. lia.
  - discriminate.
  - apply elem_of_cons. right. apply elem_of_cons. now left.
  - unfold important. vm_compute. constructor.
Defined.

Lemma brkm_in_cleanup_aborts_witness :
  exists t, @tst_brkm_ (sample_tst_env None) unit no_errs None TFAIL
              (Some (@tst_brkm_ (sample_tst_env None) unit no_errs None TBROK None §"close failed";; mret tt)) §"failed" tst0 =
            Exited SIGABRT_status t.
Proof.
  apply (brkm_in_cleanup_aborts (sample_tst_env None) (sample_short None)); try apply no_errs_short; try done;
    unfold short_msg; cbn; try lia; repeat constructor.
Defined.
