(* ===== verification/EddtsOS.v ===== *)
(** What the device driver tests of eDDTs (src/testsuite) run on: the calls they
    make to the board, the old result interface, the SAFE_ macros
    (lib/safe_macros.c, include/old/safe_macros.h) and the option parser
    (lib/parse_opts.c, lib/tst_parse_opts.c). *)
From Stdlib Require Import Ascii String ZArith Lia Bool.
From stdpp Require Import base list sets numbers.
From S2P Require Import Prelude CString TstRes Effects OldRes.

Local Open Scope Z_scope.

(** ** The board *)

(** [struct rtc_time] and [struct tm], the fields the tests use. *)
Record rtc_time := mkTime { tm_sec : Z; tm_min : Z; tm_hour : Z; tm_mday : Z; tm_mon : Z; tm_year : Z }.

(** [struct ethtool_cmd], the fields the tests use. *)
Record ethtool_cmd := mkEth { eth_speed : Z; eth_duplex : Z; advertising : Z }.

Inductive request :=
| WDIOC_SETTIMEOUT (timeout : Z) | WDIOC_GETTIMEOUT | WDIOC_KEEPALIVE
| SPI_IOC_WR_MODE (mode : Z) | SPI_IOC_RD_MODE
| SPI_IOC_WR_BITS_PER_WORD (bits : Z) | SPI_IOC_RD_BITS_PER_WORD
| SPI_IOC_WR_MAX_SPEED_HZ (speed : Z) | SPI_IOC_RD_MAX_SPEED_HZ
| SPI_IOC_MESSAGE (tx : list Z) (delay speed bits : Z)
| RTC_RD_TIME | RTC_AIE_ON | RTC_AIE_OFF | RTC_ALM_SET (tm : rtc_time) | RTC_ALM_READ
| I2C_SLAVE (addr : Z)
| MEMGETINFO | MEMERASE (start length : Z)
| SIOCGIFHWADDR (name : cstr) | SIOCGIFADDR (name : cstr)
| ETHTOOL_GSET (name : cstr) | ETHTOOL_SSET (name : cstr) (cmd : ethtool_cmd).

(** What the kernel writes to the argument of a request. *)
Definition reply (r : request) : Type :=
  match r with
  | WDIOC_GETTIMEOUT | SPI_IOC_RD_MODE | SPI_IOC_RD_BITS_PER_WORD | SPI_IOC_RD_MAX_SPEED_HZ | MEMGETINFO => Z
  | SPI_IOC_MESSAGE _ _ _ _ | SIOCGIFHWADDR _ | SIOCGIFADDR _ => list Z
  | RTC_RD_TIME | RTC_ALM_READ => rtc_time
  | ETHTOOL_GSET _ => ethtool_cmd
  | _ => unit
  end.

(** Values at the width of the variables they are written to. *)

Definition int_time (t : rtc_time) : rtc_time :=
  mkTime (s32 (tm_sec t)) (s32 (tm_min t)) (s32 (tm_hour t)) (s32 (tm_mday t)) (s32 (tm_mon t)) (s32 (tm_year t)).

Definition typed (r : request) : reply r -> reply r :=
  match r with
  | WDIOC_GETTIMEOUT => s32
  | SPI_IOC_RD_MODE | SPI_IOC_RD_BITS_PER_WORD => u8
  | SPI_IOC_RD_MAX_SPEED_HZ | MEMGETINFO => u32
  | SPI_IOC_MESSAGE _ _ _ _ | SIOCGIFHWADDR _ | SIOCGIFADDR _ => fmap u8
  | RTC_RD_TIME | RTC_ALM_READ => int_time
  | ETHTOOL_GSET _ => fun c => mkEth (uwrap 16 (eth_speed c)) (u8 (eth_duplex c)) (u32 (advertising c))
  | _ => fun x => x
  end.

(** The answers of the board; [getopt] is what the calls of [getopt] on the
    arguments of the program answer for an option string. *)
Class Board := {
  bsys : Type;
  b_errno : bsys -> Z;
  b_argv : list cstr;
  getopt : cstr -> list (ascii * cstr);
  va_mode : Z;                                     (* a variable argument that was not passed *)
  geteuid : bsys -> Z;
  malloc_ok : bsys -> Z -> bool;
  access : bsys -> cstr -> bsys * Z;
  open_ : bsys -> cstr -> Z -> bsys * Z;           (* path, flags *)
  close_ : bsys -> Z -> bsys * Z;
  lseek : bsys -> Z -> Z -> bsys * Z;
  read_ : bsys -> Z -> Z -> bsys * (Z * list Z);
  write_ : bsys -> Z -> list Z -> bsys * Z;
  ioctl_ : bsys -> Z -> forall r : request, bsys * (Z * reply r);
  select_ : bsys -> Z -> bsys * Z;
  localtime : bsys -> bsys * rtc_time;
  popen : bsys -> cstr -> bsys * option (list Z);  (* what the command writes *)
  system_ : bsys -> cstr -> bsys * Z;
  readdir : bsys -> cstr -> bsys * option (list cstr);
  gethostname : bsys -> bsys * (Z * cstr);
  gethostbyname : bsys -> cstr -> bsys * bool;
  socket_ : bsys -> bsys * Z;
  connect_ : bsys -> Z -> bsys * Z;
  file_lines : bsys -> cstr -> bsys * option (list cstr);  (* what fgets gives *)
  mmap_ : bsys -> Z -> Z -> bsys * option Z;       (* descriptor, offset *)
  valloc : bsys -> bsys * Z;
  mem_store : bsys -> Z -> list Z -> bsys;         (* virtual address, bytes *)
  mem_text : bsys -> Z -> cstr;                    (* the string at a virtual address *)
  reg_load : bsys -> Z -> bsys * Z;
  reg_store : bsys -> Z -> Z -> bsys
}.

(** The calls of a program with what they answered. *)
Inductive event :=
| EvAccess (path : cstr) (ret : Z)
| EvOpen (path : cstr) (fd : Z)
| EvClose (fd ret : Z)
| EvSeek (fd off : Z)
| EvRead (fd n ret : Z) (bytes : list Z)
| EvWrite (fd : Z) (bytes : list Z) (ret : Z)
| EvIoctl (fd : Z) (r : request) (ret : Z) (x : reply r)
| EvSelect (ret : Z)
| EvTime (t : rtc_time)
| EvErrno (err : Z)
| EvText (address : Z) (text : cstr)
| EvSleep (microseconds : Z)
| EvPopen (command : cstr) (out : option (list Z))
| EvSystem (command : cstr) (ret : Z)
| EvDir (path : cstr) (names : option (list cstr))
| EvHost (name : cstr)
| EvSocket (fd : Z)
| EvConnect (fd ret : Z)
| EvFile (path : cstr)
| EvMap (offset : Z)
| EvAlloc (address : Z)
| EvStore (address : Z) (bytes : list Z)
| EvRegLoad (address : Z)
| EvReg (address value : Z).

Section Programs.
Context `{Board}.

Record bstate := mkB { board : bsys; lib : tst; evs : list event }.

Abbreviation P := (E bstate).

Definition set_lib (t : tst) (s : bstate) : bstate := mkB (board s) t (evs s).

(** A call of the board. *)
Definition sys {A} (ev : A -> event) (f : bsys -> bsys * A) : P A := fun s =>
  let '(b, a) := f (board s) in Done a (mkB b (lib s) (evs s ++ [ev a])).

Definition log (ev : event) : P unit := modify (fun s => mkB (board s) (lib s) (evs s ++ [ev])).

Definition SEEK_SET_off (fd off : Z) : P Z := sys (fun _ => EvSeek fd off) (fun b => lseek b fd off).
Definition b_access (path : cstr) : P Z := sys (EvAccess path) (fun b => access b path).
Definition b_open (path : cstr) (oflags : Z) : P Z := sys (EvOpen path) (fun b => open_ b path oflags).
Definition b_close (fd : Z) : P Z := sys (EvClose fd) (fun b => close_ b fd).
Definition b_read (fd n : Z) : P (Z * list Z) := sys (fun r => EvRead fd n r.1 r.2) (fun b => read_ b fd n).
Definition b_write (fd : Z) (bytes : list Z) : P Z := sys (EvWrite fd bytes) (fun b => write_ b fd bytes).
Definition ioctl (fd : Z) (r : request) : P (Z * reply r) :=
  sys (fun a => EvIoctl fd r a.1 a.2) (fun b => let '(b', (ret, x)) := ioctl_ b fd r in (b', (s32 ret, typed r x))).
Definition sleep (seconds : Z) : P unit := log (EvSleep (seconds * 1000000)).
Definition usleep (us : Z) : P unit := log (EvSleep us).
Definition malloc (n : Z) : P bool := gets (fun s => malloc_ok (board s) n).

(** [argv[i]] used as a string: NULL after the last one. *)
Definition argv (i : nat) : P cstr :=
  match b_argv !! i with Some a => mret a | None => undefined end.

(** ** The result interface on a board *)

Section Lib.
Context (e : tst_env) (file : cstr).

Definition lib_call {A} (m : errs -> E tst A) : P A := fun s =>
  match m (mkErrs (b_errno (board s)) 0 0) (lib s) with
  | Done a t => Done a (set_lib t s)
  | Exited c t => Exited c (set_lib t s)
  | Undefined => Undefined
  end.

Definition tst_resm (line ttype : Z) (msg : cstr) : P unit :=
  lib_call (fun r => tst_resm_ e r (Some (file, line)) ttype msg).

(** The tests break without a clean-up. *)
Definition tst_brkm {A} (line ttype : Z) (msg : cstr) : P A :=
  lib_call (fun r => tst_brkm_ e r (Some (file, line)) ttype None msg).

Definition tst_exit {A} : P A := lib_call (fun r => OldRes.tst_exit e r).

Definition tst_require_root : P unit :=
  s ← get; lib_call (fun r => OldRes.tst_require_root e r (Some (§"tst_res.c", 605)) (geteuid (board s))).

(** ** SAFE_ macros *)

Definition safe_open (line : Z) (path : cstr) (oflags : Z) : P Z :=
  rval ← b_open path oflags;
  if rval =? -1
  then lib_call (fun r => tst_brkm_ e r (Some (§"safe_macros.c", 228)) (Z.lor TBROK TERRNO) None
         (file ++ §":" ++ fmt_d line ++ §": open(" ++ path ++ §"," ++ fmt_d oflags ++ §",0" ++ fmt_nat 8 (u32 va_mode) ++ §") failed"))
  else mret rval.

Definition SAFE_IOCTL (line fd : Z) (name : cstr) (r : request) : P Z :=
  a ← ioctl fd r;
  if a.1 <? 0
  then tst_brkm line (Z.lor TBROK TERRNO) (§"ioctl(" ++ fmt_d fd ++ §"," ++ name ++ §",...) failed")
  else mret a.1.

(** ** Options *)

Definition std_options : list cstr := [§"h"; §"i:"; §"I:"].

(** The option string: an option of the test is added when its letter is not in
    it already. *)
Fixpoint option_string (s : cstr) (table : list cstr) : cstr :=
  match table with
  | [] => s
  | o :: table =>
      option_string (match o with
                     | c :: _ => if memc c s then s else s ++ o
                     | [] => s                       (* strchr finds the terminating NUL *)
                     end) table
  end.

(** The entry of the test's table for an option. *)
Fixpoint find_option (table : list cstr) (c : ascii) : option cstr :=
  match table with
  | [] => None
  | o :: table => match o with
                  | c' :: _ => if ceqb c c' then Some o else find_option table c
                  | [] => find_option table c
                  end
  end.

(** The loop over the answers of [getopt]: the message of an error, or the
    arguments of the options of the test in the order they came. *)
Fixpoint opt_loop (table : list cstr) (answers : list (ascii * cstr)) (found : list (ascii * cstr))
    : P (cstr + list (ascii * cstr)) :=
  match answers with
  | [] => mret (inr found)
  | (opt, arg) :: answers =>
      if ceqb opt "?" then mret (inl §"Unknown option")
      else if ceqb opt ":" then mret (inl §"Missing argument")
      else if ceqb opt "i" then opt_loop table answers found
      else if ceqb opt "I" then opt_loop table answers found
      else if ceqb opt "h" then exit 0
      else match find_option table opt with
           | Some o => opt_loop table answers
                         (match List.last o NUL with
                          | ":"%char => found ++ [(opt, arg)]
                          | _ => found
                          end)
           | None => mret (inl (§"parse_opts: ERROR - option:" ++ ["034"%char; opt; "034"%char] ++ §" NOT FOUND... INTERNAL ERROR"))
           end
  end.

Definition parse_opts (table : list cstr) : P (cstr + list (ascii * cstr)) :=
  if existsb (fun o => (2 <? length o)%nat) table
  then mret (inl §"parse_opts: ERROR - Only short options are allowed")
  else
    let optstrlen := Z.of_nat (length (concat (std_options ++ table))) + 1 in
    ok ← malloc optstrlen;
    if ok : bool
    then opt_loop table (getopt (option_string (concat std_options) table)) []
    else mret (inl §"parse_opts: ERROR - Could not allocate memory for optionstr").

Definition tst_parse_opts (table : list cstr) : P (list (ascii * cstr)) :=
  r ← parse_opts table;
  match r with
  | inl msg => lib_call (fun r => tst_brkm_ e r (Some (§"tst_parse_opts.c", 35)) TBROK None (§"OPTION PARSING ERROR - " ++ msg))
  | inr found => mret found
  end.

(** The variable of an option: the last argument given, or its initial value. *)
Definition opt_arg (c : ascii) (found : list (ascii * cstr)) (init : cstr) : cstr :=
  match list_find (fun x => x.1 = c) (rev found) with Some (_, (_, arg)) => arg | None => init end.
End Lib.
End Programs.
