(* ===== verification/EddtsBus.v ===== *)
(** Device driver tests of eDDTs, the watchdog, the clock and the buses:
    wdt_test.c, rtc_test.c, spidev_test.c, i2c_test.c, temp_sensor_test.c,
    usb_test.c and cpu_core_test.c of src/testsuite/beagleboneevm and
    src/testsuite/rpi2evm. *)
From Stdlib Require Import Ascii String ZArith Lia Bool.
From stdpp Require Import base list sets numbers.
From S2P Require Import Prelude CString TstRes Effects OldRes EddtsOS.

Local Open Scope Z_scope.

Definition O_RDONLY : Z := 0.
Definition O_WRONLY : Z := 1.
Definition O_RDWR : Z := 2.
Definition O_NOCTTY : Z := 256.

Definition EINVAL : Z := 22.
Definition ENOENT : Z := 2.

(** [%02d]. *)
Definition fmt_02 (z : Z) : cstr :=
  if z <? 0 then "-"%char :: (let d := fmt_nat 10 (- z) in replicate (1 - length d) "0"%char ++ d)
  else let d := fmt_nat 10 z in replicate (2 - length d) "0"%char ++ d.

Section Bus.
Context `{Board} (e : tst_env).

(** ** wdt_test.c *)

(** The files of the two boards differ by a blank line: [d] is 1 on the rpi2. *)
Section Wdt.
Context (d : Z).

Definition wdt_resm (line ttype : Z) (msg : cstr) : E bstate unit := tst_resm e §"wdt_test.c" (d + line) ttype msg.

Definition setgetwdttimeout (wdt_fd : Z) : E bstate unit :=
  wdt_resm 64 TINFO §"WDT SET TIMEOUT TEST :";;
  ret ← ioctl wdt_fd (WDIOC_SETTIMEOUT 15);
  if ret.1 =? -1 then wdt_resm 69 (Z.lor TFAIL TERRNO) §"WDIOC_SETTIMEOUT ioctl failed"
  else
    ret ← ioctl wdt_fd WDIOC_GETTIMEOUT;
    if ret.1 =? -1 then wdt_resm 76 (Z.lor TFAIL TERRNO) §"WDIOC_GETTIMEOUT ioctl failed"
    else
      wdt_resm 81 TINFO (§"WDT TIMEOUT is " ++ fmt_d ret.2 ++ §" seconds");;
      wdt_resm 83 TPASS §"WDT SET TIMEOUT TEST Passed".

(** [n] more heartbeats. *)
Fixpoint refresh_loop (n : nat) (wdt_fd : Z) : E bstate unit :=
  match n with
  | O => wdt_resm 108 TPASS §"WDT REFRESH TEST Passed"
  | S n =>
      ret ← ioctl wdt_fd WDIOC_KEEPALIVE;
      if ret.1 =? -1 then wdt_resm 101 (Z.lor TFAIL TERRNO) §"WDIOC_KEEPALIVE ioctl failed"
      else sleep 10;; refresh_loop n wdt_fd
  end.

Definition refresh_wdt (wdt_fd : Z) : E bstate unit :=
  wdt_resm 94 TINFO §"WDT REFRESH TEST :";;
  refresh_loop 3 wdt_fd.

(** The part of [main] after the device is open. *)
Definition wdt_tests (wdt_fd : Z) : E bstate unit :=
  setgetwdttimeout wdt_fd;;
  refresh_wdt wdt_fd;;
  ret ← b_write wdt_fd [86];                         (* "V" *)
  when (negb (ret =? 1)) (wdt_resm 144 (Z.lor TFAIL TERRNO) §"WDT Disable failed");;
  b_close wdt_fd;;
  wdt_resm 150 TINFO §"WDT Tests Done!";;
  tst_exit e.

Definition wdt_main : E bstate unit :=
  found ← tst_parse_opts e [§"d:"];
  let wdt_dev := opt_arg "d" found §"/dev/watchdog" in
  tst_require_root e;;
  r ← b_access wdt_dev;
  (if r =? -1 then tst_brkm e §"wdt_test.c" (d + 128) TCONF (§"couldn't find wdt device '" ++ wdt_dev ++ §"'") else mret tt);;
  wdt_fd ← safe_open e §"wdt_test.c" (d + 131) wdt_dev (Z.lor O_RDWR O_NOCTTY);
  wdt_tests wdt_fd.
End Wdt.

(** ** rtc_test.c *)

Definition rtc_resm (line ttype : Z) (msg : cstr) : E bstate unit := tst_resm e §"rtc_test.c" line ttype msg.

Definition clock_text (t : rtc_time) : cstr :=
  fmt_02 (tm_hour t) ++ §":" ++ fmt_02 (tm_min t) ++ §":" ++ fmt_02 (tm_sec t).

Definition rtc_read_test (rtc_fd : Z) : E bstate unit :=
  rtc_resm 62 TINFO §"RTC READ TEST:";;
  ret ← ioctl rtc_fd RTC_RD_TIME;
  if ret.1 =? -1 then rtc_resm 67 (Z.lor TFAIL TERRNO) §"RTC_RD_TIME ioctl failed"
  else
    let tm := ret.2 in
    rtc_resm 71 TINFO (§"Current RTC date/time is " ++ fmt_d (tm_mday tm) ++ §"-" ++ fmt_d (s32 (tm_mon tm + 1)) ++ §"-" ++
      fmt_d (s32 (tm_year tm + 1900)) ++ §", " ++ clock_text tm ++ §".");;
    rtc_resm 75 TPASS §"RTC READ TEST Passed".

(** The condition of the comparison. *)
Definition same_time (rtc tm : rtc_time) : bool :=
  (tm_hour rtc =? tm_hour tm) && (tm_min rtc =? tm_min tm) &&
  ((tm_sec rtc - 10 <=? tm_sec tm) && (tm_sec tm <=? tm_sec rtc + 10)).

(** [time] and [localtime]. *)
Definition b_localtime : E bstate rtc_time := sys EvTime (fun b => let '(b', t) := localtime b in (b', int_time t)).

Definition rtc_system_time_compare_test (rtc_fd : Z) : E bstate unit :=
  rtc_resm 81 TINFO §"RTC & SYSTEM TIME COMPARE TEST:";;
  ret ← ioctl rtc_fd RTC_RD_TIME;
  if ret.1 =? -1 then rtc_resm 88 (Z.lor TFAIL TERRNO) §"RTC_RD_TIME ioctl failed"
  else
    rtc_resm 92 TINFO (§"RTC time is " ++ clock_text ret.2);;
    tm ← b_localtime;
    rtc_resm 98 TINFO (§"System time is " ++ clock_text tm);;
    if same_time ret.2 tm then rtc_resm 104 TPASS §"RTC & SYSTEM COMPARE TEST Passed"
    else tst_brkm e §"rtc_test.c" 107 TCONF §"RTC & SYSTEM COMPARE TEST Failed".

(** The time five seconds after [t]. *)
Definition alarm_time (t : rtc_time) : rtc_time :=
  let sec := s32 (tm_sec t + 5) in
  let '(sec, min) := if 60 <=? sec then (Z.rem sec 60, s32 (tm_min t + 1)) else (sec, tm_min t) in
  let '(min, hour) := if min =? 60 then (0, s32 (tm_hour t + 1)) else (min, tm_hour t) in
  let hour := if hour =? 24 then 0 else hour in
  mkTime sec min hour (tm_mday t) (tm_mon t) (tm_year t).

Definition rtc_errno : E bstate Z := sys EvErrno (fun b => (b, b_errno b)).

(** The end of the alarm test, when the alarm is set. *)
Definition wait_alarm (rtc_fd : Z) : E bstate unit :=
  ret ← ioctl rtc_fd RTC_AIE_ON;
  if ret.1 =? -1 then rtc_resm 180 (Z.lor TINFO TERRNO) §"RTC_AIE_ON ioctl failed"
  else
    rtc_resm 184 TINFO §"Waiting 5 seconds for the alarm...";;
    ret ← sys EvSelect (fun b => select_ b rtc_fd);
    if ret =? -1 then rtc_resm 195 (Z.lor TFAIL TERRNO) §"select failed"
    else if ret =? 0 then rtc_resm 205 TFAIL §"Timed out waiting for the alarm"
    else
      r ← b_read rtc_fd 8;
      if r.1 =? -1 then rtc_resm 200 (Z.lor TFAIL TERRNO) §"read failed"
      else
        rtc_resm 203 TINFO §"Alarm rang.";;
        ret ← ioctl rtc_fd RTC_AIE_OFF;
        if ret.1 =? -1 then rtc_resm 212 (Z.lor TFAIL TERRNO) §"RTC_AIE_OFF ioctl failed"
        else rtc_resm 215 TPASS §"RTC ALARM TEST Passed".

(** [rtc_tm] is what the local variable, which is never set, happens to hold. *)
Definition rtc_alarm_test (rtc_tm : rtc_time) (rtc_fd : Z) : E bstate unit :=
  rtc_resm 122 TINFO §"RTC ALARM TEST :";;
  ret ← ioctl rtc_fd RTC_AIE_ON;
  if ret.1 =? -1 then rtc_resm 127 (Z.lor TINFO TERRNO) §"ALARM NOT SUPPORTED"
  else
    ret ← ioctl rtc_fd RTC_AIE_OFF;
    if ret.1 =? -1 then rtc_resm 134 (Z.lor TFAIL TERRNO) §"RTC_AIE_OFF ioctl failed"
    else
      ret ← ioctl rtc_fd (RTC_ALM_SET (alarm_time rtc_tm));
      if ret.1 =? -1 then
        err ← rtc_errno;
        if err =? EINVAL then rtc_resm 157 (Z.lor TCONF TERRNO) §"RTC_ALM_SET not supported"
        else rtc_resm 159 (Z.lor TFAIL TERRNO) §"RTC_ALM_SET ioctl failed"
      else
        ret ← ioctl rtc_fd RTC_ALM_READ;
        if ret.1 =? -1 then
          err ← rtc_errno;
          if err =? EINVAL
          then rtc_resm 167 (Z.lor TCONF TERRNO) §"RTC_ALM_READ not suported";; wait_alarm rtc_fd
          else rtc_resm 169 (Z.lor TFAIL TERRNO) §"RTC_ALM_READ ioctl failed"
        else
          rtc_resm 173 TINFO (§"Alarm time set to " ++ clock_text ret.2 ++ §".");;
          wait_alarm rtc_fd.

Definition rtc_tests (rtc_tm : rtc_time) (rtc_fd : Z) : E bstate unit :=
  rtc_read_test rtc_fd;;
  rtc_system_time_compare_test rtc_fd;;
  rtc_alarm_test rtc_tm rtc_fd;;
  b_close rtc_fd;;
  rtc_resm 241 TINFO §"RTC Tests Done!";;
  tst_exit e.

Definition rtc_main (rtc_tm : rtc_time) : E bstate unit :=
  found ← tst_parse_opts e [§"d:"];
  let rtc_dev := opt_arg "d" found §"/dev/rtc0" in
  tst_require_root e;;
  r ← b_access rtc_dev;
  (if r =? -1 then tst_brkm e §"rtc_test.c" 226 TCONF (§"couldn't find rtc device '" ++ rtc_dev ++ §"'") else mret tt);;
  rtc_fd ← safe_open e §"rtc_test.c" 228 rtc_dev O_RDONLY;
  rtc_tests rtc_tm rtc_fd.

(** ** spidev_test.c *)

(** The device, and the line where the files differ by one: [d] is 1 on the rpi2. *)
Section Spi.
Context (default_dev : cstr) (d : Z).

Definition spi_resm (line ttype : Z) (msg : cstr) : E bstate unit := tst_resm e §"spidev_test.c" (d + line) ttype msg.

Definition words : Z := 100.

Definition tx_data : list Z := (fun i => i mod 256) <$> zseq 0 (Z.to_nat words).

(** The global variables [mode], [bits] and [speed]. *)
Record spi_params := mkSpi { spi_mode : Z; spi_bits : Z; spi_speed : Z }.

Definition loopback_test (spi_dev : cstr) (p : spi_params) (spi_fd : Z) : E bstate unit :=
  spi_resm 64 TINFO §"SPI DEV LOOPBACK TEST:";;
  tx ← malloc words;
  rx ← malloc words;
  if negb tx || negb rx then spi_resm 72 (Z.lor TFAIL TERRNO) §"Memory allocation failed"
  else
    spi_resm 91 TINFO §"Transmit Data";;
    ret ← ioctl spi_fd (SPI_IOC_MESSAGE tx_data 0 (spi_speed p) (spi_bits p));
    if ret.1 <? 1 then spi_resm 106 (Z.lor TFAIL TERRNO) §"SPI transmit error"
    else
      spi_resm 110 TINFO §"Recieve Data";;
      if bool_decide (take (Z.to_nat words) ret.2 = tx_data)
      then spi_resm 134 TPASS §"SPI DEV LOOPBACK TEST Passed"
      else tst_brkm e §"spidev_test.c" (d + 126) TFAIL (§"Loopback test failed for '" ++ spi_dev ++ §"'").

(** Results in the values of the variables after it. *)
Definition set_get_spi_params (p : spi_params) (spi_fd : Z) : E bstate spi_params :=
  spi_resm 142 TINFO §"SPI DEV SET PARAMS TEST:";;
  let fail line p msg := spi_resm line (Z.lor TFAIL TERRNO) msg;; mret p in
  ret ← ioctl spi_fd (SPI_IOC_WR_MODE (spi_mode p));
  if ret.1 =? -1 then fail 149 p §"SET SPI MODE ERROR" else
  ret ← ioctl spi_fd SPI_IOC_RD_MODE;
  if ret.1 =? -1 then fail 156 p §"GET SPI MODE ERROR" else
  let p := mkSpi ret.2 (spi_bits p) (spi_speed p) in
  ret ← ioctl spi_fd (SPI_IOC_WR_BITS_PER_WORD (spi_bits p));
  if ret.1 =? -1 then fail 167 p §"SET SPI BITS PER WORD ERROR" else
  ret ← ioctl spi_fd SPI_IOC_RD_BITS_PER_WORD;
  if ret.1 =? -1 then fail 174 p §"GET SPI BITS PER WORD ERROR" else
  let p := mkSpi (spi_mode p) ret.2 (spi_speed p) in
  ret ← ioctl spi_fd (SPI_IOC_WR_MAX_SPEED_HZ (spi_speed p));
  if ret.1 =? -1 then fail 184 p §"SET SPI MAX SPEED ERROR" else
  ret ← ioctl spi_fd SPI_IOC_RD_MAX_SPEED_HZ;
  if ret.1 =? -1 then fail 191 p §"GET SPI MAX SPEED ERROR" else
  let p := mkSpi (spi_mode p) (spi_bits p) ret.2 in
  spi_resm 195 TINFO (§"spi mode: " ++ fmt_d (spi_mode p));;
  spi_resm 196 TINFO (§"bits per word: " ++ fmt_d (spi_bits p));;
  spi_resm 197 TINFO (§"max speed: " ++ fmt_d (s32 (spi_speed p)) ++ §" Hz (" ++ fmt_d (s32 (spi_speed p / 1000)) ++ §" KHz)");;
  spi_resm 198 TINFO (§"number of words to be transfered: " ++ fmt_d words);;
  spi_resm 200 TPASS §"SPI DEV SET PARAMS*********** TEST Passed";;
  mret p.

Definition spi_tests (spi_dev : cstr) (spi_fd : Z) : E bstate unit :=
  p ← set_get_spi_params (mkSpi 0 8 500000) spi_fd;
  loopback_test spi_dev p spi_fd;;
  b_close spi_fd;;
  spi_resm 220 TINFO §"SPIDEV Tests Done-----------!";;
  tst_exit e.

Definition spi_main : E bstate unit :=
  found ← tst_parse_opts e [§"d:"];
  let spi_dev := opt_arg "d" found default_dev in
  tst_require_root e;;
  r ← b_access spi_dev;
  (if r =? -1 then tst_brkm e §"spidev_test.c" (d + 210) TFAIL (§"couldn't find spi device '" ++ spi_dev ++ §"'") else mret tt);;
  spi_fd ← safe_open e §"spidev_test.c" (d + 212) spi_dev O_RDWR;
  spi_tests spi_dev spi_fd.
End Spi.

(** ** i2c_test.c *)

(** [slave_addr = strtol(argv[2], NULL, 16)], stored in a [char] and passed to
    [ioctl] (a plain [char] is unsigned on the ARM boards). *)
Definition slave_addr (arg : cstr) : Z := u8 (strtol 16 arg).1.1.

(** [test_init] of i2c_test.c. *)
Definition i2c_init (i2c_dev : cstr) (addr : Z) : E bstate Z :=
  r ← b_access i2c_dev;
  (if r =? -1 then tst_brkm e §"i2c_test.c" 85 TFAIL §"couldn't find i2c device" else mret tt);;
  i2c_fd ← safe_open e §"i2c_test.c" 88 i2c_dev O_RDWR;
  err ← rtc_errno;
  (if (i2c_fd <? 0) && negb (err =? ENOENT) then tst_brkm e §"i2c_test.c" 92 TFAIL §"i2c open failed" else mret tt);;
  r ← SAFE_IOCTL e §"i2c_test.c" 96 i2c_fd §"I2C_SLAVE" (I2C_SLAVE addr);
  (if r <? 0 then tst_brkm e §"i2c_test.c" 97 TFAIL (§"Failed to acquire bus access and/or talk to slave." ++ [LF]) else mret tt);;
  tst_resm e §"i2c_test.c" 100 TPASS (§"I2C SCAN TEST PASSED" ++ [LF; LF]);;
  mret i2c_fd.

(** [test_cleanup] of i2c_test.c and of temp_sensor_test.c. *)
Definition i2c_cleanup (file : cstr) (l1 l2 : Z) (text : cstr) (i2c_fd : Z) : E bstate unit :=
  (if 0 <? i2c_fd then
     r ← b_close i2c_fd;
     when (negb (r =? 0)) (tst_resm e file l1 (Z.lor TWARN TERRNO) §"close(i2c_fd)")
   else mret tt);;
  b_close i2c_fd;;
  tst_resm e file l2 TINFO text.

Definition i2c_main : E bstate unit :=
  tst_parse_opts e [§"d:"];;
  tst_require_root e;;
  i2c_dev ← argv 1;
  arg ← argv 2;
  i2c_fd ← i2c_init i2c_dev (slave_addr arg);
  i2c_cleanup §"i2c_test.c" 107 110 (§"I2C Scan Test Done!" ++ [LF; LF]) i2c_fd;;
  tst_exit e.

(** ** temp_sensor_test.c *)

(** The number the two bytes of the sensor are made. *)
Definition temperature (b0 b1 : Z) : Z :=
  let t := Z.shiftr (Z.lor (Z.shiftl b0 8) b1) 4 in
  if negb (Z.land t (Z.shiftl 1 11) =? 0) then Z.lor t 63488 else t.

(** [%04f] of [t * 0.0625]: the sixteenths of a degree [t] are not negative. *)
Definition degrees_text (t : Z) : cstr :=
  fmt_nat 10 (t / 16) ++ §"." ++ (let d := fmt_nat 10 (t mod 16 * 625) in replicate (4 - length d) "0"%char ++ d) ++ §"00".

(** The loop of [i2c_read_temp]: [tries] more reads before the third error. *)
Fixpoint read_loop (tries : nat) (errCount i2c_fd : Z) : E bstate unit :=
  match tries with
  | O => undefined
  | S tries =>
      when (0 <? errCount) (tst_resm e §"temp_sensor_test.c" 100 TINFO §"Retrying...!");;
      k ← b_read i2c_fd 2;
      if negb (s32 k.1 =? 2) then
        let errCount := errCount + 1 in
        (if errCount =? 3 then tst_brkm e §"temp_sensor_test.c" 110 TFAIL §"Temperature Read Test Failed" else mret tt);;
        usleep 5;;
        read_loop tries errCount i2c_fd
      else
        match u8 <$> (k.2 ++ [0; 0]) with
        | b0 :: b1 :: _ =>
            tst_resm e §"temp_sensor_test.c" 126 TINFO
              (§"current temp : " ++ degrees_text (temperature b0 b1) ++ §" " ++ TAB :: §" error: " ++ fmt_d errCount);;
            tst_resm e §"temp_sensor_test.c" 129 TPASS §"Temperature Test Passed"
        | _ => undefined
        end
  end.

Definition i2c_read_temp (i2c_fd : Z) : E bstate unit := read_loop 3 0 i2c_fd.

(** [test_init] of temp_sensor_test.c. *)
Definition temp_init (i2c_dev : cstr) (addr : Z) : E bstate Z :=
  r ← b_access i2c_dev;
  (if r =? -1 then tst_brkm e §"temp_sensor_test.c" 149 TFAIL §"couldn't find i2c device " else mret tt);;
  i2c_fd ← safe_open e §"temp_sensor_test.c" 151 i2c_dev O_RDWR;
  err ← rtc_errno;
  (if (i2c_fd <? 0) && negb (err =? ENOENT)
   then tst_brkm e §"temp_sensor_test.c" 155 (Z.lor TBROK TERRNO) (§"open(" ++ i2c_dev ++ §")") else mret tt);;
  r ← SAFE_IOCTL e §"temp_sensor_test.c" 158 i2c_fd §"I2C_SLAVE" (I2C_SLAVE addr);
  (if r <? 0 then tst_brkm e §"temp_sensor_test.c" 159 TFAIL (§"Failed to acquire bus access and/or talk to slave." ++ [LF]) else mret tt);;
  mret i2c_fd.

Definition temp_main : E bstate unit :=
  tst_parse_opts e [§"d:"];;
  tst_require_root e;;
  i2c_dev ← argv 1;
  arg ← argv 2;
  tst_resm e §"temp_sensor_test.c" 186 TINFO §"I2C Temperature Reading Tests!";;
  i2c_fd ← temp_init i2c_dev (slave_addr arg);
  i2c_read_temp i2c_fd;;
  tst_resm e §"temp_sensor_test.c" 192 TINFO §"Temperature Reading Tests Done!";;
  i2c_cleanup §"temp_sensor_test.c" 167 172 §"I2C Tests Done!" i2c_fd;;
  tst_exit e.

(** ** usb_test.c *)

Definition usb_main : E bstate unit :=
  tst_parse_opts e [];;
  tst_require_root e;;
  tst_resm e §"usb_test.c" 62 TINFO §"USB Mount Test!";;
  f ← sys (EvPopen §"mount | grep /dev/sda1") (fun b => popen b §"mount | grep /dev/sda1");
  (match f with
   | Some [] => tst_resm e §"usb_test.c" 73 TFAIL §"USB Device not mounted"
   | Some _ => tst_resm e §"usb_test.c" 78 TPASS §"USB Device mounted!"
   | None => mret tt
   end);;
  tst_resm e §"usb_test.c" 85 TINFO §"USB Mount Test Done!";;
  tst_exit e.

(** ** cpu_core_test.c *)

(** [fnmatch("cpu[0-9]*", name, 0) == 0]. *)
Definition is_cpu (name : cstr) : bool :=
  match name with
  | c :: p :: u :: n :: _ => ceqb c "c" && ceqb p "p" && ceqb u "u" && isdigit n
  | _ => false
  end.

(** [cores] are expected; [d] is the shift of the lines, -2 on the rpi2. *)
Definition cpu_main (cores d : Z) : E bstate unit :=
  tst_parse_opts e [];;
  tst_require_root e;;
  tst_resm e §"cpu_core_test.c" (d + 66) TINFO §"CPU Core Test!";;
  dir ← sys (EvDir §"/sys/devices/system/cpu") (fun b => readdir b §"/sys/devices/system/cpu");
  match dir with
  | None => tst_brkm e §"cpu_core_test.c" (d + 72) TCONF §"Cannot open /sys/devices/system/cpu directory"
  | Some names =>
      let cpu_count := s32 (Z.of_nat (length (List.filter is_cpu names))) in
      tst_resm e §"cpu_core_test.c" (d + 88) TINFO (§"CPU count: " ++ fmt_d cpu_count ++ [LF]);;
      (if cpu_count =? cores then tst_resm e §"cpu_core_test.c" (d + 92) TINFO §"CPU Core Test Passed!"
       else tst_resm e §"cpu_core_test.c" (d + 95) TINFO §"CPU Core Test Failed!");;
      tst_resm e §"cpu_core_test.c" (d + 99) TINFO §"CPU Core Test Done!";;
      tst_exit e
  end.
End Bus.
