(* ===== verification/EddtsIo.v ===== *)
(** Device driver tests of eDDTs, pins and memories:
    gpio_test.c, eeprom_test.c and norflash_test.c of src/testsuite/beagleboneevm and
    src/testsuite/rpi2evm. *)
From Stdlib Require Import Ascii String ZArith Lia Bool.
From stdpp Require Import base list sets numbers.
From S2P Require Import Prelude CString TstRes Effects OldRes EddtsOS EddtsBus.

Local Open Scope Z_scope.

(** The bytes of a text and back. *)
Definition text_bytes (s : cstr) : list Z := chr_code <$> s.
Definition text_of (bs : list Z) : cstr := chr <$> bs.

Section Io.
Context `{Board} (e : tst_env).

(** ** gpio_test.c *)

Section Gpio.
(** The file of the beaglebone checks the writes to export and unexport, and its lines
    differ. *)
Context (bbb : bool).

Definition ln (rpi2 beaglebone : Z) : Z := if bbb then beaglebone else rpi2.

Definition gpio_brkm {A} (line : Z) (msg : cstr) : E bstate A := tst_brkm e §"gpio_test.c" line TCONF (msg ++ [LF]).

(** The bytes [write(fd, buffer, bytes_written)] takes from the array of three
    that [snprintf(buffer, 3, "%d", pin)] filled. *)
Definition pin_bytes (pin : Z) : E bstate (list Z) :=
  let d := fmt_d pin in
  require (length d <=? 3)%nat;;
  mret (text_bytes (take (length d) (take 2 d ++ [NUL]))).

(** [GPIOExport] and [GPIOUnexport]: the path, and the lines of the messages. *)
Definition export_pin (path what : cstr) (l1 l2 pin : Z) : E bstate unit :=
  fd ← b_open path O_WRONLY;
  (if fd =? -1 then gpio_brkm l1 (§"Failed to open " ++ what ++ §" for writing!!!") else mret tt);;
  bytes ← pin_bytes pin;
  ret ← b_write fd bytes;
  if bbb && negb (s32 ret =? Z.of_nat (length bytes))
  then b_close fd;; gpio_brkm l2 §"GPIOExport write Failed!!!"
  else b_close fd;; mret tt.

Definition GPIOExport (pin : Z) : E bstate unit := export_pin §"/sys/class/gpio/export" §"export" (ln 69 72) 80 pin.

Definition GPIOUnexport (pin : Z) : E bstate unit :=
  export_pin §"/sys/class/gpio/unexport" §"unexport" (ln 86 95) 103 pin.

Definition GPIODirection (pin : Z) (inwards : bool) : E bstate unit :=
  let path := snprintf_buf 35 (§"/sys/class/gpio/gpio" ++ fmt_d pin ++ §"/direction") in
  fd ← b_open path O_WRONLY;
  (if fd =? -1 then gpio_brkm (ln 106 121) §"Failed to open gpio direction for writing!!" else mret tt);;
  r ← b_write fd (text_bytes (if inwards then §"in" else §"out"));
  (if r =? -1 then gpio_brkm (ln 111 126) §"Failed to set direction!" else mret tt);;
  b_close fd;; mret tt.

Definition value_path (pin : Z) : cstr := snprintf_buf 30 (§"/sys/class/gpio/gpio" ++ fmt_d pin ++ §"/value").

(** [atoi] of an array of which only these bytes were set: it must not run past
    them. *)
Definition atoi_array (s : cstr) : E bstate Z :=
  require (existsb (fun c => negb (isdigit c)) (scan_sign (dropwhile isspace s)).2);;
  mret (atoi s).

Definition GPIORead (pin : Z) : E bstate Z :=
  fd ← b_open (value_path pin) O_RDONLY;
  (if fd =? -1 then gpio_brkm (ln 128 143) §"Failed to open gpio value for reading!" else mret tt);;
  r ← b_read fd 3;
  (if r.1 =? -1 then gpio_brkm (ln 132 147) §"Failed to read value!" else mret tt);;
  b_close fd;;
  atoi_array (text_of (take 3 r.2)).

Definition GPIOWrite (pin value : Z) : E bstate unit :=
  fd ← b_open (value_path pin) O_WRONLY;
  (if fd =? -1 then gpio_brkm (ln 150 165) §"Failed to open gpio value for writing!" else mret tt);;
  r ← b_write fd (text_bytes (if value =? 0 then §"0" else §"1"));
  (if r =? 1 then mret tt else gpio_brkm (ln 154 169) §"Failed to write value!");;
  b_close fd;; mret tt.

(** [for (i = 0; i < loop; i++)] *)
Fixpoint read_pins (n : nat) (pin : Z) : E bstate unit :=
  match n with
  | O => mret tt
  | S n => GPIORead pin;; read_pins n pin
  end.

(** [do ... while (loop--)]; without fuel the [int] has overflowed. *)
Fixpoint toggle (fuel : nat) (pin loop : Z) : E bstate unit :=
  match fuel with
  | O => undefined
  | S fuel =>
      GPIOWrite pin (Z.rem loop 2);;
      usleep (500 * 1000);;
      v ← GPIORead pin;
      (if v =? Z.rem loop 2 then mret tt else gpio_brkm (ln 208 223) §"GPIO Test Failed!");;
      if loop =? 0 then mret tt else toggle fuel pin (loop - 1)
  end.

Definition gpio_test (PIN direction loop : Z) : E bstate unit :=
  GPIOExport PIN;;
  (if direction =? 0
   then GPIODirection PIN true;; read_pins (Z.to_nat loop) PIN
   else GPIODirection PIN false;;
        toggle (Z.to_nat (if 0 <=? loop then loop + 1 else loop - INT_MIN + 1)) PIN loop);;
  GPIOUnexport PIN;;
  tst_resm e §"gpio_test.c" (ln 219 234) TINFO §"GPIO Tests Passed!";;
  tst_resm e §"gpio_test.c" (ln 220 235) TINFO §"GPIO Tests Done!";;
  tst_exit e.

Definition gpio_main : E bstate unit :=
  tst_parse_opts e [];;
  tst_require_root e;;
  a1 ← argv 1;
  a2 ← argv 2;
  a3 ← argv 3;
  gpio_test (atoi a1) (atoi a2) (atoi a3).
End Gpio.

(** ** eeprom_test.c *)

Definition ee_resm (line ttype : Z) (msg : cstr) : E bstate unit := tst_resm e §"eeprom_test.c" line ttype msg.

Definition EEPROM_TEST_SIZE : Z := 256.
Definition EEPROM_RDWR_LEN : Z := 32.
Definition ee_chunks : nat := 8.                     (* EEPROM_TEST_SIZE / EEPROM_RDWR_LEN *)

(** The loops that read and write: [None] when a call was too short, which was
    reported at the line. *)
Fixpoint ee_read (n : nat) (line fd : Z) (buffer : list Z) : E bstate (option (list Z)) :=
  match n with
  | O => mret (Some buffer)
  | S n =>
      r ← b_read fd EEPROM_RDWR_LEN;
      if s32 r.1 <? EEPROM_RDWR_LEN then ee_resm line TFAIL §"Read EEPROM failed ...";; mret None
      else ee_read n line fd (buffer ++ take (Z.to_nat EEPROM_RDWR_LEN) r.2)
  end.

Fixpoint ee_write (n : nat) (fd : Z) (buffer : list Z) : E bstate bool :=
  match n with
  | O => mret true
  | S n =>
      r ← b_write fd (take (Z.to_nat EEPROM_RDWR_LEN) buffer);
      if s32 r <? EEPROM_RDWR_LEN then ee_resm 119 TFAIL §"Write EEPROM failed ...";; mret false
      else ee_write n fd (drop (Z.to_nat EEPROM_RDWR_LEN) buffer)
  end.

(** The part between the allocation and [resource_free]. *)
Definition ee_compare (fd : Z) : E bstate unit :=
  ee_resm 90 TINFO §"EEPROM READ-WRITE-READ TEST:";;
  ee_resm 92 TINFO §"Read EEPROM Data 100 ";;
  buffer1 ← ee_read ee_chunks 100 fd [];
  match buffer1 with
  | None => mret tt
  | Some buffer1 =>
      ee_resm 107 TINFO §"Write EEPROM Data 100 ";;
      SEEK_SET_off fd 0;;
      ok ← ee_write ee_chunks fd buffer1;
      if negb ok then mret tt
      else
        SEEK_SET_off fd 0;;
        ee_resm 128 TINFO §"Read back EEPROM Data 100 ";;
        buffer2 ← ee_read ee_chunks 136 fd [];
        match buffer2 with
        | None => mret tt
        | Some buffer2 =>
            ee_resm 142 TINFO §"Compare EEPROM Data 100 ";;
            if bool_decide (buffer1 = buffer2) then ee_resm 149 TPASS §"EEPROM READ TEST Passed"
            else ee_resm 145 TFAIL §"Read back data mismatch Block"
        end
  end.

(** When the first allocation fails, [resource_free] reads the other pointer,
    which was never set. *)
Definition eeprom_read_write_test (eeprom_dev : cstr) : E bstate unit :=
  fd ← safe_open e §"eeprom_test.c" 69 eeprom_dev O_RDWR;
  if fd <? 0 then ee_resm 72 (Z.lor TFAIL TERRNO) (§"MTD device File open failed " ++ eeprom_dev)
  else
    ok1 ← malloc EEPROM_TEST_SIZE;
    if negb ok1 then ee_resm 79 TFAIL §"Read Buffer Memory Allocation failed ...";; undefined
    else
      ok2 ← malloc EEPROM_TEST_SIZE;
      (if negb ok2 then ee_resm 86 TFAIL §"Read Buffer Memory Allocation failed ..."
       else ee_compare fd);;
      when (0 <? fd) (b_close fd;; mret tt).

Definition eeprom_main : E bstate unit :=
  found ← tst_parse_opts e [§" "];
  let eeprom_dev := opt_arg " " found §"/sys/bus/i2c/devices/1-0057/at24-1/nvmem" in
  tst_require_root e;;
  r ← b_access eeprom_dev;
  (if r =? -1 then tst_brkm e §"eeprom_test.c" 167 TCONF (§"couldn't find eeprom device '" ++ eeprom_dev ++ §"'") else mret tt);;
  eeprom_read_write_test eeprom_dev;;
  ee_resm 173 TINFO §"EEPROM Tests Done!";;
  tst_exit e.

(** ** norflash_test.c *)

Definition nor_resm (line ttype : Z) (msg : cstr) : E bstate unit := tst_resm e §"norflash_test.c" line ttype msg.

Definition SPIMTD_DEV_FILE : cstr := §"/dev/mtd0".
Definition SPIMTD_TEST_SIZE : Z := 4.

(** [for (ei.start = 0; ei.start < SPIMTD_TEST_SIZE * erasesize; ei.start += erasesize)]
    around a body that says whether to go on; the result says whether all were done. *)
Fixpoint each_block (fuel : nat) (es start : Z) (body : Z -> E bstate bool) : E bstate bool :=
  if start <? u32 (SPIMTD_TEST_SIZE * es) then
    match fuel with
    | O => undefined
    | S fuel =>
        ok ← body start;
        if ok : bool then each_block fuel es (u32 (start + es)) body else mret false
    end
  else mret true.

(** The first reads: what they read is not used. *)
Definition nor_read1 (fd es start : Z) : E bstate bool :=
  require (start + es <=? u32 (SPIMTD_TEST_SIZE * es));;
  r ← b_read fd es;
  if u32 r.1 <? es then nor_resm 104 (Z.lor TFAIL TERRNO) (§"Read failed at offset " ++ fmt_d (s32 start));; mret false
  else mret true.

Definition nor_erase (fd es start : Z) : E bstate bool :=
  r ← ioctl fd (MEMERASE start es);
  if negb (r.1 =? 0)
  then nor_resm 115 (Z.lor TFAIL TERRNO) (§"IOCTL - MEMERASE failed st offset " ++ fmt_d (s32 start));; mret false
  else mret true.

Definition nor_write (fd es start : Z) : E bstate bool :=
  require (start + es <=? u32 (SPIMTD_TEST_SIZE * es));;
  r ← b_write fd (replicate (Z.to_nat es) 170);
  if u32 r <? es then nor_resm 128 (Z.lor TFAIL TERRNO) (§"Write failed at offset " ++ fmt_d (s32 start));; mret false
  else mret true.

(** The reads into the second buffer, which holds [buffer] when it is allocated. *)
Fixpoint nor_read2 (fuel : nat) (fd es start : Z) (buffer : list Z) : E bstate (option (list Z)) :=
  if start <? u32 (SPIMTD_TEST_SIZE * es) then
    match fuel with
    | O => undefined
    | S fuel =>
        require (start + es <=? u32 (SPIMTD_TEST_SIZE * es));;
        r ← b_read fd es;
        if u32 r.1 <? es
        then nor_resm 139 (Z.lor TFAIL TERRNO) (§"Read failed at offset " ++ fmt_d (s32 start));; mret None
        else nor_read2 fuel fd es (u32 (start + es)) (splice start (take (Z.to_nat es) r.2) buffer)
    end
  else mret (Some buffer).

(** The comparison of one round. *)
Definition nor_compare (es : Z) (buffer2 : list Z) (start : Z) : E bstate bool :=
  if bool_decide (slice es es buffer2 = replicate (Z.to_nat es) 170) then mret true
  else nor_resm 150 TFAIL (§"Read back data mismatch Block " ++ fmt_d (s32 (start / es)));; mret false.

(** The rounds: four blocks. *)
Definition nor_fuel : nat := 4.

(** The part between the allocation and [resource_free]; [junk] is what the
    memory of the second buffer happens to hold. *)
Definition nor_blocks (junk : list Z) (fd es : Z) : E bstate unit :=
  SEEK_SET_off fd 0;;
  ok ← each_block nor_fuel es 0 (nor_read1 fd es);
  if negb ok then mret tt else
  ok ← each_block nor_fuel es 0 (nor_erase fd es);
  if negb ok then mret tt else
  SEEK_SET_off fd 0;;
  ok ← each_block nor_fuel es 0 (nor_write fd es);
  if negb ok then mret tt else
  SEEK_SET_off fd 0;;
  buffer2 ← nor_read2 nor_fuel fd es 0 junk;
  match buffer2 with
  | None => mret tt
  | Some buffer2 =>
      ok ← each_block nor_fuel es 0 (nor_compare es buffer2);
      if negb ok then mret tt
      else nor_resm 155 TPASS §"SPI MTD Erase, Write and Read Test passed .......!"
  end.

Definition spidev_mtd_test (junk : list Z) (dev_name : cstr) : E bstate unit :=
  nor_resm 63 TINFO (§"Initiating Erase, Write and Read test on " ++ dev_name);;
  fd ← safe_open e §"norflash_test.c" 66 dev_name O_RDWR;
  if fd <? 0 then nor_resm 69 (Z.lor TFAIL TERRNO) (§"MTD device File open failed " ++ dev_name)
  else
    r ← ioctl fd MEMGETINFO;
    (if negb (r.1 =? 0) then nor_resm 76 (Z.lor TFAIL TERRNO) (§"IOCTL - MEMGETINFO failed for " ++ dev_name)
     else
       let es := r.2 in
       ok1 ← malloc (u32 (es * SPIMTD_TEST_SIZE));
       if negb ok1 then nor_resm 83 TFAIL §"Write Buffer Memory Allocation failed ..."
       else
         ok2 ← malloc (u32 (es * SPIMTD_TEST_SIZE));
         if negb ok2 then nor_resm 90 TFAIL §"Read Buffer Memory Allocation failed ..."
         else nor_blocks junk fd es);;
    when (0 <? fd) (b_close fd;; mret tt).

Definition norflash_main (junk : list Z) : E bstate unit :=
  tst_require_root e;;
  r ← b_access SPIMTD_DEV_FILE;
  (if r =? -1 then tst_brkm e §"norflash_test.c" 173 TFAIL (§"couldn't find spi device '" ++ SPIMTD_DEV_FILE ++ §"'") else mret tt);;
  spidev_mtd_test junk SPIMTD_DEV_FILE;;
  nor_resm 177 TINFO §"SPI MTD DEV Tests Done-----------!";;
  tst_exit e.
End Io.
