(* ===== verification/EddtsNet.v ===== *)
(** Device driver tests of eDDTs, direct memory access, sound and network:
    dma_test.c, speaker_test.c, audio_playback_test.c and eth_test.c of
    src/testsuite/rpi2evm and src/testsuite/beagleboneevm. *)
From Stdlib Require Import Ascii String ZArith Lia Bool.
From stdpp Require Import base list sets numbers.
From S2P Require Import Prelude CString TstRes Effects OldRes EddtsOS EddtsBus.

Local Open Scope Z_scope.

Definition PAGE_SIZE : Z := 4096.
Definition DMA_BASE : Z := 1056993280.               (* 0x3F007000 *)
Definition DMAENABLE : Z := 4080.
Definition DMACH (n : Z) : Z := 256 * n.
Definition DMA_CS_RESET : Z := 2147483648.
Definition DMA_CS_ACTIVE : Z := 1.
Definition DMA_CB_TI_DEST_INC : Z := 16.
Definition DMA_CB_TI_SRC_INC : Z := 256.
Definition DMA_DEBUG_FLAGS : Z := 7.                 (* read, FIFO and read-last-not-set errors *)
Definition O_SYNC : Z := 1052672.

(** The value of bytes, the lowest first. *)
Fixpoint le_val (bs : list Z) : Z :=
  match bs with [] => 0 | b :: bs => b mod 256 + 256 * le_val bs end.

(** The four bytes of a word. *)
Definition word_bytes (w : Z) : list Z := (fun k => Z.shiftr w (8 * k) mod 256) <$> [0; 1; 2; 3].

(** [%p]. *)
Definition fmt_p (a : Z) : cstr := if a =? 0 then §"(nil)" else §"0x" ++ fmt_nat 16 (u32 a).

Section Net.
Context `{Board} (e : tst_env).

(** ** dma_test.c *)

Definition dma_resm (line ttype : Z) (msg : cstr) : E bstate unit := tst_resm e §"dma_test.c" line ttype msg.
Definition dma_brkm {A} (line : Z) (msg : cstr) : E bstate A := tst_brkm e §"dma_test.c" line TCONF msg.

Definition load_reg (a : Z) : E bstate Z := sys (fun _ => EvRegLoad a) (fun b => reg_load b a).
Definition store_reg (a v : Z) : E bstate unit := sys (fun _ => EvReg a v) (fun b => (reg_store b a v, tt)).
Definition store_mem (a : Z) (bs : list Z) : E bstate unit := sys (fun _ => EvStore a bs) (fun b => (mem_store b a bs, tt)).

Definition writeBitmasked (dest mask value : Z) : E bstate unit :=
  cur ← load_reg dest;
  let new := Z.lor (Z.land cur (u32 (Z.lnot mask))) (Z.land value mask) in
  store_reg dest new;;
  store_reg dest new.

(** The virtual and the physical address of a new page, which is zeroed. *)
Definition makeVirtPhysPage : E bstate (Z * Z) :=
  virt ← sys EvAlloc valloc;
  require (negb (virt =? 0));;
  store_mem virt (replicate (Z.to_nat PAGE_SIZE) 0);;
  file ← b_open §"/proc/self/pagemap" 114;           (* 'r' *)
  (if file <? 0 then dma_brkm 183 (§"Failed to open /proc/self/pagemap" ++ [LF]) else mret tt);;
  SEEK_SET_off file (virt / PAGE_SIZE * 8);;
  r ← b_read file 8;
  (if s32 r.1 =? 8 then mret tt else dma_brkm 192 (§"Pagemap read failed" ++ [LF]));;
  let phys := u32 (le_val (take 8 r.2) * PAGE_SIZE) in
  dma_resm 199 TINFO (§"makeVirtPhysPage virtual to phys: " ++ fmt_p virt ++ §" -> " ++ fmt_p phys ++ [LF]);;
  mret (virt, phys).

Definition mapPeripheral (memfd addr : Z) : E bstate Z :=
  mapped ← sys (fun _ => EvMap addr) (fun b => mmap_ b memfd addr);
  match mapped with
  | None => dma_brkm 221 (§"Failed to map memory" ++ [LF])
  | Some p => dma_resm 225 TINFO (§"Memory mapped to " ++ fmt_p p);; mret p
  end.

Definition hello_world : cstr := §"hello world".

(** The control block: transfer information, source, destination, length, stride
    and next block. *)
Definition control_block (src dest : Z) : list Z :=
  flat_map word_bytes [Z.lor DMA_CB_TI_SRC_INC DMA_CB_TI_DEST_INC; src; dest; 12; 0; 0].

Definition page_text (virt : Z) : E bstate cstr := sys (EvText virt) (fun b => (b, mem_text b virt)).

(** The transfer on a channel of the mapped registers: what the destination
    page reads after it. *)
Definition dma_transfer (base ch : Z) (dest cb : Z * Z) : E bstate cstr :=
  writeBitmasked (base + DMAENABLE) (Z.shiftl 1 ch) (Z.shiftl 1 ch);;
  let header := base + DMACH ch in
  store_reg header DMA_CS_RESET;;
  sleep 1;;
  store_reg (header + 32) DMA_DEBUG_FLAGS;;
  store_reg (header + 4) cb.2;;
  store_reg header DMA_CS_ACTIVE;;
  sleep 1;;
  page_text dest.1.

Definition dma_main : E bstate unit :=
  found ← tst_parse_opts e [§"d:"];
  let mem_dev := opt_arg "d" found §"/dev/mem" in
  tst_require_root e;;
  dma_resm 237 TINFO §"DMA Memory Copy Tests!";;
  arg ← argv 2;
  let ch := atoi arg in
  r ← b_access mem_dev;
  (if r =? -1 then dma_brkm 260 (§"couldn't find mem device '" ++ mem_dev ++ §"'") else mret tt);;
  memfd ← safe_open e §"dma_test.c" 262 mem_dev (Z.lor O_RDWR O_SYNC);
  base ← mapPeripheral memfd DMA_BASE;
  src ← makeVirtPhysPage;
  dest ← makeVirtPhysPage;
  store_mem src.1 (chr_code <$> (hello_world ++ [NUL]));;
  cb ← makeVirtPhysPage;
  store_mem cb.1 (control_block src.2 dest.2);;
  initial ← page_text dest.1;
  dma_resm 308 TINFO (§"Initial Destination Read " ++ initial ++ [LF]);;
  require ((0 <=? ch) && (ch <? 16));;               (* the header is in the mapped page *)
  now ← dma_transfer base ch dest cb;
  dma_resm 326 TINFO (§"Now Destination Reads " ++ now ++ [LF]);;
  (if bool_decide (now = hello_world) then dma_resm 330 TFAIL §"DMA TEST Failed"
   else dma_resm 333 TPASS §"DMA TEST Passed");;
  b_close memfd;;
  dma_resm 343 TINFO §"DMA Tests Done!";;
  tst_exit e.

(** ** speaker_test.c and audio_playback_test.c *)

Definition run_popen (cmd : cstr) : E bstate (option (list Z)) := sys (EvPopen cmd) (fun b => popen b cmd).
Definition run_system (cmd : cstr) : E bstate Z := sys (EvSystem cmd) (fun b => system_ b cmd).

(** A command built by [sprintf] in an array of 1024. *)
Definition build_cmd (parts : list cstr) : E bstate cstr :=
  let cmd := join §" " parts in
  require (length cmd <? 1024)%nat;;
  mret cmd.

Definition spk_brkm {A} (line : Z) (msg : cstr) : E bstate A := tst_brkm e §"speaker_test.c" line TFAIL (msg ++ [LF]).

Definition test_speaker (argc : nat) : E bstate unit :=
  cmd ← (if (1 <? argc)%nat && (argc <? 4)%nat then
           kind ← argv 1;
           let with_count l (f : cstr -> list cstr) (msg : cstr) :=
             if (2 <? argc)%nat then n ← argv 2; build_cmd (f n) else spk_brkm l msg in
           if streq kind §"sine"
           then with_count 90 (fun n => [§"speaker-test"; §"-t"; kind; §"-f"; §"2600"; §"-l"; n]) §"Invalid Command1"
           else if streq kind §"pink"
           then with_count 107 (fun n => [§"speaker-test"; §"-t"; kind; §"-l"; n]) §"Invalid Command"
           else if streq kind §"wav"
           then with_count 125 (fun n => [§"speaker-test"; §"-t"; kind; §"-c"; §"6"; §"-l"; n]) §"Invalid Command"
           else spk_brkm 130 §"Invalid Command"
         else spk_brkm 135 §"Invalid Command");
  retVal ← run_system cmd;
  (if retVal =? -1 then spk_brkm 143 §"Command Execution Failed" else mret tt);;
  tst_resm e §"speaker_test.c" 146 TPASS §"Speaker Tests Pass!".

(** [test_init] of both files: reading from a NULL stream is undefined. *)
Definition sound_init (file : cstr) (line : Z) (loaded : E bstate unit) : E bstate unit :=
  f ← run_popen §"busybox lsmod | grep snd_bcm2835";
  match f with
  | None => undefined
  | Some [] => tst_brkm e file line TFAIL (§"Audio Module snd_bcm2835 not loaded" ++ [LF])
  | Some _ => loaded
  end.

Definition speaker_main : E bstate unit :=
  tst_parse_opts e [];;
  tst_require_root e;;
  sound_init §"speaker_test.c" 162 (mret tt);;
  test_speaker (length b_argv);;
  tst_resm e §"speaker_test.c" 179 TINFO §"Speaker Tests Done!";;
  tst_exit e.

Definition aud_resm (line ttype : Z) (msg : cstr) : E bstate unit := tst_resm e §"audio_playback_test.c" line ttype msg.

Definition test_play_file : E bstate unit :=
  alsacmd ← argv 1;
  path_to_file ← argv 2;
  cmd ← build_cmd [alsacmd; path_to_file];
  retVal ← run_system cmd;
  (if retVal =? -1 then tst_brkm e §"audio_playback_test.c" 73 TFAIL (§"Command Execution Failed" ++ [LF]) else mret tt);;
  aud_resm 76 TPASS §"Audio Playback Test Pass!".

Definition audio_main : E bstate unit :=
  tst_parse_opts e [];;
  tst_require_root e;;
  sound_init §"audio_playback_test.c" 91 (aud_resm 87 TINFO §"Audio Module Loaded!");;
  test_play_file;;
  aud_resm 108 TINFO §"Audio Playback Tests Done!";;
  tst_exit e.

(** ** eth_test.c *)

(** The lines of the beaglebone's file are 16 further. *)
Section Eth.
Context (bbb : bool).

Definition eth_line (line : Z) : Z := if bbb then line + 16 else line.
Definition eth_resm (line ttype : Z) (msg : cstr) : E bstate unit := tst_resm e §"eth_test.c" line ttype msg.
Definition eth_brkm {A} (line ttype : Z) (msg : cstr) : E bstate A := tst_brkm e §"eth_test.c" line ttype msg.

Definition b_socket : E bstate Z := sys EvSocket socket_.

(** [inet_ntoa] of the bytes of an address. *)
Definition inet_ntoa (bytes : list Z) : cstr := join §"." ((fun b => fmt_nat 10 (b mod 256)) <$> bytes).

Definition hostname_test : E bstate unit :=
  r ← sys (fun a => EvHost a.2) gethostname;
  (if r.1 =? -1 then eth_brkm (eth_line 206) TCONF §"Get Host Name Failed" else mret tt);;
  let hostbuffer := take 255 r.2 in
  ok ← sys (fun _ => EvHost hostbuffer) (fun b => gethostbyname b hostbuffer);
  (if negb ok then eth_brkm (eth_line 213) TCONF §"Get Host by Name Failed" else mret tt);;
  eth_resm (eth_line 216) TPASS (§"Hostname : " ++ hostbuffer).

Definition ipaddress_test : E bstate unit :=
  fd ← b_socket;
  (if fd <? 0 then eth_brkm (eth_line 174) TFAIL §"ipaddress_test -> Socket open failed" else mret tt);;
  ret ← ioctl fd (SIOCGIFADDR §"eth0");
  (if ret.1 =? -1 then eth_brkm (eth_line 187) TFAIL §"ipaddress_test -> IOCTL Failed" else mret tt);;
  b_close fd;;
  eth_resm (eth_line 192) TPASS (§"IPADDR : " ++ inet_ntoa (take 4 ret.2)).

Definition macaddr_test : E bstate unit :=
  fd ← b_socket;
  (if fd <? 0 then eth_brkm (eth_line 140) TFAIL §"macaddr_test -> Socket open failed" else mret tt);;
  ret ← ioctl fd (SIOCGIFHWADDR §"eth0");
  if ret.1 =? 0
  then eth_resm (eth_line 154) TPASS (§"Mac Addr is " ++ take 17 (join §":" (fmt_0x 2 <$> take 6 ret.2)))
  else eth_brkm (eth_line 157) TFAIL §"macaddr_test -> IOCTL Failed".

(** [%s]: the word and the rest. *)
Definition scan_word (s : cstr) : option (cstr * cstr) :=
  let s := dropwhile isspace s in
  match takewhile (fun c => negb (isspace c)) s with
  | [] => None
  | w => Some (w, dropwhile (fun c => negb (isspace c)) s)
  end.

(** [%lx] into a [long] of 32 bits. *)
Definition scan_lx (s : cstr) : option (Z * cstr) :=
  match strto 16 s with
  | None => None
  | Some (neg, m, r) => Some (if 4294967295 <? m then 4294967295 else if neg : bool then u32 (- m) else m, r)
  end.

(** [sscanf(buf, "%s %lx %lx", iface, &destination, &gateway)] when it gives 3. *)
Definition scan_route (buf : cstr) : option (cstr * Z * Z) :=
  match scan_word buf with
  | None => None
  | Some (iface, r) =>
      match scan_lx r with
      | None => None
      | Some (destination, r) =>
          match scan_lx r with
          | None => None
          | Some (gateway, _) => Some (iface, destination, gateway)
          end
      end
  end.

(** The loop over the lines; a name that does not fit in [iface] overruns it. *)
Fixpoint route_loop (lines : list cstr) : E bstate (cstr * Z) :=
  match lines with
  | [] => eth_brkm (eth_line 114) TFAIL §"Gateway test Failed"
  | buf :: lines =>
      require (match scan_word buf with Some (w, _) => (length w <? 16)%nat | None => true end);;
      match scan_route buf with
      | Some (iface, destination, gateway) =>
          if destination =? 0 then mret (iface, gateway) else route_loop lines
      | None => route_loop lines
      end
  end.

Definition getgatewayandiface : E bstate (cstr * Z) :=
  file ← sys (fun _ => EvFile §"/proc/net/route") (fun b => file_lines b §"/proc/net/route");
  match file with
  | None => eth_brkm (eth_line 93) TFAIL §"/proc/net/route open failed"
  | Some lines => route_loop lines
  end.

Definition gatewayaddr_test : E bstate unit :=
  r ← getgatewayandiface;
  eth_resm (eth_line 127) TPASS (§"Interface:" ++ r.1 ++ §" Gateway address: " ++ inet_ntoa (word_bytes r.2)).

Definition server_connection_test : E bstate unit :=
  sockfd ← b_socket;
  (if sockfd <? 0 then eth_brkm (eth_line 67) TFAIL §"server_connection_test-> Socket open failed" else mret tt);;
  r ← sys (EvConnect sockfd) (fun b => connect_ b sockfd);
  (if negb (r =? 0) then eth_brkm (eth_line 73) TFAIL §"Connect to server Failed" else mret tt);;
  b_close sockfd;; mret tt.

Definition DUPLEX_HALF : Z := 0.
Definition DUPLEX_FULL : Z := 1.

(** The mode to advertise. *)
Definition advertised (speed duplex : Z) : option Z :=
  if (speed =? 10) && (duplex =? DUPLEX_HALF) then Some 1
  else if (speed =? 10) && (duplex =? DUPLEX_FULL) then Some 2
  else if (speed =? 100) && (duplex =? DUPLEX_HALF) then Some 4
  else if (speed =? 100) && (duplex =? DUPLEX_FULL) then Some 8
  else None.

Definition eth_set_and_test_speed_duplex (speed duplex : Z) : E bstate Z :=
  fd ← b_socket;
  if fd <? 0 then mret (-1) else
  ret ← ioctl fd (ETHTOOL_GSET §"eth0");
  if negb (ret.1 =? 0) then mret (-1) else
  match advertised speed duplex with
  | None => mret (-1)
  | Some adv =>
      ret ← ioctl fd (ETHTOOL_SSET §"eth0" (mkEth (eth_speed ret.2) (eth_duplex ret.2) adv));
      if negb (ret.1 =? 0) then mret (-1) else
      sleep 5;;
      ret ← ioctl fd (ETHTOOL_GSET §"eth0");
      if negb (ret.1 =? 0) then mret (-1)
      else if negb (eth_speed ret.2 =? speed) || negb (eth_duplex ret.2 =? duplex) then mret (-1)
      else mret 0
  end.

Definition speed_test (line speed duplex : Z) (msg : cstr) : E bstate unit :=
  r ← eth_set_and_test_speed_duplex speed duplex;
  if r <? 0 then eth_brkm line TFAIL msg else mret tt.

Definition ethernet_speed_duplex_AN_test : E bstate unit :=
  speed_test 334 10 DUPLEX_HALF §"Speed-10 Duplex-HALF test failed";;
  speed_test 338 10 DUPLEX_FULL §"Speed-10 Duplex-FULL test failed";;
  speed_test 342 100 DUPLEX_HALF §"Speed-100 Duplex-HALF test failed";;
  speed_test 346 100 DUPLEX_FULL §"Speed-100 Duplex-FULL test failed";;
  eth_resm 349 TPASS §"Speed Test passed".

Definition eth_main : E bstate unit :=
  tst_parse_opts e [];;
  tst_require_root e;;
  hostname_test;;
  ipaddress_test;;
  macaddr_test;;
  gatewayaddr_test;;
  server_connection_test;;
  when bbb ethernet_speed_duplex_AN_test;;
  eth_resm (if bbb then 379 else 240) TPASS §"Ethernet Tests Pass!";;
  eth_resm (if bbb then 381 else 242) TINFO §"Ethernet Tests Done!";;
  tst_exit e.
End Eth.
End Net.
