(* ===== verification/EddtsLogic.v ===== *)
(** Rules for running the device driver tests: what each call does to the
    results of the test and to the record of calls. *)
From Stdlib Require Import Ascii String ZArith Lia Bool.
From stdpp Require Import base list sets numbers.
From S2P Require Import Prelude CString TstRes Effects OldRes OldResOk EddtsOS EddtsBus.

Local Open Scope Z_scope.

(** The texts that come from outside fit into the lines of the test. *)
Record short_board `{Board} : Prop := {
  sb_errno : forall b, is_int (b_errno b);
  sb_opts : forall o c a, (c, a) ∈ getopt o -> (length a <= 300)%nat;
  sb_open : forall b path oflags, is_int (open_ b path oflags).2;
  sb_argv : Forall (fun a => (length a <= 300)%nat) b_argv
}.

Section Logic.
Context `{BD : Board} (e : tst_env) (SE : short_env e) (SB : short_board).

(** The results so far, as in [lib_at]. *)
Definition at_ (n v p : Z) (s : bstate) : Prop := lib_at e n v p (lib s).

(** Only the results changed. *)
Definition same_calls (s s' : bstate) : Prop := board s' = board s /\ evs s' = evs s.

Lemma errs_short s : short_errs (mkErrs (b_errno (board s)) 0 0).
Proof. split; cbn; [apply SB|]. unfold is_int, INT_MIN, INT_MAX. lia. Qed.

Definition short_line (file : cstr) (line : Z) : Prop := short_place (Some (file, line)).

Lemma resm_runs file line ttype msg n v p Q X s :
  at_ n v p s -> short_line file line -> short_msg msg -> n < INT_MAX ->
  (forall s', same_calls s s' ->
     at_ (n + 1) (Z.lor v (TTYPE_RESULT ttype)) (if TTYPE_RESULT ttype =? TPASS then p + 1 else p) s' -> Q tt s') ->
  runs (tst_resm e file line ttype msg) Q X s.
Proof.
  intros Hat Hl Hm Hn HQ. unfold runs, tst_resm, lib_call.
  rewrite (tst_resm_eq e SE _ (Some (file, line)) _ _ (lib s) n v p (errs_short s) Hl Hm Hat). apply HQ; [done|].
  now apply resulted_at.
Qed.

Lemma brkm_place_runs {A} pl ttype msg n v p (Q : A -> bstate -> Prop) X s :
  at_ n v p s -> short_place pl -> short_msg msg -> n + 2 <= INT_MAX -> TTYPE_RESULT ttype ∈ [TFAIL; TBROK; TCONF] ->
  (forall s', same_calls s s' -> X (verdict (Z.lor v (TTYPE_RESULT ttype)) p) s') ->
  runs (lib_call (fun r => tst_brkm_ e r pl ttype None msg)) Q X s.
Proof.
  intros Hat Hp Hm Hn Ht HX. unfold runs, lib_call.
  destruct (tst_brkm_at e SE (A := A) _ pl ttype msg n v p (lib s) (errs_short s) Hp Hm Hat Hn Ht) as [t' ->].
  now apply HX.
Qed.

Lemma brkm_runs {A} file line ttype msg n v p (Q : A -> bstate -> Prop) X s :
  at_ n v p s -> short_line file line -> short_msg msg -> n + 2 <= INT_MAX -> TTYPE_RESULT ttype ∈ [TFAIL; TBROK; TCONF] ->
  (forall s', same_calls s s' -> X (verdict (Z.lor v (TTYPE_RESULT ttype)) p) s') ->
  runs (tst_brkm e file line ttype msg) Q X s.
Proof. intros Hat Hl. now apply brkm_place_runs. Qed.

Lemma exit_runs {A} n v p (Q : A -> bstate -> Prop) X s :
  at_ n v p s -> (forall s', same_calls s s' -> X (verdict v p) s') -> runs (tst_exit e) Q X s.
Proof.
  intros Hat HX. unfold runs, tst_exit, lib_call.
  destruct (tst_exit_at e SE (A := A) _ n v p (lib s) (errs_short s) Hat) as [t' ->]. now apply HX.
Qed.

Lemma sys_runs {A} (ev : A -> event) f Q X s :
  (forall b a, f (board s) = (b, a) -> Q a (mkB b (lib s) (evs s ++ [ev a]))) -> runs (sys ev f) Q X s.
Proof. intros HQ. unfold runs, sys. destruct (f (board s)) as [b a] eqn:E. now apply HQ. Qed.

Lemma gets_runs {A} (f : bstate -> A) Q X s : Q (f s) s -> runs (gets f) Q X s.
Proof. done. Qed.

(** ** The library calls that can break a test *)

Lemma root_runs n v p Q X s :
  at_ n v p s -> n + 2 <= INT_MAX ->
  (forall s', same_calls s s' -> at_ n v p s' -> geteuid (board s') = 0 -> Q tt s') ->
  (forall s', same_calls s s' -> X (verdict (Z.lor v TCONF) p) s') ->
  runs (tst_require_root e) Q X s.
Proof.
  intros Hat Hn HQ HX. unfold tst_require_root. estep. estep. unfold OldRes.tst_require_root.
  destruct (Z.eqb_spec (geteuid (board s)) 0); [now apply (HQ (set_lib (lib s) s))|].
  apply (brkm_place_runs _ TCONF _ n v p); try done; [split; unfold is_int, INT_MIN, INT_MAX; cbn; lia|
    unfold short_msg; cbn; lia|repeat constructor].
Qed.

Lemma root_ok s Q X : geteuid (board s) = 0 -> Q tt s -> runs (tst_require_root e) Q X s.
Proof.
  intros Hr HQ. unfold tst_require_root, OldRes.tst_require_root. estep. estep. rewrite Hr. destruct s. exact HQ.
Qed.

Lemma length_fmt_o z : (length (fmt_nat 8 (u32 z)) <= 11)%nat.
Proof.
  unfold fmt_nat. apply num_str_length; [lia| |lia]. pose proof (u32_range z).
  change (8 ^ Z.of_nat 11) with 8589934592. lia.
Qed.

Lemma safe_open_runs file line path oflags n v p Q X s :
  at_ n v p s -> short_line file line -> (length path <= 400)%nat -> is_int oflags -> n + 2 <= INT_MAX ->
  (forall b fd, open_ (board s) path oflags = (b, fd) -> fd <> -1 ->
     Q fd (mkB b (lib s) (evs s ++ [EvOpen path fd]))) ->
  (forall b s', open_ (board s) path oflags = (b, -1) ->
     same_calls (mkB b (lib s) (evs s ++ [EvOpen path (-1)])) s' -> X (verdict (Z.lor v TBROK) p) s') ->
  runs (safe_open e file line path oflags) Q X s.
Proof.
  intros Hat [Hf Hl] Hp Ho Hn HQ HX. unfold safe_open, b_open. estep. apply sys_runs. intros b fd E.
  destruct (Z.eqb_spec fd (-1)) as [->|]; [|now apply HQ].
  apply (brkm_place_runs _ (Z.lor TBROK TERRNO) _ n v p); try done.
  - split; unfold is_int, INT_MIN, INT_MAX; cbn; lia.
  - unfold short_msg. pose proof (length_fmt_d line Hl). pose proof (length_fmt_d oflags Ho). pose proof (length_fmt_o va_mode).
    rewrite !length_app. cbn [str list_ascii_of_string length]. lia.
  - repeat constructor.
  - intros s' Hs'. now apply (HX b).
Qed.

(** ** Options *)

Lemma opt_loop_runs table answers found Q X s :
  (forall c a, (c, a) ∈ answers -> (length a <= 300)%nat) -> (forall c a, (c, a) ∈ found -> (length a <= 300)%nat) ->
  (forall found', (forall c a, (c, a) ∈ found' -> (length a <= 300)%nat) -> Q (inr found') s) ->
  (forall msg, (length msg <= 100)%nat -> Q (inl msg) s) ->
  X 0 s -> runs (opt_loop table answers found) Q X s.
Proof.
  intros Ha Hf HQ Hm HX. revert found Hf. induction answers as [|[opt arg] answers IH]; intros found Hf; cbn [opt_loop].
  { now apply runs_ret, HQ. }
  assert (Ha' : forall c a, (c, a) ∈ answers -> (length a <= 300)%nat) by (intros c a Hin; apply (Ha c); now constructor).
  assert (Harg : (length arg <= 300)%nat) by (apply (Ha opt); constructor).
  specialize (IH Ha').
  repeat match goal with |- runs (if ceqb opt ?c then _ else _) _ _ _ => destruct (ceqb opt c) end;
    try (apply runs_ret, Hm; cbn; lia); try (now apply IH); [now apply runs_exit|].
  destruct (find_option table opt) as [o|]; [|apply runs_ret, Hm; cbn; lia].
  apply IH. set (last_c := List.last o NUL). destruct last_c as [[] [] [] [] [] [] [] []]; try done.
  all: intros c a; rewrite elem_of_app, list_elem_of_singleton; intros [Hin|[= -> ->]]; [now apply (Hf c)|done].
Qed.

Lemma opts_runs table n v p Q X s :
  at_ n v p s -> n + 2 <= INT_MAX -> Forall (fun o => (length o <= 2)%nat) table ->
  (forall found s', same_calls s s' -> at_ n v p s' ->
     (forall c a, (c, a) ∈ found -> (length a <= 300)%nat) -> Q found s') ->
  (forall s', same_calls s s' -> X 0 s') ->
  (forall s', same_calls s s' -> X (verdict (Z.lor v TBROK) p) s') ->
  runs (tst_parse_opts e table) Q X s.
Proof.
  intros Hat Hn Ht HQ H0 HX. unfold tst_parse_opts. estep.
  assert (Hbad : forall msg, (length msg <= 100)%nat ->
    runs (lib_call (fun r => tst_brkm_ e r (Some (§"tst_parse_opts.c", 35)) TBROK None (§"OPTION PARSING ERROR - " ++ msg))) Q X s).
  { intros msg Hm. apply (brkm_place_runs _ TBROK _ n v p); try done; [split; unfold is_int, INT_MIN, INT_MAX; cbn; lia| |repeat constructor].
    unfold short_msg. rewrite length_app. cbn [str list_ascii_of_string length]. lia. }
  unfold parse_opts. destruct (existsb _ table); [apply runs_ret, Hbad; cbn; lia|].
  estep. unfold malloc. apply gets_runs. destruct (malloc_ok _ _); [|apply runs_ret, Hbad; cbn; lia].
  apply opt_loop_runs.
  - intros c a. apply SB.
  - intros c a Hin. now apply elem_of_nil in Hin.
  - intros found Hf. apply runs_ret. now apply HQ.
  - exact Hbad.
  - now apply H0.
Qed.

Lemma length_opt_arg c found init :
  (forall c a, (c, a) ∈ found -> (length a <= 300)%nat) -> (length init <= 300)%nat -> (length (opt_arg c found init) <= 300)%nat.
Proof.
  intros Hf Hi. unfold opt_arg. destruct (list_find _ _) as [[i [c' a]]|] eqn:E; [|done].
  apply list_find_Some in E as (E & _ & _). apply (Hf c'). apply list_elem_of_lookup_2 in E.
  apply list_elem_of_In in E. apply in_rev in E. now apply list_elem_of_In.
Qed.

(** ** The rules on states whose calls are known *)

Section Known.
Context (n v p : Z) (l : list event) (s : bstate) (Hat : at_ n v p s) (He : evs s = l).

Lemma resm_at file line ttype msg Q X :
  short_line file line -> short_msg msg -> n < INT_MAX ->
  (forall s', board s' = board s -> evs s' = l ->
     at_ (n + 1) (Z.lor v (TTYPE_RESULT ttype)) (if TTYPE_RESULT ttype =? TPASS then p + 1 else p) s' -> Q tt s') ->
  runs (tst_resm e file line ttype msg) Q X s.
Proof. intros Hl Hm Hn HQ. apply (resm_runs _ _ _ _ n v p); try done. intros s' [H1 H2] H3. apply HQ; congruence. Qed.

Lemma sys_at {A} (ev : A -> event) f Q X :
  (forall a s', f (board s) = (board s', a) -> evs s' = l ++ [ev a] -> at_ n v p s' -> Q a s') -> runs (sys ev f) Q X s.
Proof. intros HQ. apply sys_runs. intros b a E. apply HQ; [done|cbn; congruence|done]. Qed.

Lemma log_at ev Q X :
  (forall s', board s' = board s -> evs s' = l ++ [ev] -> at_ n v p s' -> Q tt s') -> runs (log ev) Q X s.
Proof. intros HQ. unfold log. estep. apply HQ; [done|cbn; congruence|done]. Qed.

Lemma ioctl_at fd r Q X :
  (forall ret x b' s', ioctl_ (board s) fd r = (b', (ret, x)) -> board s' = b' -> evs s' = l ++ [EvIoctl fd r (s32 ret) (typed r x)] ->
     at_ n v p s' -> Q (s32 ret, typed r x) s') -> runs (ioctl fd r) Q X s.
Proof.
  intros HQ. unfold ioctl. apply sys_at. intros a s' E He' Hat'. destruct (ioctl_ (board s) fd r) as [b' [ret x]] eqn:E'.
  injection E as Eb Ea. rewrite <- Ea in *. now apply (HQ ret x b').
Qed.

Lemma opts_at table Q X :
  n + 2 <= INT_MAX -> Forall (fun o => (length o <= 2)%nat) table ->
  (forall found s', (forall c a, (c, a) ∈ found -> (length a <= 300)%nat) -> evs s' = l -> at_ n v p s' -> Q found s') ->
  (forall s', evs s' = l -> X 0 s') ->
  (forall s', evs s' = l -> X (verdict (Z.lor v TBROK) p) s') ->
  runs (tst_parse_opts e table) Q X s.
Proof.
  intros Hn Ht HQ H0 HX. apply (opts_runs _ n v p); try done.
  - intros found s' [_ E]. rewrite He in E. auto.
  - intros s' [_ E]. rewrite He in E. auto.
  - intros s' [_ E]. rewrite He in E. auto.
Qed.

Lemma root_at Q X :
  n + 2 <= INT_MAX -> (forall s', evs s' = l -> at_ n v p s' -> Q tt s') ->
  (forall s', evs s' = l -> X (verdict (Z.lor v TCONF) p) s') -> runs (tst_require_root e) Q X s.
Proof.
  intros Hn HQ HX. apply (root_runs n v p); try done.
  - intros s' [_ E] Hat' _. rewrite He in E. auto.
  - intros s' [_ E]. rewrite He in E. auto.
Qed.

Lemma open_at file line path oflags Q X :
  short_line file line -> (length path <= 400)%nat -> is_int oflags -> n + 2 <= INT_MAX ->
  (forall fd s', is_int fd -> fd <> -1 -> evs s' = l ++ [EvOpen path fd] -> at_ n v p s' -> Q fd s') ->
  (forall s', evs s' = l ++ [EvOpen path (-1)] -> X (verdict (Z.lor v TBROK) p) s') ->
  runs (safe_open e file line path oflags) Q X s.
Proof.
  intros Hl Hp Ho Hn HQ HX. apply (safe_open_runs _ _ _ _ n v p); try done.
  - intros b fd E Hfd. apply HQ; try done; [|cbn; congruence].
    pose proof (sb_open SB (board s) path oflags) as H. now rewrite E in H.
  - intros b s' _ [_ E]. apply HX. rewrite E. cbn. congruence.
Qed.

Lemma argv_at i a Q X : b_argv !! i = Some a -> Q a s -> runs (argv i) Q X s.
Proof. intros H HQ. unfold argv. rewrite H. exact HQ. Qed.
End Known.

(** ** The start of a program with a device *)

(** The descriptor of the first file that was opened. *)
Fixpoint opened (l : list event) : option Z :=
  match l with
  | [] => None
  | EvOpen _ fd :: l => if fd =? -1 then opened l else Some fd
  | _ :: l => opened l
  end.

Lemma opened_app l l' fd : opened l = Some fd -> opened (l ++ l') = Some fd.
Proof.
  induction l as [|ev l IH]; [done|]. destruct ev; cbn; try exact IH. now destruct (_ =? _).
Qed.

(** Options, rights, presence and opening of the device: the tests run on an open
    one, or the program ends before any was opened. *)
Lemma device_front file l1 ty t1 t2 l2 oflags init (rest : cstr -> Z -> E bstate unit) Q X k :
  short_line file l1 -> short_line file l2 -> is_int oflags ->
  TTYPE_RESULT ty ∈ [TFAIL; TBROK; TCONF] -> (0 < length t1 <= 100)%nat -> (length t2 <= 100)%nat -> (length init <= 300)%nat ->
  (forall dev fd r s', (length dev <= 300)%nat -> fd <> -1 -> evs s' = [EvAccess dev r; EvOpen dev fd] ->
     at_ 0 0 0 s' -> runs (rest dev fd) Q X s') ->
  (forall c s', opened (evs s') = None -> c ∈ [0; TBROK; TCONF; TTYPE_RESULT ty] -> X c s') ->
  runs (found ← tst_parse_opts e [§"d:"];
        let dev := opt_arg "d" found init in
        tst_require_root e;;
        r ← b_access dev;
        (if r =? -1 then tst_brkm e file l1 ty (t1 ++ dev ++ t2) else mret tt);;
        fd ← safe_open e file l2 dev oflags;
        rest dev fd) Q X (mkB k tst0 []).
Proof.
  intros Hl1 Hl2 Ho Hty Ht1 Ht2 Hi Hrest HX. pose proof (lib_at_tst0 e : at_ 0 0 0 (mkB k tst0 [])) as Hat.
  estep. apply (opts_at 0 0 0 [] _ Hat eq_refl); [done|repeat constructor| |intros s' E; apply HX; [now rewrite E|repeat constructor]..].
  intros found s1 Hf E1 Hat1. cbv zeta.
  pose proof (length_opt_arg "d" found init Hf Hi) as Hdev. set (dev := opt_arg "d" found init) in *.
  estep. apply (root_at 0 0 0 [] _ Hat1 E1); [done| |intros s' E; apply HX; [now rewrite E|repeat constructor]].
  intros s2 E2 Hat2.
  estep. unfold b_access. apply (sys_at 0 0 0 [] s2 Hat2 E2). intros r s3 _ E3 Hat3. cbn [app] in E3.
  estep. destruct (Z.eqb_spec r (-1)).
  { apply (brkm_runs _ _ _ _ 0 0 0); try done.
    - unfold short_msg. rewrite !length_app. lia.
    - intros s' [_ E]. apply HX; [now rewrite E, E3|]. set_unfold. destruct Hty as [->|[->| [->|[]]]]; vm_compute; tauto. }
  estep. estep. apply (open_at 0 0 0 _ _ Hat3 E3); try done; [lia| |].
  - intros fd s4 _ Hfd E4 Hat4. now apply (Hrest dev fd r).
  - intros s' E. apply HX; [now rewrite E|repeat constructor].
Qed.
End Logic.

(** ** Running a program *)

Ltac norm_at H :=
  match type of H with
  | at_ ?e ?n ?v ?p ?s =>
      let n' := eval vm_compute in n in
      let v' := eval vm_compute in v in
      let p' := eval vm_compute in p in
      change (at_ e n' v' p' s) in H
  end.

Lemma u8_int z : is_int (u8 z).
Proof. unfold u8, uwrap, is_int, INT_MIN, INT_MAX. change (2 ^ 8) with 256. pose proof (Z.mod_pos_bound z 256). lia. Qed.

(** Numbers that are [int]s, places and texts that are short. *)
Ltac solve_int :=
  first [ apply s32_range | apply u8_int | now (unfold words, is_int, INT_MIN, INT_MAX in *; lia) | assumption | split; vm_compute; discriminate ].

Ltac solve_line := split; [cbn; lia|solve_int].

Ltac solve_msg :=
  unfold short_msg; rewrite ?length_app, ?length_cons, ?length_app, ?length_take;
  repeat match goal with
  | |- context [length (fmt_d ?z)] =>
      let H := fresh in pose proof (length_fmt_d z ltac:(solve_int)) as H; generalize dependent (length (fmt_d z)); intros
  end;
  cbn [str list_ascii_of_string length] in *; lia.

(** One step of a program: the state [s] has its results in a hypothesis [at_] and
    its calls in an equation. *)
Ltac prog_step :=
  lazymatch goal with
  | |- runs (_ ≫= _) _ _ _ => apply runs_bind
  | |- runs (mret _) _ _ _ => apply runs_ret
  | |- runs (when ?b _) _ _ _ => unfold when; destruct b eqn:?
  | |- runs (if true then _ else _) _ _ _ => cbv iota
  | |- runs (if false then _ else _) _ _ _ => cbv iota
  | |- runs (if ?b then _ else _) _ _ _ => destruct b eqn:?
  | Hat : at_ ?e ?n ?v ?p ?s, He : evs ?s = ?l, SE : short_env ?e, SB : short_board |- runs (tst_resm ?e _ _ _ _) _ _ ?s =>
      apply (resm_at e SE SB n v p l s Hat He); [solve_line|solve_msg|solve_int|];
      clear Hat He; intros ? ? He Hat; norm_at Hat
  | Hat : at_ ?e ?n ?v ?p ?s, He : evs ?s = ?l, SE : short_env ?e, SB : short_board |- runs (tst_brkm ?e _ _ _ _) _ _ ?s =>
      apply (brkm_runs e SE SB _ _ _ _ n v p); [exact Hat|solve_line|solve_msg|solve_int|repeat constructor|intros ? [? ?]]
  | Hat : at_ ?e ?n ?v ?p ?s, SE : short_env ?e, SB : short_board |- runs (tst_exit ?e) _ _ ?s =>
      apply (exit_runs e SE SB n v p); [exact Hat|intros ? [? ?]]
  | Hat : at_ ?e ?n ?v ?p ?s, He : evs ?s = ?l |- runs (sys _ _) _ _ ?s =>
      apply (sys_at e n v p l s Hat He); clear Hat He; intros ? ? ? He Hat
  | Hat : at_ ?e ?n ?v ?p ?s, He : evs ?s = ?l |- runs (log _) _ _ ?s =>
      apply (log_at e n v p l s Hat He); clear Hat He; intros ? ? He Hat
  | Hat : at_ ?e ?n ?v ?p ?s, He : evs ?s = ?l, SE : short_env ?e, SB : short_board |- runs (tst_parse_opts ?e _) _ _ ?s =>
      apply (opts_at e SE SB n v p l s Hat He); [solve_int|repeat constructor; cbn; lia|clear Hat He; intros ? ? ? He Hat; cbv zeta|intros ? ?..]
  | Hat : at_ ?e ?n ?v ?p ?s, He : evs ?s = ?l, SE : short_env ?e, SB : short_board |- runs (tst_require_root ?e) _ _ ?s =>
      apply (root_at e SE SB n v p l s Hat He); [solve_int|clear Hat He; intros ? He Hat|intros ? ?]
  | Hat : at_ ?e ?n ?v ?p ?s, He : evs ?s = ?l, SE : short_env ?e, SB : short_board |- runs (safe_open ?e _ _ _ _) _ _ ?s =>
      apply (open_at e SE SB n v p l s Hat He); [solve_line|lia|solve_int|solve_int|clear Hat He; intros ? ? ? ? He Hat|intros ? ?]
  | H : b_argv !! ?i = Some ?a |- runs (argv ?i) _ _ ?s => apply (argv_at s i a); [exact H|]
  | |- runs (malloc ?n) _ _ ?s => refine (gets_runs (fun s => malloc_ok (board s) n) _ _ _ _); cbv beta; destruct (malloc_ok (board s) n) eqn:?; cbn [negb orb]
  | |- runs (b_access _) _ _ _ => unfold b_access
  | |- runs (SEEK_SET_off _ _) _ _ _ => unfold SEEK_SET_off
  | |- runs (b_open _ _) _ _ _ => unfold b_open
  | |- runs (b_read _ _) _ _ _ => unfold b_read
  | |- runs (b_write _ _) _ _ _ => unfold b_write
  | |- runs (b_close _) _ _ _ => unfold b_close
  | |- runs (sleep _) _ _ _ => unfold sleep
  | |- runs (usleep _) _ _ _ => unfold usleep
  | |- runs (match ?x with _ => _ end) _ _ _ => destruct x
  | Hat : at_ ?e ?n ?v ?p ?s, He : evs ?s = ?l |- runs ?m _ _ ?s =>
      lazymatch m with
      | ioctl ?fd ?r =>
          refine (ioctl_at e n v p l s Hat He fd r _ _ _); clear Hat He; intros ? ? ? ? ? ? He Hat; cbn [fst snd typed]
      end
  end.

(** The calls at the end of a program, and the conditions its path went by. *)
Ltac end_calls :=
  repeat match goal with H : evs ?s' = _ |- context [evs ?s'] => rewrite H end.

Ltac use_conds :=
  rewrite ?orb_false_r, ?orb_true_r, ?andb_true_r;
  repeat match goal with
  | H : negb _ = true |- _ => apply negb_true_iff in H
  | H : negb _ = false |- _ => apply negb_false_iff in H
  end;
  repeat match goal with
  | H : _ = true |- _ => rewrite H; clear H
  | H : _ = false |- _ => rewrite H; clear H
  end; cbn [negb orb andb].

Ltac solve_status := vm_compute; repeat constructor.
