(* ===== verification/EddtsBench.v ===== *)
(** A board on which every device works, for running the tests. *)
From Stdlib Require Import Ascii String ZArith Lia Bool.
From stdpp Require Import base list sets numbers.
From S2P Require Import Prelude CString TstRes Effects OldRes OldResOk EddtsOS EddtsBus EddtsLogic.

Local Open Scope Z_scope.

Definition noon : rtc_time := mkTime 58 59 11 15 5 120.

Definition bench_reply (r : request) : reply r :=
  match r with
  | WDIOC_GETTIMEOUT => 15
  | SPI_IOC_RD_MODE => 0
  | SPI_IOC_RD_BITS_PER_WORD => 8
  | SPI_IOC_RD_MAX_SPEED_HZ => 500000
  | MEMGETINFO => 16
  | SPI_IOC_MESSAGE tx _ _ _ => tx
  | SIOCGIFHWADDR _ => [184; 39; 235; 1; 2; 3]
  | SIOCGIFADDR _ => [192; 168; 7; 2]
  | RTC_RD_TIME => noon
  | RTC_ALM_READ => noon
  | ETHTOOL_GSET _ => mkEth 100 1 8
  | _ => tt
  end.

(** The state of the device that is open, what opening, seeking, reading and writing
    do to it, the arguments of the program and the answers of [ioctl]. *)
Section Device.
Context (St : Type) (opens : St -> St) (seeks : St -> Z -> St).
Context (reads : St -> Z -> St * list Z) (writes : St -> list Z -> St).
Context (args : list cstr) (ret : request -> Z).

Definition device_board : Board := {|
  bsys := St;
  b_errno := fun _ => 0;
  b_argv := args;
  getopt := fun _ => [];
  va_mode := 0;
  geteuid := fun _ => 0;
  malloc_ok := fun _ _ => true;
  access := fun b _ => (b, 0);
  open_ := fun b _ _ => (opens b, 3);
  close_ := fun b _ => (b, 0);
  lseek := fun b _ off => (seeks b off, off);
  read_ := fun b _ n => let '(b', bs) := reads b n in (b', (Z.of_nat (length bs), bs));
  write_ := fun b _ bs => (writes b bs, Z.of_nat (length bs));
  ioctl_ := fun b _ r => (b, (ret r, bench_reply r));
  select_ := fun b _ => (b, 1);
  localtime := fun b => (b, noon);
  popen := fun b _ => (b, Some [47]);
  system_ := fun b _ => (b, 0);
  readdir := fun b _ => (b, Some [§"."; §".."; §"cpu0"; §"cpufreq"]);
  gethostname := fun b => (b, (0, §"beaglebone"));
  gethostbyname := fun b _ => (b, true);
  socket_ := fun b => (b, 4);
  connect_ := fun b _ => (b, 0);
  file_lines := fun b _ => (b, Some [§"Iface Destination Gateway"; §"eth0 00000000 0107A8C0"]);
  mmap_ := fun b _ _ => (b, Some 4096);
  valloc := fun b => (b, 8192);
  mem_store := fun b _ _ => b;
  mem_text := fun _ _ => §"hello world";
  reg_load := fun b _ => (b, 0);
  reg_store := fun b _ _ => b
|}.

Lemma device_board_short : Forall (fun a => (length a <= 300)%nat) args -> @short_board device_board.
Proof.
  intros Ha. split; cbn; [intros _|intros o c a Hin; now apply elem_of_nil in Hin|intros _ _ _|done].
  all: unfold is_int, INT_MIN, INT_MAX; lia.
Qed.
End Device.

(** A memory: its contents and the offset in it. *)
Record device := mkDev { contents : list Z; offset : Z }.

Definition bench (args : list cstr) (ret : request -> Z) : Board :=
  device_board device (fun b => mkDev (contents b) 0) (fun b off => mkDev (contents b) off)
    (fun b n => let bs := slice (offset b) n (contents b) in (mkDev (contents b) (offset b + Z.of_nat (length bs)), bs))
    (fun b bs => mkDev (splice (offset b) bs (contents b)) (offset b + Z.of_nat (length bs))) args ret.

(** Every request succeeds. *)
Definition fine (r : request) : Z := match r with SPI_IOC_MESSAGE tx _ _ _ => Z.of_nat (length tx) | _ => 0 end.

Definition blank : device := mkDev (replicate 256 48) 0.

Lemma bench_short args ret : Forall (fun a => (length a <= 300)%nat) args -> @short_board (bench args ret).
Proof. apply device_board_short. Qed.

Definition bench_env : tst_env := sample_tst_env None.
Lemma bench_env_short : short_env bench_env.
Proof. apply sample_short. Qed.
