(* ===== verification/EddtsBusOk.v ===== *)
(** What the tests of the watchdog, of the clock, of the SPI bus, of the temperature
    sensor, of the USB disk and of the processors report and do, on any board. *)
From Stdlib Require Import Ascii String ZArith Lia Bool.
From stdpp Require Import base list sets numbers.
From S2P Require Import Prelude CString TstRes Effects OldRes OldResOk EddtsOS EddtsBus EddtsLogic EddtsBench.

Local Open Scope Z_scope.

(** ** The watchdog *)

(** A request that failed. *)
Definition ioctl_failed (l : list event) : bool :=
  existsb (fun ev => match ev with EvIoctl _ _ ret _ => ret =? -1 | _ => false end) l.

Section Wdt.
Context `{BD : Board} (e : tst_env) (SE : short_env e) (SB : short_board).

(** Once the device was opened, and so the watchdog started, the program ends
    with the magic character and the close; its status is that of the calls. *)
Definition wdt_stops (c : Z) (l : list event) : Prop :=
  match opened l with
  | None => c ∈ [0; TBROK; TCONF]
  | Some fd => exists pre r r', l = pre ++ [EvWrite fd [86] r; EvClose fd r'] /\
                 c = if (r =? 1) && negb (ioctl_failed pre) then 0 else TFAIL
  end.

Lemma wdt_stops_intro c l fd r r' :
  opened l = Some fd -> c = (if (r =? 1) && negb (ioctl_failed l) then 0 else TFAIL) ->
  wdt_stops c ((l ++ [EvWrite fd [86] r]) ++ [EvClose fd r']).
Proof.
  intros Ho Hc. unfold wdt_stops. rewrite <- app_assoc, (opened_app _ _ fd Ho). now exists l, r, r'.
Qed.

(** C6: Whatever the board answers, the program ends; once the watchdog was started it
    stops it again with the magic character and the close, and its status is 0 exactly
    when no request failed and the character was taken. *)
Theorem wdt_main_stops d k :
  0 <= d <= 1 ->
  exists c s, wdt_main e d (mkB k tst0 []) = Exited c s /\ wdt_stops c (evs s).
Proof.
  intros Hd. apply runs_Exited.
  apply (device_front e SE SB §"wdt_test.c" (d + 128) TCONF §"couldn't find wdt device '" §"'" (d + 131)
    (Z.lor O_RDWR O_NOCTTY) §"/dev/watchdog" (fun _ fd => wdt_tests e d fd)); try solve_line; try done; try (cbn; lia).
  - repeat constructor.
  - intros dev fd r s Hdev Hfd He Hat. unfold wdt_tests, setgetwdttimeout, refresh_wdt. cbn [refresh_loop]. unfold wdt_resm.
    assert (Ho : opened [EvAccess dev r; EvOpen dev fd] = Some fd) by (cbn; now rewrite (proj2 (Z.eqb_neq fd (-1)))).
    repeat prog_step.
    all: end_calls; apply wdt_stops_intro; [repeat apply opened_app; exact Ho|].
    all: cbn [ioctl_failed app existsb orb]; use_conds; reflexivity.
  - intros c s' Hs Hc. unfold wdt_stops. rewrite Hs. set_unfold. tauto.
Qed.
End Wdt.

Lemma wdt_main_stops_witness :
  exists c s, @wdt_main (bench [] fine) bench_env 1 (@mkB (bench [] fine) blank tst0 []) = Exited c s /\
    wdt_stops c (evs s) /\ c = 0.
Proof.
  destruct (@wdt_main_stops (bench [] fine) bench_env bench_env_short (bench_short _ _ ltac:(constructor)) 1 blank) as (c & s & E & H);
    [lia|].
  exists c, s. split; [exact E|split; [exact H|]]. vm_compute in E. now injection E as <- _.
Defined.

(** ** rtc_test.c *)

Lemma length_fmt_02 z : is_int z -> (length (fmt_02 z) <= 11)%nat.
Proof.
  intros [H1 H2]. unfold fmt_02, INT_MIN, INT_MAX in *.
  assert (Hn : forall m, 0 <= m <= 2147483648 -> (length (fmt_nat 10 m) <= 10)%nat).
  { intros m Hm. apply num_str_length; [lia| |lia]. change (10 ^ Z.of_nat 10) with 10000000000. lia. }
  destruct (Z.ltb_spec z 0); cbn [length]; rewrite length_app, length_replicate.
  - specialize (Hn (- z) ltac:(lia)). lia.
  - specialize (Hn z ltac:(lia)). lia.
Qed.

Lemma length_clock_text x : (length (clock_text (int_time x)) <= 35)%nat.
Proof.
  unfold clock_text. rewrite !length_app. cbn [int_time tm_hour tm_min tm_sec length str list_ascii_of_string].
  pose proof (length_fmt_02 (s32 (tm_hour x)) (s32_range _)). pose proof (length_fmt_02 (s32 (tm_min x)) (s32_range _)).
  pose proof (length_fmt_02 (s32 (tm_sec x)) (s32_range _)). lia.
Qed.

Section Rtc.
Context `{BD : Board} (e : tst_env) (SE : short_env e) (SB : short_board).

Lemma localtime_at n v p l s (Hat : at_ e n v p s) (He : evs s = l) Q X :
  (forall x s', evs s' = l ++ [EvTime (int_time x)] -> at_ e n v p s' -> Q (int_time x) s') -> runs b_localtime Q X s.
Proof.
  intros HQ. unfold b_localtime. apply (sys_at e n v p l s Hat He). intros a s' E.
  destruct (localtime (board s)) as [b t]. injection E as _ <-. apply HQ.
Qed.

(** The calls whose failure is a failure of the test. *)
Definition rtc_bad (ev : event) : bool :=
  match ev with
  | EvIoctl _ RTC_RD_TIME ret _ | EvIoctl _ RTC_AIE_OFF ret _ => ret =? -1
  | EvSelect ret => (ret =? -1) || (ret =? 0)
  | EvRead _ _ ret _ => ret =? -1
  | EvErrno err => negb (err =? EINVAL)
  | _ => false
  end.

(** The comparison of the clock with the system's time failed. *)
Fixpoint mismatch (l : list event) : bool :=
  match l with
  | EvIoctl _ RTC_RD_TIME _ x :: ((EvTime t :: _) as l) => negb (same_time x t) || mismatch l
  | _ :: l => mismatch l
  | [] => false
  end.

(** Once the device was opened the status is that of the calls, whatever the
    comparison says; only a difference of the clocks keeps the test from its end. *)
Definition rtc_verdict (c : Z) (l : list event) : Prop :=
  match opened l with
  | None => c ∈ [0; TBROK; TCONF]
  | Some fd => c ∈ (if existsb rtc_bad l then [TFAIL; Z.lor TFAIL TCONF] else [0]) /\
               exists pre ev, l = pre ++ [ev] /\ if mismatch l then exists t, ev = EvTime t else exists r, ev = EvClose fd r
  end.

Lemma rtc_verdict_intro c l fd ev :
  opened l = Some fd -> c ∈ (if existsb rtc_bad (l ++ [ev]) then [TFAIL; Z.lor TFAIL TCONF] else [0]) ->
  (if mismatch (l ++ [ev]) then exists t, ev = EvTime t else exists r, ev = EvClose fd r) -> rtc_verdict c (l ++ [ev]).
Proof. intros Ho Hc He. unfold rtc_verdict. rewrite (opened_app _ _ fd Ho). split; [done|]. now exists l, ev. Qed.

Ltac rtc_step :=
  match goal with
  | Hat : at_ ?e ?n ?v ?p ?s, He : evs ?s = ?l |- runs b_localtime _ _ ?s =>
      apply (localtime_at n v p l s Hat He); clear Hat He; intros ? ? He Hat
  | |- context [clock_text (int_time ?x)] => pose proof (length_clock_text x); generalize dependent (clock_text (int_time x)); intros
  end.

(** Whatever the board answers, the program ends, with the status of its calls: a
    difference of the clock and the system's time does not show in it, and only
    that difference keeps the program from closing the device. *)
Theorem rtc_main_verdict rtc_tm k :
  exists c s, rtc_main e rtc_tm (mkB k tst0 []) = Exited c s /\ rtc_verdict c (evs s).
Proof.
  apply runs_Exited.
  apply (device_front e SE SB §"rtc_test.c" 226 TCONF §"couldn't find rtc device '" §"'" 228 O_RDONLY §"/dev/rtc0"
    (fun _ fd => rtc_tests e rtc_tm fd)); try solve_line; try done; try (cbn; lia).
  - repeat constructor.
  - intros dev fd r s Hdev Hfd He Hat. unfold rtc_tests, rtc_read_test, rtc_system_time_compare_test, rtc_alarm_test, wait_alarm, rtc_errno, rtc_resm.
    assert (Ho : opened [EvAccess dev r; EvOpen dev fd] = Some fd) by (cbn; now rewrite (proj2 (Z.eqb_neq fd (-1)))).
    generalize (alarm_time rtc_tm). intros tm.
    repeat (rtc_step || prog_step).
    all: end_calls; eapply rtc_verdict_intro; [repeat apply opened_app; exact Ho| |]; cbn [app existsb rtc_bad mismatch typed].
    all: use_conds; rewrite ?orb_true_r; try reflexivity; try (eexists; reflexivity).
    all: apply list_elem_of_here || apply list_elem_of_further, list_elem_of_here.
  - intros c s' Hs Hc. unfold rtc_verdict. rewrite Hs. set_unfold. tauto.
Qed.
End Rtc.

Lemma rtc_main_verdict_witness :
  exists c s, @rtc_main (bench [] fine) bench_env noon (@mkB (bench [] fine) blank tst0 []) = Exited c s /\
    rtc_verdict c (evs s) /\ c = 0.
Proof.
  destruct (@rtc_main_verdict (bench [] fine) bench_env bench_env_short (bench_short _ _ ltac:(constructor)) noon blank)
    as (c & s & E & H).
  exists c, s. split; [exact E|split; [exact H|]]. vm_compute in E. now injection E as <- _.
Defined.

(** The seconds of the day. *)
Definition day_seconds (t : rtc_time) : Z := tm_hour t * 3600 + tm_min t * 60 + tm_sec t.

Definition valid_clock (t : rtc_time) : Prop := 0 <= tm_sec t < 60 /\ 0 <= tm_min t < 60 /\ 0 <= tm_hour t < 24.

(** The alarm is set to the time of the day five seconds later, on the same date. *)
Theorem alarm_time_later t :
  valid_clock t ->
  valid_clock (alarm_time t) /\ day_seconds (alarm_time t) = (day_seconds t + 5) mod 86400 /\
  tm_mday (alarm_time t) = tm_mday t /\ tm_mon (alarm_time t) = tm_mon t /\ tm_year (alarm_time t) = tm_year t.
Proof.
  destruct t as [sec min hour d m y]. unfold valid_clock. cbn [tm_sec tm_min tm_hour]. intros (Hs & Hm & Hh).
  unfold alarm_time, day_seconds. cbn [tm_sec tm_min tm_hour tm_mday tm_mon tm_year].
  rewrite !s32_small by (unfold INT_MIN, INT_MAX; lia).
  destruct (Z.leb_spec 60 (sec + 5)) as [H1|H1]; [destruct (Z.eqb_spec (min + 1) 60) as [H2|H2]|destruct (Z.eqb_spec min 60) as [H2|H2]; [lia|]].
  - destruct (Z.eqb_spec (hour + 1) 24) as [H3|H3]; cbn [tm_sec tm_min tm_hour tm_mday tm_mon tm_year];
      rewrite Z.rem_mod_nonneg by lia; repeat split; try (Z.to_euclidean_division_equations; lia).
  - destruct (Z.eqb_spec hour 24) as [H3|H3]; [lia|]. cbn [tm_sec tm_min tm_hour tm_mday tm_mon tm_year].
    rewrite Z.rem_mod_nonneg by lia. repeat split; try (Z.to_euclidean_division_equations; lia).
  - destruct (Z.eqb_spec hour 24) as [H3|H3]; [lia|]. cbn [tm_sec tm_min tm_hour tm_mday tm_mon tm_year].
    repeat split; try (Z.to_euclidean_division_equations; lia).
Qed.

Lemma alarm_time_later_witness :
  valid_clock noon /\ day_seconds (alarm_time noon) = 43203 /\ valid_clock (alarm_time noon).
Proof.
  destruct (alarm_time_later noon) as (H & E & _); [unfold valid_clock, noon; cbn; lia|].
  split; [unfold valid_clock, noon; cbn; lia|]. rewrite E. split; [reflexivity|exact H].
Defined.

(** ** spidev_test.c *)

Section Spi.
Context `{BD : Board} (e : tst_env) (SE : short_env e) (SB : short_board).

(** A parameter that could not be set or read back. *)
Definition spi_param_failed (ev : event) : bool :=
  match ev with
  | EvIoctl _ (SPI_IOC_MESSAGE _ _ _ _) _ _ => false
  | EvIoctl _ _ ret _ => ret =? -1
  | _ => false
  end.

(** A transfer of the hundred bytes that gave them back. *)
Definition looped_back (ev : event) : bool :=
  match ev with
  | EvIoctl _ (SPI_IOC_MESSAGE tx _ _ _) ret rx => negb (ret <? 1) && bool_decide (tx = tx_data) && bool_decide (take (Z.to_nat words) rx = tx_data)
  | _ => false
  end.

(** Once the device was opened, the test passes exactly when the parameters were
    accepted and the data came back. *)
Definition spi_verdict (c : Z) (l : list event) : Prop :=
  match opened l with
  | None => c ∈ [0; TFAIL; TBROK; TCONF]
  | Some fd => c = if existsb looped_back l && negb (existsb spi_param_failed l) then 0 else TFAIL
  end.

Lemma spi_verdict_intro c l fd :
  opened l = Some fd -> c = (if existsb looped_back l && negb (existsb spi_param_failed l) then 0 else TFAIL) -> spi_verdict c l.
Proof. intros Ho Hc. unfold spi_verdict. now rewrite Ho. Qed.

(** Whatever the board answers, the program ends, and it passes exactly when no
    parameter was refused and the hundred bytes came back. *)
Theorem spi_main_verdict default_dev d k :
  (length default_dev <= 300)%nat -> 0 <= d <= 1 ->
  exists c s, spi_main e default_dev d (mkB k tst0 []) = Exited c s /\ spi_verdict c (evs s).
Proof.
  intros Hdd Hd. apply runs_Exited.
  apply (device_front e SE SB §"spidev_test.c" (d + 210) TFAIL §"couldn't find spi device '" §"'" (d + 212) O_RDWR default_dev
    (fun dev fd => spi_tests e d dev fd)); try solve_line; try done; try (cbn; lia).
  - repeat constructor.
  - intros dev fd r s Hdev Hfd He Hat. unfold spi_tests, set_get_spi_params, loopback_test, spi_resm. cbv zeta.
    assert (Ho : opened [EvAccess dev r; EvOpen dev fd] = Some fd) by (cbn; now rewrite (proj2 (Z.eqb_neq fd (-1)))).
    repeat (prog_step; cbn [spi_mode spi_bits spi_speed]).
    all: end_calls; apply (spi_verdict_intro _ _ fd); [repeat apply opened_app; exact Ho|].
    all: cbn [app existsb looped_back spi_param_failed typed]; rewrite ?(bool_decide_eq_true_2 (tx_data = tx_data) eq_refl).
    all: use_conds; try reflexivity.
  - intros c s' Hs Hc. unfold spi_verdict. rewrite Hs. set_unfold. tauto.
Qed.
End Spi.

Lemma spi_main_verdict_witness :
  exists c s, @spi_main (bench [] fine) bench_env §"/dev/spidev0.0" 1 (@mkB (bench [] fine) blank tst0 []) = Exited c s /\
    spi_verdict c (evs s) /\ c = 0.
Proof.
  destruct (@spi_main_verdict (bench [] fine) bench_env bench_env_short (bench_short _ _ ltac:(constructor)) §"/dev/spidev0.0" 1 blank)
    as (c & s & E & H); [cbn; lia|lia|].
  exists c, s. split; [exact E|split; [exact H|]]. vm_compute in E. now injection E as <- _.
Defined.

(** ** The number of the sensor *)

(** The sensor's twelve bits, left aligned in two bytes, as a signed number of
    sixteenths of a degree. *)
Definition sixteenths (b0 b1 : Z) : Z :=
  let t := (b0 * 256 + b1) / 16 in if 2048 <=? t then t - 4096 else t.

Lemma temperature_bits b0 b1 :
  0 <= b0 < 256 -> 0 <= b1 < 256 -> Z.shiftr (Z.lor (Z.shiftl b0 8) b1) 4 = (b0 * 256 + b1) / 16.
Proof.
  intros H0 H1. rewrite Z.shiftr_div_pow2 by lia. change (2 ^ 4) with 16. f_equal.
  rewrite <- Z.add_lor_land, Z.shiftl_mul_pow2 by lia. change (2 ^ 8) with 256.
  replace (Z.land (b0 * 256) b1) with 0; [lia|].
  symmetry. apply Z.bits_inj'. intros n Hn. rewrite Z.land_spec, Z.bits_0.
  change 256 with (2 ^ 8). destruct (Z.lt_ge_cases n 8).
  - now rewrite Z.mul_pow2_bits_low by lia.
  - rewrite (Z.bits_above_log2 b1), andb_false_r; [done|lia|].
    destruct (Z.eq_dec b1 0) as [->|]; [cbn; lia|]. apply Z.log2_lt_pow2; [lia|].
    apply Z.lt_le_trans with (2 ^ 8); [cbn; lia|]. apply Z.pow_le_mono_r; lia.
Qed.

(** The sign extension on every twelve bits. *)
Lemma sign_extend t :
  0 <= t < 4096 ->
  (if negb (Z.land t (Z.shiftl 1 11) =? 0) then Z.lor t 63488 else t) =
  let s := if 2048 <=? t then t - 4096 else t in s + if s <? 0 then 65536 else 0.
Proof.
  intros Ht.
  assert (H : forallb (fun n => let t := Z.of_nat n in
    (if negb (Z.land t (Z.shiftl 1 11) =? 0) then Z.lor t 63488 else t) =?
    (let s := if 2048 <=? t then t - 4096 else t in s + if s <? 0 then 65536 else 0)) (seq 0 4096) = true) by (vm_compute; reflexivity).
  rewrite forallb_forall in H. specialize (H (Z.to_nat t)). cbv beta in H. rewrite Z2Nat.id in H by lia.
  apply Z.eqb_eq, H. apply in_seq. lia.
Qed.

(** A temperature below zero is given 65536 sixteenths, 4096 degrees, too much; one
    that is not is given as the sensor has it. *)
Theorem temperature_sensor b0 b1 :
  0 <= b0 < 256 -> 0 <= b1 < 256 ->
  temperature b0 b1 = sixteenths b0 b1 + if sixteenths b0 b1 <? 0 then 65536 else 0.
Proof.
  intros H0 H1. unfold temperature, sixteenths. rewrite temperature_bits by done. cbv zeta.
  set (t := (b0 * 256 + b1) / 16). assert (Ht : 0 <= t < 4096) by (subst t; Z.to_euclidean_division_equations; lia).
  exact (sign_extend t Ht).
Qed.

Lemma temperature_sensor_witness : temperature 25 128 = 408 /\ temperature 231 0 = sixteenths 231 0 + 65536.
Proof.
  split; [rewrite (temperature_sensor 25 128) by lia; reflexivity|].
  rewrite (temperature_sensor 231 0) by lia. reflexivity.
Defined.

Lemma temperature_bound b0 b1 : 0 <= b0 < 256 -> 0 <= b1 < 256 -> 0 <= temperature b0 b1 < 65536.
Proof.
  intros H0 H1. unfold temperature. rewrite temperature_bits by done. cbv zeta.
  assert (Ht : 0 <= (b0 * 256 + b1) / 16 < 4096) by (Z.to_euclidean_division_equations; lia).
  rewrite (sign_extend _ Ht). cbv zeta. repeat case_match; rewrite ?Z.ltb_lt, ?Z.ltb_ge, ?Z.leb_le, ?Z.leb_gt in *; lia.
Qed.

Lemma length_degrees_text b0 b1 : (length (degrees_text (temperature (u8 b0) (u8 b1))) <= 12)%nat.
Proof.
  pose proof (temperature_bound (u8 b0) (u8 b1) (Z.mod_pos_bound _ 256 ltac:(lia)) (Z.mod_pos_bound _ 256 ltac:(lia))) as H.
  set (t := temperature _ _) in *. clearbody t. unfold degrees_text. rewrite !length_app, length_replicate.
  assert (H1 : (length (fmt_nat 10 (t / 16)) <= 4)%nat)
    by (apply num_str_length; [lia|change (10 ^ Z.of_nat 4) with 10000; Z.to_euclidean_division_equations; lia|lia]).
  assert (H2 : (length (fmt_nat 10 (t mod 16 * 625)) <= 4)%nat)
    by (apply num_str_length; [lia|change (10 ^ Z.of_nat 4) with 10000; Z.to_euclidean_division_equations; lia|lia]).
  cbn [length str list_ascii_of_string]. lia.
Qed.

(** ** temp_sensor_test.c *)

Section Temp.
Context `{BD : Board} (e : tst_env) (SE : short_env e) (SB : short_board).
Context (prog i2c_dev addr : cstr) (more : list cstr) (Hargv : b_argv = prog :: i2c_dev :: addr :: more).

Definition is_read (ev : event) : bool := match ev with EvRead _ _ _ _ => true | _ => false end.
Definition full_read (ev : event) : bool := match ev with EvRead _ _ ret _ => s32 ret =? 2 | _ => false end.
Definition close_failed (ev : event) : bool := match ev with EvClose _ ret => negb (ret =? 0) | _ => false end.

(** Once the bus was opened, the test reads at most three times and passes exactly
    when one of the reads gave the two bytes and no
    close before the last failed. *)
Definition temp_verdict (c : Z) (l : list event) : Prop :=
  (length (List.filter is_read l) <= 3)%nat /\
  match opened l with
  | None => c ∈ [0; TFAIL; TBROK; TCONF]
  | Some fd => if existsb full_read l then exists pre r, l = pre ++ [EvClose fd r] /\ c = (if existsb close_failed pre then TWARN else 0)
               else c ∈ [TFAIL; TBROK]
  end.

Lemma temp_none_intro c l : opened l = None -> (length (List.filter is_read l) <= 3)%nat -> c ∈ [0; TFAIL; TBROK; TCONF] -> temp_verdict c l.
Proof. intros Ho Hr Hc. unfold temp_verdict. now rewrite Ho. Qed.

Lemma temp_fail_intro c l fd :
  opened l = Some fd -> (length (List.filter is_read l) <= 3)%nat -> existsb full_read l = false -> c ∈ [TFAIL; TBROK] -> temp_verdict c l.
Proof. intros Ho Hr Hf Hc. unfold temp_verdict. now rewrite Ho, Hf. Qed.

Lemma temp_pass_intro c l fd r :
  opened l = Some fd -> (length (List.filter is_read (l ++ [EvClose fd r])) <= 3)%nat -> existsb full_read (l ++ [EvClose fd r]) = true ->
  c = (if existsb close_failed l then TWARN else 0) -> temp_verdict c (l ++ [EvClose fd r]).
Proof. intros Ho Hr Hf Hc. unfold temp_verdict. rewrite (opened_app _ _ fd Ho), Hf. split; [done|]. now exists l, r. Qed.

Lemma two_bytes l : exists b0 b1 r, u8 <$> (l ++ [0; 0]) = u8 b0 :: u8 b1 :: r.
Proof. destruct l as [|b0 [|b1 l]]; cbn; eauto. Qed.

Ltac temp_step :=
  match goal with
  | |- context [degrees_text (temperature (u8 ?x) (u8 ?y))] =>
      pose proof (length_degrees_text x y); generalize dependent (degrees_text (temperature (u8 x) (u8 y))); intros
  | |- runs (match u8 <$> (?l ++ [0; 0]) with _ => _ end) _ _ _ => destruct (two_bytes l) as (? & ? & ? & ->)
  end.

(** Whatever the board answers, the program ends after at most three reads, and
    passes exactly when one of them gave the two bytes. *)
Theorem temp_main_verdict k :
  exists c s, temp_main e (mkB k tst0 []) = Exited c s /\ temp_verdict c (evs s).
Proof.
  apply runs_Exited. pose proof (lib_at_tst0 e : at_ e 0 0 0 (mkB k tst0 [])) as Hat.
  assert (He : evs (mkB k tst0 []) = []) by done.
  assert (Hl : (length i2c_dev <= 300)%nat) by (pose proof (sb_argv SB) as H; rewrite Hargv in H; now inversion_clear H as [|? ? _ H']; inversion_clear H').
  assert (H1 : b_argv !! 1%nat = Some i2c_dev) by now rewrite Hargv. assert (H2 : b_argv !! 2%nat = Some addr) by now rewrite Hargv.
  unfold temp_main, temp_init, i2c_read_temp, i2c_cleanup, SAFE_IOCTL, rtc_errno. cbn [read_loop].
  change (0 <? 0) with false. change (0 <? 0 + 1) with true. change (0 <? 0 + 1 + 1) with true. unfold when at 1 2 3.
  change (0 + 1 =? 3) with false. change (0 + 1 + 1 =? 3) with false. change (0 + 1 + 1 + 1 =? 3) with true. cbv iota.
  repeat (temp_step || prog_step).
  all: repeat match goal with H : _ <> -1 |- _ => apply Z.eqb_neq in H end; end_calls.
  all: first [ eapply temp_pass_intro | eapply temp_fail_intro; [cbn [app opened]; use_conds; reflexivity|..] | eapply temp_none_intro ].
  all: try (cbn; lia); cbn [app opened existsb full_read close_failed]; use_conds; rewrite ?orb_true_r; try reflexivity; solve_status.
Qed.
End Temp.

Definition sensor_args : list cstr := [§"temp_sensor_test"; §"/dev/i2c-1"; §"48"].

Lemma sensor_args_short ret : @short_board (bench sensor_args ret).
Proof. apply bench_short. repeat constructor; cbn; lia. Qed.

Lemma temp_main_verdict_witness :
  exists c s, @temp_main (bench sensor_args fine) bench_env (@mkB (bench sensor_args fine) blank tst0 []) = Exited c s /\
    temp_verdict c (evs s) /\ c = 0.
Proof.
  destruct (@temp_main_verdict (bench sensor_args fine) bench_env bench_env_short (sensor_args_short fine)
    §"temp_sensor_test" §"/dev/i2c-1" §"48" [] eq_refl blank) as (c & s & E & H).
  exists c, s. split; [exact E|split; [exact H|]]. vm_compute in E. now injection E as <- _.
Defined.

(** ** usb_test.c and cpu_core_test.c *)

Section Small.
Context `{BD : Board} (e : tst_env) (SE : short_env e) (SB : short_board).

(** The USB test fails when the command that looks for the disk writes nothing, and
    passes when it writes something, and also when it cannot be run. *)
Definition usb_verdict (c : Z) (l : list event) : Prop :=
  match l with
  | [EvPopen _ out] => c = match out with Some [] => TFAIL | _ => 0 end
  | _ => l = [] /\ c ∈ [0; TBROK; TCONF]
  end.

(** The status of the USB test, whatever the board answers. *)
Theorem usb_main_verdict k :
  exists c s, usb_main e (mkB k tst0 []) = Exited c s /\ usb_verdict c (evs s).
Proof.
  apply runs_Exited. pose proof (lib_at_tst0 e : at_ e 0 0 0 (mkB k tst0 [])) as Hat.
  assert (He : evs (mkB k tst0 []) = []) by done. unfold usb_main.
  repeat prog_step; end_calls; first [reflexivity|split; [reflexivity|solve_status]].
Qed.

(** The number of processors has no part in the status of its test. *)
Definition cpu_verdict (c : Z) (l : list event) : Prop :=
  match l with
  | [EvDir _ names] => c = match names with Some _ => 0 | None => TCONF end
  | _ => l = [] /\ c ∈ [0; TBROK; TCONF]
  end.

(** Whatever number of processors is expected and found, the test does not fail. *)
Theorem cpu_main_verdict cores d k :
  -2 <= d <= 0 -> exists c s, cpu_main e cores d (mkB k tst0 []) = Exited c s /\ cpu_verdict c (evs s).
Proof.
  intros Hd. apply runs_Exited. pose proof (lib_at_tst0 e : at_ e 0 0 0 (mkB k tst0 [])) as Hat.
  assert (He : evs (mkB k tst0 []) = []) by done. unfold cpu_main.
  repeat prog_step; end_calls; first [reflexivity|split; [reflexivity|solve_status]].
Qed.
End Small.

Lemma usb_main_verdict_witness :
  exists c s, @usb_main (bench [] fine) bench_env (@mkB (bench [] fine) blank tst0 []) = Exited c s /\ usb_verdict c (evs s) /\ c = 0.
Proof.
  destruct (@usb_main_verdict (bench [] fine) bench_env bench_env_short (bench_short _ _ ltac:(constructor)) blank) as (c & s & E & H).
  exists c, s. split; [exact E|split; [exact H|]]. vm_compute in E. now injection E as <- _.
Defined.

Lemma cpu_main_verdict_witness :
  exists c s, @cpu_main (bench [] fine) bench_env 4 (-2) (@mkB (bench [] fine) blank tst0 []) = Exited c s /\ cpu_verdict c (evs s) /\ c = 0.
Proof.
  destruct (@cpu_main_verdict (bench [] fine) bench_env bench_env_short (bench_short _ _ ltac:(constructor)) 4 (-2) blank) as (c & s & E & H);
    [lia|].
  exists c, s. split; [exact E|split; [exact H|]]. vm_compute in E. now injection E as <- _.
Defined.
