(* ===== verification/EddtsEeprom.v ===== *)
(** The EEPROM test: when it passes, and that it leaves the contents of the memory as
    they were. *)
From Stdlib Require Import Ascii String ZArith Lia Bool.
From stdpp Require Import base list sets numbers.
From S2P Require Import Prelude CString TstRes Effects OldRes OldResOk EddtsOS EddtsBus EddtsIo EddtsLogic EddtsBench.

Local Open Scope Z_scope.

(** What [read] and [malloc] promise: the number of bytes that were read, at most
    those that were asked for, and memory. *)
Class Reads `{Board} : Prop := {
  reads_at_most : forall b fd n, 0 <= n <= INT_MAX -> INT_MIN <= (read_ b fd n).2.1 <= n;
  reads_bytes : forall b fd n, 0 <= (read_ b fd n).2.1 -> Z.of_nat (length (read_ b fd n).2.2) = (read_ b fd n).2.1;
  has_memory : forall b n, malloc_ok b n = true
}.

Section Eeprom.
Context `{BD : Board} (e : tst_env) (SE : short_env e) (SB : short_board) {RD : Reads}.

Definition chunk (bs : list Z) : Prop := length bs = 32%nat.

Definition read_chunk (fd : Z) (bs : list Z) : event := EvRead fd 32 32 bs.

Lemma ee_read_at n line fd buffer N V p l s Q X :
  at_ e N V p s -> evs s = l -> is_int line -> N < INT_MAX ->
  (forall bss s', length bss = n -> Forall chunk bss -> evs s' = l ++ (read_chunk fd <$> bss) -> at_ e N V p s' ->
     Q (Some (buffer ++ concat bss)) s') ->
  (forall l' s', evs s' = l ++ l' -> at_ e (N + 1) (Z.lor V TFAIL) p s' -> Q None s') ->
  runs (ee_read e n line fd buffer) Q X s.
Proof.
  intros Hat He Hline HN. revert buffer l s Hat He. induction n as [|n IH]; intros buffer l s Hat He HQ HN'; cbn [ee_read].
  { apply runs_ret. rewrite <- (app_nil_r buffer). apply (HQ []); try done. now rewrite app_nil_r. }
  prog_step. unfold b_read. apply (sys_at e N V p l s Hat He). intros [ret bs] s' E He' Hat'. cbn [fst snd] in *.
  pose proof (reads_at_most (board s) fd EEPROM_RDWR_LEN ltac:(done)) as H1.
  pose proof (reads_bytes (board s) fd EEPROM_RDWR_LEN) as H2. rewrite E in H1, H2. cbn [fst snd] in *.
  unfold EEPROM_RDWR_LEN in *. rewrite s32_small by (unfold INT_MIN, INT_MAX in *; lia). destruct (Z.ltb_spec ret 32).
  - prog_step. apply (resm_at e SE SB N V p _ s' Hat' He'); [split; [cbn; lia|done]|solve_msg|lia|].
    intros s2 _ He2 Hat2. prog_step. apply (HN' _ s2 He2). exact Hat2.
  - assert (ret = 32) by lia. subst ret. assert (Hbs : length bs = 32%nat) by lia.
    apply (IH _ _ s' Hat' He').
    + intros bss s2 Hn Hf He2 Hat2. rewrite <- app_assoc. replace (take (Z.to_nat 32) bs) with bs by (symmetry; apply take_ge; lia).
      apply (HQ (bs :: bss)); [cbn; lia|now constructor| |done]. now rewrite He2, <- app_assoc.
    + intros l' s2 He2. apply (HN' (EvRead fd 32 32 bs :: l')). now rewrite He2, <- app_assoc.
Qed.

Lemma ee_write_at fd bss N V p l s Q X :
  at_ e N V p s -> evs s = l -> N < INT_MAX -> Forall chunk bss ->
  (forall rs s', length rs = length bss -> evs s' = l ++ zip_with (EvWrite fd) bss rs -> at_ e N V p s' -> Q true s') ->
  (forall l' s', evs s' = l ++ l' -> at_ e (N + 1) (Z.lor V TFAIL) p s' -> Q false s') ->
  runs (ee_write e (length bss) fd (concat bss)) Q X s.
Proof.
  intros Hat He HN Hf. revert l s Hat He. induction Hf as [|bs bss Hbs Hf IH]; intros l s Hat He HQ HF; cbn [ee_write length concat].
  { apply runs_ret. apply (HQ []); try done. now rewrite app_nil_r. }
  unfold chunk in Hbs. rewrite take_app_length' by (rewrite Hbs; done). rewrite drop_app_length' by (rewrite Hbs; done).
  prog_step. unfold b_write. apply (sys_at e N V p l s Hat He). intros r s' _ He' Hat'.
  destruct (Z.ltb_spec (s32 r) EEPROM_RDWR_LEN).
  - prog_step. apply (resm_at e SE SB N V p _ s' Hat' He'); [solve_line|solve_msg|lia|].
    intros s2 _ He2 Hat2. prog_step. apply (HF _ s2 He2). exact Hat2.
  - apply (IH _ s' Hat' He').
    + intros rs s2 Hn He2 Hat2. apply (HQ (r :: rs)); [cbn; lia| |done]. now rewrite He2, <- app_assoc.
    + intros l' s2 He2. apply (HF (EvWrite fd bs r :: l')). now rewrite He2, <- app_assoc.
Qed.

Lemma concat_chunks bss bss' : Forall chunk bss -> Forall chunk bss' -> length bss = length bss' -> concat bss = concat bss' -> bss = bss'.
Proof.
  intros Hf. revert bss'. induction Hf as [|bs bss Hbs Hf IH]; intros [|bs' bss'] Hf' Hl E; try done.
  inversion_clear Hf' as [|? ? Hbs' Hf'']. cbn in E. apply app_inj_1 in E as [-> E]; [|now rewrite Hbs, Hbs'].
  f_equal. apply IH; [done|now injection Hl|done].
Qed.

(** A test that passed: it read the memory, wrote back to each place what it had read
    there and read the same again. *)
Definition ee_passed (fd : Z) (l : list event) : Prop :=
  exists pre bss rs post, length bss = 8%nat /\ length rs = 8%nat /\ Forall chunk bss /\
    l = pre ++ (read_chunk fd <$> bss) ++ [EvSeek fd 0] ++ zip_with (EvWrite fd) bss rs ++ [EvSeek fd 0] ++
        (read_chunk fd <$> bss) ++ post.

Definition ee_verdict (c : Z) (l : list event) : Prop :=
  match opened l with
  | None => c ∈ [0; TBROK; TCONF]
  | Some fd => c = TFAIL \/ c = 0 /\ ee_passed fd l
  end.

(** The calls after the open, and the results. *)
Definition ee_done (fd : Z) (l : list event) (s : bstate) : Prop :=
  exists l' n v p, evs s = l ++ l' /\ 0 <= n <= 10 /\ at_ e n v p s /\
    (v = Z.lor TINFO TFAIL \/ v = TINFO /\ p = 1 /\ ee_passed fd (l ++ l')).

Lemma ee_failed fd l l' n p s : evs s = l ++ l' -> 0 <= n <= 10 -> at_ e n (Z.lor TINFO TFAIL) p s -> ee_done fd l s.
Proof. intros He Hn Hat. exists l', n, (Z.lor TINFO TFAIL), p. auto. Qed.

Lemma ee_compare_at fd l s Q X :
  at_ e 0 0 0 s -> evs s = l -> (forall s', ee_done fd l s' -> Q tt s') -> runs (ee_compare e fd) Q X s.
Proof.
  intros Hat He HQ. unfold ee_compare, ee_resm. repeat prog_step.
  eapply (ee_read_at ee_chunks); [exact Hat|exact He|solve_int|done| |intros l' s1 He1 Hat1; prog_step; apply HQ; now eapply ee_failed; [exact He1| |exact Hat1]].
  clear Hat He. intros bss t1 Hn Hf He Hat. repeat prog_step. cbn [app].
  rewrite <- Hn. eapply (ee_write_at fd bss); [exact Hat|exact He|done|exact Hf| |intros l' s1 He1 Hat1; cbn [negb]; repeat prog_step;
    apply HQ; rewrite <- !app_assoc in He1; now eapply ee_failed; [exact He1| |exact Hat1]].
  clear Hat He. intros rs t2 Hr He Hat. cbn [negb]. repeat prog_step.
  rewrite Hn. eapply (ee_read_at ee_chunks); [exact Hat|exact He|solve_int|done| |intros l' s1 He1 Hat1; prog_step;
    apply HQ; rewrite <- !app_assoc in He1; now eapply ee_failed; [exact He1| |exact Hat1]].
  clear Hat He. intros bss' t3 Hn' Hf' He Hat. prog_step. prog_step. rewrite <- !app_assoc in He. cbn [app] in *.
  destruct (bool_decide_reflect (concat bss = concat bss')) as [Hc|Hc]; prog_step; apply HQ.
  - apply concat_chunks in Hc; [|done..|congruence]. subst bss'.
    exists ((read_chunk fd <$> bss) ++ [EvSeek fd 0] ++ zip_with (EvWrite fd) bss rs ++ [EvSeek fd 0] ++ (read_chunk fd <$> bss)), 6, TINFO, 1.
    split; [now rewrite He|]. split; [lia|]. split; [exact Hat|]. right. split; [done|]. split; [done|].
    exists l, bss, rs, []. rewrite app_nil_r. unfold ee_chunks in *. repeat split; try done; congruence.
  - now eapply ee_failed; [exact He| |exact Hat].
Qed.

Lemma ee_passed_app fd l l' : ee_passed fd l -> ee_passed fd (l ++ l').
Proof.
  intros (pre & bss & rs & post & H1 & H2 & H3 & ->). exists pre, bss, rs, (post ++ l'). split_and!; try done.
  now rewrite <- !app_assoc.
Qed.

(** The close and the end of the program. *)
Lemma ee_end fd l s :
  opened l = Some fd -> ee_done fd l s ->
  runs (when (0 <? fd) (b_close fd;; mret tt)) (fun _ s' =>
    runs (ee_resm e 173 TINFO §"EEPROM Tests Done!";; tst_exit e) (fun (_ : unit) _ => False) (fun c s' => ee_verdict c (evs s')) s')
    (fun c s' => ee_verdict c (evs s')) s.
Proof.
  intros Ho (l' & n & v & p & He & Hn & Hat & Hv). unfold ee_resm.
  assert (Hend : forall l2 s', evs s' = (l ++ l') ++ l2 -> at_ e n v p s' ->
    runs (tst_resm e §"eeprom_test.c" 173 TINFO §"EEPROM Tests Done!";; tst_exit e) (fun (_ : unit) _ => False) (fun c s' => ee_verdict c (evs s')) s').
  { intros l2 s' He' Hat'. prog_step.
    apply (resm_at e SE SB n v p _ s' Hat' He'); [solve_line|solve_msg|unfold INT_MAX; lia|]. intros s2 _ He2 Hat2.
    apply (exit_runs e SE SB _ _ _ _ _ _ Hat2). intros s3 [_ E]. rewrite E, He2. unfold ee_verdict.
    rewrite <- app_assoc, (opened_app _ _ fd Ho), app_assoc.
    destruct Hv as [->|(-> & -> & Hp)]; [left; reflexivity|right]. split; [reflexivity|now apply ee_passed_app]. }
  unfold when. destruct (0 <? fd).
  - do 4 prog_step. eapply Hend; [exact He|exact Hat].
  - prog_step. apply (Hend []); [now rewrite app_nil_r|exact Hat].
Qed.

(** The test fails, or it passes and every byte it wrote is the one it had read at
    that place. *)
Theorem eeprom_main_verdict k :
  exists c s, eeprom_main e (mkB k tst0 []) = Exited c s /\ ee_verdict c (evs s).
Proof.
  apply runs_Exited. pose proof (lib_at_tst0 e : at_ e 0 0 0 (mkB k tst0 [])) as Hat.
  assert (He : evs (mkB k tst0 []) = []) by done.
  unfold eeprom_main, eeprom_read_write_test. prog_step.
  prog_step; [|end_calls; solve_status..]. rename H into Hf.
  pose proof (length_opt_arg " " found §"/sys/bus/i2c/devices/1-0057/at24-1/nvmem" Hf ltac:(cbn; lia)) as Hdev.
  set (dev := opt_arg _ _ _) in *. clearbody dev.
  repeat prog_step;
    try match goal with H : malloc_ok _ _ = false |- _ => rewrite has_memory in H; discriminate H end.
  - end_calls. unfold ee_verdict. solve_status.
  - unfold ee_resm. repeat prog_step. end_calls. unfold ee_verdict. cbn [app opened]. rewrite (proj2 (Z.eqb_neq fd (-1))) by done. now left.
  - eapply (ee_compare_at fd _ _ _ _ Hat He). intros s Hs. refine (ee_end fd _ s _ Hs). cbn. now rewrite (proj2 (Z.eqb_neq fd (-1))).
  - end_calls. unfold ee_verdict. solve_status.
  - end_calls. unfold ee_verdict. solve_status.
Qed.
End Eeprom.

(** ** A memory *)

(** A board with a device that keeps what is written to it. *)
Class Memory `{Board} := {
  mem : bsys -> list Z;
  pos : bsys -> Z;
  mem_read b fd n : 0 <= n -> 0 <= pos b -> pos b + n <= Z.of_nat (length (mem b)) ->
    exists b', read_ b fd n = (b', (n, slice (pos b) n (mem b))) /\ mem b' = mem b /\ pos b' = pos b + n;
  mem_write b fd bs : 0 <= pos b -> pos b + Z.of_nat (length bs) <= Z.of_nat (length (mem b)) ->
    exists b', write_ b fd bs = (b', Z.of_nat (length bs)) /\ mem b' = splice (pos b) bs (mem b) /\
      pos b' = pos b + Z.of_nat (length bs);
  mem_seek b fd : mem (lseek b fd 0).1 = mem b /\ pos (lseek b fd 0).1 = 0;
  mem_open b path oflags : exists b' fd, open_ b path oflags = (b', fd) /\ 0 < fd /\ mem b' = mem b /\ pos b' = 0;
  mem_access b path : exists b', access b path = (b', 0) /\ mem b' = mem b;
  mem_close b fd : mem (close_ b fd).1 = mem b;
  mem_root b : geteuid b = 0;
  mem_malloc b n : malloc_ok b n = true;
  mem_no_options o : getopt o = []
}.

Section Keeps.
Context `{BD : Board} (e : tst_env) (SE : short_env e) (SB : short_board) {ME : Memory}.

(** A state with the memory [m] at offset [i], and its results. *)
Definition holds (m : list Z) (i n v p : Z) (s : bstate) : Prop :=
  mem (board s) = m /\ pos (board s) = i /\ at_ e n v p s.

Lemma slice_chunk (m : list Z) i n :
  0 <= i -> slice i (32 * Z.of_nat (S n)) m = slice i 32 m ++ slice (i + 32) (32 * Z.of_nat n) m.
Proof.
  intros Hi. unfold slice. replace (Z.to_nat (i + 32)) with (Z.to_nat i + Z.to_nat 32)%nat by lia.
  rewrite <- drop_drop. replace (Z.to_nat (32 * Z.of_nat (S n))) with (Z.to_nat 32 + Z.to_nat (32 * Z.of_nat n))%nat by lia.
  now rewrite take_take_drop.
Qed.

Lemma splice_own (m : list Z) i n : 0 <= i -> 0 <= n -> i + n <= Z.of_nat (length m) -> splice i (slice i n m) m = m.
Proof.
  intros Hi Hn Hl. unfold splice. rewrite length_slice by done. unfold slice.
  rewrite <- drop_drop, take_drop. apply take_drop.
Qed.

Lemma ee_read_mem n line fd buffer m i N v p s Q X :
  holds m i N v p s -> 0 <= i -> i + 32 * Z.of_nat n <= Z.of_nat (length m) ->
  (forall s', holds m (i + 32 * Z.of_nat n) N v p s' -> Q (Some (buffer ++ slice i (32 * Z.of_nat n) m)) s') ->
  runs (ee_read e n line fd buffer) Q X s.
Proof.
  revert buffer i s. induction n as [|n IH]; intros buffer i s (Hm & Hp & Hl) Hi Hlen HQ; cbn [ee_read].
  { apply runs_ret. specialize (HQ s). replace (i + 32 * Z.of_nat 0) with i in HQ by lia.
    replace (slice i (32 * Z.of_nat 0) m) with (@nil Z) in HQ by done. rewrite app_nil_r in HQ. now apply HQ. }
  prog_step. unfold b_read. apply sys_runs. intros b a E.
  destruct (mem_read (board s) fd 32) as (b' & E' & Hm' & Hp'); [lia|lia|rewrite Hm; lia|].
  unfold EEPROM_RDWR_LEN in *. rewrite E' in E. injection E as <- <-. cbn [fst snd].
  change (s32 32 <? 32) with false. cbv iota. apply (IH _ (i + 32)); [|lia|lia|].
  - split; cbn; [congruence|]. split; [lia|done].
  - intros s' Hs'. rewrite Hm, Hp, <- app_assoc.
    rewrite take_ge by (rewrite length_slice by lia; lia). rewrite <- slice_chunk by lia.
    apply HQ. now replace (i + 32 * Z.of_nat (S n)) with (i + 32 + 32 * Z.of_nat n) by lia.
Qed.

Lemma ee_write_mem n fd m i N v p s Q X :
  holds m i N v p s -> 0 <= i -> i + 32 * Z.of_nat n <= Z.of_nat (length m) ->
  (forall s', holds m (i + 32 * Z.of_nat n) N v p s' -> Q true s') ->
  runs (ee_write e n fd (slice i (32 * Z.of_nat n) m)) Q X s.
Proof.
  revert i s. induction n as [|n IH]; intros i s (Hm & Hp & Hl) Hi Hlen HQ; cbn [ee_write].
  { apply runs_ret, HQ. replace (i + 32 * Z.of_nat 0) with i by lia. done. }
  assert (H32 : length (slice i 32 m) = 32%nat) by (rewrite length_slice by lia; lia).
  rewrite slice_chunk by lia. rewrite take_app_length' by (rewrite H32; done). rewrite drop_app_length' by (rewrite H32; done).
  prog_step. unfold b_write. apply sys_runs. intros b r E.
  destruct (mem_write (board s) fd (slice i 32 m)) as (b' & E' & Hm' & Hp'); [lia|rewrite Hm, H32; lia|].
  rewrite E' in E. injection E as <- <-. rewrite H32. change (s32 (Z.of_nat 32) <? EEPROM_RDWR_LEN) with false. cbv iota.
  apply (IH (i + 32)); [|lia|lia|].
  - split; cbn; [rewrite Hm', Hm, Hp; apply splice_own; lia|]. split; [rewrite Hp', Hp, H32; lia|done].
  - intros s' Hs'. apply HQ. now replace (i + 32 * Z.of_nat (S n)) with (i + 32 + 32 * Z.of_nat n) by lia.
Qed.

Lemma resm_mem file line ttype msg m i n v p s Q X :
  holds m i n v p s -> short_line file line -> short_msg msg -> n < INT_MAX ->
  (forall s', holds m i (n + 1) (Z.lor v (TTYPE_RESULT ttype)) (if TTYPE_RESULT ttype =? TPASS then p + 1 else p) s' -> Q tt s') ->
  runs (tst_resm e file line ttype msg) Q X s.
Proof.
  intros (Hm & Hp & Hat) Hl Hs Hn HQ. apply (resm_runs e SE SB _ _ _ _ n v p); try done. intros s' [Hb _] Hat'. apply HQ.
  split; [congruence|]. split; [congruence|done].
Qed.

Lemma seek_mem fd m i n v p s Q X : holds m i n v p s -> (forall r s', holds m 0 n v p s' -> Q r s') -> runs (SEEK_SET_off fd 0) Q X s.
Proof.
  intros (Hm & Hp & Hat) HQ. unfold SEEK_SET_off. apply sys_runs. intros b r E. apply HQ.
  destruct (mem_seek (board s) fd) as [H1 H2]. rewrite E in H1, H2. split; [cbn in *; congruence|]. now split.
Qed.

Ltac mem_step H :=
  lazymatch goal with
  | |- runs (_ ≫= _) _ _ _ => apply runs_bind
  | |- runs (tst_resm _ _ _ _ _) _ _ _ => apply (resm_mem _ _ _ _ _ _ _ _ _ _ _ _ H); [solve_line|solve_msg|done|]; clear H; intros ? H
  | |- runs (SEEK_SET_off _ _) _ _ _ => apply (seek_mem _ _ _ _ _ _ _ _ _ H); clear H; intros ? ? H
  end.

Lemma ee_compare_mem fd m s Q X :
  holds m 0 0 0 0 s -> 256 <= Z.of_nat (length m) ->
  (forall i s', holds m i 6 TINFO 1 s' -> Q tt s') -> runs (ee_compare e fd) Q X s.
Proof.
  intros Hs Hlen HQ. unfold ee_compare, ee_resm. repeat mem_step Hs.
  apply (ee_read_mem ee_chunks _ _ _ _ _ _ _ _ _ _ _ Hs); [lia|unfold ee_chunks; lia|]. clear Hs. intros t1 Hs. cbn [app].
  repeat mem_step Hs.
  apply (ee_write_mem ee_chunks _ _ _ _ _ _ _ _ _ Hs); [lia|unfold ee_chunks; lia|]. clear Hs. intros t2 Hs. cbn [negb].
  repeat mem_step Hs.
  apply (ee_read_mem ee_chunks _ _ _ _ _ _ _ _ _ _ _ Hs); [lia|unfold ee_chunks; lia|]. clear Hs. intros t3 Hs. cbn [app].
  repeat mem_step Hs. rewrite bool_decide_eq_true_2 by done. repeat mem_step Hs. apply (HQ _ _ Hs).
Qed.

Lemma opts_mem s Q X : Q [] s -> runs (tst_parse_opts e [§" "]) Q X s.
Proof.
  intros HQ. unfold tst_parse_opts, parse_opts. cbn [existsb length str list_ascii_of_string Nat.ltb Nat.leb orb].
  estep. estep. unfold malloc. apply gets_runs. rewrite mem_malloc, mem_no_options. exact HQ.
Qed.

Lemma open_mem file line path oflags m i n v p s Q X :
  holds m i n v p s -> (forall fd s', 0 < fd -> holds m 0 n v p s' -> Q fd s') -> runs (safe_open e file line path oflags) Q X s.
Proof.
  intros (Hm & _ & Hat) HQ. unfold safe_open, b_open. estep. apply sys_runs. intros b fd E.
  destruct (mem_open (board s) path oflags) as (b' & fd' & E' & Hfd & Hm' & Hp'). rewrite E' in E. injection E as <- <-.
  rewrite (proj2 (Z.eqb_neq fd' (-1))) by lia. apply runs_ret, HQ; [done|]. split; [cbn; congruence|]. now split.
Qed.

(** C15: On a memory the test passes, and leaves the contents as they were. *)
Theorem eeprom_keeps_memory k :
  256 <= Z.of_nat (length (mem k)) ->
  exists s, eeprom_main e (mkB k tst0 []) = Exited 0 s /\ mem (board s) = mem k.
Proof.
  intros Hlen.
  enough (H : exists c s, eeprom_main e (mkB k tst0 []) = Exited c s /\ c = 0 /\ mem (board s) = mem k) by (destruct H as (c & s & E & -> & Hm); eauto).
  apply runs_Exited. unfold eeprom_main, eeprom_read_write_test, ee_resm. estep. apply opts_mem. cbv zeta.
  estep. apply root_ok; [apply mem_root|]. estep. unfold b_access. apply sys_runs. intros b r E.
  destruct (mem_access k (opt_arg " " [] §"/sys/bus/i2c/devices/1-0057/at24-1/nvmem")) as (b' & E' & Hm). cbn [board] in E. rewrite E' in E.
  injection E as <- <-. cbn [Z.eqb Z.opp]. estep. estep. estep. estep. cbn [lib evs].
  apply (open_mem _ _ _ _ (mem k) (pos b') 0 0 0); [split; [done|split; [done|apply lib_at_tst0]]|]. intros fd s Hfd Hs.
  rewrite (proj2 (Z.ltb_ge fd 0)) by lia. estep. apply gets_runs. rewrite mem_malloc. cbn [negb]. estep. apply gets_runs. rewrite mem_malloc. cbn [negb].
  estep. apply (ee_compare_mem _ _ _ _ _ Hs Hlen). clear Hs. intros i s' (Hm' & _ & Hat).
  rewrite (proj2 (Z.ltb_lt 0 fd)) by done. unfold when, b_close. estep. apply sys_runs. intros b2 r2 E2. estep. estep.
  pose proof (mem_close (board s') fd) as Hc. rewrite E2 in Hc. cbn [fst] in Hc.
  apply (resm_runs e SE SB _ _ _ _ 6 TINFO 1); [exact Hat|solve_line|solve_msg|done|]. intros s3 [Hb _] Hat3.
  apply (exit_runs e SE SB _ _ _ _ _ _ Hat3). intros s4 [Hb4 _]. split; [done|]. rewrite Hb4, Hb. cbn [board]. congruence.
Qed.
End Keeps.

Lemma bench_reads args ret : @Reads (bench args ret).
Proof.
  split; cbn; try done. intros b _ n Hn. unfold slice. rewrite length_take. unfold INT_MIN. lia.
Qed.

Lemma eeprom_main_verdict_witness :
  exists c s, @eeprom_main (bench [] fine) bench_env (@mkB (bench [] fine) blank tst0 []) = Exited c s /\ ee_verdict c (evs s) /\ c = 0.
Proof.
  destruct (@eeprom_main_verdict (bench [] fine) bench_env bench_env_short (bench_short _ _ ltac:(constructor)) (bench_reads _ _) blank)
    as (c & s & E & H).
  exists c, s. split; [exact E|split; [exact H|]]. vm_compute in E. now injection E as <- _.
Defined.

Definition bench_memory ret : @Memory (bench [] ret).
Proof.
  refine (@Build_Memory (bench [] ret) contents offset _ _ _ _ _ _ _ _ _); cbn; try done.
  - intros b _ n H1 H2 H3. eexists. rewrite !length_slice by lia. rewrite Z2Nat.id by lia. split; [done|]. now split.
  - intros b _ bs H1 H2. now eexists.
  - intros b _ _. exists (mkDev (contents b) 0), 3. split_and!; try done.
  - intros b _. now exists b.
Defined.

Lemma eeprom_keeps_memory_witness :
  exists s, @eeprom_main (bench [] fine) bench_env (@mkB (bench [] fine) blank tst0 []) = Exited 0 s /\
    contents (@board (bench [] fine) s) = contents blank.
Proof.
  apply (@eeprom_keeps_memory (bench [] fine) bench_env bench_env_short (bench_short _ _ ltac:(constructor)) (bench_memory fine) blank).
  cbn. lia.
Defined.
