(* ===== verification/EddtsNor.v ===== *)
(** The NOR flash test: on a device whose calls succeed its verdict is that of the
    second block alone. *)
From Stdlib Require Import Ascii String ZArith Lia Bool.
From stdpp Require Import base list sets numbers.
From S2P Require Import Prelude CString TstRes Effects OldRes OldResOk EddtsOS EddtsBus EddtsIo EddtsLogic EddtsBench.

Local Open Scope Z_scope.

(** A flash of which every call succeeds; what the reads deliver is open. *)
Class Flash `{Board} (es : Z) : Prop := {
  es_range : 0 < es /\ 4 * es < 2 ^ 32;
  fl_info b fd : exists b' x, ioctl_ b fd MEMGETINFO = (b', (0, x)) /\ u32 x = es;
  fl_erase b fd start : exists b', ioctl_ b fd (MEMERASE start es) = (b', (0, tt));
  fl_read b fd : exists b' bs, read_ b fd es = (b', (es, bs)) /\ Z.of_nat (length bs) = es;
  fl_write b fd bs : exists b', write_ b fd bs = (b', Z.of_nat (length bs));
  fl_open b path oflags : exists b' fd, open_ b path oflags = (b', fd) /\ 0 < fd;
  fl_access b path : exists b', access b path = (b', 0);
  fl_root b : geteuid b = 0;
  fl_malloc b n : malloc_ok b n = true
}.

Section Nor.
Context `{BD : Board} (e : tst_env) (SE : short_env e) (SB : short_board) (es : Z) {FL : Flash es}.

Lemma es_u32 k : 0 <= k <= 4 -> u32 (k * es) = k * es.
Proof. intros Hk. apply u32_small. pose proof es_range. change (2 ^ 32) with 4294967296 in *. nia. Qed.

Lemma es_next k : 0 <= k <= 3 -> u32 (k * es + es) = (k + 1) * es.
Proof. intros Hk. replace (k * es + es) with ((k + 1) * es) by lia. apply es_u32. lia. Qed.

(** The rounds of a loop that goes on: [I k] holds before round [k]. *)
Lemma each_block_runs (I : Z -> bstate -> Prop) body Q X s :
  I 0 s ->
  (forall k s, 0 <= k <= 3 -> I k s -> runs (body (k * es)) (fun ok s' => ok = true /\ I (k + 1) s') X s) ->
  (forall s, I 4 s -> Q true s) -> runs (each_block nor_fuel es 0 body) Q X s.
Proof.
  intros H0 Hb HQ. pose proof es_range as [He _].
  enough (H : forall fuel k s, Z.of_nat fuel + k = 4 -> 0 <= k -> I k s -> runs (each_block fuel es (k * es) body) Q X s)
    by (apply (H 4%nat 0); try done; lia).
  clear s H0. induction fuel as [|fuel IH]; intros k s Hk Hk0 HI; cbn [each_block].
  all: unfold SPIMTD_TEST_SIZE; rewrite (es_u32 4) by lia.
  - replace k with 4 in * by lia. rewrite Z.ltb_irrefl. apply runs_ret. now apply HQ.
  - rewrite (proj2 (Z.ltb_lt (k * es) (4 * es))) by nia. apply runs_bind.
    eapply runs_mono; [apply (Hb k); [lia|exact HI]| |done].
    intros ok s' [-> HI']. rewrite es_next by lia. apply IH; [lia|lia|done].
Qed.

(** A loop whose first round stops it. *)
Lemma each_block_stops body Q X s :
  runs (body 0) (fun ok s' => ok = false /\ Q false s') X s -> runs (each_block nor_fuel es 0 body) Q X s.
Proof.
  intros Hb. pose proof es_range as [He _]. unfold nor_fuel. generalize 3%nat. intros fuel. cbn [each_block].
  unfold SPIMTD_TEST_SIZE. rewrite (es_u32 4) by lia. rewrite (proj2 (Z.ltb_lt 0 (4 * es))) by lia.
  apply runs_bind. eapply runs_mono; [exact Hb| |done]. intros ok s' [-> HQ]. now apply runs_ret.
Qed.

(** *** The calls of one round *)

Lemma info_runs fd n v p s Q X :
  at_ e n v p s -> (forall s', at_ e n v p s' -> Q (0, es) s') -> runs (ioctl fd MEMGETINFO) Q X s.
Proof.
  intros Hat HQ. unfold ioctl. apply sys_runs. intros b a E. destruct (fl_info (board s) fd) as (b' & x & E' & Hx).
  rewrite E' in E. injection E as _ <-. cbn [typed]. rewrite Hx. now apply HQ.
Qed.

Lemma erase_runs fd start n v p s Q X :
  at_ e n v p s -> (forall s', at_ e n v p s' -> Q true s') -> runs (nor_erase e fd es start) Q X s.
Proof.
  intros Hat HQ. unfold nor_erase, ioctl. estep. apply sys_runs. intros b a E.
  destruct (fl_erase (board s) fd start) as (b' & E'). rewrite E' in E. injection E as _ <-. cbn [fst].
  change (negb (s32 0 =? 0)) with false. cbv iota. now apply runs_ret, HQ.
Qed.

Lemma write_runs fd k n v p s Q X :
  0 <= k <= 3 -> at_ e n v p s -> (forall s', at_ e n v p s' -> Q true s') -> runs (nor_write e fd es (k * es)) Q X s.
Proof.
  intros Hk Hat HQ. pose proof es_range as [He _]. unfold nor_write, SPIMTD_TEST_SIZE. rewrite (es_u32 4) by lia. estep.
  apply runs_require; [apply Z.leb_le; nia|]. estep. unfold b_write. apply sys_runs. intros b r E.
  destruct (fl_write (board s) fd (replicate (Z.to_nat es) 170)) as (b' & E'). rewrite E' in E. injection E as _ <-.
  rewrite length_replicate, Z2Nat.id by lia. replace (u32 es) with es by (symmetry; rewrite <- (Z.mul_1_l es); apply es_u32; lia).
  rewrite Z.ltb_irrefl. now apply runs_ret, HQ.
Qed.

Lemma read_runs {A} fd (next : Z * list Z -> E bstate A) n v p s Q X :
  at_ e n v p s ->
  (forall bs s', Z.of_nat (length bs) = es -> evs s' = evs s ++ [EvRead fd es es bs] -> at_ e n v p s' -> runs (next (es, bs)) Q X s') ->
  runs (r ← b_read fd es; next r) Q X s.
Proof.
  intros Hat HQ. estep. unfold b_read. apply sys_runs. intros b a E.
  destruct (fl_read (board s) fd) as (b' & bs & E' & Hbs). rewrite E' in E. injection E as _ <-. now apply HQ.
Qed.

Lemma u32_es : u32 es = es.
Proof. rewrite <- (Z.mul_1_l es). apply es_u32. lia. Qed.

Lemma read1_runs fd k n v p s Q X :
  0 <= k <= 3 -> at_ e n v p s -> (forall s', at_ e n v p s' -> Q true s') -> runs (nor_read1 e fd es (k * es)) Q X s.
Proof.
  intros Hk Hat HQ. pose proof es_range as [He _]. unfold nor_read1, SPIMTD_TEST_SIZE. rewrite (es_u32 4) by lia. estep.
  apply runs_require; [apply Z.leb_le; nia|]. apply (read_runs _ _ n v p _ _ _ Hat). intros bs s' _ _ Hat'.
  cbn [fst]. rewrite u32_es, Z.ltb_irrefl. now apply runs_ret, HQ.
Qed.

(** The buffer after the blocks [bss]. *)
Lemma splice_block (bss : list (list Z)) bs rest k :
  Z.of_nat (length (concat bss)) = k * es -> Z.of_nat (length bs) = es ->
  splice (k * es) bs (concat bss ++ rest) = concat (bss ++ [bs]) ++ drop (Z.to_nat es) rest.
Proof.
  intros Hc Hb. unfold splice. rewrite concat_app. cbn [concat]. rewrite app_nil_r, <- app_assoc.
  rewrite take_app_length' by lia. rewrite drop_app_ge by lia. repeat f_equal. lia.
Qed.

Definition read_back (fd : Z) (bs : list Z) : event := EvRead fd es es bs.

Lemma read2_runs fd junk n v p s Q X :
  at_ e n v p s -> Z.of_nat (length junk) = 4 * es ->
  (forall b0 b1 b2 b3 s', Forall (fun bs => Z.of_nat (length bs) = es) [b0; b1; b2; b3] -> evs s' = evs s ++ (read_back fd <$> [b0; b1; b2; b3]) ->
     at_ e n v p s' -> Q (Some (concat [b0; b1; b2; b3])) s') ->
  runs (nor_read2 e nor_fuel fd es 0 junk) Q X s.
Proof.
  intros Hat Hj HQ. pose proof es_range as [He _].
  enough (H : forall fuel k bss s1, Z.of_nat fuel + k = 4 -> 0 <= k -> Z.of_nat (length bss) = k ->
    Forall (fun bs => Z.of_nat (length bs) = es) bss -> Z.of_nat (length (concat bss)) = k * es ->
    evs s1 = evs s ++ (read_back fd <$> bss) -> at_ e n v p s1 ->
    runs (nor_read2 e fuel fd es (k * es) (concat bss ++ drop (Z.to_nat (k * es)) junk)) Q X s1).
  { apply (H 4%nat 0 [] s); try done; now rewrite app_nil_r. }
  induction fuel as [|fuel IH]; intros k bss s1 Hk Hk0 Hl Hf Hc E1 Hat1; cbn [nor_read2].
  all: unfold SPIMTD_TEST_SIZE in *; rewrite (es_u32 4) by lia.
  - replace k with 4 in * by lia. rewrite Z.ltb_irrefl. apply runs_ret. rewrite drop_ge, app_nil_r by lia.
    destruct bss as [|b0 [|b1 [|b2 [|b3 [|]]]]]; try (cbn in Hl; lia). now apply HQ.
  - rewrite (proj2 (Z.ltb_lt (k * es) (4 * es))) by nia. estep. apply runs_require; [apply Z.leb_le; nia|].
    apply (read_runs _ _ n v p _ _ _ Hat1). intros bs s2 Hb E2 Hat2. cbn [fst snd]. rewrite u32_es, Z.ltb_irrefl.
    rewrite take_ge by lia. rewrite splice_block, drop_drop by done. rewrite es_next by lia.
    replace (Z.to_nat (k * es) + Z.to_nat es)%nat with (Z.to_nat ((k + 1) * es)) by lia.
    apply IH; try done; try lia.
    + rewrite length_app. cbn. lia.
    + apply Forall_app. split; [done|now repeat constructor].
    + rewrite concat_app, length_app. cbn [concat]. rewrite app_nil_r. lia.
    + rewrite E2, E1, <- app_assoc, fmap_app. done.
Qed.

Definition full_of (bs : list Z) : bool := bool_decide (bs = replicate (Z.to_nat es) 170).

Lemma second_block (b0 b1 b2 b3 : list Z) :
  Forall (fun bs => Z.of_nat (length bs) = es) [b0; b1; b2; b3] -> slice es es (concat [b0; b1; b2; b3]) = b1.
Proof.
  intros Hf. inversion_clear Hf as [|? ? H0 Hf']. inversion_clear Hf' as [|? ? H1 _]. unfold slice. cbn [concat].
  rewrite drop_app_length' by lia. apply take_app_length'. lia.
Qed.

(** The comparison, which looks at the same block in each round. *)
Lemma compare_runs b0 b1 b2 b3 p s Q X :
  Forall (fun bs => Z.of_nat (length bs) = es) [b0; b1; b2; b3] -> at_ e 1 TINFO p s ->
  (forall s', evs s' = evs s -> at_ e (if full_of b1 then 1 else 2) (if full_of b1 then TINFO else Z.lor TINFO TFAIL) p s' -> Q (full_of b1) s') ->
  runs (each_block nor_fuel es 0 (nor_compare e es (concat [b0; b1; b2; b3]))) Q X s.
Proof.
  intros Hf Hat HQ. pose proof es_range as [He _]. destruct (full_of b1) eqn:Hb.
  - apply (each_block_runs (fun _ s' => evs s' = evs s /\ at_ e 1 TINFO p s')); [done| |intros s' []; auto].
    intros k s' Hk Hs'. unfold nor_compare. rewrite second_block by done. unfold full_of in Hb. rewrite Hb. now apply runs_ret.
  - apply each_block_stops. unfold nor_compare. rewrite second_block by done. unfold full_of in Hb. rewrite Hb. estep. unfold nor_resm.
    apply (resm_runs e SE SB _ _ _ _ 1 TINFO p); [done|solve_line|solve_msg|done|]. intros s' [_ E] Hat'. apply runs_ret. auto.
Qed.

(** *** The program *)

Definition second_only (c : Z) (l : list event) : Prop :=
  exists pre fd b0 b1 b2 b3 r, l = pre ++ (read_back fd <$> [b0; b1; b2; b3]) ++ [EvClose fd r] /\ c = if full_of b1 then 0 else TFAIL.

Lemma nor_blocks_runs junk fd s Q X :
  at_ e 1 TINFO 0 s -> Z.of_nat (length junk) = 4 * es ->
  (forall pre b0 b1 b2 b3 n s', 0 <= n <= 2 -> evs s' = pre ++ (read_back fd <$> [b0; b1; b2; b3]) ->
     at_ e n (if full_of b1 then TINFO else Z.lor TINFO TFAIL) (if full_of b1 then 1 else 0) s' -> Q tt s') ->
  runs (nor_blocks e junk fd es) Q X s.
Proof.
  intros Hat Hj HQ. unfold nor_blocks, SEEK_SET_off. estep. apply sys_runs. intros y1 z1 _. 
  estep. apply (each_block_runs (fun _ => at_ e 1 TINFO 0)); [done|intros k s1 Hk H1; apply (read1_runs _ _ 1 TINFO 0); auto|]. clear s Hat. intros s Hat. cbn [negb].
  estep. apply (each_block_runs (fun _ => at_ e 1 TINFO 0)); [done|intros k s1 Hk H1; apply (erase_runs _ _ 1 TINFO 0); auto|]. clear s Hat. intros s Hat. cbn [negb].
  estep. apply sys_runs. intros y2 z2 _.
  estep. apply (each_block_runs (fun _ => at_ e 1 TINFO 0)); [done|intros k s1 Hk H1; apply (write_runs _ _ 1 TINFO 0); auto|]. clear s Hat. intros s Hat. cbn [negb].
  estep. apply sys_runs. intros y3 z3 _.
  estep. apply (read2_runs _ _ 1 TINFO 0); [done|done|]. intros b0 b1 b2 b3 s1 Hf E1 H1.
  estep. apply (compare_runs _ _ _ _ 0); [done|done|]. intros s2 E2 H2. destruct (full_of b1) eqn:Hb; cbn [negb].
  - unfold nor_resm. apply (resm_runs e SE SB _ _ _ _ 1 TINFO 0); [done|solve_line|solve_msg|done|]. intros s3 [_ E3] H3.
    eapply (HQ _ b0 b1 b2 b3 2); [lia|rewrite E3, E2; exact E1|]. now rewrite Hb.
  - apply runs_ret. eapply (HQ _ b0 b1 b2 b3 2); [lia|rewrite E2; exact E1|]. now rewrite Hb.
Qed.

(** The verdict is that of the second block, whatever the others read back. *)
Theorem norflash_second_block junk k :
  Z.of_nat (length junk) = 4 * es ->
  exists c s, norflash_main e junk (mkB k tst0 []) = Exited c s /\ second_only c (evs s).
Proof.
  intros Hj. apply runs_Exited. unfold norflash_main, spidev_mtd_test, nor_resm.
  set (dev := SPIMTD_DEV_FILE). assert (Hd : length dev = 9%nat) by done. clearbody dev.
  estep. apply root_ok; [apply fl_root|]. estep. unfold b_access. apply sys_runs. intros b r E. destruct (fl_access k dev) as (b' & E').
  cbn [board] in E. rewrite E' in E. injection E as <- <-. cbn [Z.eqb]. estep. estep. estep. estep.
  apply (resm_runs e SE SB _ _ _ _ 0 0 0); [apply lib_at_tst0|solve_line|solve_msg|done|]. intros s1 _ Hat.
  estep. unfold safe_open. estep. unfold b_open. apply sys_runs. intros b1 fd E1. destruct (fl_open (board s1) dev O_RDWR) as (b1' & fd' & E1' & Hfd).
  rewrite E1' in E1. injection E1 as <- <-. rewrite (proj2 (Z.eqb_neq fd' (-1))) by lia. estep.
  rewrite (proj2 (Z.ltb_ge fd' 0)) by lia. estep.  apply (info_runs _ 1 TINFO 0); [exact Hat|]. clear Hat. intros s2 Hat. cbn [fst snd].
  change (negb (0 =? 0)) with false. cbv iota zeta. estep. estep. apply gets_runs. rewrite fl_malloc. cbn [negb]. estep. apply gets_runs. rewrite fl_malloc. cbn [negb].
  apply nor_blocks_runs; [done|done|]. clear Hat. intros pre b0 b1 b2 b3 n s3 Hn E3 Hat.
  rewrite (proj2 (Z.ltb_lt 0 fd')) by done. unfold when, b_close. estep. apply sys_runs. intros b4 r4 _. estep. estep.
  eapply (resm_runs e SE SB _ _ _ _ n); [exact Hat|solve_line|solve_msg|unfold INT_MAX; lia|]. intros s5 [_ E5] Hat5.
  apply (exit_runs e SE SB _ _ _ _ _ _ Hat5). intros s6 [_ E6]. exists pre, fd', b0, b1, b2, b3, r4.
  rewrite E6, E5. cbn [evs]. rewrite E3, <- app_assoc. split; [done|]. now destruct (full_of b1).
Qed.
End Nor.

(** A flash of which only the second block works, the others read zeros; the state
    is the number of reads. *)
Definition bad_flash : Board :=
  device_board Z (fun b => b) (fun b _ => b)
    (fun b n => (b + 1, replicate (Z.to_nat n) (if b mod 4 =? 1 then 170 else 0))) (fun b _ => b) [] fine.

Lemma bad_flash_ok : @Flash bad_flash 16.
Proof.
  split; cbn; try done; try (intros; eexists; reflexivity).
  - intros b _. now exists b, 16.
  - intros b _. exists (b + 1). eexists. split; [reflexivity|]. reflexivity.
  - intros b _ _. now exists b, 3.
Qed.

Lemma bad_flash_short : @short_board bad_flash.
Proof. apply device_board_short. constructor. Qed.

Lemma norflash_second_block_witness :
  exists c s, @norflash_main bad_flash bench_env (replicate 64 0) (@mkB bad_flash 0 tst0 []) = Exited c s /\
    second_only 16 c (evs s) /\ c = 0.
Proof.
  destruct (@norflash_second_block bad_flash bench_env bench_env_short bad_flash_short 16 bad_flash_ok (replicate 64 0) 0)
    as (c & s & E & H); [reflexivity|].
  exists c, s. split; [exact E|split; [exact H|]]. vm_compute in E. now injection E as <- _.
Defined.
