(* ===== verification/EddtsGpio.v ===== *)
(** The GPIO test: the rounds of an output pin, and when the pin is given back. *)
From Stdlib Require Import Ascii String ZArith Lia Bool.
From stdpp Require Import base list sets numbers.
From S2P Require Import Prelude CString TstRes Effects OldRes OldResOk EddtsOS EddtsBus EddtsIo EddtsLogic EddtsBench.

Local Open Scope Z_scope.

(** A read of a value fails or gives the level and a line feed. *)
Class Levels `{Board} : Prop := {
  level b fd : (read_ b fd 3).2.1 = -1 \/ exists v, 0 <= v <= 1 /\ (read_ b fd 3).2.2 = [48 + v; 10]
}.

Section Gpio.
Context `{BD : Board} (e : tst_env) (SE : short_env e) (SB : short_board) {LV : Levels} (bbb : bool).
Context (pin : Z) (Hpin : 0 <= pin <= 99).

Definition unexport_path : cstr := §"/sys/class/gpio/unexport".

(** The file to give the pin back was opened. *)
Definition unexported (l : list event) : bool :=
  existsb (fun ev => match ev with EvOpen path fd => negb (fd =? -1) && bool_decide (path = unexport_path) | _ => false end) l.

Lemma other_path n t : (17 <= n)%nat -> bool_decide (snprintf_buf n (§"/sys/class/gpio/gpio" ++ t) = unexport_path) = false.
Proof.
  intros Hn. apply bool_decide_eq_false_2. intros E. apply (f_equal (fun s => s !! 16%nat)) in E. unfold snprintf_buf in E.
  destruct (decide (16 < n - 1)%nat).
  - rewrite lookup_take_lt, lookup_app_l in E by (cbn; lia). discriminate E.
  - rewrite lookup_take_ge in E by lia. discriminate E.
Qed.

(** One round: the level is written, and read back after half a second. *)
Definition is_round (v : Z) (l : list event) : Prop :=
  exists f1 r1 f2 r r2, l =
    [EvOpen (value_path pin) f1; EvWrite f1 [48 + v] 1; EvClose f1 r1; EvSleep 500000;
     EvOpen (value_path pin) f2; EvRead f2 3 r [48 + v; 10]; EvClose f2 r2].

Lemma level_atoi v s Q X : 0 <= v <= 1 -> Q v s -> runs (atoi_array (text_of (take 3 [48 + v; 10]))) Q X s.
Proof. intros Hv HQ. assert (v = 0 \/ v = 1) as [-> | ->] by lia; vm_compute; exact HQ. Qed.

(** The lines, which differ between the boards. *)
Ltac lines :=
  repeat match goal with
  | |- context [ln bbb ?a ?b] =>
      let H := fresh in assert (H : is_int (ln bbb a b)) by (destruct bbb; split; vm_compute; discriminate);
      generalize dependent (ln bbb a b); intros
  end.

(** A path that stopped: the message breaks the test. *)
Ltac stop_here :=
  match goal with
  | HX : forall l' s', evs s' = ?l ++ l' -> _ |- _ =>
      eapply HX; [end_calls; rewrite <- ?app_assoc; reflexivity|];
      unfold unexported; cbn [existsb app]; unfold value_path; rewrite ?other_path, ?andb_false_r by lia; reflexivity
  end.

Lemma gpio_read_at l s (Q : Z -> bstate -> Prop) X :
  at_ e 0 0 0 s -> evs s = l ->
  (forall v f r r2 s', 0 <= v <= 1 -> evs s' = l ++ [EvOpen (value_path pin) f; EvRead f 3 r [48 + v; 10]; EvClose f r2] -> at_ e 0 0 0 s' -> Q v s') ->
  (forall l' s', evs s' = l ++ l' -> unexported l' = false -> X TCONF s') ->
  runs (GPIORead e bbb pin) Q X s.
Proof.
  intros Hat He HQ HX. unfold GPIORead, gpio_brkm, b_open. lines. repeat prog_step; try stop_here.
  match goal with H : read_ (board ?s) ?fd 3 = (_, ?a) |- _ =>
    pose proof (level (board s) fd) as [Hl|(v & Hv & Hl)]; rewrite H in Hl; cbn [fst snd] in Hl end.
  { apply Z.eqb_neq in Heqb0. contradiction. }
  rewrite Hl. apply level_atoi; [done|]. eapply HQ; [done| |exact Hat]. rewrite He, Hl, <- !app_assoc. reflexivity.
Qed.

Lemma gpio_write_at value v l s (Q : unit -> bstate -> Prop) X :
  (if value =? 0 then 0 else 1) = v -> at_ e 0 0 0 s -> evs s = l ->
  (forall f r s', evs s' = l ++ [EvOpen (value_path pin) f; EvWrite f [48 + v] 1; EvClose f r] -> at_ e 0 0 0 s' -> Q tt s') ->
  (forall l' s', evs s' = l ++ l' -> unexported l' = false -> X TCONF s') ->
  runs (GPIOWrite e bbb pin value) Q X s.
Proof.
  intros Hv Hat He HQ HX. unfold GPIOWrite, gpio_brkm, b_open. lines.
  replace (text_bytes (if value =? 0 then §"0" else §"1")) with [48 + v] by (subst v; now destruct (value =? 0)).
  repeat prog_step; try stop_here.
  eapply HQ; [|exact Hat]. apply Z.eqb_eq in Heqb0. subst. rewrite He, <- !app_assoc. reflexivity.
Qed.

(** The levels of the rounds: the parity of [n], ..., 1, 0. *)
Fixpoint levels (n : nat) : list Z :=
  (Z.of_nat n mod 2) :: match n with O => [] | S n => levels n end.

Lemma unexported_app l l' : unexported (l ++ l') = unexported l || unexported l'.
Proof. apply existsb_app. Qed.

Lemma round_unexported v l : is_round v l -> unexported l = false.
Proof.
  intros (f1 & r1 & f2 & r & r2 & ->). unfold unexported, value_path. cbn [existsb]. now rewrite !other_path, !andb_false_r by lia.
Qed.

Lemma round_at n (rest : E bstate unit) l s (Q : unit -> bstate -> Prop) X :
  0 <= n -> at_ e 0 0 0 s -> evs s = l ->
  (forall ev s', is_round (n mod 2) ev -> evs s' = l ++ ev -> at_ e 0 0 0 s' -> runs rest Q X s') ->
  (forall l' s', evs s' = l ++ l' -> unexported l' = false -> X TCONF s') ->
  runs (GPIOWrite e bbb pin (Z.rem n 2);; usleep (500 * 1000);;
        v ← GPIORead e bbb pin;
        (if v =? Z.rem n 2 then mret tt else gpio_brkm e (ln bbb 208 223) §"GPIO Test Failed!");;
        rest) Q X s.
Proof.
  intros Hn Hat He HQ HX. rewrite Z.rem_mod_nonneg by lia. assert (Hm : n mod 2 = 0 \/ n mod 2 = 1) by (Z.to_euclidean_division_equations; lia).
  unfold gpio_brkm. lines. prog_step. apply (gpio_write_at _ (n mod 2) l); [now destruct Hm as [-> | ->]|done|done| |done].
  clear s Hat He. intros f1 r1 s He Hat. prog_step. unfold usleep. prog_step. prog_step.
  eapply gpio_read_at; [exact Hat|exact He| |].
  - clear Hat He. intros v f2 r r2 s2 Hv He Hat. prog_step. destruct (Z.eqb_spec v (n mod 2)) as [->|Hne].
    + prog_step. eapply HQ; [|rewrite He, <- !app_assoc; reflexivity|exact Hat]. now exists f1, r1, f2, r, r2.
    + prog_step. stop_here.
  - intros l' s2 He2 Hl'. rewrite <- !app_assoc in He2. apply (HX _ s2 He2). cbn [app]. unfold unexported in *.
    cbn [existsb]. unfold value_path. rewrite other_path, andb_false_r by lia. exact Hl'.
Qed.

Lemma toggle_at n l s (Q : unit -> bstate -> Prop) X :
  at_ e 0 0 0 s -> evs s = l ->
  (forall rounds s', Forall2 is_round (levels n) rounds -> evs s' = l ++ concat rounds -> at_ e 0 0 0 s' -> Q tt s') ->
  (forall l' s', evs s' = l ++ l' -> unexported l' = false -> X TCONF s') ->
  runs (toggle e bbb (S n) pin (Z.of_nat n)) Q X s.
Proof.
  revert l s. induction n as [|n IH]; intros l s Hat He HQ HX.
  all: eapply (round_at _ _ l); [lia|exact Hat|exact He| |exact HX]; clear Hat He; intros ev s2 Hev He Hat.
  - change (Z.of_nat 0 =? 0) with true. repeat prog_step. apply (HQ [ev]); [now repeat constructor|cbn [concat]; now rewrite app_nil_r|exact Hat].
  - rewrite (proj2 (Z.eqb_neq (Z.of_nat (S n)) 0)) by lia. replace (Z.of_nat (S n) - 1) with (Z.of_nat n) by lia.
    apply (IH _ _ Hat He).
    + intros rounds s3 Hr He3 Hat3. apply (HQ (ev :: rounds)); [now constructor|cbn [concat]; now rewrite He3, <- app_assoc|done].
    + intros l' s3 He3 Hl'. apply (HX (ev ++ l')); [now rewrite He3, <- app_assoc|].
      now rewrite unexported_app, Hl', (round_unexported _ _ Hev).
Qed.

Lemma length_pin : (length (fmt_d pin) <= 2)%nat.
Proof.
  unfold fmt_d. rewrite (proj2 (Z.ltb_ge pin 0)) by lia. apply num_str_length; [lia| |lia].
  change (10 ^ Z.of_nat 2) with 100. lia.
Qed.

Lemma pin_bytes_runs s Q X : Q (text_bytes (fmt_d pin)) s -> runs (pin_bytes pin) Q X s.
Proof.
  intros HQ. unfold pin_bytes. cbv zeta. pose proof length_pin. estep. apply runs_require; [apply Nat.leb_le; lia|].
  apply runs_ret. rewrite (take_ge (fmt_d pin) 2) by lia. now rewrite take_app_length.
Qed.

(** A write of the pin's number to a file of the driver. *)
Definition pin_calls (path : cstr) (l : list event) : Prop :=
  exists f r r2, f <> -1 /\ l = [EvOpen path f; EvWrite f (text_bytes (fmt_d pin)) r; EvClose f r2].

Lemma export_at path what l1 l2 l s (Q : unit -> bstate -> Prop) X :
  at_ e 0 0 0 s -> evs s = l -> is_int l1 -> is_int l2 -> (length what <= 20)%nat ->
  (forall ev s', pin_calls path ev -> evs s' = l ++ ev -> at_ e 0 0 0 s' -> Q tt s') ->
  (forall l' s', evs s' = l ++ l' -> unexported l' = false \/ bbb = true -> X TCONF s') ->
  runs (export_pin e bbb path what l1 l2 pin) Q X s.
Proof.
  intros Hat He H1 H2 Hw HQ HX. unfold export_pin, gpio_brkm, b_open. do 4 prog_step.
  { prog_step. eapply HX; [end_calls; reflexivity|left]. cbn. now rewrite Heqb. }
  apply Z.eqb_neq in Heqb. do 2 prog_step. apply pin_bytes_runs. repeat prog_step.
  - eapply HX; [end_calls; rewrite <- !app_assoc; reflexivity|right]. now destruct bbb.
  - eapply HQ; [|rewrite He, <- !app_assoc; reflexivity|exact Hat]. now exists a, a0, a1.
Qed.

Definition direction_path : cstr := snprintf_buf 35 (§"/sys/class/gpio/gpio" ++ fmt_d pin ++ §"/direction").

Definition out_calls (l : list event) : Prop :=
  exists f r r2, l = [EvOpen direction_path f; EvWrite f (text_bytes §"out") r; EvClose f r2].

Lemma direction_at l s (Q : unit -> bstate -> Prop) X :
  at_ e 0 0 0 s -> evs s = l ->
  (forall ev s', out_calls ev -> evs s' = l ++ ev -> at_ e 0 0 0 s' -> Q tt s') ->
  (forall l' s', evs s' = l ++ l' -> unexported l' = false -> X TCONF s') ->
  runs (GPIODirection e bbb pin false) Q X s.
Proof.
  intros Hat He HQ HX. unfold GPIODirection, gpio_brkm, b_open. fold direction_path. cbv zeta. lines. repeat prog_step.
  - eapply HX; [end_calls; rewrite <- ?app_assoc; reflexivity|]. unfold unexported, direction_path. cbn [existsb app].
    now rewrite other_path, andb_false_r by lia.
  - eapply HX; [end_calls; rewrite <- ?app_assoc; reflexivity|]. unfold unexported, direction_path. cbn [existsb app].
    now rewrite other_path, andb_false_r by lia.
  - eapply HQ; [|rewrite He, <- !app_assoc; reflexivity|exact Hat]. now exists a, a0, a1.
Qed.

(** The output test with [n] for the number of loops.  It passes when each of the
    [n + 1] levels was read back, and the pin is given back then; when it stops
    before the end it does not give it back. *)
Definition gpio_verdict (n : nat) (c : Z) (l : list event) : Prop :=
  (l = [] /\ c ∈ [0; TBROK; TCONF]) \/
  (c = TCONF /\ (unexported l = false \/ bbb = true)) \/
  (c = 0 /\ exists ex out rounds un,
     pin_calls §"/sys/class/gpio/export" ex /\ out_calls out /\ Forall2 is_round (levels n) rounds /\ pin_calls unexport_path un /\
     l = ex ++ out ++ concat rounds ++ un).

Lemma export_unexported ex : pin_calls §"/sys/class/gpio/export" ex -> unexported ex = false.
Proof.
  intros (f1 & r1 & r2 & _ & ->). unfold unexported. cbn [existsb].
  rewrite (bool_decide_eq_false_2 (§"/sys/class/gpio/export" = unexport_path)) by discriminate. now rewrite !andb_false_r.
Qed.

Lemma out_unexported out : out_calls out -> unexported out = false.
Proof. intros (f & r & r2 & ->). unfold unexported, direction_path. cbn [existsb]. now rewrite other_path, !andb_false_r by lia. Qed.

Lemma rounds_unexported vs rounds : Forall2 is_round vs rounds -> unexported (concat rounds) = false.
Proof.
  intros Hr. induction Hr as [|v ev vs evs Hev Hr IH]; [done|]. cbn [concat]. now rewrite unexported_app, IH, (round_unexported _ _ Hev).
Qed.

Lemma gpio_test_runs n s :
  at_ e 0 0 0 s -> evs s = [] -> Z.of_nat n <= INT_MAX ->
  runs (gpio_test e bbb pin 1 (Z.of_nat n)) (fun _ _ => False) (fun c s' => gpio_verdict n c (evs s')) s.
Proof.
  intros Hat He Hn. unfold gpio_test, GPIOExport, GPIOUnexport. lines. rewrite (proj2 (Z.leb_le 0 (Z.of_nat n))) by lia.
  replace (Z.to_nat (Z.of_nat n + 1)) with (S n) by lia. cbn [Z.eqb]. prog_step.
  eapply export_at; [exact Hat|exact He|done|solve_int|cbn; lia| |intros l' s' He' Hu; right; left; rewrite He'; done].
  clear Hat He. intros ex s1 Hex He Hat. prog_step. prog_step.
  eapply direction_at; [exact Hat|exact He| |].
  2:{ intros l' s' He' Hu. right; left. rewrite He'. split; [done|left]. now rewrite !unexported_app, Hu, (export_unexported _ Hex). }
  clear Hat He. intros out s2 Hout He Hat.
  eapply toggle_at; [exact Hat|exact He| |].
  2:{ intros l' s' He' Hu. right; left. rewrite He'. split; [done|left].
      now rewrite !unexported_app, Hu, (export_unexported _ Hex), (out_unexported _ Hout). }
  clear Hat He. intros rounds s3 Hr He Hat. prog_step.
  eapply export_at; [exact Hat|exact He|done|solve_int|cbn; lia| |].
  - clear Hat He. intros un s4 Hun He Hat. repeat prog_step. end_calls. right; right. split; [reflexivity|].
    exists ex, out, rounds, un. rewrite <- !app_assoc. done.
  - intros l' s' He' [Hu|Hb]; right; left; (split; [done|]); [left|now right]. rewrite He'.
    now rewrite !unexported_app, Hu, (export_unexported _ Hex), (out_unexported _ Hout), (rounds_unexported _ _ Hr).
Qed.

(** The output test of a pin from 0 to 99, with [n] for the number of loops, ends on any
    board; when it passes, the levels of its [n + 1] rounds were read back and the pin
    was given back, and when it stops before that the pin is left exported. *)
Theorem gpio_main_verdict prog a1 a2 a3 more n k :
  b_argv = prog :: a1 :: a2 :: a3 :: more -> atoi a1 = pin -> atoi a2 = 1 -> atoi a3 = Z.of_nat n -> Z.of_nat n <= INT_MAX ->
  exists c s, gpio_main e bbb (mkB k tst0 []) = Exited c s /\ gpio_verdict n c (evs s).
Proof.
  intros Hargv H1 H2 H3 Hn. apply runs_Exited. pose proof (lib_at_tst0 e : at_ e 0 0 0 (mkB k tst0 [])) as Hat.
  assert (He : evs (mkB k tst0 []) = []) by done. unfold gpio_main, argv. rewrite Hargv. cbn [lookup list_lookup].
  repeat prog_step; [|end_calls; left; split; [done|solve_status]..].
  rewrite H1, H2, H3. now apply gpio_test_runs.
Qed.
End Gpio.

(** A pin that keeps its level. *)
Definition pin_board (args : list cstr) : Board :=
  device_board Z (fun b => b) (fun b _ => b) (fun b _ => (b, [48 + b mod 2; 10])) (fun b bs => match bs with [c] => c - 48 | _ => b end) args fine.

Definition pin_args : list cstr := [§"gpio_test"; §"17"; §"1"; §"3"].

Lemma pin_levels args : @Levels (pin_board args).
Proof. split. intros b fd. right. exists (b mod 2). split; [Z.to_euclidean_division_equations; lia|done]. Qed.

Lemma pin_short : @short_board (pin_board pin_args).
Proof. apply device_board_short. repeat constructor; cbn; lia. Qed.

Lemma gpio_main_verdict_witness :
  exists c s, @gpio_main (pin_board pin_args) bench_env true (@mkB (pin_board pin_args) 0 tst0 []) = Exited c s /\
    gpio_verdict true 17 3 c (evs s) /\ c = 0.
Proof.
  destruct (@gpio_main_verdict (pin_board pin_args) bench_env bench_env_short
    pin_short (pin_levels _) true 17 ltac:(lia)
    §"gpio_test" §"17" §"1" §"3" [] 3 0) as (c & s & E & H);
    [reflexivity|reflexivity|reflexivity|reflexivity|unfold INT_MAX; lia|].
  exists c, s. split; [exact E|split; [exact H|]]. vm_compute in E. now injection E as <- _.
Defined.
