(* ===== verification/EddtsNetOk.v ===== *)
(** What the tests of direct memory access, of the network and of sound report, on
    any board. *)
From Stdlib Require Import Ascii String ZArith Lia Bool.
From stdpp Require Import base list sets numbers.
From S2P Require Import Prelude CString TstRes Effects OldRes OldResOk EddtsOS EddtsBus EddtsNet EddtsLogic EddtsBench.

Local Open Scope Z_scope.

(** ** dma_test.c *)

Lemma length_fmt_p a : (length (fmt_p a) <= 10)%nat.
Proof.
  unfold fmt_p. destruct (a =? 0); [cbn; lia|]. rewrite length_app.
  assert ((length (fmt_nat 16 (u32 a)) <= 8)%nat); [|cbn [length str list_ascii_of_string]; lia].
  apply num_str_length; [lia| |lia]. pose proof (u32_range a). change (16 ^ Z.of_nat 8) with 4294967296. lia.
Qed.

(** There is memory, and the strings in it fit the messages. *)
Class Pages `{Board} : Prop := {
  has_pages b : (valloc b).2 <> 0;
  short_texts b a : (length (mem_text b a) <= 300)%nat
}.

Section Dma.
Context `{BD : Board} (e : tst_env) (SE : short_env e) (SB : short_board) {PG : Pages}.

(** What was read from the destination. *)
Definition texts (l : list event) : list cstr := omap (fun ev => match ev with EvText _ t => Some t | _ => None end) l.

(** When the transfer was made, a destination that reads the source's text is a
    failure and any other one is a pass. *)
Definition dma_verdict (c : Z) (l : list event) : Prop :=
  match texts l with
  | [_; now] => c = if bool_decide (now = hello_world) then TFAIL else 0
  | _ => c ∈ [0; TBROK; TCONF]
  end.

Lemma page_text_at a n v p l s (Q : cstr -> bstate -> Prop) X :
  at_ e n v p s -> evs s = l ->
  (forall t s', (length t <= 300)%nat -> evs s' = l ++ [EvText a t] -> at_ e n v p s' -> Q t s') -> runs (page_text a) Q X s.
Proof.
  intros Hat He HQ. unfold page_text. apply (sys_at e n v p l s Hat He). intros t s' E He' Hat'. apply HQ; try done.
  injection E as _ <-. apply short_texts.
Qed.

Lemma valloc_at n v p l s (Q : Z -> bstate -> Prop) X :
  at_ e n v p s -> evs s = l ->
  (forall a s', negb (a =? 0) = true -> evs s' = l ++ [EvAlloc a] -> at_ e n v p s' -> Q a s') -> runs (sys EvAlloc valloc) Q X s.
Proof.
  intros Hat He HQ. apply (sys_at e n v p l s Hat He). intros t s' E He' Hat'. apply HQ; try done.
  apply negb_true_iff, Z.eqb_neq. pose proof (has_pages (board s)) as H. now rewrite E in H.
Qed.

Ltac dma_step :=
  match goal with
  | Hat : at_ ?e ?n ?v ?p ?s, He : evs ?s = ?l |- runs (page_text ?a) _ _ ?s =>
      apply (page_text_at a n v p l s _ _ Hat He); clear Hat He; intros ? ? ? He Hat
  | Hat : at_ ?e ?n ?v ?p ?s, He : evs ?s = ?l |- runs (sys EvAlloc valloc) _ _ ?s =>
      apply (valloc_at n v p l s _ _ Hat He); clear Hat He; intros ? ? ? He Hat
  | |- runs (require _) _ _ _ => apply runs_require; [assumption|]
  | |- context [fmt_p ?a] => pose proof (length_fmt_p a); generalize dependent (fmt_p a); intros
  end.

(** Whatever the board answers, the program ends, and a transfer that worked makes it
    fail. *)
Theorem dma_main_verdict arg k :
  b_argv !! 2%nat = Some arg -> 0 <= atoi arg < 16 ->
  exists c s, dma_main e (mkB k tst0 []) = Exited c s /\ dma_verdict c (evs s).
Proof.
  intros Harg Hch. apply runs_Exited. pose proof (lib_at_tst0 e : at_ e 0 0 0 (mkB k tst0 [])) as Hat.
  assert (He : evs (mkB k tst0 []) = []) by done.
  assert (Hc : (0 <=? atoi arg) && (atoi arg <? 16) = true) by (apply andb_true_intro; split; [apply Z.leb_le|apply Z.ltb_lt]; lia).
  unfold dma_main, dma_resm, dma_brkm. do 2 prog_step.
  2,3: unfold dma_verdict; end_calls; solve_status.
  pose proof (length_opt_arg "d" found §"/dev/mem" H ltac:(cbn; lia)) as Hdev. set (dev := opt_arg _ _ _) in *. clearbody dev.
  unfold mapPeripheral, makeVirtPhysPage, dma_transfer, writeBitmasked, store_mem, load_reg, store_reg, dma_resm, dma_brkm.
  set (page := replicate (Z.to_nat PAGE_SIZE) 0). clearbody page.
  repeat (dma_step || prog_step).
  all: unfold dma_verdict; end_calls; cbn [texts omap list_omap app].
  all: first [use_conds; reflexivity | solve_status].
Qed.
End Dma.

Lemma dma_pages args ret : @Pages (bench args ret).
Proof. split; [done|cbn; lia]. Qed.

Definition dma_args : list cstr := [§"dma_test"; §"-d"; §"5"].

Lemma dma_short : @short_board (bench dma_args fine).
Proof. apply bench_short. repeat constructor; cbn; lia. Qed.

Lemma dma_main_verdict_witness :
  exists c s, @dma_main (bench dma_args fine) bench_env (@mkB (bench dma_args fine) (mkDev (replicate 4096 1) 0) tst0 []) = Exited c s /\
    dma_verdict c (evs s) /\ c = TFAIL.
Proof.
  destruct (@dma_main_verdict (bench dma_args fine) bench_env bench_env_short dma_short
    (dma_pages _ _) §"5" (mkDev (replicate 4096 1) 0)) as (c & s & E & H); [reflexivity|split; vm_compute; done|].
  exists c, s. split; [exact E|split; [exact H|]]. vm_compute in E. now injection E as <- _.
Defined.

(** ** eth_test.c *)

Section Eth.
Context `{BD : Board} (e : tst_env) (SE : short_env e) (SB : short_board).

(** A mode that was set: its bit alone is advertised, and five seconds later the
    driver reports its speed and duplex. *)
Definition mode_set (speed duplex adv : Z) (l : list event) : Prop :=
  exists fd r1 c1 r2 x2 r3 c3, 0 <= fd /\ r1 = 0 /\ r2 = 0 /\ r3 = 0 /\ eth_speed c3 = speed /\ eth_duplex c3 = duplex /\
    l = [EvSocket fd; EvIoctl fd (ETHTOOL_GSET §"eth0") r1 c1;
         EvIoctl fd (ETHTOOL_SSET §"eth0" (mkEth (eth_speed c1) (eth_duplex c1) adv)) r2 x2; EvSleep 5000000;
         EvIoctl fd (ETHTOOL_GSET §"eth0") r3 c3].

Lemma speed_test_at line speed duplex adv msg n v p l s (Q : unit -> bstate -> Prop) X :
  at_ e n v p s -> evs s = l -> advertised speed duplex = Some adv -> is_int line -> short_msg msg -> n + 2 <= INT_MAX ->
  (forall m s', mode_set speed duplex adv m -> evs s' = l ++ m -> at_ e n v p s' -> Q tt s') ->
  (forall m s', evs s' = l ++ m -> X (verdict (Z.lor v TFAIL) p) s') ->
  runs (speed_test e line speed duplex msg) Q X s.
Proof.
  intros Hat He Ha Hline Hm Hn HQ HX. unfold speed_test, eth_set_and_test_speed_duplex, b_socket, eth_brkm. rewrite Ha.
  repeat prog_step; try discriminate.
  all: try (apply (brkm_runs e SE SB _ _ _ _ n v p); [exact Hat|split; [cbn; lia|done]|done|lia|repeat constructor|];
            intros s2 [_ E]; eapply HX; rewrite E, He, <- ?app_assoc; reflexivity).
  eapply HQ; [|rewrite He, <- !app_assoc; reflexivity|exact Hat].
  repeat match goal with H : _ || _ = false |- _ => apply orb_false_iff in H as [? ?] end.
  repeat match goal with H : negb _ = false |- _ => apply negb_false_iff in H; apply Z.eqb_eq in H end.
  exists a. do 6 eexists. split_and!; cycle -1; [reflexivity|now apply Z.ltb_ge|assumption..].
Qed.

(** *** The texts of the messages *)

Lemma length_octet b : (length (fmt_nat 10 (b mod 256)) <= 3)%nat.
Proof. apply num_str_length; [lia| |lia]. pose proof (Z.mod_pos_bound b 256). change (10 ^ Z.of_nat 3) with 1000. lia. Qed.

Lemma length_inet_ntoa bs : (length bs <= 4)%nat -> (length (inet_ntoa bs) <= 19)%nat.
Proof.
  intros Hl. unfold inet_ntoa.
  destruct bs as [|b0 [|b1 [|b2 [|b3 [|]]]]]; cbn [length] in Hl; try lia; cbn [fmap list_fmap join]; rewrite ?length_app;
    repeat match goal with |- context [fmt_nat 10 (?b mod 256)] =>
      let H := fresh in pose proof (length_octet b) as H; generalize dependent (fmt_nat 10 (b mod 256)); intros end;
    cbn [length str list_ascii_of_string]; lia.
Qed.

(** The names of the interfaces fit the array they are scanned into. *)
Definition short_names (lines : list cstr) : Prop :=
  Forall (fun buf => match scan_word buf with Some (w, _) => (length w <? 16)%nat | None => true end = true) lines.

Class Routes : Prop := { routes b path lines : (file_lines b path).2 = Some lines -> short_names lines }.
Context {RT : Routes} (bbb : bool).

Lemma eth_line_int line : 0 <= line <= 1000 -> is_int (eth_line bbb line).
Proof. unfold eth_line, is_int, INT_MIN, INT_MAX. destruct bbb; lia. Qed.

Lemma route_loop_at lines n v p l s (Q : cstr * Z -> bstate -> Prop) X :
  at_ e n v p s -> evs s = l -> n + 2 <= INT_MAX -> short_names lines ->
  (forall iface gateway, (length iface < 16)%nat -> Q (iface, gateway) s) ->
  (forall s', evs s' = l -> X (verdict (Z.lor v TFAIL) p) s') ->
  runs (route_loop e bbb lines) Q X s.
Proof.
  intros Hat He Hn Hf HQ HX. induction Hf as [|buf lines Hb Hf IH]; cbn [route_loop].
  - unfold eth_brkm. apply (brkm_runs e SE SB _ _ _ _ n v p); [done|split; [cbn; lia|apply eth_line_int; lia]|solve_msg|done|repeat constructor|].
    intros s' [_ E]. apply HX. congruence.
  - estep. apply runs_require; [exact Hb|]. unfold scan_route. destruct (scan_word buf) as [[w r]|]; [|exact IH].
    destruct (scan_lx r) as [[destination r2]|]; [|exact IH]. destruct (scan_lx r2) as [[gateway r3]|]; [|exact IH].
    destruct (destination =? 0); [|exact IH]. apply runs_ret, HQ. now apply Nat.ltb_lt.
Qed.

(** *** The program *)

Definition connected (l : list event) : bool :=
  existsb (fun ev => match ev with EvConnect _ ret => ret =? 0 | _ => false end) l.

(** A test that passes has connected to the server, and on the beaglebone it has set
    the four modes one after the other. *)
Definition eth_verdict (c : Z) (l : list event) : Prop :=
  (l = [] /\ c ∈ [0; TBROK; TCONF]) \/ c ∈ [TFAIL; TCONF] \/
  (c = 0 /\ connected l = true /\
   (bbb = true -> exists pre m1 m2 m3 m4, l = pre ++ m1 ++ m2 ++ m3 ++ m4 /\
      mode_set 10 DUPLEX_HALF 1 m1 /\ mode_set 10 DUPLEX_FULL 2 m2 /\ mode_set 100 DUPLEX_HALF 4 m3 /\ mode_set 100 DUPLEX_FULL 8 m4)).

Lemma file_lines_at n v p l s (Q : option (list cstr) -> bstate -> Prop) X :
  at_ e n v p s -> evs s = l ->
  (forall a s', (forall lines, a = Some lines -> short_names lines) -> evs s' = l ++ [EvFile §"/proc/net/route"] -> at_ e n v p s' -> Q a s') ->
  runs (sys (fun _ => EvFile §"/proc/net/route") (fun b => file_lines b §"/proc/net/route")) Q X s.
Proof.
  intros Hat He HQ. apply (sys_at e n v p l s Hat He). intros a s' E He' Hat'. apply HQ; try done.
  intros lines ->. apply (routes (board s) §"/proc/net/route"). now rewrite E.
Qed.

Ltac eth_step :=
  match goal with
  | |- context [eth_line bbb ?k] =>
      pose proof (eth_line_int k ltac:(lia)); generalize dependent (eth_line bbb k); intros
  | |- context [inet_ntoa (take 4 ?l)] =>
      pose proof (length_inet_ntoa (take 4 l) ltac:(rewrite length_take; lia)); generalize dependent (inet_ntoa (take 4 l)); intros
  | |- context [inet_ntoa (word_bytes ?w)] =>
      pose proof (length_inet_ntoa (word_bytes w) ltac:(cbn; lia)); generalize dependent (inet_ntoa (word_bytes w)); intros
  | Hat : at_ ?e ?n ?v ?p ?s, He : evs ?s = ?l |- runs (sys (fun _ => EvFile _) _) _ _ ?s =>
      apply (file_lines_at n v p l s _ _ Hat He); clear Hat He; intros ? ? ? He Hat
  | Hat : at_ ?e ?n ?v ?p ?s, He : evs ?s = ?l |- runs (route_loop _ _ ?lines) _ _ ?s =>
      apply (route_loop_at lines n v p l s _ _ Hat He); [solve_int|auto|intros ? ? ?; cbn [fst snd]|intros ? ?]
  | Hat : at_ ?e ?n ?v ?p ?s, He : evs ?s = ?l |- runs (speed_test _ ?line ?speed ?duplex ?msg) _ _ ?s =>
      eapply (speed_test_at line speed duplex _ msg n v p l s _ _ Hat He);
      [reflexivity|solve_int|solve_msg|solve_int|clear Hat He; intros ? ? ? He Hat|intros ? ? ?]
  end.

(** Whatever the board answers, the program ends; when it passes, the server was
    reached and on the beaglebone each of the four modes was set and read back. *)
Theorem eth_main_verdict k :
  exists c s, eth_main e bbb (mkB k tst0 []) = Exited c s /\ eth_verdict c (evs s).
Proof.
  apply runs_Exited. pose proof (lib_at_tst0 e : at_ e 0 0 0 (mkB k tst0 [])) as Hat.
  assert (He : evs (mkB k tst0 []) = []) by done.
  unfold eth_main, hostname_test, ipaddress_test, macaddr_test, gatewayaddr_test, getgatewayandiface, server_connection_test, b_socket,
    ethernet_speed_duplex_AN_test, eth_resm, eth_brkm.
  repeat (eth_step || prog_step).
  all: try (right; left; solve [solve_status]).
  all: end_calls; try (left; split; [reflexivity|solve [solve_status]]).
  all: right; right; split; [reflexivity|]; split; [|intros Hb; try (rewrite Hb in *; discriminate)].
  all: try (unfold connected; rewrite !existsb_app; cbn [existsb]; use_conds; rewrite ?orb_true_r; reflexivity).
  match goal with |- context [(((?pre ++ ?m1) ++ ?m2) ++ ?m3) ++ ?m4] => exists pre, m1, m2, m3, m4 end.
  split; [now rewrite <- !app_assoc|auto].
Qed.
End Eth.

Lemma bench_routes args ret : @Routes (bench args ret).
Proof. split. intros b path lines E. injection E as <-. repeat constructor. Qed.

Lemma eth_main_verdict_witness :
  exists c s, @eth_main (bench [] fine) bench_env false (@mkB (bench [] fine) blank tst0 []) = Exited c s /\
    eth_verdict false c (evs s) /\ c = 0.
Proof.
  destruct (@eth_main_verdict (bench [] fine) bench_env bench_env_short (bench_short _ _ ltac:(constructor)) (bench_routes _ _) false blank)
    as (c & s & E & H).
  exists c, s. split; [exact E|split; [exact H|]]. vm_compute in E. now injection E as <- _.
Defined.

(** ** The sound tests *)

Section Sound.
Context `{BD : Board} (e : tst_env) (SE : short_env e) (SB : short_board).

(** The commands can be run. *)
Context (Hpopen : forall b cmd, exists b' out, popen b cmd = (b', Some out)).

Lemma popen_at cmd n v p l s (Q : option (list Z) -> bstate -> Prop) X :
  at_ e n v p s -> evs s = l ->
  (forall out s', evs s' = l ++ [EvPopen cmd (Some out)] -> at_ e n v p s' -> Q (Some out) s') -> runs (run_popen cmd) Q X s.
Proof.
  intros Hat He HQ. unfold run_popen. apply (sys_at e n v p l s Hat He). intros a s' E He' Hat'.
  destruct (Hpopen (board s) cmd) as (b' & out & E'). rewrite E' in E. injection E as _ <-. now apply HQ.
Qed.

(** The program runs at most one command, and its status is that of [system]: a
    command that ran and failed counts as passed. *)
Definition sound_verdict (c : Z) (l : list event) : Prop :=
  match l with
  | [EvPopen _ (Some out); EvSystem _ ret] => out <> [] /\ c = if ret =? -1 then TFAIL else 0
  | [EvPopen _ (Some out)] => c = TFAIL
  | _ => l = [] /\ c ∈ [0; TBROK; TCONF]
  end.

Ltac sound_step :=
  match goal with
  | Hat : at_ ?e ?n ?v ?p ?s, He : evs ?s = ?l |- runs (run_popen ?cmd) _ _ ?s =>
      apply (popen_at cmd n v p l s _ _ Hat He); clear Hat He; intros ? ? He Hat
  | |- runs (require _) _ _ _ => apply runs_require; [apply Nat.ltb_lt; cbn [join]; rewrite ?length_app; cbn [length str list_ascii_of_string]; lia|]
  end.

Ltac sound_end :=
  end_calls; cbn [app sound_verdict]; first [reflexivity|split; [done|use_conds; reflexivity]|split; [done|solve [solve_status]]].

(** The status of the playback test, whatever the board answers. *)
Theorem audio_main_verdict prog alsacmd path_to_file more k :
  b_argv = prog :: alsacmd :: path_to_file :: more ->
  exists c s, audio_main e (mkB k tst0 []) = Exited c s /\ sound_verdict c (evs s).
Proof.
  intros Hargv. apply runs_Exited. pose proof (lib_at_tst0 e : at_ e 0 0 0 (mkB k tst0 [])) as Hat.
  assert (He : evs (mkB k tst0 []) = []) by done. pose proof (sb_argv SB) as Hl. rewrite Hargv in Hl.
  inversion_clear Hl as [|? ? _ Hl']. inversion_clear Hl' as [|? ? H1 Hl]. inversion_clear Hl as [|? ? H2 _].
  unfold audio_main, sound_init, test_play_file, aud_resm, build_cmd, run_system, argv. rewrite Hargv. cbn [lookup list_lookup].
  repeat (sound_step || prog_step); sound_end.
Qed.

(** Whatever the arguments are: the command is refused, or it is run. *)
Theorem speaker_main_verdict k :
  exists c s, speaker_main e (mkB k tst0 []) = Exited c s /\ sound_verdict c (evs s).
Proof.
  apply runs_Exited. pose proof (lib_at_tst0 e : at_ e 0 0 0 (mkB k tst0 [])) as Hat.
  assert (He : evs (mkB k tst0 []) = []) by done. pose proof (sb_argv SB) as Hl.
  unfold speaker_main, sound_init, test_speaker, spk_brkm, run_system, argv.
  destruct b_argv as [|prog [|kind [|count [|x more]]]]; cbn [length lookup list_lookup Nat.ltb Nat.leb andb]; unfold build_cmd.
  all: repeat match goal with H : Forall _ (_ :: _) |- _ => inversion_clear H end.
  all: repeat (sound_step || prog_step); sound_end.
Qed.
End Sound.

Definition sound_args : list cstr := [§"audio_playback_test"; §"aplay"; §"/root/test.wav"].

Lemma bench_popen args ret b cmd : exists b' out, @popen (bench args ret) b cmd = (b', Some out).
Proof. now eexists _, _. Qed.

Lemma audio_main_verdict_witness :
  exists c s, @audio_main (bench sound_args fine) bench_env (@mkB (bench sound_args fine) blank tst0 []) = Exited c s /\
    sound_verdict c (evs s) /\ c = 0.
Proof.
  destruct (@audio_main_verdict (bench sound_args fine) bench_env bench_env_short (bench_short sound_args fine ltac:(repeat constructor; cbn; lia))
    (bench_popen _ _) §"audio_playback_test" §"aplay" §"/root/test.wav" [] blank) as (c & s & E & H); [reflexivity|].
  exists c, s. split; [exact E|split; [exact H|]]. vm_compute in E. now injection E as <- _.
Defined.

Lemma speaker_main_verdict_witness :
  exists c s, @speaker_main (bench [] fine) bench_env (@mkB (bench [] fine) blank tst0 []) = Exited c s /\
    sound_verdict c (evs s) /\ c = TFAIL.
Proof.
  destruct (@speaker_main_verdict (bench [] fine) bench_env bench_env_short (bench_short _ _ ltac:(constructor)) (bench_popen _ _) blank)
    as (c & s & E & H).
  exists c, s. split; [exact E|split; [exact H|]]. vm_compute in E. now injection E as <- _.
Defined.
