(* ===== verification/EddtsPan.v ===== *)
(** A test and its driver: what pan writes to the result log about a test that used
    the result interface. *)
From Stdlib Require Import Ascii String ZArith Lia Bool.
From stdpp Require Import base list sets numbers.
From S2P Require Import Prelude CString Zoo PanColl PanOS Pan TstRes Effects OldRes OldResOk.

Local Open Scope Z_scope.

(** The wait status of a process that called [exit]. *)
Definition exit_wait (status : Z) : Z := Z.shiftl (Z.land status 255) 8.

Section Logged.
Context (e : tst_env) (SE : short_env e) (cfg : config).

(** The word of the log for the results of a test. *)
Definition log_word (xs : list report) : string :=
  if some_type TFAIL xs || some_type TBROK xs || some_type TWARN xs then "FAIL"
  else if some_type TCONF xs && negb (some_type TPASS xs) then "CONF"
  else "PASS".

(** pan's entry for a child with this wait status, and its counters after it. *)
Definition pan_entry (s : sched) (t : tag_pgrp) (stat_loc now : Z) : PanOS.M sched :=
  let '(w, status, _, _, _) := decode_status stat_loc in
  log_result cfg s t status w stat_loc now (0, 0) (0, 0).

(** C26: From the results a test reports to the line of the log: pan's word for it is FAIL
    when one of them failed, broke or warned, CONF when some were skipped and none
    passed, and PASS otherwise, with the exit status beside it; the counter of
    failures counts it exactly when the word is FAIL. *)
Theorem results_logged xs r s t now w :
  Forall short_report xs -> Forall (fun x => result_type (rtype x)) xs -> short_errs r -> Z.of_nat (length xs) <= INT_MAX ->
  logfile cfg = true -> fmt_print cfg = true ->
  exists st status s', (resm_all e xs;; OldRes.tst_exit e r) tst0 = @Effects.Exited _ unit status st /\
    pan_entry s t (exit_wait status) now w = Ok s' (add_event w (EvResult (tag_name t) (log_word xs) status)) /\
    failcnt s' = failcnt s + (if (log_word xs =? "FAIL")%string then 1 else 0).
Proof.
  intros Hs Hv Hr Hn Hlog Hfmt. destruct (exit_flags e SE xs r Hs Hv Hr Hn) as (st & E). exists st, (status_of xs).
  unfold pan_entry, log_result, status_of, log_word. rewrite Hlog, Hfmt, E. unfold status_of.
  destruct (some_type TFAIL xs), (some_type TBROK xs), (some_type TWARN xs), (some_type TCONF xs), (some_type TPASS xs);
    (eexists; split; [reflexivity|]; split; [reflexivity|cbn; lia]).
Qed.
End Logged.

Definition log_config : config := Build_config 1 true false false true false true true false false None false [].

Definition log_sched : sched := mkSched [empty_slot] [] 1 0 0 0 0 0 0 0 false.
Definition log_world : world := mkWorld 0 (Some zoo_empty) 0 0 0 0 0 [].

Lemma results_logged_witness :
  exists st status s',
    (resm_all (sample_tst_env None) sample_reports;; OldRes.tst_exit (sample_tst_env None) no_errs) tst0 = @Effects.Exited _ unit status st /\
    pan_entry log_config log_sched empty_slot (exit_wait status) 7 log_world = Ok s' (add_event log_world (EvResult [] "FAIL" status)).
Proof.
  destruct (results_logged (sample_tst_env None) (sample_short None) log_config sample_reports no_errs log_sched empty_slot 7 log_world)
    as (st & status & s' & E & Hp & _).
  - apply sample_reports_short.
  - repeat constructor; unfold result_type; rewrite !elem_of_cons; vm_compute; auto 8.
  - apply no_errs_short.
  - unfold INT_MAX. cbn. lia.
  - reflexivity.
  - reflexivity.
  - exists st, status, s'. split; [exact E|exact Hp].
Defined.
