(* ===== verification/LibCrc.v ===== *)
(** lib/tst_checksum.c: the CRC-32C by table, its equivalence with the division bit by
    bit, and the errors it detects. *)
From Stdlib Require Import ZArith Lia Bool.
From stdpp Require Import base list numbers.
From S2P Require Import Prelude.

Local Open Scope Z_scope.

Definition crc32c_table : list Z :=
  [
   0; 4067132163; 3778769143; 324072436; 3348797215; 904991772; 648144872; 3570033899;
   2329499855; 2024987596; 1809983544; 2575936315; 1296289744; 3207089363; 2893594407; 1578318884;
   274646895; 3795141740; 4049975192; 51262619; 3619967088; 632279923; 922689671; 3298075524;
   2592579488; 1760304291; 2075979607; 2312596564; 1562183871; 2943781820; 3156637768; 1313733451;
   549293790; 3537243613; 3246849577; 871202090; 3878099393; 357341890; 102525238; 4101499445;
   2858735121; 1477399826; 1264559846; 3107202533; 1845379342; 2677391885; 2361733625; 2125378298;
   820201905; 3263744690; 3520608582; 598981189; 4151959214; 85089709; 373468761; 3827903834;
   3124367742; 1213305469; 1526817161; 2842354314; 2107672161; 2412447074; 2627466902; 1861252501;
   1098587580; 3004210879; 2688576843; 1378610760; 2262928035; 1955203488; 1742404180; 2511436119;
   3416409459; 969524848; 714683780; 3639785095; 205050476; 4266873199; 3976438427; 526918040;
   1361435347; 2739821008; 2954799652; 1114974503; 2529119692; 1691668175; 2005155131; 2247081528;
   3690758684; 697762079; 986182379; 3366744552; 476452099; 3993867776; 4250756596; 255256311;
   1640403810; 2477592673; 2164122517; 1922457750; 2791048317; 1412925310; 1197962378; 3037525897;
   3944729517; 427051182; 170179418; 4165941337; 746937522; 3740196785; 3451792453; 1070968646;
   1905808397; 2213795598; 2426610938; 1657317369; 3053634322; 1147748369; 1463399397; 2773627110;
   4215344322; 153784257; 444234805; 3893493558; 1021025245; 3467647198; 3722505002; 797665321;
   2197175160; 1889384571; 1674398607; 2443626636; 1164749927; 3070701412; 2757221520; 1446797203;
   137323447; 4198817972; 3910406976; 461344835; 3484808360; 1037989803; 781091935; 3705997148;
   2460548119; 1623424788; 1939049696; 2180517859; 1429367560; 2807687179; 3020495871; 1180866812;
   410100952; 3927582683; 4182430767; 186734380; 3756733383; 763408580; 1053836080; 3434856499;
   2722870694; 1344288421; 1131464017; 2971354706; 1708204729; 2545590714; 2229949006; 1988219213;
   680717673; 3673779818; 3383336350; 1002577565; 4010310262; 493091189; 238226049; 4233660802;
   2987750089; 1082061258; 1395524158; 2705686845; 1972364758; 2279892693; 2494862625; 1725896226;
   952904198; 3399985413; 3656866545; 731699698; 4283874585; 222117402; 510512622; 3959836397;
   3280807620; 837199303; 582374963; 3504198960; 68661723; 4135334616; 3844915500; 390545967;
   1230274059; 3141532936; 2825850620; 1510247935; 2395924756; 2091215383; 1878366691; 2644384480;
   3553878443; 565732008; 854102364; 3229815391; 340358836; 3861050807; 4117890627; 119113024;
   1493875044; 2875275879; 3090270611; 1247431312; 2660249211; 1828433272; 2141937292; 2378227087;
   3811616794; 291187481; 34330861; 4032846830; 615137029; 3603020806; 3314634738; 939183345;
   1776939221; 2609017814; 2295496738; 2058945313; 2926798794; 1545135305; 1330124605; 3173225534;
   4084100981; 17165430; 307568514; 3762199681; 888469610; 3332340585; 3587147933; 665062302;
   2042050490; 2346497209; 2559330125; 1793573966; 3190661285; 1279665062; 1595330642; 2910671697].

(** [crc = crc32c_table[(crc ^ ( *buf++)) & 0xff] ^ (crc >> 8)] *)
Definition crc_step (crc b : Z) : Z :=
  Z.lxor (nth (Z.to_nat (Z.land (Z.lxor crc b) 255)) crc32c_table 0) (Z.shiftr crc 8).

(** [tst_crc32c(buf, buf_len)] *)
Definition tst_crc32c (buf : list Z) : Z := u32 (Z.lnot (fold_left crc_step buf 4294967295)).

(** ** The reference: the bits of the message one by one *)

(** The polynomial 0x1EDC6F41, its bits reversed. *)
Definition poly : Z := 2197175160.

Definition crc_bit (c : Z) : Z := if Z.odd c then Z.lxor (Z.shiftr c 1) poly else Z.shiftr c 1.

(** [n] bits. *)
Fixpoint crc_bits (n : nat) (c : Z) : Z := match n with O => c | S n => crc_bits n (crc_bit c) end.

Definition crc_byte (c b : Z) : Z := crc_bits 8 (Z.lxor c b).

Definition crc32c_ref (buf : list Z) : Z := u32 (Z.lnot (fold_left crc_byte buf 4294967295)).

Definition byte (b : Z) : Prop := 0 <= b < 256.
Definition word (c : Z) : Prop := 0 <= c < 4294967296.

(** ** The register is linear *)

Lemma crc_bit_lxor a b : crc_bit (Z.lxor a b) = Z.lxor (crc_bit a) (crc_bit b).
Proof.
  unfold crc_bit. rewrite <- !Z.bit0_odd, Z.lxor_spec, Z.shiftr_lxor.
  destruct (Z.testbit a 0), (Z.testbit b 0); cbn [xorb].
  - rewrite (Z.lxor_comm (Z.shiftr b 1) poly), Z.lxor_assoc, <- (Z.lxor_assoc poly poly), Z.lxor_nilpotent. now rewrite Z.lxor_0_l.
  - now rewrite !Z.lxor_assoc, (Z.lxor_comm poly).
  - now rewrite Z.lxor_assoc.
  - done.
Qed.

Lemma crc_bits_lxor n a b : crc_bits n (Z.lxor a b) = Z.lxor (crc_bits n a) (crc_bits n b).
Proof. revert a b. induction n as [|n IH]; intros a b; cbn [crc_bits]; [done|]. now rewrite crc_bit_lxor, IH. Qed.

Lemma crc_bits_add n m c : crc_bits (n + m) c = crc_bits m (crc_bits n c).
Proof. revert c. induction n as [|n IH]; intros c; cbn [crc_bits Nat.add]; [done|]. apply IH. Qed.

(** Bits that have not reached the end of the register are only moved. *)
Lemma crc_bits_shiftl n h : crc_bits n (Z.shiftl h (Z.of_nat n)) = h.
Proof.
  induction n as [|n IH]; [apply Z.shiftl_0_r|]. cbn [crc_bits]. rewrite <- IH at 2. f_equal. unfold crc_bit.
  rewrite <- Z.bit0_odd, Z.shiftl_spec_low by lia. rewrite Z.shiftr_shiftl_l by lia. f_equal. lia.
Qed.

Lemma split_low c n : 0 <= n -> c = Z.lxor (Z.land c (Z.ones n)) (Z.shiftl (Z.shiftr c n) n).
Proof.
  intros Hn. apply Z.bits_inj'. intros i Hi. rewrite Z.lxor_spec, Z.land_spec, Z.shiftl_spec by lia.
  destruct (Z.ltb_spec i n) as [H|H].
  - rewrite Z.ones_spec_low by lia. rewrite (Z.testbit_neg_r _ (i - n)) by lia. now rewrite andb_true_r, xorb_false_r.
  - rewrite Z.ones_spec_high by lia. rewrite Z.shiftr_spec by lia. rewrite andb_false_r, xorb_false_l. f_equal. lia.
Qed.

Lemma table_bits i : 0 <= i < 256 -> nth (Z.to_nat i) crc32c_table 0 = crc_bits 8 i.
Proof.
  intros Hi.
  assert (H : forallb (fun n => nth n crc32c_table 0 =? crc_bits 8 (Z.of_nat n)) (seq 0 256) = true) by (vm_compute; reflexivity).
  rewrite forallb_forall in H. specialize (H (Z.to_nat i)). cbv beta in H. rewrite Z2Nat.id in H by lia.
  apply Z.eqb_eq, H, in_seq. lia.
Qed.

(** A step of the table is eight steps of the register. *)
Lemma crc_step_byte c b : byte b -> crc_step c b = crc_byte c b.
Proof.
  intros Hb. unfold crc_step, crc_byte. change 255 with (Z.ones 8).
  rewrite table_bits by (rewrite Z.land_ones by lia; apply Z.mod_pos_bound; lia).
  rewrite (split_low (Z.lxor c b) 8) at 2 by lia. rewrite crc_bits_lxor. change 8 with (Z.of_nat 8) at 4 5.
  rewrite crc_bits_shiftl. f_equal. rewrite Z.shiftr_lxor. replace (Z.shiftr b (Z.of_nat 8)) with 0; [now rewrite Z.lxor_0_r|].
  symmetry. rewrite Z.shiftr_div_pow2 by lia. apply Z.div_small. exact Hb.
Qed.

Lemma fold_step_byte buf c : Forall byte buf -> fold_left crc_step buf c = fold_left crc_byte buf c.
Proof. intros Hb. revert c. induction Hb as [|b buf Hb _ IH]; intros c; cbn [fold_left]; [done|]. now rewrite crc_step_byte, IH. Qed.

(** C37: The checksum by table is that of the division bit by bit. *)
Theorem tst_crc32c_ref buf : Forall byte buf -> tst_crc32c buf = crc32c_ref buf.
Proof. intros Hb. unfold tst_crc32c, crc32c_ref. now rewrite fold_step_byte. Qed.

(** The check value of CRC-32C. *)
Lemma tst_crc32c_ref_witness :
  tst_crc32c [49; 50; 51; 52; 53; 54; 55; 56; 57] = crc32c_ref [49; 50; 51; 52; 53; 54; 55; 56; 57] /\
  tst_crc32c [49; 50; 51; 52; 53; 54; 55; 56; 57] = 3808858755.
Proof.
  split; [|vm_compute; reflexivity]. apply tst_crc32c_ref. repeat (constructor; [unfold byte; lia|]). constructor.
Defined.

(** ** What it detects *)

(** Bytes as the bits of a number, the first byte lowest. *)
Fixpoint bits_of (bs : list Z) : Z := match bs with [] => 0 | b :: bs => Z.lxor b (Z.shiftl (bits_of bs) 8) end.

Lemma fold_bytes bs c : fold_left crc_byte bs c = crc_bits (8 * length bs) (Z.lxor c (bits_of bs)).
Proof.
  revert c. induction bs as [|b bs IH]; intros c; cbn [fold_left bits_of length].
  - now rewrite Z.lxor_0_r.
  - rewrite IH. unfold crc_byte. replace (8 * S (length bs))%nat with (8 + 8 * length bs)%nat by lia.
    rewrite crc_bits_add. f_equal. rewrite <- Z.lxor_assoc, (crc_bits_lxor 8 (Z.lxor c b)). f_equal.
    symmetry. apply (crc_bits_shiftl 8).
Qed.

Lemma word_bits c : word c <-> 0 <= c /\ forall i, 32 <= i -> Z.testbit c i = false.
Proof.
  unfold word. change 4294967296 with (2 ^ 32). split.
  - intros [H1 H2]. split; [done|]. intros i Hi. destruct (Z.eq_dec c 0) as [->|]; [apply Z.bits_0|].
    apply Z.bits_above_log2; [done|]. apply Z.log2_lt_pow2; [lia|]. apply Z.lt_le_trans with (2 ^ 32); [done|].
    apply Z.pow_le_mono_r; lia.
  - intros [H1 H2]. split; [done|]. destruct (Z.eq_dec c 0) as [->|]; [done|]. apply Z.log2_lt_pow2; [lia|].
    destruct (Z.lt_ge_cases (Z.log2 c) 32) as [|H]; [done|]. specialize (H2 _ H). rewrite Z.bit_log2 in H2 by lia. done.
Qed.

Lemma word_lxor a b : word a -> word b -> word (Z.lxor a b).
Proof.
  rewrite !word_bits. intros [H1 H2] [H3 H4]. split; [apply Z.lxor_nonneg; tauto|]. intros i Hi. now rewrite Z.lxor_spec, H2, H4.
Qed.

Lemma word_shiftr a : word a -> word (Z.shiftr a 1).
Proof. unfold word. intros H. rewrite Z.shiftr_div_pow2 by lia. change (2 ^ 1) with 2. Z.to_euclidean_division_equations. lia. Qed.

Lemma word_poly : word poly.
Proof. unfold word, poly. lia. Qed.

Lemma crc_bit_word c : word c -> word (crc_bit c).
Proof. intros H. unfold crc_bit. destruct (Z.odd c); auto using word_lxor, word_shiftr, word_poly. Qed.

Lemma crc_bits_word n c : word c -> word (crc_bits n c).
Proof. revert c. induction n as [|n IH]; intros c H; cbn [crc_bits]; auto using crc_bit_word. Qed.

(** The bit that leaves the register is the top bit of the next state, so no two
    states have the same next one. *)
Lemma crc_bit_top c : word c -> Z.testbit (crc_bit c) 31 = Z.odd c.
Proof.
  intros H. apply word_bits in H as [_ H]. unfold crc_bit. destruct (Z.odd c); rewrite ?Z.lxor_spec, Z.shiftr_spec, H by lia; done.
Qed.

Lemma crc_bit_inj a b : word a -> word b -> crc_bit a = crc_bit b -> a = b.
Proof.
  intros Ha Hb E. assert (Ho : Z.odd a = Z.odd b) by now rewrite <- !crc_bit_top, E.
  assert (Hs : Z.shiftr a 1 = Z.shiftr b 1).
  { unfold crc_bit in E. rewrite Ho in E. destruct (Z.odd b); [|done].
    apply (f_equal (fun x => Z.lxor x poly)) in E. now rewrite !Z.lxor_assoc, !Z.lxor_nilpotent, !Z.lxor_0_r in E. }
  rewrite (Z.div2_odd a), (Z.div2_odd b), Ho, !Z.div2_spec. now rewrite Hs.
Qed.

Lemma crc_bits_inj n a b : word a -> word b -> crc_bits n a = crc_bits n b -> a = b.
Proof.
  revert a b. induction n as [|n IH]; intros a b Ha Hb E; cbn [crc_bits] in E; [done|].
  apply IH in E; auto using crc_bit_word. now apply crc_bit_inj.
Qed.

Lemma lxor_shift_add b x : byte b -> 0 <= x -> Z.lxor b (Z.shiftl x 8) = b + 256 * x.
Proof.
  intros Hb Hx. rewrite Z.shiftl_mul_pow2 by lia. change (2 ^ 8) with 256.
  rewrite <- Z.add_nocarry_lxor; [lia|]. apply Z.bits_inj'. intros n Hn. rewrite Z.land_spec, Z.bits_0.
  change 256 with (2 ^ 8). destruct (Z.lt_ge_cases n 8).
  - rewrite Z.mul_pow2_bits_low by lia. apply andb_false_r.
  - destruct (Z.eq_dec b 0) as [->|]; [now rewrite Z.bits_0|]. rewrite Z.bits_above_log2; [done|destruct Hb; lia|].
    apply Z.log2_lt_pow2; [destruct Hb; lia|]. apply Z.lt_le_trans with (2 ^ 8); [apply Hb|]. apply Z.pow_le_mono_r; lia.
Qed.

Lemma bits_of_bound bs : Forall byte bs -> 0 <= bits_of bs < 256 ^ Z.of_nat (length bs).
Proof.
  induction 1 as [|b bs Hb _ IH]; cbn [bits_of length]; [cbn; lia|].
  rewrite lxor_shift_add by (done || lia). rewrite Nat2Z.inj_succ, Z.pow_succ_r by lia. destruct Hb. lia.
Qed.

Lemma bits_of_inj xs ys : Forall byte xs -> Forall byte ys -> length xs = length ys -> bits_of xs = bits_of ys -> xs = ys.
Proof.
  intros Hx. revert ys. induction Hx as [|x xs Hx Hxs IH]; intros [|y ys] Hy Hl E; try done.
  inversion_clear Hy as [|? ? Hy1 Hys]. cbn [bits_of] in E.
  pose proof (bits_of_bound _ Hxs). pose proof (bits_of_bound _ Hys). rewrite !lxor_shift_add in E by (done || lia).
  unfold byte in *. assert (x = y) by lia. subst y. f_equal. apply IH; [done|now injection Hl|lia].
Qed.

Lemma bits_of_word bs : Forall byte bs -> (length bs <= 4)%nat -> word (bits_of bs).
Proof.
  intros Hb Hl. pose proof (bits_of_bound _ Hb) as H. split; [lia|]. apply Z.lt_le_trans with (256 ^ Z.of_nat (length bs)); [lia|].
  change 4294967296 with (256 ^ 4). apply Z.pow_le_mono_r; lia.
Qed.

Lemma fold_word bs c : Forall byte bs -> word c -> word (fold_left crc_byte bs c).
Proof.
  intros Hb. revert c. induction Hb as [|b bs Hb _ IH]; intros c Hc; cbn [fold_left]; [done|]. apply IH. unfold crc_byte.
  apply crc_bits_word, word_lxor; [done|]. unfold byte, word in *. lia.
Qed.

(** The state of the register can be told from its state after any bytes. *)
Lemma fold_inj bs a b : Forall byte bs -> word a -> word b -> fold_left crc_byte bs a = fold_left crc_byte bs b -> a = b.
Proof.
  intros Hb. revert a b. induction Hb as [|x bs Hx _ IH]; intros a b Ha Hbw E; cbn [fold_left] in E; [done|].
  assert (Hw : word x) by (unfold byte, word in *; lia).
  apply IH in E; [|apply crc_bits_word, word_lxor; done..]. apply crc_bits_inj in E; [|apply word_lxor; done..].
  apply (f_equal (fun y => Z.lxor y x)) in E. now rewrite !Z.lxor_assoc, Z.lxor_nilpotent, !Z.lxor_0_r in E.
Qed.

Lemma burst_state xs ys c :
  Forall byte xs -> Forall byte ys -> length xs = length ys -> (length xs <= 4)%nat -> word c ->
  fold_left crc_byte xs c = fold_left crc_byte ys c -> xs = ys.
Proof.
  intros Hx Hy Hl H4 Hc E. rewrite !fold_bytes, Hl in E.
  apply crc_bits_inj in E; [|apply word_lxor; [done|apply bits_of_word; [done|lia]]..].
  apply (f_equal (Z.lxor c)) in E. rewrite <- !Z.lxor_assoc, Z.lxor_nilpotent, !Z.lxor_0_l in E. now apply bits_of_inj.
Qed.

(** Two messages that differ only within four consecutive bytes have different
    checksums. *)
Theorem crc32c_detects_burst pre xs ys post :
  Forall byte pre -> Forall byte xs -> Forall byte ys -> Forall byte post ->
  length xs = length ys -> (length xs <= 4)%nat -> xs <> ys ->
  tst_crc32c (pre ++ xs ++ post) <> tst_crc32c (pre ++ ys ++ post).
Proof.
  intros Hp Hx Hy Hq Hl H4 Hne E. apply Hne. unfold tst_crc32c in E. rewrite !fold_step_byte in E by (rewrite !Forall_app; done).
  rewrite !fold_left_app in E. set (c := fold_left crc_byte pre 4294967295) in *.
  assert (Hc : word c) by (apply fold_word; [done|unfold word; lia]).
  apply (burst_state xs ys c); try done. apply (fold_inj post); auto using fold_word.
  pose proof (fold_word post _ Hq (fold_word xs c Hx Hc)) as H1. pose proof (fold_word post _ Hq (fold_word ys c Hy Hc)) as H2.
  unfold u32, uwrap, Z.lnot, word in *. change (2 ^ 32) with 4294967296 in E. Z.to_euclidean_division_equations. lia.
Qed.

Lemma crc32c_detects_burst_witness : tst_crc32c ([1] ++ [2; 3] ++ [4]) <> tst_crc32c ([1] ++ [3; 2] ++ [4]).
Proof.
  apply (crc32c_detects_burst [1] [2; 3] [3; 2] [4]); try discriminate; try reflexivity; [..|cbn; lia].
  all: repeat (constructor; [unfold byte; lia|]); constructor.
Defined.
