(* ===== verification/LibKver.v ===== *)
(** Kernel versions: how the library reads and compares them
    (lib/tst_kvercmp.c), and the shell helper that evaluates an expression of
    such comparisons (testcases/lib/tst_kvcmp.c). *)
From Stdlib Require Import Ascii String ZArith Lia Bool.
From stdpp Require Import base list sets numbers.
From S2P Require Import Prelude CString TstRes Effects OldRes.

Local Open Scope Z_scope.

(** ** Reading a version *)

Definition parse_digit (str : cstr) : option (Z * cstr) :=
  let '(v, end_) := strtoul 10 str in
  if (length str =? length end_)%nat then None
  else if INT_MAX <? v then None
  else Some (v, end_).

(** The return value, and [*v1], [*v2] and [*v3]. *)
Definition tst_parse_kver (str : cstr) : Z * (Z * Z * Z) :=
  match parse_digit str with
  | None => (1, (0, 0, 0))
  | Some (v1, str) =>
      match str with
      | "."%char :: str =>
          match parse_digit str with
          | None => (1, (v1, 0, 0))
          | Some (v2, str) =>
              match str with
              | [] | " "%char :: _ => (0, (v1, v2, 0))
              | "."%char :: str =>
                  match parse_digit str with
                  | None => (1, (v1, v2, 0))
                  | Some (v3, _) => (0, (v1, v2, v3))
                  end
              | _ => (1, (v1, v2, 0))
              end
          end
      | _ => (1, (v1, 0, 0))
      end
  end.

(** [sscanf(s, "%d...%d", ...)] for numbers with one character between them: the
    numbers that are stored. *)
Definition scan_d (s : cstr) : option (Z * cstr) :=
  match strto 10 s with
  | None => None
  | Some _ => let '(v, r, _) := strtol 10 s in Some (s32 v, r)
  end.

Fixpoint scan_ds (seps s : cstr) : list Z :=
  match scan_d s with
  | None => []
  | Some (v, r) =>
      v :: match seps, r with
           | c :: seps, x :: r => if ceqb c x then scan_ds seps r else []
           | _, _ => []
           end
  end.

(** The characters between the numbers of "%d.%d.%d-%d.%d". *)
Definition exv_seps : cstr := §"..-.".

Definition tst_kvcmp_distname (kver : cstr) : option cstr :=
  if strstr kver §".el5uek" is Some _ then Some §"OL5UEK"
  else if strstr kver §".el5" is Some _ then Some §"RHEL5"
  else if strstr kver §".el6uek" is Some _ then Some §"OL6UEK"
  else if strstr kver §".el6" is Some _ then Some §"RHEL6"
  else None.

(** ** Comparison *)

(** What the code that compares versions calls: [tst_resm], and the standard
    streams. *)
Class Console (S : Type) := {
  tst_resm : place -> Z -> cstr -> E S unit;
  print_out : cstr -> E S unit;
  print_err : cstr -> E S unit
}.

Inductive op := EQ | NE | GE | GT | LE | LT | AND | OR | ERR.

Section Kver.
Context {S : Type} `{C : Console S}.

(** Signed arithmetic that is undefined when it overflows. *)
Definition int_of (z : Z) : E S Z :=
  require ((INT_MIN <=? z) && (z <=? INT_MAX));; mret z.

Definition shl (a n : Z) : E S Z :=
  require (0 <=? a);; int_of (a * 2 ^ n).

Definition kver_code (a1 a2 a3 : Z) : E S Z :=
  x ← shl a1 16;
  y ← shl a2 8;
  z ← int_of (x + y);
  int_of (z + a3).

Definition tst_kvcmp (cur_kver : cstr) (r1 r2 r3 : Z) : E S Z :=
  let '(bad, (a1, a2, a3)) := tst_parse_kver cur_kver in
  when (negb (bad =? 0))
    (tst_resm (Some (§"tst_kvercmp.c", 87)) TWARN
       (§"Invalid kernel version " ++ cur_kver ++ §", expected %d.%d.%d"));;
  testver ← kver_code r1 r2 r3;
  currver ← kver_code a1 a2 a3;
  int_of (currver - testver).

(** [release] is what [uname] gives. *)
Definition tst_kvercmp (release : cstr) (r1 r2 r3 : Z) : E S Z :=
  tst_kvcmp release r1 r2 r3.

(** The first difference that is not zero; the last one otherwise. *)
Fixpoint first_diff (c t : list Z) : E S Z :=
  match c, t with
  | [c], [t] => int_of (c - t)
  | c :: cs, t :: ts =>
      ret ← int_of (c - t);
      if negb (ret =? 0) then mret ret else first_diff cs ts
  | _, _ => mret 0
  end.

(** Variables that [sscanf] does not reach stay zero. *)
Definition five (l : list Z) : list Z := map (fun i => nth i l 0) (seq 0 5).

Definition tst_kvexcmp (tst_exv cur_ver : cstr) : E S Z :=
  first_diff (five (scan_ds exv_seps cur_ver)) (five (scan_ds exv_seps tst_exv)).

(** [vers]: the entries before the one with a NULL name. *)
Fixpoint kvercmp2_loop (kver cur_dist_name : cstr) (r1 r2 r3 : Z) (vers : list (cstr * cstr)) : E S Z :=
  match vers with
  | [] => tst_kvcmp kver r1 r2 r3
  | (dist_name, extra_ver) :: vers =>
      if streq dist_name cur_dist_name then
        tst_resm (Some (§"tst_kvercmp.c", 161)) TINFO
          (§"Detected " ++ cur_dist_name ++ §" using kernel version " ++ kver);;
        tst_kvexcmp extra_ver kver
      else kvercmp2_loop kver cur_dist_name r1 r2 r3 vers
  end.

Definition tst_kvercmp2 (release : cstr) (r1 r2 r3 : Z) (vers : list (cstr * cstr)) : E S Z :=
  match tst_kvcmp_distname release with
  | None => tst_kvercmp release r1 r2 r3
  | Some cur_dist_name => kvercmp2_loop release cur_dist_name r1 r2 r3 vers
  end.

(** ** The shell helper *)

Definition strtop (s : cstr) : op :=
  if streq s §"-eq" then EQ
  else if streq s §"-ne" then NE
  else if streq s §"-ge" then GE
  else if streq s §"-gt" then GT
  else if streq s §"-le" then LE
  else if streq s §"-lt" then LT
  else if streq s §"-a" then AND
  else if streq s §"-o" then OR
  else ERR.

Definition help (fname : cstr) : E S unit :=
  print_out (§"usage: " ++ fname ++ §" -eq|-ne|-gt|-ge|-lt|-le kver [-a|-o] ..." ++ [LF; LF]);;
  print_out (§"-eq kver" ++ [TAB] ++ §"Returns true if kernel version is equal" ++ [LF]);;
  print_out (§"-ne kver" ++ [TAB] ++ §"Returns true if kernel version is not equal" ++ [LF]);;
  print_out (§"-gt kver" ++ [TAB] ++ §"Returns true if kernel version is greater" ++ [LF]);;
  print_out (§"-ge kver" ++ [TAB] ++ §"Returns true if kernel version is greater or equal" ++ [LF]);;
  print_out (§"-lt kver" ++ [TAB] ++ §"Returns true if kernel version is lesser" ++ [LF]);;
  print_out (§"-le kver" ++ [TAB] ++ §"Returns true if kernel version is lesser or equal" ++ [LF]);;
  print_out (§"-a  " ++ [TAB; TAB] ++ §"Does logical and between two expressions" ++ [LF]);;
  print_out (§"-o  " ++ [TAB; TAB] ++ §"Does logical or between two expressions" ++ [LF; LF]);;
  print_out (§"Kernel version format has either one or two dots:" ++ [LF; LF]);;
  print_out (§"'2.6' or '4.8.1'" ++ [LF; LF]);;
  print_out (§"Kernel version can also be followed by a space separated list" ++ [LF]);;
  print_out (§"of extra versions prefixed by distribution which when matched" ++ [LF]);;
  print_out (§"take precedence:" ++ [LF; LF] ++ §"'3.0 RHEL6:2.6.18'" ++ [LF; LF]).

(** The loop over the extra versions: [None] when none of them decides. *)
Fixpoint extra_loop (cur_kver : cstr) (distname : option cstr) (exvers : list cstr) : E S (option Z) :=
  match exvers with
  | [] => mret None
  | exver :: exvers =>
      match strchr exver ":" with
      | None =>
          print_err (§"Invalid extra version '" ++ exver ++ §"'" ++ [LF]);;
          exit 2
      | Some exkver =>
          let name := take (length exver - length exkver) exver in
          if match distname with None => true | Some d => negb (streq d name) end
          then extra_loop cur_kver distname exvers
          else r ← tst_kvexcmp (tail exkver) cur_kver; mret (Some r)
      end
  end.

(** [ver] is NULL when [kver] has no token. *)
Definition compare_kver (cur_kver kver : cstr) : E S Z :=
  let distname := tst_kvcmp_distname cur_kver in
  let tokens := strtok_all §" " kver in
  r ← extra_loop cur_kver distname (tail tokens);
  match r with
  | Some ret => mret ret
  | None =>
      match head tokens with
      | None => undefined
      | Some ver =>
          let '(bad, (v1, v2, v3)) := tst_parse_kver ver in
          if negb (bad =? 0) then
            print_err (§"Invalid kernel version '" ++ ver ++ §"'" ++ [LF]);;
            mret 2
          else tst_kvcmp cur_kver v1 v2 v3
      end
  end.

Definition op_result (o : op) (res : Z) : Z :=
  match o with
  | EQ => Z.b2z (res =? 0)
  | NE => Z.b2z (negb (res =? 0))
  | GE => Z.b2z (0 <=? res)
  | GT => Z.b2z (0 <? res)
  | LE => Z.b2z (res <=? 0)
  | LT => Z.b2z (res <? 0)
  | _ => res
  end.

(** The second switch: the new values of [ret] and [prev_op]. *)
Definition combine_ops (prev_op : op) (ret res : Z) : Z * op :=
  match prev_op with
  | ERR => (res, ERR)
  | AND => (Z.b2z (negb (ret =? 0) && negb (res =? 0)), ERR)
  | OR => (Z.b2z (negb (ret =? 0) || negb (res =? 0)), ERR)
  | _ => (ret, prev_op)
  end.

Definition is_ERR (o : op) : bool := match o with ERR => true | _ => false end.

(** The loop of [main] over the arguments that are left; [printf] of glibc
    writes (null) for a NULL string. *)
Fixpoint kvcmp_loop (release : cstr) (args : list cstr) (ret : Z) (prev_op : op) : E S Z :=
  match args with
  | [] =>
      if negb (is_ERR prev_op) then
        print_err (§"Useless -a or -o at the end" ++ [LF]);;
        mret 2
      else mret (Z.b2z (ret =? 0))
  | strop :: args =>
      match strtop strop with
      | ERR =>
          print_err (§"Invalid operation " ++ default §"(null)" (head args) ++ [LF]);;
          mret 2
      | (AND | OR) as o =>
          if ret =? -1 then
            print_err (§"The " ++ strop ++ §" must follow expression" ++ [LF]);;
            mret 2
          else kvcmp_loop release args ret o
      | o =>
          if negb (ret =? -1) && is_ERR prev_op then
            print_err (§"Expected -a or -o" ++ [LF]);;
            mret 2
          else
            match args with
            | [] =>
                print_err (§"Expected kernel version after '" ++ strop ++ §"'" ++ [LF]);;
                mret 2
            | strkver :: args =>
                res ← compare_kver release strkver;
                let '(ret, prev_op) := combine_ops prev_op ret (op_result o res) in
                kvcmp_loop release args ret prev_op
            end
      end
  end.

Definition kvcmp_main (release : cstr) (argv : list cstr) : E S Z :=
  match argv with
  | _ :: a1 :: args =>
      if streq a1 §"-h" then help (default [] (head argv));; mret 0
      else kvcmp_loop release (a1 :: args) (-1) ERR
  | _ => help (default [] (head argv));; mret 0
  end.
End Kver.

(** The console of a program: the old results and what is on the two streams. *)
Record streams := mkStreams { st_lib : tst; st_out : list cstr; st_err : list cstr }.

Definition lib_call {A} (m : E tst A) : E streams A := fun s =>
  match m (st_lib s) with
  | Done a t => Done a (mkStreams t (st_out s) (st_err s))
  | Exited c t => Exited c (mkStreams t (st_out s) (st_err s))
  | Undefined => Undefined
  end.

Definition old_console (e : tst_env) (r : errs) : Console streams := {|
  tst_resm p ttype msg := lib_call (tst_resm_ e r p ttype msg);
  print_out x := modify (fun s => mkStreams (st_lib s) (st_out s ++ [x]) (st_err s));
  print_err x := modify (fun s => mkStreams (st_lib s) (st_out s) (st_err s ++ [x]))
|}.

(** ** The order of versions *)

Fixpoint lex (a b : list Z) : comparison :=
  match a, b with
  | x :: a, y :: b => match x ?= y with Eq => lex a b | c => c end
  | _, _ => Eq
  end.

Definition uint (z : Z) : Prop := 0 <= z <= INT_MAX.

(** A version whose parts fit in the byte that [tst_kvcmp] has for them. *)
Definition small_ver (v : list Z) : Prop :=
  match v with [a; b; c] => 0 <= a <= 32767 /\ 0 <= b <= 255 /\ 0 <= c <= 255 | _ => False end.

Fixpoint render (seps : cstr) (v : list Z) {struct v} : cstr :=
  match v with
  | [] => []
  | [x] => fmt_d x
  | x :: v => fmt_d x ++ match seps with c :: seps => c :: render seps v | [] => [] end
  end.

(** [rest] neither continues the last of the numbers nor adds one. *)
Definition no_more (sep : option ascii) (rest : cstr) : Prop :=
  match rest with
  | [] => True
  | x :: r => isdigit x = false /\ (sep = Some x -> strto 10 r = None)
  end.

Lemma no_more_ends sep rest : no_more sep rest -> ends_number 10 rest.
Proof. destruct rest; [done|]. now intros [H _]. Qed.

Lemma parse_digit_fmt n r : uint n -> ends_number 10 r -> parse_digit (fmt_d n ++ r) = Some (n, r).
Proof.
  unfold uint, INT_MAX. intros Hn Hr. rewrite fmt_d_nonneg by lia. unfold parse_digit, strtoul.
  pose proof (strto_fmt_nat false n r ltac:(lia) Hr) as E. cbn [app] in E. rewrite E.
  rewrite (proj2 (Z.ltb_ge ULONG_MAX n)) by (unfold ULONG_MAX; lia). pose proof (fmt_nat_nonnil 10 n) as Hnn.
  rewrite length_app, (proj2 (Nat.eqb_neq _ _)) by (destruct (fmt_nat 10 n); [done|cbn; lia]).
  rewrite (proj2 (Z.ltb_ge INT_MAX n)) by (unfold INT_MAX; lia). done.
Qed.

Lemma scan_d_fmt n r : uint n -> ends_number 10 r -> scan_d (fmt_d n ++ r) = Some (n, r).
Proof.
  unfold uint, INT_MAX. intros Hn Hr. unfold scan_d.
  rewrite strtol_fmt_d by (done || (unfold LONG_MIN, LONG_MAX; lia)). rewrite fmt_d_nonneg by lia.
  pose proof (strto_fmt_nat false n r ltac:(lia) Hr) as E. cbn [app] in E. rewrite E.
  rewrite s32_small; [done|unfold INT_MIN, INT_MAX; lia].
Qed.

(** [tst_parse_kver] reads a version of three numbers, or of two. *)
Lemma parse_kver_3 a b c rest :
  uint a -> uint b -> uint c -> ends_number 10 rest ->
  tst_parse_kver (render §".." [a; b; c] ++ rest) = (0, (a, b, c)).
Proof.
  intros Ha Hb Hc Hr. cbn [render str list_ascii_of_string]. unfold tst_parse_kver.
  rewrite <- !app_assoc. cbn [app]. rewrite parse_digit_fmt by done. rewrite <- app_assoc. cbn [app].
  rewrite parse_digit_fmt by done. now rewrite parse_digit_fmt.
Qed.

Lemma parse_kver_2 a b : uint a -> uint b -> tst_parse_kver (render §".." [a; b]) = (0, (a, b, 0)).
Proof.
  intros Ha Hb. cbn [render str list_ascii_of_string]. unfold tst_parse_kver.
  rewrite parse_digit_fmt by done. rewrite <- (app_nil_r (fmt_d b)). now rewrite parse_digit_fmt.
Qed.

(** [sscanf] reads as many numbers as there are. *)
Lemma scan_ds_render seps v rest :
  Forall uint v -> Forall (fun c => isdigit c = false) seps -> v <> [] -> (length v <= S (length seps))%nat ->
  no_more (seps !! (length v - 1)%nat) rest -> scan_ds seps (render seps v ++ rest) = v.
Proof.
  intros Hv. revert seps. induction Hv as [|x v Hx Hv IH]; intros seps Hs Hne Hl Hm; [done|].
  destruct v as [|y v].
  - cbn [render length Nat.sub] in *. destruct seps as [|c seps]; cbn [scan_ds]; rewrite scan_d_fmt by eauto using no_more_ends; [done|].
    destruct rest as [|r rest]; [done|]. destruct Hm as [_ Hm]. destruct (ceqb c r) eqn:E; [|done].
    apply ceqb_eq in E. subst r. f_equal. specialize (Hm eq_refl). destruct seps; cbn [scan_ds]; unfold scan_d; now rewrite Hm.
  - destruct seps as [|c seps]; [cbn in Hl; lia|]. inversion_clear Hs as [|? ? Hc Hs'].
    cbn [scan_ds]. change (render (c :: seps) (x :: y :: v)) with (fmt_d x ++ c :: render seps (y :: v)).
    rewrite <- app_assoc. cbn [app]. rewrite scan_d_fmt by done. rewrite ceqb_refl. f_equal. apply IH; try done.
    + cbn in Hl |- *. lia.
    + cbn [length Nat.sub] in *. rewrite Nat.sub_0_r. exact Hm.
Qed.

(** ** Comparison is the order of versions *)

Section Order.
Context {S : Type} `{C : Console S}.

Lemma int_of_ok z (s : S) : INT_MIN <= z <= INT_MAX -> int_of z s = Done z s.
Proof.
  intros Hz. unfold int_of. rewrite (bind_Done _ _ tt s s); [done|]. unfold require.
  rewrite (proj2 (Z.leb_le _ _)), (proj2 (Z.leb_le _ _)) by lia. done.
Qed.

Lemma kver_code_ok a b c (s : S) : small_ver [a; b; c] -> kver_code a b c s = Done (a * 65536 + b * 256 + c) s.
Proof.
  intros (Ha & Hb & Hc). unfold kver_code, shl.
  assert (Hs : forall x n, 0 <= x -> 0 <= n -> x * 2 ^ n <= INT_MAX ->
               (require (0 <=? x);; int_of (x * 2 ^ n)) s = Done (x * 2 ^ n) s).
  { intros x n Hx Hn Hm. rewrite (bind_Done _ _ tt s s) by (unfold require; rewrite (proj2 (Z.leb_le _ _)) by lia; done).
    apply int_of_ok. unfold INT_MIN. pose proof (Z.pow_nonneg 2 n). nia. }
  rewrite (bind_Done _ _ _ s s (Hs a 16 ltac:(lia) ltac:(lia) ltac:(unfold INT_MAX; lia))).
  rewrite (bind_Done _ _ _ s s (Hs b 8 ltac:(lia) ltac:(lia) ltac:(unfold INT_MAX; lia))).
  rewrite (bind_Done _ _ _ s s (int_of_ok (a * 2 ^ 16 + b * 2 ^ 8) s ltac:(unfold INT_MIN, INT_MAX; lia))).
  apply int_of_ok. unfold INT_MIN, INT_MAX. lia.
Qed.

Lemma small_uint a b c : small_ver [a; b; c] -> uint a /\ uint b /\ uint c.
Proof. unfold small_ver, uint, INT_MAX. lia. Qed.

Lemma compare_sub x y : (x - y ?= 0) = (x ?= y).
Proof. destruct (Z.compare_spec (x - y) 0), (Z.compare_spec x y); lia || done. Qed.

Lemma kvcmp_order a v rest (s : S) :
  small_ver a -> small_ver v -> ends_number 10 rest ->
  exists r, tst_kvcmp (render §".." a ++ rest) (nth 0 v 0) (nth 1 v 0) (nth 2 v 0) s = Done r s /\ (r ?= 0) = lex a v.
Proof.
  intros Ha Hv Hr. destruct a as [|a1 [|a2 [|a3 [|]]]]; try done. destruct v as [|v1 [|v2 [|v3 [|]]]]; try done. cbn [nth].
  unfold tst_kvcmp. destruct (small_uint _ _ _ Ha) as (U1 & U2 & U3). rewrite parse_kver_3 by done.
  rewrite (bind_Done _ _ tt s s) by done.
  rewrite (bind_Done _ _ _ s s (kver_code_ok _ _ _ s Hv)). rewrite (bind_Done _ _ _ s s (kver_code_ok _ _ _ s Ha)).
  eexists. split; [apply int_of_ok; unfold small_ver, INT_MIN, INT_MAX in *; lia|]. unfold small_ver in *. cbn [lex].
  rewrite compare_sub. destruct (Z.compare_spec a1 v1), (Z.compare_spec a2 v2), (Z.compare_spec a3 v3); subst;
    rewrite ?Z.compare_lt_iff, ?Z.compare_gt_iff, ?Z.compare_eq_iff; lia.
Qed.

Lemma first_diff_order a b (s : S) :
  Forall uint a -> Forall uint b -> length a = length b -> exists r, first_diff a b s = Done r s /\ (r ?= 0) = lex a b.
Proof.
  intros Ha. revert b. induction Ha as [|x a Hx Ha IH]; intros b Hb Hl; destruct b as [|y b]; try done; [now exists 0|].
  inversion_clear Hb as [|? ? Hy Hb']. unfold uint, INT_MAX in *. cbn [first_diff lex].
  assert (Hi : int_of (x - y) s = Done (x - y) s) by (apply int_of_ok; unfold INT_MIN, INT_MAX; lia).
  assert (Hrec : exists r, (ret ← int_of (x - y); if negb (ret =? 0) then mret ret else first_diff a b) s = Done r s /\
                 (r ?= 0) = match x ?= y with Eq => lex a b | c => c end).
  { rewrite (bind_Done _ _ _ s s Hi). destruct (Z.eqb_spec (x - y) 0) as [E|E]; cbn [negb].
    - replace y with x by lia. rewrite Z.compare_refl. apply IH; [done|now injection Hl].
    - exists (x - y). split; [done|]. rewrite compare_sub. destruct (Z.compare_spec x y); [lia|done|done]. }
  destruct a as [|x' a], b as [|y' b]; try done. exists (x - y). split; [done|]. rewrite compare_sub. cbn [lex]. now destruct (x ?= y).
Qed.

Lemma five_uint l : Forall uint l -> Forall uint (five l).
Proof.
  intros Hl. unfold five. apply Forall_map, Forall_true. intros i. cbn. destruct (nth_in_or_default i l 0) as [Hi| ->].
  - rewrite Forall_forall in Hl. now apply Hl.
  - unfold uint, INT_MAX. lia.
Qed.

(** The versions of distributions: up to five numbers. *)
Lemma kvexcmp_order v cur (s : S) :
  Forall uint v -> v <> [] -> (length v <= 5)%nat -> Forall uint (scan_ds exv_seps cur) ->
  exists r, tst_kvexcmp (render exv_seps v) cur s = Done r s /\ (r ?= 0) = lex (five (scan_ds exv_seps cur)) (five v).
Proof.
  intros Hv Hne Hl Hc. unfold tst_kvexcmp. rewrite <- (app_nil_r (render exv_seps v)).
  rewrite scan_ds_render; try done; [|repeat constructor].
  apply first_diff_order; [now apply five_uint..|done].
Qed.

(** ** Expressions *)

(** An argument of the helper: a version, and versions for distributions. *)
Record wanted := mkWanted { w_ver : list Z; w_extra : list (cstr * list Z) }.

Definition extra_text (x : cstr * list Z) : cstr := x.1 ++ ":"%char :: render exv_seps x.2.
Definition w_text (w : wanted) : cstr := join [" "%char] (render §".." (w_ver w) :: map extra_text (w_extra w)).

Definition three (v : list Z) : list Z := [nth 0 v 0; nth 1 v 0; nth 2 v 0].

Definition extra_ok (x : cstr * list Z) : Prop :=
  (" "%char ∉ x.1) /\ (":"%char ∉ x.1) /\ Forall uint x.2 /\ x.2 <> [] /\ (length x.2 <= 5)%nat.

Definition wanted_ok (w : wanted) : Prop :=
  (length (w_ver w) = 2 \/ length (w_ver w) = 3)%nat /\ small_ver (three (w_ver w)) /\ Forall extra_ok (w_extra w).

(** The version of the first entry for the distribution. *)
Fixpoint pick (d : option cstr) (extra : list (cstr * list Z)) : option (list Z) :=
  match extra with
  | [] => None
  | (name, v) :: extra => if decide (d = Some name) then Some v else pick d extra
  end.

(** How the release, a kernel of version [a], compares with [w]. *)
Definition order (a : list Z) (release : cstr) (w : wanted) : comparison :=
  match pick (tst_kvcmp_distname release) (w_extra w) with
  | Some v => lex (five (scan_ds exv_seps release)) (five v)
  | None => lex a (three (w_ver w))
  end.

Lemma extra_loop_order release d extra (s : S) :
  Forall extra_ok extra -> Forall uint (scan_ds exv_seps release) ->
  match pick d extra with
  | None => extra_loop release d (map extra_text extra) s = Done None s
  | Some v => exists r, extra_loop release d (map extra_text extra) s = Done (Some r) s /\
                (r ?= 0) = lex (five (scan_ds exv_seps release)) (five v)
  end.
Proof.
  intros He Hr. induction He as [|[name v] extra (H1 & H2 & H3 & H4 & H5) _ IH]; [done|]. cbn [pick map extra_loop fst snd] in *.
  change (extra_text (name, v)) with (name ++ ":"%char :: render exv_seps v). rewrite strchr_app by done.
  set (t := ":"%char :: render exv_seps v). replace (take (length (name ++ t) - length t) (name ++ t)) with name
    by (rewrite length_app, Nat.add_sub; symmetry; apply take_app_length).
  cbn [tail t]. destruct (decide _) as [->|Hd].
  - rewrite streq_refl. cbn [negb]. destruct (kvexcmp_order v release s H3 H4 H5 Hr) as (r & E1 & E2). exists r. split; [|done].
    now rewrite (bind_Done _ _ r s s E1).
  - replace (match d with Some d => negb (streq d name) | None => true end) with true; [exact IH|].
    destruct d as [d|]; [|done]. symmetry. apply negb_true_iff, streq_false. congruence.
Qed.

Lemma digits_not c b n : 2 <= b <= 36 -> 0 <= n -> isdigit_base b c = false -> c ∉ fmt_nat b n.
Proof.
  intros Hb Hn Hc Hin. pose proof (fmt_nat_isdigit b n Hb Hn) as Hd. rewrite Forall_forall in Hd. apply list_elem_of_In in Hin.
  rewrite (Hd _ Hin) in Hc. done.
Qed.

Lemma render_no_space seps v : Forall uint v -> " "%char ∉ seps -> " "%char ∉ render seps v.
Proof.
  intros Hv. revert seps. induction Hv as [|x v Hx _ IH]; intros seps Hs; cbn [render]; [set_solver|].
  assert (Hd : " "%char ∉ fmt_d x).
  { destruct Hx. rewrite fmt_d_nonneg by done. apply digits_not; [lia|done|reflexivity]. }
  destruct v as [|y v]; [done|]. destruct seps as [|c seps]; [set_solver|]. specialize (IH seps ltac:(set_solver)). set_solver.
Qed.

Lemma w_tokens w :
  wanted_ok w -> strtok_all §" " (w_text w) = render §".." (w_ver w) :: map extra_text (w_extra w).
Proof.
  intros (Hl & Hv & He). unfold w_text. apply strtok_all_join; [set_solver|].
  assert (Hn : forall t : cstr, " "%char ∉ t -> Forall (fun x => x ∉ §" ") t).
  { intros t Ht. apply Forall_forall. intros x Hx Hin. apply list_elem_of_In in Hx. cbn in Hin. set_solver. }
  constructor; [|apply Forall_map; eapply Forall_impl; [|exact He]].
  - split; [|apply Hn, render_no_space; [|cbn; set_solver]].
    + destruct (w_ver w) as [|x [|y v]]; cbn in Hl; try lia. cbn [render]. intros E. now apply app_nil in E as [_ E].
    + destruct (w_ver w) as [|x [|y [|z [|]]]]; cbn in Hl; try lia; destruct (small_uint _ _ _ Hv) as (? & ? & ?);
        repeat (constructor; [done|]); constructor.
  - intros [d v] (H1 & H2 & H3 & H4 & H5). unfold extra_text. cbn [fst snd] in *. split; [now destruct d|]. apply Hn.
    pose proof (render_no_space exv_seps v H3 ltac:(cbn; set_solver)). set_solver.
Qed.

Lemma compare_order a rest w (s : S) :
  let release := render §".." a ++ rest in
  small_ver a -> ends_number 10 rest -> Forall uint (scan_ds exv_seps release) -> wanted_ok w ->
  exists r, compare_kver release (w_text w) s = Done r s /\ (r ?= 0) = order a release w.
Proof.
  intros release Ha Hr Hu Hw. pose proof (w_tokens w Hw) as Ht. destruct Hw as (Hl & Hv & He). unfold compare_kver, order. rewrite Ht. cbn [tail head].
  pose proof (extra_loop_order release (tst_kvcmp_distname release) (w_extra w) s He Hu) as Hx.
  destruct (pick _ _) as [v|]; [destruct Hx as (r & E1 & E2); exists r; split; [|done]; now rewrite (bind_Done _ _ _ s s E1)|].
  rewrite (bind_Done _ _ _ s s Hx). destruct (kvcmp_order a _ rest s Ha Hv Hr) as (r & E1 & E2). exists r. split; [|done].
  destruct (w_ver w) as [|a1 [|a2 [|a3 [|]]]]; cbn in Hl; try lia; cbn [three nth] in *;
    destruct (small_uint _ _ _ Hv) as (U1 & U2 & U3).
  - rewrite parse_kver_2 by done. exact E1.
  - rewrite <- (app_nil_r (render _ _)). rewrite parse_kver_3 by done. exact E1.
Qed.
(** A comparison as it is written on the command line, and when it holds. *)
Inductive rel := Req | Rne | Rge | Rgt | Rle | Rlt.

Definition rel_text (r : rel) : cstr :=
  match r with Req => §"-eq" | Rne => §"-ne" | Rge => §"-ge" | Rgt => §"-gt" | Rle => §"-le" | Rlt => §"-lt" end.

Definition rel_holds (r : rel) (c : comparison) : bool :=
  match r, c with
  | Req, Eq | Rne, (Lt | Gt) | Rge, (Eq | Gt) | Rgt, Gt | Rle, (Eq | Lt) | Rlt, Lt => true
  | _, _ => false
  end.

Definition test : Type := rel * wanted.

(** An expression: a test, and more of them, each joined by -a ([true]) or -o. *)
Definition test_args (t : test) : list cstr := [rel_text t.1; w_text t.2].
Definition joined_args (x : bool * test) : list cstr := (if x.1 then §"-a" else §"-o") :: test_args x.2.

Definition test_holds (a : list Z) (release : cstr) (t : test) : bool := rel_holds t.1 (order a release t.2).

(** No connective binds stronger than the other. *)
Definition eval (a : list Z) (release : cstr) (t : test) (ts : list (bool * test)) : bool :=
  fold_left (fun v x => let w := test_holds a release x.2 in if x.1 : bool then v && w else v || w) ts (test_holds a release t).

Definition rel_op (r : rel) : op :=
  match r with Req => EQ | Rne => NE | Rge => GE | Rgt => GT | Rle => LE | Rlt => LT end.

Lemma strtop_rel r : strtop (rel_text r) = rel_op r.
Proof. now destruct r. Qed.

Lemma rel_result r res : op_result (rel_op r) res = Z.b2z (rel_holds r (res ?= 0)).
Proof.
  destruct r; cbn [op_result rel_op]; f_equal; destruct (Z.compare_spec res 0) as [->|Hr|Hr]; cbn [rel_holds]; try reflexivity; lia.
Qed.

Section Expression.
Variables (a : list Z) (rest : cstr).
Let release : cstr := render §".." a ++ rest.
Hypothesis Ha : small_ver a.
Hypothesis Hrest : ends_number 10 rest.
Hypothesis Hu : Forall uint (scan_ds exv_seps release).

(** One test of the loop. *)
Lemma loop_test t args ret prev (s : S) :
  wanted_ok t.2 -> (ret = -1 \/ prev <> ERR) ->
  kvcmp_loop release (test_args t ++ args) ret prev s =
  (let '(ret, prev) := combine_ops prev ret (Z.b2z (test_holds a release t)) in kvcmp_loop release args ret prev) s.
Proof.
  intros Hw Hp. destruct t as [r w]. cbn [fst snd test_args app] in *.
  destruct (compare_order a rest w s Ha Hrest Hu Hw) as (res & E1 & E2). fold release in E1, E2.
  unfold test_holds. cbn [fst snd]. rewrite <- E2, <- rel_result.
  assert (Hg : negb (ret =? -1) && is_ERR prev = false).
  { destruct Hp as [->|Hp]; [done|]. destruct prev; cbn; try apply andb_false_r. done. }
  cbn [kvcmp_loop]. rewrite strtop_rel. destruct r; cbn [rel_op]; rewrite Hg; now rewrite (bind_Done _ _ _ s s E1).
Qed.

Lemma loop_joined ts v (s : S) :
  Forall (fun x => wanted_ok x.2.2) ts ->
  kvcmp_loop release (concat (map joined_args ts)) (Z.b2z v) ERR s =
  Done (if fold_left (fun v x => let w := test_holds a release x.2 in if x.1 : bool then v && w else v || w) ts v then 0 else 1) s.
Proof.
  intros Hts. revert v. induction Hts as [|[conn t] ts Ht _ IH]; intros v; [now destruct v|].
  cbn [map concat fold_left fst snd] in *. set (w := test_holds a release t).
  replace (kvcmp_loop release (joined_args (conn, t) ++ concat (map joined_args ts)) (Z.b2z v) ERR s)
    with (kvcmp_loop release (test_args t ++ concat (map joined_args ts)) (Z.b2z v) (if conn then AND else OR) s)
    by (now destruct conn, v).
  rewrite loop_test by (done || (right; now destruct conn)). fold w. rewrite <- IH. now destruct conn, v, w.
Qed.
End Expression.

End Order.

(** 4.4.39-rc5 is at least 4.4, and older than 4.8.1. *)
Definition sample_release : cstr := render §".." [4; 4; 39] ++ §"-rc5".
Definition sample_tests : test * list (bool * test) :=
  ((Rge, mkWanted [4; 4] [(§"RHEL6", [2; 6; 18])]), [(true, (Rlt, mkWanted [4; 8; 1] []))]).
Definition sample_args : list cstr :=
  §"tst_kvcmp" :: test_args sample_tests.1 ++ concat (map joined_args sample_tests.2).


(** ** Where it is not *)

(** A version that cannot be read counts as one that is older than the kernel:
    the message is printed, and the test holds. *)
Lemma invalid_version_older {S} `{C : Console S} prog release kver (s : S) :
  strtok_all §" " kver = [kver] -> (tst_parse_kver kver).1 <> 0 ->
  kvcmp_main release [prog; §"-gt"; kver] s =
  (print_err (§"Invalid kernel version '" ++ kver ++ §"'" ++ [LF]);; mret 0) s.
Proof.
  intros Ht Hb. unfold kvcmp_main. change (streq §"-gt" §"-h") with false. cbn iota. cbn [kvcmp_loop].
  change (strtop §"-gt") with GT. cbn [is_ERR]. change (negb (-1 =? -1) && true) with false. cbn iota.
  unfold compare_kver. rewrite Ht. cbn [tail head extra_loop].
  destruct (tst_parse_kver kver) as [bad [[v1 v2] v3]]. cbn [fst] in Hb. apply Z.eqb_neq in Hb. rewrite Hb. cbn [negb].
  unfold mbind, E_bind, mret, E_ret. destruct (print_err _ s); reflexivity.
Qed.

(** A part that needs more than a byte runs into the next one: 4.4.256 is found
    equal to 4.5.0. *)
Lemma kvcmp_part_overflows {S} `{C : Console S} (s : S) : tst_kvcmp §"4.4.256" 4 5 0 s = Done 0 s.
Proof. reflexivity. Qed.
