(* ===== verification/LibKconfig.v ===== *)
(** The kernel configuration (lib/tst_kconfig.c): how it is found and read, and
    the check that stops a test whose options are not set. *)
From Stdlib Require Import Ascii String ZArith Lia Bool.
From stdpp Require Import base list sets numbers.
From S2P Require Import Prelude CString TstRes Effects Zoo.

Local Open Scope Z_scope.

(** ** What the code calls *)

(** The environment variable, the files that exist, the release of the kernel,
    the contents [fopen] gives and the output of a command. *)
Record kenv := mkKenv {
  KCONFIG_PATH : option cstr;
  file_exists : cstr -> bool;
  uname_release : cstr;
  file_text : cstr -> option cstr;
  popen_text : cstr -> option cstr
}.

(** The messages of the test, the latest last. *)
Abbreviation K := (E (list (Z * cstr))).

Definition tst_res (ttype : Z) (msg : cstr) : K unit := modify (fun s => s ++ [(ttype, msg)]).

(** [tst_brk] ends the test with the type of the result. *)
Definition tst_brk {A} (ttype : Z) (msg : cstr) : K A :=
  tst_res ttype msg;; exit (TTYPE_RESULT ttype).

(** [strndup(s, n)]. *)
Definition strndup (s : cstr) (n : Z) : cstr := if Z.of_nat (length s) <=? n then s else take (Z.to_nat n) s.

(** ** The file *)

Definition kconfig_path (e : kenv) : K (option cstr) :=
  let rest : K (option cstr) :=
    if file_exists e §"/proc/config.gz" then mret (Some §"/proc/config.gz")
    else
      let debian := snprintf_buf 1024 (§"/boot/config-" ++ uname_release e) in
      let clear_linux := snprintf_buf 1024 (§"/lib/kernel/config-" ++ uname_release e) in
      if file_exists e debian then mret (Some debian)
      else if file_exists e clear_linux then mret (Some clear_linux)
      else tst_res TINFO §"Couldn't locate kernel config!";; mret None in
  match KCONFIG_PATH e with
  | Some path =>
      if file_exists e path then mret (Some path)
      else tst_res TWARN (§"KCONFIG_PATH='" ++ path ++ §"' does not exist");; rest
  | None => rest
  end.

(** The text that is read; [None] when there is no file. *)
Definition open_kconfig (e : kenv) : K (option cstr) :=
  path ← kconfig_path e;
  match path with
  | None => mret None
  | Some path =>
      tst_res TINFO (§"Parsing kernel config '" ++ path ++ §"'");;
      let is_gzip := match strstr path §".gz" with Some _ => true | None => false end in
      let fp := if is_gzip then popen_text e (snprintf_buf 1024 (§"zcat '" ++ path ++ §"'")) else file_text e path in
      match fp with
      | None => tst_brk (Z.lor TBROK TERRNO) (§"Failed to open '" ++ path ++ §"'")
      | Some text => mret (Some text)
      end
  end.

(** ** Matching *)

(** [struct match]; [m_val] is set and never used. *)
Record kmatch := mkMatch { m_len : nat; m_val : option cstr; m_match : bool }.

(** [struct tst_kconfig_res]. *)
Record tst_kconfig_res := mkRes { r_match : ascii; r_value : option cstr }.

Definition is_set (str val : cstr) : bool :=
  let s := dropwhile isspace str in
  if negb (strneq s val (length val)) then false
  else match drop (length val) s with
       | [] => true
       | c :: _ => ceqb c " " || ceqb c LF
       end.

(** The code after [val] is set: the new contents of [*match] and [*result] when
    the function returns 1. *)
Definition match_val (m : kmatch) (val : cstr) : option (kmatch * tst_kconfig_res) :=
  let matched r v := Some (mkMatch (m_len m) (m_val m) true, mkRes r v) in
  match val with
  | [] => None
  | c :: v =>
      if ceqb c "=" then
        if is_set val §"=y" then matched "y"%char None
        else if is_set val §"=m" then matched "m"%char None
        else matched "v"%char (Some (strndup v (u64 (Z.of_nat (length val) - 2))))
      else if ceqb c " " then
        if is_set val §"is not set" then matched "n"%char None else None
      else None
  end.

Definition match_ (m : kmatch) (conf : cstr) (line : cstr) : option (kmatch * tst_kconfig_res) :=
  if m_match m then None
  else
    match strstr line §"CONFIG_" with
    | None => None
    | Some k =>
        let cfg := drop k line in
        if negb (strneq cfg conf (m_len m)) then None else match_val m (drop (m_len m) cfg)
    end.

(** An element of [kconfigs], of [matches] and of [results]. *)
Record entry := mkEntry { e_conf : cstr; e_match : kmatch; e_res : tst_kconfig_res }.

Definition init_entry (conf : cstr) : K entry :=
  let val := strchr conf "=" in
  (if negb (strneq §"CONFIG_" conf 7) then tst_brk TBROK (§"Invalid config string '" ++ conf ++ §"'") else mret tt);;
  let m := match val with
           | Some v => mkMatch (length conf - length v) (Some (tail v)) false
           | None => mkMatch (length conf) None false
           end in
  mret (mkEntry conf m (mkRes NUL None)).

(** The loop over [i] for a line: the entries before [i] and from [i] on.  The
    result tells whether the code leaves for [exit]. *)
Fixpoint line_loop (line : cstr) (before after : list entry) : list entry * bool :=
  match after with
  | [] => (before, false)
  | x :: after =>
      match match_ (e_match x) (e_conf x) line with
      | Some (m, r) =>
          let x := mkEntry (e_conf x) m r in
          if existsb (fun y => m_match (e_match y)) (before ++ x :: after)
          then line_loop line (before ++ [x]) after
          else (before ++ x :: after, true)
      | None => line_loop line (before ++ [x]) after
      end
  end.

(** The loop over the lines [fgets] gives.  Each takes a character at least, so
    the length of the text is fuel enough. *)
Fixpoint read_loop (fuel : nat) (text : cstr) (es : list entry) : list entry :=
  match fuel with
  | O => es
  | S f =>
      match fgets 1024 text with
      | None => es
      | Some buf =>
          let '(es, stop) := line_loop (cstr_of buf) [] es in
          if stop then es else read_loop f (drop (length buf) text) es
      end
  end.

Definition tst_kconfig_read (e : kenv) (kconfigs : list cstr) : K (list entry) :=
  es ← mapM init_entry kconfigs;
  fp ← open_kconfig e;
  match fp with
  | None => tst_brk TBROK §"Cannot parse kernel .config"
  | Some text => mret (read_loop (S (length text)) text es)
  end.

(** ** The check *)

(** [kconfigs] are the strings before the NULL; the loop starts with the second
    of them. *)
Definition array_len (kconfigs : list cstr) : K nat :=
  require (negb (length kconfigs =? 0)%nat);; mret (length kconfigs).

Definition compare_res (res : tst_kconfig_res) (kconfig : cstr) (match_c : ascii) (val : cstr) : K bool :=
  if negb (ceqb (r_match res) match_c) then
    tst_res TINFO (§"Needs kernel " ++ kconfig ++ §", have " ++ [r_match res]);; mret true
  else if negb (ceqb match_c "v") then mret false
  else match r_value res with
       | None => undefined
       | Some v =>
           if negb (streq v val) then tst_res TINFO (§"Needs kernel " ++ kconfig ++ §", have " ++ v);; mret true
           else mret false
       end.

(** The body of the loop: whether it sets [abort_test]. *)
Definition check_entry (x : entry) : K bool :=
  let res := e_res x in
  if ceqb (r_match res) NUL then tst_res TINFO (§"Missing kernel " ++ e_conf x);; mret true
  else if ceqb (r_match res) "n" then tst_res TINFO (§"Kernel " ++ e_conf x ++ §" is not set");; mret true
  else
    match strchr (e_conf x) "=" with
    | Some v =>
        let val := tail v in
        let c := if streq val §"y" then "y"%char else "v"%char in
        let c := if streq val §"m" then "m"%char else c in
        compare_res res (e_conf x) c val
    | None => mret false
    end.

Fixpoint check_loop (es : list entry) (abort_test : bool) : K bool :=
  match es with
  | [] => mret abort_test
  | x :: es => b ← check_entry x; check_loop es (abort_test || b)
  end.

Definition tst_kconfig_check (e : kenv) (kconfigs : list cstr) : K unit :=
  cnt ← array_len kconfigs;
  results ← tst_kconfig_read e (take cnt kconfigs);
  abort_test ← check_loop results false;
  if abort_test : bool then tst_brk TCONF §"Aborting due to unsuitable kernel config, see above!" else mret tt.

(** ** A configuration *)

Inductive setting := Yes | Mod | Val (v : cstr) | Unset.

(** A line: an option, or one that does not speak of options. *)
Inductive item := Opt (name : cstr) (s : setting) | Other (text : cstr).

Definition item_line (it : item) : cstr :=
  match it with
  | Opt name Unset => §"# CONFIG_" ++ name ++ §" is not set"
  | Opt name Yes => §"CONFIG_" ++ name ++ §"=y"
  | Opt name Mod => §"CONFIG_" ++ name ++ §"=m"
  | Opt name (Val v) => §"CONFIG_" ++ name ++ §"=" ++ v
  | Other text => text
  end.

Definition config_text (items : list item) : cstr := concat (map (fun it => item_line it ++ [LF]) items).

Definition name_ok (n : cstr) : Prop := Forall (fun c => c <> "="%char /\ c <> " "%char) n.

(** The value of an option is a number or is in quotes, so it does not start with
    y or m. *)
Definition item_ok (it : item) : Prop :=
  (LF ∉ item_line it) /\ (NUL ∉ item_line it) /\ (length (item_line it) < 1023)%nat /\
  match it with
  | Opt name (Val v) => name_ok name /\ head v <> Some "y"%char /\ head v <> Some "m"%char
  | Opt name _ => name_ok name
  | Other text => strstr (text ++ [LF]) §"CONFIG_" = None
  end.

(** What a test asks for: an option, and the value it needs. *)
Definition req : Type := cstr * option cstr.

Definition req_text (q : req) : cstr := §"CONFIG_" ++ q.1 ++ match q.2 with Some v => "="%char :: v | None => [] end.

Fixpoint config_get (items : list item) (name : cstr) : option setting :=
  match items with
  | [] => None
  | Opt n s :: items => if decide (n = name) then Some s else config_get items name
  | Other _ :: items => config_get items name
  end.

Definition met (items : list item) (q : req) : bool :=
  match config_get items q.1 with
  | None | Some Unset => false
  | Some s =>
      match q.2 with
      | None => true
      | Some v =>
          if streq v §"y" then match s with Yes => true | _ => false end
          else if streq v §"m" then match s with Mod => true | _ => false end
          else match s with Val w => streq w v | _ => false end
      end
  end.

(** ** Reading gives the first setting of each option *)

Definition res_of (s : option setting) : tst_kconfig_res :=
  match s with
  | None => mkRes NUL None
  | Some Yes => mkRes "y" None
  | Some Mod => mkRes "m" None
  | Some (Val v) => mkRes "v" (Some v)
  | Some Unset => mkRes "n" None
  end.

Definition req_match (q : req) (found : bool) : kmatch := mkMatch (length (§"CONFIG_" ++ q.1)) q.2 found.

Definition entry_at (items : list item) (q : req) : entry :=
  let s := config_get items q.1 in
  mkEntry (req_text q) (req_match q (if s is Some _ then true else false)) (res_of s).

Lemma config_get_snoc items it name :
  config_get (items ++ [it]) name =
  match config_get items name with Some s => Some s | None => config_get [it] name end.
Proof. induction items as [|[n s|t] items IH]; cbn [app config_get]; [done| |done]. now destruct (decide _). Qed.

(** A name that starts the text of another is that name or is continued by it. *)
Lemma name_prefix m n c r :
  name_ok m -> c = "="%char \/ c = " "%char -> take (length m) (n ++ c :: r) = m ->
  n = m \/ exists x n', n = m ++ x :: n' /\ (name_ok n -> x <> "="%char /\ x <> " "%char).
Proof.
  intros Hm Hc E. destruct (Nat.lt_ge_cases (length n) (length m)) as [Hl|Hl].
  - exfalso. rewrite take_app_ge in E by lia. destruct (length m - length n)%nat as [|k] eqn:Ek; [lia|]. cbn [take] in E.
    subst m. unfold name_ok in Hm. rewrite Forall_app in Hm. destruct Hm as [_ Hm]. inversion_clear Hm as [|? ? [H1 H2] _].
    destruct Hc as [->| ->]; done.
  - rewrite take_app_le in E by lia. destruct (drop (length m) n) as [|x n'] eqn:Ed.
    + left. rewrite <- (take_drop (length m) n), Ed, E. apply app_nil_r.
    + right. exists x, n'. assert (En : n = m ++ x :: n') by
        (transitivity (take (length m) n ++ drop (length m) n); [symmetry; apply take_drop|now rewrite E, Ed]).
      split; [done|]. rewrite En. unfold name_ok. rewrite Forall_app. intros [_ H]. now inversion_clear H.
Qed.

(** Only the line of the option itself is matched. *)
Lemma match_option q n c v line k :
  name_ok q.1 -> name_ok n -> c = "="%char \/ c = " "%char ->
  strstr line §"CONFIG_" = Some k -> drop k line = §"CONFIG_" ++ n ++ c :: v ->
  match_ (req_match q false) (req_text q) line = if decide (n = q.1) then match_val (req_match q false) (c :: v) else None.
Proof.
  intros Hq Hn Hc Hk Hd. unfold match_. cbn [m_match req_match m_len]. rewrite Hk, Hd. unfold strneq, req_text.
  rewrite (app_assoc §"CONFIG_" q.1), take_app_length, app_assoc.
  destruct (decide (n = q.1)) as [->|Hne]; [rewrite take_app_length, bool_decide_eq_true_2, drop_app_length; done|].
  destruct (bool_decide _) eqn:E; [|done]. apply bool_decide_eq_true in E. cbn [negb].
  rewrite <- app_assoc, length_app, firstn_app_2 in E. apply app_inv_head in E.
  destruct (name_prefix _ _ _ _ Hq Hc E) as [->|(x & n' & -> & Hx)]; [done|]. destruct (Hx Hn) as [H1 H2].
  rewrite <- !app_assoc. cbn [app]. rewrite app_assoc, drop_app_length. cbn [match_val].
  apply ceqb_neq in H1, H2. now rewrite H1, H2.
Qed.

Lemma is_set_value c v x : head v <> Some x -> x <> LF -> is_set (c :: v ++ [LF]) [c; x] = false \/ isspace c = true.
Proof.
  intros Hv Hx. destruct (isspace c) eqn:Ec; [now right|left]. unfold is_set. cbn [dropwhile]. rewrite Ec. unfold strneq.
  rewrite bool_decide_eq_false_2; [done|]. cbn [length take]. intros [= E]. destruct v as [|y v]; cbn in E; [|injection E as ->; now apply Hv].
  injection E as E. now apply Hx.
Qed.

Lemma match_value q v :
  (length v < 1023)%nat -> head v <> Some "y"%char -> head v <> Some "m"%char ->
  match_val (req_match q false) ("="%char :: v ++ [LF]) = Some (req_match q true, mkRes "v" (Some v)).
Proof.
  intros Hl Hy Hm. cbn [match_val]. rewrite ceqb_refl. cbn [str list_ascii_of_string].
  destruct (is_set_value "=" v "y" Hy) as [->|]; [discriminate| |done].
  destruct (is_set_value "=" v "m" Hm) as [->|]; [discriminate| |done].
  replace (strndup _ _) with v; [done|]. symmetry. unfold strndup. cbn [length]. rewrite length_app. cbn [length].
  replace (Z.of_nat (S (length v + 1)) - 2) with (Z.of_nat (length v)) by lia.
  unfold u64, uwrap. rewrite Z.mod_small by (change (2 ^ 64) with 18446744073709551616; lia).
  rewrite (proj2 (Z.leb_gt _ _)) by lia. rewrite Nat2Z.id. apply take_app_length.
Qed.

(** What a line does to the entry of a requirement. *)
Lemma match_item items it q :
  item_ok it -> name_ok q.1 ->
  let x := entry_at items q in
  match match_ (e_match x) (e_conf x) (item_line it ++ [LF]) with
  | Some (m, r) => mkEntry (e_conf x) m r
  | None => x
  end = entry_at (items ++ [it]) q.
Proof.
  intros (_ & _ & Hl & Hi) Hq x. subst x. unfold entry_at. cbn [e_match e_conf]. rewrite config_get_snoc.
  destruct (config_get items q.1) as [s|]; [done|]. destruct it as [n s|t]; cbn [config_get item_line] in *.
  - assert (Hn : name_ok n) by (destruct s; tauto).
    destruct s as [| |v|]; rewrite <- ?app_assoc.
    + rewrite (match_option q n "=" §("y" ++ String LF "")%string _ 0); auto. now destruct (decide _).
    + rewrite (match_option q n "=" §("m" ++ String LF "")%string _ 0); auto. now destruct (decide _).
    + rewrite (match_option q n "=" (v ++ [LF]) _ 0); auto. destruct (decide _); [|done].
      rewrite match_value; [done| |tauto..]. rewrite !length_app in Hl. lia.
    + rewrite (match_option q n " " §("is not set" ++ String LF "")%string _ 2); auto. now destruct (decide _).
  - unfold match_. now rewrite Hi.
Qed.

(** A line that matches leaves a match behind, so the loop never ends early. *)
Lemma line_loop_eq line before after :
  line_loop line before after =
  (before ++ map (fun x => match match_ (e_match x) (e_conf x) line with Some (m, r) => mkEntry (e_conf x) m r | None => x end) after, false).
Proof.
  revert before. induction after as [|x after IH]; intros before; cbn [line_loop map]; [now rewrite app_nil_r|].
  destruct (match_ _ _ line) as [[m r]|] eqn:Em; [|now rewrite IH, <- app_assoc].
  assert (Hm : m_match m = true).
  { unfold match_, match_val in Em. repeat (case_match; try discriminate); injection Em as <- _; done. }
  rewrite existsb_app. cbn [existsb e_match]. rewrite Hm. cbn [orb]. rewrite orb_true_r. now rewrite IH, <- app_assoc.
Qed.

Lemma read_line it rest f pre qs :
  item_ok it -> Forall (fun q => name_ok q.1) qs ->
  read_loop (S f) ((item_line it ++ [LF]) ++ rest) (map (entry_at pre) qs) = read_loop f rest (map (entry_at (pre ++ [it])) qs).
Proof.
  intros Hi Hq. pose proof Hi as (H1 & H2 & H3 & _). cbn [read_loop]. unfold fgets. rewrite <- app_assoc. cbn [app].
  rewrite fgets_line_app by (done || lia).
  replace (match item_line it ++ LF :: rest with [] => None | _ :: _ => Some (item_line it ++ [LF]) end)
    with (Some (item_line it ++ [LF])) by now destruct (item_line it).
  replace (cstr_of (item_line it ++ [LF])) with (item_line it ++ [LF]).
  - rewrite line_loop_eq. cbn [app]. change (item_line it ++ LF :: rest) with (item_line it ++ [LF] ++ rest).
    rewrite app_assoc, drop_app_length. f_equal. rewrite map_map. apply map_ext_Forall.
    eapply Forall_impl; [|exact Hq]. intros q Hn. now apply match_item.
  - symmetry. unfold cstr_of. apply takewhile_id, Forall_app. split; [|constructor; [done|constructor]].
    apply Forall_forall. intros x Hx%list_elem_of_In. apply negb_true_iff, ceqb_neq. intros ->. done.
Qed.

Lemma read_items items pre f qs :
  Forall item_ok items -> Forall (fun q => name_ok q.1) qs -> (length (config_text items) < f)%nat ->
  read_loop f (config_text items) (map (entry_at pre) qs) = map (entry_at (pre ++ items)) qs.
Proof.
  intros Hi Hq. revert pre f. induction Hi as [|it items Hit Hi IH]; intros pre f Hf; destruct f as [|f]; try (cbn in Hf; lia).
  - now rewrite app_nil_r.
  - unfold config_text in *. cbn [map concat] in *. rewrite read_line by done. rewrite IH; [now rewrite <- app_assoc|].
    rewrite !length_app in Hf. cbn in Hf. lia.
Qed.

(** ** The verdict *)

Lemma strchr_req q : name_ok q.1 -> strchr (req_text q) "=" = option_map (cons "="%char) q.2.
Proof.
  intros Hq. assert (Hn : "="%char ∉ §"CONFIG_" ++ q.1).
  { intros [H|H]%elem_of_app; [cbn in H; set_solver|]. unfold name_ok in Hq. rewrite Forall_forall in Hq.
    apply list_elem_of_In in H. now destruct (Hq _ H). }
  unfold req_text. rewrite app_assoc. destruct q.2 as [v|]; cbn [option_map]; [now apply strchr_app|].
  rewrite app_nil_r. now apply strchr_None.
Qed.

Lemma init_req q s : name_ok q.1 -> init_entry (req_text q) s = Done (entry_at [] q) s.
Proof.
  intros Hq. unfold init_entry. rewrite strchr_req by done.
  assert (Hp : strneq §"CONFIG_" (req_text q) 7 = true) by (apply bool_decide_eq_true; reflexivity).
  rewrite Hp. cbn [negb]. rewrite (bind_Done _ _ tt s s) by done. unfold entry_at, req_match, req_text. cbn [config_get res_of].
  destruct q as [n [v|]]; cbn [option_map fst snd tail].
  - replace (length (§"CONFIG_" ++ n ++ "="%char :: v) - length ("="%char :: v))%nat with (length (§"CONFIG_" ++ n))
      by (rewrite !length_app; lia). reflexivity.
  - now rewrite app_nil_r.
Qed.

Lemma init_reqs qs s : Forall (fun q => name_ok q.1) qs -> mapM init_entry (map req_text qs) s = Done (map (entry_at []) qs) s.
Proof.
  induction 1 as [|q qs Hq _ IH]; [done|]. cbn [map mapM]. rewrite (bind_Done _ _ _ s s (init_req q s Hq)).
  now rewrite (bind_Done _ _ _ s s IH).
Qed.

(** A requirement that is not met is reported, once. *)
Lemma check_req items q s :
  name_ok q.1 ->
  exists msgs, check_entry (entry_at items q) s = Done (negb (met items q)) (s ++ msgs) /\ length msgs = (if met items q then 0 else 1)%nat.
Proof.
  intros Hq. unfold check_entry, entry_at, met. cbn [e_res e_conf]. rewrite strchr_req by done.
  destruct (config_get items q.1) as [[| |w|]|] eqn:Eg; cbn [res_of r_match]; try (eexists; split; [reflexivity|reflexivity]).
  all: change (ceqb _ NUL) with false; change (ceqb _ "n") with false; cbn iota.
  all: destruct q.2 as [v|]; cbn [option_map tail]; [|exists []; now rewrite app_nil_r].
  all: unfold compare_res; cbn [r_match r_value]; destruct (streq v §"y") eqn:E1; destruct (streq v §"m") eqn:E2;
    try (apply streq_true in E1; subst v; discriminate E2).
  all: try (exists []; rewrite app_nil_r; split; reflexivity).
  all: try (eexists; split; [reflexivity|reflexivity]).
  change (ceqb "v" "v") with true. cbn [negb]. destruct (streq w v); [exists []; rewrite app_nil_r; split; reflexivity|eexists; split; reflexivity].
Qed.

Definition unmet (items : list item) (qs : list req) : nat := length (List.filter (fun q => negb (met items q)) qs).

Lemma check_reqs items qs b s :
  Forall (fun q => name_ok q.1) qs ->
  exists msgs, check_loop (map (entry_at items) qs) b s = Done (b || negb (forallb (met items) qs)) (s ++ msgs) /\ length msgs = unmet items qs.
Proof.
  intros Hq. revert b s. induction Hq as [|q qs Hq _ IH]; intros b s; cbn [map check_loop forallb].
  - exists []. now rewrite app_nil_r, orb_false_r.
  - destruct (check_req items q s Hq) as (m1 & E1 & L1). rewrite (bind_Done _ _ _ s _ E1).
    destruct (IH (b || negb (met items q)) (s ++ m1)) as (m2 & E2 & L2). exists (m1 ++ m2). rewrite E2, app_assoc. unfold unmet in *.
    cbn [List.filter]. destruct (met items q); cbn [negb andb length] in *; rewrite length_app, L1, L2, ?orb_false_r, ?orb_true_r; done.
Qed.

(** C22: A test goes on when the configuration of the kernel meets what the test asks
    for, and ends as not configured when it does not; each requirement that is not
    met is reported. *)
Theorem kconfig_check_verdict e items qs s s1 :
  open_kconfig e s = Done (Some (config_text items)) s1 ->
  Forall item_ok items -> Forall (fun q => name_ok q.1) qs -> qs <> [] ->
  exists msgs,
    length msgs = unmet items qs /\
    tst_kconfig_check e (map req_text qs) s =
    if forallb (met items) qs then Done tt (s1 ++ msgs)
    else Exited TCONF (s1 ++ msgs ++ [(TCONF, §"Aborting due to unsuitable kernel config, see above!")]).
Proof.
  intros Ho Hi Hq Hne. destruct (check_reqs items qs false s1 Hq) as (msgs & E & L). exists msgs. split; [done|].
  unfold tst_kconfig_check. rewrite (bind_Done _ _ (length qs) s s).
  2: { unfold array_len. rewrite length_map. now destruct qs. }
  rewrite (bind_Done _ _ (map (entry_at items) qs) s s1).
  - rewrite (bind_Done _ _ _ s1 _ E). cbn [orb]. destruct (forallb _ _); cbn [negb]; [done|]. rewrite app_assoc. reflexivity.
  - rewrite take_ge by (now rewrite length_map). unfold tst_kconfig_read. rewrite (bind_Done _ _ _ s s (init_reqs qs s Hq)).
    rewrite (bind_Done _ _ _ s s1 Ho). unfold mret, E_ret. f_equal. apply (read_items items []); [done|done|lia].
Qed.

(** The file that is read is the first one that exists. *)
Definition candidates (e : kenv) : list cstr :=
  match KCONFIG_PATH e with Some p => [p] | None => [] end ++
  [§"/proc/config.gz"; snprintf_buf 1024 (§"/boot/config-" ++ uname_release e); snprintf_buf 1024 (§"/lib/kernel/config-" ++ uname_release e)].

Lemma kconfig_path_first e s : exists s', kconfig_path e s = Done (List.find (file_exists e) (candidates e)) s'.
Proof.
  unfold kconfig_path, candidates. destruct (KCONFIG_PATH e) as [p|]; cbn [app List.find].
  - destruct (file_exists e p); [eexists; reflexivity|]. repeat (case_match; try (eexists; reflexivity)).
  - repeat (case_match; try (eexists; reflexivity)).
Qed.

Definition sample_items : list item :=
  [Other §"# Linux/x86 4.4.39 Kernel Configuration"; Opt §"NET_NS" Yes; Opt §"NET" Yes; Opt §"VETH" Mod; Opt §"HZ" (Val §"250"); Opt §"KSM" Unset].

Definition sample_kenv : kenv :=
  mkKenv (Some §"/tmp/config") (fun p => streq p §"/tmp/config") §"4.4.39"
    (fun p => if streq p §"/tmp/config" then Some (config_text sample_items) else None) (fun _ => None).

Ltac by_deciding := unfold name_ok; apply (bool_decide_unpack _); vm_compute; exact I.

(** NET is set, HZ is 250 and not 1000, KSM is not set. *)
Lemma kconfig_check_verdict_witness :
  exists msgs, length msgs = 2%nat /\
  tst_kconfig_check sample_kenv [§"CONFIG_NET"; §"CONFIG_HZ=1000"; §"CONFIG_KSM"] [] =
  Exited TCONF ([(TINFO, §"Parsing kernel config '/tmp/config'")] ++ msgs ++ [(TCONF, §"Aborting due to unsuitable kernel config, see above!")]).
Proof.
  refine (kconfig_check_verdict sample_kenv sample_items [(§"NET", None); (§"HZ", Some §"1000"); (§"KSM", None)]
    [] [(TINFO, §"Parsing kernel config '/tmp/config'")] _ _ _ _).
  - vm_compute. reflexivity.
  - repeat (constructor; [split; [by_deciding|]; split; [by_deciding|]; split; [cbn; lia|]; cbn iota;
      try (split; [by_deciding|]); by_deciding|]). constructor.
  - repeat (constructor; [by_deciding|]). constructor.
  - discriminate.
Defined.
