(* ===== verification/LibBuffers.v ===== *)
(** Guarded buffers (lib/tst_buffers.c): a buffer ends where a page without access
    starts, and has canaries before it that are looked at when it is freed. *)
From Stdlib Require Import Ascii String ZArith Lia Bool.
From stdpp Require Import base list sets numbers.
From S2P Require Import Prelude CString TstRes Effects.

Local Open Scope Z_scope.

(** ** Memory *)

(** [struct map]. *)
Record map_ := mkMap { addr : Z; size : Z; buf_shift : Z }.

(** The bytes that can be read and written, the list [maps], the messages, the
    calls of [random] so far and the static [print_msg] of [tst_alloc]. *)
Record bst := mkBst {
  mem : Z -> option Z;
  maps : list map_;
  msgs : list (Z * cstr);
  randoms : nat;
  print_msg : bool
}.

Definition set_mem m s := mkBst m (maps s) (msgs s) (randoms s) (print_msg s).
Definition set_maps l s := mkBst (mem s) l (msgs s) (randoms s) (print_msg s).

(** What the system answers: the size of a page, the address [mmap] gives
    ([None]: it fails), whether [malloc] and [munmap] succeed, the values of
    [random], the process. *)
Record benv := mkBenv {
  getpagesize : Z;
  mmap_answer : bst -> Z -> option Z;
  malloc_answer : bst -> bool;
  munmap_answer : bst -> bool;
  random_value : nat -> Z;
  getpid : Z
}.

Abbreviation B := (E bst).

Definition in_range (lo n a : Z) : bool := (lo <=? a) && (a <? lo + n).

(** All bytes from [lo] on, [n] of them, become [v]. *)
Definition fill (lo n : Z) (v : option Z) (m : Z -> option Z) : Z -> option Z :=
  fun a => if in_range lo n a then v else m a.

(** A process that is killed by SIGSEGV. *)
Definition SIGSEGV_status : Z := 139.

Definition load (a : Z) : B Z := fun s =>
  match mem s a with Some v => Done v s | None => Exited SIGSEGV_status s end.

Definition store (a v : Z) : B unit := fun s =>
  match mem s a with
  | Some _ => Done tt (set_mem (fill a 1 (Some (u8 v)) (mem s)) s)
  | None => Exited SIGSEGV_status s
  end.

Fixpoint store_bytes (a : Z) (bs : list Z) : B unit :=
  match bs with
  | [] => mret tt
  | b :: bs => store a b;; store_bytes (a + 1) bs
  end.

(** A pointer or a [size_t], the lowest byte first. *)
Definition store64 (a v : Z) : B unit :=
  store_bytes a (map (fun i => Z.shiftr (u64 v) (8 * Z.of_nat i)) (seq 0 8)).

Section Buffers.
Variable e : benv.

Definition tst_res (ttype : Z) (msg : cstr) : B unit :=
  modify (fun s => mkBst (mem s) (maps s) (msgs s ++ [(ttype, msg)]) (randoms s) (print_msg s)).

Definition tst_brk {A} (ttype : Z) (msg : cstr) : B A := tst_res ttype msg;; exit (TTYPE_RESULT ttype).

Definition random : B Z := fun s =>
  Done (random_value e (randoms s)) (mkBst (mem s) (maps s) (msgs s) (S (randoms s)) (print_msg s)).

Definition safe_malloc (n : Z) : B unit := fun s =>
  if malloc_answer e s then Done tt s
  else tst_brk (Z.lor TBROK TERRNO) (§"tst_buffers.c:51: malloc(" ++ fmt_nat 10 n ++ §") failed") s.

(** New pages are zero. *)
Definition safe_mmap (length : Z) : B Z := fun s =>
  match mmap_answer e s length with
  | None => tst_brk (Z.lor TBROK TERRNO) (§"mmap((nil)," ++ fmt_nat 10 length ++ §",3,34,-1,0) failed") s
  | Some a => Done a (set_mem (fill a length (Some 0) (mem s)) s)
  end.

Definition mprotect_none (a n : Z) : B unit := modify (fun s => set_mem (fill a n None (mem s)) s).

Definition safe_munmap (a n : Z) : B unit := fun s =>
  if munmap_answer e s then Done tt (set_mem (fill a n None (mem s)) s)
  else tst_brk (Z.lor TBROK TERRNO) (§"tst_buffers.c:137: munmap(0x" ++ fmt_nat 16 a ++ §"," ++ fmt_nat 10 n ++ §") failed") s.

(** ** Canaries *)

(** The loop of [setup_canary] from [i] on; [n] turns are left. *)
Fixpoint setup_loop (m : map_) (i : Z) (n : nat) : B unit :=
  match n with
  | O => mret tt
  | S n =>
      c ← random;
      store (addr m + (buf_shift m - i - 1)) c;;
      store (addr m + i) c;;
      setup_loop m (i + 1) n
  end.

Definition setup_canary (m : map_) : B unit := setup_loop m 0 (Z.to_nat (buf_shift m / 2)).

Definition modified_msg (m : map_) (i : Z) : cstr :=
  §"pid " ++ fmt_d (getpid e) ++ §": buffer modified address 0x" ++ fmt_nat 16 (addr m + buf_shift m) ++
  §"[" ++ fmt_d (- i - 1) ++ §"]".

Fixpoint check_loop (m : map_) (i : Z) (n : nat) : B unit :=
  match n with
  | O => mret tt
  | S n =>
      x ← load (addr m + (buf_shift m - i - 1));
      y ← load (addr m + i);
      when (negb (x =? y)) (tst_res TWARN (modified_msg m i));;
      check_loop m (i + 1) n
  end.

Definition check_canary (m : map_) : B unit := check_loop m 0 (Z.to_nat (buf_shift m / 2)).

(** ** Buffers *)

Definition sizeof_map : Z := 32.

Definition tst_alloc (sz : Z) : B Z :=
  let page_size := getpagesize e in
  let pages := u32 (sz / page_size + (if sz mod page_size =? 0 then 0 else 1) + 1) in
  safe_malloc sizeof_map;;
  s ← get;
  when (print_msg s)
    (tst_res TINFO §"Test is using guarded buffers";;
     modify (fun s => mkBst (mem s) (maps s) (msgs s) (randoms s) false));;
  ret ← safe_mmap (u64 (page_size * pages));
  mprotect_none (ret + u32 (pages - 1) * page_size) page_size;;
  let shift := if sz mod page_size =? 0 then 0 else page_size - sz mod page_size in
  let m := mkMap ret (u64 (pages * page_size)) shift in
  modify (fun s => set_maps (m :: maps s) s);;
  setup_canary m;;
  mret (ret + shift).

(** The number of sizes before the first -1; [sizes] is read past its end when
    there is none. *)
Fixpoint count_iovec (sizes : list Z) : B Z :=
  match sizes with
  | [] => undefined
  | z :: sizes => if z =? -1 then mret 0 else n ← count_iovec sizes; mret (n + 1)
  end.

Definition sizeof_iovec : Z := 16.

Fixpoint iovec_loop (iovec : Z) (sizes : list Z) (i : Z) : B unit :=
  match sizes with
  | [] => mret tt
  | sz :: sizes =>
      (if negb (sz =? 0) then
         p ← tst_alloc (u64 sz);
         store64 (iovec + i * sizeof_iovec) p;;
         store64 (iovec + i * sizeof_iovec + 8) sz
       else
         store64 (iovec + i * sizeof_iovec) 0;;
         store64 (iovec + i * sizeof_iovec) 0);;
      iovec_loop iovec sizes (i + 1)
  end.

(** 0 stands for NULL. *)
Definition tst_iovec_alloc (sizes : list Z) : B Z :=
  cnt ← count_iovec sizes;
  if cnt <=? 0 then mret 0
  else
    iovec ← tst_alloc (sizeof_iovec * cnt);
    iovec_loop iovec (take (Z.to_nat cnt) sizes) 0;;
    mret iovec.

(** The entries before the one whose [ptr] is NULL: the address of the pointer,
    [size] and [iov_sizes]. *)
Fixpoint tst_buffers_alloc (bufs : list (Z * Z * list Z)) : B unit :=
  match bufs with
  | [] => mret tt
  | (ptr, sz, iov_sizes) :: bufs =>
      p ← (if negb (sz =? 0) then tst_alloc sz else tst_iovec_alloc iov_sizes);
      store64 ptr p;;
      tst_buffers_alloc bufs
  end.

Definition tst_strdup (str : cstr) : B Z :=
  ret ← tst_alloc (Z.of_nat (length str) + 1);
  store_bytes ret (map chr_code str ++ [0]);;
  mret ret.

Fixpoint free_loop (l : list map_) : B unit :=
  match l with
  | [] => mret tt
  | i :: l => check_canary i;; safe_munmap (addr i) (size i);; free_loop l
  end.

Definition tst_free_all : B unit :=
  s ← get;
  free_loop (maps s);;
  modify (set_maps []).
End Buffers.

(** ** What holds of the maps *)

Definition apart (a n b k : Z) : Prop := a + n <= b \/ b + k <= a.

Fixpoint all_apart (l : list map_) : Prop :=
  match l with
  | [] => True
  | m :: l => Forall (fun m' => apart (addr m) (size m) (addr m') (size m')) l /\ all_apart l
  end.

Section Guard.
Variable e : benv.
Local Abbreviation P := (getpagesize e).

(** All pages of a map but the last can be used, and the last cannot. *)
Record map_ok (s : bst) (m : map_) : Prop := {
  ok_shift : 0 <= buf_shift m <= size m - P;
  ok_pages : forall a, addr m <= a < addr m + size m - P -> mem s a <> None;
  ok_guard : forall a, addr m + size m - P <= a < addr m + size m -> mem s a = None
}.

Definition maps_ok (s : bst) : Prop := Forall (map_ok s) (maps s) /\ all_apart (maps s).

Definition differs (s : bst) (m : map_) (i : Z) : bool :=
  negb (bool_decide (mem s (addr m + (buf_shift m - i - 1)) = mem s (addr m + i))).

Definition warnings (s : bst) (m : map_) : list (Z * cstr) :=
  flat_map (fun i => if differs s m i then [(TWARN, modified_msg e m i)] else []) (zseq 0 (Z.to_nat (buf_shift m / 2))).

(** No canary of the maps was changed. *)
Definition intact (s : bst) : Prop := Forall (fun m => warnings s m = []) (maps s).

Lemma in_range_true lo n a : in_range lo n a = true <-> lo <= a < lo + n.
Proof. unfold in_range. lia. Qed.

Lemma fill_in lo n v m a : lo <= a < lo + n -> fill lo n v m a = v.
Proof. intros H. unfold fill. now rewrite (proj2 (in_range_true _ _ _)). Qed.

Lemma fill_out lo n v m a : ~ (lo <= a < lo + n) -> fill lo n v m a = m a.
Proof. intros H. unfold fill. destruct (in_range lo n a) eqn:E; [|done]. now apply in_range_true in E. Qed.

Lemma store_ok a v s : mem s a <> None -> store a v s = Done tt (set_mem (fill a 1 (Some (u8 v)) (mem s)) s).
Proof. unfold store. now destruct (mem s a). Qed.

(** ** Canaries *)

Lemma setup_loop_ok m n i s :
  0 <= i -> i + Z.of_nat n <= buf_shift m / 2 ->
  (forall a, addr m <= a < addr m + buf_shift m -> mem s a <> None) ->
  exists s', setup_loop e m i n s = Done tt s' /\ maps s' = maps s /\ msgs s' = msgs s /\ print_msg s' = print_msg s /\
    (forall a, ~ (addr m + i <= a < addr m + buf_shift m - i) -> mem s' a = mem s a) /\
    (forall a, addr m <= a < addr m + buf_shift m -> mem s' a <> None) /\
    (forall j, i <= j < i + Z.of_nat n -> mem s' (addr m + (buf_shift m - j - 1)) = mem s' (addr m + j)).
Proof.
  revert i s. induction n as [|n IH]; intros i s Hi Hn Ha; cbn [setup_loop].
  - exists s. repeat split; auto. lia.
  - rewrite (bind_Done _ _ (random_value e (randoms s)) s (mkBst (mem s) (maps s) (msgs s) (S (randoms s)) (print_msg s))) by done.
    set (c := random_value e (randoms s)). set (s1 := mkBst _ _ _ _ _).
    assert (Hsh : 2 * (buf_shift m / 2) <= buf_shift m) by (apply Z.mul_div_le; lia).
    rewrite (bind_Done _ _ tt s1 _ (store_ok (addr m + (buf_shift m - i - 1)) c s1 (Ha (addr m + (buf_shift m - i - 1)) ltac:(lia)))).
    set (s2 := set_mem _ s1).
    assert (H2 : mem s2 (addr m + i) <> None) by (cbn; rewrite fill_out by lia; apply Ha; lia).
    rewrite (bind_Done _ _ tt s2 _ (store_ok (addr m + i) c s2 H2)). set (s3 := set_mem _ s2).
    destruct (IH (i + 1) s3) as (s' & E & M1 & M2 & M3 & M4 & M5 & M6); [lia|lia| |].
    { intros a Hr. cbn. unfold fill. repeat case_match; try done. now apply Ha. }
    exists s'. repeat split; try done.
    + intros a Hr. rewrite M4 by lia. cbn. rewrite !fill_out by lia. done.
    + intros j Hj. destruct (Z.eq_dec j i) as [->|]; [|apply M6; lia].
      rewrite !M4 by lia. cbn. rewrite (fill_in (addr m + i) 1 _ _ (addr m + i)) by lia. rewrite fill_out by lia.
      apply fill_in. lia.
Qed.

Definition add_msgs (l : list (Z * cstr)) (s : bst) : bst := mkBst (mem s) (maps s) (msgs s ++ l) (randoms s) (print_msg s).

Lemma load_ok a s : mem s a <> None -> exists v, load a s = Done v s /\ mem s a = Some v.
Proof. unfold load. destruct (mem s a) as [v|]; [eauto|done]. Qed.

Lemma check_loop_ok m n i s :
  0 <= i -> i + Z.of_nat n <= buf_shift m / 2 ->
  (forall a, addr m <= a < addr m + buf_shift m -> mem s a <> None) ->
  check_loop e m i n s =
  Done tt (add_msgs (flat_map (fun i => if differs s m i then [(TWARN, modified_msg e m i)] else []) (zseq i n)) s).
Proof.
  revert i s. induction n as [|n IH]; intros i s Hi Hn Ha; cbn [check_loop zseq flat_map].
  - unfold add_msgs. rewrite app_nil_r. now destruct s.
  - assert (Hsh : 2 * (buf_shift m / 2) <= buf_shift m) by (apply Z.mul_div_le; lia).
    destruct (load_ok (addr m + (buf_shift m - i - 1)) s (Ha (addr m + (buf_shift m - i - 1)) ltac:(lia))) as (x & Ex & Mx).
    destruct (load_ok (addr m + i) s (Ha (addr m + i) ltac:(lia))) as (y & Ey & My).
    rewrite (bind_Done _ _ x s s Ex), (bind_Done _ _ y s s Ey).
    assert (Hd : differs s m i = negb (x =? y)).
    { unfold differs. rewrite Mx, My. destruct (Z.eqb_spec x y) as [->|]; [now rewrite bool_decide_eq_true_2|].
      rewrite bool_decide_eq_false_2; congruence. }
    rewrite Hd. set (w := if negb (x =? y) then [(TWARN, modified_msg e m i)] else []).
    rewrite (bind_Done _ _ tt s (add_msgs w s)).
    + rewrite IH by (lia || done). unfold add_msgs. cbn. now rewrite <- app_assoc.
    + unfold w, when, add_msgs. destruct (negb _); [done|]. rewrite app_nil_r. now destruct s.
Qed.

Lemma check_canary_ok m s : map_ok s m -> check_canary e m s = Done tt (add_msgs (warnings s m) s).
Proof.
  intros [H1 H2 _]. unfold check_canary. assert (Hd : 0 <= buf_shift m / 2) by (apply Z.div_pos; lia).
  rewrite check_loop_ok; [done|lia|rewrite Z2Nat.id by done; lia|]. intros a Ha. apply H2. lia.
Qed.

(** ** Freeing *)

Hypothesis page_size : 0 < P <= 65536.
Hypothesis munmap_succeeds : forall s, munmap_answer e s = true.

Lemma half_shift m : 0 <= buf_shift m -> 0 <= buf_shift m / 2 /\ 2 * (buf_shift m / 2) <= buf_shift m < 2 * (buf_shift m / 2) + 2.
Proof. intros H. Z.to_euclidean_division_equations. lia. Qed.

Lemma warnings_ext s s' m :
  0 <= buf_shift m -> (forall a, addr m <= a < addr m + buf_shift m -> mem s' a = mem s a) -> warnings s' m = warnings s m.
Proof.
  intros H1 Hm. unfold warnings. rewrite !flat_map_concat_map. f_equal. apply map_ext_in. intros i Hi. unfold differs.
  apply list_elem_of_In, elem_of_zseq in Hi. pose proof (half_shift m H1). rewrite !Hm by lia. done.
Qed.

Lemma map_ok_ext s s' m :
  map_ok s m -> (forall a, addr m <= a < addr m + size m -> mem s' a = mem s a) -> map_ok s' m.
Proof.
  intros [H1 H2 H3] Hm. split; [done| |].
  - intros a Ha. rewrite Hm by lia. now apply H2.
  - intros a Ha. rewrite Hm by lia. now apply H3.
Qed.

(** All maps are looked at as they were, whatever was freed before them. *)
Lemma free_loop_ok l s :
  Forall (map_ok s) l -> all_apart l ->
  exists s', free_loop e l s = Done tt s' /\ msgs s' = msgs s ++ flat_map (warnings s) l /\
    maps s' = maps s /\ print_msg s' = print_msg s /\
    (forall a, mem s' a = if existsb (fun m => in_range (addr m) (size m) a) l then None else mem s a).
Proof.
  revert s. induction l as [|m l IH]; intros s Hl Hd; cbn [free_loop flat_map existsb].
  - exists s. now rewrite app_nil_r.
  - inversion_clear Hl as [|? ? Hm Hl']. destruct Hd as [Hd1 Hd2].
    rewrite (bind_Done _ _ tt s _ (check_canary_ok m s Hm)). set (s1 := add_msgs _ s). set (s2 := set_mem (fill (addr m) (size m) None (mem s)) s1).
    rewrite (bind_Done _ _ tt s1 s2) by (unfold safe_munmap; now rewrite munmap_succeeds).
    assert (Hout : forall m', m' ∈ l -> forall a, addr m' <= a < addr m' + size m' -> mem s2 a = mem s a).
    { intros m' Hm' a Ha. cbn. apply fill_out. rewrite Forall_forall in Hd1. apply list_elem_of_In in Hm'.
      specialize (Hd1 _ Hm'). unfold apart in Hd1. lia. }
    destruct (IH s2) as (s' & E & M1 & M2 & M3 & M4).
    { apply Forall_forall. intros m' Hm'. apply (map_ok_ext s); [rewrite Forall_forall in Hl'; auto|].
      apply Hout. now apply list_elem_of_In. }
    { done. }
    exists s'. split; [done|]. split; [|split; [done|split; [done|]]].
    + rewrite M1. cbn. rewrite <- app_assoc. f_equal. f_equal. rewrite !flat_map_concat_map. f_equal. apply map_ext_in. intros m' Hm'.
      rewrite Forall_forall in Hl'. destruct (Hl' _ Hm') as [Hs _ _]. apply warnings_ext; [lia|]. intros a Ha.
      apply (Hout m'); [now apply list_elem_of_In|lia].
    + intros a. rewrite M4. cbn. unfold fill. destruct (in_range (addr m) (size m) a); cbn [orb]; [now destruct (existsb _ _)|done].
Qed.

Lemma free_all_ok s :
  maps_ok s ->
  exists s', tst_free_all e s = Done tt s' /\ msgs s' = msgs s ++ flat_map (warnings s) (maps s) /\ maps s' = [] /\
    (forall a, mem s' a = if existsb (fun m => in_range (addr m) (size m) a) (maps s) then None else mem s a).
Proof.
  intros [H1 H2]. unfold tst_free_all. rewrite (bind_Done _ _ s s s) by done.
  destruct (free_loop_ok (maps s) s H1 H2) as (s' & E & M1 & M2 & M3 & M4).
  rewrite (bind_Done _ _ tt s s' E). eexists. split; [reflexivity|]. repeat split; [exact M1|exact M4].
Qed.

(** ** Allocation *)

(** What [mmap] promises: new pages are not in use. *)
Definition mmap_fresh : Prop := forall s n a,
  maps_ok s -> mmap_answer e s n = Some a ->
  0 < a /\ (forall x, a <= x < a + n -> mem s x = None) /\ Forall (fun m => apart a n (addr m) (size m)) (maps s).

Hypothesis fresh : mmap_fresh.

(** The size of the pages a buffer of [sz] bytes is on, without the guard. *)
Definition span (sz : Z) : Z := (sz / P + (if sz mod P =? 0 then 0 else 1)) * P.

Lemma span_bounds sz : 0 < sz <= INT_MAX -> 0 < span sz /\ sz <= span sz < sz + P.
Proof.
  intros Hs. unfold span. pose proof (Z.div_mod sz P ltac:(lia)) as E. pose proof (Z.mod_pos_bound sz P ltac:(lia)).
  destruct (Z.eqb_spec (sz mod P) 0) as [E0|E0]; nia.
Qed.

Lemma shift_eq sz : (if sz mod P =? 0 then 0 else P - sz mod P) = span sz - sz.
Proof.
  unfold span. pose proof (Z.div_mod sz P ltac:(lia)) as E. destruct (Z.eqb_spec (sz mod P) 0); nia.
Qed.

Lemma pages_eq sz :
  0 < sz <= INT_MAX ->
  let pages := u32 (sz / P + (if sz mod P =? 0 then 0 else 1) + 1) in
  pages * P = span sz + P /\ u64 (P * pages) = span sz + P /\ u64 (pages * P) = span sz + P /\ u32 (pages - 1) * P = span sz.
Proof.
  intros Hs pages. pose proof (span_bounds sz Hs) as (Hp & Hb). unfold INT_MAX in Hs.
  assert (Hk : 0 <= sz / P <= sz) by (split; [apply Z.div_pos; lia|apply Z.div_le_upper_bound; nia]).
  set (k := sz / P + (if sz mod P =? 0 then 0 else 1)) in *. assert (Hk' : 0 <= k <= sz + 1) by (subst k; destruct (_ =? 0); lia).
  assert (E : pages = k + 1) by (subst pages; unfold u32, uwrap; apply Z.mod_small; change (2 ^ 32) with 4294967296; lia).
  rewrite E. assert (Es : k * P = span sz) by reflexivity. rewrite (Z.mul_comm P). replace ((k + 1) * P) with (span sz + P) by lia.
  unfold u64, u32, uwrap. rewrite !Z.mod_small; [lia|change (2 ^ 32) with 4294967296; lia|change (2 ^ 64) with 18446744073709551616; lia].
Qed.

(** The first allocation says that buffers are guarded. *)
Definition announced (s : bst) : bst :=
  if print_msg s then mkBst (mem s) (maps s) (msgs s ++ [(TINFO, §"Test is using guarded buffers")]) (randoms s) false else s.

Definition new_map (base sz : Z) : map_ := mkMap base (span sz + P) (span sz - sz).

Lemma announced_eq s : mem (announced s) = mem s /\ maps (announced s) = maps s.
Proof. unfold announced. now destruct (print_msg s). Qed.

Lemma no_warnings s m :
  0 <= buf_shift m ->
  warnings s m = [] <-> forall j, 0 <= j < buf_shift m / 2 -> mem s (addr m + (buf_shift m - j - 1)) = mem s (addr m + j).
Proof.
  intros Hm. pose proof (half_shift m Hm). unfold warnings. rewrite flat_map_concat_map, concat_nil_Forall, Forall_map, Forall_forall. split.
  - intros H1 j Hj. specialize (H1 j). unfold compose in H1. rewrite <- list_elem_of_In, elem_of_zseq in H1. specialize (H1 ltac:(lia)).
    unfold differs in H1. destruct (bool_decide _) eqn:Ed; [|done]. now apply bool_decide_eq_true in Ed.
  - intros Hj i Hi%list_elem_of_In%elem_of_zseq. unfold compose, differs. rewrite Hj by lia. now rewrite bool_decide_eq_true_2.
Qed.

Lemma alloc_ok sz s base :
  maps_ok s -> 0 < sz <= INT_MAX -> malloc_answer e s = true -> mmap_answer e (announced s) (span sz + P) = Some base ->
  exists s', tst_alloc e sz s = Done (base + (span sz - sz)) s' /\
    maps s' = new_map base sz :: maps s /\ msgs s' = msgs (announced s) /\ maps_ok s' /\ warnings s' (new_map base sz) = [] /\
    (forall a, ~ (base <= a < base + (span sz + P)) -> mem s' a = mem s a) /\
    (forall a, base + (span sz - sz) <= a < base + span sz -> mem s' a = Some 0).
Proof.
  intros Hok Hs Hmal Hmm. destruct (pages_eq sz Hs) as (E1 & E2 & E3 & E4). destruct (span_bounds sz Hs) as (B1 & B2).
  destruct (announced_eq s) as [A1 A2].
  destruct (fresh (announced s) _ _ ltac:(unfold maps_ok, maps_ok in *; rewrite A2; destruct Hok as [K1 K2]; split; [|done];
    eapply Forall_impl; [|exact K1]; intros m Hm; eapply map_ok_ext; [exact Hm|now rewrite A1]) Hmm) as (F1 & F2 & F3). rewrite A1, A2 in *.
  unfold tst_alloc. rewrite E2, E3, E4, shift_eq.
  rewrite (bind_Done _ _ tt s s) by (unfold safe_malloc; now rewrite Hmal). rewrite (bind_Done _ _ s s s) by done.
  rewrite (bind_Done _ _ tt s (announced s)) by (unfold when, announced; now destruct (print_msg s)).
  set (s1 := set_mem (fill base (span sz + P) (Some 0) (mem s)) (announced s)).
  rewrite (bind_Done _ _ base (announced s) s1) by (unfold safe_mmap; now rewrite Hmm, A1).
  set (s2 := set_mem (fill (base + span sz) P None (mem s1)) s1). rewrite (bind_Done _ _ tt s1 s2) by done.
  set (m := mkMap base (span sz + P) (span sz - sz)). set (s3 := set_maps (m :: maps s2) s2). rewrite (bind_Done _ _ tt s2 s3) by done.
  assert (H3 : forall a, base <= a < base + span sz -> mem s3 a = Some 0)
    by (intros a Ha; cbn; rewrite fill_out by lia; now rewrite fill_in by lia).
  pose proof (half_shift m ltac:(cbn; lia)) as Hh. cbn [buf_shift m] in Hh.
  destruct (setup_loop_ok m (Z.to_nat ((span sz - sz) / 2)) 0 s3) as (s' & S1 & S2 & S3 & _ & S4 & S5 & S6);
    [lia|cbn; lia|intros a Ha; cbn in Ha; rewrite H3 by lia; done|].
  rewrite (bind_Done _ _ tt s3 s' S1). exists s'. cbn [addr buf_shift m] in *.
  assert (Hout : forall a, ~ (base <= a < base + (span sz + P)) -> mem s' a = mem s a)
    by (intros a Ha; rewrite S4 by lia; cbn; rewrite fill_out by lia; now rewrite fill_out by lia).
  split; [done|]. split; [rewrite S2; cbn; now rewrite A2|]. split; [now rewrite S3|].
  split; [|split; [apply no_warnings; cbn; [lia|intros j Hj; apply S6; lia]|split; [done|intros a Ha; rewrite S4 by lia; apply H3; lia]]].
  assert (A3 : maps s3 = m :: maps s) by (cbn; now rewrite A2).
  split; rewrite S2, A3.
  - constructor; [|destruct Hok as [K1 _]; apply Forall_forall; intros m' Hm'].
    + split; cbn [addr size buf_shift m]; [lia| |].
      * intros a Ha. destruct (Z.lt_ge_cases a (base + (span sz - sz))); [apply S5; lia|]. rewrite S4 by lia. rewrite H3 by lia. done.
      * intros a Ha. rewrite S4 by lia. cbn. apply fill_in. lia.
    + rewrite Forall_forall in K1, F3. apply (map_ok_ext s); [auto|]. intros a Ha. apply Hout. specialize (F3 _ Hm'). unfold apart in F3. lia.
  - split; [exact F3|apply Hok].
Qed.

(** ** Writes *)

Definition stored (a v : Z) (s : bst) : bst := set_mem (fill a 1 (Some (u8 v)) (mem s)) s.

Lemma stored_maps_ok a v s : maps_ok s -> mem s a <> None -> maps_ok (stored a v s).
Proof.
  intros [H1 H2] Ha. split; [|exact H2]. eapply Forall_impl; [|exact H1]. intros m [K1 K2 K3].
  split; [done| |]; cbn; intros x Hx; unfold fill; destruct (in_range a 1 x) eqn:E; auto.
  apply in_range_true in E. replace x with a in * by lia. now rewrite K3 in Ha by lia.
Qed.

(** Freeing after a write into the pages of the latest map: only its canaries
    can have changed. *)
Lemma free_after_write m l s a v :
  maps s = m :: l -> maps_ok s -> intact s -> mem s a <> None -> addr m <= a < addr m + size m ->
  exists s3, tst_free_all e (stored a v s) = Done tt s3 /\ msgs s3 = msgs s ++ warnings (stored a v s) m.
Proof.
  intros Hl Hok Hi Hn Ha. destruct (free_all_ok _ (stored_maps_ok a v s Hok Hn)) as (s3 & E & M & _). exists s3. split; [done|].
  rewrite M. cbn [msgs maps stored set_mem]. rewrite Hl. cbn [flat_map]. f_equal.
  replace (flat_map (warnings (stored a v s)) l) with (@nil (Z * cstr)); [apply app_nil_r|]. symmetry.
  rewrite flat_map_concat_map. apply concat_nil_Forall, Forall_map, Forall_forall. intros m' Hm'. unfold compose.
  unfold intact in Hi. destruct Hok as [K1 K2]. rewrite Hl in *. inversion_clear Hi as [|? ? _ Hi']. inversion_clear K1 as [|? ? _ K1'].
  rewrite Forall_forall in Hi', K1'. rewrite <- (Hi' m' Hm'). destruct (K1' m' Hm') as [Q _ _]. apply warnings_ext; [lia|].
  intros x Hx. cbn. apply fill_out. destruct K2 as [K2 _]. rewrite Forall_forall in K2. specialize (K2 m' Hm'). unfold apart in K2. lia.
Qed.

(** A byte of the canaries that has a partner. *)
Lemma write_canary m s a v :
  0 <= buf_shift m -> warnings s m = [] -> addr m <= a < addr m + buf_shift m -> 2 * (a - addr m) + 1 <> buf_shift m ->
  warnings (stored a v s) m = [] <-> mem s a = Some (u8 v).
Proof.
  intros Hm Hw Ha Hmid. pose proof (half_shift m Hm) as Hh. rewrite no_warnings in Hw |- * by done. split.
  - intros Hall. set (i := a - addr m). destruct (Z.lt_ge_cases i (buf_shift m / 2)) as [Hi|Hi].
    + specialize (Hall i ltac:(lia)). specialize (Hw i ltac:(lia)). cbn in Hall.
      rewrite (fill_in a 1 _ _ (addr m + i)), fill_out in Hall by lia. rewrite Hw in Hall. now replace (addr m + i) with a in Hall by lia.
    + set (j := buf_shift m - i - 1). specialize (Hall j ltac:(lia)). specialize (Hw j ltac:(lia)). cbn in Hall.
      rewrite (fill_in a 1 _ _ (addr m + (buf_shift m - j - 1))), fill_out in Hall by lia. rewrite <- Hw in Hall.
      now replace (addr m + (buf_shift m - j - 1)) with a in Hall by lia.
  - intros E j Hj. cbn. unfold fill.
    assert (Hs : forall x, (if in_range a 1 x then Some (u8 v) else mem s x) = mem s x).
    { intros x. destruct (in_range a 1 x) eqn:Ex; [|done]. apply in_range_true in Ex. replace x with a by lia. now rewrite E. }
    rewrite !Hs. now apply Hw.
Qed.
End Guard.


(** A system with pages of 16 bytes that maps what is asked for behind all other
    maps. *)
Definition sample_mmap (s : bst) (n : Z) : option Z :=
  let base := fold_right (fun m a => Z.max a (addr m + size m)) 4096 (maps s) in
  if forallb (fun x => bool_decide (mem s x = None)) (zseq base (Z.to_nat n)) then Some base else None.

Definition sample_benv : benv := mkBenv 16 sample_mmap (fun _ => true) (fun _ => true) (fun i => 7 * Z.of_nat i + 5) 1.

Definition bst0 : bst := mkBst (fun _ => None) [] [] 0 true.

Lemma sample_fresh : mmap_fresh sample_benv.
Proof.
  intros s n a _ E. cbn in E. unfold sample_mmap in E. set (base := fold_right _ _ _) in E.
  destruct (forallb _ _) eqn:F; [|done]. injection E as <-. rewrite forallb_forall in F.
  assert (Hb : 4096 <= base /\ Forall (fun m => addr m + size m <= base) (maps s)).
  { subst base. clear F. induction (maps s) as [|m l IH]; cbn [fold_right]; [split; [lia|constructor]|].
    destruct IH as [H1 H2]. split; [lia|]. constructor; [lia|]. eapply Forall_impl; [|exact H2]. cbn. lia. }
  split; [lia|]. split.
  - intros x Hx. specialize (F x). rewrite <- list_elem_of_In, elem_of_zseq in F. now apply bool_decide_eq_true in F; [|lia].
  - eapply Forall_impl; [|apply Hb]. unfold apart. cbn. lia.
Qed.

