(* ===== verification/FsPattern.v ===== *)
(** Data patterns of the file system tests (testcases/kernel/fs/doio: pattern.c,
    databin.c and dataascii.c): what they fill a buffer with, and what their
    checks find. *)
From Stdlib Require Import Ascii String ZArith Lia Bool.
From stdpp Require Import base list sets numbers.
From S2P Require Import Prelude CString Effects.

Local Open Scope Z_scope.

(** Bytes as [unsigned char]; a [char] is signed or not. *)
Definition signed_char (b : Z) : Z := swrap 8 b.

(** ** pattern.c *)

(** [memcmp(a + i, b + j, n) == 0]. *)
Definition memeq (a : list Z) (i : Z) (b : list Z) (j n : Z) : bool := bool_decide (slice i n a = slice j n b).

(** [memcpy(a + i, b + j, n)]. *)
Definition memcpy (a : list Z) (i : Z) (b : list Z) (j n : Z) : list Z := splice i (slice j n b) a.

(** The loop of [pattern_check]; [cp] is an index in the buffer. *)
Fixpoint check_loop (fuel : nat) (buf : list Z) (buflen ncmp nleft cp : Z) : option Z :=
  match fuel with
  | O => None
  | S f =>
      if ncmp <? buflen then
        let nb := if ncmp <? nleft then ncmp else nleft in
        if negb (memeq buf 0 buf cp nb) then Some (-1)
        else check_loop f buf buflen (ncmp + nb) (nleft - nb) (cp + nb)
      else Some 0
  end.

(** [None] when the loop does not end within [fuel] turns. *)
Definition pattern_check (fuel : nat) (buf : list Z) (buflen : Z) (pat : list Z) (patlen patshift : Z) : option Z :=
  let patshift := if patlen =? 0 then patshift else Z.rem patshift patlen in
  let nb := patlen - patshift in
  if buflen <? nb then Some (if memeq buf 0 pat patshift buflen then 0 else -1)
  else if negb (memeq buf 0 pat patshift nb) then Some (-1)
  else
    let nleft := buflen - nb in
    let cp := nb in
    if 0 <? patshift then
      if nleft <? patshift then Some (if memeq buf cp pat 0 nleft then 0 else -1)
      else if negb (memeq buf cp pat 0 patshift) then Some (-1)
      else check_loop fuel buf buflen (cp + patshift) (nleft - patshift) (cp + patshift)
    else check_loop fuel buf buflen cp nleft cp.

Fixpoint fill_loop (fuel : nat) (buf : list Z) (buflen ncopied nleft cp : Z) : option (list Z) :=
  match fuel with
  | O => None
  | S f =>
      if ncopied <? buflen then
        let trans := if ncopied <? nleft then ncopied else nleft in
        fill_loop f (memcpy buf cp buf 0 trans) buflen (ncopied + trans) (nleft - trans) (cp + trans)
      else Some buf
  end.

(** The new contents of [buf]. *)
Definition pattern_fill (fuel : nat) (buf : list Z) (buflen : Z) (pat : list Z) (patlen patshift : Z) : option (list Z) :=
  let patshift := if patlen =? 0 then patshift else Z.rem patshift patlen in
  let trans := patlen - patshift in
  if buflen <? trans then Some (memcpy buf 0 pat patshift buflen)
  else
    let buf := memcpy buf 0 pat patshift trans in
    let nleft := buflen - trans in
    let cp := trans in
    if 0 <? patshift then
      if nleft <? patshift then Some (memcpy buf cp pat 0 nleft)
      else fill_loop fuel (memcpy buf cp pat 0 patshift) buflen (cp + patshift) (nleft - patshift) (cp + patshift)
    else fill_loop fuel buf buflen cp nleft cp.

(** ** databin.c *)

(** [rand] answers for the mode 'r'. *)
Definition databingen (rand : nat -> Z) (mode : ascii) (bsize offset : Z) : list Z :=
  let n := Z.to_nat bsize in
  if ceqb mode "c" then replicate n 240
  else if ceqb mode "C" then map (fun ind => u8 (Z.land (Z.rem (offset + ind) 8) 127)) (zseq 0 n)
  else if ceqb mode "o" then replicate n 255
  else if ceqb mode "z" then replicate n 0
  else if ceqb mode "r" then map (fun ind => Z.lor (Z.land (rand (Z.to_nat ind)) 127) 64) (zseq 0 n)
  else replicate n 85.

(** [%#o]. *)
Definition fmt_o (z : Z) : cstr := if z =? 0 then §"0" else "0"%char :: fmt_nat 8 z.

Definition mismatch_msg (at_ exp act : Z) : cstr :=
  §"data mismatch at offset " ++ fmt_d at_ ++ §", exp:" ++ fmt_o exp ++ §", act:" ++ fmt_o act.

Definition match_msg (bsize : Z) : cstr := §"all " ++ fmt_d bsize ++ §" bytes match desired pattern".

(** A loop over the buffer from [cnt] on: the answer and [Errmsg]. *)
Fixpoint scan_buffer (expect act : Z -> Z -> Z) (show : Z -> Z) (bsize offset cnt : Z) (buffer : list Z) : Z * cstr :=
  match buffer with
  | [] => (-1, match_msg bsize)
  | b :: buffer =>
      if negb (act cnt b =? expect cnt b)
      then (offset + cnt, mismatch_msg (offset + cnt) (show (expect cnt b)) (show (act cnt b)))
      else scan_buffer expect act show bsize offset (cnt + 1) buffer
  end.

(** [buffer] has [bsize] bytes; [msg] is [Errmsg] before the call.  [char] is
    signed when [sgn] holds. *)
Definition databinchk (sgn : bool) (mode : ascii) (buffer : list Z) (bsize offset : Z) (msg : cstr) : Z * cstr :=
  let plain expbits := scan_buffer (fun _ _ => expbits) (fun _ b => b) (fun z => z) bsize offset 0 buffer in
  if ceqb mode "c" then plain 240
  else if ceqb mode "C" then
    scan_buffer (fun cnt _ => Z.land (Z.rem (offset + cnt) 8) 127) (fun _ b => if sgn then signed_char b else b)
      u32 bsize offset 0 buffer
  else if ceqb mode "o" then plain 255
  else if ceqb mode "z" then plain 0
  else if ceqb mode "r" then (-1, msg)
  else plain 85.

(** ** dataascii.c *)

Definition CHARS : list Z :=
  map chr_code (§"ABCDEFGHIJKLMNOPQRSTUVWXYZabcdefghjiklmnopqrstuvwxyz" ++ [LF]).

(** [charlist] with the terminating NUL, and [chars_size]; [sizeof] counts the
    NUL, [strlen] does not. *)
Definition charlist (listofchars : option (list Z)) : list Z :=
  match listofchars with None => CHARS ++ [0] | Some l => l ++ [0] end.

Definition chars_size (listofchars : option (list Z)) : Z :=
  match listofchars with None => Z.of_nat (length CHARS) + 1 | Some l => Z.of_nat (length l) end.

Definition ascii_at (listofchars : option (list Z)) (cnt : Z) : Z :=
  nth (Z.to_nat (Z.rem cnt (chars_size listofchars))) (charlist listofchars) 0.

(** A remainder by zero is undefined. *)
Definition dataasciigen (listofchars : option (list Z)) (bsize offset : Z) : option (list Z) :=
  if (chars_size listofchars =? 0) && (0 <? bsize) then None
  else Some (map (ascii_at listofchars) (zseq offset (Z.to_nat bsize))).

Definition dataasciichk (sgn : bool) (listofchars : option (list Z)) (buffer : list Z) (bsize offset : Z) : option (Z * cstr) :=
  if (chars_size listofchars =? 0) && (0 <? bsize) then None
  else
    let val b := if sgn : bool then signed_char b else b in
    Some (scan_buffer (fun cnt _ => val (ascii_at listofchars (offset + cnt))) (fun _ b => val b) u32 bsize offset 0 buffer).

(** ** The pattern *)

Section Pattern.
Variables (pat : list Z) (shift : Z).
Local Abbreviation len := (Z.of_nat (length pat)).
Hypothesis len_pos : 0 < len.
Hypothesis shift_ok : 0 <= shift < len.

(** The byte at index [i] of a buffer that holds the pattern. *)
Definition pat_at (i : Z) : Z := nth (Z.to_nat ((i + shift) mod len)) pat 0.

Definition run (lo n : Z) : list Z := map pat_at (zseq lo (Z.to_nat n)).

Lemma length_run lo n : length (run lo n) = Z.to_nat n.
Proof. unfold run. rewrite length_map. generalize lo. induction (Z.to_nat n) as [|k IH]; intros x; cbn; [done|]. now rewrite IH. Qed.

Lemma lookup_run lo n i : 0 <= n -> (i < Z.to_nat n)%nat -> run lo n !! i = Some (pat_at (lo + Z.of_nat i)).
Proof.
  intros _. unfold run. revert lo i. induction (Z.to_nat n) as [|k IH]; intros lo i Hi; [lia|]. cbn [zseq map].
  destruct i as [|i]; [cbn; now rewrite Z.add_0_r|]. cbn [lookup list_lookup]. rewrite IH by lia. do 2 f_equal. lia.
Qed.

Lemma run_app lo n m : 0 <= n -> 0 <= m -> run lo (n + m) = run lo n ++ run (lo + n) m.
Proof. intros Hn Hm. unfold run. rewrite Z2Nat.inj_add, zseq_app, map_app by lia. now rewrite Z2Nat.id. Qed.

Lemma run_period k lo n : run (lo + k * len) n = run lo n.
Proof.
  unfold run, pat_at. revert lo. induction (Z.to_nat n) as [|j IH]; intros lo; [done|]. cbn [zseq map]. f_equal.
  - do 2 f_equal. rewrite <- Z.add_assoc, (Z.add_comm (k * len)), Z.add_assoc. apply Z.mod_add. lia.
  - rewrite <- (IH (lo + 1)). do 2 f_equal. lia.
Qed.

Lemma slice_eq_run (l : list Z) j n lo :
  0 <= j -> 0 <= n -> j + n <= Z.of_nat (length l) -> (forall i, 0 <= i < n -> l !! Z.to_nat (j + i) = Some (pat_at (lo + i))) ->
  slice j n l = run lo n.
Proof.
  intros Hj Hn Hl H. apply list_eq. intros i. destruct (Nat.lt_ge_cases i (Z.to_nat n)) as [Hi|Hi].
  - rewrite lookup_slice, lookup_run by lia. specialize (H (Z.of_nat i) ltac:(lia)).
    now replace (Z.to_nat (j + Z.of_nat i)) with (Z.to_nat j + i)%nat in H by lia.
  - rewrite !lookup_ge_None_2; [done|rewrite length_run; lia|rewrite length_slice; lia].
Qed.

Lemma lookup_pat i : 0 <= i < len -> pat !! Z.to_nat i = Some (nth (Z.to_nat i) pat 0).
Proof. intros Hi. destruct (nth_lookup_or_length pat (Z.to_nat i) 0); [done|lia]. Qed.

(** The two parts of the pattern. *)
Lemma slice_pat_high n : 0 <= n <= len - shift -> slice shift n pat = run 0 n.
Proof.
  intros Hn. apply slice_eq_run; try lia. intros i Hi. unfold pat_at. rewrite Z.add_0_l, Z.mod_small by lia.
  rewrite (Z.add_comm shift). apply lookup_pat. lia.
Qed.

Lemma slice_pat_low n : 0 <= n <= shift -> slice 0 n pat = run (len - shift) n.
Proof.
  intros Hn. apply slice_eq_run; try lia. intros i Hi. unfold pat_at.
  replace (len - shift + i + shift) with (i + 1 * len) by lia. rewrite Z.mod_add, Z.mod_small by lia. apply lookup_pat. lia.
Qed.

(** ** Filling *)

(** The first [n] bytes of the buffer hold the pattern. *)
Definition filled (buf : list Z) (n : Z) : Prop := take (Z.to_nat n) buf = run 0 n.

Lemma slice_take_take (buf : list Z) n m : 0 <= m <= n -> slice 0 m buf = take (Z.to_nat m) (take (Z.to_nat n) buf).
Proof. intros H. unfold slice. cbn [Z.to_nat drop]. rewrite take_take. f_equal. lia. Qed.

Lemma run_take n m : 0 <= m <= n -> take (Z.to_nat m) (run 0 n) = run 0 m.
Proof.
  intros H. replace n with (m + (n - m)) by lia. rewrite run_app by lia. rewrite <- (length_run 0 m) at 1. apply take_app_length.
Qed.

(** One step of filling. *)
Lemma filled_step buf c t src :
  filled buf c -> 0 <= c -> 0 <= t -> c + t <= Z.of_nat (length buf) -> src = run c t ->
  filled (splice c src buf) (c + t) /\ length (splice c src buf) = length buf.
Proof.
  intros Hf Hc Ht Hl ->. unfold filled in *. split.
  - unfold splice. rewrite Hf, run_app, Z.add_0_l by lia. rewrite app_assoc.
    replace (Z.to_nat (c + t)) with (length (run 0 c ++ run c t)) by (rewrite length_app, !length_run; lia). apply take_app_length.
  - apply length_splice; [lia|]. rewrite length_run. lia.
Qed.

Lemma filled_slice buf c t : filled buf c -> 0 <= t <= c -> slice 0 t buf = run 0 t.
Proof. intros Hf Ht. rewrite (slice_take_take buf c) by lia. rewrite Hf. apply run_take. lia. Qed.

Lemma filled_all buf n : length buf = Z.to_nat n -> filled buf n -> buf = run 0 n.
Proof. unfold filled. intros Hn. rewrite take_ge by lia. done. Qed.

Lemma fill_loop_ok fuel k buf n :
  let c := k * len in
  filled buf c -> 0 < k -> length buf = Z.to_nat n -> c <= n -> n - c < Z.of_nat fuel ->
  fill_loop fuel buf n c (n - c) c = Some (run 0 n).
Proof.
  revert k buf. induction fuel as [|f IH]; intros k buf c Hf Hk Hn Hc Hfu; [lia|]. subst c. cbn [fill_loop].
  destruct (Z.ltb_spec (k * len) n) as [Hlt|Hge].
  2: { f_equal. replace (k * len) with n in Hf by lia. now apply filled_all. }
  set (t := if _ <? _ then _ else _). assert (Ht : 0 <= t <= k * len /\ k * len + t <= n) by (subst t; zcases).
  destruct (filled_step buf (k * len) t (slice 0 t buf) Hf) as [F1 F2]; [lia|lia|lia| |].
  { rewrite (filled_slice buf (k * len)) by (done || lia). symmetry. rewrite <- (Z.add_0_l (k * len)) at 1. apply run_period. }
  unfold memcpy. revert F1 F2. generalize (splice (k * len) (slice 0 t buf) buf). intros buf' F1 F2. rewrite Hn in F2.
  subst t. destruct (Z.ltb_spec (k * len) (n - k * len)).
  - replace (k * len + k * len) with ((2 * k) * len) in * by lia. replace (n - k * len - k * len) with (n - (2 * k) * len) by lia.
    apply IH; [done|lia|done|lia|nia].
  - replace (k * len + (n - k * len)) with n in * by lia. destruct f; [lia|]. cbn [fill_loop]. rewrite Z.ltb_irrefl.
    f_equal. now apply filled_all.
Qed.

(** The buffer holds the pattern, whatever it held. *)
Lemma pattern_fill_ok buf n patshift :
  length buf = Z.to_nat n -> 0 <= n -> 0 <= patshift -> shift = Z.rem patshift len ->
  pattern_fill (S (Z.to_nat n)) buf n pat len patshift = Some (run 0 n).
Proof.
  intros Hn Hn0 Hp Hs. unfold pattern_fill. rewrite (proj2 (Z.eqb_neq len 0)) by lia. rewrite <- Hs.
  assert (F0 : filled buf 0) by done. unfold memcpy.
  destruct (Z.ltb_spec n (len - shift)) as [H1|H1]; rewrite slice_pat_high by lia.
  - destruct (filled_step buf 0 n (run 0 n) F0) as [F1 F2]; try lia; [done|]. f_equal. apply filled_all; [now rewrite F2|done].
  - destruct (filled_step buf 0 (len - shift) (run 0 (len - shift)) F0) as [F1 F2]; try lia; [done|].
    rewrite Z.add_0_l in F1. revert F1 F2. generalize (splice 0 (run 0 (len - shift)) buf). intros b1 F1 F2. rewrite Hn in F2.
    destruct (Z.ltb_spec 0 shift) as [H2|H2].
    + destruct (Z.ltb_spec (n - (len - shift)) shift) as [H3|H3]; rewrite slice_pat_low by lia.
      * destruct (filled_step b1 (len - shift) (n - (len - shift)) (run (len - shift) (n - (len - shift))) F1) as [F3 F4]; try lia; [done|].
        f_equal. replace (len - shift + (n - (len - shift))) with n in F3 by lia. apply filled_all; [now rewrite F4|done].
      * destruct (filled_step b1 (len - shift) shift (run (len - shift) shift) F1) as [F3 F4]; try lia; [done|].
        replace (len - shift + shift) with (1 * len) in * by lia. replace (n - (len - shift) - shift) with (n - 1 * len) by lia.
        apply fill_loop_ok; [done|lia|now rewrite F4|lia|lia].
    + replace (len - shift) with (1 * len) in * by lia. apply fill_loop_ok; [done|lia|done|lia|lia].
Qed.

(** ** Checking *)

(** Comparing a part extends what is known of the buffer, or shows that it does
    not hold the pattern. *)
Lemma compare_step buf n c t src :
  filled buf c -> length buf = Z.to_nat n -> 0 <= c -> 0 <= t -> c + t <= n -> src = run c t ->
  if bool_decide (slice c t buf = src) then filled buf (c + t) else buf <> run 0 n.
Proof.
  intros Hf Hn Hc Ht Hl ->. destruct (bool_decide _) eqn:E.
  - apply bool_decide_eq_true in E. unfold filled in *. rewrite run_app, Z.add_0_l, <- Hf, <- E by lia. unfold slice.
    rewrite Z2Nat.inj_add by lia. symmetry. apply take_take_drop.
  - apply bool_decide_eq_false in E. intros ->. apply E. clear E Hf. replace n with (c + (n - c)) by lia. rewrite run_app, Z.add_0_l by lia.
    unfold slice. replace (Z.to_nat c) with (length (run 0 c)) by apply length_run. rewrite drop_app_length.
    replace (n - c) with (t + (n - c - t)) by lia. rewrite run_app by lia.
    replace (Z.to_nat t) with (length (run c t)) at 1 by apply length_run. apply take_app_length.
Qed.

(** What is left to be shown of a check. *)
Definition verdict (buf : list Z) (n : Z) : option Z := Some (if bool_decide (buf = run 0 n) then 0 else -1).

Lemma verdict_no buf n : buf <> run 0 n -> verdict buf n = Some (-1).
Proof. intros H. unfold verdict. now rewrite bool_decide_eq_false_2. Qed.

Lemma verdict_yes buf n : length buf = Z.to_nat n -> filled buf n -> verdict buf n = Some 0.
Proof. intros Hn H. unfold verdict. rewrite bool_decide_eq_true_2; [done|]. now apply filled_all. Qed.

Lemma check_rest_ok fuel k buf n :
  let c := k * len in
  filled buf c -> 0 < k -> length buf = Z.to_nat n -> c <= n -> n - c < Z.of_nat fuel ->
  check_loop fuel buf n c (n - c) c = verdict buf n.
Proof.
  revert k. induction fuel as [|f IH]; intros k c Hf Hk Hn Hc Hfu; [lia|]. subst c. cbn [check_loop].
  destruct (Z.ltb_spec (k * len) n) as [Hlt|Hge].
  2: { symmetry. apply verdict_yes; [done|]. now replace n with (k * len) by lia. }
  set (t := if _ <? _ then _ else _). assert (Ht : 0 <= t <= k * len /\ k * len + t <= n) by (subst t; zcases).
  pose proof (compare_step buf n (k * len) t (slice 0 t buf) Hf Hn ltac:(lia) ltac:(lia) ltac:(lia)) as Hstep.
  unfold memeq. rewrite (bool_decide_ext _ (slice (k * len) t buf = slice 0 t buf)) by (split; done).
  destruct (bool_decide _); cbn [negb].
  - specialize (Hstep ltac:(rewrite (filled_slice buf (k * len)) by (done || lia); symmetry; rewrite <- (Z.add_0_l (k * len)) at 1; apply run_period)).
    subst t. destruct (Z.ltb_spec (k * len) (n - k * len)).
    + replace (k * len + k * len) with ((2 * k) * len) in * by lia. replace (n - k * len - k * len) with (n - (2 * k) * len) by lia.
      apply IH; [done|lia|done|lia|nia].
    + replace (k * len + (n - k * len)) with n in * by lia. destruct f; [lia|]. cbn [check_loop]. rewrite Z.ltb_irrefl.
      symmetry. now apply verdict_yes.
  - symmetry. apply verdict_no, Hstep. rewrite (filled_slice buf (k * len)) by (done || lia). symmetry.
    rewrite <- (Z.add_0_l (k * len)) at 1. apply run_period.
Qed.

Lemma pattern_check_ok buf n patshift :
  length buf = Z.to_nat n -> 0 <= n -> 0 <= patshift -> shift = Z.rem patshift len ->
  pattern_check (S (Z.to_nat n)) buf n pat len patshift = verdict buf n.
Proof.
  intros Hn Hn0 Hp Hs. unfold pattern_check. rewrite (proj2 (Z.eqb_neq len 0)) by lia. rewrite <- Hs.
  assert (F0 : filled buf 0) by done. unfold memeq.
  destruct (Z.ltb_spec n (len - shift)) as [H1|H1]; rewrite slice_pat_high by lia.
  - pose proof (compare_step buf n 0 n _ F0 Hn ltac:(lia) ltac:(lia) ltac:(lia) eq_refl) as Hst.
    destruct (bool_decide _); symmetry; [now apply verdict_yes|now apply verdict_no].
  - pose proof (compare_step buf n 0 (len - shift) _ F0 Hn ltac:(lia) ltac:(lia) ltac:(lia) eq_refl) as F1.
    destruct (bool_decide _); cbn [negb]; [|symmetry; now apply verdict_no]. rewrite Z.add_0_l in F1.
    destruct (Z.ltb_spec 0 shift) as [H2|H2].
    + destruct (Z.ltb_spec (n - (len - shift)) shift) as [H3|H3]; rewrite slice_pat_low by lia.
      * pose proof (compare_step buf n (len - shift) (n - (len - shift)) _ F1 Hn ltac:(lia) ltac:(lia) ltac:(lia) eq_refl) as F2.
        replace (len - shift + (n - (len - shift))) with n in F2 by lia.
        destruct (bool_decide _); symmetry; [now apply verdict_yes|now apply verdict_no].
      * pose proof (compare_step buf n (len - shift) shift _ F1 Hn ltac:(lia) ltac:(lia) ltac:(lia) eq_refl) as F2.
        destruct (bool_decide _); cbn [negb]; [|symmetry; now apply verdict_no].
        replace (len - shift + shift) with (1 * len) in * by lia. replace (n - (len - shift) - shift) with (n - 1 * len) by lia.
        apply check_rest_ok; [done|lia|done|lia|lia].
    + replace (len - shift) with (1 * len) in * by lia. apply check_rest_ok; [done|lia|done|lia|lia].
Qed.
End Pattern.

(** What a buffer of [n] bytes that starts at [shift] of the repeated pattern
    holds. *)
Definition repeated (pat : list Z) (shift n : Z) : list Z :=
  map (fun i => nth (Z.to_nat ((i + shift) mod Z.of_nat (length pat))) pat 0) (zseq 0 (Z.to_nat n)).

(** C38: Filling ends, with the repeated pattern in the buffer; checking ends and
    accepts the repeated pattern only. *)
Theorem pattern_fill_check buf pat n patshift :
  pat <> [] -> length buf = Z.to_nat n -> 0 <= n -> 0 <= patshift ->
  pattern_fill (S (Z.to_nat n)) buf n pat (Z.of_nat (length pat)) patshift = Some (repeated pat patshift n) /\
  pattern_check (S (Z.to_nat n)) buf n pat (Z.of_nat (length pat)) patshift =
    Some (if bool_decide (buf = repeated pat patshift n) then 0 else -1).
Proof.
  intros Hp Hn Hn0 Hs. assert (Hl : 0 < Z.of_nat (length pat)) by (destruct pat; [done|cbn; lia]).
  set (sh := Z.rem patshift (Z.of_nat (length pat))). assert (Hsh : 0 <= sh < Z.of_nat (length pat)) by (apply Z.rem_bound_pos; lia).
  assert (E : repeated pat patshift n = run pat sh 0 n).
  { unfold repeated, run, pat_at. apply map_ext. intros i. do 2 f_equal. subst sh. rewrite Z.rem_mod_nonneg by lia.
    symmetry. apply Z.add_mod_idemp_r. lia. }
  rewrite E. split; [now apply pattern_fill_ok|now apply pattern_check_ok].
Qed.

Lemma pattern_fill_check_witness :
  pattern_fill 8 [0; 0; 0; 0; 0; 0; 0] 7 [1; 2; 3] 3 4 = Some [2; 3; 1; 2; 3; 1; 2] /\
  pattern_check 8 [0; 0; 0; 0; 0; 0; 0] 7 [1; 2; 3] 3 4 = Some (-1).
Proof. apply (pattern_fill_check [0; 0; 0; 0; 0; 0; 0] [1; 2; 3] 7 4); [discriminate|reflexivity|lia|lia]. Defined.

(** An empty pattern: no fuel is enough. *)
Lemma empty_pattern_diverges fuel buf n : 0 < n -> pattern_fill fuel buf n [] 0 0 = None.
Proof.
  intros Hn. unfold pattern_fill. change (0 =? 0) with true. cbv beta iota zeta. change (0 - 0) with 0. change (0 <? 0) with false. cbn iota.
  rewrite (proj2 (Z.ltb_ge n 0)) by lia. generalize (memcpy buf 0 [] 0 0).
  rewrite Z.sub_0_r. induction fuel as [|f IH]; intros b; [done|]. cbn [fill_loop]. rewrite (proj2 (Z.ltb_lt 0 n)) by lia.
  rewrite !Z.add_0_r, Z.sub_0_r. apply IH.
Qed.

(** ** The checks find the first byte that is not as generated *)

Fixpoint first_bad (a b : list Z) : option nat :=
  match a, b with
  | x :: a, y :: b => if x =? y then option_map S (first_bad a b) else Some O
  | _, _ => None
  end.

(** The return value of a check. *)
Definition bad_offset (offset : Z) (buffer expected : list Z) : Z :=
  match first_bad buffer expected with Some i => offset + Z.of_nat i | None => -1 end.

Lemma first_bad_None a b : length a = length b -> first_bad a b = None <-> a = b.
Proof.
  revert b. induction a as [|x a IH]; intros [|y b] Hl; try done. cbn [first_bad]. specialize (IH b ltac:(now injection Hl)).
  destruct (Z.eqb_spec x y) as [->|Hne]; [|split; [done|congruence]]. destruct (first_bad a b); cbn.
  - split; [done|]. intros [= H]. now apply IH in H.
  - split; [|done]. intros _. f_equal. now apply IH.
Qed.

Lemma scan_buffer_first expect act show bsize offset cnt buffer expected :
  (forall i b x, buffer !! i = Some b -> expected !! i = Some x -> (act (cnt + Z.of_nat i) b =? expect (cnt + Z.of_nat i) b) = (b =? x)) ->
  length buffer = length expected ->
  (scan_buffer expect act show bsize offset cnt buffer).1 = bad_offset (offset + cnt) buffer expected.
Proof.
  revert cnt expected. induction buffer as [|b buffer IH]; intros cnt [|x expected] H Hl; try done. cbn [scan_buffer].
  unfold bad_offset in *. cbn [first_bad]. rewrite <- (H 0%nat b x eq_refl eq_refl), Z.add_0_r. destruct (act cnt b =? expect cnt b); cbn [negb fst].
  - rewrite (IH (cnt + 1) expected); [|intros i c y Hc Hy|now injection Hl].
    + destruct (first_bad buffer expected); cbn [option_map]; lia.
    + specialize (H (S i) c y Hc Hy). now replace (cnt + 1 + Z.of_nat i) with (cnt + Z.of_nat (S i)) by lia.
  - now rewrite Z.add_0_r.
Qed.

Lemma scan_buffer_all expect act show bsize offset buffer expected :
  (forall i b x, buffer !! i = Some b -> expected !! i = Some x -> (act (Z.of_nat i) b =? expect (Z.of_nat i) b) = (b =? x)) ->
  length buffer = length expected -> (scan_buffer expect act show bsize offset 0 buffer).1 = bad_offset offset buffer expected.
Proof. intros H Hl. rewrite (scan_buffer_first _ _ _ _ _ _ _ expected); [now rewrite Z.add_0_r|exact H|done]. Qed.

Definition byte (b : Z) : Prop := 0 <= b < 256.

Lemma signed_char_eq b x : byte b -> 0 <= x < 128 -> (signed_char b =? x) = (b =? x).
Proof.
  unfold byte, signed_char, swrap. change (2 ^ (8 - 1)) with 128. change (2 ^ 8) with 256. intros Hb Hx.
  destruct (Z.eqb_spec b x), (Z.eqb_spec ((b + 128) mod 256 - 128) x); try done; Z.to_euclidean_division_equations; lia.
Qed.

Lemma signed_char_inj a b : byte a -> byte b -> (signed_char a =? signed_char b) = (a =? b).
Proof.
  unfold byte, signed_char, swrap. change (2 ^ (8 - 1)) with 128. change (2 ^ 8) with 256. intros Ha Hb.
  destruct (Z.eqb_spec a b), (Z.eqb_spec ((a + 128) mod 256 - 128) ((b + 128) mod 256 - 128)); try done; Z.to_euclidean_division_equations; lia.
Qed.

Lemma land_127 z : 0 <= Z.land z 127 < 128.
Proof. change 127 with (Z.ones 7). rewrite Z.land_ones by lia. apply (Z.mod_pos_bound z (2 ^ 7)). lia. Qed.

Lemma lookup_zseq lo n i : (i < n)%nat -> zseq lo n !! i = Some (lo + Z.of_nat i).
Proof.
  revert lo i. induction n as [|n IH]; intros lo i Hi; [lia|]. destruct i as [|i]; cbn; [now rewrite Z.add_0_r|]. rewrite IH by lia. f_equal. lia.
Qed.

Lemma length_zseq lo n : length (zseq lo n) = n.
Proof. revert lo. induction n as [|n IH]; intros lo; cbn; [done|]. now rewrite IH. Qed.

(** [databinchk] gives the offset of the first byte that [databingen] would not
    have written there, whatever the sign of [char]; it cannot check random data. *)
Theorem databin_check rand sgn mode buffer bsize offset msg :
  Forall byte buffer -> length buffer = Z.to_nat bsize ->
  (databinchk sgn mode buffer bsize offset msg).1 =
  if ceqb mode "r" then -1 else bad_offset offset buffer (databingen rand mode bsize offset).
Proof.
  intros Hb Hl. unfold databinchk, databingen.
  assert (Hplain : forall x, (scan_buffer (fun _ _ => x) (fun _ b => b) (fun z => z) bsize offset 0 buffer).1 =
                             bad_offset offset buffer (replicate (Z.to_nat bsize) x)).
  { intros x. apply scan_buffer_all; [|now rewrite length_replicate].
    intros i b y _ Hy. apply lookup_replicate in Hy as [-> _]. done. }
  destruct (ceqb mode "c") eqn:E1; [apply ceqb_eq in E1 as ->; apply Hplain|].
  destruct (ceqb mode "C") eqn:E2.
  - apply ceqb_eq in E2 as ->. change (ceqb "C" "r") with false. cbn iota.
    apply scan_buffer_all; [|now rewrite length_map, length_zseq].
    intros i b x Hi Hx. rewrite list_lookup_fmap in Hx.
    destruct (Nat.lt_ge_cases i (Z.to_nat bsize)) as [Hlt|Hge]; [|rewrite lookup_ge_None_2 in Hi by lia; done].
    rewrite lookup_zseq in Hx by done. injection Hx as <-. pose proof (land_127 (Z.rem (offset + Z.of_nat i) 8)) as Hr.
    assert (Hu : u8 (Z.land (Z.rem (offset + Z.of_nat i) 8) 127) = Z.land (Z.rem (offset + Z.of_nat i) 8) 127)
      by (unfold u8, uwrap; apply Z.mod_small; change (2 ^ 8) with 256; lia).
    rewrite Z.add_0_l, Hu.
    destruct sgn; [|done]. apply signed_char_eq; [|lia]. rewrite Forall_forall in Hb. apply Hb, list_elem_of_In. eapply list_elem_of_lookup_2, Hi.
  - destruct (ceqb mode "o") eqn:E3; [apply ceqb_eq in E3 as ->; apply Hplain|].
    destruct (ceqb mode "z") eqn:E4; [apply ceqb_eq in E4 as ->; apply Hplain|].
    destruct (ceqb mode "r"); [done|apply Hplain].
Qed.

Lemma databin_check_witness : (databinchk true "C" [6; 7; 0; 1; 9] 5 14 []).1 = 18.
Proof.
  etransitivity; [apply (databin_check (fun _ => 0) true "C" [6; 7; 0; 1; 9] 5 14 [])|vm_compute; reflexivity].
  - repeat (constructor; [unfold byte; lia|]). constructor.
  - reflexivity.
Defined.

(** The same for text: [dataasciichk] against [dataasciigen]. *)
Theorem dataascii_check sgn chars buffer bsize offset :
  Forall byte buffer -> length buffer = Z.to_nat bsize -> 0 <= offset ->
  match chars with Some l => Forall byte l /\ l <> [] | None => True end ->
  exists expected msg, dataasciigen chars bsize offset = Some expected /\
    dataasciichk sgn chars buffer bsize offset = Some (bad_offset offset buffer expected, msg).
Proof.
  intros Hb Hl Ho Hc. unfold dataasciigen, dataasciichk.
  assert (Hs : (chars_size chars =? 0) = false) by (destruct chars as [[|]|]; [now destruct Hc|apply Z.eqb_neq; cbn; lia|done]).
  rewrite Hs. cbn [andb]. do 2 eexists. split; [reflexivity|]. f_equal. set (r := scan_buffer _ _ _ _ _ _ _).
  rewrite (surjective_pairing r). apply (f_equal (fun x => (x, r.2))). subst r.
  apply scan_buffer_all; [|now rewrite length_map, length_zseq]. intros i b x Hi Hx. rewrite list_lookup_fmap in Hx.
  destruct (Nat.lt_ge_cases i (Z.to_nat bsize)) as [Hlt|Hge]; [|rewrite lookup_ge_None_2 in Hi by lia; done].
  rewrite lookup_zseq in Hx by done. injection Hx as <-. destruct sgn; [|done]. apply signed_char_inj.
  - rewrite Forall_forall in Hb. apply Hb, list_elem_of_In. eapply list_elem_of_lookup_2, Hi.
  - unfold ascii_at. destruct (nth_in_or_default (Z.to_nat (Z.rem (offset + Z.of_nat i) (chars_size chars))) (charlist chars) 0) as [Hin| ->]; [|unfold byte; lia].
    assert (Hall : Forall byte (charlist chars)).
    { unfold charlist. destruct chars; apply Forall_app; (split; [|constructor; [unfold byte; lia|constructor]]); [tauto|].
      apply Forall_forall. intros y. unfold CHARS. rewrite in_map_iff. intros (c & <- & _). unfold byte. apply chr_code_range. }
    rewrite Forall_forall in Hall. auto.
Qed.

Lemma dataascii_check_witness :
  exists expected msg, dataasciigen (Some [97; 98; 99]) 4 2 = Some expected /\
    dataasciichk true (Some [97; 98; 99]) [99; 97; 97; 99] 4 2 = Some (bad_offset 2 [99; 97; 97; 99] expected, msg).
Proof.
  apply (dataascii_check true (Some [97; 98; 99]) [99; 97; 97; 99] 4 2); [|reflexivity|lia|split; [|discriminate]].
  all: repeat (constructor; [unfold byte; lia|]); constructor.
Defined.
