(* ===== verification/FsFlags.v ===== *)
(** Open flags as text, and tokens, of the file system tests
    (testcases/kernel/fs/doio: open_flags.c and string_to_tokens.c). *)
From Stdlib Require Import Ascii String ZArith Lia Bool.
From stdpp Require Import base list sets numbers.
From S2P Require Import Prelude CString.

Local Open Scope Z_scope.

(** ** open_flags.c *)

Definition O_RDONLY : Z := 0.
Definition O_WRONLY : Z := 1.
Definition O_RDWR : Z := 2.

(** [struct open_flag_t]. *)
Record open_flag := mkFlag { symbol : cstr; flag : Z }.

(** The part of [Open_flags] behind the three access modes depends on the macros
    of the system. *)
Section Table.
Variable others : list open_flag.

Definition Open_flags : list open_flag :=
  mkFlag §"O_RDONLY" O_RDONLY :: mkFlag §"O_WRONLY" O_WRONLY :: mkFlag §"O_RDWR" O_RDWR :: others.

(** The loop over [cc], [name] being the text that is left: the bits, or the text
    [badname] points to.  A turn takes a character at least. *)
Fixpoint parse_loop (fuel : nat) (name : cstr) (bits : Z) : option (Z + cstr) :=
  match fuel with
  | O => None
  | S f =>
      let word := takewhile (fun c => negb (ceqb c ",")) name in
      match List.find (fun o => streq word (symbol o)) Open_flags with
      | None => Some (inr name)
      | Some o =>
          let bits := Z.lor bits (flag o) in
          match drop (length word) name with
          | [] => Some (inl bits)
          | _ :: cc => parse_loop f cc bits
          end
      end
  end.

Definition parse_open_flags (string : cstr) : option (Z + cstr) := parse_loop (S (length string)) string 0.

(** [strcat] behind what is there. *)
Definition add_symbol (sep text : cstr) (havesome : bool) (s : cstr) : cstr :=
  text ++ (if havesome then sep else []) ++ s.

Fixpoint symbols_loop (sep : cstr) (tbl : list open_flag) (bits : Z) (text : cstr) (havesome : bool) : Z * cstr * bool :=
  match tbl with
  | [] => (bits, text, havesome)
  | o :: tbl =>
      if Z.land bits (flag o) =? flag o
      then symbols_loop sep tbl (Z.land bits (Z.lnot (flag o))) (add_symbol sep text havesome (symbol o)) true
      else symbols_loop sep tbl bits text havesome
  end.

Definition openflags2symbols_text (openflags : Z) (sep : cstr) (mode : Z) : cstr :=
  let '(text, havesome) :=
    if Z.land openflags (Z.lor O_WRONLY O_RDWR) =? 0 then (§"O_RDONLY", true) else ([], false) in
  let '(bits, text, havesome) := symbols_loop sep (tail Open_flags) openflags text havesome in
  if negb (bits =? 0) && (mode =? 1) then add_symbol sep text havesome §"UNKNOWN" else text.

(** [Open_symbols] has 512 characters. *)
Definition openflags2symbols (openflags : Z) (sep : cstr) (mode : Z) : option cstr :=
  let text := openflags2symbols_text openflags sep mode in
  if (length text <? 512)%nat then Some text else None.
End Table.

(** ** string_to_tokens.c *)

(** The calls of [strtok] and the cells of [arg_array] that are written: [None] is
    a NULL.  The array has [array_size] cells. *)
Fixpoint tokens_loop (fuel : nat) (separator rest : cstr) (num_toks array_size : Z) (arr : list (option cstr)) : Z * list (option cstr) :=
  match fuel with
  | O => (num_toks, arr)
  | S f =>
      if num_toks <? array_size then
        match strtok separator rest with
        | None => (num_toks, arr ++ [None])
        | Some (t, rest) => tokens_loop f separator rest (num_toks + 1) array_size (arr ++ [Some t])
        end
      else (num_toks, arr)
  end.

(** The return value and the cells that are written, from the first on. *)
Definition string_to_tokens (arg_string : cstr) (array_size : Z) (separator : option cstr) : Z * list (option cstr) :=
  match separator with
  | None => (-1, [])
  | Some separator =>
      if array_size <=? 1 then (-1, [])
      else
        match strtok separator arg_string with
        | None => (0, [None])
        | Some (t, rest) =>
            let '(num_toks, arr) := tokens_loop (S (length rest)) separator rest 1 array_size [Some t] in
            (num_toks, if num_toks =? array_size then arr ++ [None] else arr)
        end
  end.

(** ** Tokens *)

Lemma tokens_loop_ok f sep rest k size arr :
  (length rest < f)%nat -> (k <= size)%nat ->
  let toks := strtok_all sep rest in
  tokens_loop f sep rest (Z.of_nat k) (Z.of_nat size) arr =
  (Z.of_nat (k + Nat.min (length toks) (size - k)),
   arr ++ map Some (take (size - k) toks) ++ if (length toks <? size - k)%nat then [None] else []).
Proof.
  revert rest k arr. induction f as [|f IH]; intros rest k arr Hf Hk; [lia|]. cbn [tokens_loop]. rewrite strtok_all_unfold.
  destruct (Z.ltb_spec (Z.of_nat k) (Z.of_nat size)) as [Hlt|Hge].
  - destruct (strtok sep rest) as [[t r]|] eqn:E.
    + pose proof (strtok_shorter _ _ _ _ E). replace (Z.of_nat k + 1) with (Z.of_nat (S k)) by lia. rewrite IH by lia.
      destruct (size - k)%nat as [|m] eqn:Em; [lia|]. replace (size - S k)%nat with m by lia. cbn [take map length].
      rewrite <- app_assoc. f_equal. f_equal. lia.
    + cbn [length Nat.min map take]. rewrite take_nil. cbn [map]. rewrite (proj2 (Nat.ltb_lt _ _)) by lia. f_equal. lia.
  - replace (size - k)%nat with O by lia. rewrite Nat.min_0_r, Nat.add_0_r, take_0. cbn. now rewrite app_nil_r.
Qed.

(** The tokens are stored up to the size of the array, and a NULL behind them:
    with as many tokens as the array has cells, or more, that NULL is written
    behind the array. *)
Theorem string_to_tokens_cells s size sep :
  (1 < size)%nat ->
  let toks := strtok_all sep s in
  string_to_tokens s (Z.of_nat size) (Some sep) =
    (Z.of_nat (Nat.min (length toks) size), map Some (take size toks) ++ [None]).
Proof.
  intros Hs. unfold string_to_tokens. rewrite (proj2 (Z.leb_gt _ _)) by lia. rewrite strtok_all_unfold.
  destruct (strtok sep s) as [[t r]|] eqn:E; [|cbn; now rewrite take_nil].
  pose proof (tokens_loop_ok (S (length r)) sep r 1 size [Some t] ltac:(lia) ltac:(lia)) as H. cbn zeta in H. change (Z.of_nat 1) with 1 in H.
  rewrite H. destruct size as [|m]; [lia|]. replace (S m - 1)%nat with m by lia. cbn [length take map Nat.min]. cbv zeta. f_equal.
  cbn [app]. f_equal. destruct (Nat.ltb_spec (length (strtok_all sep r)) m).
  - rewrite (proj2 (Z.eqb_neq _ _)) by lia. done.
  - rewrite (proj2 (Z.eqb_eq _ _)) by lia. rewrite app_nil_r. done.
Qed.

Lemma string_to_tokens_cells_witness :
  string_to_tokens §"a,b,c" 2 (Some §",") = (2, [Some §"a"; Some §"b"; None]).
Proof.
  etransitivity; [apply (string_to_tokens_cells §"a,b,c" 2 §","); lia|]. vm_compute. reflexivity.
Defined.

(** ** Flags *)

Definition union (os : list open_flag) : Z := fold_left (fun b o => Z.lor b (flag o)) os 0.

Lemma union_from os b : fold_left (fun b o => Z.lor b (flag o)) os b = Z.lor b (union os).
Proof.
  unfold union. revert b. induction os as [|o os IH]; intros b; cbn [fold_left]; [now rewrite Z.lor_0_r|].
  rewrite IH, (IH (Z.lor 0 (flag o))). rewrite Z.lor_0_l. now rewrite Z.lor_assoc.
Qed.

Lemma union_cons o os : union (o :: os) = Z.lor (flag o) (union os).
Proof. unfold union at 1. cbn [fold_left]. now rewrite union_from, Z.lor_0_l. Qed.

(** Equations of sets of bits, bit by bit. *)
Ltac bitwise :=
  apply Z.bits_inj'; let n := fresh "n" in let Hn := fresh "Hn" in intros n Hn;
  repeat match goal with H : @eq Z _ _ |- _ => apply (f_equal (fun z => Z.testbit z n)) in H; revert H end;
  rewrite ?Z.lor_spec, ?Z.land_spec, ?Z.lnot_spec, ?Z.bits_0 by lia; rewrite ?Z.lor_spec, ?Z.land_spec, ?Z.lnot_spec, ?Z.bits_0 by lia;
  repeat match goal with |- context [Z.testbit ?a n] => destruct (Z.testbit a n) end; cbn; congruence.

Definition joined (os : list open_flag) : cstr := join [","%char] (map symbol os).

Lemma join_snoc (sep : cstr) l x : l <> [] -> join sep (l ++ [x]) = join sep l ++ sep ++ x.
Proof.
  induction l as [|a l IH]; intros Hl; [done|]. destruct l as [|b l]; [done|]. specialize (IH ltac:(done)). cbn [app] in *.
  change (join sep (a :: b :: l ++ [x])) with (a ++ sep ++ join sep (b :: l ++ [x])). rewrite IH.
  change (join sep (a :: b :: l)) with (a ++ sep ++ join sep (b :: l)). now rewrite <- !app_assoc.
Qed.

(** What the loop adds is the text of the flags it takes out of the bits. *)
Lemma symbols_loop_ok tbl bits ps :
  exists os rest,
    symbols_loop §"," tbl bits (joined ps) (negb (bool_decide (ps = []))) = (rest, joined (ps ++ os), negb (bool_decide (ps ++ os = []))) /\
    Forall (fun o => o ∈ tbl) os /\ Z.lor (union os) rest = bits /\ Z.land (union os) rest = 0 /\
    Forall (fun o => Z.land rest (flag o) = flag o -> flag o = 0) tbl.
Proof.
  revert bits ps. induction tbl as [|o tbl IH]; intros bits ps; cbn [symbols_loop].
  - exists [], bits. rewrite app_nil_r. repeat split; try constructor.
  - destruct (Z.eqb_spec (Z.land bits (flag o)) (flag o)) as [Hin|Hout].
    + replace (add_symbol §"," (joined ps) (negb (bool_decide (ps = []))) (symbol o)) with (joined (ps ++ [o])).
      2: { unfold joined, add_symbol. rewrite map_app. cbn [map]. destruct ps as [|p ps]; [done|].
           rewrite join_snoc by done. rewrite bool_decide_eq_false_2 by done. done. }
      destruct (IH (Z.land bits (Z.lnot (flag o))) (ps ++ [o])) as (os & rest & E & H1 & H2 & H3 & H4).
      replace (negb (bool_decide (ps ++ [o] = []))) with true in E by (rewrite bool_decide_eq_false_2; [done|now destruct ps]).
      exists (o :: os), rest. rewrite <- app_assoc in E. cbn [app] in E. split; [exact E|]. rewrite union_cons.
      split; [constructor; [set_solver|eapply Forall_impl; [|exact H1]; set_solver]|].
      split; [clear -H2 Hin; bitwise|]. split; [clear -H2 H3 Hin; bitwise|]. constructor; [|done]. intros Ho. clear -H2 H3 Ho Hin. bitwise.
    + destruct (IH bits ps) as (os & rest & E & H1 & H2 & H3 & H4). exists os, rest. split; [done|].
      split; [eapply Forall_impl; [|exact H1]; set_solver|]. split; [done|]. split; [done|]. constructor; [|done].
      intros Ho. exfalso. apply Hout. clear -H2 Ho. bitwise.
Qed.

Section Roundtrip.
Variable others : list open_flag.
Hypothesis names : NoDup (map symbol (Open_flags others)).
Hypothesis commas : Forall (fun o => ","%char ∉ symbol o) (Open_flags others).

Lemma find_symbol o : o ∈ Open_flags others -> List.find (fun x => streq (symbol o) (symbol x)) (Open_flags others) = Some o.
Proof.
  revert names. generalize (Open_flags others). intros l Hn Ho. induction l as [|x l IH]; [set_solver|]. cbn [List.find map] in *.
  inversion_clear Hn as [|? ? Hx Hn']. destruct (streq (symbol o) (symbol x)) eqn:E.
  - apply streq_true in E. apply elem_of_cons in Ho as [->|Ho]; [done|]. exfalso. apply Hx. rewrite <- E. apply list_elem_of_In, in_map.
    now apply list_elem_of_In.
  - apply streq_false in E. apply IH; [done|]. apply elem_of_cons in Ho as [->|Ho]; [now destruct E|done].
Qed.

Lemma parse_joined f os bits :
  Forall (fun o => o ∈ Open_flags others) os -> os <> [] -> (length (joined os) < f)%nat ->
  parse_loop others f (joined os) bits = Some (inl (Z.lor bits (union os))).
Proof.
  revert os bits. induction f as [|f IH]; intros os bits Ho Hne Hf; [lia|]. destruct os as [|o os]; [done|]. inversion_clear Ho as [|? ? H1 H2].
  assert (Hc : Forall (fun c => negb (ceqb c ",") = true) (symbol o)).
  { rewrite Forall_forall in commas. specialize (commas o ltac:(now apply list_elem_of_In)). apply Forall_forall. intros c Hin.
    apply negb_true_iff, ceqb_neq. intros ->. apply commas. now apply list_elem_of_In. }
  cbn [parse_loop]. destruct os as [|o' os].
  - unfold joined. cbn [map join]. rewrite takewhile_id by done. rewrite find_symbol, drop_all by done. now rewrite union_cons, Z.lor_0_r.
  - assert (Ej : joined (o :: o' :: os) = symbol o ++ ","%char :: joined (o' :: os)) by done. rewrite Ej in *.
    rewrite takewhile_app by done. rewrite find_symbol, drop_app_length by done.
    rewrite IH; [|done|done|rewrite length_app in Hf; cbn [length] in Hf; lia]. rewrite (union_cons o). now rewrite Z.lor_assoc.
Qed.

Lemma land_pow2 b k : 0 <= k -> Z.land b (2 ^ k) = if Z.testbit b k then 2 ^ k else 0.
Proof.
  intros Hk. apply Z.bits_inj'. intros n Hn. rewrite Z.land_spec, Z.pow2_bits_eqb by done.
  destruct (Z.eqb_spec k n) as [->|Hne].
  - destruct (Z.testbit b n); [now rewrite Z.pow2_bits_true|now rewrite Z.bits_0].
  - rewrite andb_false_r. destruct (Z.testbit b k); [now rewrite Z.pow2_bits_false|now rewrite Z.bits_0].
Qed.

(** An access mode other than O_RDONLY is one of the flags. *)
Lemma access_symbol bits : Z.land bits (Z.lor O_WRONLY O_RDWR) <> 0 -> Z.land bits O_WRONLY = O_WRONLY \/ Z.land bits O_RDWR = O_RDWR.
Proof.
  rewrite Z.land_lor_distr_r. change O_WRONLY with (2 ^ 0). change O_RDWR with (2 ^ 1). rewrite !land_pow2 by lia.
  destruct (Z.testbit bits 0), (Z.testbit bits 1); auto. now intros [].
Qed.

(** The text of any flags, and what reading it gives. *)
Lemma symbols_text bits :
  exists os rest,
    (forall mode, openflags2symbols_text others bits §"," mode = joined os ++ (if negb (rest =? 0) && (mode =? 1) then §",UNKNOWN" else [])) /\
    os <> [] /\ Forall (fun o => o ∈ Open_flags others) os /\ Z.lor (union os) rest = bits /\ Z.land (union os) rest = 0 /\
    Forall (fun o => Z.land rest (flag o) = flag o -> flag o = 0) (Open_flags others).
Proof.
  set (ps := if Z.land bits (Z.lor O_WRONLY O_RDWR) =? 0 then [mkFlag §"O_RDONLY" O_RDONLY] else []).
  destruct (symbols_loop_ok (tail (Open_flags others)) bits ps) as (os & rest & E & H1 & H2 & H3 & H4).
  exists (ps ++ os), rest.
  assert (Hu : union (ps ++ os) = union os).
  { subst ps. destruct (_ =? 0); [|done]. cbn [app]. rewrite union_cons. apply Z.lor_0_l. }
  assert (Hne : ps ++ os <> []).
  { subst ps. destruct (Z.eqb_spec (Z.land bits (Z.lor O_WRONLY O_RDWR)) 0) as [|Hacc]; [done|]. cbn [app]. intros ->. change (union []) with 0 in H2. rewrite Z.lor_0_l in H2. subst rest.
    inversion_clear H4 as [|? ? A1 A2]. inversion_clear A2 as [|? ? A3 _]. cbn [flag] in A1, A3.
    destruct (access_symbol bits Hacc) as [K|K]; [specialize (A1 K)|specialize (A3 K)]; done. }
  split; [|split; [done|split; [|rewrite Hu; split; [done|split; [done|]]]]].
  - intros mode. unfold openflags2symbols_text.
    replace (if Z.land bits (Z.lor O_WRONLY O_RDWR) =? 0 then (§"O_RDONLY", true) else ([], false))
      with (joined ps, negb (bool_decide (ps = []))) by (subst ps; now destruct (_ =? 0)).
    rewrite E, (bool_decide_eq_false_2 (ps ++ os = [])) by done. destruct (negb (rest =? 0) && (mode =? 1)); [reflexivity|now rewrite app_nil_r].
  - apply Forall_app. split; [subst ps; destruct (_ =? 0); repeat constructor|eapply Forall_impl; [|exact H1]]. cbn [tail Open_flags]. set_solver.
  - constructor; [done|exact H4].
Qed.
End Roundtrip.

(** What [openflags2symbols] writes, [parse_open_flags] reads: all bits but those
    that no flag of the table accounts for, and [mode] 1 tells whether there are
    such bits. *)
Theorem open_flags_roundtrip others bits :
  NoDup (map symbol (Open_flags others)) -> Forall (fun o => ","%char ∉ symbol o) (Open_flags others) ->
  exists known rest,
    parse_open_flags others (openflags2symbols_text others bits §"," 0) = Some (inl known) /\
    Z.lor known rest = bits /\ Z.land known rest = 0 /\
    Forall (fun o => Z.land rest (flag o) = flag o -> flag o = 0) (Open_flags others) /\
    (rest = 0 <-> openflags2symbols_text others bits §"," 1 = openflags2symbols_text others bits §"," 0).
Proof.
  intros Hn Hc. destruct (symbols_text others Hn Hc bits) as (os & rest & E & Hne & Ho & H1 & H2 & H3).
  exists (union os), rest. pose proof (E 0) as E0. rewrite andb_false_r, app_nil_r in E0.
  split; [rewrite E0; unfold parse_open_flags; rewrite parse_joined by (done || lia); now rewrite Z.lor_0_l|].
  split; [done|]. split; [done|]. split; [done|]. rewrite E0, (E 1), andb_true_r. destruct (Z.eqb_spec rest 0) as [Hz|Hr]; cbn [negb].
  - now rewrite app_nil_r.
  - split; [done|]. intros H. rewrite <- (app_nil_r (joined os)) in H at 2. now apply app_inv_head in H.
Qed.

(** The flags of Linux on the boards. *)
Definition linux_flags : list open_flag :=
  [mkFlag §"O_SYNC" 1052672; mkFlag §"O_CREAT" 64; mkFlag §"O_TRUNC" 512; mkFlag §"O_EXCL" 128; mkFlag §"O_APPEND" 1024;
   mkFlag §"O_NONBLOCK" 2048; mkFlag §"O_NOCTTY" 256; mkFlag §"O_DSYNC" 4096; mkFlag §"O_RSYNC" 1052672; mkFlag §"O_ASYNC" 8192;
   mkFlag §"O_NDELAY" 2048].

Lemma open_flags_roundtrip_witness :
  exists known rest,
    parse_open_flags linux_flags (openflags2symbols_text linux_flags 1090 §"," 0) = Some (inl known) /\
    Z.lor known rest = 1090 /\ Z.land known rest = 0 /\
    Forall (fun o => Z.land rest (flag o) = flag o -> flag o = 0) (Open_flags linux_flags) /\
    (rest = 0 <-> openflags2symbols_text linux_flags 1090 §"," 1 = openflags2symbols_text linux_flags 1090 §"," 0).
Proof.
  apply (open_flags_roundtrip linux_flags 1090).
  - apply (bool_decide_unpack _). vm_compute. exact I.
  - apply (bool_decide_unpack _). vm_compute. exact I.
Defined.
