(* ===== verification/FsWlog.v ===== *)
(** The write log of the file system tests (testcases/kernel/fs/doio/write_log.c
    and include/write_log.h): records packed into bytes, appended to a file, and
    read back from its end. *)
From Stdlib Require Import Ascii String ZArith Lia Bool.
From stdpp Require Import base list sets numbers.
From S2P Require Import Prelude CString Effects.

Local Open Scope Z_scope.

(** ** Records *)

Definition WLOG_MAX_PATH : nat := 128.
Definition WLOG_MAX_PATTERN : nat := 64.
Definition WLOG_MAX_HOST : nat := 8.

(** [struct wlog_rec]; the arrays have one byte more than their maximum. *)
Record wlog_rec := mkRec {
  w_pid : Z; w_offset : Z; w_nbytes : Z; w_oflags : Z; w_done : Z; w_async : Z;
  w_host : list Z; w_hostlen : Z;
  w_path : list Z; w_pathlen : Z;
  w_pattern : list Z; w_patternlen : Z
}.

(** [sizeof(struct wlog_rec)] with its padding, and WLOG_REC_MAX_SIZE. *)
Definition sizeof_wlog_rec : Z := 248.
Definition WLOG_REC_MAX_SIZE : Z := sizeof_wlog_rec + 128 + 64 + 8 + 2.

(** [struct wlog_rec_disk]: seven words; a bit field that does not fit in the rest
    of a word starts the next one. *)
Definition sizeof_disk : Z := 28.

Definition le32 (w : Z) : list Z := map (fun i => Z.shiftr w (8 * Z.of_nat i) mod 256) (seq 0 4).
Definition of_le (bs : list Z) : Z := foldr (fun b a => b + 256 * a) 0 bs.

(** What the bits that no field has hold: [w_extra0], the rest of the fifth and of
    the sixth word and the last word. *)
Record junk := mkJunk { j_extra0 : Z; j_word4 : Z; j_word5 : Z; j_word6 : Z }.

Definition positive (n : Z) : Z := if 0 <? n then n else 0.

(** The lengths as their bit fields have them. *)
Definition d_pathlen (r : wlog_rec) : Z := positive (w_pathlen r) mod 2 ^ 7.
Definition d_patternlen (r : wlog_rec) : Z := positive (w_patternlen r) mod 2 ^ 6.
Definition d_hostlen (r : wlog_rec) : Z := positive (w_hostlen r) mod 2 ^ 4.

Definition disk_words (j : junk) (r : wlog_rec) : list Z :=
  [ u32 (w_offset r); j_extra0 j; u32 (w_nbytes r); u32 (w_oflags r);
    w_pid r mod 2 ^ 17 + 2 ^ 17 * d_pathlen r + 2 ^ 24 * d_patternlen r + 2 ^ 30 * j_word4 j;
    d_hostlen r + 2 ^ 4 * (w_done r mod 2) + 2 ^ 5 * (w_async r mod 2) + 2 ^ 6 * j_word5 j;
    j_word6 j ].

(** The bytes in [buf]; their number is what is returned. *)
Definition wlog_rec_pack (j : junk) (r : wlog_rec) (flag : bool) : list Z :=
  let fixed := concat (map le32 (disk_words j r)) in
  if flag then
    fixed ++ slice 0 (d_pathlen r) (w_path r) ++ slice 0 (d_hostlen r) (w_host r) ++ slice 0 (d_patternlen r) (w_pattern r)
  else fixed.

(** A field of the word at [i]. *)
Definition word_at (buf : list Z) (i : Z) : Z := of_le (slice (4 * i) 4 buf).
Definition field (w lo n : Z) : Z := w / 2 ^ lo mod 2 ^ n.

(** An array of zeros with [bs] copied to its start. *)
Definition array (max : nat) (bs : list Z) : list Z := bs ++ replicate (S max - length bs) 0.

Definition wlog_rec_unpack (buf : list Z) : wlog_rec :=
  let hostlen := field (word_at buf 5) 0 4 in
  let pathlen := field (word_at buf 4) 17 7 in
  let patternlen := field (word_at buf 4) 24 6 in
  mkRec (field (word_at buf 4) 0 17) (s32 (word_at buf 0)) (s32 (word_at buf 2)) (s32 (word_at buf 3))
    (field (word_at buf 5) 4 1) (field (word_at buf 5) 5 1)
    (array WLOG_MAX_HOST (slice (sizeof_disk + pathlen) hostlen buf)) hostlen
    (array WLOG_MAX_PATH (slice sizeof_disk pathlen buf)) pathlen
    (array WLOG_MAX_PATTERN (slice (sizeof_disk + pathlen + hostlen) patternlen buf)) patternlen.

(** ** Writing *)

(** [write(afd)] and the calls on the random access descriptor, when they fail. *)
Record wsys := mkWsys { write_ok : bool; lseek_ok : Z -> bool; read_ok : Z -> bool }.

(** The return value and the new contents of the log. *)
Definition wlog_record_write (sys : wsys) (file : list Z) (j : junk) (r : wlog_rec) (offset : Z) : Z * list Z :=
  let wbuf := wlog_rec_pack j r (offset <? 0) in
  let reclen := Z.of_nat (length wbuf) in
  if offset <? 0 then
    let wbuf := wbuf ++ [u8 (reclen / 256); u8 (reclen mod 256)] in
    if write_ok sys then
      let file := file ++ wbuf in
      (Z.of_nat (length file) - (reclen + 2), file)
    else (-1, file)
  else if negb (lseek_ok sys offset) then (-1, file)
  else if write_ok sys then
    (offset, splice offset wbuf (file ++ replicate (Z.to_nat offset - length file) 0))
  else (-1, file).

(** [wlog_open]: the contents afterwards when both calls of [open] succeed; the
    file is empty when it is new or [trunc] is set. *)
Definition wlog_open (open_append open_random : bool) (trunc : bool) (old : option (list Z)) : Z * option (list Z) :=
  let contents := if trunc then [] else default [] old in
  if negb open_append then (-1, old)
  else if negb open_random then (-1, Some contents)
  else (0, Some contents).

(** ** Scanning *)

Section Scan.
(** [N] is the size of [buf]; [char] is signed when [sgn] holds.  [func] is told
    the records it was called with before, and answers 0 to stop. *)
Variables (N : Z) (sgn : bool) (func : list wlog_rec -> wlog_rec -> Z) (sys : wsys) (file : list Z).

Definition char_at (buf : list Z) (i : Z) : Z :=
  let b := nth (Z.to_nat i) buf 0 in if sgn then swrap 8 b else b.

Record scan := mkScan { s_buf : list Z; s_albuf : list Z; s_leftover : Z; s_recnum : Z; s_calls : list wlog_rec }.

(** [memcpy(bufend - leftover, bufstart, leftover)]: undefined when the parts
    overlap. *)
Definition keep_rest (s : scan) (bufstart cp : Z) : option scan :=
  let leftover := cp - bufstart in
  if N - bufstart <? 2 * leftover then None
  else Some (mkScan (splice (N - leftover) (slice bufstart leftover (s_buf s)) (s_buf s)) (s_albuf s) leftover (s_recnum s) (s_calls s)).

(** The inner loop; [None] is what C leaves undefined, or a lack of fuel. *)
Fixpoint inner_loop (fuel : nat) (nrecs bufstart cp : Z) (s : scan) : option scan :=
  match fuel with
  | O => None
  | S f =>
      if cp <? bufstart then Some s
      else if cp - bufstart <? 2 then keep_rest s bufstart cp
      else
        let reclen := char_at (s_buf s) (cp - 2) * 256 + char_at (s_buf s) (cp - 1) in
        if cp - bufstart <? reclen + 2 then keep_rest s bufstart cp
        else if (reclen <? 0) || (WLOG_REC_MAX_SIZE <? reclen) then None
        else
          let cp := cp - (reclen + 2) in
          let albuf := splice 0 (slice cp reclen (s_buf s)) (s_albuf s) in
          let wrec := wlog_rec_unpack albuf in
          let rval := func (s_calls s) wrec in
          let calls := s_calls s ++ [wrec] in
          if rval =? 0 then Some (mkScan (s_buf s) albuf (s_leftover s) (s_recnum s) calls)
          else
            let s := mkScan (s_buf s) albuf (s_leftover s) (s_recnum s + 1) calls in
            if negb (nrecs =? 0) && (nrecs <=? s_recnum s) then Some s
            else inner_loop f nrecs bufstart cp s
  end.

(** The outer loop: the return value and the calls of [func]. *)
Fixpoint outer_loop (fuel : nat) (nrecs offset bufstart : Z) (s : scan) : option (Z * list wlog_rec) :=
  match fuel with
  | O => None
  | S f =>
      if ((nrecs =? 0) || (s_recnum s <? nrecs)) && (0 <? offset) then
        let '(bufstart, next) :=
          if offset + s_leftover s <? N then (N - (offset + s_leftover s), 0) else (bufstart, offset - (N - s_leftover s)) in
        if negb (lseek_ok sys next) then Some (-1, s_calls s)
        else if negb (read_ok sys next) then Some (-1, s_calls s)
        else
          let buf := splice bufstart (slice next (N - bufstart - s_leftover s) file) (s_buf s) in
          match inner_loop (S (Z.to_nat N)) nrecs bufstart N (mkScan buf (s_albuf s) 0 (s_recnum s) (s_calls s)) with
          | None => None
          | Some s => outer_loop f nrecs next bufstart s
          end
      else Some (0, s_calls s)
  end.

Definition wlog_scan (buf albuf : list Z) (nrecs : Z) : option (Z * list wlog_rec) :=
  let offset := Z.of_nat (length file) in
  if negb (lseek_ok sys offset) then Some (-1, [])
  else outer_loop (S (length file)) nrecs offset 0 (mkScan buf albuf 0 0 []).
End Scan.

(** [buf] has 32 blocks of 512 bytes.  The two buffers start with anything. *)
Definition wlog_scan_backward (sgn : bool) (func : list wlog_rec -> wlog_rec -> Z) (sys : wsys) (file buf albuf : list Z) (nrecs : Z) :=
  wlog_scan (512 * 32) sgn func sys file buf albuf nrecs.

(** ** Packing and unpacking *)

Lemma length_le32 w : length (le32 w) = 4%nat.
Proof. done. Qed.

Lemma of_le32 w : 0 <= w < 2 ^ 32 -> of_le (le32 w) = w.
Proof.
  intros Hw. change (2 ^ 32) with 4294967296 in Hw. unfold le32. cbn [seq map of_le foldr]. rewrite !Z.shiftr_div_pow2 by lia.
  change (2 ^ (8 * Z.of_nat 0)) with 1. change (2 ^ (8 * Z.of_nat 1)) with 256.
  change (2 ^ (8 * Z.of_nat 2)) with 65536. change (2 ^ (8 * Z.of_nat 3)) with 16777216.
  Z.to_euclidean_division_equations. lia.
Qed.

Lemma length_words ws : length (concat (map le32 ws)) = (4 * length ws)%nat.
Proof. induction ws as [|w ws IH]; [done|]. cbn [map concat]. rewrite length_app, IH, length_le32. cbn [length]. lia. Qed.

Lemma word_at_words ws rest i w :
  ws !! i = Some w -> 0 <= w < 2 ^ 32 -> word_at (concat (map le32 ws) ++ rest) (Z.of_nat i) = w.
Proof.
  intros Hi Hw. unfold word_at. transitivity (of_le (le32 w)); [f_equal|now apply of_le32]. revert i Hi. induction ws as [|x ws IH]; intros i Hi; [done|].
  cbn [map concat]. destruct i as [|i].
  - injection Hi as ->. unfold slice. cbn [Z.of_nat Z.mul Z.to_nat drop]. rewrite <- app_assoc. apply (take_app_length (le32 w)).
  - cbn in Hi. rewrite <- (IH i Hi). unfold slice. f_equal. rewrite <- app_assoc.
    replace (Z.to_nat (4 * Z.of_nat (S i))) with (length (le32 x) + Z.to_nat (4 * Z.of_nat i))%nat by (rewrite length_le32; lia).
    rewrite <- drop_drop. now rewrite drop_app_length.
Qed.

(** A record with the strings [host], [path] and [pattern]. *)
Definition make_rec (pid offset nbytes oflags done_ async : Z) (host path pattern : list Z) : wlog_rec :=
  mkRec pid offset nbytes oflags done_ async
    (array WLOG_MAX_HOST host) (Z.of_nat (length host))
    (array WLOG_MAX_PATH path) (Z.of_nat (length path))
    (array WLOG_MAX_PATTERN pattern) (Z.of_nat (length pattern)).

Definition is_int (z : Z) : Prop := INT_MIN <= z <= INT_MAX.

(** What the bit fields can hold. *)
Definition rec_ok (r : wlog_rec) : Prop :=
  exists host path pattern,
    r = make_rec (w_pid r) (w_offset r) (w_nbytes r) (w_oflags r) (w_done r) (w_async r) host path pattern /\
    0 <= w_pid r < 2 ^ 17 /\ is_int (w_offset r) /\ is_int (w_nbytes r) /\ is_int (w_oflags r) /\
    0 <= w_done r <= 1 /\ 0 <= w_async r <= 1 /\
    (length host <= 8)%nat /\ (length path <= 127)%nat /\ (length pattern <= 63)%nat.

Definition junk_ok (j : junk) : Prop :=
  0 <= j_extra0 j < 2 ^ 32 /\ 0 <= j_word4 j < 2 ^ 2 /\ 0 <= j_word5 j < 2 ^ 26 /\ 0 <= j_word6 j < 2 ^ 32.

Lemma s32_u32 z : is_int z -> s32 (u32 z) = z.
Proof.
  unfold is_int, s32, u32, swrap, uwrap, INT_MIN, INT_MAX. change (2 ^ (32 - 1)) with 2147483648. change (2 ^ 32) with 4294967296.
  intros H. Z.to_euclidean_division_equations. lia.
Qed.

Lemma slice_array max bs n : length bs = Z.to_nat n -> slice 0 n (array max bs) = bs.
Proof. intros H. unfold slice, array. cbn [Z.to_nat drop]. rewrite <- H. apply take_app_length. Qed.

Lemma slice_skip (l1 l2 : list Z) off n : off = Z.of_nat (length l1) -> slice off n (l1 ++ l2) = slice 0 n l2.
Proof. intros ->. unfold slice. now rewrite Nat2Z.id, drop_app_length. Qed.

Lemma slice_first (l1 l2 : list Z) n : n = Z.of_nat (length l1) -> slice 0 n (l1 ++ l2) = l1.
Proof. intros ->. unfold slice. cbn [Z.to_nat drop]. rewrite Nat2Z.id. apply take_app_length. Qed.

Definition strings (host path pattern : list Z) : list Z := path ++ host ++ pattern.

Lemma positive_mod n k : Z.of_nat n < k -> positive (Z.of_nat n) mod k = Z.of_nat n.
Proof. intros H. unfold positive. destruct (Z.ltb_spec 0 (Z.of_nat n)); apply Z.mod_small || rewrite Z.mod_small; lia. Qed.

(** The words of a record whose fields fit. *)
Lemma pack_words j r :
  rec_ok r -> junk_ok j ->
  exists host path pattern w4 w5,
    let words := [u32 (w_offset r); j_extra0 j; u32 (w_nbytes r); u32 (w_oflags r); w4; w5; j_word6 j] in
    wlog_rec_pack j r true = concat (map le32 words) ++ strings host path pattern /\
    r = make_rec (w_pid r) (w_offset r) (w_nbytes r) (w_oflags r) (w_done r) (w_async r) host path pattern /\
    0 <= w4 < 2 ^ 32 /\ 0 <= w5 < 2 ^ 32 /\
    field w4 0 17 = w_pid r /\ field w4 17 7 = Z.of_nat (length path) /\ field w4 24 6 = Z.of_nat (length pattern) /\
    field w5 0 4 = Z.of_nat (length host) /\ field w5 4 1 = w_done r /\ field w5 5 1 = w_async r /\
    (length host <= 8)%nat /\ (length path <= 127)%nat /\ (length pattern <= 63)%nat.
Proof.
  intros (host & path & pattern & E & H1 & H2 & H3 & H4 & H5 & H6 & L1 & L2 & L3) (J1 & J2 & J3 & J4).
  exists host, path, pattern.
  exists (w_pid r + 2 ^ 17 * Z.of_nat (length path) + 2 ^ 24 * Z.of_nat (length pattern) + 2 ^ 30 * j_word4 j).
  exists (Z.of_nat (length host) + 2 ^ 4 * w_done r + 2 ^ 5 * w_async r + 2 ^ 6 * j_word5 j). cbv zeta.
  assert (Ep : d_pathlen r = Z.of_nat (length path)) by (unfold d_pathlen; rewrite E at 1; apply positive_mod; lia).
  assert (Eh : d_hostlen r = Z.of_nat (length host)) by (unfold d_hostlen; rewrite E at 1; apply positive_mod; lia).
  assert (Et : d_patternlen r = Z.of_nat (length pattern)) by (unfold d_patternlen; rewrite E at 1; apply positive_mod; lia).
  split.
  - unfold wlog_rec_pack, disk_words, strings. rewrite Ep, Eh, Et, (Z.mod_small (w_pid r)), (Z.mod_small (w_done r)), (Z.mod_small (w_async r)) by lia.
    replace (w_path r) with (array WLOG_MAX_PATH path) by now rewrite E. replace (w_host r) with (array WLOG_MAX_HOST host) by now rewrite E.
    replace (w_pattern r) with (array WLOG_MAX_PATTERN pattern) by now rewrite E. rewrite !slice_array by lia. reflexivity.
  - split; [done|]. unfold field. change (2 ^ 32) with 4294967296 in *. change (2 ^ 30) with 1073741824 in *. change (2 ^ 26) with 67108864 in *.
    change (2 ^ 24) with 16777216 in *. change (2 ^ 17) with 131072 in *. change (2 ^ 2) with 4 in *.
    change (2 ^ 0) with 1. change (2 ^ 1) with 2. change (2 ^ 4) with 16. change (2 ^ 5) with 32. change (2 ^ 6) with 64. change (2 ^ 7) with 128.
    repeat split; try lia; Z.to_euclidean_division_equations; lia.
Qed.

(** Unpacking is the inverse of packing, whatever follows in the buffer. *)
Lemma unpack_pack j r rest : rec_ok r -> junk_ok j -> wlog_rec_unpack (wlog_rec_pack j r true ++ rest) = r.
Proof.
  intros Hr Hj. destruct (pack_words j r Hr Hj) as (host & path & pattern & w4 & w5 & E & Er & B4 & B5 & F1 & F2 & F3 & F4 & F5 & F6 & _).
  destruct Hr as (_ & _ & _ & _ & _ & I1 & I2 & I3 & _). destruct Hj as (J1 & _ & _ & J4).
  set (words := [u32 (w_offset r); j_extra0 j; u32 (w_nbytes r); u32 (w_oflags r); w4; w5; j_word6 j]) in *.
  assert (Hu : forall z, 0 <= u32 z < 2 ^ 32) by (intros z; apply Z.mod_pos_bound; lia).
  rewrite E, <- app_assoc. unfold wlog_rec_unpack.
  rewrite (word_at_words words _ 0 (u32 (w_offset r)) eq_refl (Hu _)), (word_at_words words _ 2 (u32 (w_nbytes r)) eq_refl (Hu _)),
    (word_at_words words _ 3 (u32 (w_oflags r)) eq_refl (Hu _)), (word_at_words words _ 4 w4 eq_refl B4), (word_at_words words _ 5 w5 eq_refl B5).
  rewrite F1, F2, F3, F4, F5, F6, !s32_u32 by done.
  assert (Lw : length (concat (map le32 words)) = 28%nat) by (rewrite length_words; done).
  unfold strings. rewrite (slice_skip (concat (map le32 words)) _ sizeof_disk) by (rewrite Lw; reflexivity). rewrite <- !app_assoc, slice_first by done.
  rewrite (app_assoc (concat _) path), (slice_skip (concat (map le32 words) ++ path)), slice_first by (done || (rewrite length_app, Lw; unfold sizeof_disk; lia)).
  rewrite <- (app_assoc (concat _) path), (app_assoc path host), (app_assoc (concat _)), (slice_skip (concat (map le32 words) ++ path ++ host)), slice_first
    by (done || (rewrite !length_app, Lw; unfold sizeof_disk; lia)).
  symmetry. exact Er.
Qed.

Lemma length_pack j r : rec_ok r -> junk_ok j -> (28 <= length (wlog_rec_pack j r true) <= 226)%nat.
Proof.
  intros Hr Hj. destruct (pack_words j r Hr Hj) as (host & path & pattern & w4 & w5 & E & _ & _ & _ & _ & _ & _ & _ & _ & _ & L1 & L2 & L3).
  rewrite E, length_app, length_words. unfold strings. rewrite !length_app. cbn [length]. lia.
Qed.

(** ** Scanning gives the records back *)

Section Backward.
Variables (N : Z) (sgn : bool) (func : list wlog_rec -> wlog_rec -> Z) (sys : wsys) (nrecs : Z).
Hypothesis N_large : 456 <= N.
Hypothesis goes_on : forall calls r, func calls r <> 0.
Hypothesis calls_succeed : (forall z, lseek_ok sys z = true) /\ (forall z, read_ok sys z = true).
Hypothesis nrecs_ok : 0 <= nrecs.

(** A record and its bytes in the log, without the two bytes of its length. *)
Definition item : Type := wlog_rec * list Z.

Definition item_ok (x : item) : Prop :=
  (28 <= length x.2 <= 226)%nat /\ (forall rest, wlog_rec_unpack (x.2 ++ rest) = x.1) /\ (sgn = true -> (length x.2 < 128)%nat).

Definition enc (x : item) : list Z := x.2 ++ [0; Z.of_nat (length x.2)].
Definition log (xs : list item) : list Z := concat (map enc xs).

Lemma length_enc x : length (enc x) = (length x.2 + 2)%nat.
Proof. unfold enc. now rewrite length_app. Qed.

Lemma log_snoc xs x : log (xs ++ [x]) = log xs ++ enc x.
Proof. unfold log. rewrite map_app, concat_app. cbn. now rewrite app_nil_r. Qed.

(** The number of records that are asked for was reached. *)
Definition enough (recnum : Z) : bool := negb (nrecs =? 0) && (nrecs <=? recnum).

(** The last bytes of a part of the buffer. *)
Lemma nth_slice_last (buf W : list Z) lo hi k w :
  slice lo (hi - lo) buf = W -> 0 <= lo -> lo <= hi - k -> 0 < k -> W !! (length W - Z.to_nat k)%nat = Some w -> Z.of_nat (length W) = hi - lo ->
  nth (Z.to_nat (hi - k)) buf 0 = w.
Proof.
  intros E Hlo Hk Hk0 Hw Hl. apply nth_lookup_Some. rewrite <- E in Hw. rewrite lookup_slice in Hw by (try rewrite E; lia).
  rewrite E in Hw. now replace (Z.to_nat lo + (length W - Z.to_nat k))%nat with (Z.to_nat (hi - k)) in Hw by lia.
Qed.

Lemma small_char z : 0 <= z < 256 -> (sgn = true -> z < 128) -> (if sgn then swrap 8 z else z) = z.
Proof.
  intros Hz Hs. destruct sgn; [|done]. specialize (Hs eq_refl). unfold swrap. change (2 ^ (8 - 1)) with 128. change (2 ^ 8) with 256.
  rewrite Z.mod_small; lia.
Qed.

(** The length of the last record is read from the last two bytes. *)
Lemma reclen_ok x buf lo hi W' :
  item_ok x -> slice lo (hi - lo) buf = W' -> Z.of_nat (length W') = hi - lo -> 0 <= lo -> (2 <= length W')%nat ->
  (exists V, W' = V ++ [0; Z.of_nat (length x.2)]) ->
  char_at sgn buf (hi - 2) * 256 + char_at sgn buf (hi - 1) = Z.of_nat (length x.2).
Proof.
  intros (Hl & _ & Hs) E Hn Hlo H2 (V & ->). rewrite length_app in *. cbn [length] in *.
  assert (A : nth (Z.to_nat (hi - 2)) buf 0 = 0).
  { eapply (nth_slice_last buf _ lo hi 2); [exact E|lia|lia|lia| |rewrite length_app; cbn [length]; lia].
    rewrite length_app. cbn [length]. rewrite lookup_app_r by lia. now replace (length V + 2 - Z.to_nat 2 - length V)%nat with O by lia. }
  assert (B : nth (Z.to_nat (hi - 1)) buf 0 = Z.of_nat (length x.2)).
  { eapply (nth_slice_last buf _ lo hi 1); [exact E|lia|lia|lia| |rewrite length_app; cbn [length]; lia].
    rewrite length_app. cbn [length]. rewrite lookup_app_r by lia. now replace (length V + 2 - Z.to_nat 1 - length V)%nat with 1%nat by lia. }
  unfold char_at. rewrite A, B, (small_char 0) by lia. rewrite small_char by (lia || (intros H; specialize (Hs H); lia)). lia.
Qed.

(** Where the inner loop ends: the records [done_] were passed to [func], the
    latest first, and either that is enough or the bytes of the window that are
    left, [W], are kept at the end of the buffer. *)
Definition inner_end (xs : list item) (pre : list Z) (s s' : scan) : Prop :=
  exists left_ done_,
    xs = left_ ++ done_ /\
    s_calls s' = s_calls s ++ rev (map fst done_) /\ s_recnum s' = s_recnum s + Z.of_nat (length done_) /\
    length (s_buf s') = Z.to_nat N /\
    (enough (s_recnum s') = true /\ s_recnum s' = nrecs \/
     enough (s_recnum s') = false /\
     exists W, log left_ = pre ++ W /\ s_leftover s' = Z.of_nat (length W) /\
       slice (N - s_leftover s') (s_leftover s') (s_buf s') = W /\
       (forall l x, left_ = l ++ [x] -> (length W < length (enc x))%nat)).

Lemma slice_prefix (buf V U : list Z) lo n :
  slice lo n buf = V ++ U -> 0 <= lo -> n = Z.of_nat (length (V ++ U)) ->
  slice lo (Z.of_nat (length V)) buf = V /\ slice (lo + Z.of_nat (length V)) (Z.of_nat (length U)) buf = U.
Proof.
  intros E Hlo ->. unfold slice in *. rewrite !Nat2Z.id in *. rewrite length_app in E. split.
  - assert (H : take (length V) (take (length V + length U) (drop (Z.to_nat lo) buf)) = V) by (rewrite E; apply take_app_length).
    rewrite take_take in H. now replace (length V `min` (length V + length U))%nat with (length V) in H by lia.
  - assert (H : drop (length V) (take (length V + length U) (drop (Z.to_nat lo) buf)) = U) by (rewrite E; apply drop_app_length).
    rewrite <- take_drop_commute, drop_drop in H. now rewrite Z2Nat.inj_add, Nat2Z.id by lia.
Qed.

(** Keeping what is left. *)
Lemma keep_rest_ok s bufstart cp W :
  0 <= bufstart -> cp <= N -> length (s_buf s) = Z.to_nat N ->
  slice bufstart (cp - bufstart) (s_buf s) = W -> Z.of_nat (length W) = cp - bufstart -> 2 * (cp - bufstart) <= N - bufstart ->
  exists s', keep_rest N s bufstart cp = Some s' /\ length (s_buf s') = Z.to_nat N /\ s_leftover s' = Z.of_nat (length W) /\
    slice (N - s_leftover s') (s_leftover s') (s_buf s') = W /\ s_calls s' = s_calls s /\ s_recnum s' = s_recnum s.
Proof.
  intros H1 H2 H3 E Hl Hn. unfold keep_rest. rewrite (proj2 (Z.ltb_ge _ _)) by lia. eexists. split; [reflexivity|].
  cbn [s_buf s_leftover s_calls s_recnum]. rewrite E. rewrite length_splice by lia. split; [done|]. split; [done|]. split; [|done].
  unfold slice, splice. replace (Z.to_nat (N - (cp - bufstart))) with (length (take (Z.to_nat (N - (cp - bufstart))) (s_buf s))) at 1
    by (rewrite length_take; lia).
  rewrite drop_app_length. replace (Z.to_nat (cp - bufstart)) with (length W) at 1 by lia. apply take_app_length.
Qed.

Lemma suffix_cases (A B pre W : list Z) :
  A ++ B = pre ++ W -> (exists V, W = V ++ B /\ A = pre ++ V) \/ (length W < length B)%nat /\ exists U, B = U ++ W.
Proof.
  intros E. destruct (Nat.lt_ge_cases (length W) (length B)) as [Hl|Hl].
  - right. split; [done|]. exists (take (length B - length W) B).
    assert (H : drop (length B - length W) B = W).
    { assert (Hlen : (length A + length B = length pre + length W)%nat) by (rewrite <- !length_app; now rewrite E).
      assert (Hd : drop (length pre) (A ++ B) = W) by (rewrite E; apply drop_app_length).
      rewrite drop_app_ge in Hd by lia. now replace (length pre - length A)%nat with (length B - length W)%nat in Hd by lia. }
    rewrite <- H at 2. symmetry. apply take_drop.
  - left. assert (Hlen : (length A + length B = length pre + length W)%nat) by (rewrite <- !length_app; now rewrite E).
    exists (drop (length pre) A). split.
    + assert (Hd : drop (length pre) (A ++ B) = W) by (rewrite E; apply drop_app_length). now rewrite drop_app_le in Hd by lia.
    + assert (Ht : take (length pre) (A ++ B) = pre) by (rewrite E; apply take_app_length). rewrite take_app_le in Ht by lia.
      transitivity (take (length pre) A ++ drop (length pre) A); [symmetry; apply take_drop|now rewrite Ht].
Qed.

(** A record that is in the window is passed on. *)
Lemma inner_step f x s bufstart cp V :
  item_ok x -> 0 <= bufstart -> cp <= N -> slice bufstart (cp - bufstart) (s_buf s) = V ++ enc x ->
  Z.of_nat (length (V ++ enc x)) = cp - bufstart ->
  exists albuf,
    let s1 := mkScan (s_buf s) albuf (s_leftover s) (s_recnum s + 1) (s_calls s ++ [x.1]) in
    inner_loop N sgn func (S f) nrecs bufstart cp s =
    if enough (s_recnum s + 1) then Some s1 else inner_loop N sgn func f nrecs bufstart (bufstart + Z.of_nat (length V)) s1.
Proof.
  intros Hx Hb Hcp E Hl. pose proof Hx as (Hlen & Hun & _). eexists. cbv zeta. cbn [inner_loop]. rewrite length_app, length_enc in Hl.
  rewrite (proj2 (Z.ltb_ge cp bufstart)) by lia. rewrite (proj2 (Z.ltb_ge (cp - bufstart) 2)) by lia.
  rewrite (reclen_ok x (s_buf s) bufstart cp (V ++ enc x) Hx E) by
    (rewrite ?length_app, ?length_enc; lia || (exists (V ++ x.2); unfold enc; now rewrite app_assoc)).
  rewrite (proj2 (Z.ltb_ge (cp - bufstart) (Z.of_nat (length x.2) + 2))) by lia.
  replace ((Z.of_nat (length x.2) <? 0) || (WLOG_REC_MAX_SIZE <? Z.of_nat (length x.2))) with false
    by (symmetry; apply orb_false_iff; unfold WLOG_REC_MAX_SIZE, sizeof_wlog_rec; lia).
  destruct (slice_prefix _ _ _ _ _ E Hb ltac:(rewrite length_app, length_enc; lia)) as [_ E2].
  unfold enc in E2. destruct (slice_prefix _ _ _ _ _ E2 ltac:(lia) eq_refl) as [E3 _].
  replace (cp - (Z.of_nat (length x.2) + 2)) with (bufstart + Z.of_nat (length V)) by lia. rewrite E3.
  replace (wlog_rec_unpack (splice 0 x.2 (s_albuf s))) with x.1 by (symmetry; apply (Hun (drop (length x.2) (s_albuf s)))).
  rewrite (proj2 (Z.eqb_neq _ 0)) by apply goes_on. reflexivity.
Qed.

(** A record that is not wholly in the window ends the loop. *)
Lemma inner_stop f x s bufstart cp U W :
  item_ok x -> 0 <= bufstart -> slice bufstart (cp - bufstart) (s_buf s) = W -> Z.of_nat (length W) = cp - bufstart ->
  enc x = U ++ W -> (length W < length (enc x))%nat ->
  inner_loop N sgn func (S f) nrecs bufstart cp s = keep_rest N s bufstart cp.
Proof.
  intros Hx Hb E Hl Hu Hlt. cbn [inner_loop]. rewrite (proj2 (Z.ltb_ge cp bufstart)) by lia.
  destruct (Z.ltb_spec (cp - bufstart) 2) as [|H2]; [done|]. unfold enc in Hu.
  destruct (suffix_cases _ _ _ _ Hu) as [(V & EV & _)|[Hs _]]; [|cbn in Hs; lia].
  rewrite (reclen_ok x (s_buf s) bufstart cp W Hx E) by (lia || eauto).
  rewrite length_enc in Hlt. rewrite (proj2 (Z.ltb_lt (cp - bufstart) _)) by lia. done.
Qed.

Lemma enough_next recnum : enough recnum = false -> enough (recnum + 1) = true -> recnum + 1 = nrecs.
Proof. unfold enough. intros H1 H2. destruct (Z.eqb_spec nrecs 0); cbn [negb andb] in *; [done|]. lia. Qed.

Lemma inner_loop_ok xs : forall fuel s bufstart cp pre W,
  Forall item_ok xs -> (length W < fuel)%nat -> 0 <= bufstart -> cp <= N -> length (s_buf s) = Z.to_nat N ->
  slice bufstart (cp - bufstart) (s_buf s) = W -> Z.of_nat (length W) = cp - bufstart ->
  log xs = pre ++ W -> (pre = [] \/ 456 <= N - bufstart) -> enough (s_recnum s) = false ->
  exists s', inner_loop N sgn func fuel nrecs bufstart cp s = Some s' /\ inner_end xs pre s s'.
Proof.
  induction xs as [|x xs IH] using rev_ind; intros fuel s bufstart cp pre W Hok Hf Hb Hcp Hlb E Hl Hlog Hroom Hrec.
  all: destruct fuel as [|f]; [lia|].
  - symmetry in Hlog. apply app_nil in Hlog as [-> ->]. cbn in Hl. cbn [inner_loop].
    rewrite (proj2 (Z.ltb_ge cp bufstart)), (proj2 (Z.ltb_lt (cp - bufstart) 2)) by lia.
    destruct (keep_rest_ok s bufstart cp []) as (s' & K1 & K2 & K3 & K4 & K5 & K6); try done; try lia.
    exists s'. split; [done|]. exists [], []. rewrite K5, K6. cbn [app map rev length Z.of_nat]. rewrite app_nil_r, Z.add_0_r.
    do 4 (split; [done|]). right. split; [done|].
    exists []. repeat split; try done. intros l x Hx. now destruct l.
  - apply Forall_app in Hok as [Hok Hx]. inversion_clear Hx as [|? ? Hx1 _]. rewrite log_snoc in Hlog.
    destruct (suffix_cases _ _ _ _ Hlog) as [(V & -> & Hpre)|[Hlt (U & HU)]].
    + destruct (inner_step f x s bufstart cp V Hx1 Hb Hcp E Hl) as (albuf & ->). set (s1 := mkScan _ _ _ _ _).
      destruct (enough (s_recnum s + 1)) eqn:En.
      * exists s1. split; [done|]. exists xs, [x]. repeat split; try done. left. split; [done|]. now apply enough_next.
      * destruct (slice_prefix _ _ _ _ _ E Hb ltac:(lia)) as [E1 _]. rewrite length_app in Hl, Hf. rewrite length_enc in Hf.
        destruct (IH f s1 bufstart (bufstart + Z.of_nat (length V)) pre V) as (s' & I1 & left_ & done_ & -> & I3 & I4 & I5 & I6); try done; try lia.
        { now replace (bufstart + Z.of_nat (length V) - bufstart) with (Z.of_nat (length V)) by lia. }
        exists s'. split; [done|]. exists left_, (done_ ++ [x]). rewrite app_assoc. split; [done|]. rewrite I3, I4, map_app, rev_app_distr, length_app.
        cbn. rewrite <- app_assoc. split; [done|]. split; [lia|]. split; [done|].
        replace (s_recnum s + Z.of_nat (length done_ + 1)) with (s_recnum s + 1 + Z.of_nat (length done_)) by lia.
        cbn in I4. rewrite I4 in I6. exact I6.
    + rewrite (inner_stop f x s bufstart cp U W) by done. rewrite length_enc in Hlt. pose proof Hx1 as (Hlen & _).
      assert (Hroom2 : 456 <= N - bufstart).
      { destruct Hroom as [->|]; [|done]. apply (f_equal length) in Hlog. rewrite length_app, length_enc in Hlog. cbn in Hlog. lia. }
      destruct (keep_rest_ok s bufstart cp W) as (s' & K1 & K2 & K3 & K4 & K5 & K6); try done; try lia.
      exists s'. split; [done|]. exists (xs ++ [x]), []. rewrite K5, K6. cbn [map rev length Z.of_nat]. rewrite !app_nil_r, Z.add_0_r.
      do 4 (split; [done|]). right. split; [done|].
      exists W. rewrite log_snoc. repeat split; try done. intros l y Hy. apply app_inj_tail in Hy as [_ <-]. rewrite length_enc. lia.
Qed.

(** The buffer after reading in front of what was kept. *)
Lemma window (buf bs : list Z) bufstart leftover :
  length buf = Z.to_nat N -> 0 <= bufstart -> 0 <= leftover -> Z.of_nat (length bs) = N - bufstart - leftover ->
  slice bufstart (N - bufstart) (splice bufstart bs buf) = bs ++ slice (N - leftover) leftover buf /\
  length (splice bufstart bs buf) = Z.to_nat N.
Proof.
  intros Hb H1 H2 Hl. split; [|rewrite length_splice; lia]. unfold slice, splice.
  replace (Z.to_nat bufstart) with (length (take (Z.to_nat bufstart) buf)) at 1 by (rewrite length_take; lia). rewrite drop_app_length.
  replace (Z.to_nat bufstart + length bs)%nat with (Z.to_nat (N - leftover)) by lia.
  rewrite !take_ge; [done|rewrite length_drop; lia|rewrite length_app, length_drop; lia].
Qed.

Lemma slice_split (l : list Z) a n m : 0 <= a -> 0 <= n -> 0 <= m -> slice a n l ++ slice (a + n) m l = slice a (n + m) l.
Proof.
  intros Ha Hn Hm. unfold slice. rewrite !Z2Nat.inj_add by lia. rewrite <- drop_drop. apply take_take_drop.
Qed.

Lemma slice_all_prefix (l1 l2 : list Z) n : n = Z.of_nat (length l1) -> slice 0 n (l1 ++ l2) = l1.
Proof. apply slice_first. Qed.

Definition answer (items : list item) : list wlog_rec :=
  if nrecs =? 0 then rev (map fst items) else take (Z.to_nat nrecs) (rev (map fst items)).

Section File.
Variables (items : list item) (file : list Z).
Hypothesis items_ok : Forall item_ok items.
Hypothesis file_eq : file = log items.

(** Before a turn of the outer loop: [done_] was passed on; what is left of the
    log is the file up to [offset] and the bytes that were kept. *)
Record outer_inv (left_ done_ : list item) (offset : Z) (s : scan) : Prop := {
  oi_items : items = left_ ++ done_;
  oi_offset : 0 <= offset;
  oi_buf : length (s_buf s) = Z.to_nat N;
  oi_calls : s_calls s = rev (map fst done_);
  oi_recnum : s_recnum s = Z.of_nat (length done_);
  oi_enough : enough (s_recnum s) = true -> s_recnum s = nrecs;
  oi_left : enough (s_recnum s) = false ->
    0 <= s_leftover s < 228 /\ offset + s_leftover s = Z.of_nat (length (log left_)) /\
    slice (N - s_leftover s) (s_leftover s) (s_buf s) = slice offset (s_leftover s) file /\ (offset = 0 -> left_ = [])
}.

Lemma outer_end left_ done_ offset s :
  outer_inv left_ done_ offset s -> enough (s_recnum s) = true \/ offset = 0 -> s_calls s = answer items.
Proof.
  intros [H1 H2 H3 H4 H5 H6 H7] He. rewrite H4, H1. unfold answer. rewrite map_app, rev_app_distr.
  destruct (enough (s_recnum s)) eqn:En.
  - specialize (H6 eq_refl). unfold enough in En. destruct (Z.eqb_spec nrecs 0); [done|].
    rewrite take_app_le by (rewrite length_rev, length_map; lia). rewrite take_ge; [done|rewrite length_rev, length_map; lia].
  - destruct He as [He| ->]; [done|]. destruct (H7 eq_refl) as (_ & _ & _ & Hl). rewrite (Hl eq_refl). cbn [map rev]. rewrite app_nil_r.
    destruct (Z.eqb_spec nrecs 0) as [|Hn]; [done|]. unfold enough in En. rewrite (proj2 (Z.eqb_neq _ _)) in En by done. cbn [negb andb] in En.
    rewrite take_ge; [done|]. rewrite length_rev, length_map. lia.
Qed.

(** A window that starts where the log starts is used up. *)
Lemma whole_window left_ W : log left_ = [] ++ W -> (forall l x, left_ = l ++ [x] -> (length W < length (enc x))%nat) -> left_ = [] /\ W = [].
Proof.
  cbn. intros E H. destruct left_ as [|x l _] using rev_ind; [done|]. specialize (H l x eq_refl). rewrite log_snoc in E.
  apply (f_equal length) in E. rewrite length_app in E. lia.
Qed.

Lemma item_enc x : x ∈ items -> (30 <= length (enc x) <= 228)%nat.
Proof. intros Hx. rewrite Forall_forall in items_ok. apply list_elem_of_In, items_ok in Hx as (Hl & _). rewrite length_enc. lia. Qed.

(** A turn: the window is what is left of the log, or its last [N] bytes. *)
Lemma outer_turn left_ done_ offset bufstart next s n W :
  outer_inv left_ done_ offset s -> enough (s_recnum s) = false -> 0 <= next < offset -> 0 <= bufstart ->
  n = N - bufstart - s_leftover s -> next + n = offset -> (next = 0 \/ bufstart = 0) ->
  W = splice bufstart (slice next n file) (s_buf s) ->
  exists s' left' done', inner_loop N sgn func (S (Z.to_nat N)) nrecs bufstart N (mkScan W (s_albuf s) 0 (s_recnum s) (s_calls s)) = Some s' /\
    outer_inv left' done' next s'.
Proof.
  intros [H1 H2 H3 H4 H5 H6 H7] En Hnext Hb Hn Hno Hor ->. destruct (H7 En) as (L1 & L2 & L3 & _).
  assert (Hfile : file = log left_ ++ log done_) by (rewrite file_eq, H1; unfold log; now rewrite map_app, concat_app).
  assert (Hlf : offset + s_leftover s <= Z.of_nat (length file)) by (rewrite Hfile, length_app; lia).
  destruct (window (s_buf s) (slice next n file) bufstart (s_leftover s) H3 Hb ltac:(lia) ltac:(rewrite length_slice; lia)) as [E1 E2].
  rewrite L3, <- Hno, slice_split in E1 by lia. set (buf := splice _ _ _) in *. set (V := slice next (n + s_leftover s) file) in *.
  assert (HV : Z.of_nat (length V) = N - bufstart) by (unfold V; rewrite length_slice; lia).
  assert (Hlog : log left_ = slice 0 next file ++ V).
  { unfold V. rewrite <- (Z.add_0_l next) at 2. rewrite slice_split by lia. rewrite Hfile. symmetry. apply slice_first. lia. }
  assert (Hpre : Z.of_nat (length (slice 0 next file)) = next) by (rewrite length_slice; lia).
  destruct (inner_loop_ok left_ (S (Z.to_nat N)) (mkScan buf (s_albuf s) 0 (s_recnum s) (s_calls s)) bufstart N (slice 0 next file) V)
    as (s' & I0 & left' & done' & I1 & I2 & I3 & I4 & I5); try done; try lia.
  { rewrite H1 in items_ok. now apply Forall_app in items_ok as [? _]. }
  { destruct Hor as [->| ->]; [now left|right; lia]. }
  exists s', left', (done' ++ done_). split; [done|]. cbn [s_calls s_recnum] in *. split.
  - rewrite H1, I1. now rewrite app_assoc.
  - lia.
  - done.
  - rewrite I2, H4, map_app, rev_app_distr. done.
  - rewrite I3, H5, length_app. lia.
  - destruct I5 as [[_ I5]|[I5 _]]; [done|congruence].
  - intros En'. destruct I5 as [[I5 _]|[_ (W & W1 & W2 & W3 & W4)]]; [congruence|].
    assert (Hf2 : file = slice 0 next file ++ W ++ log (done' ++ done_)).
    { rewrite app_assoc, <- W1. rewrite file_eq, H1, I1. unfold log. now rewrite <- app_assoc, map_app, concat_app. }
    split; [|split; [rewrite W1, length_app, W2; lia|split]].
    + rewrite W2. destruct left' as [|x l _] using rev_ind.
      * symmetry in W1. apply app_nil in W1 as [_ ->]. cbn. lia.
      * specialize (W4 l x eq_refl). pose proof (item_enc x) as Hx. rewrite H1, I1 in Hx. specialize (Hx ltac:(set_solver)). lia.
    + rewrite W3, Hf2. rewrite (slice_skip (slice 0 next file)) by lia. now rewrite slice_first.
    + intros ->. change (slice 0 0 file) with (@nil Z) in W1. now destruct (whole_window left' W W1 W4).
Qed.

Lemma outer_loop_ok fuel : forall left_ done_ offset bufstart s,
  outer_inv left_ done_ offset s -> offset < Z.of_nat fuel -> offset = 0 \/ bufstart = 0 ->
  outer_loop N sgn func sys file fuel nrecs offset bufstart s = Some (0, answer items).
Proof.
  induction fuel as [|f IH]; intros left_ done_ offset bufstart s Hinv Hf Hb; [destruct Hinv; lia|]. cbn [outer_loop].
  replace ((nrecs =? 0) || (s_recnum s <? nrecs)) with (negb (enough (s_recnum s))).
  2: { unfold enough. destruct (nrecs =? 0); [done|]. cbn [negb andb orb]. destruct (Z.ltb_spec (s_recnum s) nrecs); lia. }
  destruct (enough (s_recnum s)) eqn:En; cbn [negb andb]; [do 2 f_equal; eapply outer_end; eauto|].
  destruct (Z.ltb_spec 0 offset) as [Ho|Ho]; [|do 2 f_equal; eapply outer_end; [exact Hinv|right; destruct Hinv; lia]].
  destruct Hb as [| ->]; [lia|]. destruct calls_succeed as [C1 C2].
  pose proof (oi_left _ _ _ _ Hinv En) as (L1 & L2 & _).
  destruct (Z.ltb_spec (offset + s_leftover s) N) as [Hsm|Hlg]; rewrite C1, C2; cbn [negb].
  - destruct (outer_turn left_ done_ offset (N - (offset + s_leftover s)) 0 s offset _ Hinv En (conj (Z.le_refl 0) Ho) ltac:(lia) ltac:(lia) ltac:(lia) (or_introl eq_refl) eq_refl) as (s' & left' & done' & E & Hinv').
    replace (N - (N - (offset + s_leftover s)) - s_leftover s) with offset by lia. rewrite E. apply (IH left' done'); [done|lia|now left].
  - destruct (outer_turn left_ done_ offset 0 (offset - (N - s_leftover s)) s (N - s_leftover s) _ Hinv En ltac:(lia) ltac:(lia) ltac:(lia) ltac:(lia) (or_intror eq_refl) eq_refl) as (s' & left' & done' & E & Hinv').
    rewrite Z.sub_0_r in *. rewrite E. apply (IH left' done'); [done|lia|now right].
Qed.
End File.
End Backward.

(** ** A log that is written and scanned *)

(** The file after records were appended to an empty log. *)
Definition write_all (sys : wsys) (jrs : list (junk * wlog_rec)) : list Z :=
  fold_left (fun file x => (wlog_record_write sys file x.1 x.2 (-1)).2) jrs [].

Definition entry_ok (sgn : bool) (x : junk * wlog_rec) : Prop :=
  rec_ok x.2 /\ junk_ok x.1 /\ (sgn = true -> (length (wlog_rec_pack x.1 x.2 true) < 128)%nat).

Definition to_item (x : junk * wlog_rec) : item := (x.2, wlog_rec_pack x.1 x.2 true).

Lemma to_item_ok sgn x : entry_ok sgn x -> item_ok sgn (to_item x).
Proof.
  intros (H1 & H2 & H3). split; [now apply length_pack|]. split; [intros rest; now apply unpack_pack|exact H3].
Qed.

Lemma append_eq sys file x :
  write_ok sys = true -> rec_ok x.2 -> junk_ok x.1 ->
  wlog_record_write sys file x.1 x.2 (-1) = (Z.of_nat (length file), file ++ enc (to_item x)).
Proof.
  intros Hw Hr Hj. pose proof (length_pack x.1 x.2 Hr Hj) as Hl. unfold wlog_record_write. cbn [Z.ltb Z.compare]. rewrite Hw. unfold enc, to_item.
  cbn [snd]. rewrite Z.div_small, Z.mod_small by lia.
  assert (Hu : u8 (Z.of_nat (length (wlog_rec_pack x.1 x.2 true))) = Z.of_nat (length (wlog_rec_pack x.1 x.2 true)))
    by (unfold u8, uwrap; apply Z.mod_small; change (2 ^ 8) with 256; lia).
  rewrite Hu. change (u8 0) with 0. f_equal. rewrite !length_app. cbn [length]. lia.
Qed.

Lemma write_all_log sys sgn jrs : write_ok sys = true -> Forall (entry_ok sgn) jrs -> write_all sys jrs = log (map to_item jrs).
Proof.
  intros Hw. unfold write_all. rewrite <- (app_nil_l (log _)). generalize (@nil Z). induction jrs as [|x jrs IH]; intros file Hok.
  - cbn. now rewrite app_nil_r.
  - inversion_clear Hok as [|? ? (H1 & H2 & _) Hok']. cbn [fold_left map]. rewrite append_eq by done. cbn [snd]. rewrite IH by done.
    unfold log. cbn [map concat]. now rewrite app_assoc.
Qed.


(** Overlaying a record, at the offset that appending it gave, with one that has
    the same strings leaves the log as if the new one had been appended. *)
Definition same_strings (r r' : wlog_rec) : Prop :=
  (w_host r, w_hostlen r, w_path r, w_pathlen r, w_pattern r, w_patternlen r) =
  (w_host r', w_hostlen r', w_path r', w_pathlen r', w_pattern r', w_patternlen r').

Lemma splice_mid (x y z w : list Z) : length y = length w -> splice (Z.of_nat (length x)) w (x ++ y ++ z) = x ++ w ++ z.
Proof.
  intros H. unfold splice. rewrite Nat2Z.id, take_app_length, <- H, drop_app_add' by done. f_equal. f_equal. apply drop_app_length.
Qed.

Lemma overlay_updates sgn sys a x b x' :
  write_ok sys = true -> (forall z, lseek_ok sys z = true) -> Forall (entry_ok sgn) (a ++ x :: b) -> Forall (entry_ok sgn) (a ++ x' :: b) ->
  same_strings x.2 x'.2 ->
  wlog_record_write sys (write_all sys (a ++ x :: b)) x'.1 x'.2 (Z.of_nat (length (write_all sys a))) =
  (Z.of_nat (length (write_all sys a)), write_all sys (a ++ x' :: b)).
Proof.
  intros Hw Hs Hok Hok' Hss. assert (Ha : Forall (entry_ok sgn) a) by now apply Forall_app in Hok as [? _].
  rewrite !(write_all_log sys sgn) by done. unfold wlog_record_write. rewrite (proj2 (Z.ltb_ge _ 0)) by lia. rewrite Hs, Hw. cbn [negb].
  f_equal. rewrite !map_app. cbn [map]. unfold log. rewrite !map_app, !concat_app. cbn [map concat].
  set (la := concat (map enc (map to_item a))). set (lb := concat (map enc (map to_item b))).
  replace (replicate _ 0) with (@nil Z) by (rewrite Nat2Z.id, length_app; now replace (length la - _)%nat with O by lia). rewrite app_nil_r.
  injection Hss as E1 E2 E3 E4 E5 E6. unfold enc, to_item. cbn [snd]. unfold wlog_rec_pack, d_pathlen, d_hostlen, d_patternlen.
  rewrite E1, E2, E3, E4, E5, E6, <- !app_assoc. rewrite splice_mid by (now rewrite !length_words). do 2 f_equal.
Qed.

(** Two records, the second of which was overlaid when it was done. *)
Definition sample_rec (done_ : Z) : wlog_rec := make_rec 71 4096 512 1 done_ 0 [104] [47; 97] [90; 90; 90].
Definition sample_sys : wsys := mkWsys true (fun _ => true) (fun _ => true).


(** ** Where it does not *)

(** The field for the length of the path has seven bits: a path of
    WLOG_MAX_PATH bytes is lost, and so is a pattern of WLOG_MAX_PATTERN. *)
Lemma longest_path_lost pid offset nbytes oflags done_ async host path pattern :
  length path = WLOG_MAX_PATH -> length pattern = WLOG_MAX_PATTERN ->
  let r := make_rec pid offset nbytes oflags done_ async host path pattern in d_pathlen r = 0 /\ d_patternlen r = 0.
Proof. intros H1 H2 r. unfold d_pathlen, d_patternlen. cbn [w_pathlen w_patternlen make_rec r]. rewrite H1, H2. done. Qed.

(** Where [char] is signed, a record of 128 bytes or more has a length that is
    read as negative. *)
Lemma signed_length_negative x buf hi :
  (128 <= length (snd x) <= 226)%nat -> nth (Z.to_nat (hi - 2)) buf 0 = 0 -> nth (Z.to_nat (hi - 1)) buf 0 = Z.of_nat (length (snd x)) ->
  char_at true buf (hi - 2) * 256 + char_at true buf (hi - 1) = Z.of_nat (length (x : item).2) - 256.
Proof.
  intros Hl H1 H2. unfold char_at. rewrite H1, H2. unfold swrap. change (2 ^ (8 - 1)) with 128. change (2 ^ 8) with 256.
  Z.to_euclidean_division_equations. lia.
Qed.
