(* ===== verification/LibRange.v ===== *)
(** Ranges and random numbers in them (lib/random_range.c). *)
From Stdlib Require Import Ascii String ZArith Lia Bool.
From stdpp Require Import base list sets numbers.
From S2P Require Import Prelude CString.

Local Open Scope Z_scope.

(** ** Ranges as text *)

(** [struct range]. *)
Record range := mkRange { r_min : Z; r_max : Z; r_mult : Z }.

(** [None] is the answer -1. *)
Definition str_to_int (str : cstr) : option Z :=
  match sscanf_int_c 0 str with
  | (1, v, _) => v
  | _ => None
  end.

(** The text before the first colon, and the text behind it. *)
Definition cut_colon (s : cstr) : cstr * option cstr :=
  match strchr s ":" with
  | None => (s, None)
  | Some r => (take (length s - length r) s, Some (tail r))
  end.

(** A field: its default when it is empty; the string itself is the error. *)
Definition parse_field (parse_func : cstr -> option Z) (s : cstr) (def : Z) : Z + cstr :=
  match s with
  | [] => inl def
  | _ => match parse_func s with Some v => inl v | None => inr s end
  end.

Definition parse_token (parse_func : cstr -> option Z) (defmin defmax defmult : Z) (tok : cstr) : range + cstr :=
  let '(n1str, n2) := cut_colon tok in
  let '(n2str, multstr) := match n2 with None => (None, None) | Some s => let '(a, m) := cut_colon s in (Some a, m) end in
  match parse_field parse_func n1str defmin with
  | inr e => inr e
  | inl min =>
      match match n2str with None => inl min | Some s => parse_field parse_func s defmax end with
      | inr e => inr e
      | inl max =>
          match match multstr with None => inl defmult | Some s => parse_field parse_func s defmult end with
          | inr e => inr e
          | inl mult => inl (mkRange min max mult)
          end
      end
  end.

Fixpoint parse_tokens (parse_func : cstr -> option Z) (defmin defmax defmult : Z) (toks : list cstr) : list range + cstr :=
  match toks with
  | [] => inl []
  | tok :: toks =>
      match parse_token parse_func defmin defmax defmult tok with
      | inr e => inr e
      | inl r => match parse_tokens parse_func defmin defmax defmult toks with inr e => inr e | inl rs => inl (r :: rs) end
      end
  end.

(** The ranges, or the text of [errmsg].  The array has room for a range more than
    there are commas. *)
Definition parse_ranges (parse_func : option (cstr -> option Z)) (defmin defmax defmult : Z) (str : cstr) : list range + cstr :=
  match parse_tokens (default str_to_int parse_func) defmin defmax defmult (strtok_all §"," str) with
  | inl rs => inl rs
  | inr e => inr (§"error parsing string " ++ e ++ §" into an integer")
  end.

Definition ncommas (str : cstr) : nat := length (List.filter (fun c => ceqb c ",") str).

Definition range_min (rs : list range) (r : nat) : option Z := option_map r_min (rs !! r).
Definition range_max (rs : list range) (r : nat) : option Z := option_map r_max (rs !! r).
Definition range_mult (rs : list range) (r : nat) : option Z := option_map r_mult (rs !! r).

(** ** Random numbers *)

(** Arithmetic that must not leave a type. *)
Definition int_fits (z : Z) : bool := (INT_MIN <=? z) && (z <=? INT_MAX).
Definition long_fits (z : Z) : bool := (LONG_MIN <=? z) && (z <=? LONG_MAX).

Definition chk (fits : Z -> bool) (z : Z) : option Z := if fits z then Some z else None.

(** What the three functions share: the bounds as multiples of [mult] and the
    number of multiples.  [None] when an operation overflows. *)
Definition mult_bounds (fits : Z -> bool) (min max mult : Z) : option (Z * Z) :=
  let '(min, max) := if max <? min then (max, min) else (min, max) in
  min ← (let r := Z.rem min mult in if r =? 0 then Some min else d ← chk fits (mult - r); chk fits (min + d));
  max ← (let r := Z.rem max mult in if r =? 0 then Some max else chk fits (max - r));
  Some (min, max).

Definition no_mults_msg (min max mult : Z) : cstr :=
  §"no numbers in the range " ++ fmt_d min ++ §":" ++ fmt_d max ++ §" that are a multiple of " ++ fmt_d mult.

(** The number, or what [*errp] points to when -1 is returned.  [pick] is how the
    number of the multiple is found. *)
Definition range_with (fits : Z -> bool) (pick : Z -> Z -> Z -> Z) (min max mult : Z) : option (Z + cstr) :=
  if mult <? 1 then Some (inr §"mult arg must be greater than 0")
  else
    '(lo, hi) ← mult_bounds fits min max mult;
    if hi <? lo then Some (inr (no_mults_msg min max mult))
    else
      d ← chk fits (hi - lo);
      nmults ← chk fits (Z.quot d mult + 1);
      Some (inl (lo + pick lo hi nmults * mult)).

(** [random_range] and [random_rangel] differ in the type only. *)
Definition random_range (lrand48 : Z) : Z -> Z -> Z -> option (Z + cstr) :=
  range_with int_fits (fun _ _ nmults => Z.rem lrand48 nmults).

Definition random_rangel (lrand48 : Z) : Z -> Z -> Z -> option (Z + cstr) :=
  range_with long_fits (fun _ _ nmults => Z.rem lrand48 nmults).

(** [divider(min, max, cnt, rand)] for [rand] that was taken at the first call;
    [cnt] turns are over.  The function ends itself after 33. *)
Fixpoint divider (fuel : nat) (min max cnt rand : Z) : Z :=
  match fuel with
  | O => -1
  | S f =>
      let diff := max - min in
      if diff <=? 2147483647 then min + rand
      else
        let half := Z.quot diff 2 in
        let med := min + half in
        let bit := Z.testbit rand cnt in
        if half <=? 2147483647 then (if bit then med + rand else min + rand)
        else if bit then divider f med max (cnt + 1) rand else divider f min med (cnt + 1) rand
  end.

Definition random_rangell (lrand48 : Z) : Z -> Z -> Z -> option (Z + cstr) :=
  range_with long_fits (fun lo hi nmults =>
    if hi <=? 2147483647 then Z.rem lrand48 nmults else Z.rem (divider 33 lo hi 0 lrand48) nmults).

(** ** A random bit *)

(** [long] has [w] bits. *)
Definition nbits (w : nat) (mask : Z) : Z := count (fun i => Z.testbit mask i) (zseq 0 w).

(** The loop that looks for the bit: the number of shifts. *)
Fixpoint bit_loop (fuel : nat) (mask bit nshift : Z) : option Z :=
  if bit =? 0 then Some nshift
  else
    match fuel with
    | O => None
    | S f => bit_loop f (Z.shiftr mask 1) (if Z.odd mask then bit - 1 else bit) (nshift + 1)
    end.

Definition random_bit (w : nat) (lrand48 mask : Z) : option Z :=
  if mask =? 0 then Some 0
  else
    match random_range lrand48 1 (nbits w mask) 1 with
    | Some (inl bit) => nshift ← bit_loop w mask bit 0; Some (swrap (Z.of_nat w) (2 ^ (nshift - 1)))
    | _ => None
    end.

(** ** Numbers in the range *)

(** The bounds for numbers that are not negative. *)
Lemma mult_bounds_ok fits min max mult :
  0 <= min -> 0 <= max -> 1 <= mult -> (forall z, 0 <= z <= Z.max min max + mult -> fits z = true) ->
  exists lo hi, mult_bounds fits min max mult = Some (lo, hi) /\ (mult | lo) /\ (mult | hi) /\ Z.min min max <= lo /\ 0 <= hi <= Z.max min max /\
    lo <= Z.max min max + mult /\ (forall v, (mult | v) -> Z.min min max <= v -> lo <= v) /\ (forall v, (mult | v) -> v <= Z.max min max -> v <= hi).
Proof.
  intros H1 H2 Hm Hf. unfold mult_bounds.
  assert (Hb : (if max <? min then (max, min) else (min, max)) = (Z.min min max, Z.max min max)) by (destruct (Z.ltb_spec max min); f_equal; lia).
  rewrite Hb. set (a := Z.min min max). set (b := Z.max min max) in *. assert (Ha : 0 <= a <= b) by lia. clearbody a b.
  rewrite !Z.rem_mod_nonneg by lia. pose proof (Z.mod_pos_bound a mult ltac:(lia)) as Ra. pose proof (Z.mod_pos_bound b mult ltac:(lia)) as Rb.
  pose proof (Z.div_mod a mult ltac:(lia)) as Ea. pose proof (Z.div_mod b mult ltac:(lia)) as Eb.
  set (lo := if a mod mult =? 0 then a else a + (mult - a mod mult)). set (hi := b - b mod mult).
  assert (C : forall z, 0 <= z <= b + mult -> chk fits z = Some z) by (intros z Hz; unfold chk; now rewrite Hf).
  pose proof (Z.div_pos b mult ltac:(lia) ltac:(lia)) as Db. assert (Hhi : 0 <= hi) by (subst hi; nia).
  exists lo, hi. split; [|repeat split].
  - subst lo. rewrite (C hi) by (subst hi; lia). destruct (Z.eqb_spec (a mod mult) 0).
    + cbn. destruct (Z.eqb_spec (b mod mult) 0); cbn; repeat f_equal; subst hi; lia.
    + rewrite C by lia. cbn. rewrite C by lia. cbn. destruct (Z.eqb_spec (b mod mult) 0); cbn; repeat f_equal; subst hi; lia.
  - subst lo. destruct (Z.eqb_spec (a mod mult) 0); [exists (a / mult)|exists (a / mult + 1)]; lia.
  - exists (b / mult). lia.
  - subst lo. destruct (_ =? 0); lia.
  - done.
  - subst hi. lia.
  - subst lo. destruct (_ =? 0); lia.
  - intros v [k ->] Hv. subst lo. destruct (Z.eqb_spec (a mod mult) 0); [lia|].
    assert (a / mult < k) by (apply Z.mul_lt_mono_pos_r with mult; lia). nia.
  - intros v [k ->] Hv. subst hi. assert (k <= b / mult) by (apply Z.div_le_lower_bound; lia). nia.
Qed.

(** What is promised of an answer. *)
Definition in_range (min max mult : Z) (r : option (Z + cstr)) : Prop :=
  match r with
  | Some (inl v) => Z.min min max <= v <= Z.max min max /\ (mult | v)
  | Some (inr _) => forall v, Z.min min max <= v <= Z.max min max -> ~ (mult | v)
  | None => False
  end.

Lemma range_with_ok fits pick min max mult :
  0 <= min -> 0 <= max -> 1 <= mult -> (forall z, 0 <= z <= Z.max min max + mult -> fits z = true) ->
  (forall lo hi n, 0 <= lo <= hi -> hi <= Z.max min max -> 0 < n -> 0 <= pick lo hi n < n) -> in_range min max mult (range_with fits pick min max mult).
Proof.
  intros H1 H2 Hm Hf Hp. unfold range_with. rewrite (proj2 (Z.ltb_ge mult 1)) by lia.
  destruct (mult_bounds_ok fits min max mult H1 H2 Hm Hf) as (lo & hi & E & [k Hlo] & [l Hhi] & B1 & B2 & B3 & Hl & Hh). rewrite E. cbn [mbind option_bind].
  destruct (Z.ltb_spec hi lo) as [Hlt|Hge].
  - intros v Hv Hd. specialize (Hl v Hd ltac:(lia)). specialize (Hh v Hd ltac:(lia)). lia.
  - assert (Hq : Z.quot (hi - lo) mult = l - k).
    { replace (hi - lo) with ((l - k) * mult) by lia. apply Z.quot_mul. lia. }
    unfold chk. rewrite Hf by lia. cbn. rewrite Hq. assert (Hkl : 0 <= l - k) by nia. rewrite Hf by nia. cbn.
    specialize (Hp lo hi (l - k + 1) ltac:(lia) ltac:(lia) ltac:(lia)). split; [nia|]. exists (k + pick lo hi (l - k + 1)). lia.
Qed.

(** [divider] ends before it gives up. *)
Lemma divider_nonneg fuel min max cnt rand :
  0 <= min -> 0 <= rand -> max - min <= 2 ^ (30 + Z.of_nat (S fuel)) -> 0 <= divider (S fuel) min max cnt rand.
Proof.
  revert min max cnt. induction fuel as [|f IH]; intros min max cnt Hm Hr Hd.
  all: cbn [divider]; destruct (Z.leb_spec (max - min) 2147483647); [lia|]; rewrite Z.quot_div_nonneg by lia.
  all: pose proof (Z.div_mod (max - min) 2 ltac:(lia)); pose proof (Z.mod_pos_bound (max - min) 2 ltac:(lia)).
  - change (2 ^ (30 + Z.of_nat 1)) with 2147483648 in Hd. rewrite (proj2 (Z.leb_le _ _)) by lia. destruct (Z.testbit rand cnt); lia.
  - destruct (Z.leb_spec ((max - min) / 2) 2147483647); [destruct (Z.testbit rand cnt); lia|].
    replace (30 + Z.of_nat (S (S f))) with (Z.succ (30 + Z.of_nat (S f))) in Hd by lia. rewrite Z.pow_succ_r in Hd by lia.
    destruct (Z.testbit rand cnt); apply IH; lia.
Qed.

(** A number between the bounds, and a multiple of [mult]; an error when there is
    none.  The bounds are not negative, and far enough from the end of the type. *)
Theorem random_range_in_range lrand48 min max mult :
  0 <= lrand48 -> 0 <= min -> 0 <= max -> 1 <= mult ->
  (Z.max min max + mult <= INT_MAX -> in_range min max mult (random_range lrand48 min max mult)) /\
  (Z.max min max + mult <= LONG_MAX -> in_range min max mult (random_rangel lrand48 min max mult) /\
                                      in_range min max mult (random_rangell lrand48 min max mult)).
Proof.
  intros Hr H1 H2 Hm. assert (Hp : forall x n, 0 <= x -> 0 < n -> 0 <= Z.rem x n < n) by (intros; apply Z.rem_bound_pos; lia).
  split; [|split]; intros; apply range_with_ok; try done; auto.
  - unfold int_fits, INT_MIN, INT_MAX in *. lia.
  - unfold long_fits, LONG_MIN, LONG_MAX in *. lia.
  - unfold long_fits, LONG_MIN, LONG_MAX in *. lia.
  - intros lo hi n Hlo Hhi Hn. destruct (hi <=? 2147483647); [auto|]. apply Hp; [|done]. apply divider_nonneg; [lia|done|].
    change (2 ^ (30 + Z.of_nat 33)) with 9223372036854775808. unfold LONG_MAX in *. lia.
Qed.

Lemma random_range_in_range_witness :
  (Z.max 7 9000000000 + 5 <= INT_MAX -> in_range 7 9000000000 5 (random_range 1000003 7 9000000000 5)) /\
  (Z.max 7 9000000000 + 5 <= LONG_MAX -> in_range 7 9000000000 5 (random_rangel 1000003 7 9000000000 5) /\
                                       in_range 7 9000000000 5 (random_rangell 1000003 7 9000000000 5)).
Proof. apply (random_range_in_range 1000003 7 9000000000 5); lia. Defined.

(** For a negative maximum the number can be outside the range. *)
Lemma negative_range_left : random_range 4 (-5) (-2) 3 = Some (inl 0).
Proof. reflexivity. Qed.

(** ** The bit *)

Lemma count_shift mask lo n : count (fun i => Z.testbit mask i) (zseq (lo + 1) n) = count (fun i => Z.testbit (Z.shiftr mask 1) i) (zseq lo n) \/ lo < 0.
Proof.
  revert lo. induction n as [|n IH]; intros lo; [now left|]. destruct (Z.lt_ge_cases lo 0) as [|Hlo]; [now right|]. left. cbn [zseq count].
  rewrite Z.shiftr_spec by lia. destruct (IH (lo + 1)) as [->|]; [done|lia].
Qed.

Lemma bit_loop_ok fuel mask bit nshift :
  1 <= bit <= count (fun i => Z.testbit mask i) (zseq 0 fuel) ->
  exists p, 0 <= p < Z.of_nat fuel /\ Z.testbit mask p = true /\ bit_loop fuel mask bit nshift = Some (nshift + p + 1).
Proof.
  revert mask bit nshift. induction fuel as [|f IH]; intros mask bit nshift Hb; cbn [zseq count] in Hb; [lia|]. cbn [bit_loop].
  rewrite (proj2 (Z.eqb_neq bit 0)) by lia. destruct (count_shift mask 0 f) as [E|]; [|lia]. rewrite E in Hb. rewrite Z.bit0_odd in Hb.
  destruct (Z.odd mask) eqn:Eo.
  - destruct (Z.eq_dec bit 1) as [->|Hne].
    + exists 0. rewrite Z.bit0_odd. split; [lia|]. split; [done|]. destruct f; cbn; repeat f_equal; lia.
    + destruct (IH (Z.shiftr mask 1) (bit - 1) (nshift + 1) ltac:(lia)) as (p & Hp & Ht & ->). exists (p + 1).
      rewrite Z.shiftr_spec in Ht by lia. split; [lia|]. split; [done|]. f_equal. lia.
  - destruct (IH (Z.shiftr mask 1) bit (nshift + 1) ltac:(lia)) as (p & Hp & Ht & ->). exists (p + 1).
    rewrite Z.shiftr_spec in Ht by lia. split; [lia|]. split; [done|]. f_equal. lia.
Qed.

(** A mask that is not zero has a bit. *)
Lemma nbits_pos w mask : (0 < w)%nat -> - 2 ^ (Z.of_nat w - 1) <= mask < 2 ^ (Z.of_nat w - 1) -> mask <> 0 -> 1 <= nbits w mask.
Proof.
  intros Hw Hr Hne. destruct (Z.lt_ge_cases (nbits w mask) 1) as [Hlt|]; [|done]. exfalso. apply Hne. unfold nbits in Hlt.
  assert (Hz : forall l, count (fun i => Z.testbit mask i) l < 1 -> forall i, i ∈ l -> Z.testbit mask i = false).
  { induction l as [|x l IH]; intros Hl i Hi; [set_solver|]. cbn [count] in Hl. pose proof (count_bounds (fun i => Z.testbit mask i) l).
    destruct (Z.testbit mask x) eqn:Ex; [lia|]. apply elem_of_cons in Hi as [->|Hi]; [done|]. apply IH; [lia|done]. }
  assert (H0 : Z.land mask (Z.ones (Z.of_nat w)) = 0).
  { apply Z.bits_inj'. intros i Hi. rewrite Z.land_spec, Z.bits_0. destruct (Z.lt_ge_cases i (Z.of_nat w)).
    - rewrite (Hz _ Hlt i); [done|]. apply elem_of_zseq. lia.
    - rewrite Z.ones_spec_high by lia. apply andb_false_r. }
  rewrite Z.land_ones in H0 by lia. apply Z.mod_divide in H0 as [k Hk]; [|lia].
  replace (2 ^ Z.of_nat w) with (2 * 2 ^ (Z.of_nat w - 1)) in Hk by (rewrite <- Z.pow_succ_r by lia; f_equal; lia).
  assert (Hp : 0 < 2 ^ (Z.of_nat w - 1)) by (apply Z.pow_pos_nonneg; lia).
  revert Hk Hr Hp. generalize (2 ^ (Z.of_nat w - 1)). intros z Hk Hr Hp. assert (k = 0) by nia. lia.
Qed.

(** One of the bits of the mask is returned. *)
Theorem random_bit_of_mask w lrand48 mask :
  (0 < w <= 64)%nat -> - 2 ^ (Z.of_nat w - 1) <= mask < 2 ^ (Z.of_nat w - 1) -> mask <> 0 -> 0 <= lrand48 ->
  exists p, 0 <= p < Z.of_nat w /\ Z.testbit mask p = true /\ random_bit w lrand48 mask = Some (swrap (Z.of_nat w) (2 ^ p)).
Proof.
  intros Hw Hr Hne Hl. pose proof (nbits_pos w mask ltac:(lia) Hr Hne) as Hn. unfold random_bit. rewrite (proj2 (Z.eqb_neq mask 0)) by done.
  assert (Hb : nbits w mask <= Z.of_nat w).
  { unfold nbits. pose proof (count_bounds (fun i => Z.testbit mask i) (zseq 0 w)) as Hc.
    assert (length (zseq 0 w) = w) by (clear; generalize 0; induction w as [|w IH]; intros z; cbn; [done|now rewrite IH]). lia. }
  assert (Hin : in_range 1 (nbits w mask) 1 (random_range lrand48 1 (nbits w mask) 1)).
  { apply range_with_ok; try lia; [unfold int_fits, INT_MIN, INT_MAX; lia|]. intros. apply Z.rem_bound_pos; lia. }
  destruct (random_range lrand48 1 (nbits w mask) 1) as [[v|m]|]; cbn [in_range] in Hin; [|exfalso; apply (Hin 1); [lia|apply Z.divide_refl]|done].
  destruct (bit_loop_ok w mask v 0) as (p & Hp & Ht & E); [unfold nbits in *; lia|]. exists p. split; [done|]. split; [done|].
  rewrite E. cbn. do 3 f_equal. lia.
Qed.

Lemma random_bit_of_mask_witness :
  exists p, 0 <= p < 32 /\ Z.testbit 40 p = true /\ random_bit 32 5 40 = Some (swrap 32 (2 ^ p)).
Proof. apply (random_bit_of_mask 32 5 40); cbn; lia. Defined.

(** ** Ranges that are written and read *)

Section Text.
Variables (parse_func : cstr -> option Z) (show : Z -> cstr).
Hypothesis reads_back : forall v, parse_func (show v) = Some v.
Hypothesis shown : forall v, show v <> [] /\ (","%char ∉ show v) /\ (":"%char ∉ show v).

(** "num", "min:max" and "min:max:mult". *)
Inductive form := Single | Pair | Triple.

Definition range_text (x : form * range) : cstr :=
  let r := x.2 in
  match x.1 with
  | Single => show (r_min r)
  | Pair => show (r_min r) ++ ":"%char :: show (r_max r)
  | Triple => show (r_min r) ++ ":"%char :: show (r_max r) ++ ":"%char :: show (r_mult r)
  end.

(** What is left out has its default. *)
Definition range_read (defmult : Z) (x : form * range) : range :=
  let r := x.2 in
  match x.1 with
  | Single => mkRange (r_min r) (r_min r) defmult
  | Pair => mkRange (r_min r) (r_max r) defmult
  | Triple => r
  end.

Lemma cut_colon_app s t : ":"%char ∉ s -> cut_colon (s ++ ":"%char :: t) = (s, Some t).
Proof.
  intros H. unfold cut_colon. rewrite strchr_app by done. cbn [tail]. f_equal. rewrite length_app, Nat.add_sub. apply take_app_length.
Qed.

Lemma cut_colon_none s : ":"%char ∉ s -> cut_colon s = (s, None).
Proof. intros H. unfold cut_colon. apply strchr_None in H. now rewrite H. Qed.

Lemma parse_shown v def : parse_field parse_func (show v) def = inl v.
Proof. unfold parse_field. destruct (shown v) as (Hne & _). rewrite reads_back. now destruct (show v). Qed.

Lemma parse_token_ok defmin defmax defmult x :
  parse_token parse_func defmin defmax defmult (range_text x) = inl (range_read defmult x).
Proof.
  destruct x as [[] r]; unfold range_text, range_read, parse_token; cbn [fst snd].
  - rewrite cut_colon_none by apply shown. now rewrite parse_shown.
  - rewrite cut_colon_app by apply shown. rewrite cut_colon_none by apply shown. now rewrite !parse_shown.
  - rewrite cut_colon_app by apply shown. rewrite cut_colon_app by apply shown. rewrite !parse_shown. now destruct r.
Qed.

Lemma range_text_token x : range_text x <> [] /\ Forall (fun c => c ∉ §",") (range_text x).
Proof.
  assert (Hs : forall v, Forall (fun c => c ∉ §",") (show v)).
  { intros v. destruct (shown v) as (_ & Hc & _). apply Forall_forall. intros c Hin%list_elem_of_In Hm. cbn in Hm.
    apply elem_of_cons in Hm as [->|Hm]; [done|set_solver]. }
  assert (Hcol : ":"%char ∉ §",") by (cbn; set_solver).
  destruct x as [[] r]; unfold range_text; cbn [fst snd]; (split; [destruct (show (r_min r)) eqn:E; [now destruct (shown (r_min r))|done]|]);
    rewrite ?Forall_app; repeat (split || constructor); auto. apply Forall_app. split; [done|]. constructor; auto.
Qed.
End Text.

Lemma parse_tokens_ok f show defmin defmax defmult xs :
  (forall v, f (show v) = Some v) -> (forall v, show v <> [] /\ (","%char ∉ show v) /\ (":"%char ∉ show v)) ->
  parse_tokens f defmin defmax defmult (map (range_text show) xs) = inl (map (range_read defmult) xs).
Proof. intros H1 H2. induction xs as [|x xs IH]; [done|]. cbn [map parse_tokens]. rewrite parse_token_ok by done. now rewrite IH. Qed.

Lemma ncommas_app s t : ncommas (s ++ t) = (ncommas s + ncommas t)%nat.
Proof. unfold ncommas. now rewrite List.filter_app, length_app. Qed.

Lemma strtok_comma s t r : strtok §"," s = Some (t, r) -> r = [] \/ (S (ncommas r) <= ncommas s)%nat.
Proof.
  unfold strtok. set (p := fun c => memc c §","). destruct (dropwhile p s) as [|x s'] eqn:E; [done|]. intros H.
  pose proof (f_equal (fun o => match o with Some (_, r) => r | None => [] end) H) as Er. clear H. cbv beta iota in Er.
  change (tail (dropwhile (fun c => negb (p c)) (x :: s')) = r) in Er. subst r.
  destruct (dropwhile (fun c => negb (p c)) (x :: s')) as [|y r] eqn:E2; [now left|]. right. cbn [tail].
  pose proof (dropwhile_head _ _ _ _ E2) as Hy. apply negb_false_iff, memc_true in Hy. cbn in Hy. assert (y = ","%char) as -> by set_solver.
  rewrite <- (take_drop_while p s), E, <- (take_drop_while (fun c => negb (p c)) (x :: s')), E2, !ncommas_app.
  change (ncommas (","%char :: r)) with (S (ncommas r)). lia.
Qed.

(** The array of ranges is never written past its end. *)
Lemma tokens_commas s : (length (strtok_all §"," s) <= S (ncommas s))%nat.
Proof.
  assert (H : forall n s, (length s < n)%nat -> (length (strtok_all §"," s) <= S (ncommas s))%nat).
  { induction n as [|n IH]; intros t Ht; [lia|]. rewrite strtok_all_unfold. destruct (strtok §"," t) as [[w r]|] eqn:E; [|cbn; lia].
    pose proof (strtok_shorter _ _ _ _ E). cbn [length]. destruct (strtok_comma _ _ _ E) as [->|Hc]; [cbn; lia|].
    specialize (IH r ltac:(lia)). lia. }
  apply (H (S (length s))). lia.
Qed.

(** Ranges are read as they were written, with the defaults for what was left
    out, in any format of numbers that can be read back; there is room for them. *)
Theorem parse_ranges_roundtrip f show defmin defmax defmult xs :
  (forall v, f (show v) = Some v) -> (forall v, show v <> [] /\ (","%char ∉ show v) /\ (":"%char ∉ show v)) ->
  let str := join §"," (map (range_text show) xs) in
  parse_ranges (Some f) defmin defmax defmult str = inl (map (range_read defmult) xs) /\ (length xs <= S (ncommas str))%nat.
Proof.
  intros H1 H2 str.
  assert (Et : strtok_all §"," str = map (range_text show) xs).
  { apply strtok_all_join; [cbn; set_solver|]. apply Forall_map, Forall_forall. intros x _. now apply (range_text_token f). }
  split; [unfold parse_ranges; rewrite Et; cbn [default]; now rewrite parse_tokens_ok|].
  pose proof (tokens_commas str) as Hc. rewrite Et, length_map in Hc. done.
Qed.

(** Numbers in unary. *)
Definition unary_show (v : Z) : cstr := (if v <? 0 then "-"%char else "+"%char) :: replicate (Z.to_nat (Z.abs v)) "1"%char.
Definition unary_read (s : cstr) : option Z :=
  match s with c :: r => Some (if ceqb c "-" then - Z.of_nat (length r) else Z.of_nat (length r)) | [] => None end.

Lemma parse_ranges_roundtrip_witness :
  parse_ranges (Some unary_read) 0 9 1 §"+1:+111,+11" = inl [mkRange 1 3 1; mkRange 2 2 1] /\ (2 <= S (ncommas §"+1:+111,+11"))%nat.
Proof.
  apply (parse_ranges_roundtrip unary_read unary_show 0 9 1 [(Pair, mkRange 1 3 0); (Single, mkRange 2 0 0)]).
  - intros v. unfold unary_show, unary_read. rewrite length_replicate. destruct (Z.ltb_spec v 0);
      [change (ceqb "-" "-") with true|change (ceqb "+" "-") with false]; f_equal; lia.
  - intros v. unfold unary_show. split; [done|]. split; intros [Hin|Hin]%elem_of_cons;
      try (apply elem_of_replicate in Hin as [Hin _]); try discriminate Hin; destruct (v <? 0); discriminate Hin.
Defined.
