(* ===== verification/LibTimer.v ===== *)
(** Time in the library (include/tst_timer.h, lib/tst_timer.c, lib/tst_wallclock.c)
    and the test of sleeping system calls (lib/tst_timer_test.c). *)
From Stdlib Require Import Sorted Ascii String ZArith Lia Bool.
From stdpp Require Import base list sets numbers.
From S2P Require Import Prelude CString TstRes TstSetup.

Local Open Scope Z_scope.

(** ** Times *)

Record timespec := mkTs { tv_sec : Z; tv_nsec : Z }.
Record timeval := mkTv { tvl_sec : Z; tv_usec : Z }.

(** The fields are [long], of [w] bits; products of them are computed in [long]
    before they become [long long]. *)
Section Times.
Variable w : Z.

Definition lg (z : Z) : Z := swrap w z.

Definition tst_timespec_to_ns (t : timespec) : Z := lg (lg (tv_sec t * 1000000000) + tv_nsec t).
Definition tst_timespec_to_us (t : timespec) : Z := lg (lg (tv_sec t * 1000000) + Z.quot (lg (tv_nsec t + 500)) 1000).
Definition tst_timespec_to_ms (t : timespec) : Z := lg (lg (tv_sec t * 1000) + Z.quot (lg (tv_nsec t + 500000)) 1000000).
Definition tst_timeval_to_us (t : timeval) : Z := lg (lg (tvl_sec t * 1000000) + tv_usec t).
Definition tst_timeval_to_ms (t : timeval) : Z := lg (lg (tvl_sec t * 1000) + Z.quot (lg (tv_usec t + 500)) 1000).

Definition tst_ms_to_timeval (ms : Z) : timeval := mkTv (lg (Z.quot ms 1000)) (lg (Z.rem ms 1000 * 1000)).
Definition tst_us_to_timeval (us : Z) : timeval := mkTv (lg (Z.quot us 1000000)) (lg (Z.rem us 1000000)).
Definition tst_ms_to_timespec (ms : Z) : timespec := mkTs (lg (Z.quot ms 1000)) (lg (Z.rem ms 1000 * 1000000)).
Definition tst_us_to_timespec (us : Z) : timespec := mkTs (lg (Z.quot us 1000000)) (lg (Z.rem us 1000000 * 1000)).

Definition tst_timespec_lt (t1 t2 : timespec) : bool :=
  if tv_sec t1 =? tv_sec t2 then tv_nsec t1 <? tv_nsec t2 else tv_sec t1 <? tv_sec t2.

Definition carry (t : timespec) : timespec :=
  if 1000000000 <=? tv_nsec t then mkTs (lg (tv_sec t + 1)) (lg (tv_nsec t - 1000000000)) else t.

Definition tst_timespec_add_us (t : timespec) (us : Z) : timespec :=
  carry (mkTs (lg (tv_sec t + Z.quot us 1000000)) (lg (tv_nsec t + Z.rem us 1000000 * 1000))).

Definition tst_timespec_add (t1 t2 : timespec) : timespec :=
  carry (mkTs (lg (tv_sec t1 + tv_sec t2)) (lg (tv_nsec t1 + tv_nsec t2))).

Definition tst_timespec_sub_us (t : timespec) (us : Z) : timespec :=
  let t := mkTs (lg (tv_sec t - Z.quot us 1000000)) (lg (tv_nsec t - Z.rem us 1000000 * 1000)) in
  if tv_nsec t <? 0 then mkTs (lg (tv_sec t - 1)) (lg (tv_nsec t + 1000000000)) else t.

Definition tst_timespec_diff (t1 t2 : timespec) : timespec :=
  let sec := lg (tv_sec t1 - tv_sec t2) in
  if tv_nsec t1 <? tv_nsec t2
  then mkTs (lg (sec - 1)) (lg (1000000000 - lg (tv_nsec t2 - tv_nsec t1)))
  else mkTs sec (lg (tv_nsec t1 - tv_nsec t2)).

Definition tst_timespec_diff_ns (t1 t2 : timespec) : Z :=
  s64 (lg (tv_nsec t1 - tv_nsec t2) + s64 (1000000000 * lg (tv_sec t1 - tv_sec t2))).
Definition tst_timespec_diff_us (t1 t2 : timespec) : Z := tst_timespec_to_us (tst_timespec_diff t1 t2).
Definition tst_timespec_diff_ms (t1 t2 : timespec) : Z := tst_timespec_to_ms (tst_timespec_diff t1 t2).

Definition tst_timeval_diff (t1 t2 : timeval) : timeval :=
  let sec := lg (tvl_sec t1 - tvl_sec t2) in
  if tv_usec t1 <? tv_usec t2
  then mkTv (lg (sec - 1)) (lg (1000000 - lg (tv_usec t2 - tv_usec t1)))
  else mkTv sec (lg (tv_usec t1 - tv_usec t2)).

Definition tst_timeval_diff_us (t1 t2 : timeval) : Z := tst_timeval_to_us (tst_timeval_diff t1 t2).
Definition tst_timeval_diff_ms (t1 t2 : timeval) : Z := tst_timeval_to_ms (tst_timeval_diff t1 t2).

Definition tst_timespec_abs_diff (t1 t2 : timespec) : timespec :=
  if tst_timespec_lt t1 t2 then tst_timespec_diff t2 t1 else tst_timespec_diff t1 t2.

Definition tst_timespec_abs_diff_us (t1 t2 : timespec) : Z := tst_timespec_to_us (tst_timespec_abs_diff t1 t2).
Definition tst_timespec_abs_diff_ms (t1 t2 : timespec) : Z := tst_timespec_to_ms (tst_timespec_abs_diff t1 t2).

(** ** Measuring *)

Record timer := mkTimer { start_time : timespec; stop_time : timespec; clock_id : Z }.

(** [tst_clock_gettime] answers a time, or fails with an error number and leaves the
    variable as it is.  The functions report the types of results they return. *)
Definition clock_answer : Type := timespec + Z.

Definition read_clock (old : timespec) (now : clock_answer) : timespec * list Z :=
  match now with inl t => (t, []) | inr _ => (old, [Z.lor TWARN TERRNO]) end.

(** The type of the result that ends the test, if it does. *)
Definition tst_timer_check (now : clock_answer) (t : timer) : timer + Z :=
  match now with
  | inl s => inl (mkTimer s (stop_time t) (clock_id t))
  | inr e => inr (if e =? EINVAL then TCONF else Z.lor TBROK TERRNO)
  end.

Definition tst_timer_start (clk_id : Z) (now : clock_answer) (t : timer) : timer * list Z :=
  let '(s, res) := read_clock (start_time t) now in (mkTimer s (stop_time t) clk_id, res).
Definition tst_timer_stop (now : clock_answer) (t : timer) : timer * list Z :=
  let '(s, res) := read_clock (stop_time t) now in (mkTimer (start_time t) s (clock_id t), res).

(** [cur] is what the variable of the time now holds before it is set. *)
Definition tst_timer_expired_ms (cur : timespec) (now : clock_answer) (t : timer) (ms : Z) : bool * list Z :=
  let '(c, res) := read_clock cur now in (ms <=? tst_timespec_diff_ms c (start_time t), res).

Definition tst_timer_elapsed (t : timer) : timespec := tst_timespec_diff (stop_time t) (start_time t).
Definition tst_timer_elapsed_ms (t : timer) : Z := tst_timespec_to_ms (tst_timer_elapsed t).
Definition tst_timer_elapsed_us (t : timer) : Z := tst_timespec_to_us (tst_timer_elapsed t).

(** ** The wall clock *)

Record wallclock := mkWall { real_begin : timespec; mono_begin : timespec; clock_saved : bool }.

(** The new state, or the type of the result that ends the test.  A clock answers a
    time or an error number. *)
Definition tst_wallclock_save (real mono : timespec + Z) (c : wallclock) : wallclock + Z :=
  match real with
  | inr _ => inr (Z.lor TBROK TERRNO)
  | inl r =>
      match mono with
      | inr e => inr (if e =? EINVAL then Z.lor TCONF TERRNO else Z.lor TBROK TERRNO)
      | inl m => inl (mkWall r m true)
      end
  end.

(** What the clock is set to, if it is. *)
Definition tst_wallclock_restore (mono : timespec + Z) (settime_ok : bool) (c : wallclock) : (wallclock * option timespec) + Z :=
  if negb (clock_saved c) then inl (c, None)
  else
    match mono with
    | inr _ => inr (Z.lor TBROK TERRNO)
    | inl mono_end =>
        let elapsed := tst_timespec_diff mono_end (mono_begin c) in
        let adjust := tst_timespec_add (real_begin c) elapsed in
        if settime_ok then inl (mkWall (real_begin c) (mono_begin c) false, Some adjust) else inr (Z.lor TBROK TERRNO)
    end.
End Times.

(** ** The timer test *)

(** [qsort] with the function [cmp]. *)
Definition cmp (a b : Z) : Z := s32 (b - a).

Fixpoint sort_in (x : Z) (l : list Z) : list Z :=
  match l with
  | [] => [x]
  | y :: l => if cmp x y <=? 0 then x :: y :: l else y :: sort_in x l
  end.

Definition qsort (l : list Z) : list Z := foldr sort_in [] l.

Record ttest := mkTtest {
  monotonic_resolution : Z;
  timerslack : Z;
  file_name : option (bool * bool)   (* the file can be opened; it can be closed *)
}.

Definition compute_threshold (t : ttest) (requested_us nsamples : Z) : Z :=
  let slack := u32 (Z.min 100000 (Z.quot requested_us 1000)) in
  let slack := Z.max slack (timerslack t) in
  u32 (u32 (u32 (u32 (400 + u32 (2 * monotonic_resolution t)) + slack) * nsamples) + 3000 / nsamples).

Definition compute_discard (nsamples : Z) : Z := if nsamples =? 1 then 0 else Z.max 1 (nsamples / 20).

(** The messages; the numbers that are printed as [double] are given as the
    integers they come from. *)
Inductive tmsg :=
| Sleeping (usec nsamples threshold : Z)
| SampleFailed
| Written (samples : list Z)
| FileFailed
| Outliners (n hi lo : Z)
| WokenEarly (n hi lo : Z)
| Stats (min max median trunc_mean discard : Z)
| TooLong
| WithinThresholds.

Definition write_to_file (t : ttest) (samples : list Z) : list tmsg :=
  match file_name t with
  | None => []
  | Some (false, _) => [FileFailed]
  | Some (true, closes) => Written samples :: (if closes then [] else [FileFailed])
  end.

(** [samples[i]]: undefined outside the array. *)
Definition get (arr : list Z) (i : Z) : option Z := if i <? 0 then None else arr !! Z.to_nat i.

Fixpoint outliner_loop (fuel : nat) (t : ttest) (arr : list Z) (usec n i : Z) : option Z :=
  match fuel with
  | O => None
  | S f =>
      v ← get arr i;
      if (10 * usec <? v) && (i <? n) then
        if v <=? u32 (3 * monotonic_resolution t) then Some i else outliner_loop f t arr usec n (i + 1)
      else Some i
  end.

Fixpoint early_loop (fuel : nat) (arr : list Z) (usec i : Z) : option Z :=
  match fuel with
  | O => None
  | S f =>
      v ← get arr i;
      if (v <? usec) && (-1 <? i) then early_loop f arr usec (i - 1) else Some i
  end.

(** [values] are what the calls of [sample] record, [None] when one fails; [old] is
    the rest of the array. *)
Definition do_timer_test (t : ttest) (usec nsamples : Z) (values : list (option Z)) (old : list Z) : option (list tmsg) :=
  let discard := compute_discard nsamples in
  let keep_samples := nsamples - discard in
  let threshold := compute_threshold t usec keep_samples in
  let first := [Sleeping usec nsamples threshold] in
  match mapM id values with
  | None => Some (first ++ [SampleFailed])
  | Some vs =>
      let sorted := qsort vs in
      let arr := sorted ++ old in
      let file := write_to_file t sorted in
      i ← outliner_loop (S (S (Z.to_nat nsamples))) t arr usec nsamples 0;
      outliners ← (if 0 <? i then a ← get arr 0; b ← get arr (i - 1); Some [Outliners i a b] else Some []);
      j ← early_loop (S (Z.to_nat nsamples)) arr usec (nsamples - 1);
      early ← (if j <? nsamples - 1
               then a ← get arr (j + 1); b ← get arr (nsamples - 1); Some [WokenEarly (u32 (nsamples - 1 - j)) a b] else Some []);
      median ← get arr (nsamples / 2);
      min ← get arr (nsamples - 1);
      max ← get arr 0;
      let trunc_mean := foldr Z.add 0 (drop (Z.to_nat discard) sorted) in
      let long := keep_samples * usec + threshold <? trunc_mean in
      let failed := (j <? nsamples - 1) || long in
      Some (first ++ file ++ outliners ++ early ++ [Stats min max median trunc_mean discard] ++
            (if long then [TooLong] else []) ++ (if failed then [] else [WithinThresholds]))
  end.

(** ** Exact times *)

Definition normal (t : timespec) : Prop := 0 <= tv_nsec t < 1000000000.
Definition ns (t : timespec) : Z := tv_sec t * 1000000000 + tv_nsec t.

(** Seconds of which sums and differences fit in a [long]. *)
Definition near (w : Z) (t : timespec) : Prop := - 2 ^ (w - 2) < tv_sec t < 2 ^ (w - 2) - 1.

Section Exact.
Variable w : Z.
Hypothesis long_32 : 32 <= w.

Lemma lg_id z : - 2 ^ (w - 1) <= z < 2 ^ (w - 1) -> lg w z = z.
Proof.
  intros Hz. unfold lg, swrap. replace (2 ^ w) with (2 * 2 ^ (w - 1)) by (rewrite <- Z.pow_succ_r by lia; f_equal; lia).
  rewrite Z.mod_small; lia.
Qed.

Lemma half_range : 2 ^ (w - 1) = 2 * 2 ^ (w - 2) /\ 2147483648 <= 2 ^ (w - 1).
Proof.
  split; [rewrite <- Z.pow_succ_r by lia; f_equal; lia|]. change 2147483648 with (2 ^ 31). apply Z.pow_le_mono_r; lia.
Qed.

(** Drops the wrapping of sums that are in range, the innermost first. *)
Ltac unlong :=
  repeat match goal with
  | |- context [lg w ?z] => lazymatch z with context [lg] => fail | _ => rewrite (lg_id z) by lia end
  end.

Lemma add_exact t1 t2 : normal t1 -> normal t2 -> near w t1 -> near w t2 ->
  normal (tst_timespec_add w t1 t2) /\ ns (tst_timespec_add w t1 t2) = ns t1 + ns t2.
Proof.
  intros N1 N2 B1 B2. pose proof half_range as [H1 H2]. unfold normal, near, ns in *. unfold tst_timespec_add, carry. cbn [tv_sec tv_nsec].
  unlong. destruct (Z.leb_spec 1000000000 (tv_nsec t1 + tv_nsec t2)); cbn [tv_sec tv_nsec]; unlong; lia.
Qed.

Lemma diff_exact t1 t2 : normal t1 -> normal t2 -> near w t1 -> near w t2 ->
  normal (tst_timespec_diff w t1 t2) /\ ns (tst_timespec_diff w t1 t2) = ns t1 - ns t2.
Proof.
  intros N1 N2 B1 B2. pose proof half_range as [H1 H2]. unfold normal, near, ns in *. unfold tst_timespec_diff.
  destruct (Z.ltb_spec (tv_nsec t1) (tv_nsec t2)); cbn [tv_sec tv_nsec]; unlong; lia.
Qed.

Lemma lt_exact t1 t2 : normal t1 -> normal t2 -> tst_timespec_lt t1 t2 = true <-> ns t1 < ns t2.
Proof.
  unfold normal, ns, tst_timespec_lt. intros N1 N2. destruct (Z.eqb_spec (tv_sec t1) (tv_sec t2)); lia.
Qed.

Lemma us_exact t us : normal t -> near w t -> 0 <= us < 2 ^ (w - 2) ->
  (normal (tst_timespec_add_us w t us) /\ ns (tst_timespec_add_us w t us) = ns t + 1000 * us) /\
  (normal (tst_timespec_sub_us w t us) /\ ns (tst_timespec_sub_us w t us) = ns t - 1000 * us).
Proof.
  intros N B Hu. pose proof half_range as [H1 H2]. unfold normal, near, ns in *. unfold tst_timespec_add_us, tst_timespec_sub_us, carry. cbn [tv_sec tv_nsec].
  rewrite Z.quot_div_nonneg, Z.rem_mod_nonneg by lia. pose proof (Z.div_mod us 1000000 ltac:(lia)). pose proof (Z.mod_pos_bound us 1000000 ltac:(lia)).
  split; unlong; [destruct (Z.leb_spec 1000000000 (tv_nsec t + us mod 1000000 * 1000))|destruct (Z.ltb_spec (tv_nsec t - us mod 1000000 * 1000) 0)];
    cbn [tv_sec tv_nsec]; unlong; lia.
Qed.
End Exact.

(** Sums, differences and comparisons of times are exact, and their results have
    less than a second of nanoseconds again. *)
Theorem timespec_exact w t1 t2 us :
  32 <= w -> normal t1 -> normal t2 -> near w t1 -> near w t2 -> 0 <= us < 2 ^ (w - 2) ->
  (normal (tst_timespec_add w t1 t2) /\ ns (tst_timespec_add w t1 t2) = ns t1 + ns t2) /\
  (normal (tst_timespec_diff w t1 t2) /\ ns (tst_timespec_diff w t1 t2) = ns t1 - ns t2) /\
  (normal (tst_timespec_abs_diff w t1 t2) /\ ns (tst_timespec_abs_diff w t1 t2) = Z.abs (ns t1 - ns t2)) /\
  (normal (tst_timespec_add_us w t1 us) /\ ns (tst_timespec_add_us w t1 us) = ns t1 + 1000 * us) /\
  (normal (tst_timespec_sub_us w t1 us) /\ ns (tst_timespec_sub_us w t1 us) = ns t1 - 1000 * us) /\
  (tst_timespec_lt t1 t2 = true <-> ns t1 < ns t2).
Proof.
  intros Hw N1 N2 B1 B2 Hu. destruct (us_exact w Hw t1 us N1 B1 Hu) as [U1 U2]. pose proof (lt_exact t1 t2 N1 N2) as Hlt.
  pose proof (diff_exact w Hw t1 t2 N1 N2 B1 B2) as [D1 D2]. pose proof (diff_exact w Hw t2 t1 N2 N1 B2 B1) as [D3 D4].
  split; [now apply add_exact|]. split; [done|]. split; [|tauto]. unfold tst_timespec_abs_diff.
  destruct (tst_timespec_lt t1 t2); split; try done; [assert (ns t1 < ns t2) by tauto|assert (~ ns t1 < ns t2) by intuition congruence]; lia.
Qed.

Lemma timespec_exact_witness :
  let t1 := mkTs 5 999999999 in let t2 := mkTs 7 2 in
  (normal (tst_timespec_add 32 t1 t2) /\ ns (tst_timespec_add 32 t1 t2) = ns t1 + ns t2) /\
  (normal (tst_timespec_diff 32 t1 t2) /\ ns (tst_timespec_diff 32 t1 t2) = ns t1 - ns t2) /\
  (normal (tst_timespec_abs_diff 32 t1 t2) /\ ns (tst_timespec_abs_diff 32 t1 t2) = Z.abs (ns t1 - ns t2)) /\
  (normal (tst_timespec_add_us 32 t1 1500000) /\ ns (tst_timespec_add_us 32 t1 1500000) = ns t1 + 1000 * 1500000) /\
  (normal (tst_timespec_sub_us 32 t1 1500000) /\ ns (tst_timespec_sub_us 32 t1 1500000) = ns t1 - 1000 * 1500000) /\
  (tst_timespec_lt t1 t2 = true <-> ns t1 < ns t2).
Proof. apply (timespec_exact 32 (mkTs 5 999999999) (mkTs 7 2) 1500000); unfold normal, near; cbn; lia. Defined.

(** The wall clock is set to the time it would show had nobody changed it. *)
Lemma wallclock_restores w c0 real mono mono_end :
  32 <= w -> normal real -> normal mono -> normal mono_end -> near w real -> near w mono -> near w mono_end ->
  near w (tst_timespec_diff w mono_end mono) ->
  exists c c' t, tst_wallclock_save (inl real) (inl mono) c0 = inl c /\
    tst_wallclock_restore w (inl mono_end) true c = inl (c', Some t) /\ normal t /\ ns t = ns real + (ns mono_end - ns mono) /\
    tst_wallclock_restore w (inl mono_end) true c' = inl (c', None).
Proof.
  intros Hw N1 N2 N3 B1 B2 B3 B4. do 3 eexists. split; [reflexivity|]. split; [reflexivity|].
  destruct (diff_exact w Hw mono_end mono N3 N2 B3 B2) as [D1 D2]. cbn [real_begin mono_begin].
  destruct (add_exact w Hw real (tst_timespec_diff w mono_end mono) N1 D1 B1 B4) as [A1 A2]. split; [done|]. split; [|done]. rewrite A2, D2. done.
Qed.

(** On a machine with a [long] of 32 bits three seconds are too long to be told in
    nanoseconds, and 2148 seconds in microseconds. *)
Lemma long_times_overflow : tst_timespec_to_ns 32 (mkTs 3 0) = -1294967296 /\ tst_timespec_to_us 32 (mkTs 2148 0) = -2146967296.
Proof. split; reflexivity. Qed.

(** ** The verdict of the timer test *)

Abbreviation desc := (StronglySorted (fun x y => y <= x)).
Abbreviation sample_range := (fun v => 0 <= v < 2147483648).

Lemma cmp_le x y : 0 <= x < 2147483648 -> 0 <= y < 2147483648 -> (cmp x y <=? 0) = (y <=? x).
Proof. intros Hx Hy. unfold cmp. rewrite s32_small by (unfold INT_MIN, INT_MAX; lia). lia. Qed.

Lemma sort_in_perm x l : sort_in x l ≡ₚ x :: l.
Proof. induction l as [|y l IH]; cbn; [done|]. case_match; [done|]. rewrite IH. constructor. Qed.

Lemma qsort_perm l : qsort l ≡ₚ l.
Proof. induction l as [|x l IH]; cbn; [done|]. now rewrite sort_in_perm, IH. Qed.

Lemma sort_in_desc x l : sample_range x -> Forall sample_range l -> desc l -> desc (sort_in x l).
Proof.
  intros Hx Hl. induction l as [|y l IH]; intros Hd; cbn; [repeat constructor|].
  inversion_clear Hl as [|? ? Hy Hl']. inversion_clear Hd as [|? ? Hd' Hall]. rewrite cmp_le by done.
  destruct (Z.leb_spec y x) as [Hle|Hgt].
  - repeat constructor; try done. eapply Forall_impl; [|exact Hall]. cbn. lia.
  - constructor; [now apply IH|]. rewrite sort_in_perm. constructor; [lia|done].
Qed.

Lemma qsort_desc l : Forall sample_range l -> desc (qsort l).
Proof.
  induction l as [|x l IH]; intros Hl; cbn; [constructor|]. inversion_clear Hl as [|? ? Hx Hl'].
  apply sort_in_desc; [done| |now apply IH]. now rewrite qsort_perm.
Qed.

(** A descending list is the samples that are long enough, then the short ones. *)
Lemma desc_split usec l : desc l ->
  exists hi lo, l = hi ++ lo /\ Forall (fun v => usec <= v) hi /\ Forall (fun v => v < usec) lo.
Proof.
  induction l as [|x l IH]; intros Hd; [now exists [], []|]. inversion_clear Hd as [|? ? Hd' Hall].
  destruct (Z.leb_spec usec x) as [Hle|Hgt].
  - destruct (IH Hd') as (hi & lo & -> & Hhi & Hlo). exists (x :: hi), lo. repeat split; try done. now constructor.
  - exists [], (x :: l). repeat split; [constructor|]. constructor; [done|]. eapply Forall_impl; [|exact Hall]. cbn. lia.
Qed.

Lemma desc_drop n l : desc l -> Forall (fun b => Forall (fun k => k <= b) (drop n l)) (take n l).
Proof.
  revert n. induction l as [|x l IH]; intros [|n] Hd; cbn; try constructor; inversion_clear Hd as [|? ? Hd' Hall].
  - now apply Forall_drop.
  - now apply IH.
Qed.

Lemma get_nat arr (n : nat) : get arr (Z.of_nat n) = arr !! n.
Proof. unfold get. destruct (Z.ltb_spec (Z.of_nat n) 0); [lia|]. now rewrite Nat2Z.id. Qed.

Lemma get_some arr i : 0 <= i < Z.of_nat (length arr) -> exists v, get arr i = Some v.
Proof.
  intros Hi. rewrite <- (Z2Nat.id i), get_nat by lia. apply lookup_lt_is_Some_2. lia.
Qed.

(** The scan from the end stops before the short samples. *)
Lemma early_loop_stops usec hi lo rest fuel :
  hi <> [] -> Forall (fun v => usec <= v) hi -> Forall (fun v => v < usec) lo -> (length lo < fuel)%nat ->
  early_loop fuel (hi ++ lo ++ rest) usec (Z.of_nat (length hi + length lo) - 1) = Some (Z.of_nat (length hi) - 1).
Proof.
  intros Hne Hhi. revert rest fuel. induction lo as [|x lo IH] using rev_ind; intros rest [|fuel] Hlo Hf; try lia.
  - destruct hi as [|h hi' _] using rev_ind; [done|]. apply Forall_app in Hhi as [_ Hh]. inversion_clear Hh as [|? ? Hh' _].
    cbn [early_loop]. replace (_ - 1) with (Z.of_nat (length hi')) by (rewrite length_app; cbn; lia).
    rewrite get_nat, <- app_assoc. cbn [app]. rewrite list_lookup_middle by done. cbn.
    destruct (Z.ltb_spec h usec); [lia|]. cbn. f_equal. rewrite length_app. cbn. lia.
  - apply Forall_app in Hlo as [Hlo Hx]. inversion_clear Hx as [|? ? Hx' _]. rewrite length_app in Hf |- *. cbn [length] in *.
    cbn [early_loop]. replace (_ - 1) with (Z.of_nat (length hi + length lo)) by lia.
    rewrite get_nat, <- (app_assoc lo), (app_assoc hi). cbn [app]. rewrite list_lookup_middle by (rewrite length_app; lia). cbn -[Z.of_nat].
    destruct (Z.ltb_spec x usec); [|lia]. destruct (Z.ltb_spec (-1) (Z.of_nat (length hi + length lo))); [|lia]. cbn -[Z.of_nat].
    rewrite <- app_assoc. cbn. apply (IH (x :: rest)); [done|lia].
Qed.

(** The scan from the front stops in the array. *)
Lemma outliner_loop_stops t arr usec n (k i fuel : nat) v :
  (i <= k)%nat -> Z.of_nat k <= n -> arr !! k = Some v -> v <= 10 * usec \/ Z.of_nat k = n -> (k - i < fuel)%nat ->
  exists j : nat, outliner_loop fuel t arr usec n (Z.of_nat i) = Some (Z.of_nat j) /\ (i <= j <= k)%nat.
Proof.
  intros Hik Hkn Hk Hstop. revert i Hik. induction fuel as [|fuel IH]; intros i Hik Hf; [lia|]. cbn [outliner_loop].
  destruct (lookup_lt_is_Some_2 arr i) as [x Hx]; [apply lookup_lt_Some in Hk; lia|]. rewrite get_nat, Hx. cbn -[Z.of_nat].
  destruct (Z.ltb_spec (10 * usec) x), (Z.ltb_spec (Z.of_nat i) n); cbn -[Z.of_nat]; try (exists i; split; [done|lia]).
  case_match; [exists i; split; [done|lia]|]. destruct (decide (i = k)) as [->|Hne]; [simplify_eq; lia|].
  destruct (IH (S i)) as (j & Hj & ?); [lia|lia|]. exists j. split; [|lia]. rewrite <- Hj. f_equal. lia.
Qed.

Lemma compute_discard_bound n : 1 <= n -> 0 <= compute_discard n <= n.
Proof.
  intros Hn. unfold compute_discard. destruct (Z.eqb_spec n 1); [lia|].
  pose proof (Z.div_le_upper_bound n 20 n ltac:(lia) ltac:(lia)). lia.
Qed.

(** The results that the messages report. *)
Definition verdicts (m : list tmsg) : list Z :=
  m ≫= (fun x => match x with WokenEarly _ _ _ | TooLong => [TFAIL] | WithinThresholds => [TPASS] | _ => [] end).

Lemma mapM_Some {A} (l : list A) : mapM id (map Some l) = Some l.
Proof. induction l as [|x l IH]; cbn; [done|]. now rewrite IH. Qed.

Lemma Exists_perm {A} (P : A -> Prop) l k : l ≡ₚ k -> List.Exists P l -> List.Exists P k.
Proof. intros Hp. rewrite !List.Exists_exists. intros (x & Hx & HP). exists x. split; [|done]. revert Hx. rewrite <- !list_elem_of_In. now rewrite Hp. Qed.

Lemma existsb_split usec l hi lo :
  l ≡ₚ hi ++ lo -> Forall (fun v => usec <= v) hi -> Forall (fun v => v < usec) lo ->
  existsb (fun v => v <? usec) l = (Z.of_nat (length hi) - 1 <? Z.of_nat (length l) - 1).
Proof.
  intros Hp Hhi Hlo. rewrite (Permutation_length Hp), length_app. apply eq_true_iff_eq. rewrite existsb_exists. split.
  - intros (x & Hx & Hlt). apply list_elem_of_In in Hx. rewrite Hp, elem_of_app in Hx. destruct Hx as [Hx|Hx].
    + rewrite List.Forall_forall in Hhi. specialize (Hhi x (proj1 (list_elem_of_In _ _) Hx)). cbn in *. lia.
    + destruct lo; [now inversion Hx|]. cbn [length] in *. apply Z.ltb_lt. lia.
  - intros Hlt%Z.ltb_lt. destruct lo as [|x lo]; [cbn in Hlt; lia|]. exists x. inversion_clear Hlo. split; [|lia].
    apply list_elem_of_In. rewrite Hp. apply elem_of_app. right. left.
Qed.

Lemma length_qsort l : length (qsort l) = length l.
Proof. now rewrite qsort_perm. Qed.

Lemma outliners_found t usec vs old :
  old <> [] \/ List.Exists (fun v => v <= 10 * usec) vs ->
  exists j : nat, (j <= length vs)%nat /\
    outliner_loop (S (S (length vs))) t (qsort vs ++ old) usec (Z.of_nat (length vs)) 0 = Some (Z.of_nat j).
Proof.
  intros Hstop. assert (exists k v, (k <= length vs)%nat /\ (qsort vs ++ old) !! k = Some v /\ (v <= 10 * usec \/ k = length vs)) as (k & v & Hk & Hv & Hor).
  { destruct Hstop as [Hold|Hsmall].
    - destruct old as [|o old]; [done|]. exists (length vs), o. rewrite list_lookup_middle by now rewrite length_qsort. auto.
    - apply (Exists_perm _ _ _ (symmetry (qsort_perm vs))), List.Exists_exists in Hsmall as (x & Hx & Hle).
      apply list_elem_of_In, list_elem_of_lookup in Hx as [k Hk]. exists k, x. pose proof (lookup_lt_Some _ _ _ Hk) as Hlt.
      rewrite length_qsort in Hlt. split; [lia|]. split; [|auto]. rewrite lookup_app_l by (rewrite length_qsort; lia). done. }
  destruct (outliner_loop_stops t (qsort vs ++ old) usec (Z.of_nat (length vs)) k 0 (S (S (length vs))) v) as (j & Hj & ?); try lia; [done|].
  exists j. split; [lia|exact Hj].
Qed.

Lemma early_found usec vs old :
  Forall sample_range vs -> List.Exists (fun v => usec <= v) vs ->
  let n := Z.of_nat (length vs) in
  exists j, early_loop (S (length vs)) (qsort vs ++ old) usec (n - 1) = Some j /\ 0 <= j < n /\
    (j <? n - 1) = existsb (fun v => v <? usec) vs.
Proof.
  intros Hr Hex n. pose proof (qsort_perm vs) as Hp.
  destruct (desc_split usec (qsort vs) (qsort_desc vs Hr)) as (hi & lo & Hs & Hhi & Hlo).
  assert (hi <> []) as Hne.
  { intros ->. apply (Exists_perm _ _ _ (symmetry Hp)), List.Exists_exists in Hex as (x & Hx & Hle). rewrite Hs in Hx. cbn in Hx.
    rewrite List.Forall_forall in Hlo. specialize (Hlo x Hx). lia. }
  assert (length vs = (length hi + length lo)%nat) as Hl by now rewrite <- length_qsort, Hs, length_app.
  assert (1 <= length hi)%nat by (destruct hi; [done|cbn; lia]).
  exists (Z.of_nat (length hi) - 1). split; [|split; [lia|]].
  - unfold n. rewrite Hl, Hs, <- app_assoc. apply early_loop_stops; try done. lia.
  - symmetry. apply existsb_split with lo; try done. now rewrite <- Hs, Hp.
Qed.

Lemma verdicts_app a b : verdicts (a ++ b) = verdicts a ++ verdicts b.
Proof. apply bind_app. Qed.

Lemma verdicts_file t l : verdicts (write_to_file t l) = [].
Proof. unfold write_to_file. destruct (file_name t) as [[[] []]|]; reflexivity. Qed.

(** The messages with the samples in their sorted order. *)
Lemma do_timer_test_runs t usec vs old :
  vs <> [] -> Forall sample_range vs -> List.Exists (fun v => usec <= v) vs ->
  old <> [] \/ List.Exists (fun v => v <= 10 * usec) vs ->
  let n := Z.of_nat (length vs) in
  let keep := n - compute_discard n in
  let early := existsb (fun v => v <? usec) vs in
  let long := keep * usec + compute_threshold t usec keep <? foldr Z.add 0 (drop (Z.to_nat (compute_discard n)) (qsort vs)) in
  exists msgs, do_timer_test t usec n (map Some vs) old = Some msgs /\
    verdicts msgs = (if early then [TFAIL] else []) ++ (if long then [TFAIL] else []) ++ (if early || long then [] else [TPASS]).
Proof.
  intros Hne Hr Hex Hstop n keep early long. assert (Hn : 1 <= n) by (destruct vs; [done|unfold n; cbn [length]; lia]).
  destruct (outliners_found t usec vs old Hstop) as (i & Hi & Hout). destruct (early_found usec vs old Hr Hex) as (j & Hel & Hj & Hearly).
  fold n in Hout, Hel, Hj, Hearly. fold early in Hearly. assert (Hnat : Z.to_nat n = length vs) by (unfold n; lia).
  assert (Hget : forall k, 0 <= k < n -> exists v, get (qsort vs ++ old) k = Some v).
  { intros k Hk. apply get_some. rewrite length_app, length_qsort. lia. }
  destruct (Hget 0 ltac:(lia)) as [v0 H0]. destruct (Hget (n - 1) ltac:(lia)) as [v1 H1].
  destruct (Hget (n / 2) ltac:(split; [apply Z.div_pos; lia|apply Z.div_lt; lia])) as [v2 H2].
  assert (Ho : exists o, (if 0 <? Z.of_nat i then a ← get (qsort vs ++ old) 0; b ← get (qsort vs ++ old) (Z.of_nat i - 1); Some [Outliners (Z.of_nat i) a b] else Some [])
     = Some o /\ verdicts o = []).
  { destruct (Z.ltb_spec 0 (Z.of_nat i)); [|now eexists]. destruct (Hget (Z.of_nat i - 1) ltac:(unfold n; lia)) as [b Hb]. rewrite H0, Hb. now eexists. }
  assert (He : exists o, (if j <? n - 1 then a ← get (qsort vs ++ old) (j + 1); b ← get (qsort vs ++ old) (n - 1); Some [WokenEarly (u32 (n - 1 - j)) a b] else Some [])
     = Some o /\ verdicts o = if early then [TFAIL] else []).
  { rewrite <- Hearly. destruct (Z.ltb_spec j (n - 1)); [|now eexists]. destruct (Hget (j + 1) ltac:(lia)) as [b Hb]. rewrite H1, Hb. now eexists. }
  destruct Ho as (o & Ho & Hov), He as (e & He & Hev). unfold do_timer_test. rewrite mapM_Some, Hnat, Hout. fold keep. cbn [mbind option_bind].
  rewrite Ho. cbn [mbind option_bind]. rewrite Hel. cbn [mbind option_bind]. rewrite He. cbn [mbind option_bind]. rewrite H2, H1, H0. cbn [mbind option_bind].
  eexists. split; [reflexivity|]. fold long. rewrite Hearly, !verdicts_app, Hov, Hev, verdicts_file. destruct early, long; reflexivity.
Qed.

(** The timer test runs to its verdict and the verdict is right: a failure for
    samples that are shorter than the time asked for, a failure when the samples that
    are left after the longest ones are dropped are together longer than the time
    asked for and the threshold, and a pass when there is neither. *)
Theorem timer_test_verdict t usec vs old :
  vs <> [] -> Forall sample_range vs -> List.Exists (fun v => usec <= v) vs ->
  old <> [] \/ List.Exists (fun v => v <= 10 * usec) vs ->
  let n := Z.of_nat (length vs) in
  let keep := n - compute_discard n in
  exists msgs dropped kept,
    do_timer_test t usec n (map Some vs) old = Some msgs /\
    vs ≡ₚ dropped ++ kept /\ Z.of_nat (length kept) = keep /\ Forall (fun d => Forall (fun k => k <= d) kept) dropped /\
    let early := existsb (fun v => v <? usec) vs in
    let long := keep * usec + compute_threshold t usec keep <? foldr Z.add 0 kept in
    verdicts msgs = (if early then [TFAIL] else []) ++ (if long then [TFAIL] else []) ++ (if early || long then [] else [TPASS]).
Proof.
  intros Hne Hr Hex Hstop n keep. destruct (do_timer_test_runs t usec vs old Hne Hr Hex Hstop) as (msgs & Hrun & Hv).
  pose proof (compute_discard_bound n ltac:(destruct vs; [done|unfold n; cbn [length]; lia])).
  exists msgs, (take (Z.to_nat (compute_discard n)) (qsort vs)), (drop (Z.to_nat (compute_discard n)) (qsort vs)).
  split; [exact Hrun|]. split; [now rewrite take_drop, qsort_perm|]. split; [rewrite length_drop, length_qsort; lia|].
  split; [now apply desc_drop, qsort_desc|exact Hv].
Qed.

Lemma timer_test_verdict_witness :
  let vs := [1010; 1020; 990; 1005] in
  let t := mkTtest 1 50 None in
  let n := Z.of_nat (length vs) in
  let keep := n - compute_discard n in
  exists msgs dropped kept,
    do_timer_test t 1000 n (map Some vs) [] = Some msgs /\
    vs ≡ₚ dropped ++ kept /\ Z.of_nat (length kept) = keep /\ Forall (fun d => Forall (fun k => k <= d) kept) dropped /\
    let early := existsb (fun v => v <? 1000) vs in
    let long := keep * 1000 + compute_threshold t 1000 keep <? foldr Z.add 0 kept in
    verdicts msgs = (if early then [TFAIL] else []) ++ (if long then [TFAIL] else []) ++ (if early || long then [] else [TPASS]).
Proof.
  apply (timer_test_verdict (mkTtest 1 50 None) 1000 [1010; 1020; 990; 1005] []).
  - done.
  - repeat constructor; lia.
  - constructor. lia.
  - right. constructor. lia.
Defined.

(** When no sample is long enough, or none short enough to stop the scan for outliners
    in a full array, the code reads an element outside the array. *)
Lemma samples_read_outside :
  do_timer_test (mkTtest 1 50 None) 1000 2 [Some 500; Some 600] [0] = None /\
  do_timer_test (mkTtest 1 50 None) 10 2 [Some 500; Some 600] [] = None.
Proof. split; reflexivity. Qed.
