(* ===== verification/PanSym.v ===== *)
(** pan/symbol.c: a hierarchical symbol table, with keys like "a,b,c".

    The tables are linked lists in a heap of blocks, as in the C code; [malloc] is a
    parameter.  A block of the caller is a text; whether it passes for a table is decided
    by its first four bytes, which the code compares with its magic number (a text of
    less than four characters has a NUL there, which the number has not). *)
From Stdlib Require Import Ascii String ZArith Lia Bool.
From stdpp Require Import base list sets numbers gmap.
From S2P Require Import Prelude CString Splitstr Effects.

Local Open Scope Z_scope.

(** ** Data *)

(** The bytes of SYM_MAGIC, the lowest first. *)
Definition SYM_MAGIC : cstr := ["222"; "192"; "173"; "011"]%char.
Definition PUT_REPLACE : Z := 1.
Definition RM_KEY : Z := 1.
Definition RM_DATA : Z := 2.
Definition R_CURSOR : Z := 1.
Definition R_FIRST : Z := 2.
Definition R_NEXT : Z := 4.

Definition EINVAL : Z := 22.
Definition EEXIST : Z := 17.
Definition ENOTDIR : Z := 20.

Definition loc : Type := positive.
Definition ptr : Type := option loc.

(** Blocks: [struct symh] (with its magic number), [struct sym], the copy of a key,
    and a block of the caller. *)
Inductive block :=
| Symh (sym cursor : ptr)
| Sym (next : ptr) (key : loc) (data : ptr)
| Str (s : cstr)
| Data (text : cstr).

Abbreviation heap := (gmap loc block).

(** [malloc] answers a block or NULL; [splits] and [nkey_ok] are the allocations of
    [splitstr] and of the copy [nkey], which live for the call only. *)
Record menv := mkMenv { malloc : heap -> option loc; splits : alloc; nkey_ok : bool }.

Abbreviation H := (E heap).

Section Symbol.
Variable e : menv.

(** ** Memory *)

Definition alloc_block (b : block) : H ptr := fun h =>
  match malloc e h with
  | None => Done None h
  | Some l => Done (Some l) (<[l := b]> h)
  end.

(** [free]: undefined for what is not allocated. *)
Definition free (p : ptr) : H unit := fun h =>
  match p with
  | None => Done tt h
  | Some l => match h !! l with Some _ => Done tt (delete l h) | None => Undefined end
  end.

Definition load_symh (p : ptr) : H (ptr * ptr) := fun h =>
  match p ≫= (fun l => h !! l) with Some (Symh s c) => Done (s, c) h | _ => Undefined end.

Definition load_sym (l : loc) : H (ptr * loc * ptr) := fun h =>
  match h !! l with Some (Sym n k d) => Done (n, k, d) h | _ => Undefined end.

Definition load_str (l : loc) : H cstr := fun h =>
  match h !! l with Some (Str s) => Done s h | _ => Undefined end.

(** [((SYM)p)->magic == SYM_MAGIC]. *)
Definition has_magic (l : loc) : H bool := fun h =>
  match h !! l with
  | Some (Symh _ _) => Done true h
  | Some (Data v) => Done (streq (take 4 v) SYM_MAGIC) h
  | _ => Undefined
  end.

Definition write (l : loc) (b : block) : H unit := modify (insert l b).

(** ** Tables *)

Definition newsym : H ptr := alloc_block (Symh None None).

Definition mknode (next : ptr) (key : cstr) (data : ptr) : H ptr :=
  n ← alloc_block (Sym next 1%positive data);
  match n with
  | None => mret None
  | Some l =>
      k ← alloc_block (Str key);
      match k with
      | None => free (Some l);; mret None
      | Some k => write l (Sym next k data);; mret (Some l)
      end
  end.

(** A list is not longer than the heap. *)
Fixpoint find_loop (fuel : nat) (sym : ptr) (key : cstr) : H ptr :=
  match sym with
  | None => mret None
  | Some l =>
      match fuel with
      | O => undefined
      | S f =>
          '(next, k, _) ← load_sym l;
          s ← load_str k;
          if streq s key then mret (Some l) else find_loop f next key
      end
  end.

Definition find_key1 (sym : ptr) (key : cstr) : H ptr := h ← get; find_loop (size h) sym key.

(** The last node of a list that is not empty. *)
Fixpoint last_loop (fuel : nat) (sn : loc) : H loc :=
  match fuel with
  | O => undefined
  | S f =>
      '(next, _, _) ← load_sym sn;
      match next with None => mret sn | Some n => last_loop f n end
  end.

(** The exit status of [abort]. *)
Definition ABORTED : Z := 134.

Definition add_key (sym : ptr) (key : cstr) (data : ptr) : H Z :=
  '(first, cursor) ← load_symh sym;
  match first with
  | None =>
      n ← mknode None key data;
      match sym with
      | Some l => write l (Symh n cursor);; mret (if n is Some _ then 0 else -1)
      | None => undefined
      end
  | Some sn =>
      h ← get;
      sn ← last_loop (size h) sn;
      n ← mknode None key data;
      '(_, k, d) ← load_sym sn;
      write sn (Sym n k d);;
      if n is Some _ then mret 0 else exit ABORTED
  end.

Definition sym_open : H ptr := newsym.

(** The search that [sym_put] and [sym_get] share.  [Stop kk csym nsym]: the keys
    that are left, the table they are looked for in and the entry found last;
    [NotTable]: an entry on the way has no table. *)
Inductive found := Stop (kk : list cstr) (csym nsym : ptr) | NotTable.

Fixpoint search (csym : ptr) (kk : list cstr) (nsym : ptr) : H found :=
  match kk with
  | [] => mret (Stop [] csym nsym)
  | k :: rest =>
      '(first, _) ← load_symh csym;
      n ← find_key1 first k;
      match n with
      | None => mret (Stop (k :: rest) csym None)
      | Some l =>
          match rest with
          | [] => mret (Stop [] csym (Some l))
          | _ =>
              '(_, _, data) ← load_sym l;
              match data with
              | None => mret NotTable
              | Some d => m ← has_magic d; if (m : bool) then search (Some d) rest (Some l) else mret NotTable
              end
          end
      end
  end.

(** [splitstr_free]: undefined when it frees a pointer inside a block. *)
Definition free_keys (keys : list cell) : H unit := match splitstr_free (Some keys) with FreeOk _ => mret tt | _ => undefined end.

Fixpoint put_loop (csym : ptr) (kk : list cstr) (data : ptr) : H unit :=
  match kk with
  | [] => mret tt
  | [k] => add_key csym k data;; mret tt
  | k :: kk => ncsym ← newsym; add_key csym k ncsym;; put_loop ncsym kk data
  end.

Definition sym_put (sym : ptr) (key : cstr) (data : ptr) (flags : Z) : H Z :=
  match sym with
  | None => mret EINVAL
  | Some _ =>
      match splitstr (splits e) (Some key) (Some §",") with
      | SplitOk keys _ =>
          r ← search sym (args keys) None;
          match r with
          | NotTable => free_keys keys;; mret ENOTDIR
          | Stop [] _ nsym =>
              free_keys keys;;
              if flags =? PUT_REPLACE then
                match nsym with
                | None => undefined
                | Some l => '(n, k, _) ← load_sym l; write l (Sym n k data);; mret 0
                end
              else mret EEXIST
          | Stop kk csym _ => put_loop csym kk data;; free_keys keys;; mret 0
          end
      | SplitNull => mret EINVAL
      | SplitExit c => exit c
      | SplitOob => undefined
      end
  end.

Definition sym_get (sym : ptr) (key : cstr) : H ptr :=
  match sym with
  | None => mret None
  | Some _ =>
      match splitstr (splits e) (if nkey_ok e then Some key else None) (Some §",") with
      | SplitOk keys _ =>
          r ← search sym (args keys) None;
          free_keys keys;;
          match r with
          | Stop [] _ nsym => match nsym with None => undefined | Some l => '(_, _, d) ← load_sym l; mret d end
          | _ => mret None
          end
      | SplitNull => mret None
      | SplitExit c => exit c
      | SplitOob => undefined
      end
  end.

(** The return value, and what [key->data] and [data->data] are set to when it is
    0; [key] is what [key->data] holds before. *)
Definition at_cursor (sym : loc) (first cursor : ptr) : H (Z * option (loc * ptr)) :=
  write sym (Symh first cursor);;
  match cursor with
  | None => mret (1, None)
  | Some l => '(_, k, d) ← load_sym l; mret (0, Some (k, d))
  end.

Definition sym_seq (sym : loc) (key : cstr) (flags : Z) : H (Z * option (loc * ptr)) :=
  if flags =? R_CURSOR then
    csym ← sym_get (Some sym) key;
    match csym with
    | None => mret (2, None)
    | Some c =>
        m ← has_magic c;
        if (m : bool) then
          '(cfirst, _) ← load_symh (Some c);
          '(first, _) ← load_symh (Some sym);
          at_cursor sym first cfirst
        else mret (2, None)
    end
  else if flags =? R_FIRST then
    '(first, _) ← load_symh (Some sym);
    at_cursor sym first first
  else if flags =? R_NEXT then
    '(first, cursor) ← load_symh (Some sym);
    match cursor with
    | None => mret (1, None)
    | Some c => '(next, _, _) ← load_sym c; at_cursor sym first next
    end
  else mret (-1, None).

(** The lines [sym_dump] prints. *)
Fixpoint dump_loop (fuel : nat) (sym : ptr) (depth : nat) : H (Z * list cstr) :=
  match sym with
  | None => mret (-1, [])
  | Some l =>
      m ← has_magic l;
      if negb m then mret (-1, [])
      else
        '(first, _) ← load_symh (Some l);
        lines ← (fix entries (f : nat) (se : ptr) : H (list cstr) :=
          match se with
          | None => mret []
          | Some n =>
              match f with
              | O => undefined
              | S f =>
                  '(next, k, data) ← load_sym n;
                  s ← load_str k;
                  '(_, sub) ← dump_loop f data (S depth);
                  rest ← entries f next;
                  mret ((concat (replicate depth ["034"%char; " "%char]) ++ s) :: sub ++ rest)
              end
          end) fuel first;
        mret (0, lines)
  end.

Definition sym_dump (sym : ptr) (depth : nat) : H (Z * list cstr) := h ← get; dump_loop (size h) sym depth.

Definition flag (flags f : Z) : bool := negb (Z.land flags f =? 0).

Fixpoint rm_loop (fuel : nat) (sym : ptr) (flags : Z) : H unit :=
  match sym with
  | None => mret tt
  | Some l =>
      m ← has_magic l;
      if negb m then when (negb (flag flags RM_DATA)) (free (Some l))
      else
        '(first, _) ← load_symh (Some l);
        (fix entries (f : nat) (se : ptr) : H unit :=
          match se with
          | None => mret tt
          | Some n =>
              match f with
              | O => undefined
              | S f =>
                  '(_, _, data) ← load_sym n;
                  rm_loop f data flags;;
                  '(nse, k, data) ← load_sym n;
                  when (flag flags RM_KEY) (free (Some k));;
                  when (flag flags RM_DATA) (free data);;
                  free (Some n);;
                  entries f nse
              end
          end) fuel first;;
        when (negb (flag flags RM_DATA)) (free (Some l))
  end.

(** The depth and the length of the lists together are bounded by the heap. *)
Definition sym_rm (sym : ptr) (flags : Z) : H Z := h ← get; rm_loop (size h) sym flags;; mret 0.
End Symbol.
