(* ===== verification/PanSymOk.v ===== *)
(** Correctness of the symbol table: the lists in the heap implement a tree of
    entries; putting, getting, stepping and removing do what they say on the tree
    and leave the rest of the heap alone. *)
From Stdlib Require Import Ascii String ZArith Lia Bool.
From stdpp Require Import base list sets numbers gmap.
From S2P Require Import Prelude CString Splitstr Effects PanSym.

Local Open Scope Z_scope.

(** ** Trees and the cells that hold them *)

(** An entry: its node, the block and the text of its key, its value. *)
Record ent (A : Type) := Ent { e_node : loc; e_kloc : loc; e_key : cstr; e_val : A }.
Arguments Ent {A}.
Arguments e_node {A}.
Arguments e_kloc {A}.
Arguments e_key {A}.
Arguments e_val {A}.

Inductive tree :=
| Nul
| Raw (l : loc) (v : cstr)
| Tab (l : loc) (cur : ptr) (es : list (ent tree)).

Definition ptr_of (t : tree) : ptr := match t with Nul => None | Raw l _ | Tab l _ _ => Some l end.

Definition head_ptr (es : list (ent tree)) (tl : ptr) : ptr := match es with [] => tl | e :: _ => Some (e_node e) end.

Fixpoint cells (t : tree) : list (loc * block) :=
  match t with
  | Nul => []
  | Raw l v => [(l, Data v)]
  | Tab l cur es =>
      (l, Symh (head_ptr es None) cur) ::
      (fix go (es : list (ent tree)) : list (loc * block) :=
         match es with
         | [] => []
         | e :: es => (e_node e, Sym (head_ptr es None) (e_kloc e) (ptr_of (e_val e))) :: (e_kloc e, Str (e_key e)) :: cells (e_val e) ++ go es
         end) es
  end.

(** The cells of a list of entries whose last node points to [tl]. *)
Fixpoint es_cells (tl : ptr) (es : list (ent tree)) : list (loc * block) :=
  match es with
  | [] => []
  | e :: es => (e_node e, Sym (head_ptr es tl) (e_kloc e) (ptr_of (e_val e))) :: (e_kloc e, Str (e_key e)) :: cells (e_val e) ++ es_cells tl es
  end.

Lemma cells_Tab l cur es : cells (Tab l cur es) = (l, Symh (head_ptr es None) cur) :: es_cells None es.
Proof. cbn. f_equal. induction es as [|e es IH]; cbn; [done|]. now rewrite IH. Qed.

Lemma tree_nested (P : tree -> Prop) :
  P Nul -> (forall l v, P (Raw l v)) -> (forall l cur es, Forall (fun e => P (e_val e)) es -> P (Tab l cur es)) -> forall t, P t.
Proof.
  intros H1 H2 H3. fix IH 1. intros [|l v|l cur es]; [exact H1|apply H2|]. apply H3.
  induction es as [|e es IHes]; constructor; [apply IH|exact IHes].
Qed.

(** Blocks of the caller do not start with the magic number. *)
Inductive wf : tree -> Prop :=
| wf_Nul : wf Nul
| wf_Raw l v : take 4 v <> SYM_MAGIC -> wf (Raw l v)
| wf_Tab l cur es : Forall (fun e => wf (e_val e)) es -> wf (Tab l cur es).

(** The heap holds the cells, each at a place of its own. *)
Definition holds (h : heap) (cs : list (loc * block)) : Prop := NoDup (map fst cs) /\ forall l b, (l, b) ∈ cs -> h !! l = Some b.

Lemma holds_perm h a b : a ≡ₚ b -> holds h a -> holds h b.
Proof.
  intros Hp [H1 H2]. split.
  - now rewrite <- Hp.
  - intros l x Hx. apply H2. now rewrite Hp.
Qed.

#[export] Instance holds_proper h : Proper (Permutation ==> iff) (holds h).
Proof. intros a b Hp. split; apply holds_perm; [done|now symmetry]. Qed.

Lemma holds_app_l h a b : holds h (a ++ b) -> holds h a.
Proof.
  intros [H1 H2]. rewrite map_app in H1. apply NoDup_app in H1 as (H1 & _ & _). split; [done|]. intros l x Hx. apply H2, elem_of_app. now left.
Qed.

Lemma holds_in h l b cs : holds h cs -> (l, b) ∈ cs -> h !! l = Some b.
Proof. intros [_ H]. apply H. Qed.

Lemma holds_head h l b cs : holds h ((l, b) :: cs) -> h !! l = Some b.
Proof. intros [_ H]. apply H. left. Qed.

Lemma holds_fresh h l b cs : h !! l = None -> holds h cs -> holds (<[l := b]> h) ((l, b) :: cs).
Proof.
  intros Hl [H1 H2]. split.
  - cbn. constructor; [|done]. intros Hin. apply list_elem_of_In, List.in_map_iff in Hin as ([l' b'] & <- & Hin).
    apply list_elem_of_In, H2 in Hin. cbn in Hl. congruence.
  - intros l' b' Hin. apply elem_of_cons in Hin as [[= <- <-]|Hin]; [apply lookup_insert_eq|].
    apply H2 in Hin as Hh. rewrite lookup_insert_ne; [done|]. congruence.
Qed.

Lemma holds_write h l b b' cs : holds h ((l, b) :: cs) -> holds (<[l := b']> h) ((l, b') :: cs).
Proof.
  intros [H1 H2]. cbn in H1. apply NoDup_cons in H1 as [H0 H1]. split; [now cbn; constructor|].
  intros l' x Hin. apply elem_of_cons in Hin as [[= <- <-]|Hin]; [apply lookup_insert_eq|].
  rewrite lookup_insert_ne; [apply H2; now right|]. intros <-. apply H0, list_elem_of_In, (List.in_map fst _ (l, x)), list_elem_of_In. done.
Qed.

(** Writing to one cell among others. *)
Lemma holds_update R h l b b' A A' : A ≡ₚ (l, b) :: R -> A' ≡ₚ (l, b') :: R -> holds h A -> holds (<[l := b']> h) A'.
Proof. intros -> ->. apply holds_write. Qed.

Lemma holds_size h cs : holds h cs -> (length cs <= size h)%nat.
Proof.
  intros [H1 H2]. rewrite <- size_dom, <- (length_map fst), <- (size_list_to_set (C := gset loc)) by done.
  apply subseteq_size. intros l Hl. apply elem_of_list_to_set, list_elem_of_In, List.in_map_iff in Hl as ([l' b] & <- & Hin).
  apply list_elem_of_In, H2 in Hin. now apply elem_of_dom_2 in Hin.
Qed.

(** ** Trees *)

Definition es_find (es : list (ent tree)) (k : cstr) : option (ent tree) := List.find (fun e => streq (e_key e) k) es.

(** The first entry with the key gets another value. *)
Fixpoint es_set (es : list (ent tree)) (k : cstr) (t : tree) : list (ent tree) :=
  match es with
  | [] => []
  | e :: es => if streq (e_key e) k then Ent (e_node e) (e_kloc e) (e_key e) t :: es else e :: es_set es k t
  end.

Definition is_table (t : tree) : bool := match t with Tab _ _ _ => true | _ => false end.
Definition entries (t : tree) : list (ent tree) := match t with Tab _ _ es => es | _ => [] end.

(** The value at a path. *)
Fixpoint tfind (t : tree) (ks : list cstr) : option tree :=
  match ks with
  | [] => Some t
  | k :: ks => e ← es_find (entries t) k; tfind (e_val e) ks
  end.

Lemma es_set_find es k e t : es_find es k = Some e -> es_find (es_set es k t) k = Some (Ent (e_node e) (e_kloc e) (e_key e) t).
Proof.
  unfold es_find. induction es as [|x es IH]; cbn; [done|]. destruct (streq (e_key x) k) eqn:E; cbn.
  - intros [= ->]. now rewrite E.
  - rewrite E. exact IH.
Qed.

Lemma es_set_other es k k' t : k <> k' -> es_find (es_set es k t) k' = es_find es k'.
Proof.
  intros Hne. unfold es_find. induction es as [|x es IH]; cbn; [done|]. destruct (streq (e_key x) k) eqn:E; cbn; [|now rewrite IH].
  apply streq_true in E as ->. destruct (streq k k') eqn:E'; [now apply streq_true in E'|done].
Qed.

Lemma head_ptr_set es k t tl : head_ptr (es_set es k t) tl = head_ptr es tl.
Proof. destruct es as [|e es]; cbn; [done|]. now destruct (streq (e_key e) k). Qed.

Lemma es_find_wf es k e : Forall (fun e => wf (e_val e)) es -> es_find es k = Some e -> wf (e_val e).
Proof. rewrite List.Forall_forall. intros Hall Hf. apply List.find_some in Hf as [Hin _]. auto. Qed.

(** The cells of a list of entries around one entry. *)
Lemma es_cells_focus es k e : es_find es k = Some e ->
  exists nx R, forall t,
    es_cells None (es_set es k t) ≡ₚ (e_node e, Sym nx (e_kloc e) (ptr_of t)) :: cells t ++ R.
Proof.
  unfold es_find. induction es as [|x es IH]; cbn; [done|]. destruct (streq (e_key x) k) eqn:E; cbn.
  - intros [= ->]. exists (head_ptr es None), ((e_kloc e, Str (e_key e)) :: es_cells None es). intros t. perm.
  - intros Hf. destruct (IH Hf) as (nx & R & HR).
    exists nx, ((e_node x, Sym (head_ptr es None) (e_kloc x) (ptr_of (e_val x))) :: (e_kloc x, Str (e_key x)) :: cells (e_val x) ++ R).
    intros t. rewrite head_ptr_set, HR. perm.
Qed.

Lemma es_set_same es k e : es_find es k = Some e -> es_set es k (e_val e) = es.
Proof.
  unfold es_find. induction es as [|x es IH]; cbn; [done|]. destruct (streq (e_key x) k) eqn:E.
  - intros [= ->]. now destruct e.
  - intros Hf. now rewrite IH.
Qed.

(** The cells of a table around the value of one of its entries. *)
Lemma cells_focus l cur es k e : es_find es k = Some e ->
  exists nx R, forall t, cells (Tab l cur (es_set es k t)) ≡ₚ (e_node e, Sym nx (e_kloc e) (ptr_of t)) :: cells t ++ R.
Proof.
  intros Hf. destruct (es_cells_focus es k e Hf) as (nx & R & HR). exists nx, ((l, Symh (head_ptr es None) cur) :: R).
  intros t. rewrite cells_Tab, head_ptr_set, HR. perm.
Qed.

(** ** Searching *)

Lemma load_sym_ok h l n k d : h !! l = Some (Sym n k d) -> load_sym l h = Done (n, k, d) h.
Proof. unfold load_sym. now intros ->. Qed.

Lemma load_str_ok h l s : h !! l = Some (Str s) -> load_str l h = Done s h.
Proof. unfold load_str. now intros ->. Qed.

Lemma load_symh_ok h l s c : h !! l = Some (Symh s c) -> load_symh (Some l) h = Done (s, c) h.
Proof. unfold load_symh. cbn. now intros ->. Qed.

Lemma es_cell_nth es n x : es !! n = Some x -> (e_node x, Sym (e_node <$> es !! S n) (e_kloc x) (ptr_of (e_val x))) ∈ es_cells None es.
Proof.
  revert n. induction es as [|y es IH]; intros [|n] Hn; cbn in Hn; simplify_eq; cbn [es_cells].
  - cbn. destruct es as [|z es]; left.
  - right; right. apply elem_of_app. right. now apply IH.
Qed.

Lemma es_key_nth es n x : es !! n = Some x -> (e_kloc x, Str (e_key x)) ∈ es_cells None es.
Proof.
  revert n. induction es as [|y es IH]; intros [|n] Hn; cbn in Hn; simplify_eq; cbn [es_cells]; right; [left|].
  right. apply elem_of_app. right. now apply (IH n).
Qed.

(** A list of nodes with their keys; what the nodes hold besides does not matter. *)
Definition chain_in (h : heap) (es : list (ent tree)) : Prop := forall n y, es !! n = Some y ->
  (exists d, h !! e_node y = Some (Sym (e_node <$> es !! S n) (e_kloc y) d)) /\ h !! e_kloc y = Some (Str (e_key y)).

Lemma find_loop_chain es key h fuel :
  chain_in h es -> (length es <= fuel)%nat -> find_loop fuel (head_ptr es None) key h = Done (e_node <$> es_find es key) h.
Proof.
  revert fuel. induction es as [|x es IH]; intros fuel Hc Hf; [now destruct fuel|]. destruct fuel as [|fuel]; [cbn in Hf; lia|].
  destruct (Hc 0%nat x eq_refl) as [[d Hx] Hk]. cbn [find_loop head_ptr].
  rewrite (bind_Done _ _ _ _ _ (load_sym_ok _ _ _ _ _ Hx)), (bind_Done _ _ _ _ _ (load_str_ok _ _ _ Hk)).
  change (es_find (x :: es) key) with (if streq (e_key x) key then Some x else es_find es key).
  destruct (streq (e_key x) key); [done|]. cbn [lookup list_lookup]. rewrite <- (IH fuel); [now destruct es| |cbn in Hf; lia].
  intros n y Hn. exact (Hc (S n) y Hn).
Qed.

Lemma holds_chain es h F : holds h (es_cells None es ++ F) -> chain_in h es.
Proof.
  intros Hh n y Hn. split; [exists (ptr_of (e_val y)); eapply holds_in; [exact Hh|]; apply elem_of_app; left; now apply es_cell_nth|].
  eapply holds_in; [exact Hh|]. apply elem_of_app. left. now apply (es_key_nth es n).
Qed.

Lemma length_es_cells tl es : (length es <= length (es_cells tl es))%nat.
Proof. induction es as [|e es IH]; cbn; [lia|]. rewrite length_app. lia. Qed.

Lemma find_key1_ok l cur es key h F :
  holds h (cells (Tab l cur es) ++ F) -> find_key1 (head_ptr es None) key h = Done (e_node <$> es_find es key) h.
Proof.
  intros Hh. rewrite cells_Tab in Hh. unfold find_key1. rewrite (bind_Done get _ h h h eq_refl).
  assert (Hs : holds h (es_cells None es ++ (l, Symh (head_ptr es None) cur) :: F)) by (eapply holds_perm; [|exact Hh]; perm).
  apply find_loop_chain; [exact (holds_chain _ _ _ Hs)|]. pose proof (holds_size _ _ (holds_app_l _ _ _ Hs)) as Hsz.
  pose proof (length_es_cells None es). lia.
Qed.

(** What the search answers on a tree. *)
Fixpoint tsearch (t : tree) (kk : list cstr) (ns : ptr) : found :=
  match kk with
  | [] => Stop [] (ptr_of t) ns
  | k :: rest =>
      match es_find (entries t) k with
      | None => Stop (k :: rest) (ptr_of t) None
      | Some e =>
          match rest with
          | [] => Stop [] (ptr_of t) (Some (e_node e))
          | _ => if is_table (e_val e) then tsearch (e_val e) rest (Some (e_node e)) else NotTable
          end
      end
  end.

Lemma cells_value l cur es k e : es_find es k = Some e ->
  exists nx R, cells (Tab l cur es) ≡ₚ (e_node e, Sym nx (e_kloc e) (ptr_of (e_val e))) :: cells (e_val e) ++ R.
Proof. intros Hf. destruct (cells_focus l cur es k e Hf) as (nx & R & HR). exists nx, R. rewrite <- HR. now rewrite es_set_same. Qed.

Lemma search_ok kk t ns h F :
  is_table t = true -> wf t -> holds h (cells t ++ F) -> search (ptr_of t) kk ns h = Done (tsearch t kk ns) h.
Proof.
  revert t ns F. induction kk as [|k rest IH]; intros t ns F Ht Hw Hh; [done|]. destruct t as [| |l cur es]; try done. cbn [search ptr_of].
  assert (Hl : h !! l = Some (Symh (head_ptr es None) cur)) by (rewrite cells_Tab in Hh; exact (holds_head _ _ _ _ Hh)).
  rewrite (bind_Done _ _ _ _ _ (load_symh_ok _ _ _ _ Hl)), (bind_Done _ _ _ _ _ (find_key1_ok l cur es k h F Hh)).
  cbn [tsearch entries ptr_of]. destruct (es_find es k) as [e|] eqn:Ef; cbn [fmap option_fmap option_map]; [|done]. destruct rest as [|k' rest]; [done|].
  destruct (cells_value l cur es k e Ef) as (nx & R & HR). rewrite HR in Hh. cbn [app] in Hh. rewrite <- app_assoc in Hh.
  inversion_clear Hw as [| |? ? ? Hall]. pose proof (es_find_wf _ _ _ Hall Ef) as Hwe.
  rewrite (bind_Done _ _ _ _ _ (load_sym_ok _ _ _ _ _ (holds_head _ _ _ _ Hh))).
  destruct (e_val e) as [|l' v|l' cur' es'] eqn:Ev; cbn [ptr_of is_table]; [done| |].
  - inversion_clear Hwe as [|? ? Hv|]. assert (Hd : h !! l' = Some (Data v)) by (eapply holds_in; [exact Hh|]; right; left).
    assert (Hm : has_magic l' h = Done false h) by (unfold has_magic; rewrite Hd; now rewrite (proj2 (streq_false _ _) Hv)).
    now rewrite (bind_Done _ _ _ _ _ Hm).
  - assert (Hd : h !! l' = Some (Symh (head_ptr es' None) cur')) by (eapply holds_in; [exact Hh|]; right; rewrite cells_Tab; left).
    assert (Hm : has_magic l' h = Done true h) by (unfold has_magic; now rewrite Hd).
    rewrite (bind_Done _ _ _ _ _ Hm). apply (IH (Tab l' cur' es') _ ((e_node e, Sym nx (e_kloc e) (Some l')) :: R ++ F)); try done.
    eapply holds_perm; [|exact Hh]. perm.
Qed.

Lemma tsearch_tfind ks t ns : ks <> [] -> is_table t = true ->
  match tsearch t ks ns with
  | Stop [] _ n => exists l nx kl v, n = Some l /\ tfind t ks = Some v /\ (l, Sym nx kl (ptr_of v)) ∈ cells t
  | _ => tfind t ks = None
  end.
Proof.
  revert t ns. induction ks as [|k rest IH]; intros t ns Hne Ht; [done|]. destruct t as [| |l cur es]; try done. cbn [tsearch tfind entries].
  destruct (es_find es k) as [e|] eqn:Ef; cbn [mbind option_bind]; [|done]. destruct (cells_value l cur es k e Ef) as (nx & R & HR).
  destruct rest as [|k' rest]; [exists (e_node e), nx, (e_kloc e), (e_val e); split; [done|]; split; [done|]; rewrite HR; left|].
  destruct (is_table (e_val e)) eqn:Et; [|cbn; now destruct (e_val e)].
  specialize (IH (e_val e) (Some (e_node e)) ltac:(done) Et). destruct (tsearch _ _ _) as [[|? ?] ? n|]; try done.
  destruct IH as (l' & nx' & kl' & v & -> & Hv & Hin). exists l', nx', kl', v. split; [done|]. split; [done|]. rewrite HR. right. apply elem_of_app. now left.
Qed.

(** ** Adding nodes *)

Lemma head_ptr_app es es' tl : head_ptr (es ++ es') tl = head_ptr es (head_ptr es' tl).
Proof. now destruct es. Qed.

Lemma es_cells_app tl es es' : es_cells tl (es ++ es') = es_cells (head_ptr es' tl) es ++ es_cells tl es'.
Proof. induction es as [|e es IH]; [done|]. cbn [app es_cells]. rewrite IH, head_ptr_app, <- app_assoc. done. Qed.

Lemma last_loop_ok es x sn h F fuel :
  holds h (es_cells None (es ++ [x]) ++ F) -> head_ptr (es ++ [x]) None = Some sn -> (length es < fuel)%nat -> last_loop fuel sn h = Done (e_node x) h.
Proof.
  revert sn F fuel. induction es as [|y es IH]; intros sn F [|fuel] Hh Hs Hf; try (cbn in Hf; lia); cbn [app head_ptr] in Hs; simplify_eq; cbn [last_loop];
    cbn [app es_cells] in Hh; rewrite (bind_Done _ _ _ _ _ (load_sym_ok _ _ _ _ _ (holds_head _ _ _ _ Hh))).
  - done.
  - destruct (head_ptr (es ++ [x]) None) as [n|] eqn:En; [|now destruct es].
    apply (IH n (((e_node y, Sym (Some n) (e_kloc y) (ptr_of (e_val y))) :: (e_kloc y, Str (e_key y)) :: cells (e_val y)) ++ F)); try done.
    + eapply holds_perm; [|exact Hh]. perm.
    + cbn in Hf. lia.
Qed.

(** ** Getting *)

(** A key of the table, "a,b,c", and its parts. *)
Definition key_ok (ks : list cstr) : Prop := ks <> [] /\ Forall (fun t => t <> [] /\ Forall (fun x => x ∉ [","%char]) t) ks.
Definition key_text (ks : list cstr) : cstr := join [","%char] ks.

Section Env.
Variable e : menv.

Record mem_ok : Prop := {
  malloc_ok_ : forall h, exists l, malloc e h = Some l /\ h !! l = None;
  strdup_ok_ : strdup_ok (splits e) = true;
  array_ok_ : malloc_ok (splits e) = true;
  realloc_ok_ : forall n, realloc_ok (splits e) n = true;
  nkey_ok_ : nkey_ok e = true
}.

Hypothesis mem : mem_ok.

Lemma key_text_head ks : key_ok ks -> exists c r, key_text ks = c :: r /\ c <> ","%char.
Proof.
  intros [Hne Hks]. destruct ks as [|t ks]; [done|]. inversion_clear Hks as [|? ? [Ht Hc] _]. destruct t as [|c t]; [done|].
  inversion_clear Hc as [|? ? Hc' _]. assert (c <> ","%char) by (intros ->; apply Hc'; left).
  unfold key_text. destruct ks; cbn [join app]; eauto.
Qed.

(** A text that does not start with the separator is split, and the parts are freed
    again without harm. *)
Lemma split_text sep s : (forall c r, s = c :: r -> c <> sep) ->
  exists keys n, splitstr (splits e) (Some s) (Some [sep]) = SplitOk keys n /\ args keys = strtok_all [sep] s /\
    (forall h, free_keys keys h = Done tt h).
Proof.
  intros Hc. destruct mem as [_ M1 M2 M3 _]. destruct (splitstr_cells _ s (Some [sep]) M1 M2 M3) as [fr ->]. do 2 eexists. split; [reflexivity|].
  change (replicate (S fr) Null) with (Null :: replicate fr Null). split; [apply args_tok_cells|].
  intros h. unfold free_keys. cbn [tok_cells]. unfold next_tok. destruct (strtok _ _) as [[t r']|] eqn:Es; [|done]. destruct s as [|c r]; [done|].
  assert (Hm : memc c (seps_of (Some [sep])) = false) by (apply memc_false; cbn; specialize (Hc c r eq_refl); set_solver).
  cbn [dropwhile]. rewrite Hm, Nat.sub_diag. reflexivity.
Qed.

Lemma split_key ks : key_ok ks ->
  exists keys n, splitstr (splits e) (Some (key_text ks)) (Some §",") = SplitOk keys n /\ args keys = ks /\
    (forall h, free_keys keys h = Done tt h).
Proof.
  intros Hk. destruct (key_text_head ks Hk) as (c & r & Ek & Hc). destruct (split_text ","%char (key_text ks)) as (keys & n & E1 & E2 & E3).
  { intros c' r' E'. congruence. }
  exists keys, n. split; [exact E1|]. split; [|exact E3]. rewrite E2. apply strtok_all_join; [left|apply Hk].
Qed.

Lemma get_keys t ks h F :
  is_table t = true -> wf t -> holds h (cells t ++ F) -> key_ok ks -> sym_get e (ptr_of t) (key_text ks) h = Done (tfind t ks ≫= ptr_of) h.
Proof.
  intros Ht Hw Hh Hk. destruct (split_key ks Hk) as (keys & n & Es & Ea & Hfree). unfold sym_get. rewrite (nkey_ok_ mem), Es, Ea.
  destruct (ptr_of t) as [l|] eqn:Ep; [|now destruct t]. rewrite <- Ep.
  rewrite (bind_Done _ _ _ _ _ (search_ok ks t None h F Ht Hw Hh)), (bind_Done _ _ _ _ _ (Hfree h)).
  pose proof (tsearch_tfind ks t None (proj1 Hk) Ht) as Hs. destruct (tsearch t ks None) as [[|k kk] c ns|]; try (now rewrite Hs).
  destruct Hs as (l' & nx & kl & v & -> & Hv & Hin). rewrite Hv.
  assert (Hl' : h !! l' = Some (Sym nx kl (ptr_of v))) by (eapply holds_in; [exact Hh|]; apply elem_of_app; now left).
  now rewrite (bind_Done _ _ _ _ _ (load_sym_ok _ _ _ _ _ Hl')).
Qed.
(** ** Putting *)

Lemma alloc_block_ok b h F : holds h F -> exists l, alloc_block e b h = Done (Some l) (<[l := b]> h) /\ holds (<[l := b]> h) ((l, b) :: F).
Proof.
  intros Hh. destruct (malloc_ok_ mem h) as (l & Hl & Hfr). exists l. unfold alloc_block. rewrite Hl. split; [done|now apply holds_fresh].
Qed.

Lemma mknode_ok key p h F : holds h F ->
  exists n k h', mknode e None key p h = Done (Some n) h' /\ holds h' ((n, Sym None k p) :: (k, Str key) :: F).
Proof.
  intros Hh. destruct (alloc_block_ok (Sym None 1%positive p) h F Hh) as (n & E1 & H1). destruct (alloc_block_ok (Str key) _ _ H1) as (k & E2 & H2).
  unfold mknode. do 3 eexists. rewrite (bind_Done _ _ _ _ _ E1). cbn beta iota. rewrite (bind_Done _ _ _ _ _ E2). split; [reflexivity|].
  eapply holds_write, holds_perm; [|exact H2]. perm.
Qed.

Lemma add_key_ok l cur es key p h F : holds h (cells (Tab l cur es) ++ F) ->
  exists n k h', add_key e (Some l) key p h = Done 0 h' /\
    holds h' ((l, Symh (head_ptr es (Some n)) cur) :: es_cells (Some n) es ++ (n, Sym None k p) :: (k, Str key) :: F).
Proof.
  intros Hh. destruct (mknode_ok key p h _ Hh) as (n & k & h' & E1 & H1). exists n, k. rewrite cells_Tab in Hh, H1. unfold add_key.
  rewrite (bind_Done _ _ _ _ _ (load_symh_ok _ _ _ _ (holds_head _ _ _ _ Hh))). destruct es as [|x es _] using rev_ind.
  - cbn [head_ptr]. eexists. rewrite (bind_Done _ _ _ _ _ E1). split; [reflexivity|].
    eapply holds_write, holds_perm; [|exact H1]. cbn [head_ptr es_cells app]. perm.
  - destruct (head_ptr (es ++ [x]) None) as [sn|] eqn:En; [|now destruct es]. rewrite (bind_Done get _ h h h eq_refl).
    assert (Hs : holds h (es_cells None (es ++ [x]) ++ (l, Symh (Some sn) cur) :: F)) by (eapply holds_perm; [|exact Hh]; perm).
    assert (Hlt : (length es < size h)%nat).
    { pose proof (holds_size _ _ (holds_app_l _ _ _ Hs)) as Hsz. pose proof (length_es_cells None (es ++ [x])) as Hle.
      rewrite length_app in Hle. cbn [length] in Hle. lia. }
    rewrite (bind_Done _ _ _ _ _ (last_loop_ok es x sn h _ _ Hs En Hlt)), (bind_Done _ _ _ _ _ E1).
    rewrite es_cells_app in H1. cbn [es_cells app head_ptr] in H1.
    assert (Hx : h' !! e_node x = Some (Sym None (e_kloc x) (ptr_of (e_val x)))).
    { eapply holds_in; [exact H1|]. do 3 right. rewrite <- app_assoc. apply elem_of_app. right. left. }
    rewrite (bind_Done _ _ _ _ _ (load_sym_ok _ _ _ _ _ Hx)). eexists. split; [reflexivity|].
    rewrite !head_ptr_app, es_cells_app in *. cbn [head_ptr es_cells] in *. rewrite En.
    eapply (holds_update ((l, Symh (Some sn) cur) :: es_cells (Some (e_node x)) es ++ (e_kloc x, Str (e_key x)) :: cells (e_val x) ++
      (n, Sym None k p) :: (k, Str key) :: F)); [| |exact H1]; perm.
Qed.

(** A chain of new tables: the entry that [sym_put] adds. *)
Inductive chain (d : tree) : cstr -> list cstr -> ent tree -> Prop :=
| chain_last k n kl : chain d k [] (Ent n kl k d)
| chain_more k k' ks n kl l x : chain d k' ks x -> chain d k (k' :: ks) (Ent n kl k (Tab l None [x])).

Lemma put_loop_ok d ks k l cur es h F : holds h (cells (Tab l cur es) ++ cells d ++ F) ->
  exists x h', put_loop e (Some l) (k :: ks) (ptr_of d) h = Done tt h' /\ chain d k ks x /\ holds h' (cells (Tab l cur (es ++ [x])) ++ F).
Proof.
  revert k l cur es h F. induction ks as [|k' ks IH]; intros k l cur es h F Hh.
  - destruct (add_key_ok l cur es k (ptr_of d) h _ Hh) as (n & kl & h' & E1 & H1). exists (Ent n kl k d), h'. cbn [put_loop].
    rewrite (bind_Done _ _ _ _ _ E1). split; [done|]. split; [constructor|].
    rewrite cells_Tab, head_ptr_app, es_cells_app. cbn [head_ptr e_node es_cells e_kloc e_val e_key]. eapply holds_perm; [|exact H1]. perm.
  - destruct (alloc_block_ok (Symh None None) h _ Hh) as (l2 & E0 & H0).
    destruct (add_key_ok l cur es k (Some l2) (<[l2 := Symh None None]> h) (cells (Tab l2 None []) ++ cells d ++ F)) as (n & kl & h' & E1 & H1);
      [eapply holds_perm; [|exact H0]; cbn [cells head_ptr]; perm|].
    set (outer := (l, Symh (head_ptr es (Some n)) cur) :: es_cells (Some n) es ++ [(n, Sym None kl (Some l2)); (kl, Str k)]).
    destruct (IH k' l2 None [] h' (outer ++ F)) as (x & h'' & E2 & Hc & H2); [eapply holds_perm; [|exact H1]; unfold outer; perm|].
    exists (Ent n kl k (Tab l2 None [x])), h''. cbn [put_loop]. unfold newsym. rewrite (bind_Done _ _ _ _ _ E0), (bind_Done _ _ _ _ _ E1).
    split; [exact E2|]. split; [now constructor|].
    rewrite (cells_Tab l), head_ptr_app, es_cells_app. cbn [head_ptr e_node es_cells e_kloc e_val e_key ptr_of].
    eapply holds_perm; [|exact H2]. unfold outer. cbn [app]. perm.
Qed.

(** What [sym_put] makes of a tree, and its return value. *)
Inductive puts (flags : Z) (d : tree) : list cstr -> tree -> Z -> tree -> Prop :=
| puts_new k ks l cur es x :
    es_find es k = None -> chain d k ks x -> puts flags d (k :: ks) (Tab l cur es) 0 (Tab l cur (es ++ [x]))
| puts_exists k l cur es x :
    es_find es k = Some x -> flags <> PUT_REPLACE -> puts flags d [k] (Tab l cur es) EEXIST (Tab l cur es)
| puts_replace k l cur es x :
    es_find es k = Some x -> flags = PUT_REPLACE -> puts flags d [k] (Tab l cur es) 0 (Tab l cur (es_set es k d))
| puts_notdir k k' ks l cur es x :
    es_find es k = Some x -> is_table (e_val x) = false -> puts flags d (k :: k' :: ks) (Tab l cur es) ENOTDIR (Tab l cur es)
| puts_in k k' ks l cur es x c t' :
    es_find es k = Some x -> is_table (e_val x) = true -> puts flags d (k' :: ks) (e_val x) c t' ->
    puts flags d (k :: k' :: ks) (Tab l cur es) c (Tab l cur (es_set es k t')).

(** The rest of [sym_put] after the search. *)
Definition put_found (data : ptr) (flags : Z) (r : found) : H Z :=
  match r with
  | NotTable => mret ENOTDIR
  | Stop [] _ nsym =>
      if flags =? PUT_REPLACE then
        match nsym with
        | None => undefined
        | Some l => '(n, k, _) ← load_sym l; write l (Sym n k data);; mret 0
        end
      else mret EEXIST
  | Stop kk csym _ => put_loop e csym kk data;; mret 0
  end.

Lemma puts_ptr flags d ks t c t' : puts flags d ks t c t' -> ptr_of t' = ptr_of t /\ is_table t' = true.
Proof. now destruct 1. Qed.

(** The blocks of the value that a new one replaces. *)
Definition left_over (t : tree) (ks : list cstr) : list (loc * block) := match tfind t ks with Some v => cells v | None => [] end.

Lemma put_new_ok flags d k ks l cur es h F : es_find es k = None -> holds h (cells (Tab l cur es) ++ cells d ++ F) ->
  exists c t' rest h', put_found (ptr_of d) flags (Stop (k :: ks) (Some l) None) h = Done c h' /\ puts flags d (k :: ks) (Tab l cur es) c t' /\
    holds h' (cells t' ++ rest ++ F) /\ (c <> 0 -> h' = h /\ rest = cells d) /\ (c = 0 -> rest = left_over (Tab l cur es) (k :: ks)).
Proof.
  intros Ef Hh. destruct (put_loop_ok d ks k l cur es h F Hh) as (x & h' & E1 & Hc & H1).
  exists 0, (Tab l cur (es ++ [x])), [], h'. unfold put_found. rewrite (bind_Done _ _ _ _ _ E1). split; [done|]. split; [now constructor|].
  split; [done|]. split; [done|]. intros _. unfold left_over. cbn [tfind entries]. now rewrite Ef.
Qed.

Lemma put_found_ok flags d k ks t ns h F :
  is_table t = true -> wf t -> holds h (cells t ++ cells d ++ F) ->
  exists c t' rest h', put_found (ptr_of d) flags (tsearch t (k :: ks) ns) h = Done c h' /\ puts flags d (k :: ks) t c t' /\
    holds h' (cells t' ++ rest ++ F) /\ (c <> 0 -> h' = h /\ rest = cells d) /\ (c = 0 -> rest = left_over t (k :: ks)).
Proof.
  revert k t ns F. induction ks as [|k' ks IH]; intros k t ns F Ht Hw Hh; destruct t as [| |l cur es]; try done; cbn [tsearch entries ptr_of];
    destruct (es_find es k) as [x|] eqn:Ef.
  - unfold put_found. destruct (Z.eqb_spec flags PUT_REPLACE) as [Hfl|Hfl].
    + destruct (cells_focus l cur es k x Ef) as (nx & R & HR). rewrite <- (es_set_same es k x Ef), HR in Hh.
      rewrite (bind_Done _ _ _ _ _ (load_sym_ok _ _ _ _ _ (holds_head _ _ _ _ Hh))).
      exists 0, (Tab l cur (es_set es k d)), (cells (e_val x)). eexists. split; [reflexivity|]. split; [now apply puts_replace with x|].
      split; [|split; [done|]; intros _; unfold left_over; cbn [tfind entries]; now rewrite Ef].
      rewrite HR. eapply (holds_update (cells (e_val x) ++ R ++ cells d ++ F)); [| |exact Hh]; perm.
    + exists EEXIST, (Tab l cur es), (cells d), h. split; [done|]. split; [now apply puts_exists with x|]. done.
  - now apply put_new_ok.
  - destruct (is_table (e_val x)) eqn:Et.
    + inversion_clear Hw as [| |? ? ? Hall]. destruct (cells_focus l cur es k x Ef) as (nx & R & HR).
      destruct (IH k' (e_val x) (Some (e_node x)) ((e_node x, Sym nx (e_kloc x) (ptr_of (e_val x))) :: R ++ F) Et (es_find_wf _ _ _ Hall Ef))
        as (c & t' & rest & h' & E1 & Hp & H1 & H2).
      { rewrite <- (es_set_same es k x Ef), HR in Hh. eapply holds_perm; [|exact Hh]. perm. }
      exists c, (Tab l cur (es_set es k t')), rest, h'. split; [exact E1|]. split; [now apply puts_in with x|].
      split; [|destruct H2 as [H2 H3]; split; [done|]; intros Hc; rewrite (H3 Hc); unfold left_over; cbn [tfind entries]; now rewrite Ef].
      destruct (puts_ptr _ _ _ _ _ _ Hp) as [Hptr _]. rewrite HR, Hptr. eapply holds_perm; [|exact H1]. perm.
    + exists ENOTDIR, (Tab l cur es), (cells d), h. split; [done|]. split; [now apply puts_notdir with x|]. done.
  - now apply put_new_ok.
Qed.

Lemma put_ok flags d ks t h F :
  is_table t = true -> wf t -> holds h (cells t ++ cells d ++ F) -> key_ok ks ->
  exists c t' rest h', sym_put e (ptr_of t) (key_text ks) (ptr_of d) flags h = Done c h' /\ puts flags d ks t c t' /\
    holds h' (cells t' ++ rest ++ F) /\ (c <> 0 -> h' = h /\ rest = cells d) /\ (c = 0 -> rest = left_over t ks).
Proof.
  intros Ht Hw Hh Hk. destruct (split_key ks Hk) as (keys & n & Es & Ea & Hfree).
  pose proof (search_ok ks t None h _ Ht Hw Hh) as Hse. destruct ks as [|k ks]; [now destruct Hk|].
  destruct (put_found_ok flags d k ks t None h F Ht Hw Hh) as (c & t' & rest & h' & E1 & Hp & H1 & H2). exists c, t', rest, h'. split; [|done].
  unfold sym_put. rewrite Es, Ea. destruct (ptr_of t) as [l|] eqn:Ep; [|now destruct t]. rewrite (bind_Done _ _ _ _ _ Hse).
  destruct (tsearch t (k :: ks) None) as [[|k' kk] csym nsym|]; cbn [put_found] in E1.
  - now rewrite (bind_Done _ _ _ _ _ (Hfree h)).
  - apply bind_inv_Done in E1 as (u & h1 & E0 & E1). rewrite (bind_Done _ _ _ _ _ E0), (bind_Done _ _ _ _ _ (Hfree h1)). exact E1.
  - now rewrite (bind_Done _ _ _ _ _ (Hfree h)).
Qed.
End Env.

(** ** The tree after putting *)

Lemma es_find_app es es' k : es_find (es ++ es') k = match es_find es k with Some x => Some x | None => es_find es' k end.
Proof. unfold es_find. induction es as [|x es IH]; cbn; [done|]. now destruct (streq (e_key x) k). Qed.

Lemma chain_find d k ks x : chain d k ks x -> e_key x = k /\ tfind (e_val x) ks = Some d.
Proof.
  induction 1 as [k n kl|k k' ks n kl l x Hc [IH1 IH2]]; [done|]. split; [done|]. cbn. unfold es_find. cbn. rewrite IH1, streq_refl. cbn. done.
Qed.

Lemma puts_find flags d ks t t' : puts flags d ks t 0 t' -> tfind t' ks = Some d.
Proof.
  intros Hp. remember 0 as c eqn:Ec. induction Hp as [k ks l cur es x Ef Hc| |k l cur es x Ef Hf| |k k' ks l cur es x c t' Ef Et Hp IH]; try done; cbn [tfind entries].
  - destruct (chain_find d k ks x Hc) as [Hk Hd]. rewrite es_find_app, Ef. unfold es_find. cbn. rewrite Hk, streq_refl. exact Hd.
  - now rewrite (es_set_find es k x d Ef).
  - rewrite (es_set_find es k x t' Ef). cbn [mbind option_bind e_val]. now apply IH.
Qed.

(** Along a chain of new tables there is nothing else. *)
Lemma chain_other d k ks x qs : chain d k ks x -> ~ ks `prefix_of` qs -> ~ qs `prefix_of` ks -> tfind (e_val x) qs = None.
Proof.
  intros Hc. revert qs. induction Hc as [k n kl|k k' ks n kl l x Hc IH]; intros qs H1 H2; [destruct H1; apply prefix_nil|].
  destruct qs as [|q qs]; [destruct H2; apply prefix_nil|]. cbn. unfold es_find. cbn. destruct (chain_find _ _ _ _ Hc) as [-> _].
  destruct (streq k' q) eqn:E; [|done]. apply streq_true in E as ->. cbn. apply IH; intros H; [apply H1|apply H2]; now apply prefix_cons.
Qed.

Lemma puts_other flags d ks t c t' qs :
  puts flags d ks t c t' -> ~ ks `prefix_of` qs -> ~ qs `prefix_of` ks -> tfind t' qs = tfind t qs.
Proof.
  intros Hp. revert qs. induction Hp as [k ks l cur es x Ef Hc| |k l cur es x Ef Hf| |k k' ks l cur es x c t' Ef Et Hp IH]; intros qs H1 H2; try done;
    (destruct qs as [|q qs]; [destruct H2; apply prefix_nil|]); cbn [tfind entries].
  - rewrite es_find_app. destruct (es_find es q) as [y|] eqn:Eq; [done|]. unfold es_find. cbn. destruct (chain_find _ _ _ _ Hc) as [-> _].
    destruct (streq k q) eqn:E; [|done]. apply streq_true in E as ->. cbn. apply (chain_other d q ks x qs Hc); intros Hp; [apply H1|apply H2]; now apply prefix_cons.
  - assert (k <> q) by (intros ->; apply H1, prefix_cons, prefix_nil). now rewrite es_set_other.
  - destruct (decide (k = q)) as [<-|Hne]; [|now rewrite es_set_other]. rewrite (es_set_find es k x t' Ef), Ef. cbn.
    apply IH; intros H; [apply H1|apply H2]; now apply prefix_cons.
Qed.

Lemma es_set_wf es k t : Forall (fun e => wf (e_val e)) es -> wf t -> Forall (fun e => wf (e_val e)) (es_set es k t).
Proof. intros Hes Ht. induction Hes as [|x es Hx Hes IH]; cbn; [constructor|]. destruct (streq (e_key x) k); constructor; done. Qed.

Lemma puts_wf flags d ks t c t' : wf t -> wf d -> puts flags d ks t c t' -> wf t'.
Proof.
  intros Hw Hd Hp. revert Hw. induction Hp as [k ks l cur es x Ef Hc| |k l cur es x Ef Hf| |k k' ks l cur es x c t' Ef Et Hp IH]; intros Hw; try done;
    inversion_clear Hw as [| |? ? ? Hall]; constructor.
  - apply Forall_app. split; [done|]. constructor; [|constructor]. clear Ef. induction Hc; [done|]. constructor. now constructor.
  - now apply es_set_wf.
  - apply es_set_wf; [done|]. apply IH. eapply es_find_wf; eauto.
Qed.

(** A path that goes through a value which is not a table. *)
Definition blocked (t : tree) (ks : list cstr) : Prop :=
  exists p q v, ks = p ++ q /\ p <> [] /\ q <> [] /\ tfind t p = Some v /\ is_table v = false.

Lemma blocked_in k k' ks l cur es x : es_find es k = Some x -> is_table (e_val x) = true ->
  blocked (Tab l cur es) (k :: k' :: ks) <-> blocked (e_val x) (k' :: ks).
Proof.
  intros Ef Et. split.
  - intros (p & q & v & Eq & Hp & Hq & Hv & Hn). destruct p as [|a p]; [done|]. cbn in Eq. injection Eq as <- Eq. cbn [tfind entries] in Hv. rewrite Ef in Hv. cbn [mbind option_bind] in Hv.
    exists p, q, v. repeat split; try done. intros ->. cbn in Hv. congruence.
  - intros (p & q & v & Eq & Hp & Hq & Hv & Hn). exists (k :: p), q, v. repeat split; try done; cbn [tfind entries app]; [now rewrite Eq|]. now rewrite Ef.
Qed.

Lemma puts_code flags d ks t c t' : puts flags d ks t c t' ->
  (c = ENOTDIR /\ blocked t ks \/ c = EEXIST /\ flags <> PUT_REPLACE /\ is_Some (tfind t ks) /\ ~ blocked t ks \/
   c = 0 /\ (tfind t ks = None \/ flags = PUT_REPLACE) /\ ~ blocked t ks).
Proof.
  induction 1 as [k ks l cur es x Ef Hc|k l cur es x Ef Hf|k l cur es x Ef Hf|k k' ks l cur es x Ef Et|k k' ks l cur es x c t' Ef Et Hp IH].
  - right; right. split; [done|]. cbn [tfind entries]. rewrite Ef. split; [now left|]. intros (p & q & v & Eq & Hp & _ & Hv & _).
    destruct p as [|a p]; [done|]. cbn [tfind entries app] in Eq, Hv. injection Eq as <- _. now rewrite Ef in Hv.
  - right; left. split; [done|]. split; [done|]. cbn [tfind entries]. rewrite Ef. split; [now eexists|]. intros (p & q & v & Eq & Hp & Hq & _).
    destruct p as [|? [|? ?]], q; done.
  - right; right. split; [done|]. split; [now right|]. intros (p & q & v & Eq & Hp & Hq & _). destruct p as [|? [|? ?]], q; done.
  - left. split; [done|]. exists [k], (k' :: ks), (e_val x). cbn [tfind entries]. rewrite Ef. repeat split; done.
  - cbn [tfind entries]. rewrite Ef. cbn [mbind option_bind]. rewrite (blocked_in k k' ks l cur es x Ef Et). exact IH.
Qed.

(** ** Properties *)

(** C12: Putting a value under a key: the error says what is in the way and leaves the
    table alone; otherwise the key has the value afterwards, and every key that is
    neither above nor below it reads as before.  The rest of the heap is not
    touched. *)
Theorem sym_put_get e flags d ks t h F :
  mem_ok e -> is_table t = true -> wf t -> wf d -> holds h (cells t ++ cells d ++ F) -> key_ok ks ->
  exists c t' rest h',
    sym_put e (ptr_of t) (key_text ks) (ptr_of d) flags h = Done c h' /\
    (c = ENOTDIR /\ blocked t ks \/ c = EEXIST /\ flags <> PUT_REPLACE /\ is_Some (tfind t ks) /\ ~ blocked t ks \/
     c = 0 /\ (tfind t ks = None \/ flags = PUT_REPLACE) /\ ~ blocked t ks) /\
    (c <> 0 -> h' = h) /\
    holds h' (cells t' ++ rest ++ F) /\ wf t' /\ ptr_of t' = ptr_of t /\
    (c = 0 -> sym_get e (ptr_of t) (key_text ks) h' = Done (ptr_of d) h') /\
    (forall qs, key_ok qs -> ~ ks `prefix_of` qs -> ~ qs `prefix_of` ks ->
       exists p, sym_get e (ptr_of t) (key_text qs) h = Done p h /\ sym_get e (ptr_of t) (key_text qs) h' = Done p h').
Proof.
  intros Hm Ht Hw Hd Hh Hk. destruct (put_ok e Hm flags d ks t h F Ht Hw Hh Hk) as (c & t' & rest & h' & E1 & Hp & H1 & H2).
  destruct (puts_ptr _ _ _ _ _ _ Hp) as [Hptr Ht']. pose proof (puts_wf _ _ _ _ _ _ Hw Hd Hp) as Hw'.
  exists c, t', rest, h'. split; [done|]. split; [exact (puts_code _ _ _ _ _ _ Hp)|]. split; [intros Hc; now apply H2|]. split; [done|]. split; [done|]. split; [done|]. split.
  - intros ->. rewrite <- Hptr, (get_keys e Hm t' ks h' _ Ht' Hw' H1 Hk), (puts_find _ _ _ _ _ Hp). done.
  - intros qs Hq N1 N2. exists (tfind t qs ≫= ptr_of). split; [exact (get_keys e Hm t qs h _ Ht Hw Hh Hq)|].
    rewrite <- Hptr, (get_keys e Hm t' qs h' _ Ht' Hw' H1 Hq), (puts_other _ _ _ _ _ _ _ Hp N1 N2). done.
Qed.

(** ** Stepping *)

(** [sym_seq] with R_FIRST and then [n] times with R_NEXT. *)
Fixpoint steps (e : menv) (l : loc) (n : nat) : H (Z * option (loc * ptr)) :=
  match n with
  | O => sym_seq e l [] R_FIRST
  | S n => steps e l n;; sym_seq e l [] R_NEXT
  end.

Definition step_answer (es : list (ent tree)) (n : nat) : Z * option (loc * ptr) :=
  match es !! n with Some x => (0, Some (e_kloc x, ptr_of (e_val x))) | None => (1, None) end.

Lemma at_cursor_ok es n l cur h F :
  holds h (cells (Tab l cur es) ++ F) ->
  exists h', at_cursor l (head_ptr es None) (e_node <$> es !! n) h = Done (step_answer es n) h' /\
    holds h' (cells (Tab l (e_node <$> es !! n) es) ++ F).
Proof.
  intros Hh. rewrite !cells_Tab in *. assert (H1 := holds_write _ _ _ (Symh (head_ptr es None) (e_node <$> es !! n)) _ Hh).
  eexists. split; [|exact H1]. unfold at_cursor, step_answer, write. rewrite (bind_Done (modify _) _ tt h _ eq_refl).
  destruct (es !! n) as [x|] eqn:En; [|done]. cbn [fmap option_fmap option_map] in *.
  rewrite (bind_Done _ _ _ _ _ (load_sym_ok _ _ _ _ _ (holds_in _ _ _ _ H1 ltac:(right; apply elem_of_app; left; exact (es_cell_nth es n x En))))). done.
Qed.

(** Stepping through a table gives its entries in their order, each once, and then
    the answer that there are no more. *)
Theorem sym_seq_walks e l cur es h F n :
  holds h (cells (Tab l cur es) ++ F) ->
  exists h', steps e l n h = Done (step_answer es n) h' /\ holds h' (cells (Tab l (e_node <$> es !! n) es) ++ F).
Proof.
  intros Hh. induction n as [|n (h1 & E1 & H1)].
  - destruct (at_cursor_ok es 0 l cur h F Hh) as (h' & E1 & H1). exists h'. split; [|done]. cbn [steps]. unfold sym_seq. cbn -[at_cursor mbind].
    rewrite cells_Tab in Hh. rewrite (bind_Done _ _ _ _ _ (load_symh_ok _ _ _ _ (holds_head _ _ _ _ Hh))). rewrite <- E1. now destruct es.
  - cbn [steps]. rewrite (bind_Done _ _ _ _ _ E1). unfold sym_seq. cbn -[at_cursor mbind step_answer].
    assert (Hl : h1 !! l = Some (Symh (head_ptr es None) (e_node <$> es !! n))) by (rewrite cells_Tab in H1; exact (holds_head _ _ _ _ H1)).
    rewrite (bind_Done _ _ _ _ _ (load_symh_ok _ _ _ _ Hl)). destruct (es !! n) as [x|] eqn:En; cbn [fmap option_fmap option_map].
    + assert (Hx : h1 !! e_node x = Some (Sym (e_node <$> es !! S n) (e_kloc x) (ptr_of (e_val x)))).
      { rewrite cells_Tab in H1. eapply holds_in; [exact H1|]. right. apply elem_of_app. left. now apply es_cell_nth. }
      rewrite (bind_Done _ _ _ _ _ (load_sym_ok _ _ _ _ _ Hx)). destruct (at_cursor_ok es (S n) l _ h1 F H1) as (h' & E2 & H2). eauto.
    + assert (E0 : es !! S n = None) by (apply lookup_ge_None; apply lookup_ge_None in En; lia). exists h1. unfold step_answer. rewrite E0. done.
Qed.

(** ** Removing *)

Definition freed_from (L : list loc) (h h' : heap) : Prop := forall l, h' !! l = if decide (l ∈ L) then None else h !! l.

Lemma freed_app L1 L2 h h1 h2 : freed_from L1 h h1 -> freed_from L2 h1 h2 -> freed_from (L1 ++ L2) h h2.
Proof.
  intros F1 F2 l. rewrite (F2 l), (F1 l). repeat case_decide; try done; rewrite elem_of_app in *; tauto.
Qed.

Lemma freed_holds L h h' A B : freed_from L h h' -> L ⊆ map fst A -> holds h (A ++ B) -> holds h' B.
Proof.
  intros Hf Hs [H1 H2]. rewrite map_app in H1. apply NoDup_app in H1 as (_ & H1 & H3). split; [done|]. intros l b Hin. rewrite (Hf l).
  rewrite decide_False; [apply H2, elem_of_app; now right|]. intros Hl%Hs. apply (H1 l Hl), list_elem_of_In, (List.in_map fst _ (l, b)), list_elem_of_In. done.
Qed.

Lemma free_ok l b h : h !! l = Some b -> exists h', free (Some l) h = Done tt h' /\ freed_from [l] h h'.
Proof.
  intros Hl. unfold free. rewrite Hl. eexists. split; [done|]. intros l'. case_decide as Hd.
  - apply list_elem_of_singleton in Hd as ->. apply lookup_delete_eq.
  - apply lookup_delete_ne. intros ->. apply Hd. left.
Qed.

Lemma freed_nil h : freed_from [] h h.
Proof. intros l. rewrite decide_False; [done|]. apply not_elem_of_nil. Qed.

Definition if_list (b : bool) (L : list loc) : list loc := if b then L else [].

(** What [rm_loop] frees. *)
Fixpoint inner (flags : Z) (t : tree) : list loc :=
  match t with
  | Nul => []
  | Raw l _ => if_list (negb (flag flags RM_DATA)) [l]
  | Tab l _ es =>
      (fix go (es : list (ent tree)) : list loc :=
         match es with
         | [] => []
         | x :: es => inner flags (e_val x) ++ if_list (flag flags RM_KEY) [e_kloc x] ++
                      if_list (flag flags RM_DATA) (option_list (ptr_of (e_val x))) ++ [e_node x] ++ go es
         end) es ++ if_list (negb (flag flags RM_DATA)) [l]
  end.

Fixpoint es_inner (flags : Z) (es : list (ent tree)) : list loc :=
  match es with
  | [] => []
  | x :: es => inner flags (e_val x) ++ if_list (flag flags RM_KEY) [e_kloc x] ++
               if_list (flag flags RM_DATA) (option_list (ptr_of (e_val x))) ++ [e_node x] ++ es_inner flags es
  end.

Lemma inner_Tab flags l cur es : inner flags (Tab l cur es) = es_inner flags es ++ if_list (negb (flag flags RM_DATA)) [l].
Proof. cbn. f_equal. induction es as [|x es IH]; cbn; [done|]. now rewrite IH. Qed.

(** The blocks of a table: without those of the keys unless RM_KEY is given. *)
Definition chosen (flags : Z) (c : loc * block) : bool := match c.2 with Str _ => flag flags RM_KEY | _ => true end.
Definition chosen_of (flags : Z) (cs : list (loc * block)) : list loc := map fst (List.filter (chosen flags) cs).

Lemma chosen_app flags a b : chosen_of flags (a ++ b) = chosen_of flags a ++ chosen_of flags b.
Proof. unfold chosen_of. now rewrite List.filter_app, map_app. Qed.

Lemma chosen_sub flags cs : chosen_of flags cs ⊆ map fst cs.
Proof.
  intros l Hl. apply list_elem_of_In, List.in_map_iff in Hl as ([l' b] & <- & Hin). apply List.filter_In in Hin as [Hin _].
  now apply list_elem_of_In, (List.in_map fst _ (l', b)).
Qed.

Lemma es_inner_chosen flags es :
  Forall (fun x => inner flags (e_val x) ++ if_list (flag flags RM_DATA) (option_list (ptr_of (e_val x))) ≡ₚ chosen_of flags (cells (e_val x))) es ->
  forall tl, es_inner flags es ≡ₚ chosen_of flags (es_cells tl es).
Proof.
  intros Hes tl. induction Hes as [|x es Hx Hes IH]; [done|]. cbn [es_inner es_cells].
  change (?a :: ?b :: ?c ++ ?d) with ([a] ++ [b] ++ c ++ d). rewrite !chosen_app, <- Hx, <- IH.
  change (chosen_of flags [(e_node x, Sym (head_ptr es tl) (e_kloc x) (ptr_of (e_val x)))]) with [e_node x].
  assert (Hk : chosen_of flags [(e_kloc x, Str (e_key x))] = if_list (flag flags RM_KEY) [e_kloc x]) by (unfold chosen_of; cbn; now destruct (flag flags RM_KEY)).
  rewrite Hk. perm.
Qed.

Lemma inner_chosen flags t : inner flags t ++ if_list (flag flags RM_DATA) (option_list (ptr_of t)) ≡ₚ chosen_of flags (cells t).
Proof.
  induction t as [|l v|l cur es IH] using tree_nested.
  - cbn. now destruct (flag flags RM_DATA).
  - cbn. now destruct (flag flags RM_DATA).
  - rewrite inner_Tab, cells_Tab. change (?a :: ?b) with ([a] ++ b). rewrite chosen_app, <- (es_inner_chosen flags es IH None).
    change (chosen_of flags [(l, Symh (head_ptr es None) cur)]) with [l]. destruct (flag flags RM_DATA); cbn [if_list negb option_list ptr_of]; perm.
Qed.

Section Remove.
Variable flags : Z.

(** The loop of [sym_rm] over the entries of a table. *)
Fixpoint rm_entries (f : nat) (se : ptr) : H unit :=
  match se with
  | None => mret tt
  | Some n =>
      match f with
      | O => undefined
      | S f =>
          '(_, _, data) ← load_sym n;
          rm_loop f data flags;;
          '(nse, k, data) ← load_sym n;
          when (flag flags RM_KEY) (free (Some k));;
          when (flag flags RM_DATA) (free data);;
          free (Some n);;
          rm_entries f nse
      end
  end.

Lemma rm_loop_Some fuel l :
  rm_loop (S fuel) (Some l) flags =
    (m ← has_magic l;
     if negb m then when (negb (flag flags RM_DATA)) (free (Some l))
     else '(first, _) ← load_symh (Some l); rm_entries (S fuel) first;; when (negb (flag flags RM_DATA)) (free (Some l))).
Proof. reflexivity. Qed.

Lemma when_free b p h : (b = true -> forall l, p = Some l -> exists x, h !! l = Some x) ->
  exists h', when b (free p) h = Done tt h' /\ freed_from (if_list b (option_list p)) h h'.
Proof.
  intros Hp. destruct b; cbn [when if_list]; [|exists h; split; [done|apply freed_nil]].
  destruct p as [l|]; [|exists h; split; [done|apply freed_nil]]. destruct (Hp eq_refl l eq_refl) as [x Hx]. exact (free_ok l x h Hx).
Qed.

Definition rm_fine (t : tree) : Prop := forall fuel h F,
  wf t -> holds h (cells t ++ F) -> (length (cells t) <= fuel)%nat ->
  exists h', rm_loop fuel (ptr_of t) flags h = Done tt h' /\ freed_from (inner flags t) h h'.

Lemma inner_sub t : inner flags t ⊆ map fst (cells t).
Proof.
  intros l Hl. apply (chosen_sub flags). rewrite <- inner_chosen. apply elem_of_app. now left.
Qed.

Lemma es_inner_sub es : es_inner flags es ⊆ map fst (es_cells None es).
Proof.
  intros l Hl. apply (chosen_sub flags). rewrite <- (es_inner_chosen flags es); [done|]. apply List.Forall_forall. intros x _. apply inner_chosen.
Qed.

(** What [rm_loop] leaves of a value with RM_DATA: its root. *)
Lemma root_left t h h1 F : holds h (cells t ++ F) -> freed_from (inner flags t) h h1 ->
  exists R, holds h1 (R ++ F) /\ (flag flags RM_DATA = true -> map fst R = option_list (ptr_of t)).
Proof.
  intros Hh Hf. destruct (flag flags RM_DATA) eqn:Hd; [|exists []; split; [exact (freed_holds _ _ _ _ _ Hf (inner_sub t) Hh)|done]].
  destruct t as [|l v|l cur es].
  - exists []. split; [|done]. exact (freed_holds _ _ _ _ _ Hf (inner_sub Nul) Hh).
  - exists [(l, Data v)]. split; [|done]. cbn in Hf. rewrite Hd in Hf. exact (freed_holds _ _ _ [] _ Hf (reflexivity _) Hh).
  - exists [(l, Symh (head_ptr es None) cur)]. split; [|done]. rewrite inner_Tab, Hd in Hf. cbn [negb if_list] in Hf. rewrite app_nil_r in Hf.
    eapply (freed_holds _ _ _ _ _ Hf (es_inner_sub es)), holds_perm; [|exact Hh]. rewrite cells_Tab. perm.
Qed.

Lemma rm_entries_ok es : Forall (fun x => rm_fine (e_val x)) es -> Forall (fun x => wf (e_val x)) es ->
  forall fuel h F, holds h (es_cells None es ++ F) -> (length (es_cells None es) <= fuel)%nat ->
  exists h', rm_entries fuel (head_ptr es None) h = Done tt h' /\ freed_from (es_inner flags es) h h'.
Proof.
  induction 1 as [|x es Hx Hes IH]; intros Hw fuel h F Hh Hf; [exists h; split; [now destruct fuel|apply freed_nil]|].
  inversion_clear Hw as [|? ? Hwx Hwes]. destruct fuel as [|fuel]; [cbn in Hf; lia|]. cbn [es_cells] in Hh, Hf. cbn [length] in Hf. rewrite length_app in Hf.
  set (node := (e_node x, Sym (head_ptr es None) (e_kloc x) (ptr_of (e_val x)))) in *. set (kc := (e_kloc x, Str (e_key x))) in *.
  assert (H0 : holds h (cells (e_val x) ++ [node] ++ [kc] ++ es_cells None es ++ F)) by (eapply holds_perm; [|exact Hh]; perm).
  destruct (Hx fuel h _ Hwx H0 ltac:(lia)) as (h1 & E1 & F1). destruct (root_left _ _ _ _ H0 F1) as (R & H1 & HR).
  destruct (when_free (flag flags RM_KEY) (Some (e_kloc x)) h1) as (h2 & E2 & F2).
  { intros _ l [= <-]. exists (Str (e_key x)). eapply holds_in; [exact H1|]. apply elem_of_app. right. right. left. }
  assert (H2 : holds h2 (R ++ [node] ++ es_cells None es ++ F)).
  { eapply (freed_holds _ _ _ [kc] _ F2); [destruct (flag flags RM_KEY); set_solver|]. eapply holds_perm; [|exact H1]. perm. }
  destruct (when_free (flag flags RM_DATA) (ptr_of (e_val x)) h2) as (h3 & E3 & F3).
  { intros Hd l Hl. specialize (HR Hd). rewrite Hl in HR. destruct R as [|[l' b] R]; [done|]. cbn in HR. injection HR as -> _. exists b. exact (holds_head _ _ _ _ H2). }
  assert (H3 : holds h3 ([node] ++ es_cells None es ++ F)).
  { eapply (freed_holds _ _ _ R _ F3); [|exact H2]. destruct (flag flags RM_DATA); [rewrite HR by done; done|set_solver]. }
  destruct (free_ok _ _ h3 (holds_head _ _ _ _ H3)) as (h4 & E4 & F4).
  assert (H4 : holds h4 (es_cells None es ++ F)) by (eapply (freed_holds _ _ _ [node] _ F4); [done|exact H3]).
  destruct (IH Hwes fuel h4 F H4 ltac:(lia)) as (h5 & E5 & F5). exists h5. split.
  - cbn [rm_entries head_ptr]. rewrite (bind_Done _ _ _ _ _ (load_sym_ok _ _ _ _ _ (holds_head _ _ _ _ Hh))), (bind_Done _ _ _ _ _ E1).
    assert (Hn : h1 !! e_node x = Some (Sym (head_ptr es None) (e_kloc x) (ptr_of (e_val x)))) by (eapply holds_in; [exact H1|]; apply elem_of_app; right; left).
    rewrite (bind_Done _ _ _ _ _ (load_sym_ok _ _ _ _ _ Hn)), (bind_Done _ _ _ _ _ E2), (bind_Done _ _ _ _ _ E3), (bind_Done _ _ _ _ _ E4). exact E5.
  - cbn [es_inner]. exact (freed_app _ _ _ _ _ F1 (freed_app _ _ _ _ _ F2 (freed_app _ _ _ _ _ F3 (freed_app _ _ _ _ _ F4 F5)))).
Qed.

Lemma rm_ok t : rm_fine t.
Proof.
  induction t as [|l v|l cur es IH] using tree_nested; intros fuel h F Hw Hh Hf.
  - exists h. split; [now destruct fuel|apply freed_nil].
  - destruct fuel as [|fuel]; [cbn in Hf; lia|]. inversion_clear Hw as [|? ? Hv|].
    assert (Hm : has_magic l h = Done false h) by (unfold has_magic; rewrite (holds_head _ _ _ _ Hh); now rewrite (proj2 (streq_false _ _) Hv)).
    cbn [ptr_of]. rewrite rm_loop_Some, (bind_Done _ _ _ _ _ Hm). cbn [negb]. apply (when_free _ (Some l)).
    intros _ l' [= <-]. eexists. exact (holds_head _ _ _ _ Hh).
  - inversion_clear Hw as [| |? ? ? Hall]. rewrite cells_Tab in Hh, Hf. cbn [length] in Hf. destruct fuel as [|fuel]; [lia|].
    assert (Hs : holds h (es_cells None es ++ (l, Symh (head_ptr es None) cur) :: F)) by (eapply holds_perm; [|exact Hh]; perm).
    destruct (rm_entries_ok es IH Hall (S fuel) h _ Hs ltac:(lia)) as (h1 & E1 & F1).
    pose proof (holds_head _ _ _ _ (freed_holds _ _ _ _ _ F1 (es_inner_sub es) Hs)) as Hl1.
    destruct (when_free (negb (flag flags RM_DATA)) (Some l) h1) as (h2 & E2 & F2); [intros _ l' [= <-]; eauto|].
    assert (Hm : has_magic l h = Done true h) by (unfold has_magic; now rewrite (holds_head _ _ _ _ Hh)).
    exists h2. cbn [ptr_of]. rewrite rm_loop_Some, (bind_Done _ _ _ _ _ Hm). cbn [negb].
    rewrite (bind_Done _ _ _ _ _ (load_symh_ok _ _ _ _ (holds_head _ _ _ _ Hh))), (bind_Done _ _ _ _ _ E1). split; [exact E2|].
    rewrite inner_Tab. exact (freed_app _ _ _ _ _ F1 F2).
Qed.
End Remove.


(** ** Examples *)

Definition sample_menv : menv := mkMenv (fun h => Some (fresh (dom h))) all_alloc true.

Lemma sample_mem : mem_ok sample_menv.
Proof. split; try done. intros h. exists (fresh (dom h)). split; [done|]. apply not_elem_of_dom, is_fresh. Qed.

(** An empty table and a value of the caller. *)
Definition sample_heap : heap := {[1%positive := Symh None None; 2%positive := Data §"v"]}.
Definition sample_tree : tree := Tab 1%positive None [].
Definition sample_value : tree := Raw 2%positive §"v".

Lemma sample_holds : holds sample_heap (cells sample_tree ++ cells sample_value ++ []).
Proof.
  split; [apply (bool_decide_unpack _); vm_compute; exact I|].
  intros l b Hin. cbn in Hin. rewrite !elem_of_cons in Hin. destruct Hin as [[= -> ->]|[[= -> ->]|[]%not_elem_of_nil]]; reflexivity.
Qed.

Lemma sample_key : key_ok [§"a"; §"b"].
Proof. split; [done|]. repeat constructor; set_solver. Qed.

Lemma sym_put_get_witness : exists c h',
  sym_put sample_menv (ptr_of sample_tree) (key_text [§"a"; §"b"]) (ptr_of sample_value) 0 sample_heap = Done c h' /\
  (c = 0 -> sym_get sample_menv (ptr_of sample_tree) (key_text [§"a"; §"b"]) h' = Done (ptr_of sample_value) h').
Proof.
  destruct (sym_put_get sample_menv 0 sample_value [§"a"; §"b"] sample_tree sample_heap [] sample_mem eq_refl (wf_Tab _ _ _ (List.Forall_nil _))
    (wf_Raw _ §"v" ltac:(done)) sample_holds sample_key) as (c & t' & rest & h' & H1 & _ & _ & _ & _ & _ & H2 & _).
  exists c, h'. split; [exact H1|exact H2].
Defined.

(** A table with two entries of the same value NULL. *)
Definition sample_entries : list (ent tree) := [Ent 2%positive 3%positive §"a" Nul; Ent 4%positive 5%positive §"b" Nul].
Definition sample_heap2 : heap := list_to_map (cells (Tab 1%positive None sample_entries)).

Lemma sample_holds2 : holds sample_heap2 (cells (Tab 1%positive None sample_entries) ++ []).
Proof.
  assert (Hn : NoDup (map fst (cells (Tab 1%positive None sample_entries) ++ []))) by (apply (bool_decide_unpack _); vm_compute; exact I).
  split; [exact Hn|]. intros l b Hin. apply elem_of_list_to_map_1; [rewrite app_nil_r in Hn; exact Hn|]. now rewrite app_nil_r in Hin.
Qed.

Lemma sym_seq_walks_witness : exists h',
  steps sample_menv 1%positive 1 sample_heap2 = Done (step_answer sample_entries 1) h' /\
  holds h' (cells (Tab 1%positive (e_node <$> sample_entries !! 1%nat) sample_entries) ++ []).
Proof. exact (sym_seq_walks sample_menv 1%positive None sample_entries sample_heap2 [] 1 sample_holds2). Defined.


(** A key without parts reads through NULL, and a key that starts with a comma makes
    [splitstr_free] free a pointer inside a block. *)
Lemma bad_keys_undefined :
  sym_get sample_menv (Some 1%positive) §"" sample_heap = Undefined /\
  sym_put sample_menv (Some 1%positive) §",a" None 0 sample_heap = Undefined.
Proof. split; vm_compute; reflexivity. Qed.
