(* ===== verification/PanReport.v ===== *)
(** The report of the scanner of pan (pan/tag_report.c) and the end of a test in
    pan/reporter.c, with the report of all tests: the records of a test are kept in symbol tables, the worst result
    of a test case wins, and a line is printed for each.

    A [char *] is a literal of the program or a block of the heap; writing to a literal
    is undefined. *)
From Stdlib Require Import Ascii String ZArith Lia Bool.
From stdpp Require Import base list sets numbers gmap.
From S2P Require Import Prelude CString Splitstr Effects PanSym.

Local Open Scope Z_scope.

Definition KEYSIZE : nat := 255.

(** The heap, the lines on the standard output and on the standard error. *)
Record rst := mkRst { r_heap : heap; r_out : list cstr; r_err : list cstr; r_notag : Z }.

Abbreviation R := (E rst).

Definition lift {A} (m : H A) : R A := fun s =>
  match m (r_heap s) with
  | Done a h => Done a (mkRst h (r_out s) (r_err s) (r_notag s))
  | Exited c h => Exited c (mkRst h (r_out s) (r_err s) (r_notag s))
  | Undefined => Undefined
  end.

Definition put_line (line : cstr) : R unit := modify (fun s => mkRst (r_heap s) (r_out s ++ [line]) (r_err s) (r_notag s)).
Definition put_error (line : cstr) : R unit := modify (fun s => mkRst (r_heap s) (r_out s) (r_err s ++ [line]) (r_notag s)).

(** ** Pointers to text *)

Inductive text := Lit (s : cstr) | At (l : loc).

Definition load_block (l : loc) : H cstr := fun h =>
  match h !! l with Some (Data s) | Some (Str s) => Done s h | _ => Undefined end.

Definition load_text (t : text) : H cstr := match t with Lit s => mret s | At l => load_block l end.

Definition of_ptr (p : ptr) : option text := At <$> p.

Definition unspace (s : cstr) : cstr := map (fun c => if ceqb c " " then "_"%char else c) s.

(** The loop that turns blanks into underscores; it writes only where there is one. *)
Definition no_blanks (t : text) : H unit :=
  s ← load_text t;
  if memc " " s then
    match t with
    | Lit _ => undefined
    | At l => fun h => match h !! l with
              | Some (Data s) => Done tt (<[l := Data (unspace s)]> h)
              | Some (Str s) => Done tt (<[l := Str (unspace s)]> h)
              | _ => Undefined
              end
    end
  else mret tt.

Section Report.
Variable e : menv.

Definition strdup (s : cstr) : H ptr := alloc_block e (Data s).

(** ** The worst result *)

Definition worst : list cstr := [§"FAIL"; §"BROK"; §"PASS"; §"CONF"; §"WARN"; §"INFO"].

(** The index in the table, its length when the text is not there. *)
Fixpoint index_in (l : list cstr) (s : cstr) : nat :=
  match l with [] => 0 | w :: l => if streq s w then 0 else S (index_in l s) end.

(** The first argument is the one that is returned. *)
Definition first_worse (t1 t2 : cstr) : bool := (index_in worst t1 <? index_in worst t2)%nat.
Definition worst_case (t1 t2 : cstr) : cstr := if first_worse t1 t2 then t1 else t2.

(** ** Lines *)

(** FORMAT, "%-20.20s %-15.15s %10.10s %-20.20s %s". *)
Definition right_field (n : nat) (s : cstr) : cstr := replicate (n - length (take n s)) " "%char ++ take n s.

Definition FORMAT (tag tcid tc result contact : cstr) : cstr :=
  fmt_pad 20 tag ++ §" " ++ fmt_pad 15 tcid ++ §" " ++ right_field 10 tc ++ §" " ++ fmt_pad 20 result ++ §" " ++ contact.

Fixpoint print_each (conts : list cstr) (line : cstr -> cstr) : R unit :=
  match conts with
  | [] => mret tt
  | c :: conts => put_line (line c);; print_each conts line
  end.

Definition test_result (tag tcid tc result : option text) (tags : ptr) : R Z :=
  let tcid := default (Lit §"-") tcid in
  let tc := default (Lit §"-") tc in
  let tag := default (Lit §"test_result: no tag") tag in
  let result := default (Lit §"(RESULT IS NULL)") result in
  x ← lift (sym_get e tags §"contacts");
  let expert := match x with None => Lit §"UNKNOWN" | Some l => At l end in
  lift (no_blanks result);;
  r ← lift (load_text result);
  let result := match r with [] => Lit §"?" | _ => result end in
  ex ← lift (load_text expert);
  match splitstr (splits e) (Some ex) (Some §",") with
  | SplitOk cont _ =>
      t1 ← lift (load_text tag); t2 ← lift (load_text tcid); t3 ← lift (load_text tc); t4 ← lift (load_text result);
      print_each (args cont) (FORMAT t1 t2 t3 t4);;
      lift (free_keys cont);;
      mret 0
  | SplitNull => undefined
  | SplitExit c => exit c
  | SplitOob => undefined
  end.

(** ** The record of a test case *)

(** [yytext] holds the line of the record. *)
Definition cuts_testcase (yytext : cstr) (tag : ptr) : H Z :=
  match strtok_all [TAB; " "%char] yytext with
  | i0 :: i1 :: i2 :: _ =>
      let key := i0 ++ §"," ++ i1 in
      if (length key <? KEYSIZE)%nat then
        old ← sym_get e tag key;
        match old with
        | Some l =>
            o ← load_block l;
            d ← strdup (worst_case o i2);
            sym_put e tag key d PUT_REPLACE;;
            free (Some l);;
            mret 0
        | None =>
            d ← strdup i2;
            sym_put e tag key d 0;;
            mret 0
        end
      else undefined
  | _ => undefined
  end.

(** ** The report of a test with CUTS results *)

(** A table is not longer than the heap: [None] behind its end. *)
Fixpoint list_tcids (fuel : nat) (tags : loc) (key : loc) (data : ptr) (acc : list loc) : R (list loc * ptr) :=
  match fuel with
  | O => undefined
  | S f =>
      k ← lift (load_block key);
      let acc := if streq k §"_keys" then acc else acc ++ [key] in
      n ← lift (sym_seq e tags [] R_NEXT);
      match n with
      | (_, Some (key, data)) => list_tcids f tags key data acc
      | _ => mret (acc, data)
      end
  end.

(** The loop over the test cases of a TCID: the overall result, the count and the
    last value of [Data]. *)
Fixpoint each_case (fuel : nat) (tags : loc) (keys : ptr) (tag : text) (tcid : loc) (key : text) (data : ptr) (result : text) (tcnum : Z)
    : R (text * Z * ptr) :=
  match fuel with
  | O => undefined
  | S f =>
      match data with
      | None => undefined
      | Some d =>
          t1 ← lift (load_text result);
          t2 ← lift (load_block d);
          let result := if first_worse t1 t2 then result else At d in
          test_result (Some tag) (Some (At tcid)) (Some key) (Some (At d)) keys;;
          k ← lift (load_text key);
          let tcnum := if atoi k =? 0 then tcnum else tcnum + 1 in
          n ← lift (sym_seq e tags [] R_NEXT);
          match n with
          | (_, Some (key, data)) => each_case f tags keys tag tcid (At key) data result tcnum
          | _ => mret (result, tcnum, data)
          end
      end
  end.

Fixpoint each_tcid (fuel : nat) (tags : loc) (keys : ptr) (tag : text) (tcids : list loc) (data : ptr) (result : text) (tcnum : Z) : R (text * Z) :=
  match tcids with
  | [] => mret (result, tcnum)
  | tcid :: tcids =>
      name ← lift (load_block tcid);
      if (length name <? KEYSIZE)%nat then
        c ← lift (sym_seq e tags name R_CURSOR);
        let '(key, data) := match c with (_, Some (k, d)) => (At k, d) | _ => (Lit name, data) end in
        '(result, tcnum, data) ← each_case fuel tags keys tag tcid key data result tcnum;
        each_tcid fuel tags keys tag tcids data result tcnum
      else undefined
  end.

Definition cuts_report (tags : loc) (keys : ptr) (at_ : cstr) (tag : text) : R Z :=
  match splitstr (splits e) (Some at_) (Some §":") with
  | SplitOk ant _ =>
      let tccount := match args ant with _ :: n :: _ => atoi n | _ => 0 end in
      lift (free_keys ant);;
      s ← get;
      first ← lift (sym_seq e tags [] R_FIRST);
      match first with
      | (_, Some (key, data)) =>
          '(tcids, data) ← list_tcids (size (r_heap s)) tags key data [];
          '(result, tcnum) ← each_tcid (size (r_heap s)) tags keys tag tcids data (Lit []) 0;
          test_result (Some tag) (Some (Lit §"*")) (Some (Lit §"*")) (Some result) keys;;
          (if negb (tccount =? 0) && negb (tccount =? tcnum)
           then test_result (Some tag) (Some (Lit §"-")) (Some (Lit §"-")) (Some (Lit §"TC count wrong")) keys
           else mret 0);;
          mret 0
      | _ => undefined
      end
  | SplitNull => undefined
  | SplitExit c => exit c
  | SplitOob => undefined
  end.

(** ** The report of a test *)

Variable extended : bool.

(** [sym_get(keys, name)] as text. *)
Definition key_of (keys : ptr) (name : cstr) : R (option text) := p ← lift (sym_get e keys name); mret (of_ptr p).

(** Its text, or another one when there is no such key. *)
Definition key_or (keys : ptr) (name other : cstr) : R text := t ← key_of keys name; mret (default (Lit other) t).

(** The analysis asked for: "none", "cuts", or the exit status. *)
Definition report_analysis (ctag : loc) (keys : ptr) (tag tt_ : text) (info : text) : R Z :=
  i ← lift (load_text info);
  t ← lift (load_text tt_);
  let result r := test_result (Some tag) None None (Some (Lit r)) keys in
  if strneq i §"none" 4 then result §"pass"
  else if negb (strneq i §"cuts" 4) then
    if streq t §"timeout" then mret 0
    else
      id ← key_of keys §"termination_id";
      match id with
      | None => result §"no_Term_Id"
      | Some id => v ← lift (load_text id); result (if streq v §"0" then §"pass" else §"fail")
      end
  else cuts_report ctag keys i tag.

(** What is reported when the test was started. *)
Definition report_started (ctag : loc) (keys : ptr) (tag : text) : R bool :=
  let result r := test_result (Some tag) None None (Some r) keys in
  core ← key_of keys §"corefile";
  match core with
  | None => mret 0
  | Some c => v ← lift (load_text c); if streq v §"no" then mret 0 else result (Lit §"coredump")
  end;;
  tt_ ← key_of keys §"termination_type";
  match tt_ with
  | None => result (Lit §"no Term Type");; mret false
  | Some tt_ =>
      v ← lift (load_text tt_);
      (if streq v §"exited" then mret 0 else result tt_);;
      info ← key_of keys §"analysis";
      match info with
      | None => result (Lit §"no Analysis Type");; mret false
      | Some info => report_analysis ctag keys tag tt_ info;; mret true
      end
  end.

Definition tab_line (fields : list cstr) : cstr := concat (map (fun f => f ++ [TAB]) fields).

Definition extended_line (keys : ptr) (tag is_ : text) : R unit :=
  ti ← key_or keys §"termination_id" §"No_Termination_ID";
  tt_ ← key_or keys §"termination_type" §"No_Termination_Type";
  duration ← key_or keys §"duration" §"No_Duration";
  sl ← key_or keys §"_Start_line" §"No_Start_line";
  el ← key_or keys §"_End_line" §"No_End_line";
  contact ← key_or keys §"contacts" §"No_Contacts";
  stime ← key_or keys §"stime" §"No_stime";
  fields ← lift (mapM load_text [tag; Lit §"!"; Lit §"!"; is_; contact; stime; duration; ti; tt_; sl; el]);
  put_line (tab_line fields).

Definition tag_report (ctag : loc) (keys : ptr) : R Z :=
  tag ← key_of keys §"tag";
  match tag with
  | None => mret (-1)
  | Some tag =>
      is_ ← key_of keys §"initiation_status";
      match is_ with
      | None => test_result (Some tag) None None (Some (Lit §"no init status")) keys;; mret (-1)
      | Some is_ =>
          v ← lift (load_text is_);
          go ← (if streq v §"ok" then report_started ctag keys tag
                else test_result (Some tag) None None (Some is_) keys;; mret true);
          if (go : bool) then when extended (extended_line keys tag is_);; mret 0 else mret (-1)
      end
  end.

(** ** The end of a test *)

Definition RM_ALL : Z := Z.lor RM_KEY RM_DATA.

Definition next_notag : R cstr := fun s =>
  Done (§"no_tag_" ++ fmt_d (r_notag s)) (mkRst (r_heap s) (r_out s) (r_err s) (s32 (r_notag s + 1))).

Definition scanner_test_end (alltags ctag keys : ptr) : R Z :=
  match alltags, keys, ctag with
  | Some _, Some _, Some _ =>
      lift (sym_put e ctag §"_keys" keys 0);;
      t ← key_of keys §"tag";
      tag ← match t with
            | Some t => lift (load_text t)
            | None =>
                tagname ← next_notag;
                put_error (§"No TAG key!  Using " ++ tagname);;
                d ← lift (strdup tagname);
                lift (sym_put e keys §"tag" d 0);;
                lift (strdup tagname);;
                mret tagname
            end;
      rm ← lift (sym_get e alltags tag);
      keep ← match rm with
             | None => mret true
             | Some _ =>
                 status ← key_of keys §"initiation_status";
                 ok ← match status with None => mret false | Some st => v ← lift (load_text st); mret (streq v §"ok") end;
                 if (ok : bool) then lift (sym_rm rm RM_ALL);; mret true
                 else lift (sym_rm ctag RM_ALL);; mret false
             end;
      if (keep : bool) then lift (sym_put e alltags tag ctag PUT_REPLACE);; mret 0 else mret 1
  | _, _, _ => mret (-1)
  end.

(** The end of a test when each is reported at once. *)
Definition iscanner_test_end (alltags ctag keys : ptr) : R Z :=
  match alltags, keys, ctag with
  | Some _, Some _, Some c => lift (sym_put e ctag §"_keys" keys 0);; tag_report c keys
  | _, _, _ => mret (-1)
  end.

(** ** The report of all tests *)

Definition put_header (line : cstr) : R unit := if extended then put_error line else put_line line.

(** The loop over the keywords of the run. *)
Fixpoint header_loop (fuel : nat) (tags key : loc) (data : ptr) : R unit :=
  match fuel with
  | O => undefined
  | S f =>
      k ← lift (load_block key);
      (if streq k §"PATH" then mret tt
       else match data with
            | None => undefined
            | Some d => v ← lift (load_block d); put_header (fmt_pad 20 k ++ §" " ++ v)
            end);;
      n ← lift (sym_seq e tags [] R_NEXT);
      match n with
      | (_, Some (key, data)) => header_loop f tags key data
      | _ => mret tt
      end
  end.

Definition print_header (tags : loc) : R Z :=
  put_header §"System Configuration:";;
  c ← lift (sym_seq e tags §"_RTS" R_CURSOR);
  match c with
  | (_, Some (key, data)) => s ← get; header_loop (size (r_heap s)) tags key data
  | _ => mret tt
  end;;
  put_header [];;
  put_header (FORMAT §"tag" §"tcid" §"testcase" §"status" §"contact");;
  put_header (replicate 79 "-"%char);;
  mret 0.

(** The keys of the table of all tags, in their order. *)
Fixpoint list_tags (fuel : nat) (tags key : loc) (acc : list loc) : R (list loc) :=
  match fuel with
  | O => undefined
  | S f =>
      let acc := acc ++ [key] in
      n ← lift (sym_seq e tags [] R_NEXT);
      match n with
      | (_, Some (key, _)) => list_tags f tags key acc
      | _ => mret acc
      end
  end.

(** [date t] is the text of [strftime] with "%x" for the time [t]. *)
Variable date : Z -> cstr.

(** The date of the first tag that has a time of start. *)
Fixpoint date_loop (tags : loc) (taglist : list loc) : R unit :=
  match taglist with
  | [] => mret tt
  | tl :: taglist =>
      name ← lift (load_block tl);
      let key_get := name ++ §",_keys,stime" in
      if (length key_get <? KEYSIZE)%nat then
        info ← lift (sym_get e (Some tags) key_get);
        match info with
        | None => date_loop tags taglist
        | Some i =>
            clock ← lift (load_block i);
            key ← lift (strdup §"_RTS,date");
            d ← lift (strdup (date (atoi clock)));
            match key with
            | None => undefined
            | Some k => key ← lift (load_block k); lift (sym_put e (Some tags) key d 0);; mret tt
            end
        end
      else undefined
  end.

Fixpoint report_loop (tags : loc) (taglist : list loc) : R Z :=
  match taglist with
  | [] => mret 0
  | tl :: taglist =>
      name ← lift (load_block tl);
      if streq name §"_RTS" then report_loop tags taglist
      else
        let key_get := name ++ §",_keys" in
        if (length key_get <? KEYSIZE)%nat then
          k ← lift (sym_get e (Some tags) key_get);
          match k with
          | None => mret 0
          | Some _ =>
              t ← lift (sym_get e (Some tags) name);
              match t with
              | None => mret 0
              | Some t => tag_report t k
              end;;
              report_loop tags taglist
          end
        else undefined
  end.

(** With no tag the code reads a key that was never set. *)
Definition scanner_reporter (tags : loc) : R Z :=
  s ← get;
  first ← lift (sym_seq e tags [] R_FIRST);
  match first with
  | (_, Some (key, _)) =>
      taglist ← list_tags (size (r_heap s)) tags key [];
      date_loop tags taglist;;
      print_header tags;;
      report_loop tags taglist
  | _ => undefined
  end.

Definition iscanner_reporter : R Z := mret 0.

(** [reporter_func] and [test_end_func], set together. *)
Inductive scanner_kind := Scanner | Iscanner.

Definition reporter (kind : scanner_kind) (s : ptr) : R Z :=
  match kind with
  | Scanner => match s with Some l => scanner_reporter l | None => undefined end
  | Iscanner => iscanner_reporter
  end.

Definition test_end (kind : scanner_kind) (a b c : ptr) : R Z :=
  match kind with
  | Scanner => scanner_test_end a b c
  | Iscanner => iscanner_test_end a b c
  end.
End Report.
