(* ===== verification/PanReportOk.v ===== *)
(** What the report of the scanner of pan keeps and prints: the worst result of each
    test case over all its records, and the lines made from it. *)
From Stdlib Require Import Ascii String ZArith Lia Bool.
From stdpp Require Import base list sets numbers gmap.
From S2P Require Import Prelude CString Splitstr Effects PanSym PanSymOk PanReport.

Local Open Scope Z_scope.

(** ** More on trees *)

Lemma es_cells_val es k x : es_find es k = Some x -> forall c, c ∈ cells (e_val x) -> c ∈ es_cells None es.
Proof.
  intros Hf c Hc. destruct (es_cells_focus es k x Hf) as (nx & L & HL). rewrite <- (es_set_same es k x Hf), HL. right. apply elem_of_app. now left.
Qed.

Lemma tfind_cells t ks v c : tfind t ks = Some v -> c ∈ cells v -> c ∈ cells t.
Proof.
  revert t. induction ks as [|k ks IH]; intros t; cbn [tfind]; [now intros [= ->]|].
  destruct t as [| |l cur es]; [done..|]. cbn [entries]. destruct (es_find es k) as [x|] eqn:Ef; [|done]. cbn. intros Hv Hc.
  change (c ∈ cells (Tab l cur es)). rewrite cells_Tab. right. eapply es_cells_val; eauto.
Qed.

Lemma tfind_wf t ks v : wf t -> tfind t ks = Some v -> wf v.
Proof.
  revert t. induction ks as [|k ks IH]; intros t Hw; cbn [tfind]; [now intros [= ->]|].
  destruct (es_find (entries t) k) as [x|] eqn:Ef; [|done]. cbn. apply IH. destruct Hw; [done..|]. now apply (es_find_wf es k).
Qed.

Lemma chain_prefix d k ks x p q : chain d k ks x -> ks = p ++ q -> q <> [] -> exists v, tfind (e_val x) p = Some v /\ is_table v = true.
Proof.
  intros Hc. revert p. induction Hc as [k n kl|k k' ks n kl l x Hc IH]; intros p Eq Hq; [now destruct p, q|].
  destruct p as [|a p]; [cbn; eauto|]. cbn in Eq. injection Eq as <- Eq. destruct (IH p Eq Hq) as (v & Hv & Ht). exists v. split; [|done].
  cbn [tfind entries e_val]. unfold es_find. cbn. destruct (chain_find _ _ _ _ Hc) as [-> _]. rewrite streq_refl. exact Hv.
Qed.

(** The tables on the way to a value that was put. *)
Lemma puts_prefix flags d ks t t' p q : puts flags d ks t 0 t' -> ks = p ++ q -> p <> [] -> q <> [] ->
  exists v, tfind t' p = Some v /\ is_table v = true.
Proof.
  intros Hp. remember 0 as c eqn:Ec. revert p. induction Hp as [k ks l cur es x Ef Hc| |k l cur es x Ef Hf| |k k' ks l cur es x c t' Ef Et Hp IH];
    intros p Eq Hpn Hq; try done; (destruct p as [|a p]; [done|]); cbn in Eq; injection Eq as <- Eq; cbn [tfind entries].
  - rewrite es_find_app, Ef. unfold es_find. cbn. destruct (chain_find _ _ _ _ Hc) as [-> _]. rewrite streq_refl. now apply (chain_prefix d k ks x p q).
  - now destruct p, q.
  - rewrite (es_set_find es k x t' Ef). cbn [mbind option_bind e_val]. destruct (decide (p = [])) as [->|Hne].
    + exists t'. split; [done|]. now apply (puts_ptr _ _ _ _ _ _ Hp).
    + now apply IH.
Qed.

(** ** The records of test cases *)

Record case := mkCase { c_tcid : cstr; c_tc : cstr; c_result : cstr }.

(** A line of output with the record. *)
Definition line_case (line : cstr) (r : case) : Prop :=
  exists rest, strtok_all [TAB; " "%char] line = c_tcid r :: c_tc r :: c_result r :: rest.

Definition case_ok (r : case) : Prop :=
  key_ok [c_tcid r; c_tc r] /\ (length (key_text [c_tcid r; c_tc r]) < KEYSIZE)%nat /\ take 4 (c_result r) <> SYM_MAGIC.

Definition same_case (a b : cstr) (r : case) : bool := streq (c_tcid r) a && streq (c_tc r) b.

(** The results of a test case, in their order, and what is left of them. *)
Definition results_of (rs : list case) (a b : cstr) : list cstr := map c_result (List.filter (same_case a b) rs).

Definition kept (l : list cstr) : option cstr := match l with [] => None | r :: l => Some (fold_left worst_case l r) end.

Lemma worst_fold l r : let v := fold_left worst_case l r in
  v ∈ r :: l /\ forall x, x ∈ r :: l -> (index_in worst v <= index_in worst x)%nat.
Proof.
  revert r. induction l as [|y l IH]; intros r; cbn [fold_left]; [split; [left|]; intros x Hx; apply list_elem_of_singleton in Hx as ->; lia|].
  destruct (IH (worst_case r y)) as [H1 H2]. assert (Hw : (index_in worst (worst_case r y) <= index_in worst r)%nat /\ (index_in worst (worst_case r y) <= index_in worst y)%nat).
  { unfold worst_case, first_worse. destruct (Nat.ltb_spec (index_in worst r) (index_in worst y)); lia. }
  split.
  - apply elem_of_cons in H1 as [->|H1]; [|now right; right]. unfold worst_case. destruct (first_worse r y); [left|right; left].
  - intros x Hx. specialize (H2 (worst_case r y) ltac:(left)) as H0.
    apply elem_of_cons in Hx as [->|Hx]; [lia|]. apply elem_of_cons in Hx as [->|Hx]; [lia|]. apply H2. now right.
Qed.

Definition text_at (t : tree) (ks : list cstr) : option cstr := match tfind t ks with Some (Raw _ s) => Some s | _ => None end.

(** The table of a test holds, for each test case, what is kept of its results. *)
Record cases_in (t : tree) (rs : list case) : Prop := {
  ci_table : is_table t = true;
  ci_wf : wf t;
  ci_tcid : forall a v, tfind t [a] = Some v -> is_table v = true;
  ci_tc : forall a b v, tfind t [a; b] = Some v -> exists l s, v = Raw l s;
  ci_kept : forall a b, text_at t [a; b] = kept (results_of rs a b)
}.

Lemma results_snoc rs r a b : results_of (rs ++ [r]) a b = results_of rs a b ++ (if same_case a b r then [c_result r] else []).
Proof. unfold results_of. rewrite List.filter_app, map_app. cbn. now destruct (same_case a b r). Qed.

Lemma kept_snoc l x : kept (l ++ [x]) = Some (match kept l with None => x | Some o => worst_case o x end).
Proof. destruct l as [|y l]; cbn; [done|]. now rewrite fold_left_app. Qed.

(** Putting a result under its test case. *)
Lemma cases_in_put flags t rs r l s t' :
  cases_in t rs -> puts flags (Raw l s) [c_tcid r; c_tc r] t 0 t' -> take 4 s <> SYM_MAGIC ->
  Some s = kept (results_of (rs ++ [r]) (c_tcid r) (c_tc r)) -> cases_in t' (rs ++ [r]).
Proof.
  intros [H1 H2 H3 H4 H5] Hp Hs Hk.
  assert (Hsame : forall a b, (a, b) <> (c_tcid r, c_tc r) -> tfind t' [a; b] = tfind t [a; b]).
  { intros a b Hne. apply (puts_other _ _ _ _ _ _ _ Hp); intros (z & Hz); cbn in Hz; injection Hz; intros; subst; apply Hne; congruence. }
  split.
  - exact (proj2 (puts_ptr _ _ _ _ _ _ Hp)).
  - eapply puts_wf; [exact H2| |exact Hp]. now constructor.
  - intros a v Hv. destruct (decide (a = c_tcid r)) as [->|Hne].
    + destruct (puts_prefix _ _ _ _ _ [c_tcid r] [c_tc r] Hp ltac:(done) ltac:(done) ltac:(done)) as (v' & Hv' & Ht). congruence.
    + rewrite (puts_other _ _ _ _ _ _ [a] Hp) in Hv; [now apply (H3 a)| |]; intros (z & Hz); cbn in Hz; injection Hz; intros; congruence.
  - intros a b v Hv. destruct (decide ((a, b) = (c_tcid r, c_tc r))) as [[= -> ->]|Hne].
    + rewrite (puts_find _ _ _ _ _ Hp) in Hv. injection Hv as <-. eauto.
    + rewrite Hsame in Hv by done. eauto.
  - intros a b. destruct (decide ((a, b) = (c_tcid r, c_tc r))) as [[= -> ->]|Hne].
    + unfold text_at. now rewrite (puts_find _ _ _ _ _ Hp).
    + unfold text_at. rewrite Hsame by done. fold (text_at t [a; b]). rewrite H5, results_snoc.
      destruct (same_case a b r) eqn:E; [|now rewrite app_nil_r]. unfold same_case in E. apply andb_true_iff in E as [E1 E2].
      apply streq_true in E1, E2. subst. done.
Qed.

Section Records.
Variable e : menv.
Hypothesis mem : mem_ok e.

Lemma strdup_ok_loc s h F : holds h F -> exists l h', strdup e s h = Done (Some l) h' /\ holds h' (cells (Raw l s) ++ F).
Proof. intros Hh. destruct (alloc_block_ok e mem (Data s) h F Hh) as (l & E1 & H1). eauto. Qed.

Lemma load_block_ok h l s : h !! l = Some (Data s) -> load_block l h = Done s h.
Proof. unfold load_block. now intros ->. Qed.

Lemma not_blocked t rs a b : cases_in t rs -> ~ blocked t [a; b].
Proof.
  intros Hc (p & q & v & Eq & Hp & Hq & Hv & Hn). destruct p as [|x [|y p]]; [done| |destruct p, q; done].
  cbn in Eq. injection Eq as <- _. apply (ci_tcid _ _ Hc) in Hv. congruence.
Qed.

(** Putting a result that replaces an old one, or is the first. *)
Lemma put_case flags t rs r s h F :
  cases_in t rs -> case_ok r -> (tfind t [c_tcid r; c_tc r] = None \/ flags = PUT_REPLACE) -> take 4 s <> SYM_MAGIC ->
  Some s = kept (results_of (rs ++ [r]) (c_tcid r) (c_tc r)) -> holds h (cells t ++ F) ->
  exists l t' h1 h', strdup e s h = Done (Some l) h1 /\
    sym_put e (ptr_of t) (key_text [c_tcid r; c_tc r]) (Some l) flags h1 = Done 0 h' /\
    ptr_of t' = ptr_of t /\ cases_in t' (rs ++ [r]) /\ holds h' (cells t' ++ left_over t [c_tcid r; c_tc r] ++ F).
Proof.
  intros Hc (Hk & _ & _) Hfl Hs Hkept Hh. destruct (strdup_ok_loc s h _ Hh) as (l & h1 & E1 & H1).
  destruct (put_ok e mem flags (Raw l s) [c_tcid r; c_tc r] t h1 F (ci_table _ _ Hc) (ci_wf _ _ Hc)) as (c & t' & rest & h' & E2 & Hp & H2 & _ & H3);
    [eapply holds_perm; [|exact H1]; perm|exact Hk|].
  destruct (puts_code _ _ _ _ _ _ Hp) as [[_ Hb]|[(_ & Hne & [v Hv] & _)|(-> & _)]]; [now destruct (not_blocked _ _ _ _ Hc Hb)| |].
  { destruct Hfl; congruence. }
  exists l, t', h1, h'. split; [done|]. split; [done|]. split; [apply (puts_ptr _ _ _ _ _ _ Hp)|].
  split; [exact (cases_in_put flags t rs r l s t' Hc Hp Hs Hkept)|]. now rewrite <- (H3 eq_refl).
Qed.

Lemma cuts_testcase_ok line r t rs h F :
  cases_in t rs -> Forall case_ok rs -> case_ok r -> line_case line r -> holds h (cells t ++ F) ->
  exists t' h', cuts_testcase e line (ptr_of t) h = Done 0 h' /\ ptr_of t' = ptr_of t /\ cases_in t' (rs ++ [r]) /\ holds h' (cells t' ++ F).
Proof.
  intros Hc Hrs Hr (rest & El) Hh. pose proof Hr as (Hk & Hlen & Hs). unfold cuts_testcase. rewrite El.
  change (c_tcid r ++ §"," ++ c_tc r) with (key_text [c_tcid r; c_tc r]). rewrite (proj2 (Nat.ltb_lt _ _) Hlen).
  rewrite (bind_Done _ _ _ _ _ (get_keys e mem t _ h F (ci_table _ _ Hc) (ci_wf _ _ Hc) Hh Hk)).
  pose proof (ci_kept _ _ Hc (c_tcid r) (c_tc r)) as Hkept. unfold text_at in Hkept.
  assert (Hself : same_case (c_tcid r) (c_tc r) r = true) by (unfold same_case; now rewrite !streq_refl).
  destruct (tfind t [c_tcid r; c_tc r]) as [v|] eqn:Ev.
  - destruct (ci_tc _ _ Hc _ _ _ Ev) as (l & o & ->). cbn [mbind option_bind ptr_of].
    assert (Hl : h !! l = Some (Data o)).
    { eapply holds_in; [exact Hh|]. apply elem_of_app. left. apply (tfind_cells _ _ _ _ Ev). left. }
    rewrite (bind_Done _ _ _ _ _ (load_block_ok h l o Hl)).
    destruct (put_case PUT_REPLACE t rs r (worst_case o (c_result r)) h F Hc Hr (or_intror eq_refl)) as (d & t' & h1 & h2 & E1 & E2 & Hp & Hc' & H2).
    + unfold worst_case. destruct (first_worse o (c_result r)); [|done].
      pose proof (tfind_wf _ _ _ (ci_wf _ _ Hc) Ev) as Hw.
      now inversion Hw.
    + rewrite results_snoc, Hself, kept_snoc, <- Hkept. done.
    + exact Hh.
    + rewrite (bind_Done _ _ _ _ _ E1), (bind_Done _ _ _ _ _ E2).
      assert (H3 : holds h2 ([(l, Data o)] ++ cells t' ++ F)).
      { unfold left_over in H2. rewrite Ev in H2. eapply holds_perm; [|exact H2]. cbn [cells]. perm. }
      destruct (free_ok l (Data o) h2 (holds_head _ _ _ _ H3)) as (h3 & E3 & F3). rewrite (bind_Done _ _ _ _ _ E3).
      exists t', h3. split; [done|]. split; [done|]. split; [done|]. now eapply (freed_holds _ _ _ [(l, Data o)] _ F3).
  - cbn [mbind option_bind]. destruct (put_case 0 t rs r (c_result r) h F Hc Hr (or_introl Ev) Hs) as (d & t' & h1 & h2 & E1 & E2 & Hp & Hc' & H2).
    + rewrite results_snoc, Hself, kept_snoc, <- Hkept. done.
    + exact Hh.
    + rewrite (bind_Done _ _ _ _ _ E1), (bind_Done _ _ _ _ _ E2). exists t', h2. unfold left_over in H2. rewrite Ev in H2. done.
Qed.

(** The lines of the output of a test, one record each. *)
Fixpoint scan_lines (lines : list cstr) (tag : ptr) : H unit :=
  match lines with
  | [] => mret tt
  | line :: lines => cuts_testcase e line tag;; scan_lines lines tag
  end.

Lemma scan_lines_ok lines rs : Forall2 line_case lines rs -> Forall case_ok rs -> forall t rs0 h F,
  cases_in t rs0 -> Forall case_ok rs0 -> holds h (cells t ++ F) ->
  exists t' h', scan_lines lines (ptr_of t) h = Done tt h' /\ ptr_of t' = ptr_of t /\ cases_in t' (rs0 ++ rs) /\ holds h' (cells t' ++ F).
Proof.
  induction 1 as [|line r lines rs Hl Hls IH]; intros Hok t rs0 h F Hc Hok0 Hh; [exists t, h; now rewrite app_nil_r|].
  inversion_clear Hok as [|? ? Hr Hrs]. destruct (cuts_testcase_ok line r t rs0 h F Hc Hok0 Hr Hl Hh) as (t1 & h1 & E1 & P1 & C1 & H1).
  destruct (IH Hrs t1 (rs0 ++ [r]) h1 F C1 ltac:(now apply Forall_app; auto) H1) as (t2 & h2 & E2 & P2 & C2 & H2). exists t2, h2.
  cbn [scan_lines]. rewrite (bind_Done _ _ _ _ _ E1), <- P1. rewrite <- app_assoc in C2. split; [exact E2|]. split; [congruence|]. done.
Qed.

Lemma cases_in_empty l cur : cases_in (Tab l cur []) [].
Proof. split; try done. repeat constructor. Qed.
End Records.

(** C21: After the records of a test's output the table has, under each test case, one of its
    results that is the worst of them, and nothing for other test cases; the results
    that were replaced are freed, each once. *)
Theorem cuts_worst_kept e l cur lines rs h F :
  mem_ok e -> Forall2 line_case lines rs -> Forall case_ok rs -> holds h (cells (Tab l cur []) ++ F) ->
  exists t' h', scan_lines e lines (Some l) h = Done tt h' /\ holds h' (cells t' ++ F) /\ ptr_of t' = Some l /\
    forall a b, key_ok [a; b] ->
      match results_of rs a b with
      | [] => sym_get e (Some l) (key_text [a; b]) h' = Done None h'
      | rl => exists p v, sym_get e (Some l) (key_text [a; b]) h' = Done (Some p) h' /\ h' !! p = Some (Data v) /\
                v ∈ rl /\ forall x, x ∈ rl -> (index_in worst v <= index_in worst x)%nat
      end.
Proof.
  intros Hm Hl Hok Hh. destruct (scan_lines_ok e Hm lines rs Hl Hok (Tab l cur []) [] h F (cases_in_empty l cur) (List.Forall_nil _) Hh)
    as (t' & h' & E1 & P1 & C1 & H1).
  exists t', h'. split; [exact E1|]. split; [done|]. split; [done|]. intros a b Hk. cbn [ptr_of] in P1. rewrite <- P1.
  rewrite (get_keys e Hm t' _ h' F (ci_table _ _ C1) (ci_wf _ _ C1) H1 Hk).
  pose proof (ci_kept _ _ C1 a b) as Hkept. cbn [app] in Hkept. unfold text_at in Hkept. destruct (results_of rs a b) as [|x rl] eqn:Er; cbn [kept] in Hkept.
  - destruct (tfind t' [a; b]) as [v|] eqn:Ev; [|done]. destruct (ci_tc _ _ C1 _ _ _ Ev) as (p & s & ->). done.
  - destruct (tfind t' [a; b]) as [v|] eqn:Ev; [|done]. destruct (ci_tc _ _ C1 _ _ _ Ev) as (p & s & ->). injection Hkept as ->.
    destruct (worst_fold rl x) as [W1 W2]. exists p, (fold_left worst_case rl x). split; [done|]. split; [|done].
    eapply holds_in; [exact H1|]. apply elem_of_app. left. apply (tfind_cells _ _ _ _ Ev). left.
Qed.

Definition sample_lines : list cstr := [§"t1 1 PASS :"; §"t1 2 CONF :"; §"t1 1 FAIL :"; §"t1 1 INFO :"].
Definition sample_cases : list case :=
  [mkCase §"t1" §"1" §"PASS"; mkCase §"t1" §"2" §"CONF"; mkCase §"t1" §"1" §"FAIL"; mkCase §"t1" §"1" §"INFO"].

Lemma sample_table : holds {[1%positive := Symh None None]} (cells (Tab 1%positive None []) ++ []).
Proof.
  split; [apply (bool_decide_unpack _); vm_compute; exact I|]. intros l b Hin. cbn in Hin. apply list_elem_of_singleton in Hin. simplify_eq. reflexivity.
Qed.

Lemma sample_cases_ok : Forall case_ok sample_cases.
Proof. unfold case_ok, key_ok. apply (bool_decide_unpack _). vm_compute. exact I. Qed.

Lemma sample_case_key : key_ok [§"t1"; §"1"].
Proof. unfold key_ok. apply (bool_decide_unpack _). vm_compute. exact I. Qed.

Lemma sample_lines_ok : Forall2 line_case sample_lines sample_cases.
Proof. unfold sample_lines, sample_cases. repeat apply List.Forall2_cons; [..|apply List.Forall2_nil]; exists [§":"]; vm_compute; reflexivity. Qed.

Lemma sample_results : results_of sample_cases §"t1" §"1" = [§"PASS"; §"FAIL"; §"INFO"].
Proof. vm_compute. reflexivity. Qed.

Lemma worst_sample v : v ∈ [§"PASS"; §"FAIL"; §"INFO"] -> (index_in worst v <= index_in worst §"FAIL")%nat -> v = §"FAIL".
Proof.
  rewrite !elem_of_cons. intros [->|[->|[->|Hv]]] Hw; [| | |now apply not_elem_of_nil in Hv]; [exfalso; revert Hw; vm_compute; lia|done|exfalso; revert Hw; vm_compute; lia].
Qed.

Lemma cuts_worst_kept_witness : exists h' p,
  scan_lines sample_menv sample_lines (Some 1%positive) {[1%positive := Symh None None]} = Done tt h' /\
  sym_get sample_menv (Some 1%positive) (key_text [§"t1"; §"1"]) h' = Done (Some p) h' /\ h' !! p = Some (Data §"FAIL").
Proof.
  destruct (cuts_worst_kept sample_menv 1%positive None sample_lines sample_cases {[1%positive := Symh None None]} [] sample_mem
    sample_lines_ok sample_cases_ok sample_table) as (t' & h' & E1 & _ & _ & H1).
  specialize (H1 §"t1" §"1" sample_case_key). rewrite sample_results in H1. destruct H1 as (p & v & E2 & Hp & Hv & Hw).
  exists h', p. split; [exact E1|]. split; [exact E2|]. rewrite Hp. do 2 f_equal. apply worst_sample; [exact Hv|]. apply Hw. right. left.
Defined.
