(* ===== verification/PanReportLines.v ===== *)
(** The lines that the report of a test prints, from the tables the scanner made of its
    records. *)
From Stdlib Require Import Ascii String ZArith Lia Bool.
From stdpp Require Import base list sets numbers gmap.
From S2P Require Import Prelude CString Splitstr Effects PanSym PanSymOk PanReport PanReportOk.

Local Open Scope Z_scope.

Lemma bind_Undefined {S A B} (m : E S A) (f : A -> E S B) s : m s = Undefined -> (m ≫= f) s = Undefined.
Proof. unfold mbind, E_bind. now intros ->. Qed.

Lemma lift_Done {A} (m : H A) a s h' : m (r_heap s) = Done a h' -> lift m s = Done a (mkRst h' (r_out s) (r_err s) (r_notag s)).
Proof. unfold lift. now intros ->. Qed.

Lemma lift_same {A} (m : H A) a s : m (r_heap s) = Done a (r_heap s) -> lift m s = Done a s.
Proof. intros E1. rewrite (lift_Done m a s _ E1). now destruct s. Qed.

(** ** Texts in the heap *)

(** The text at a pointer, by the cells of a table. *)
Definition reads (B : list (loc * block)) (t : text) (v : cstr) : Prop :=
  match t with Lit s => s = v | At l => (l, Data v) ∈ B \/ (l, Str v) ∈ B end.

Lemma reads_load B F h t v : holds h (B ++ F) -> reads B t v -> load_text t h = Done v h.
Proof.
  intros Hh Hr. destruct t as [s|l]; cbn in *; [now subst|]. unfold load_block.
  destruct Hr as [Hr|Hr]; rewrite (holds_in _ _ _ _ Hh (proj2 (elem_of_app _ _ _) (or_introl Hr))); done.
Qed.

(** Lines for a result, one for each contact. *)
Definition shown (r : cstr) : cstr := match r with [] => §"?" | _ => r end.

Definition result_lines (contacts tag tcid tc r : cstr) : list cstr := map (FORMAT tag tcid tc (shown r)) (strtok_all §"," contacts).

Definition add_out (lines : list cstr) (s : rst) : rst := mkRst (r_heap s) (r_out s ++ lines) (r_err s) (r_notag s).

Lemma print_each_out conts line s : print_each conts line s = Done tt (add_out (map line conts) s).
Proof.
  revert s. induction conts as [|c conts IH]; intros s; cbn [print_each map].
  - unfold add_out. rewrite app_nil_r. now destruct s.
  - unfold put_line. rewrite (bind_Done (modify _) _ tt s _ eq_refl), IH. unfold add_out. cbn. now rewrite <- app_assoc.
Qed.

(** The contacts of a test, by its keys. *)
Record keys_ok (K : tree) (contacts : cstr) : Prop := {
  ko_table : is_table K = true;
  ko_wf : wf K;
  ko_contacts : match tfind K [§"contacts"] with None => contacts = §"UNKNOWN" | Some v => exists l, v = Raw l contacts end;
  ko_start : forall c r, contacts = c :: r -> c <> ","%char
}.

Section Lines.
Variable e : menv.
Hypothesis mem : mem_ok e.
Variables (K : tree) (contacts : cstr).
Hypothesis keys : keys_ok K contacts.

Lemma contacts_key : key_ok [§"contacts"].
Proof. unfold key_ok. apply (bool_decide_unpack _). vm_compute. exact I. Qed.

(** [B] are the cells that stay as they are, those of the keys among them. *)
Variables B B' : list (loc * block).
Hypothesis keys_in : B ≡ₚ cells K ++ B'.

Lemma get_contacts h F : holds h (B ++ F) ->
  exists p, sym_get e (ptr_of K) §"contacts" h = Done p h /\
    load_text (match p with None => Lit §"UNKNOWN" | Some l => At l end) h = Done contacts h.
Proof.
  intros Hh. destruct keys as [K1 K2 K3 _]. assert (H1 : holds h (cells K ++ B' ++ F)) by (eapply holds_perm; [|exact Hh]; rewrite keys_in; perm).
  eexists. split; [exact (get_keys e mem K [§"contacts"] h _ K1 K2 H1 contacts_key)|].
  destruct (tfind K [§"contacts"]) as [v|] eqn:Ev; cbn [mbind option_bind]; [|now rewrite K3]. destruct K3 as [l ->].
  assert (Hl : h !! l = Some (Data contacts)) by (eapply holds_in; [exact H1|]; apply elem_of_app; left; apply (tfind_cells _ _ _ _ Ev); left).
  exact (load_block_ok h l contacts Hl).
Qed.

Lemma test_result_ok tag tcid tc result tg ti c r F s :
  holds (r_heap s) (B ++ F) -> reads B tag tg -> reads B tcid ti -> reads B tc c -> reads B result r -> " "%char ∉ r ->
  test_result e (Some tag) (Some tcid) (Some tc) (Some result) (ptr_of K) s = Done 0 (add_out (result_lines contacts tg ti c r) s).
Proof.
  intros Hh R1 R2 R3 R4 Hb. unfold test_result. cbn [default]. destruct (get_contacts _ _ Hh) as (p & E1 & E2).
  rewrite (bind_Done _ _ _ _ _ (lift_same _ _ s E1)).
  assert (Er : load_text result (r_heap s) = Done r (r_heap s)) by exact (reads_load _ _ _ _ _ Hh R4).
  assert (En : no_blanks result (r_heap s) = Done tt (r_heap s)).
  { unfold no_blanks. rewrite (bind_Done _ _ _ _ _ Er). apply memc_false in Hb. now rewrite Hb. }
  rewrite (bind_Done _ _ _ _ _ (lift_same _ _ s En)), (bind_Done _ _ _ _ _ (lift_same _ _ s Er)), (bind_Done _ _ _ _ _ (lift_same _ _ s E2)).
  destruct (split_text e mem ","%char contacts (ko_start _ _ keys)) as (cells_ & n & S1 & S2 & S3). change (str ",") with [","%char]. rewrite S1.
  assert (Es : load_text (match r with [] => Lit §"?" | _ => result end) (r_heap s) = Done (shown r) (r_heap s)) by (destruct r; [done|exact Er]).
  rewrite (bind_Done _ _ _ _ _ (lift_same _ _ s (reads_load _ _ _ _ _ Hh R1))), (bind_Done _ _ _ _ _ (lift_same _ _ s (reads_load _ _ _ _ _ Hh R2))),
    (bind_Done _ _ _ _ _ (lift_same _ _ s (reads_load _ _ _ _ _ Hh R3))), (bind_Done _ _ _ _ _ (lift_same _ _ s Es)), S2,
    (bind_Done _ _ _ _ _ (print_each_out _ _ s)), (bind_Done _ _ _ _ _ (lift_same _ _ (add_out _ s) (S3 (r_heap s)))).
  reflexivity.
Qed.

(** ** Walking through a list *)

(** The nodes of a list of entries are among the cells. *)
Definition listed (sub : list (ent tree)) : Prop := forall n y, sub !! n = Some y ->
  (e_node y, Sym (e_node <$> sub !! S n) (e_kloc y) (ptr_of (e_val y))) ∈ B /\ (e_kloc y, Str (e_key y)) ∈ B /\ forall c, c ∈ cells (e_val y) -> c ∈ B.

Variables (l : loc) (first : ptr) (F : list (loc * block)).

(** The state while the cursor of the table at [l] is at [cur]. *)
Definition at_ (cur : ptr) (s : rst) : Prop := holds (r_heap s) ((l, Symh first cur) :: B ++ F).

Lemma at_B cur s : at_ cur s -> holds (r_heap s) (B ++ (l, Symh first cur) :: F).
Proof. intros Hs. eapply holds_perm; [|exact Hs]. perm. Qed.

Definition same_out (s s' : rst) : Prop := r_out s' = r_out s /\ r_err s' = r_err s /\ r_notag s' = r_notag s.

Lemma out_chain a b s s1 s2 : same_out (add_out a s) s1 -> same_out (add_out b s1) s2 -> same_out (add_out (a ++ b) s) s2.
Proof. unfold same_out, add_out. cbn. intros (-> & -> & ->) (-> & -> & ->). now rewrite app_assoc. Qed.

Lemma cursor_to sub n cur s : listed sub -> at_ cur s ->
  exists s', lift (at_cursor l first (e_node <$> sub !! n)) s = Done (step_answer sub n) s' /\ at_ (e_node <$> sub !! n) s' /\ same_out s s'.
Proof.
  intros Hl Hs. pose proof (holds_write _ _ _ (Symh first (e_node <$> sub !! n)) _ Hs) as H1. set (h1 := <[l := _]> (r_heap s)) in H1.
  assert (E1 : at_cursor l first (e_node <$> sub !! n) (r_heap s) = Done (step_answer sub n) h1).
  { unfold at_cursor, step_answer, write. rewrite (bind_Done (modify _) _ tt (r_heap s) h1 eq_refl). destruct (sub !! n) as [y|] eqn:En; [|done].
    cbn [fmap option_fmap option_map]. destruct (Hl n y En) as [Hn _].
    now rewrite (bind_Done _ _ _ _ _ (load_sym_ok _ _ _ _ _ (holds_in _ _ _ _ H1 (proj2 (elem_of_cons _ _ _) (or_intror (proj2 (elem_of_app _ _ _) (or_introl Hn))))))). }
  eexists. split; [exact (lift_Done _ _ _ _ E1)|]. split; [exact H1|done].
Qed.

Lemma next_to sub n y s : listed sub -> sub !! n = Some y -> at_ (Some (e_node y)) s ->
  exists s', lift (sym_seq e l [] R_NEXT) s = Done (step_answer sub (S n)) s' /\ at_ (e_node <$> sub !! S n) s' /\ same_out s s'.
Proof.
  intros Hl Hn Hs. destruct (cursor_to sub (S n) _ s Hl Hs) as (s' & E1 & H1 & H2). exists s'. split; [|done]. rewrite <- E1. unfold lift.
  unfold sym_seq. cbn -[at_cursor mbind]. rewrite (bind_Done _ _ _ _ _ (load_symh_ok _ _ _ _ (holds_head _ _ _ _ Hs))).
  destruct (Hl n y Hn) as [Hy _].
  now rewrite (bind_Done _ _ _ _ _ (load_sym_ok _ _ _ _ _ (holds_in _ _ _ _ Hs (proj2 (elem_of_cons _ _ _) (or_intror (proj2 (elem_of_app _ _ _) (or_introl Hy))))))).
Qed.

(** ** The loops of the report *)

(** A test case with its number and result, and the entry that holds it. *)
Definition shows_case (y : ent tree) (q : cstr * cstr) : Prop := e_key y = q.1 /\ exists d, e_val y = Raw d q.2.

Definition no_blank (q : cstr * cstr) : Prop := " "%char ∉ q.2.

Definition numbered (qs : list (cstr * cstr)) : Z := Z.of_nat (length (List.filter (fun q => negb (atoi q.1 =? 0)) qs)).

Definition worst_of (r : cstr) (qs : list (cstr * cstr)) : cstr := fold_left (fun r q => worst_case r q.2) qs r.

Definition case_lines (tg tcid : cstr) (qs : list (cstr * cstr)) : list cstr := concat (map (fun q => result_lines contacts tg tcid q.1 q.2) qs).

Lemma numbered_cons q qs : numbered (q :: qs) = (if atoi q.1 =? 0 then 0 else 1) + numbered qs.
Proof. unfold numbered. cbn [List.filter]. destruct (atoi q.1 =? 0); cbn [negb length]; lia. Qed.

Lemma each_case_ok sub tag tg tcid_ tcid : listed sub -> reads B tag tg -> (tcid_, Str tcid) ∈ B ->
  forall fuel n y qs s result r tcnum,
    sub !! n = Some y -> Forall2 shows_case (drop n sub) qs -> Forall no_blank qs -> at_ (Some (e_node y)) s -> reads B result r -> (length qs <= fuel)%nat ->
    exists result' data' s',
      each_case e fuel l (ptr_of K) tag tcid_ (At (e_kloc y)) (ptr_of (e_val y)) result tcnum s = Done (result', tcnum + numbered qs, data') s' /\
      reads B result' (worst_of r qs) /\ at_ None s' /\ same_out (add_out (case_lines tg tcid qs) s) s'.
Proof.
  intros Hl Htag Htcid. induction fuel as [|fuel IH]; intros n y qs s result r tcnum Hn Hqs Hb Hs Hr Hf; rewrite (drop_S _ _ _ Hn) in Hqs;
    inversion Hqs as [|? q ? qs' Hq Hqs']; subst; [cbn in Hf; lia|]. inversion_clear Hb as [|? ? Hb1 Hb2]. destruct Hq as [Hk [d Hd]].
  destruct (Hl n y Hn) as (_ & Hkl & Hval). assert (Hdb : (d, Data q.2) ∈ B) by (apply Hval; rewrite Hd; left).
  cbn [each_case]. rewrite Hd. cbn [ptr_of]. pose proof (at_B _ _ Hs) as HB.
  rewrite (bind_Done _ _ _ _ _ (lift_same _ _ s (reads_load _ _ _ _ _ HB Hr))), (bind_Done _ _ _ _ _ (lift_same _ _ s (reads_load _ _ _ (At d) q.2 HB (or_introl Hdb)))).
  assert (Hkey : reads B (At (e_kloc y)) q.1) by (rewrite <- Hk; now right).
  rewrite (bind_Done _ _ _ _ _ (test_result_ok tag (At tcid_) (At (e_kloc y)) (At d) tg tcid q.1 q.2 _ s HB Htag (or_intror Htcid) Hkey (or_introl Hdb) Hb1)).
  set (s1 := add_out _ s). assert (HB1 : holds (r_heap s1) (B ++ (l, Symh first (Some (e_node y))) :: F)) by exact HB.
  rewrite (bind_Done _ _ _ _ _ (lift_same _ _ s1 (reads_load _ _ _ _ _ HB1 Hkey))).
  destruct (next_to sub n y s1 Hl Hn Hs) as (s2 & E2 & H2 & O2). rewrite (bind_Done _ _ _ _ _ E2).
  set (result1 := if first_worse r q.2 then result else At d).
  assert (Hr1 : reads B result1 (worst_case r q.2)) by (unfold result1, worst_case; destruct (first_worse r q.2); [exact Hr|now left]).
  assert (Hc : (if atoi q.1 =? 0 then tcnum else tcnum + 1) + numbered qs' = tcnum + numbered (q :: qs')) by (rewrite numbered_cons; destruct (atoi q.1 =? 0); lia).
  unfold step_answer. destruct (sub !! S n) as [y'|] eqn:En'.
  - destruct (IH (S n) y' qs' s2 result1 (worst_case r q.2) (if atoi q.1 =? 0 then tcnum else tcnum + 1) En' Hqs' Hb2 H2 Hr1 ltac:(cbn in Hf; lia))
      as (result' & data' & s' & E3 & R3 & H3 & O3).
    exists result', data', s'. rewrite <- Hc. split; [exact E3|]. split; [exact R3|]. split; [exact H3|].
    exact (out_chain _ _ _ _ _ O2 O3).
  - rewrite (drop_ge sub (S n)) in Hqs' by now apply lookup_ge_None. inversion Hqs'; subst qs'.
    exists result1, (Some d), s2. rewrite <- Hc. change (numbered []) with 0. rewrite Z.add_0_r. split; [reflexivity|]. split; [exact Hr1|]. split; [exact H2|].
    unfold case_lines. cbn [map concat]. now rewrite app_nil_r.
Qed.

Definition not_keys (x : ent tree) : bool := negb (streq (e_key x) §"_keys").

Lemma list_tcids_ok es : listed es -> forall fuel n y s acc,
  es !! n = Some y -> at_ (Some (e_node y)) s -> (length (drop n es) <= fuel)%nat ->
  exists data' s', list_tcids e fuel l (e_kloc y) (ptr_of (e_val y)) acc s = Done (acc ++ map e_kloc (List.filter not_keys (drop n es)), data') s' /\
    at_ None s' /\ same_out s s'.
Proof.
  intros Hl. induction fuel as [|fuel IH]; intros n y s acc Hn Hs Hf; rewrite (drop_S _ _ _ Hn) in Hf |- *; [cbn in Hf; lia|]. cbn [length] in Hf.
  destruct (Hl n y Hn) as (_ & Hkl & _). cbn [list_tcids]. pose proof (at_B _ _ Hs) as HB.
  rewrite (bind_Done _ _ _ _ _ (lift_same _ _ s (reads_load _ _ _ (At (e_kloc y)) (e_key y) HB (or_intror Hkl)))).
  destruct (next_to es n y s Hl Hn Hs) as (s2 & E2 & H2 & O2). rewrite (bind_Done _ _ _ _ _ E2).
  assert (Hacc : forall k, (if streq (e_key y) §"_keys" then acc else acc ++ [e_kloc y]) ++ map e_kloc k = acc ++ map e_kloc (List.filter not_keys [y] ++ k)).
  { intros k. cbn [List.filter]. unfold not_keys. destruct (streq (e_key y) §"_keys"); cbn [negb app map]; [done|]. now rewrite <- app_assoc. }
  change (y :: drop (S n) es) with ([y] ++ drop (S n) es). rewrite List.filter_app. unfold step_answer. destruct (es !! S n) as [y'|] eqn:En'.
  - destruct (IH (S n) y' s2 (if streq (e_key y) §"_keys" then acc else acc ++ [e_kloc y]) En' H2 ltac:(lia)) as (data' & s' & E3 & H3 & O3).
    exists data', s'. rewrite <- Hacc. split; [exact E3|]. split; [exact H3|]. destruct O2 as (O21 & O22 & O23), O3 as (O31 & O32 & O33). repeat split; congruence.
  - rewrite (drop_ge es (S n)) by now apply lookup_ge_None. do 2 eexists. rewrite <- Hacc. cbn [map]. rewrite app_nil_r. done.
Qed.
End Lines.

Section Whole.
Variable e : menv.
Hypothesis mem : mem_ok e.
Variables (K : tree) (contacts : cstr).
Hypothesis keys : keys_ok K contacts.
Variables (l : loc) (es : list (ent tree)) (F : list (loc * block)).
Hypothesis es_wf : Forall (fun x => wf (e_val x)) es.

Let B : list (loc * block) := es_cells None es.
Variable B' : list (loc * block).
Hypothesis keys_in : B ≡ₚ cells K ++ B'.

Let here (cur : ptr) (s : rst) : Prop := at_ B l (head_ptr es None) F cur s.

Lemma listed_in sub : (forall c, c ∈ es_cells None sub -> c ∈ B) -> listed B sub.
Proof.
  intros Hs n y Hn. split; [apply Hs, es_cell_nth, Hn|]. revert n Hn. enough (forall n, sub !! n = Some y -> forall c,
    c = (e_kloc y, Str (e_key y)) \/ c ∈ cells (e_val y) -> c ∈ es_cells None sub) as Hx.
  { intros n Hn. split; [apply Hs, (Hx n Hn); now left|]. intros c Hc. apply Hs, (Hx n Hn). now right. }
  clear Hs. induction sub as [|z sub IH]; intros [|n] Hn c Hc; cbn in Hn; simplify_eq; cbn [es_cells]; right.
  - destruct Hc as [->|Hc]; [left|]. right. apply elem_of_app. now left.
  - right. apply elem_of_app. right. now apply (IH n).
Qed.

(** A TCID with its test cases, and the entry that holds it. *)
Record shows_test (x : ent tree) (p : cstr * list (cstr * cstr)) : Prop := {
  st_key : e_key x = p.1;
  st_name : key_ok [p.1] /\ (length p.1 < KEYSIZE)%nat;
  st_first : es_find es p.1 = Some x;
  st_cases : exists l2 c2 sub, e_val x = Tab l2 c2 sub /\ sub <> [] /\ Forall2 shows_case sub p.2
}.

Lemma es_find_nth k x : es_find es k = Some x -> exists n, es !! n = Some x.
Proof. intros Hf. apply List.find_some in Hf as [Hin _]. apply list_elem_of_In, list_elem_of_lookup in Hin. exact Hin. Qed.

(** R_CURSOR moves to the first test case of a TCID. *)
Lemma cursor_tcid x p l2 c2 sub cur s : shows_test x p -> e_val x = Tab l2 c2 sub -> here cur s ->
  exists s', lift (sym_seq e l p.1 R_CURSOR) s = Done (step_answer sub 0) s' /\ here (e_node <$> sub !! 0%nat) s' /\ same_out s s'.
Proof.
  intros Hx Ev Hs. destruct (es_find_nth _ _ (st_first _ _ Hx)) as [n Hn].
  destruct (listed_in es ltac:(done) n x Hn) as (_ & _ & Hc). rewrite Ev, cells_Tab in Hc.
  assert (Hsub : listed B sub) by (apply listed_in; intros c Hin; apply Hc; now right).
  destruct (cursor_to B l (head_ptr es None) F sub 0 cur s Hsub Hs) as (s' & E1 & H1 & H2). exists s'. split; [|done]. rewrite <- E1. unfold lift.
  assert (HT : holds (r_heap s) (cells (Tab l cur es) ++ F)) by (rewrite cells_Tab; exact Hs).
  pose proof (get_keys e mem (Tab l cur es) [p.1] (r_heap s) F eq_refl (wf_Tab _ _ _ es_wf) HT (proj1 (st_name _ _ Hx))) as Eg.
  cbn [tfind entries] in Eg. rewrite (st_first _ _ Hx) in Eg. cbn [mbind option_bind e_val] in Eg. rewrite Ev in Eg. cbn [ptr_of] in Eg.
  change (key_text [p.1]) with (p.1) in Eg.
  assert (H0 : r_heap s !! l2 = Some (Symh (head_ptr sub None) c2)).
  { eapply holds_in; [exact Hs|]. right. apply elem_of_app. left. apply Hc. left. }
  assert (Em : has_magic l2 (r_heap s) = Done true (r_heap s)) by (unfold has_magic; now rewrite H0).
  unfold sym_seq. change (R_CURSOR =? R_CURSOR) with true. cbn iota.
  rewrite (bind_Done _ _ _ _ _ Eg), (bind_Done _ _ _ _ _ Em), (bind_Done _ _ _ _ _ (load_symh_ok _ _ _ _ H0)),
    (bind_Done _ _ _ _ _ (load_symh_ok _ _ _ _ (holds_head _ _ _ _ Hs))). now destruct sub.
Qed.

Definition all_cases (ps : list (cstr * list (cstr * cstr))) : list (cstr * cstr) := concat (map snd ps).
Definition tcid_lines (tg : cstr) (ps : list (cstr * list (cstr * cstr))) : list cstr := concat (map (fun p => case_lines contacts tg p.1 p.2) ps).

Lemma numbered_app a b : numbered (a ++ b) = numbered a + numbered b.
Proof. unfold numbered. rewrite List.filter_app, length_app. lia. Qed.

Lemma each_tcid_ok tag tg fuel : reads B tag tg ->
  forall xs ps, Forall2 shows_test xs ps -> Forall (fun p => Forall no_blank p.2 /\ (length p.2 <= fuel)%nat) ps ->
  forall data result r tcnum cur s, here cur s -> reads B result r ->
  exists result' cur' s', each_tcid e fuel l (ptr_of K) tag (map e_kloc xs) data result tcnum s = Done (result', tcnum + numbered (all_cases ps)) s' /\
    reads B result' (worst_of r (all_cases ps)) /\ here cur' s' /\ same_out (add_out (tcid_lines tg ps) s) s'.
Proof.
  intros Htag. induction 1 as [|x p xs ps Hx Hxs IH]; intros Hok data result r tcnum cur s Hs Hr.
  - exists result, cur, s. cbn. rewrite Z.add_0_r. split; [done|]. split; [done|]. split; [done|]. unfold same_out, add_out. cbn. now rewrite app_nil_r.
  - inversion_clear Hok as [|? ? [Hb Hf] Hok']. destruct (st_cases _ _ Hx) as (l2 & c2 & sub & Ev & Hne & Hsub).
    destruct (es_find_nth _ _ (st_first _ _ Hx)) as [n Hn]. destruct (listed_in es ltac:(done) n x Hn) as (_ & Hkl & Hc).
    cbn [map each_tcid]. assert (HB : holds (r_heap s) (B ++ (l, Symh (head_ptr es None) cur) :: F)) by exact (at_B _ _ _ _ _ _ Hs).
    rewrite (bind_Done _ _ _ _ _ (lift_same _ _ s (reads_load _ _ _ (At (e_kloc x)) (e_key x) HB (or_intror Hkl)))).
    rewrite (st_key _ _ Hx), (proj2 (Nat.ltb_lt _ _) (proj2 (st_name _ _ Hx))).
    destruct (cursor_tcid x p l2 c2 sub cur s Hx Ev Hs) as (s1 & E1 & H1 & O1). rewrite (bind_Done _ _ _ _ _ E1).
    destruct sub as [|y sub]; [done|]. unfold step_answer. cbn [lookup list_lookup].
    assert (Hlist : listed B (y :: sub)) by (apply listed_in; intros c Hin; apply Hc; rewrite Ev, cells_Tab; now right).
    destruct (each_case_ok e mem K contacts keys B B' keys_in l (head_ptr es None) F (y :: sub) tag tg (e_kloc x) p.1 Hlist Htag
      ltac:(rewrite <- (st_key _ _ Hx); exact Hkl) fuel 0 y p.2 s1 result r tcnum eq_refl Hsub Hb H1 Hr Hf) as (r1 & d1 & s2 & E2 & R2 & H2 & O2).
    rewrite (bind_Done _ _ _ _ _ E2).
    destruct (IH Hok' d1 r1 (worst_of r p.2) (tcnum + numbered p.2) None s2 H2 R2) as (r3 & c3 & s3 & E3 & R3 & H3 & O3).
    exists r3, c3, s3. unfold all_cases in *. cbn [map concat]. rewrite numbered_app, Z.add_assoc. split; [exact E3|].
    unfold worst_of in *. rewrite fold_left_app. split; [exact R3|]. split; [exact H3|]. unfold tcid_lines. cbn [map concat].
    eapply out_chain; [|exact O3]. unfold same_out, add_out in *. cbn in *. destruct O1 as (<- & <- & <-). exact O2.
Qed.
End Whole.

Lemma worst_of_no_blank r qs : " "%char ∉ r -> Forall no_blank qs -> " "%char ∉ worst_of r qs.
Proof.
  intros Hr Hq. revert r Hr. induction Hq as [|q qs Hq Hqs IH]; intros r Hr; [done|]. cbn. apply IH. unfold worst_case. now destruct (first_worse r q.2).
Qed.

(** Reporting a literal with a blank in it writes to the literal. *)
Lemma literal_blank e tag tcid tc lit K s B F :
  mem_ok e -> is_table K = true -> wf K -> holds (r_heap s) (cells K ++ B ++ F) -> " "%char ∈ lit ->
  test_result e tag tcid tc (Some (Lit lit)) (ptr_of K) s = Undefined.
Proof.
  intros Hm H1 H2 Hh Hb. unfold test_result. cbn [default].
  rewrite (bind_Done _ _ _ _ _ (lift_same _ _ s (get_keys e Hm K [§"contacts"] _ _ H1 H2 Hh contacts_key))).
  assert (En : lift (no_blanks (Lit lit)) s = Undefined).
  { unfold lift, no_blanks. cbn [load_text]. rewrite (bind_Done (mret lit) _ lit _ _ eq_refl). apply memc_true in Hb. now rewrite Hb. }
  now rewrite (bind_Undefined _ _ _ En).
Qed.

(** The number of test cases that the analysis of a test asks for, "cuts:n". *)
Definition asked (analysis : cstr) : Z := match strtok_all §":" analysis with _ :: n :: _ => atoi n | _ => 0 end.

(** There is fuel for every TCID. *)
Lemma cases_fit es xs ps n : Forall2 (shows_test es) xs ps -> Forall no_blank (all_cases ps) -> (length (es_cells None es) <= n)%nat ->
  Forall (fun p => Forall no_blank p.2 /\ (length p.2 <= n)%nat) ps.
Proof.
  intros Hps Hb Hn. revert Hb. induction Hps as [|x p xs ps Hx Hxs IH]; intros Hb; [constructor|]. unfold all_cases in Hb. cbn in Hb. apply Forall_app in Hb as [Hb1 Hb2].
  constructor; [|now apply IH]. split; [done|]. destruct (st_cases _ _ _ Hx) as (l2 & c2 & sub & Ev & _ & Hsub).
  destruct (es_cells_focus es _ _ (st_first _ _ _ Hx)) as (nx & L & HL). specialize (HL (e_val x)). rewrite (es_set_same es _ _ (st_first _ _ _ Hx)), Ev, cells_Tab in HL.
  apply Permutation_length in HL. cbn [length] in HL. rewrite length_app in HL. cbn [length] in HL.
  pose proof (length_es_cells None sub). rewrite <- (Forall2_length _ _ _ Hsub). lia.
Qed.

(** The report of a test with CUTS results: a line for each result of each test case and
    contact, in the order of the records, and a line with the worst of all results.  A
    number of test cases that is not the one asked for should be one more line; its
    text is a literal that is written to, which is undefined. *)
Theorem cuts_report_prints e l cur es xk contacts analysis tag tg ps s F :
  mem_ok e -> Forall (fun x => wf (e_val x)) es -> es_find es §"_keys" = Some xk -> keys_ok (e_val xk) contacts ->
  Forall2 (shows_test es) (List.filter not_keys es) ps -> Forall no_blank (all_cases ps) ->
  reads (es_cells None es) tag tg -> (forall c r, analysis = c :: r -> c <> ":"%char) ->
  holds (r_heap s) (cells (Tab l cur es) ++ F) ->
  if (asked analysis =? 0) || (asked analysis =? numbered (all_cases ps)) then
    exists cur' s', cuts_report e l (ptr_of (e_val xk)) analysis tag s = Done 0 s' /\ holds (r_heap s') (cells (Tab l cur' es) ++ F) /\
      r_out s' = r_out s ++ tcid_lines contacts tg ps ++ result_lines contacts tg §"*" §"*" (worst_of [] (all_cases ps))
  else cuts_report e l (ptr_of (e_val xk)) analysis tag s = Undefined.
Proof.
  intros Hm Hw Hk Hkeys Hps Hb Htag Hat Hh. set (K := e_val xk) in *.
  assert (HB : exists B', es_cells None es ≡ₚ cells K ++ B').
  { destruct (es_cells_focus es _ _ Hk) as (nx & L & HL). exists ((e_node xk, Sym nx (e_kloc xk) (ptr_of K)) :: L).
    rewrite <- (es_set_same es _ _ Hk) at 1. rewrite HL. fold K. perm. }
  destruct HB as [B' HB]. rewrite cells_Tab in Hh. change (at_ (es_cells None es) l (head_ptr es None) F cur s) in Hh.
  assert (Hlist : listed (es_cells None es) es) by (apply listed_in; done).
  assert (Hes : exists y, es !! 0%nat = Some y) by (destruct es as [|y es']; [done|eauto]). destruct Hes as [y0 Hy0].
  unfold cuts_report. destruct (split_text e Hm ":"%char analysis Hat) as (ant & n & S1 & S2 & S3). change (str ":") with [":"%char]. rewrite S1.
  rewrite (bind_Done _ _ _ _ _ (lift_same _ _ s (S3 (r_heap s)))), (bind_Done get _ s s s eq_refl).
  destruct (cursor_to _ _ _ _ es 0 cur s Hlist Hh) as (s1 & E1 & H1 & O1).
  assert (Ef : lift (sym_seq e l [] R_FIRST) s = Done (step_answer es 0) s1).
  { rewrite <- E1. unfold lift, sym_seq. cbn -[at_cursor mbind]. rewrite (bind_Done _ _ _ _ _ (load_symh_ok _ _ _ _ (holds_head _ _ _ _ Hh))). now destruct es. }
  rewrite (bind_Done _ _ _ _ _ Ef). unfold step_answer. rewrite Hy0 in H1 |- *.
  assert (Hsz : (length (es_cells None es) <= size (r_heap s))%nat) by exact (holds_size _ _ (holds_app_l _ _ _ (at_B _ _ _ _ _ _ Hh))).
  destruct (list_tcids_ok e _ _ _ F es Hlist (size (r_heap s)) 0 y0 s1 [] Hy0 H1) as (d2 & s2 & E2 & H2 & O2).
  { rewrite drop_0. pose proof (length_es_cells None es). lia. }
  rewrite (bind_Done _ _ _ _ _ E2), drop_0. cbn [app].
  destruct (each_tcid_ok e Hm K contacts Hkeys l es F Hw B' HB tag tg (size (r_heap s)) Htag _ ps Hps) with (data := d2) (result := Lit []) (r := @nil ascii)
    (tcnum := 0) (cur := @None loc) (s := s2) as (r3 & c3 & s3 & E3 & R3 & H3 & O3); [|exact H2|done|].
  { exact (cases_fit es _ ps _ Hps Hb Hsz). }
  rewrite (bind_Done _ _ _ _ _ E3), Z.add_0_l. assert (Hr : " "%char ∉ worst_of [] (all_cases ps)) by (apply worst_of_no_blank; [apply not_elem_of_nil|done]).
  rewrite (bind_Done _ _ _ _ _ (test_result_ok e Hm K contacts Hkeys _ B' HB tag (Lit §"*") (Lit §"*") r3 tg §"*" §"*" _ _ s3 (at_B _ _ _ _ _ _ H3) Htag eq_refl eq_refl R3 Hr)).
  set (s4 := add_out _ s3). rewrite S2.
  change (match strtok_all [":"%char] analysis with _ :: n0 :: _ => atoi n0 | _ => 0 end) with (asked analysis).
  destruct ((asked analysis =? 0) || (asked analysis =? numbered (all_cases ps))) eqn:Ec.
  - rewrite <- negb_orb, Ec. cbn [negb]. rewrite (bind_Done (mret 0) _ 0 s4 s4 eq_refl). exists c3, s4. split; [done|]. split.
    + rewrite cells_Tab. exact H3.
    + unfold s4. cbn [r_out add_out]. destruct O1 as (O1 & _), O2 as (O2 & _), O3 as (O3 & _). rewrite O3. cbn [r_out add_out]. now rewrite O2, O1, <- app_assoc.
  - rewrite <- negb_orb, Ec. cbn [negb]. apply bind_Undefined. destruct Hkeys as [K1 K2 _ _]. apply (literal_blank e _ _ _ _ K s4 B' ((l, Symh (head_ptr es None) c3) :: F)); try done.
    + eapply holds_perm; [|exact (at_B _ _ _ _ _ _ H3)]. rewrite HB. perm.
    + apply memc_true. vm_compute. reflexivity.
Qed.

(** The table of a test with two test cases and its keys. *)
Definition sample_es : list (ent tree) :=
  [ Ent 2%positive 3%positive §"t1"
      (Tab 4%positive None [Ent 5%positive 6%positive §"1" (Raw 7%positive §"PASS"); Ent 8%positive 9%positive §"2" (Raw 10%positive §"FAIL")]);
    Ent 11%positive 12%positive §"_keys" (Tab 13%positive None [Ent 14%positive 15%positive §"tag" (Raw 16%positive §"mytag")]) ].

Definition sample_ps : list (cstr * list (cstr * cstr)) := [(§"t1", [(§"1", §"PASS"); (§"2", §"FAIL")])].
Definition sample_rst : rst := mkRst (list_to_map (cells (Tab 1%positive None sample_es))) [] [] 0.
Definition sample_xk : ent tree :=
  Ent 11%positive 12%positive §"_keys" (Tab 13%positive None [Ent 14%positive 15%positive §"tag" (Raw 16%positive §"mytag")]).

Lemma sample_es_wf : Forall (fun x => wf (e_val x)) sample_es.
Proof. repeat (apply List.Forall_cons || apply List.Forall_nil || apply wf_Tab || (apply wf_Raw; vm_compute; discriminate)). Qed.

Lemma sample_rst_holds : holds (r_heap sample_rst) (cells (Tab 1%positive None sample_es) ++ []).
Proof.
  assert (Hn : NoDup (map fst (cells (Tab 1%positive None sample_es) ++ []))) by (apply (bool_decide_unpack _); vm_compute; exact I).
  split; [exact Hn|]. intros l b Hin. rewrite app_nil_r in Hn, Hin. now apply elem_of_list_to_map_1.
Qed.

Lemma sample_keys_ok : keys_ok (e_val sample_xk) §"UNKNOWN".
Proof.
  split; [done| |done|intros c r Hcr].
  - pose proof sample_es_wf as Hw. inversion_clear Hw as [|? ? _ Hw']. now inversion_clear Hw'.
  - injection Hcr as <- _. discriminate.
Qed.

Lemma sample_shows : Forall2 (shows_test sample_es) (List.filter not_keys sample_es) sample_ps.
Proof.
  change (List.filter not_keys sample_es) with (take 1 sample_es). apply List.Forall2_cons; [|apply List.Forall2_nil]. split.
  - reflexivity.
  - split; [|vm_compute; lia]. unfold key_ok. apply (bool_decide_unpack _). vm_compute. exact I.
  - reflexivity.
  - do 3 eexists. split; [reflexivity|]. split; [done|].
    repeat (apply List.Forall2_cons || apply List.Forall2_nil); (split; [reflexivity|eexists; reflexivity]).
Qed.

Lemma sample_no_blank : Forall no_blank (all_cases sample_ps).
Proof. unfold no_blank. apply (bool_decide_unpack _). vm_compute. exact I. Qed.

Lemma cuts_report_prints_witness : exists s',
  cuts_report sample_menv 1%positive (ptr_of (e_val sample_xk)) §"cuts:2" (At 16%positive) sample_rst = Done 0 s' /\
  r_out s' = r_out sample_rst ++ tcid_lines §"UNKNOWN" §"mytag" sample_ps ++ result_lines §"UNKNOWN" §"mytag" §"*" §"*" (worst_of [] (all_cases sample_ps)).
Proof.
  pose proof (cuts_report_prints sample_menv 1%positive None sample_es sample_xk §"UNKNOWN" §"cuts:2" (At 16%positive) §"mytag" sample_ps sample_rst []
    sample_mem sample_es_wf eq_refl sample_keys_ok sample_shows sample_no_blank) as H0.
  assert (Hc : (asked §"cuts:2" =? 0) || (asked §"cuts:2" =? numbered (all_cases sample_ps)) = true) by (vm_compute; reflexivity).
  rewrite Hc in H0. destruct H0 as (cur' & s' & H1 & _ & H2).
  - left. apply list_elem_of_In. cbv. repeat (first [left; reflexivity|right]).
  - intros c r [= <- _]. discriminate.
  - exact sample_rst_holds.
  - exists s'. split; [exact H1|exact H2].
Defined.

(** ** The report of a test by its exit *)

(** The keys of a test are texts. *)
Definition flat (K : tree) : Prop := forall k v, tfind K [k] = Some v -> exists l s, v = Raw l s.

(** [sym_get] of a key: a pointer to its text, or NULL. *)
Lemma key_of_ok e K F s k : mem_ok e -> is_table K = true -> wf K -> flat K -> holds (r_heap s) (cells K ++ F) -> key_ok [k] ->
  exists p, key_of e (ptr_of K) k s = Done p s /\
    match text_at K [k] with None => p = None | Some v => exists t, p = Some t /\ reads (cells K) t v end.
Proof.
  intros Hm K1 K2 texts here Hk. eexists. unfold key_of.
  rewrite (bind_Done _ _ _ _ _ (lift_same _ _ s (get_keys e Hm K [k] _ _ K1 K2 here Hk))). split; [reflexivity|]. unfold text_at.
  destruct (tfind K [k]) as [v|] eqn:Ev; [|done]. destruct (texts _ _ Ev) as (l & t & ->). exists (At l). split; [done|]. left.
  apply (tfind_cells _ _ _ _ Ev). left.
Qed.

Section Exit.
Variable e : menv.
Hypothesis mem : mem_ok e.
Variables (K : tree) (contacts : cstr) (F : list (loc * block)) (s : rst).
Hypothesis keys : keys_ok K contacts.
Hypothesis here : holds (r_heap s) (cells K ++ F).

Lemma load_here t v : reads (cells K) t v -> lift (load_text t) s = Done v s.
Proof. intros Hr. exact (lift_same _ _ s (reads_load _ _ _ _ _ here Hr)). Qed.

Lemma result_here tag tg r rt : reads (cells K) tag tg -> reads (cells K) r rt -> " "%char ∉ rt ->
  test_result e (Some tag) None None (Some r) (ptr_of K) s = Done 0 (add_out (result_lines contacts tg §"-" §"-" rt) s).
Proof.
  intros Ht Hr Hb. apply (test_result_ok e mem K contacts keys (cells K) [] ltac:(now rewrite app_nil_r) tag (Lit §"-") (Lit §"-") r tg §"-" §"-" rt F s here Ht eq_refl eq_refl Hr Hb).
Qed.
End Exit.

Ltac key_name := unfold key_ok; apply (bool_decide_unpack _); vm_compute; exact I.

(** What a test that ended by itself is reported as: by its termination id. *)
Definition exit_verdict (K : tree) : cstr :=
  match text_at K [§"termination_id"] with None => §"no_Term_Id" | Some v => if streq v §"0" then §"pass" else §"fail" end.

Lemma exit_verdict_no_blank K : " "%char ∉ exit_verdict K.
Proof. unfold exit_verdict. apply memc_false. destruct (text_at K [§"termination_id"]) as [v|]; [destruct (streq v §"0")|]; vm_compute; reflexivity. Qed.

Lemma analysis_exit e (mem : mem_ok e) K contacts F s (keys : keys_ok K contacts) (texts : flat K) (here : holds (r_heap s) (cells K ++ F)) ctag tag tg tt_ info a :
  reads (cells K) tag tg -> reads (cells K) tt_ §"exited" -> reads (cells K) info a -> strneq a §"none" 4 = false -> strneq a §"cuts" 4 = false ->
  report_analysis e ctag (ptr_of K) tag tt_ info s = Done 0 (add_out (result_lines contacts tg §"-" §"-" (exit_verdict K)) s).
Proof.
  intros R1 R2 R3 N1 N2. unfold report_analysis. rewrite (bind_Done _ _ _ _ _ (load_here K F s here _ _ R3)), (bind_Done _ _ _ _ _ (load_here K F s here _ _ R2)), N1, N2.
  cbn [negb]. change (streq §"exited" §"timeout") with false. cbn iota.
  destruct (key_of_ok e K F s §"termination_id" mem (ko_table _ _ keys) (ko_wf _ _ keys) texts here) as (p & E1 & P1); [key_name|]. rewrite (bind_Done _ _ _ _ _ E1).
  pose proof (exit_verdict_no_blank K) as Hb. unfold exit_verdict in *. destruct (text_at K [§"termination_id"]) as [v|].
  - destruct P1 as (t & -> & R4). rewrite (bind_Done _ _ _ _ _ (load_here K F s here _ _ R4)). now apply (result_here e mem K contacts F s keys here).
  - subst p. now apply (result_here e mem K contacts F s keys here).
Qed.

(** A test that was started, ended by itself without a core file and is judged by its
    exit status is reported once for each contact: pass when the status is 0, fail
    when it is another, and that there is none.  A test whose keys have no initiation
    status cannot be reported: the text of the message is a literal that is written
    to. *)
Theorem tag_report_exit e K contacts ctag tg a F s :
  mem_ok e -> keys_ok K contacts -> flat K -> holds (r_heap s) (cells K ++ F) ->
  text_at K [§"tag"] = Some tg -> text_at K [§"corefile"] = None \/ text_at K [§"corefile"] = Some §"no" ->
  text_at K [§"termination_type"] = Some §"exited" -> text_at K [§"analysis"] = Some a ->
  strneq a §"none" 4 = false -> strneq a §"cuts" 4 = false ->
  (text_at K [§"initiation_status"] = Some §"ok" ->
     tag_report e false ctag (ptr_of K) s = Done 0 (add_out (result_lines contacts tg §"-" §"-" (exit_verdict K)) s)) /\
  (text_at K [§"initiation_status"] = None -> tag_report e false ctag (ptr_of K) s = Undefined).
Proof.
  intros Hm Hk Ht Hh T1 T2 T3 T4 N1 N2.
  assert (Hget : forall k, key_ok [k] -> exists p, key_of e (ptr_of K) k s = Done p s /\
    match text_at K [k] with None => p = None | Some v => exists t, p = Some t /\ reads (cells K) t v end) by exact (fun k => key_of_ok e K F s k Hm (ko_table _ _ Hk) (ko_wf _ _ Hk) Ht Hh).
  destruct (Hget §"tag") as (p1 & E1 & P1); [key_name|]. rewrite T1 in P1. destruct P1 as (t1 & -> & R1).
  destruct (Hget §"initiation_status") as (p2 & E2 & P2); [key_name|]. unfold tag_report. rewrite (bind_Done _ _ _ _ _ E1), (bind_Done _ _ _ _ _ E2).
  split; intros T5; rewrite T5 in P2.
  - destruct P2 as (t2 & -> & R2). rewrite (bind_Done _ _ _ _ _ (load_here K F s Hh t2 _ R2)), streq_refl.
    assert (E9 : report_started e ctag (ptr_of K) t1 s = Done true (add_out (result_lines contacts tg §"-" §"-" (exit_verdict K)) s)); [|now rewrite (bind_Done _ _ _ _ _ E9)].
    destruct (Hget §"corefile") as (p3 & E3 & P3); [key_name|]. destruct (Hget §"termination_type") as (p4 & E4 & P4); [key_name|].
    destruct (Hget §"analysis") as (p5 & E5 & P5); [key_name|]. destruct (Hget §"termination_id") as (p6 & E6 & P6); [key_name|].
    rewrite T3 in P4. destruct P4 as (t4 & -> & R4). rewrite T4 in P5. destruct P5 as (t5 & -> & R5).
    unfold report_started. rewrite (bind_Done _ _ _ _ _ E3).
    assert (E7 : match p3 with None => mret 0 | Some c => v ← lift (load_text c); if streq v §"no" then mret 0 else test_result e (Some t1) None None (Some (Lit §"coredump")) (ptr_of K) end s = Done 0 s).
    { destruct T2 as [T2|T2]; rewrite T2 in P3; [now subst|]. destruct P3 as (t3 & -> & R3). rewrite (bind_Done _ _ _ _ _ (load_here K F s Hh t3 _ R3)). now rewrite streq_refl. }
    rewrite (bind_Done _ _ _ _ _ E7), (bind_Done _ _ _ _ _ E4), (bind_Done _ _ _ _ _ (load_here K F s Hh t4 _ R4)), streq_refl, (bind_Done (mret 0) _ 0 s s eq_refl), (bind_Done _ _ _ _ _ E5).
    rewrite (bind_Done _ _ _ _ _ (analysis_exit e Hm K contacts F s Hk Ht Hh ctag t1 tg t4 t5 a R1 R4 R5 N1 N2)). done.
  - subst p2. cbn iota. apply bind_Undefined. destruct Hk as [K1 K2 _ _]. apply (literal_blank e _ _ _ _ K s F []); try done; [now rewrite app_nil_r|].
    apply memc_true. vm_compute. reflexivity.
Qed.

(** The keys of a test that exited with 0. *)
Definition sample_exit : tree :=
  Tab 1%positive None
    [ Ent 2%positive 3%positive §"tag" (Raw 4%positive §"mytag"); Ent 5%positive 6%positive §"initiation_status" (Raw 7%positive §"ok");
      Ent 8%positive 9%positive §"termination_type" (Raw 10%positive §"exited"); Ent 11%positive 12%positive §"analysis" (Raw 13%positive §"exit");
      Ent 14%positive 15%positive §"termination_id" (Raw 16%positive §"0") ].

Definition exit_rst : rst := mkRst (list_to_map (cells sample_exit)) [] [] 0.

Lemma exit_rst_holds : holds (r_heap exit_rst) (cells sample_exit ++ []).
Proof.
  assert (Hn : NoDup (map fst (cells sample_exit ++ []))) by (apply (bool_decide_unpack _); vm_compute; exact I).
  split; [exact Hn|]. intros l b Hin. rewrite app_nil_r in Hn, Hin. now apply elem_of_list_to_map_1.
Qed.

Lemma sample_exit_keys : keys_ok sample_exit §"UNKNOWN".
Proof.
  split; [done| |done|intros c r Hcr].
  - apply wf_Tab. repeat (apply List.Forall_cons || apply List.Forall_nil || (apply wf_Raw; vm_compute; discriminate)).
  - injection Hcr as <- _. discriminate.
Qed.

Lemma sample_exit_flat : flat sample_exit.
Proof.
  intros k v. unfold sample_exit. cbn [tfind entries es_find List.find e_key].
  repeat match goal with |- context [streq ?a ?b] => destruct (streq a b) end; cbn; intros [= <-]; eauto.
Qed.

Lemma tag_report_exit_witness :
  tag_report sample_menv false 1%positive (ptr_of sample_exit) exit_rst =
    Done 0 (add_out (result_lines §"UNKNOWN" §"mytag" §"-" §"-" (exit_verdict sample_exit)) exit_rst) /\ exit_verdict sample_exit = §"pass".
Proof.
  split; [|vm_compute; reflexivity].
  apply (tag_report_exit sample_menv sample_exit §"UNKNOWN" 1%positive §"mytag" §"exit" [] exit_rst sample_mem sample_exit_keys sample_exit_flat exit_rst_holds);
    try (vm_compute; reflexivity). left. vm_compute. reflexivity.
Defined.
