(* ===== verification/PanReportEnd.v ===== *)
(** The end of a test in the scanner of pan: its table goes under its tag, in place of
    the table of an earlier run of the same tag, or is thrown away. *)
From Stdlib Require Import Ascii String ZArith Lia Bool.
From stdpp Require Import base list sets numbers gmap.
From S2P Require Import Prelude CString Splitstr Effects PanSym PanSymOk PanReport PanReportOk PanReportLines.

Local Open Scope Z_scope.

Section End_.
Variable e : menv.
Hypothesis mem : mem_ok e.

(** Replacing the value of an entry whose old value is not there any more. *)
Lemma replace_single la ca aes k x nx RA p q G h :
  es_find aes k = Some x -> key_ok [k] ->
  (forall t, cells (Tab la ca (es_set aes k t)) ≡ₚ (e_node x, Sym nx (e_kloc x) (ptr_of t)) :: cells t ++ RA) ->
  holds h ((e_node x, Sym nx (e_kloc x) p) :: RA ++ G) ->
  sym_put e (Some la) k q PUT_REPLACE h = Done 0 (<[e_node x := Sym nx (e_kloc x) q]> h).
Proof.
  intros Hf Hk HR Hh. set (es0 := es_set aes k Nul). pose proof (HR Nul) as H0. rewrite cells_Tab in H0. cbn [cells app ptr_of] in H0. fold es0 in H0.
  assert (Hin : forall c, c ∈ (la, Symh (head_ptr es0 None) ca) :: es_cells None es0 -> c = (e_node x, Sym nx (e_kloc x) None) \/ c ∈ RA)
    by (intros c; rewrite H0; apply elem_of_cons).
  assert (HRA : forall l b, (l, b) ∈ RA -> h !! l = Some b) by (intros l b Hl; eapply holds_in; [exact Hh|]; right; apply elem_of_app; now left).
  assert (Hla : h !! la = Some (Symh (head_ptr es0 None) ca)) by (destruct (Hin _ (list_elem_of_here _ _)) as [|Hl]; [done|now apply HRA]).
  assert (Hc : chain_in h es0).
  { intros n y Hn. split.
    - destruct (Hin _ (list_elem_of_further _ _ _ (es_cell_nth _ _ _ Hn))) as [[= -> -> -> _]|Hl]; [|eauto]. exists p. exact (holds_head _ _ _ _ Hh).
    - destruct (Hin _ (list_elem_of_further _ _ _ (es_key_nth _ _ _ Hn))) as [|Hl]; [done|now apply HRA]. }
  assert (Hsz : (length es0 <= size h)%nat).
  { pose proof (holds_size _ _ Hh) as Hs. apply Permutation_length in H0. pose proof (length_es_cells None es0). cbn [length] in *. rewrite length_app in Hs. lia. }
  assert (Es : search (Some la) [k] None h = Done (Stop [] (Some la) (Some (e_node x))) h).
  { cbn [search]. rewrite (bind_Done _ _ _ _ _ (load_symh_ok _ _ _ _ Hla)). unfold find_key1. 
    assert (Ef : find_loop (size h) (head_ptr es0 None) k h = Done (Some (e_node x)) h) by (rewrite (find_loop_chain _ _ _ _ Hc Hsz); unfold es0; now rewrite (es_set_find aes k x Nul Hf)).
    assert (Eg : (h0 ← get; find_loop (size h0) (head_ptr es0 None) k) h = Done (Some (e_node x)) h) by (rewrite (bind_Done get _ h h h eq_refl); exact Ef).
    now rewrite (bind_Done _ _ _ _ _ Eg). }
  destruct (split_key e mem [k] Hk) as (keys & n & S1 & S2 & S3). change (key_text [k]) with k in S1. unfold sym_put.
  rewrite S1, S2, (bind_Done _ _ _ _ _ Es), (bind_Done _ _ _ _ _ (S3 h)). change (PUT_REPLACE =? PUT_REPLACE) with true. cbn iota.
  now rewrite (bind_Done _ _ _ _ _ (load_sym_ok _ _ _ _ _ (holds_head _ _ _ _ Hh))).
Qed.

(** The cells of a value are a part of those of the table. *)
Lemma tfind_perm t ks v : tfind t ks = Some v -> exists L, cells t ≡ₚ cells v ++ L.
Proof.
  revert t. induction ks as [|k ks IH]; intros t; cbn [tfind]; [intros [= ->]; exists []; now rewrite app_nil_r|].
  destruct t as [| |l cur es]; [done..|]. cbn [entries]. destruct (es_find es k) as [x|] eqn:Ef; [|done]. cbn [mbind option_bind]. intros Hv.
  destruct (IH _ Hv) as [L HL]. destruct (cells_value l cur es k x Ef) as (nx & L' & HL').
  exists ((e_node x, Sym nx (e_kloc x) (ptr_of (e_val x))) :: L ++ L'). rewrite HL', HL. perm.
Qed.

(** [t'] is the table [t] with [v] under the key [k]: in the place of its old value, or
    at the end. *)
Definition added (t t' : tree) (k : cstr) (v : tree) : Prop := exists l cur es, t = Tab l cur es /\
  match es_find es k with
  | Some _ => t' = Tab l cur (es_set es k v)
  | None => exists n kl, t' = Tab l cur (es ++ [Ent n kl k v])
  end.

Lemma added_find t t' k v : added t t' k v -> ptr_of t' = ptr_of t /\ tfind t' [k] = Some v /\ forall q, q <> k -> tfind t' [q] = tfind t [q].
Proof.
  intros (l & cur & es & -> & Ha). destruct (es_find es k) as [x|] eqn:Ef; [subst t'|destruct Ha as (n & kl & ->)]; (split; [done|]); cbn [tfind entries].
  - rewrite (es_set_find es k x v Ef). split; [done|]. intros q Hq. now rewrite es_set_other.
  - rewrite es_find_app, Ef. unfold es_find at 1. cbn [List.find e_key]. rewrite streq_refl. split; [done|]. intros q Hq. rewrite es_find_app.
    destruct (es_find es q) as [y|]; [done|]. unfold es_find. cbn [List.find e_key]. now rewrite (proj2 (streq_false k q)) by congruence.
Qed.

Lemma single_added flags d k t t' : puts flags d [k] t 0 t' -> added t t' k d.
Proof.
  intros Hp. inversion Hp as [? ? l cur es x Ef Hc| |? l cur es x Ef Hf| |]; subst; exists l, cur, es; (split; [done|]); rewrite Ef; [|done].
  inversion Hc; subst. eauto.
Qed.

Lemma single_free t k : ~ blocked t [k].
Proof. intros (p & q & v & Eq & Hpn & Hq & _). destruct p as [|? [|? ?]], q; done. Qed.

(** A value goes into a table under a key it does not have. *)
Lemma put_new k t d G s : is_table t = true -> wf t -> key_ok [k] -> tfind t [k] = None -> holds (r_heap s) (cells t ++ cells d ++ G) ->
  exists t' s1, lift (sym_put e (ptr_of t) k (ptr_of d) 0) s = Done 0 s1 /\ same_out s s1 /\ holds (r_heap s1) (cells t' ++ G) /\ added t t' k d /\ (wf d -> wf t').
Proof.
  intros Ht Hw Hk Hn Hh. destruct (put_ok e mem 0 d [k] t (r_heap s) G Ht Hw Hh Hk) as (c & t' & rest & h1 & E1 & Hp & H1 & _ & H2).
  destruct (puts_code _ _ _ _ _ _ Hp) as [[_ Hb]|[(_ & _ & [v Hv] & _)|(-> & _)]]; [now apply single_free in Hb|congruence|].
  rewrite (H2 eq_refl) in H1. unfold left_over in H1. rewrite Hn in H1.
  exists t'. eexists. split; [exact (lift_Done _ _ _ _ E1)|]. split; [done|]. split; [exact H1|]. split; [exact (single_added _ _ _ _ _ Hp)|].
  intros Hd. exact (puts_wf _ _ _ _ _ _ Hw Hd Hp).
Qed.

(** The table is put under its tag; a value the tag had stays in memory. *)
Lemma store_new A C' tg G s : is_table A = true -> wf A -> key_ok [tg] -> holds (r_heap s) (cells A ++ cells C' ++ G) ->
  exists A' s1, lift (sym_put e (ptr_of A) tg (ptr_of C') PUT_REPLACE) s = Done 0 s1 /\ same_out s s1 /\ added A A' tg C' /\
    holds (r_heap s1) (cells A' ++ left_over A [tg] ++ G).
Proof.
  intros Ht Hw Hk Hh. destruct (put_ok e mem PUT_REPLACE C' [tg] A (r_heap s) G Ht Hw Hh Hk) as (c & A' & rest & h1 & E1 & Hp & H1 & _ & H2).
  destruct (puts_code _ _ _ _ _ _ Hp) as [[_ Hb]|[(_ & Hne & _)|(-> & _)]]; [now apply single_free in Hb|done|].
  rewrite (H2 eq_refl) in H1. exists A'. eexists. split; [exact (lift_Done _ _ _ _ E1)|]. split; [done|]. split; [|exact H1].
  exact (single_added _ _ _ _ _ Hp).
Qed.

(** The old table of the tag is removed and the new one put in its place. *)
Lemma store_again la ca aes x C' tg G s : Forall (fun y => wf (e_val y)) aes -> es_find aes tg = Some x -> key_ok [tg] ->
  holds (r_heap s) (cells (Tab la ca aes) ++ cells C' ++ G) ->
  exists L s1 s2, lift (sym_rm (ptr_of (e_val x)) RM_ALL) s = Done 0 s1 /\
    lift (sym_put e (Some la) tg (ptr_of C') PUT_REPLACE) s1 = Done 0 s2 /\ same_out s s2 /\ map fst L = option_list (ptr_of (e_val x)) /\
    added (Tab la ca aes) (Tab la ca (es_set aes tg C')) tg C' /\ holds (r_heap s2) (cells (Tab la ca (es_set aes tg C')) ++ L ++ G).
Proof.
  intros Hw Hf Hk Hh. destruct (cells_focus la ca aes tg x Hf) as (nx & RA & HR). rewrite <- (es_set_same aes tg x Hf) in Hh. rewrite HR in Hh.
  set (node := (e_node x, Sym nx (e_kloc x) (ptr_of (e_val x)))) in *.
  assert (H0 : holds (r_heap s) (cells (e_val x) ++ [node] ++ RA ++ cells C' ++ G)) by (eapply holds_perm; [|exact Hh]; perm).
  destruct (rm_ok RM_ALL (e_val x) (size (r_heap s)) (r_heap s) _ (es_find_wf _ _ _ Hw Hf) H0 (holds_size _ _ (holds_app_l _ _ _ H0))) as (h1 & E1 & F1).
  destruct (root_left RM_ALL (e_val x) _ _ _ H0 F1) as (L & H1 & HL).
  assert (Er : sym_rm (ptr_of (e_val x)) RM_ALL (r_heap s) = Done 0 h1).
  { unfold sym_rm. now rewrite (bind_Done get _ (r_heap s) (r_heap s) (r_heap s) eq_refl), (bind_Done _ _ _ _ _ E1). }
  assert (H2 : holds h1 (node :: RA ++ (L ++ cells C' ++ G))) by (eapply holds_perm; [|exact H1]; perm).
  pose proof (replace_single la ca aes tg x nx RA _ (ptr_of C') _ h1 Hf Hk HR H2) as Ep.
  exists L. do 2 eexists. split; [exact (lift_Done _ _ _ _ Er)|]. split; [apply lift_Done; exact Ep|]. split; [done|]. split; [now apply HL|]. split.
  - exists la, ca, aes. split; [done|]. now rewrite Hf.
  - cbn [r_heap]. rewrite HR. apply (holds_update (RA ++ L ++ cells C' ++ G) h1 (e_node x) (Sym nx (e_kloc x) (ptr_of (e_val x))) _ (node :: RA ++ L ++ cells C' ++ G)); [reflexivity|perm|exact H2].
Qed.

(** The new table is thrown away: all of it but its header. *)
Lemma drop_new C' G s : wf C' -> holds (r_heap s) (cells C' ++ G) ->
  exists L s1, lift (sym_rm (ptr_of C') RM_ALL) s = Done 0 s1 /\ same_out s s1 /\ map fst L = option_list (ptr_of C') /\ holds (r_heap s1) (L ++ G).
Proof.
  intros Hw H0. destruct (rm_ok RM_ALL C' (size (r_heap s)) (r_heap s) _ Hw H0 (holds_size _ _ (holds_app_l _ _ _ H0))) as (h1 & E1 & F1).
  destruct (root_left RM_ALL C' _ _ _ H0 F1) as (L & H1 & HL). exists L. eexists. split; [apply lift_Done; unfold sym_rm|].
  - now rewrite (bind_Done get _ (r_heap s) (r_heap s) (r_heap s) eq_refl), (bind_Done _ _ _ _ _ E1).
  - split; [done|]. split; [now apply HL|exact H1].
Qed.

(** Is there a start of a test that went well? *)
Definition started (K : tree) : bool := match text_at K [§"initiation_status"] with Some v => streq v §"ok" | None => false end.

Lemma status_ok {B} (f : bool -> R B) K F s : is_table K = true -> wf K -> flat K -> holds (r_heap s) (cells K ++ F) ->
  (status ← key_of e (ptr_of K) §"initiation_status";
   ok ← match status with None => mret false | Some st => v ← lift (load_text st); mret (streq v §"ok") end;
   f ok) s = f (started K) s.
Proof.
  intros Ht Hw Hfl Hh. destruct (key_of_ok e K F s §"initiation_status" mem Ht Hw Hfl Hh) as (p & E1 & P1); [key_name|].
  rewrite (bind_Done _ _ _ _ _ E1). unfold started. destruct (text_at K [§"initiation_status"]) as [v|]; [|rewrite P1; apply (bind_Done (mret false) _ false s s eq_refl)].
  destruct P1 as (t & -> & Ht1). apply bind_Done. now rewrite (bind_Done _ _ _ _ _ (lift_same _ _ _ (reads_load _ _ _ _ _ Hh Ht1))).
Qed.

(** The table that the tag has already. *)
Definition old_of (A : tree) (tg : cstr) : ptr := tfind A [tg] ≫= ptr_of.

(** The new run is thrown away: there is an old one, and the start of the new one failed. *)
Definition refused (A K : tree) (tg : cstr) : bool := match old_of A tg with Some _ => negb (started K) | None => false end.

(** The end of a test, with its keys attached and its tag read. *)
Definition finish_test (alltags ctag keys : ptr) (tag : cstr) : R Z :=
  rm ← lift (sym_get e alltags tag);
  keep ← match rm with
         | None => mret true
         | Some _ =>
             status ← key_of e keys §"initiation_status";
             ok ← match status with None => mret false | Some st => v ← lift (load_text st); mret (streq v §"ok") end;
             if (ok : bool) then lift (sym_rm rm RM_ALL);; mret true
             else lift (sym_rm ctag RM_ALL);; mret false
         end;
  if (keep : bool) then lift (sym_put e alltags tag ctag PUT_REPLACE);; mret 0 else mret 1.

Lemma finish_test_ok A C' K tg G s :
  is_table A = true -> wf A -> wf C' -> is_table K = true -> wf K -> flat K -> tfind C' [§"_keys"] = Some K -> key_ok [tg] ->
  holds (r_heap s) (cells C' ++ cells A ++ G) ->
  exists A' L s', finish_test (ptr_of A) (ptr_of C') (ptr_of K) tg s = Done (if refused A K tg then 1 else 0) s' /\ same_out s s' /\
    holds (r_heap s') (cells A' ++ L ++ G) /\
    if refused A K tg then A' = A /\ map fst L = option_list (ptr_of C') else added A A' tg C' /\ map fst L = option_list (old_of A tg).
Proof.
  intros Ht Hw HwC HtK HwK Hfl HK Hk Hh. unfold finish_test.
  assert (HA : holds (r_heap s) (cells A ++ cells C' ++ G)) by (eapply holds_perm; [|exact Hh]; perm).
  rewrite (bind_Done _ _ _ _ _ (lift_same _ _ s (get_keys e mem A [tg] _ _ Ht Hw HA Hk))). unfold refused, old_of.
  destruct (tfind_perm _ _ _ HK) as [LK HLK].
  assert (HhK : holds (r_heap s) (cells K ++ LK ++ cells A ++ G)) by (rewrite HLK in Hh; eapply holds_perm; [|exact Hh]; perm).
  destruct (tfind A [tg] ≫= ptr_of) as [o|] eqn:Eo.
  - pose proof (status_ok (fun ok : bool => if ok then lift (sym_rm (Some o) RM_ALL);; mret true else lift (sym_rm (ptr_of C') RM_ALL);; mret false)
      K _ s HtK HwK Hfl HhK) as Es. destruct (started K); cbn [negb] in *.
    + destruct A as [| |la ca aes]; [done..|]. inversion_clear Hw as [| |? ? ? Hall]. cbn [tfind entries] in Eo.
      destruct (es_find aes tg) as [x|] eqn:Ef; [|done]. cbn in Eo.
      destruct (store_again la ca aes x C' tg G s Hall Ef Hk HA) as (L & s1 & s2 & E1 & E2 & Ho & HL & Hst & H2). rewrite Eo in E1, HL.
      rewrite (bind_Done _ _ _ _ _ E1) in Es. rewrite (bind_Done _ _ _ _ _ Es). cbn [ptr_of]. rewrite (bind_Done _ _ _ _ _ E2). eauto 8.
    + destruct (drop_new C' _ s HwC Hh) as (L & s1 & E1 & Ho & HL & H1). rewrite (bind_Done _ _ _ _ _ E1) in Es. rewrite (bind_Done _ _ _ _ _ Es).
      exists A, L, s1. split; [done|]. split; [done|]. split; [eapply holds_perm; [|exact H1]; perm|done].
  - rewrite (bind_Done (mret true) _ true s s eq_refl). destruct (store_new A C' tg G s Ht Hw Hk HA) as (A' & s1 & E1 & Ho & Hst & H1).
    rewrite (bind_Done _ _ _ _ _ E1). exists A', (left_over A [tg]), s1. split; [done|]. split; [done|]. split; [done|]. split; [done|].
    unfold left_over. destruct (tfind A [tg]) as [[| |]|]; done.
Qed.
End End_.

(** The end of a test that has a tag, with the tables before and after it. *)
Lemma test_end_ok e A C K tg F s :
  mem_ok e -> is_table A = true -> wf A -> is_table C = true -> wf C -> is_table K = true -> wf K -> flat K ->
  text_at K [§"tag"] = Some tg -> key_ok [tg] -> tfind C [§"_keys"] = None ->
  holds (r_heap s) (cells A ++ cells C ++ cells K ++ F) ->
  exists C' A' L s', scanner_test_end e (ptr_of A) (ptr_of C) (ptr_of K) s = Done (if refused A K tg then 1 else 0) s' /\
    same_out s s' /\ holds (r_heap s') (cells A' ++ L ++ F) /\ added C C' §"_keys" K /\
    if refused A K tg then A' = A /\ map fst L = option_list (ptr_of C) else added A A' tg C' /\ map fst L = option_list (old_of A tg).
Proof.
  intros Hm HtA HwA HtC HwC HtK HwK Hfl Htag Hk Hn Hh.
  assert (HC : holds (r_heap s) (cells C ++ cells K ++ cells A ++ F)) by (eapply holds_perm; [|exact Hh]; perm).
  destruct (put_new e Hm §"_keys" C K _ s HtC HwC ltac:(key_name) Hn HC) as (C' & s1 & E1 & Ho & H1 & Ha & Hw').
  destruct (added_find _ _ _ _ Ha) as (Hp' & HK & _). destruct (tfind_perm _ _ _ HK) as [LK HLK].
  assert (HhK : holds (r_heap s1) (cells K ++ LK ++ cells A ++ F)) by (pose proof H1 as H2; rewrite HLK in H2; eapply holds_perm; [|exact H2]; perm).
  destruct (key_of_ok e K _ s1 §"tag" Hm HtK HwK Hfl HhK) as (p & E2 & P2); [key_name|]. rewrite Htag in P2. destruct P2 as (t & -> & Hr).
  destruct (finish_test_ok e Hm A C' K tg F s1 HtA HwA (Hw' HwK) HtK HwK Hfl HK Hk H1) as (A' & L & s' & E3 & Ho' & H3 & Hres).
  exists C', A', L, s'. split.
  - destruct A as [| |la ca aes], C as [| |lc cc ces], K as [| |lk ck kes]; try done. rewrite Hp' in E3. cbn [ptr_of] in *. unfold scanner_test_end.
    rewrite (bind_Done _ _ _ _ _ E1), (bind_Done _ _ _ _ _ E2), (bind_Done _ _ _ _ _ (lift_same _ _ _ (reads_load _ _ _ _ _ HhK Hr))). exact E3.
  - split; [destruct Ho as (? & ? & ?), Ho' as (? & ? & ?); unfold same_out; repeat split; congruence|]. split; [exact H3|]. split; [done|].
    rewrite <- Hp'. exact Hres.
Qed.

(** C25: The end of a test whose output named a tag: the keys of the test are put into its table under "_keys", and the table goes
    into the table of all tags under its tag. If the tag has a table already, the old one is removed and the new one takes its
    place when the start of the new run was "ok"; otherwise the new one is removed, the table of all tags is as it was and the
    answer is 1. What stays in memory of the removed table is its header alone; the other tags keep their values, and
    nothing is printed. *)
Theorem scanner_test_end_stores e A C K tg F s :
  mem_ok e -> is_table A = true -> wf A -> is_table C = true -> wf C -> is_table K = true -> wf K -> flat K ->
  text_at K [§"tag"] = Some tg -> key_ok [tg] -> tfind C [§"_keys"] = None ->
  holds (r_heap s) (cells A ++ cells C ++ cells K ++ F) ->
  exists C' A' L s', scanner_test_end e (ptr_of A) (ptr_of C) (ptr_of K) s = Done (if refused A K tg then 1 else 0) s' /\
    same_out s s' /\ holds (r_heap s') (cells A' ++ L ++ F) /\
    (ptr_of C' = ptr_of C /\ tfind C' [§"_keys"] = Some K /\ forall q, q <> §"_keys" -> tfind C' [q] = tfind C [q]) /\
    if refused A K tg then A' = A /\ map fst L = option_list (ptr_of C)
    else (ptr_of A' = ptr_of A /\ tfind A' [tg] = Some C' /\ forall q, q <> tg -> tfind A' [q] = tfind A [q]) /\
         map fst L = option_list (old_of A tg).
Proof.
  intros Hm HtA HwA HtC HwC HtK HwK Hfl Htag Hk Hn Hh.
  destruct (test_end_ok e A C K tg F s Hm HtA HwA HtC HwC HtK HwK Hfl Htag Hk Hn Hh) as (C' & A' & L & s' & E1 & Ho & H1 & Ha & Hres).
  exists C', A', L, s'. split; [exact E1|]. split; [exact Ho|]. split; [exact H1|]. split; [exact (added_find _ _ _ _ Ha)|].
  destruct (refused A K tg); [exact Hres|]. destruct Hres as [HA HL]. split; [exact (added_find _ _ _ _ HA)|exact HL].
Qed.

(** The tag "t1" ran before; its new run started well. *)
Definition sample_all : tree := Tab 1%positive None [Ent 2%positive 3%positive §"t1" (Tab 4%positive None [])].
Definition sample_new : tree := Tab 5%positive None [].
Definition sample_keys : tree :=
  Tab 6%positive None [Ent 7%positive 8%positive §"tag" (Raw 9%positive §"t1");
                       Ent 10%positive 11%positive §"initiation_status" (Raw 12%positive §"ok")].
Definition sample_end_rst : rst := mkRst (list_to_map (cells sample_all ++ cells sample_new ++ cells sample_keys ++ [])) [] [] 0.

Lemma sample_end_holds : holds (r_heap sample_end_rst) (cells sample_all ++ cells sample_new ++ cells sample_keys ++ []).
Proof.
  split; [apply (bool_decide_unpack _); vm_compute; exact I|]. intros l b Hl. apply elem_of_list_to_map; [|exact Hl].
  apply (bool_decide_unpack _). vm_compute. exact I.
Qed.

Lemma sample_keys_flat : flat sample_keys.
Proof.
  intros k v. unfold sample_keys. cbn [tfind entries]. unfold es_find. cbn [List.find e_key].
  repeat (destruct (streq _ k); [intros [= <-]; eauto|]). done.
Qed.

Lemma sample_end_wf : wf sample_all /\ wf sample_new /\ wf sample_keys.
Proof. unfold sample_all, sample_new, sample_keys. repeat constructor; cbn; discriminate. Qed.

Lemma scanner_test_end_stores_witness : exists C' A' s',
  scanner_test_end sample_menv (Some 1%positive) (Some 5%positive) (Some 6%positive) sample_end_rst = Done 0 s' /\
  r_out s' = [] /\ tfind A' [§"t1"] = Some C' /\ tfind C' [§"_keys"] = Some sample_keys.
Proof.
  destruct sample_end_wf as (W1 & W2 & W3).
  destruct (scanner_test_end_stores sample_menv sample_all sample_new sample_keys §"t1" [] sample_end_rst sample_mem eq_refl W1 eq_refl W2 eq_refl W3
    sample_keys_flat eq_refl ltac:(key_name) eq_refl sample_end_holds) as (C' & A' & L & s' & E & (Ho & _) & _ & (_ & HK & _) & ((_ & HA & _) & _)).
  exists C', A', s'. split; [exact E|]. split; [exact Ho|]. split; [exact HA|exact HK].
Defined.
