(* ===== verification/PanScan.v ===== *)
(** The scanner of the output of pan: the rules of pan/scan.l with their actions, and
    the command pan/ltp-scanner.c.

    A rule of the lex file is a function that gives the length of what it matches; lex
    takes the longest match, with its trailing context, and the first rule among equals.
    The start conditions are inclusive ones. *)
From Stdlib Require Import Ascii String ZArith Lia Bool.
From stdpp Require Import base list sets numbers gmap.
From S2P Require Import Prelude CString Splitstr Effects PanSym PanReport.

Local Open Scope Z_scope.

(** ** Data *)

Definition KW_START : Z := 100.
Definition KW_END : Z := 101.
Definition TEST_START : Z := 102.
Definition TEST_OUTPUT : Z := 103.
Definition EXEC_STATUS : Z := 104.
Definition TEST_END : Z := 105.
Definition TEXT_LINE : Z := 106.
Definition KEYWORD : Z := 107.
Definition KEYWORD_QUOTED : Z := 108.
Definition CUTS_RESULT : Z := 109.
Definition CUTS_RESULT_R : Z := 110.
Definition SPACE : Z := 999.

Definition SCAN_OUTSIDE : Z := 10.
Definition SCAN_RTSKEY : Z := 20.
Definition SCAN_TSTKEY : Z := 21.
Definition SCAN_OUTPUT : Z := 30.

(** The start conditions. *)
Inductive scond := INITIAL | KEY | OUT | CUTS.

(** The rules, in their order. *)
Inductive rule :=
| RtsStart | RtsEnd | TestStart | TestOutput | ExecStatus | TestEnd | Quoted | Keyword | Blanks | TextLine | CutsResult | CutsRange | Dot | Newline.

Definition rules : list rule :=
  [RtsStart; RtsEnd; TestStart; TestOutput; ExecStatus; TestEnd; Quoted; Keyword; Blanks; TextLine; CutsResult; CutsRange; Dot; Newline].

Record sst := mkSst { s_r : rst; scan_mode : Z; keys : ptr; ctag : ptr; start : scond; yylineno : Z }.

Abbreviation S_ := (E sst).

Definition rlift {A} (m : R A) : S_ A := fun s =>
  match m (s_r s) with
  | Done a r => Done a (mkSst r (scan_mode s) (keys s) (ctag s) (start s) (yylineno s))
  | Exited c r => Exited c (mkSst r (scan_mode s) (keys s) (ctag s) (start s) (yylineno s))
  | Undefined => Undefined
  end.

Definition set_mode (m : Z) : S_ unit := modify (fun s => mkSst (s_r s) m (keys s) (ctag s) (start s) (yylineno s)).
Definition set_keys (p : ptr) : S_ unit := modify (fun s => mkSst (s_r s) (scan_mode s) p (ctag s) (start s) (yylineno s)).
Definition set_ctag (p : ptr) : S_ unit := modify (fun s => mkSst (s_r s) (scan_mode s) (keys s) p (start s) (yylineno s)).
Definition BEGIN (c : scond) : S_ unit := modify (fun s => mkSst (s_r s) (scan_mode s) (keys s) (ctag s) c (yylineno s)).
Definition set_lineno (n : Z) : S_ unit := modify (fun s => mkSst (s_r s) (scan_mode s) (keys s) (ctag s) (start s) n).

(** ** Patterns *)

Definition is_upper (c : ascii) : bool := (65 <=? chr_code c) && (chr_code c <=? 90).
Definition is_lower (c : ascii) : bool := (97 <=? chr_code c) && (chr_code c <=? 122).
Definition is_alpha (c : ascii) : bool := is_upper c || is_lower c.
Definition key_char (c : ascii) : bool := is_alpha c || ceqb c "_" || ceqb c "-".
Definition word_char (c : ascii) : bool := key_char c || isdigit c.
Definition blank_char (c : ascii) : bool := ceqb c " " || ceqb c TAB.
Definition white_char (c : ascii) : bool := blank_char c || ceqb c LF.
Definition QUOTE : ascii := "034".

(** One character or more of a class: their number and what is behind them. *)
Definition many (p : ascii -> bool) (s : cstr) : option (nat * cstr) :=
  match takewhile p s with
  | [] => None
  | t => Some (length t, drop (length t) s)
  end.

Definition one (c : ascii) (s : cstr) : option (nat * cstr) :=
  match s with
  | x :: r => if ceqb x c then Some (1%nat, r) else None
  | [] => None
  end.

(** Patterns behind each other. *)
Fixpoint seq (ps : list (cstr -> option (nat * cstr))) (s : cstr) : option (nat * cstr) :=
  match ps with
  | [] => Some (0%nat, s)
  | p :: ps =>
      '(n, r) ← p s;
      '(m, r) ← seq ps r;
      Some ((n + m)%nat, r)
  end.

(** [^text$]: at the beginning of a line and before its end; [$] is a trailing context. *)
Definition marker (text : cstr) (bol : bool) (s : cstr) : option (nat * nat) :=
  if bol && is_prefix (text ++ [LF]) s then Some (S (length text), length text) else None.

Definition plain (r : option (nat * cstr)) : option (nat * nat) := match r with Some (n, _) => Some (n, n) | None => None end.

(** A match of a rule: its length with the trailing context, and without. *)
Definition matches (r : rule) (sc : scond) (bol : bool) (s : cstr) : option (nat * nat) :=
  match r with
  | RtsStart => marker §"<<<rts_keyword_start>>>" bol s
  | RtsEnd => marker §"<<<rts_keyword_end>>>" bol s
  | TestStart => marker §"<<<test_start>>>" bol s
  | TestOutput => marker §"<<<test_output>>>" bol s
  | ExecStatus => marker §"<<<execution_status>>>" bol s
  | TestEnd => marker §"<<<test_end>>>" bol s
  | Quoted =>
      if sc is KEY then plain (seq [many key_char; one "="; one QUOTE; many (fun c => negb (ceqb c QUOTE || ceqb c LF)); one QUOTE] s) else None
  | Keyword => if sc is KEY then plain (seq [many key_char; one "="; many (fun c => negb (white_char c))] s) else None
  | Blanks => if sc is KEY then let n := length (takewhile white_char s) in Some (n, n) else None
  | TextLine =>
      if sc is OUT then if bol then
        match seq [many (fun c => negb (ceqb c LF)); one LF] s with Some (n, _) => Some (n, pred n) | None => None end else None else None
  | CutsResult =>
      if sc is CUTS then if bol then
        plain (seq [many word_char; many blank_char; many isdigit; many blank_char; many is_alpha; many blank_char; one ":"] s) else None else None
  | CutsRange =>
      if sc is CUTS then if bol then
        plain (seq [many word_char; many blank_char; many isdigit; one "-"; many isdigit; many blank_char; many is_alpha; many blank_char; one ":"] s)
      else None else None
  | Dot => match s with c :: _ => if ceqb c LF then None else Some (1, 1)%nat | [] => None end
  | Newline => match s with c :: _ => if ceqb c LF then Some (1, 1)%nat else None | [] => None end
  end.

(** The longest match, of the first rule that has it: the rule and the length of [yytext]. *)
Fixpoint longest (rs : list rule) (sc : scond) (bol : bool) (s : cstr) : option (rule * nat * nat) :=
  match rs with
  | [] => None
  | r :: rs =>
      match matches r sc bol s, longest rs sc bol s with
      | Some (n, len), Some (r', n', len') => if (n <? n')%nat then Some (r', n', len') else Some (r, n, len)
      | Some (n, len), None => Some (r, n, len)
      | None, b => b
      end
  end.

Section Scan.
Variable e : menv.
Variables (extended : bool) (date : Z -> cstr) (kind : scanner_kind).

(** ** Actions *)

Definition parse_states : list (cstr * Z) :=
  [(§"outside", SCAN_OUTSIDE); (§"rts_keyword_start", SCAN_RTSKEY); (§"test_start | execution_status", SCAN_TSTKEY); (§"test_output", SCAN_OUTPUT)].

Fixpoint state_name (l : list (cstr * Z)) (m : Z) : cstr :=
  match l with
  | [] => §"unknown"
  | (name, bits) :: l => if bits =? m then name else state_name l m
  end.

(** Only an unexpected mode is reported, when all the expected ones have been looked at. *)
Definition check_mode (yytext : cstr) (expected : list Z) : S_ unit :=
  s ← get;
  if existsb (Z.eqb (scan_mode s)) expected then mret tt
  else rlift (put_error (§"PARSE ERROR -- Line " ++ fmt_d (yylineno s) ++ §" found " ++ yytext ++ §" in mode " ++ state_name parse_states (scan_mode s) ++
         §"[" ++ fmt_d (scan_mode s) ++ §"] expected { " ++ join §", " (map (state_name parse_states) expected) ++ §" }")).

(** The first four characters, in lower case. *)
Definition lower (c : ascii) : ascii := if is_upper c then chr (chr_code c + 32) else c.
Definition strncaseeq (s t : cstr) (n : nat) : bool := strneq (map lower s) (map lower t) n.

Definition test_output (keys : ptr) : S_ Z :=
  at_ ← rlift (lift (sym_get e keys §"analysis"));
  match at_ with
  | Some l =>
      v ← rlift (lift (load_block l));
      if strncaseeq §"cuts" v 4 then BEGIN CUTS else mret tt
  | None => mret tt
  end;;
  mret 0.

(** A table of the scanner is removed and a new one made. *)
Definition remove (p : ptr) : S_ unit := match p with Some _ => rlift (lift (sym_rm p RM_ALL));; mret tt | None => mret tt end.

Definition put_key (key cont : cstr) : S_ unit :=
  s ← get;
  d ← rlift (lift (strdup e cont));
  rlift (lift (sym_put e (keys s) key d 0));;
  mret tt.

(** What is left and right of the first [=]. *)
Definition split_eq (yytext : cstr) : cstr * cstr :=
  (takewhile (fun c => negb (ceqb c "=")) yytext, drop 1 (default [] (strchr yytext "="))).

(** Without the last character, when it is a quote. *)
Definition unquote (s : cstr) : cstr := match rev s with c :: r => if ceqb c QUOTE then rev r else s | [] => s end.

Definition action (alltags : ptr) (r : rule) (yytext : cstr) : S_ Z :=
  match r with
  | RtsStart =>
      BEGIN KEY;;
      check_mode yytext [SCAN_OUTSIDE];;
      set_mode SCAN_RTSKEY;;
      s ← get; remove (keys s);;
      k ← rlift (lift (sym_open e)); set_keys k;;
      mret KW_START
  | RtsEnd =>
      BEGIN INITIAL;;
      check_mode yytext [SCAN_RTSKEY];;
      set_mode SCAN_OUTSIDE;;
      k ← rlift (lift (sym_get e alltags §"_RTS"));
      remove k;;
      s ← get;
      rlift (lift (sym_put e alltags §"_RTS" (keys s) PUT_REPLACE));;
      set_keys None;;
      mret KW_END
  | TestStart =>
      BEGIN KEY;;
      check_mode yytext [SCAN_OUTSIDE];;
      set_mode SCAN_TSTKEY;;
      s ← get; remove (keys s);;
      k ← rlift (lift (sym_open e)); set_keys k;;
      put_key §"_Start_line" (fmt_d (yylineno s));;
      remove (ctag s);;
      c ← rlift (lift (sym_open e)); set_ctag c;;
      mret TEST_START
  | TestOutput =>
      BEGIN OUT;;
      check_mode yytext [SCAN_TSTKEY];;
      set_mode SCAN_OUTPUT;;
      s ← get; test_output (keys s);;
      mret TEST_OUTPUT
  | ExecStatus =>
      BEGIN KEY;;
      check_mode yytext [SCAN_TSTKEY; SCAN_OUTPUT];;
      set_mode SCAN_TSTKEY;;
      mret EXEC_STATUS
  | TestEnd =>
      BEGIN INITIAL;;
      check_mode yytext [SCAN_TSTKEY];;
      set_mode SCAN_OUTSIDE;;
      s ← get;
      put_key §"_End_line" (fmt_d (yylineno s));;
      rlift (test_end e extended kind alltags (ctag s) (keys s));;
      set_ctag None;; set_keys None;;
      mret TEST_END
  | Quoted =>
      let '(key, cont) := split_eq (unquote yytext) in
      put_key key (match cont with c :: r => if ceqb c QUOTE then r else cont | [] => cont end);;
      mret KEYWORD_QUOTED
  | Keyword =>
      let '(key, cont) := split_eq yytext in
      put_key key cont;;
      mret KEYWORD
  | Blanks => mret SPACE
  | TextLine => mret TEXT_LINE
  | CutsResult => s ← get; rlift (lift (cuts_testcase e yytext (ctag s)));; mret CUTS_RESULT
  | CutsRange => s ← get; rlift (lift (cuts_testcase e yytext (ctag s)));; mret CUTS_RESULT_R
  | Dot | Newline => mret SPACE
  end.

(** ** The input *)

Definition newlines (s : cstr) : Z := Z.of_nat (length (List.filter (fun c => ceqb c LF) s)).

(** The calls of [yylex] on the text of a file; every one of them takes a character.
    [true] when a call returned 0. *)
Fixpoint lex_file (fuel : nat) (alltags : ptr) (bol : bool) (input : cstr) : S_ bool :=
  match input with
  | [] => mret false
  | _ =>
      match fuel with
      | O => undefined
      | S f =>
          s ← get;
          match longest rules (start s) bol input with
          | None => undefined
          | Some (r, _, len) =>
              let yytext := take len input in
              set_lineno (s32 (yylineno s + newlines yytext));;
              tok ← action alltags r yytext;
              if tok =? 0 then mret true
              else lex_file f alltags (match List.rev yytext with c :: _ => ceqb c LF | [] => bol end) (drop len input)
          end
      end
  end.

(** [yylex] at the end of a file calls [yywrap]; a file that cannot be opened ends the
    input. *)
Fixpoint lex_all (alltags : ptr) (files : list (cstr * option cstr)) : S_ unit :=
  match files with
  | [] => mret tt
  | (name, None) :: _ => rlift (put_line (§"Error opening " ++ name ++ §" for reading"))
  | (_, Some text) :: files =>
      set_lineno 1;;
      stop ← lex_file (length text) alltags true text;
      if (stop : bool) then mret tt else lex_all alltags files
  end.

Definition scanner (tags : ptr) (files : list (cstr * option cstr)) : S_ Z := lex_all tags files;; mret 0.
End Scan.

(** ** The command *)

Definition sst0 : sst := mkSst (mkRst ∅ [] [] 0) SCAN_OUTSIDE None None INITIAL 1.

(** The answers of [getopt] before the names: the kind of the scanner and [extended]. *)
Fixpoint options (argv0 : cstr) (opts : list ascii) (kind : scanner_kind) (extended : bool) : S_ (scanner_kind * bool) :=
  match opts with
  | [] => mret (kind, extended)
  | c :: opts =>
      if ceqb c "i" then options argv0 opts Iscanner extended
      else if ceqb c "D" then rlift (put_line §"Debugging is not enabled.  -D has been ignored");; options argv0 opts kind extended
      else if ceqb c "e" then options argv0 opts kind true
      else if ceqb c "h" then rlift (put_error (argv0 ++ §" [-e] [-i] [ -D area, level ] input-filenames"));; exit 0
      else rlift (put_error (§"invalid argument, " ++ [c]));; exit 1
  end.

(** Without names the standard input is read. *)
Definition lex_files (stdin : cstr) (files : list (cstr * option cstr)) : S_ (list (cstr * option cstr)) :=
  match files with
  | [] => mret [([], Some stdin)]
  | (name, None) :: _ => rlift (put_line (§"Error opening " ++ name ++ §" for reading"));; exit 1
  | _ => mret files
  end.

(** [main] of ltp-scanner. *)
Definition scanner_main (e : menv) (date : Z -> cstr) (argv0 stdin : cstr) (opts : list ascii) (files : list (cstr * option cstr)) : S_ Z :=
  '(kind, extended) ← options argv0 opts Scanner false;
  files ← lex_files stdin files;
  tags ← rlift (lift (sym_open e));
  scanner e extended kind tags files;;
  rlift (reporter e extended date kind tags);;
  exit 0.
