(* ===== verification/PanLex.v ===== *)
(** What the rules of the scanner match, and the loop of [yylex] over a text: every call
    takes a character, so that the loop ends. *)
From Stdlib Require Import Ascii String ZArith Lia Bool.
From stdpp Require Import base list sets numbers gmap.
From S2P Require Import Prelude CString Splitstr Effects PanSym PanReport PanScan.

Local Open Scope Z_scope.

(** ** Every text is matched *)

(** A match that is not empty has text outside of its trailing context. *)
Lemma matches_pos r sc bol s n len : matches r sc bol s = Some (n, len) -> (0 < n)%nat -> (0 < len)%nat.
Proof.
  assert (Hm : forall text, text <> [] -> marker text bol s = Some (n, len) -> (0 < n)%nat -> (0 < len)%nat)
    by (intros text Ht; unfold marker; destruct (_ && _); [|done]; intros [= <- <-] _; destruct text; [done|cbn; lia]).
  assert (Hp : forall r, plain r = Some (n, len) -> (0 < n)%nat -> (0 < len)%nat) by (intros [[? ?]|] [= <- <-]; done).
  destruct r; cbn [matches]; try (now apply Hm); try (destruct sc; done || apply Hp); try (destruct sc, bol; done || apply Hp).
  - destruct sc; [done| |done..]. intros [= <- <-]. done.
  - destruct sc; [done..| |done]. destruct bol; [|done]. cbn [seq]. unfold many, one. destruct (takewhile _ s) as [|c t]; [done|]. cbn [mbind option_bind].
    destruct (drop _ s) as [|x rest]; [done|]. destruct (ceqb x LF); [|done]. cbn. intros [= <- <-]. lia.
  - destruct s as [|c s]; [done|]. destruct (ceqb c LF); [done|]. intros [= <- <-]. lia.
  - destruct s as [|c s]; [done|]. destruct (ceqb c LF); [|done]. intros [= <- <-]. lia.
Qed.

Lemma longest_in rs sc bol s r n len : longest rs sc bol s = Some (r, n, len) -> matches r sc bol s = Some (n, len).
Proof.
  revert r n len. induction rs as [|q rs IH]; intros r n len; cbn [longest]; [done|]. destruct (matches q sc bol s) as [[m l]|] eqn:Em; [|apply IH].
  destruct (longest rs sc bol s) as [[[r' n'] l']|]; [destruct (m <? n')%nat|]; intros [= <- <- <-]; done || now apply IH.
Qed.

Lemma longest_max rs sc bol s q m l : q ∈ rs -> matches q sc bol s = Some (m, l) -> exists r n len, longest rs sc bol s = Some (r, n, len) /\ (m <= n)%nat.
Proof.
  induction rs as [|x rs IH]; intros Hq Hm; [now apply elem_of_nil in Hq|]. cbn [longest]. apply elem_of_cons in Hq as [->|Hq].
  - rewrite Hm. destruct (longest rs sc bol s) as [[[r' n'] l']|]; [|eauto 6]. destruct (Nat.ltb_spec m n'); do 3 eexists; (split; [done|lia]).
  - destruct (IH Hq Hm) as (r & n & len & -> & Hle). destruct (matches x sc bol s) as [[k j]|]; [|eauto 6].
    destruct (Nat.ltb_spec k n); do 3 eexists; (split; [done|lia]).
Qed.

(** [yylex] finds a rule for every text, and takes at least one character. *)
Lemma longest_total sc bol c s : exists r n len, longest rules sc bol (c :: s) = Some (r, n, len) /\ (0 < len)%nat.
Proof.
  assert (Hex : exists q, q ∈ rules /\ matches q sc bol (c :: s) = Some (1, 1)%nat).
  { exists (if ceqb c LF then Newline else Dot). split; [apply list_elem_of_In; destruct (ceqb c LF); cbv; tauto|]. destruct (ceqb c LF) eqn:Ec; cbn; now rewrite Ec. }
  destruct Hex as (q & Hq & Hm). destruct (longest_max _ _ _ _ _ _ _ Hq Hm) as (r & n & len & El & Hn). exists r, n, len. split; [done|].
  eapply matches_pos; [exact (longest_in _ _ _ _ _ _ _ El)|lia].
Qed.

(** ** The loop *)

Lemma bind_ext {S A B} (m : E S A) (f g : A -> E S B) s : (forall a s', f a s' = g a s') -> (m ≫= f) s = (m ≫= g) s.
Proof. unfold mbind, E_bind. intros Hfg. destruct (m s); [apply Hfg|done..]. Qed.

Section Loop.
Variable e : menv.
Variables (extended : bool) (kind : scanner_kind) (alltags : ptr).

Abbreviation lex := (lex_file e extended kind).

Lemma lex_fuel f g bol input : (length input <= f)%nat -> (length input <= g)%nat -> forall s, lex f alltags bol input s = lex g alltags bol input s.
Proof.
  revert g bol input. induction f as [|f IH]; intros g bol input Hf Hg s; [destruct input; [now destruct g|cbn in Hf; lia]|].
  destruct input as [|c input]; [now destruct g|]. destruct g as [|g]; [cbn in Hg; lia|]. cbn [lex_file].
  rewrite !(bind_Done get _ s s s eq_refl). destruct (longest_total (start s) bol c input) as (r & n & len & -> & Hpos).
  unfold set_lineno. rewrite !(bind_Done (modify _) _ tt s _ eq_refl). apply bind_ext. intros tok s1.
  destruct (tok =? 0); [done|]. apply IH; rewrite length_drop; cbn [length] in *; lia.
Qed.

Definition lexed (bol : bool) (input : cstr) : S_ bool := lex (length input) alltags bol input.

(** The state in which an action runs. *)
Definition counted (yytext : cstr) (s : sst) : sst :=
  mkSst (s_r s) (scan_mode s) (keys s) (ctag s) (start s) (s32 (yylineno s + newlines yytext)).

(** A call of [yylex]: the text [t] is matched. *)
Lemma lexed_step bol t input r n s tok s' : t <> [] ->
  longest rules (start s) bol (t ++ input) = Some (r, n, length t) ->
  action e extended kind alltags r t (counted t s) = Done tok s' -> tok <> 0 ->
  lexed bol (t ++ input) s = lexed (match List.rev t with c :: _ => ceqb c LF | [] => bol end) input s'.
Proof.
  intros Hn El Ea Ht. unfold lexed. destruct t as [|c t]; [done|]. cbn [app length lex_file].
  rewrite (bind_Done get _ s s s eq_refl). change (c :: t ++ input) with ((c :: t) ++ input). rewrite El.
  rewrite take_app_length, drop_app_length. unfold set_lineno. rewrite (bind_Done (modify _) _ tt s _ eq_refl). erewrite bind_Done by exact Ea.
  apply Z.eqb_neq in Ht. rewrite Ht. apply lex_fuel; rewrite ?length_app; lia.
Qed.
End Loop.

(** ** What the texts of a record are matched as *)

Lemma is_prefix_true p s : is_prefix p s = true <-> exists r, s = p ++ r.
Proof.
  revert s. induction p as [|a p IH]; intros s; cbn; [split; eauto|]. destruct s as [|b s]; [split; [done|intros (r & Hr); done]|].
  rewrite andb_true_iff, ceqb_eq, IH. split; [intros (-> & r & ->); now exists r|intros (r & [= -> ->]); eauto].
Qed.

(** A text that does not begin like a marker. *)
Lemma no_marker c s sc bol r : c <> "<"%char -> r ∈ take 6 rules -> matches r sc bol (c :: s) = None.
Proof.
  intros Hc Hr. assert (Hm : forall t, is_prefix ("<"%char :: t) (c :: s) = false) by (intros t; cbn; now rewrite (proj2 (ceqb_neq _ _) (not_eq_sym Hc))).
  apply list_elem_of_In in Hr. cbn in Hr. destruct Hr as [<-|[<-|[<-|[<-|[<-|[<-|[]]]]]]]; cbn [matches]; unfold marker; rewrite andb_comm;
    match goal with |- context [is_prefix ?p ?x] => change p with ("<"%char :: tail p); rewrite Hm end; done.
Qed.

Lemma longest_skip rs rs' sc bol s : (forall r, r ∈ rs -> matches r sc bol s = None) -> longest (rs ++ rs') sc bol s = longest rs' sc bol s.
Proof.
  induction rs as [|r rs IH]; intros Hn; [done|]. cbn [app longest]. rewrite Hn by apply list_elem_of_here. apply IH. intros q Hq. apply Hn. now right.
Qed.

Lemma many_app p a c r : a <> [] -> Forall (fun x => p x = true) a -> p c = false -> many p (a ++ c :: r) = Some (length a, c :: r).
Proof. intros Hn Ha Hc. unfold many. rewrite takewhile_app by done. destruct a; [done|]. now rewrite drop_app_length. Qed.

Lemma one_same c s : one c (c :: s) = Some (1%nat, s).
Proof. unfold one. now rewrite ceqb_refl. Qed.

(** Key and value: what both rules for keywords have in common. *)
Record key_word (k : cstr) : Prop := { kw_nonempty : k <> []; kw_chars : Forall (fun c => key_char c = true) k }.

Lemma key_char_not c : key_char c = true -> c <> "<"%char /\ white_char c = false /\ c <> "="%char /\ c <> LF.
Proof. intros Hc. repeat split; [intros ->; discriminate| |intros ->; discriminate|intros ->; discriminate]. destruct (white_char c) eqn:Ew; [|done].
  unfold white_char, blank_char in Ew. rewrite !orb_true_iff, !ceqb_eq in Ew. destruct Ew as [[->| ->]| ->]; discriminate. Qed.

(** Before a key word only the rules for keywords and for a single character match. *)
Lemma longest_key k s bol : key_word k -> longest rules KEY bol (k ++ s) = longest [Quoted; Keyword; Dot] KEY bol (k ++ s).
Proof.
  intros [Hn Hk]. destruct k as [|c k]; [done|]. inversion_clear Hk as [|? ? Hc Hk']. destruct (key_char_not c Hc) as (H1 & H2 & H3 & H4).
  change rules with (take 6 rules ++ drop 6 rules). cbn [app]. rewrite longest_skip by (intros r; now apply no_marker). cbn [drop rules longest].
  assert (Hb : longest [Blanks; TextLine; CutsResult; CutsRange; Dot; Newline] KEY bol (c :: k ++ s) = longest [Dot] KEY bol (c :: k ++ s))
    by (cbn [longest matches takewhile]; now rewrite H2, (proj2 (ceqb_neq c LF) H4)).
  cbn [longest] in Hb. now rewrite Hb.
Qed.

Lemma longest_two k s bol n n' l' : key_word k -> (0 < n)%nat -> matches Quoted KEY bol (k ++ s) = Some (n, n) ->
  matches Keyword KEY bol (k ++ s) = Some (n', l') -> (n' <= n)%nat -> longest rules KEY bol (k ++ s) = Some (Quoted, n, n).
Proof.
  intros Hk Hn Hq Hm Hle. rewrite longest_key by done. cbn [longest]. rewrite Hq, Hm. cbn [matches]. destruct (k ++ s) as [|c r]; [done|].
  destruct (ceqb c LF); [|destruct (Nat.ltb_spec n' 1)]; rewrite (proj2 (Nat.ltb_ge _ _)); done || lia.
Qed.

(** [k=v]: the value is not quoted, or is a pair of quotes. *)
Definition bare (v : cstr) : Prop := v <> [] /\ Forall (fun c => white_char c = false) v /\ (v = [QUOTE; QUOTE] \/ forall c r, v = c :: r -> c <> QUOTE).

Lemma longest_keyword k v w rest bol : key_word k -> bare v -> white_char w = true ->
  longest rules KEY bol ((k ++ "="%char :: v) ++ w :: rest) = Some (Keyword, length (k ++ "="%char :: v), length (k ++ "="%char :: v)).
Proof.
  intros Hk (Hn & Hv & Hq) Hw. rewrite <- app_assoc. rewrite longest_key by done. destruct Hk as [Kn Kc].
  assert (Hm : many key_char (k ++ ("="%char :: v) ++ w :: rest) = Some (length k, ("="%char :: v) ++ w :: rest)) by (cbn [app]; now apply many_app).
  assert (Eq : matches Quoted KEY bol (k ++ ("="%char :: v) ++ w :: rest) = None).
  { cbn [matches seq]. rewrite Hm. cbn [mbind option_bind app]. rewrite one_same. cbn [mbind option_bind].
    destruct Hq as [->|Hq]; [reflexivity|]. destruct v as [|c v]; [done|]. cbn [app one]. now rewrite (proj2 (ceqb_neq c QUOTE) (Hq _ _ eq_refl)). }
  assert (Ek : matches Keyword KEY bol (k ++ ("="%char :: v) ++ w :: rest) = Some (length (k ++ "="%char :: v), length (k ++ "="%char :: v))).
  { cbn [matches seq]. rewrite Hm. cbn [mbind option_bind app]. rewrite one_same. cbn [mbind option_bind].
    rewrite many_app; [|done|eapply Forall_impl; [exact Hv|]; now intros c ->|now rewrite Hw]. cbn [mbind option_bind plain]. rewrite length_app. cbn [length].
    do 2 f_equal; lia. }
  cbn [longest]. rewrite Eq, Ek. cbn [matches]. rewrite length_app. cbn [length]. destruct (k ++ _) as [|c r]; [done|]. destruct (ceqb c LF); [done|].
  now rewrite (proj2 (Nat.ltb_ge _ _)) by lia.
Qed.

Lemma takewhile_before (p : ascii -> bool) a w r : p w = false -> (length (takewhile p (a ++ w :: r)) <= length a)%nat.
Proof. intros Hw. induction a as [|x a IH]; cbn; [now rewrite Hw|]. destruct (p x); cbn; lia. Qed.

(** [k="v"]. *)
Definition quotable (v : cstr) : Prop := v <> [] /\ Forall (fun c => c <> QUOTE /\ c <> LF) v.

Lemma longest_quoted k v w rest bol : key_word k -> quotable v -> white_char w = true ->
  let t := k ++ "="%char :: QUOTE :: v ++ [QUOTE] in longest rules KEY bol (t ++ w :: rest) = Some (Quoted, length t, length t).
Proof.
  intros Hk (Hn & Hv) Hw t. pose proof Hk as [Kn Kc]. set (more := "="%char :: QUOTE :: v ++ QUOTE :: w :: rest).
  assert (Et : t ++ w :: rest = k ++ more) by (unfold t, more; rewrite <- app_assoc; cbn; now rewrite <- app_assoc). rewrite Et.
  assert (Hl : length t = (length k + 3 + length v)%nat) by (unfold t; rewrite length_app; cbn; rewrite length_app; cbn; lia).
  assert (Hm : many key_char (k ++ more) = Some (length k, more)) by now apply many_app.
  eapply (longest_two k more bol (length t) (length k + S (length (takewhile (fun c => negb (white_char c)) (tail more))))); [done|lia| | |].
  - cbn [matches seq]. rewrite Hm. unfold more. cbn [mbind option_bind]. rewrite one_same. cbn [mbind option_bind]. rewrite one_same. cbn [mbind option_bind].
    rewrite many_app; [|done| |now rewrite ceqb_refl].
    + cbn [mbind option_bind]. rewrite one_same. cbn [mbind option_bind plain]. rewrite Hl. do 2 f_equal; lia.
    + eapply Forall_impl; [exact Hv|]. intros c [H1 H2]. cbn. now rewrite (proj2 (ceqb_neq _ _) H1), (proj2 (ceqb_neq _ _) H2).
  - cbn [matches seq]. rewrite Hm. unfold more. cbn [mbind option_bind tail]. rewrite one_same. cbn [mbind option_bind].
    unfold many at 1. cbn [takewhile]. change (white_char QUOTE) with false. cbn [negb mbind option_bind plain]. do 2 f_equal; lia.
  - rewrite Hl. unfold more. cbn [tail]. pose proof (takewhile_before (fun c => negb (white_char c)) (QUOTE :: v ++ [QUOTE]) w rest) as Hb.
    cbn [app] in Hb. rewrite <- app_assoc in Hb. cbn [app length] in Hb. rewrite length_app in Hb. cbn [length] in Hb. rewrite Hw in Hb. specialize (Hb eq_refl). lia.
Qed.

Lemma longest_blank w c rest bol : white_char w = true -> white_char c = false ->
  longest rules KEY bol ([w] ++ c :: rest) = Some (Blanks, 1, 1)%nat.
Proof.
  intros Hw Hc. assert (Hn : w <> "<"%char) by (intros ->; discriminate).
  assert (Hk : key_char w = false) by (destruct (key_char w) eqn:Ek; [|done]; apply key_char_not in Ek as (_ & Ek & _); congruence).
  change rules with (take 6 rules ++ drop 6 rules). cbn [app]. rewrite longest_skip by (intros r; now apply no_marker).
  cbn [drop rules longest matches seq takewhile]. rewrite Hw, Hc. unfold many. cbn [takewhile]. rewrite Hk. cbn [mbind option_bind plain length].
  destruct (ceqb w LF); reflexivity.
Qed.

Lemma longest_newline rest sc bol : sc <> KEY -> longest rules sc bol ([LF] ++ rest) = Some (Newline, 1, 1)%nat.
Proof. intros Hs. destruct sc; [|done|..]; destruct bol; reflexivity. Qed.

(** The markers. *)
Definition markers : list cstr :=
  [§"<<<rts_keyword_start>>>"; §"<<<rts_keyword_end>>>"; §"<<<test_start>>>"; §"<<<test_output>>>"; §"<<<execution_status>>>"; §"<<<test_end>>>"].

(** A line of the output of a test. *)
Record out_line (l : cstr) : Prop := { ol_line : LF ∉ l; ol_text : l ∉ markers }.

Lemma marker_line m l rest bol : LF ∉ l -> LF ∉ m -> m <> l -> marker m bol (l ++ LF :: rest) = None.
Proof.
  intros Hl Hm Hne. unfold marker. destruct (is_prefix (m ++ [LF]) (l ++ LF :: rest)) eqn:Ep; [|now rewrite andb_false_r].
  apply is_prefix_true in Ep as [r Hr]. rewrite <- app_assoc in Hr. exfalso. apply Hne. clear Hne. revert l Hl Hr. induction m as [|x m IH]; intros [|y l] Hl Hr; cbn in Hr; [done| | |].
  - injection Hr as ->. destruct Hl. left.
  - injection Hr as <-. destruct Hm. left.
  - injection Hr as <- Hr. f_equal. apply IH; [intros Hi; apply Hm; now right|intros Hi; apply Hl; now right|exact Hr].
Qed.

Lemma longest_line l rest : out_line l -> l <> [] -> longest rules OUT true (l ++ LF :: rest) = Some (TextLine, S (length l), length l).
Proof.
  intros [Hl Ht] Hn. change rules with (take 6 rules ++ drop 6 rules). rewrite longest_skip.
  - cbn [drop rules longest matches seq]. rewrite many_app; [|done| |done].
    + cbn [mbind option_bind]. rewrite one_same. cbn [mbind option_bind]. destruct l as [|c l]; [done|]. cbn [app length].
      rewrite (proj2 (ceqb_neq c LF)) by (intros ->; apply Hl; left). replace (S (length l) + (1 + 0))%nat with (S (S (length l))) by lia. reflexivity.
    + apply List.Forall_forall. intros c Hc. apply list_elem_of_In in Hc. cbn. rewrite (proj2 (ceqb_neq c LF)); [done|]. intros ->. done.
  - intros r Hr. apply list_elem_of_In in Hr. cbn in Hr.
    assert (Hm : forall m, m ∈ markers -> marker m true (l ++ LF :: rest) = None).
    { intros m Hm. apply marker_line; [done| |intros ->; done]. apply memc_false. apply list_elem_of_In in Hm. cbn in Hm. destruct Hm as [<-|[<-|[<-|[<-|[<-|[<-|[]]]]]]]; reflexivity. }
    destruct Hr as [<-|[<-|[<-|[<-|[<-|[<-|[]]]]]]]; cbn [matches]; apply Hm; apply list_elem_of_In; cbn; tauto.
Qed.
