(* ===== verification/PanScanOk.v ===== *)
(** The scanner of pan on the records that pan writes: what the tables hold after the
    record of a test. *)
From Stdlib Require Import Ascii String ZArith Lia Bool.
From stdpp Require Import base list sets numbers gmap.
From S2P Require Import Prelude CString Splitstr PanOS Effects PanSym PanSymOk PanReport PanReportOk PanReportLines PanReportEnd PanScan PanLex.

Local Open Scope Z_scope.

(** ** Tables of texts *)

Definition holds_text (x : ent tree) (kv : cstr * cstr) : Prop :=
  e_key x = kv.1 /\ (exists l, e_val x = Raw l kv.2) /\ take 4 kv.2 <> SYM_MAGIC.

(** The table [K] has the keys and texts [kvs], in this order. *)
Definition keys_are (K : tree) (kvs : list (cstr * cstr)) : Prop := exists l cur es, K = Tab l cur es /\ Forall2 holds_text es kvs.

Definition assoc (kvs : list (cstr * cstr)) (k : cstr) : option cstr := snd <$> List.find (fun kv => streq kv.1 k) kvs.

Lemma find_texts es kvs k : Forall2 holds_text es kvs ->
  match es_find es k, assoc kvs k with
  | Some x, Some v => exists l, e_val x = Raw l v
  | None, None => True
  | _, _ => False
  end.
Proof.
  unfold es_find, assoc. induction 1 as [|x [k' v'] es kvs (Hk & Hv & _) _ IH]; [done|]. cbn [List.find fst snd] in *. rewrite Hk.
  destruct (streq k' k); [exact Hv|exact IH].
Qed.

Lemma keys_text K kvs k : keys_are K kvs -> text_at K [k] = assoc kvs k.
Proof.
  intros (l & cur & es & -> & Hf). unfold text_at. cbn [tfind entries]. pose proof (find_texts es kvs k Hf) as H1.
  destruct (es_find es k) as [x|], (assoc kvs k) as [v|]; try done. destruct H1 as [lv H1]. cbn. now rewrite H1.
Qed.

Lemma keys_new K kvs k : keys_are K kvs -> assoc kvs k = None -> tfind K [k] = None.
Proof.
  intros (l & cur & es & -> & Hf) Ha. cbn [tfind entries]. pose proof (find_texts es kvs k Hf) as H1. rewrite Ha in H1. now destruct (es_find es k).
Qed.

Lemma keys_flat K kvs : keys_are K kvs -> flat K.
Proof.
  intros (l & cur & es & -> & Hf) k v. cbn [tfind entries]. pose proof (find_texts es kvs k Hf) as H1. destruct (es_find es k) as [x|]; [|done].
  destruct (assoc kvs k) as [t|]; [|done]. destruct H1 as [lv H1]. cbn. rewrite H1. intros [= <-]. eauto.
Qed.

Lemma keys_wf K kvs : keys_are K kvs -> is_table K = true /\ wf K.
Proof.
  intros (l & cur & es & -> & Hf). split; [done|]. constructor. induction Hf as [|x kv es kvs (_ & (lv & Hv) & Hm) _ IH]; constructor; [|done]. rewrite Hv. now constructor.
Qed.

Lemma keys_added K K' kvs k v l : keys_are K kvs -> assoc kvs k = None -> take 4 v <> SYM_MAGIC -> added K K' k (Raw l v) -> keys_are K' (kvs ++ [(k, v)]).
Proof.
  intros Hk Ha Hm (lt & cur & es & -> & Hadd). destruct Hk as (lt' & cur' & es' & [= <- <- <-] & Hf). pose proof (find_texts es kvs k Hf) as H1. rewrite Ha in H1.
  destruct (es_find es k); [done|]. destruct Hadd as (n & kl & ->). exists lt, cur. eexists. split; [reflexivity|]. apply Forall2_app; [done|].
  constructor; [|constructor]. split; [done|]. split; [now exists l|done].
Qed.

(** ** The state of the scanner *)

(** Between two records: the table of all tags is [A]. *)
Definition outside (A : tree) (s : sst) : Prop :=
  scan_mode s = SCAN_OUTSIDE /\ start s = INITIAL /\ keys s = None /\ ctag s = None /\ exists L, holds (r_heap (s_r s)) (cells A ++ L).

(** In a record whose keys so far are [kvs]. *)
Definition testing (A : tree) (kvs : list (cstr * cstr)) (mode : Z) (sc : scond) (s : sst) : Prop :=
  scan_mode s = mode /\ start s = sc /\ exists K lc L, keys_are K kvs /\ keys s = ptr_of K /\ ctag s = Some lc /\
    holds (r_heap (s_r s)) (cells K ++ cells (Tab lc None []) ++ cells A ++ L).

Definition quiet (s s' : sst) : Prop := same_out (s_r s) (s_r s').

Lemma quiet_trans s s1 s2 : quiet s s1 -> quiet s1 s2 -> quiet s s2.
Proof. unfold quiet, same_out. intros (? & ? & ?) (? & ? & ?). repeat split; congruence. Qed.

Lemma rlift_Done {A} (m : R A) a s r' : m (s_r s) = Done a r' -> rlift m s = Done a (mkSst r' (scan_mode s) (keys s) (ctag s) (start s) (yylineno s)).
Proof. unfold rlift. now intros ->. Qed.

Lemma key_word_ok k : key_word k -> key_ok [k].
Proof.
  intros [Hn Hk]. split; [done|]. constructor; [|constructor]. split; [done|]. eapply Forall_impl; [exact Hk|]. intros c Hc Hin.
  apply list_elem_of_In in Hin as [<-|[]]. discriminate.
Qed.

(** A keyword with its value, bare or in quotes. *)
Inductive field := Bare (k v : cstr) | Quot (k v : cstr).

Definition field_kv (f : field) : cstr * cstr := match f with Bare k v | Quot k v => (k, v) end.
Definition field_text (f : field) : cstr := match f with Bare k v => k ++ "="%char :: v | Quot k v => k ++ "="%char :: QUOTE :: v ++ [QUOTE] end.

Definition field_ok (f : field) : Prop :=
  key_word (field_kv f).1 /\ (match f with Bare _ v => bare v | Quot _ v => quotable v end) /\ take 4 (field_kv f).2 <> SYM_MAGIC.

Lemma split_eq_text k v : key_word k -> split_eq (k ++ "="%char :: v) = (k, v).
Proof.
  intros [_ Hk]. unfold split_eq. rewrite takewhile_app; [| |now rewrite ceqb_refl].
  - rewrite strchr_app; [done|]. intros Hin. apply list_elem_of_In, (proj1 (List.Forall_forall _ _) Hk) in Hin. discriminate.
  - eapply Forall_impl; [exact Hk|]. intros c Hc. apply key_char_not in Hc as (_ & _ & Hc & _). now rewrite (proj2 (ceqb_neq _ _) Hc).
Qed.

Lemma field_head f : field_ok f -> exists c r, field_text f = c :: r /\ white_char c = false.
Proof.
  intros ([Kn Kc] & _). destruct f as [k v|k v]; cbn [field_kv field_text fst] in *; (destruct k as [|c k]; [done|]); inversion_clear Kc as [|? ? H1 _];
    apply key_char_not in H1 as (_ & H1 & _); now do 2 eexists.
Qed.

Lemma unquote_last s : unquote (s ++ [QUOTE]) = s.
Proof. unfold unquote. rewrite rev_app_distr. cbn. now rewrite rev_involutive. Qed.

Lemma assoc_none kvs k : k ∉ map fst kvs -> assoc kvs k = None.
Proof.
  unfold assoc. induction kvs as [|[k' v] kvs IH]; [done|]. cbn [map fst List.find]. intros Hn. rewrite (proj2 (streq_false k' k)) by (intros ->; apply Hn; left).
  apply IH. intros Hin. apply Hn. now right.
Qed.

Lemma assoc_app kvs kvs' k v : assoc kvs k = Some v -> assoc (kvs ++ kvs') k = Some v.
Proof. unfold assoc. induction kvs as [|[k' v'] kvs IH]; [done|]. cbn [app List.find fst]. destruct (streq k' k); [done|exact IH]. Qed.

(** The table of a test: its keys are all there is. *)
Definition test_table (C : tree) (kvs : list (cstr * cstr)) : Prop :=
  exists lc n kl K, C = Tab lc None [Ent n kl §"_keys" K] /\ keys_are K kvs.

Lemma test_table_wf C kvs : test_table C kvs -> wf C.
Proof. intros (lc & n & kl & K & -> & Hk). constructor. constructor; [|constructor]. exact (proj2 (keys_wf _ _ Hk)). Qed.

(** A number as a value. *)
Lemma fmt_d_chars z : Forall (fun c => isdigit c = true \/ c = "-"%char) (fmt_d z).
Proof.
  assert (Hn : forall n, 0 <= n -> Forall (fun c => isdigit c = true \/ c = "-"%char) (fmt_nat 10 n))
    by (intros n Hn; eapply Forall_impl; [apply (fmt_nat_isdigit 10); lia|]; now left).
  unfold fmt_d. destruct (Z.ltb_spec z 0); [constructor; [now right|]|]; apply Hn; lia.
Qed.

Lemma fmt_d_plain z : take 4 (fmt_d z) <> SYM_MAGIC.
Proof.
  pose proof (fmt_d_chars z) as Hc. destruct (fmt_d z) as [|c r]; [done|]. inversion_clear Hc as [|? ? [H1|H1] _]; intros [= -> _]; discriminate.
Qed.

Section Scanning.
Variable e : menv.
Hypothesis mem : mem_ok e.
Variables (extended : bool) (A : tree).

Abbreviation lexes := (lexed e extended Scanner (ptr_of A)).

(** The parts of the state that only the actions of the markers change. *)
Definition parts (s : sst) := (scan_mode s, keys s, ctag s, start s, yylineno s).

Lemma put_key_table k v K kvs G s : keys_are K kvs -> keys s = ptr_of K -> holds (r_heap (s_r s)) (cells K ++ G) ->
  key_ok [k] -> assoc kvs k = None -> take 4 v <> SYM_MAGIC ->
  exists K' s', put_key e k v s = Done tt s' /\ keys_are K' (kvs ++ [(k, v)]) /\ ptr_of K' = ptr_of K /\ holds (r_heap (s_r s')) (cells K' ++ G) /\
    parts s' = parts s /\ quiet s s'.
Proof.
  intros Hk Ek Hh Hkey Ha Hm. destruct (keys_wf _ _ Hk) as [Ht Hw].
  destruct (strdup_ok_loc e mem v _ _ Hh) as (l & h1 & E1 & H1). unfold put_key. rewrite (bind_Done get _ s s s eq_refl).
  pose proof (rlift_Done _ _ s _ (lift_Done _ _ (s_r s) _ E1)) as E2. rewrite (bind_Done _ _ _ _ _ E2).
  set (s1 := mkSst _ _ _ _ _ _).
  assert (H2 : holds (r_heap (s_r s1)) (cells K ++ cells (Raw l v) ++ G)) by (eapply holds_perm; [|exact H1]; perm).
  destruct (put_new e mem k K (Raw l v) _ (s_r s1) Ht Hw Hkey (keys_new _ _ _ Hk Ha) H2) as (K' & r2 & E3 & Ho & H3 & Hadd & _).
  rewrite Ek. erewrite bind_Done by exact (rlift_Done _ _ s1 _ E3). exists K'. eexists. split; [reflexivity|]. split; [exact (keys_added _ _ _ _ _ _ Hk Ha Hm Hadd)|].
  destruct (added_find _ _ _ _ Hadd) as [Hp _]. done.
Qed.

Lemma put_key_ok k v kvs mode sc s : testing A kvs mode sc s -> key_ok [k] -> assoc kvs k = None -> take 4 v <> SYM_MAGIC ->
  exists s', put_key e k v s = Done tt s' /\ testing A (kvs ++ [(k, v)]) mode sc s' /\ quiet s s'.
Proof.
  intros (Hmode & Hsc & K & lc & L & Hk & Ek & Ec & Hh) Hkey Ha Hm.
  destruct (put_key_table k v K kvs _ s Hk Ek Hh Hkey Ha Hm) as (K' & s' & E1 & Hk' & Hp & Hh' & [= M1 K1 C1 S1 N1] & Q).
  exists s'. split; [done|]. split; [|done]. split; [congruence|]. split; [congruence|]. exists K', lc, L. repeat split; [done|congruence|congruence|apply Hh'..].
Qed.

Lemma lexes_field f w rest bol kvs mode s :
  testing A kvs mode KEY s -> field_ok f -> assoc kvs (field_kv f).1 = None -> white_char w = true ->
  exists bol' s', lexes bol (field_text f ++ w :: rest) s = lexes bol' (w :: rest) s' /\ testing A (kvs ++ [field_kv f]) mode KEY s' /\ quiet s s'.
Proof.
  intros Ht (Hk & Hv & Hm) Ha Hw. pose proof Ht as (_ & Hsc & _). assert (Hc : testing A kvs mode KEY (counted (field_text f) s)) by exact Ht.
  destruct (put_key_ok _ _ _ _ _ _ Hc (key_word_ok _ Hk) Ha Hm) as (s' & E1 & H1 & H2).
  exists (match List.rev (field_text f) with c :: _ => ceqb c LF | [] => bol end), s'. split; [|split; [|exact H2]].
  - destruct f as [k v|k v]; cbn [field_kv field_text fst snd] in *.
    + eapply lexed_step; [now destruct k|rewrite Hsc; now apply longest_keyword| |].
      * cbn [action]. rewrite split_eq_text by done. erewrite bind_Done by exact E1. reflexivity.
      * discriminate.
    + eapply lexed_step; [now destruct k|rewrite Hsc; now apply longest_quoted| |].
      * cbn [action]. replace (k ++ "="%char :: QUOTE :: v ++ [QUOTE]) with ((k ++ "="%char :: QUOTE :: v) ++ [QUOTE]) in * by (now rewrite <- app_assoc).
        rewrite unquote_last, split_eq_text by done. rewrite ceqb_refl. erewrite bind_Done by exact E1. reflexivity.
      * discriminate.
  - destruct f; exact H1.
Qed.

Lemma lexes_blank w c rest bol kvs mode s : testing A kvs mode KEY s -> white_char w = true -> white_char c = false ->
  lexes bol (w :: c :: rest) s = lexes (ceqb w LF) (c :: rest) (counted [w] s).
Proof.
  intros (_ & Hsc & _) Hw Hc. eapply (lexed_step e extended Scanner (ptr_of A) bol [w] (c :: rest)); [done|rewrite Hsc; now apply longest_blank|reflexivity|discriminate].
Qed.

Definition field_block (fs : list (ascii * field)) : cstr := concat (map (fun p => p.1 :: field_text p.2) fs).

(** The keywords of a part of the record, up to the next marker. *)
Lemma lexes_fields fs rest bol kvs mode s :
  testing A kvs mode KEY s -> Forall (fun p => white_char p.1 = true /\ field_ok p.2) fs -> NoDup (map fst (kvs ++ map (fun p => field_kv p.2) fs)) ->
  exists s', lexes bol (field_block fs ++ LF :: "<"%char :: rest) s = lexes true ("<"%char :: rest) s' /\
    testing A (kvs ++ map (fun p => field_kv p.2) fs) mode KEY s' /\ quiet s s'.
Proof.
  revert bol kvs s. induction fs as [|[w f] fs IH]; intros bol kvs s Ht Hall Hnd.
  - eexists. split; [eapply lexes_blank; [exact Ht|reflexivity|reflexivity]|]. rewrite app_nil_r. split; [exact Ht|done].
  - inversion_clear Hall as [|? ? [Hw Hf] Hall']. 
    replace (field_block ((w, f) :: fs) ++ LF :: "<"%char :: rest) with (w :: field_text f ++ field_block fs ++ LF :: "<"%char :: rest) by (unfold field_block; cbn; now rewrite <- app_assoc).
    destruct (field_head f Hf) as (c & r & Ec & Hc). assert (Hb : exists bol', lexes bol (w :: field_text f ++ field_block fs ++ LF :: "<"%char :: rest) s =
      lexes bol' (field_text f ++ field_block fs ++ LF :: "<"%char :: rest) (counted [w] s)) by (rewrite Ec; eexists; eapply lexes_blank; eauto).
    destruct Hb as [bol1 ->]. assert (Hnext : exists w' more, field_block fs ++ LF :: "<"%char :: rest = w' :: more /\ white_char w' = true).
    { destruct fs as [|[w' f'] fs]; [now do 2 eexists|]. inversion_clear Hall' as [|? ? [Hw' _] _]. do 2 eexists. split; [reflexivity|exact Hw']. }
    destruct Hnext as (w' & more & En & Hw'). rewrite En.
    destruct (lexes_field f w' more bol1 kvs mode (counted [w] s) Ht Hf) as (bol2 & s2 & E2 & H2 & Q2); [|done|].
    { apply assoc_none. rewrite map_app in Hnd. cbn [map fst] in Hnd. apply NoDup_app in Hnd as (_ & Hd & _). intros Hin. apply (Hd _ Hin). left. }
    rewrite E2, <- En. cbn [map snd] in Hnd |- *. rewrite (cons_middle (field_kv f)), app_assoc in Hnd |- *.
    destruct (IH bol2 _ s2 H2 Hall' Hnd) as (s3 & E3 & H3 & Q3). exists s3. split; [exact E3|]. split; [exact H3|].
    exact (quiet_trans _ _ _ Q2 Q3).
Qed.

Lemma check_mode_ok t m expected s : scan_mode s = m -> existsb (Z.eqb m) expected = true -> check_mode t expected s = Done tt s.
Proof. intros Hm He. unfold check_mode. rewrite (bind_Done get _ s s s eq_refl), Hm, He. done. Qed.

(** A new table. *)
Lemma sym_open_ok F s : holds (r_heap (s_r s)) F ->
  exists l s', rlift (lift (sym_open e)) s = Done (Some l) s' /\ holds (r_heap (s_r s')) (cells (Tab l None []) ++ F) /\ quiet s s' /\
    parts s' = parts s.
Proof.
  intros Hh. destruct (alloc_block_ok e mem (Symh None None) _ _ Hh) as (l & E1 & H1). exists l. eexists. split; [exact (rlift_Done _ _ s _ (lift_Done _ _ (s_r s) _ E1))|].
  split; [exact H1|]. done.
Qed.

Definition BEGIN_MODE (c : scond) (m : Z) (s : sst) : sst := mkSst (s_r s) m (keys s) (ctag s) c (yylineno s).

(** What the actions of the markers have in common: the start condition, the check of
    the mode and the new mode. *)
Lemma enter {B} c t m m' expected (f : S_ B) s : scan_mode s = m -> existsb (Z.eqb m) expected = true ->
  (BEGIN c;; check_mode t expected;; set_mode m';; f) s = f (BEGIN_MODE c m' s).
Proof.
  intros Hm He. unfold BEGIN, set_mode. rewrite (bind_Done (modify _) _ tt s _ eq_refl).
  erewrite bind_Done; [|apply (check_mode_ok t m); [exact Hm|exact He]]. rewrite (bind_Done (modify _) _ tt _ _ eq_refl). done.
Qed.

Lemma lexes_test_start rest s : outside A s ->
  exists n s', lexes true (§"<<<test_start>>>" ++ LF :: rest) s = lexes false (LF :: rest) s' /\ testing A [(§"_Start_line", fmt_d n)] SCAN_TSTKEY KEY s' /\ quiet s s'.
Proof.
  intros (Hmode & Hsc & Hk & Hc & L & Hh). set (t := §"<<<test_start>>>"). set (s0 := BEGIN_MODE KEY SCAN_TSTKEY (counted t s)).
  destruct (sym_open_ok (cells A ++ L) s0 Hh) as (lk & s1 & E1 & H1 & Q1 & [= M1 K1 C1 S1 N1]).
  set (s2 := mkSst (s_r s1) (scan_mode s1) (Some lk) (ctag s1) (start s1) (yylineno s1)).
  assert (Hk2 : keys_are (Tab lk None []) []) by (exists lk, None, []; split; [done|constructor]).
  destruct (put_key_table §"_Start_line" (fmt_d (yylineno s0)) (Tab lk None []) [] _ s2 Hk2 eq_refl H1) as (K3 & s3 & E3 & Hk3 & P3 & H3 & [= M3 K3' C3 S3 N3] & Q3);
    [key_name|done|apply fmt_d_plain|].
  destruct (sym_open_ok _ s3 H3) as (lc & s4 & E4 & H4 & Q4 & [= M4 K4 C4 S4 N4]).
  exists (yylineno s0). eexists. split; [|split].
  - eapply lexed_step; [done|rewrite Hsc; reflexivity| |].
    + cbn [action]. rewrite (enter KEY t SCAN_OUTSIDE) by done. fold s0. rewrite (bind_Done get _ s0 s0 s0 eq_refl).
      change (keys s0) with (keys s). rewrite Hk. cbn [remove]. rewrite (bind_Done (mret tt) _ tt s0 s0 eq_refl), (bind_Done _ _ _ _ _ E1).
      unfold set_keys. erewrite (bind_Done (modify _)) by reflexivity. fold s2. rewrite (bind_Done _ _ _ _ _ E3).
      change (ctag s0) with (ctag s). rewrite Hc. cbn [remove]. rewrite (bind_Done (mret tt) _ tt s3 s3 eq_refl), (bind_Done _ _ _ _ _ E4).
      unfold set_ctag. erewrite (bind_Done (modify _)) by reflexivity. reflexivity.
    + discriminate.
  - split; [cbn; congruence|]. split; [cbn; congruence|]. exists K3, lc, L. split; [exact Hk3|]. split; [cbn [keys]; now rewrite P3, K4, K3'|]. split; [done|].
    eapply holds_perm; [|exact H4]. perm.
  - exact (quiet_trans _ _ _ (quiet_trans _ _ _ Q1 Q3) Q4).
Qed.

Lemma lexes_test_output rest kvs s : testing A kvs SCAN_TSTKEY KEY s -> assoc kvs §"analysis" = Some §"exit" ->
  exists s', lexes true (§"<<<test_output>>>" ++ LF :: rest) s = lexes false (LF :: rest) s' /\ testing A kvs SCAN_OUTPUT OUT s' /\ quiet s s'.
Proof.
  intros (Hmode & Hsc & K & lc & L & Hk & Ek & Ec & Hh) Ha. set (t := §"<<<test_output>>>"). set (s0 := BEGIN_MODE OUT SCAN_OUTPUT (counted t s)).
  destruct (keys_wf _ _ Hk) as [Ht Hw]. destruct (key_of_ok e K _ (s_r s) §"analysis" mem Ht Hw (keys_flat _ _ Hk) Hh) as (p & E1 & P1); [key_name|].
  rewrite (keys_text _ _ _ Hk), Ha in P1. destruct P1 as (tx & -> & Hr). apply bind_inv_Done in E1 as (q & r1 & E1 & E2).
  assert (Et : test_output e (keys s0) s0 = Done 0 s0).
  { unfold test_output. change (keys s0) with (keys s). rewrite Ek. destruct q as [l|]; [|discriminate]. injection E2 as <- ->.
    rewrite (bind_Done _ _ _ _ _ (rlift_Done _ _ s0 _ E1)). erewrite (bind_Done (match Some l with _ => _ end)); [reflexivity|].
    erewrite bind_Done; [|apply rlift_Done, lift_same; exact (reads_load _ _ _ _ _ Hh Hr)]. reflexivity. }
  exists s0. split; [|split; [|done]].
  - eapply lexed_step; [done|rewrite Hsc; reflexivity| |].
    + cbn [action]. rewrite (enter OUT t SCAN_TSTKEY) by done. fold s0. rewrite (bind_Done get _ s0 s0 s0 eq_refl), (bind_Done _ _ _ _ _ Et). reflexivity.
    + discriminate.
  - split; [done|]. split; [done|]. exists K, lc, L. done.
Qed.

Lemma lexes_newline rest bol s : start s <> KEY -> lexes bol (LF :: rest) s = lexes true rest (counted [LF] s).
Proof.
  intros Hs. eapply (lexed_step e extended Scanner (ptr_of A) bol [LF] rest); [done|now apply longest_newline|reflexivity|discriminate].
Qed.

(** The output of the test is passed over. *)
Lemma lexes_lines ls rest kvs s : testing A kvs SCAN_OUTPUT OUT s -> Forall out_line ls ->
  exists s', lexes true (concat (map (fun l => l ++ [LF]) ls) ++ rest) s = lexes true rest s' /\ testing A kvs SCAN_OUTPUT OUT s' /\ quiet s s'.
Proof.
  revert s. induction ls as [|l ls IH]; intros s Ht Hall; [now exists s|]. inversion_clear Hall as [|? ? Hl Hall']. cbn [map concat]. rewrite <- !app_assoc. cbn [app].
  set (more := concat _ ++ rest). pose proof Ht as (_ & Hsc & _).
  assert (H1 : exists s1, lexes true (l ++ LF :: more) s = lexes true more s1 /\ testing A kvs SCAN_OUTPUT OUT s1 /\ quiet s s1).
  { destruct l as [|c l]; [eexists; split; [apply lexes_newline; now rewrite Hsc|done]|].
    eexists. split; [|split]; [etransitivity|..].
    - eapply lexed_step; [done|rewrite Hsc; now apply longest_line|reflexivity|discriminate].
    - apply lexes_newline. cbn. now rewrite Hsc.
    - done.
    - done. }
  destruct H1 as (s1 & -> & H1 & Q1). destruct (IH s1 H1 Hall') as (s2 & E2 & H2 & Q2). exists s2. split; [exact E2|]. split; [exact H2|exact (quiet_trans _ _ _ Q1 Q2)].
Qed.

Lemma lexes_exec_status rest kvs s : testing A kvs SCAN_OUTPUT OUT s ->
  exists s', lexes true (§"<<<execution_status>>>" ++ LF :: rest) s = lexes false (LF :: rest) s' /\ testing A kvs SCAN_TSTKEY KEY s' /\ quiet s s'.
Proof.
  intros (Hmode & Hsc & K & lc & L & Hk & Ek & Ec & Hh). set (t := §"<<<execution_status>>>"). exists (BEGIN_MODE KEY SCAN_TSTKEY (counted t s)). split; [|split; [|done]].
  - eapply lexed_step; [done|rewrite Hsc; reflexivity| |].
    + cbn [action]. rewrite (enter KEY t SCAN_OUTPUT) by done. reflexivity.
    + discriminate.
  - split; [done|]. split; [done|]. exists K, lc, L. done.
Qed.

Lemma lexes_test_end rest kvs tg s : is_table A = true -> wf A -> testing A kvs SCAN_TSTKEY KEY s ->
  assoc kvs §"_End_line" = None -> assoc kvs §"tag" = Some tg -> key_ok [tg] -> assoc kvs §"initiation_status" = Some §"ok" ->
  exists n C' A' s', lexes true (§"<<<test_end>>>" ++ LF :: rest) s = lexes false (LF :: rest) s' /\ outside A' s' /\ quiet s s' /\
    added A A' tg C' /\ test_table C' (kvs ++ [(§"_End_line", fmt_d n)]).
Proof.
  intros HtA HwA (Hmode & Hsc & K & lc & L & Hk & Ek & Ec & Hh) He Htag Hkey Hi. set (t := §"<<<test_end>>>"). set (s0 := BEGIN_MODE INITIAL SCAN_OUTSIDE (counted t s)).
  destruct (put_key_table §"_End_line" (fmt_d (yylineno s0)) K kvs _ s0 Hk Ek Hh) as (K1 & s1 & E1 & Hk1 & P1 & H1 & [= M1 K1' C1 S1 N1] & Q1);
    [key_name|done|apply fmt_d_plain|].
  destruct (keys_wf _ _ Hk1) as [HtK HwK].
  assert (Has : forall k v, assoc kvs k = Some v -> text_at K1 [k] = Some v) by (intros k v Hv; rewrite (keys_text _ _ _ Hk1); now apply assoc_app).
  assert (H2 : holds (r_heap (s_r s1)) (cells A ++ cells (Tab lc None []) ++ cells K1 ++ L)) by (eapply holds_perm; [|exact H1]; perm).
  destruct (test_end_ok e A (Tab lc None []) K1 tg L (s_r s1) mem HtA HwA eq_refl ltac:(repeat constructor) HtK HwK (keys_flat _ _ Hk1) (Has _ _ Htag) Hkey eq_refl H2)
    as (C' & A' & L' & r2 & E2 & Q2 & H3 & HC & Hres).
  assert (Hr : refused A K1 tg = false) by (unfold refused, started; rewrite (Has _ _ Hi); now destruct (old_of A tg)). rewrite Hr in E2, Hres.
  exists (yylineno s0), C', A', (mkSst r2 (scan_mode s1) None None (start s1) (yylineno s1)). split; [|split; [|split; [|split]]].
  - eapply lexed_step; [done|rewrite Hsc; reflexivity| |].
    + cbn [action]. rewrite (enter INITIAL t SCAN_TSTKEY) by done. fold s0. rewrite (bind_Done get _ s0 s0 s0 eq_refl), (bind_Done _ _ _ _ _ E1).
      change (ctag s0) with (ctag s). change (keys s0) with (keys s). rewrite Ec, Ek, <- P1. cbn [ptr_of test_end] in *.
      rewrite (bind_Done _ _ _ _ _ (rlift_Done _ _ s1 _ E2)). reflexivity.
    + discriminate.
  - split; [cbn; congruence|]. split; [cbn; congruence|]. repeat split. exists (L' ++ L). exact H3.
  - apply (quiet_trans _ s1); [exact Q1|exact Q2].
  - exact (proj1 Hres).
  - destruct HC as (l & cur & es & [= <- <- <-] & HC). cbn in HC. destruct HC as (n & kl & ->). now exists lc, n, kl, K1.
Qed.
End Scanning.

(** ** Records *)

(** The format of [write_test_start] in ltp-pan.c. *)
Definition start_text (tag cmd : cstr) (stime : Z) : cstr :=
  concat [§"<<<test_start>>>"; [LF]; §"tag="; tag; §" stime="; fmt_d stime; [LF]; §"cmdline="; [QUOTE]; cmd; [QUOTE; LF]; §"contacts="; [QUOTE]; []; [QUOTE; LF];
          §"analysis="; §"exit"; [LF]; §"<<<test_output>>>"; [LF]].

(** The format of [write_test_end]. *)
Definition end_text (init : cstr) (dur : Z) (term_type : string) (term_id : Z) (core : bool) (cu cs : Z) : cstr :=
  concat [§"<<<execution_status>>>"; [LF]; §"initiation_status="; [QUOTE]; init; [QUOTE; LF]; §"duration="; fmt_d dur; §" termination_type="; str term_type;
          §" termination_id="; fmt_d term_id; §" corefile="; (if core then §"yes" else §"no"); [LF]; §"cutime="; fmt_d (s32 cu); §" cstime="; fmt_d (s32 cs); [LF];
          §"<<<test_end>>>"; [LF]].

(** The text of what pan writes to its standard output: the records and the output of a test. *)
Definition event_text (ev : event) : cstr :=
  match ev with
  | EvTestStart tag cmd stime => start_text tag cmd stime
  | EvTestEnd _ init dur term_type term_id core cu cs => end_text init dur term_type term_id core cu cs
  | EvStdout text => text
  | _ => []
  end.

(** A test that pan ran, and the lines of its output. *)
Record run := mkRun {
  u_tag : cstr; u_cmd : cstr; u_stime : Z; u_out : list cstr; u_dur : Z; u_type : string; u_id : Z; u_core : bool; u_cutime : Z; u_cstime : Z }.

Definition run_events (r : run) : list event :=
  [EvTestStart (u_tag r) (u_cmd r) (u_stime r); EvStdout (concat (map (fun l => l ++ [LF]) (u_out r)));
   EvTestEnd (u_tag r) §"ok" (u_dur r) (u_type r) (u_id r) (u_core r) (u_cutime r) (u_cstime r)].

Definition run_text (r : run) : cstr := concat (map event_text (run_events r)).

Record run_ok (r : run) : Prop := {
  ro_tag : bare (u_tag r); ro_tag_key : key_ok [u_tag r]; ro_tag_plain : take 4 (u_tag r) <> SYM_MAGIC;
  ro_cmd : quotable (u_cmd r); ro_cmd_plain : take 4 (u_cmd r) <> SYM_MAGIC;
  ro_out : Forall out_line (u_out r);
  ro_type : bare (str (u_type r)); ro_type_plain : take 4 (str (u_type r)) <> SYM_MAGIC
}.

Definition start_fields (r : run) : list (ascii * field) :=
  [(LF, Bare §"tag" (u_tag r)); (" "%char, Bare §"stime" (fmt_d (u_stime r))); (LF, Quot §"cmdline" (u_cmd r)); (LF, Bare §"contacts" [QUOTE; QUOTE]);
   (LF, Bare §"analysis" §"exit")].

Definition end_fields (r : run) : list (ascii * field) :=
  [(LF, Quot §"initiation_status" §"ok"); (LF, Bare §"duration" (fmt_d (u_dur r))); (" "%char, Bare §"termination_type" (str (u_type r)));
   (" "%char, Bare §"termination_id" (fmt_d (u_id r))); (" "%char, Bare §"corefile" (if u_core r then §"yes" else §"no"));
   (LF, Bare §"cutime" (fmt_d (s32 (u_cutime r)))); (" "%char, Bare §"cstime" (fmt_d (s32 (u_cstime r))))].

(** The keys of the test. *)
Definition start_kvs (a : Z) (r : run) : list (cstr * cstr) := [(§"_Start_line", fmt_d a)] ++ map (fun p => field_kv p.2) (start_fields r).
Definition run_kvs (a b : Z) (r : run) : list (cstr * cstr) := (start_kvs a r ++ map (fun p => field_kv p.2) (end_fields r)) ++ [(§"_End_line", fmt_d b)].

Lemma run_text_parts r rest : run_text r ++ rest =
  §"<<<test_start>>>" ++ field_block (start_fields r) ++ LF :: §"<<<test_output>>>" ++ LF :: concat (map (fun l => l ++ [LF]) (u_out r)) ++
  §"<<<execution_status>>>" ++ field_block (end_fields r) ++ LF :: §"<<<test_end>>>" ++ LF :: rest.
Proof.
  unfold run_text, run_events, start_fields, end_fields, field_block. cbn [map event_text]. unfold start_text, end_text. cbn [map concat field_text fst snd].
  rewrite <- !app_assoc. set (out := concat (map _ _)). cbn. rewrite <- !app_assoc. reflexivity.
Qed.

Lemma fmt_d_bare z : bare (fmt_d z).
Proof.
  split; [|split].
  - unfold fmt_d. destruct (z <? 0); [done|apply fmt_nat_nonnil].
  - eapply Forall_impl; [apply fmt_d_chars|]. intros c [Hc| ->]; [|done]. unfold white_char, blank_char.
    destruct (ceqb c " ") eqn:E1; [apply ceqb_eq in E1 as ->; discriminate|]. destruct (ceqb c TAB) eqn:E2; [apply ceqb_eq in E2 as ->; discriminate|].
    destruct (ceqb c LF) eqn:E3; [apply ceqb_eq in E3 as ->; discriminate|done].
  - right. intros c r Hr. pose proof (fmt_d_chars z) as Hc. rewrite Hr in Hc. inversion_clear Hc as [|? ? [H1|H1] _]; intros ->; discriminate.
Qed.

Ltac word := split; [discriminate|repeat constructor].

Lemma start_fields_ok r : run_ok r -> Forall (fun p => white_char p.1 = true /\ field_ok p.2) (start_fields r).
Proof.
  intros [T1 T2 T3 C1 C2 O1 Y1 Y2]. pose proof fmt_d_bare. pose proof fmt_d_plain.
  repeat first [apply List.Forall_nil | apply List.Forall_cons; [split; [reflexivity|split; [word|split]]|]]; cbn [field_kv snd]; auto; try discriminate.
  - split; [discriminate|]. split; [repeat constructor|now left].
  - split; [discriminate|]. split; [repeat constructor|]. right. intros c q [= <- _]. discriminate.
Qed.

Lemma end_fields_ok r : run_ok r -> Forall (fun p => white_char p.1 = true /\ field_ok p.2) (end_fields r).
Proof.
  intros [T1 T2 T3 C1 C2 O1 Y1 Y2]. pose proof fmt_d_bare. pose proof fmt_d_plain.
  repeat first [apply List.Forall_nil | apply List.Forall_cons; [split; [reflexivity|split; [word|split]]|]]; cbn [field_kv snd]; auto; try discriminate.
  - split; [discriminate|]. repeat constructor; discriminate.
  - destruct (u_core r); (split; [discriminate|split; [repeat constructor|]]); right; intros c q [= <- _]; discriminate.
  - destruct (u_core r); discriminate.
Qed.

Lemma run_keys_distinct a b r : NoDup (map fst (run_kvs a b r)).
Proof. change (map fst (run_kvs a b r)) with (map fst (run_kvs 0 0 (mkRun [] [] 0 [] 0 EmptyString 0 false 0 0))). apply (bool_decide_unpack _). vm_compute. exact I. Qed.

Lemma keys_prefix_distinct a b r kvs kvs' : run_kvs a b r = kvs ++ kvs' -> NoDup (map fst kvs).
Proof. intros Hk. pose proof (run_keys_distinct a b r) as Hd. rewrite Hk, map_app in Hd. now apply NoDup_app in Hd as [Hd _]. Qed.

(** The record of a run: its table goes under its tag. *)
Lemma lexes_run e A extended r rest s : mem_ok e -> is_table A = true -> wf A -> run_ok r -> outside A s ->
  exists a b C' A' s', lexed e extended Scanner (ptr_of A) true (run_text r ++ rest) s = lexed e extended Scanner (ptr_of A) true rest s' /\
    outside A' s' /\ quiet s s' /\ added A A' (u_tag r) C' /\ test_table C' (run_kvs a b r).
Proof.
  intros mem HtA HwA Hr Hs. rewrite run_text_parts. set (p5 := LF :: rest). set (p4 := field_block (end_fields r) ++ LF :: §"<<<test_end>>>" ++ p5).
  set (p3 := concat (map (fun l => l ++ [LF]) (u_out r)) ++ §"<<<execution_status>>>" ++ p4).
  destruct (lexes_test_start e mem extended A (tail (field_block (start_fields r)) ++ LF :: §"<<<test_output>>>" ++ LF :: p3) s Hs) as (a & s1 & E1 & H1 & Q1).
  destruct (lexes_fields e mem extended A (start_fields r) (tail §"<<<test_output>>>" ++ LF :: p3) false _ _ s1 H1 (start_fields_ok r Hr)) as (s2 & E2 & H2 & Q2).
  { apply (keys_prefix_distinct a 0 r _ (map (fun p => field_kv p.2) (end_fields r) ++ [(§"_End_line", fmt_d 0)])). reflexivity. }
  destruct (lexes_test_output e mem extended A p3 _ s2 H2 eq_refl) as (s3 & E3 & H3 & Q3).
  pose proof (lexes_newline e extended A p3 false s3) as E4. rewrite (proj1 (proj2 H3)) in E4. specialize (E4 ltac:(discriminate)).
  destruct (lexes_lines e extended A (u_out r) (§"<<<execution_status>>>" ++ p4) _ (counted [LF] s3) H3 (ro_out r Hr)) as (s5 & E5 & H5 & Q5).
  destruct (lexes_exec_status e extended A (tail p4) _ s5 H5) as (s6 & E6 & H6 & Q6).
  destruct (lexes_fields e mem extended A (end_fields r) (tail §"<<<test_end>>>" ++ p5) false _ _ s6 H6 (end_fields_ok r Hr)) as (s7 & E7 & H7 & Q7).
  { apply (keys_prefix_distinct a 0 r _ [(§"_End_line", fmt_d 0)]). reflexivity. }
  destruct (lexes_test_end e mem extended A rest _ (u_tag r) s7 HtA HwA H7 eq_refl eq_refl (ro_tag_key r Hr) eq_refl) as (b & C' & A' & s8 & E8 & H8 & Q8 & Ha & Ht).
  pose proof (lexes_newline e extended A rest false s8) as E9. rewrite (proj1 (proj2 H8)) in E9. specialize (E9 ltac:(discriminate)).
  exists a, b, C', A', (counted [LF] s8). split; [|split; [exact H8|split; [|split; [exact Ha|exact Ht]]]].
  - etransitivity; [exact E1|]. etransitivity; [exact E2|]. etransitivity; [exact E3|]. etransitivity; [exact E4|]. etransitivity; [exact E5|].
    etransitivity; [exact E6|]. etransitivity; [exact E7|]. etransitivity; [exact E8|exact E9].
  - eauto 10 using quiet_trans.
Qed.
