(* ===== verification/PanScanReport.v ===== *)
(** From the records that pan writes to the report that ltp-scanner prints of them. *)
From Stdlib Require Import Ascii String ZArith Lia Bool.
From stdpp Require Import base list sets numbers gmap.
From S2P Require Import Prelude CString Splitstr PanOS Effects PanSym PanSymOk PanReport PanReportOk PanReportLines PanReportEnd PanScan PanLex PanScanOk.

Local Open Scope Z_scope.

(** ** All records *)

(** A later run of a tag takes the place of the earlier one. *)
Fixpoint keep (r : run) (rs : list run) : list run :=
  match rs with
  | [] => [r]
  | q :: rs => if streq (u_tag q) (u_tag r) then r :: rs else q :: keep r rs
  end.

Definition kept (rs : list run) : list run := fold_left (fun acc r => keep r acc) rs [].

Lemma keep_tags r rs : NoDup (map u_tag rs) -> NoDup (map u_tag (keep r rs)) /\ forall t, t ∈ map u_tag (keep r rs) -> t = u_tag r \/ t ∈ map u_tag rs.
Proof.
  induction rs as [|q rs IH]; cbn [keep map]; intros Hd; [split; [now repeat constructor; apply not_elem_of_nil|intros t Ht; apply list_elem_of_singleton in Ht; now left]|].
  inversion_clear Hd as [|? ? Hq Hd']. destruct (streq (u_tag q) (u_tag r)) eqn:E; cbn [map].
  - apply streq_true in E. rewrite <- E. split; [now constructor|]. intros t Ht. now right.
  - destruct (IH Hd') as [H1 H2]. apply streq_false in E. split; [constructor; [intros Hi; destruct (H2 _ Hi); done|done]|].
    intros t Ht. apply elem_of_cons in Ht as [->|Ht]; [right; left|]. destruct (H2 _ Ht); [now left|right; now right].
Qed.

(** The entry of a tag: the table with the keys of its run. *)
Definition shows_run (x : ent tree) (r : run) : Prop := e_key x = u_tag r /\ exists a b, test_table (e_val x) (run_kvs a b r).

Definition tags_are (A : tree) (rs : list run) : Prop := exists l cur es, A = Tab l cur es /\ Forall2 shows_run es rs.

Lemma tags_wf A rs : tags_are A rs -> is_table A = true /\ wf A.
Proof.
  intros (l & cur & es & -> & Hf). split; [done|]. constructor. induction Hf as [|x r es rs (_ & a & b & Ht) _ IH]; constructor; [exact (test_table_wf _ _ Ht)|done].
Qed.

Lemma tags_added A A' rs r C a b : tags_are A rs -> added A A' (u_tag r) C -> test_table C (run_kvs a b r) -> tags_are A' (keep r rs).
Proof.
  intros (l & cur & es & -> & Hf) (l' & cur' & es' & [= <- <- <-] & Ha) Ht.
  assert (Hx : forall n kl, shows_run (Ent n kl (u_tag r) C) r) by (intros n kl; split; [done|now exists a, b]).
  assert (Hs : forall n kl, Forall2 shows_run (match es_find es (u_tag r) with Some _ => es_set es (u_tag r) C | None => es ++ [Ent n kl (u_tag r) C] end) (keep r rs)).
  { intros n kl. clear Ha. induction Hf as [|x q es rs Hq Hf IH]; [constructor; [apply Hx|constructor]|].
    unfold es_find in *. cbn [List.find es_set keep]. pose proof Hq as [Hk _]. rewrite Hk. destruct (streq (u_tag q) (u_tag r)) eqn:E.
    - apply streq_true in E. constructor; [|done]. rewrite E. apply Hx.
    - destruct (List.find _ es); cbn [app]; (constructor; [exact Hq|exact IH]). }
  destruct (es_find es (u_tag r)) as [x|]; [subst A'; exists l, cur; eexists; split; [reflexivity|exact (Hs 1%positive 1%positive)]|].
  destruct Ha as (n & kl & ->). exists l, cur. eexists. split; [reflexivity|exact (Hs n kl)].
Qed.

Lemma lexes_runs e extended rs : mem_ok e -> Forall run_ok rs -> forall A s rs0, tags_are A rs0 -> outside A s ->
  exists A' s', lexed e extended Scanner (ptr_of A) true (concat (map run_text rs)) s = Done false s' /\
    ptr_of A' = ptr_of A /\ outside A' s' /\ quiet s s' /\ tags_are A' (fold_left (fun acc r => keep r acc) rs rs0).
Proof.
  intros mem Hall. induction Hall as [|r rs Hr Hall IH]; intros A s rs0 HA Hs; [now exists A, s|]. cbn [map concat fold_left].
  destruct (tags_wf _ _ HA) as [HtA HwA].
  destruct (lexes_run e A extended r (concat (map run_text rs)) s mem HtA HwA Hr Hs) as (a & b & C & A1 & s1 & E1 & H1 & Q1 & Ha & Ht).
  destruct (added_find _ _ _ _ Ha) as [Hp _]. destruct (IH A1 s1 (keep r rs0) (tags_added _ _ _ _ _ _ _ HA Ha Ht) H1) as (A2 & s2 & E2 & P2 & H2 & Q2 & HA2).
  exists A2, s2. rewrite E1, <- Hp. split; [exact E2|]. split; [exact P2|]. split; [exact H2|]. split; [exact (quiet_trans _ _ _ Q1 Q2)|exact HA2].
Qed.

(** ** The report of a tag *)

Lemma add_out_nil s : add_out [] s = s.
Proof. unfold add_out. rewrite app_nil_r. now destruct s. Qed.

Lemma add_out_app a b s : add_out b (add_out a s) = add_out (a ++ b) s.
Proof. unfold add_out. cbn. now rewrite app_assoc. Qed.

Section Tag.
Variable e : menv.
Hypothesis mem : mem_ok e.
Variables (K : tree) (contacts tg core tt_ id : cstr) (F : list (loc * PanSym.block)).
Hypothesis keys : keys_ok K contacts.
Hypothesis texts : flat K.
Hypothesis at_tag : text_at K [§"tag"] = Some tg.
Hypothesis at_init : text_at K [§"initiation_status"] = Some §"ok".
Hypothesis at_core : text_at K [§"corefile"] = Some core.
Hypothesis at_type : text_at K [§"termination_type"] = Some tt_.
Hypothesis at_id : text_at K [§"termination_id"] = Some id.
Hypothesis at_analysis : text_at K [§"analysis"] = Some §"exit".
Hypothesis type_text : " "%char ∉ tt_.

(** A line for each contact. *)
Definition lines_of (r : cstr) : list cstr := result_lines contacts tg §"-" §"-" r.

(** A dumped core, an end that is no exit, and the verdict by the status; none for a
    test that ran out of time. *)
Definition started_lines : list cstr :=
  (if streq core §"no" then [] else lines_of §"coredump") ++ (if streq tt_ §"exited" then [] else lines_of tt_) ++
  (if streq tt_ §"timeout" then [] else lines_of (if streq id §"0" then §"pass" else §"fail")).

Lemma key_there k v s : holds (r_heap s) (cells K ++ F) -> key_ok [k] -> text_at K [k] = Some v ->
  exists t, key_of e (ptr_of K) k s = Done (Some t) s /\ reads (cells K) t v.
Proof.
  intros Hh Hk Hv. destruct (key_of_ok e K F s k mem (ko_table _ _ keys) (ko_wf _ _ keys) texts Hh Hk) as (p & E1 & P1). rewrite Hv in P1.
  destruct P1 as (t & -> & Hr). eauto.
Qed.

Lemma core_ok tag s : holds (r_heap s) (cells K ++ F) -> reads (cells K) tag tg -> exists c,
  key_of e (ptr_of K) §"corefile" s = Done (Some c) s /\
  (v ← lift (load_text c); if streq v §"no" then mret 0 else test_result e (Some tag) None None (Some (Lit §"coredump")) (ptr_of K)) s =
    Done 0 (add_out (if streq core §"no" then [] else lines_of §"coredump") s).
Proof.
  intros Hh Ht. destruct (key_there §"corefile" core s Hh ltac:(key_name) at_core) as (c & E1 & R1). exists c. split; [done|].
  rewrite (bind_Done _ _ _ _ _ (load_here K F s Hh _ _ R1)). destruct (streq core §"no"); [now rewrite add_out_nil|].
  apply (result_here e mem K contacts F s keys Hh); [done..|]. apply memc_false. vm_compute. reflexivity.
Qed.

Lemma analysis_ok ctag tag t info s : holds (r_heap s) (cells K ++ F) -> reads (cells K) tag tg -> reads (cells K) t tt_ -> reads (cells K) info §"exit" ->
  report_analysis e ctag (ptr_of K) tag t info s =
    Done 0 (add_out (if streq tt_ §"timeout" then [] else lines_of (if streq id §"0" then §"pass" else §"fail")) s).
Proof.
  intros Hh R1 R2 R3. unfold report_analysis. rewrite (bind_Done _ _ _ _ _ (load_here K F s Hh _ _ R3)), (bind_Done _ _ _ _ _ (load_here K F s Hh _ _ R2)).
  change (strneq §"exit" §"none" 4) with false. change (strneq §"exit" §"cuts" 4) with false. cbn [negb]. destruct (streq tt_ §"timeout"); [now rewrite add_out_nil|].
  destruct (key_there §"termination_id" id s Hh ltac:(key_name) at_id) as (i & E1 & R4). rewrite (bind_Done _ _ _ _ _ E1), (bind_Done _ _ _ _ _ (load_here K F s Hh _ _ R4)).
  apply (result_here e mem K contacts F s keys Hh); [done..|]. apply memc_false. destruct (streq id §"0"); vm_compute; reflexivity.
Qed.

(** The report of a test that was started and is judged by its exit status. *)
Lemma tag_report_started ctag s : holds (r_heap s) (cells K ++ F) -> tag_report e false ctag (ptr_of K) s = Done 0 (add_out started_lines s).
Proof.
  intros Hh. destruct (key_there §"tag" tg s Hh ltac:(key_name) at_tag) as (t1 & E1 & R1). unfold tag_report. rewrite (bind_Done _ _ _ _ _ E1).
  destruct (key_there §"initiation_status" §"ok" s Hh ltac:(key_name) at_init) as (t2 & E2 & R2).
  rewrite (bind_Done _ _ _ _ _ E2), (bind_Done _ _ _ _ _ (load_here K F s Hh _ _ R2)), streq_refl.
  assert (Hrest : report_started e ctag (ptr_of K) t1 s = Done true (add_out started_lines s)); [|now rewrite (bind_Done _ _ _ _ _ Hrest)].
  unfold report_started. destruct (core_ok t1 s Hh R1) as (c & E3 & E4). rewrite (bind_Done _ _ _ _ _ E3), (bind_Done _ _ _ _ _ E4).
  set (s1 := add_out _ s). assert (H1 : holds (r_heap s1) (cells K ++ F)) by exact Hh.
  destruct (key_there §"termination_type" tt_ s1 H1 ltac:(key_name) at_type) as (t4 & E5 & R4). rewrite (bind_Done _ _ _ _ _ E5), (bind_Done _ _ _ _ _ (load_here K F s1 H1 _ _ R4)).
  assert (E6 : (if streq tt_ §"exited" then mret 0 else test_result e (Some t1) None None (Some t4) (ptr_of K)) s1 = Done 0 (add_out (if streq tt_ §"exited" then [] else lines_of tt_) s1))
    by (destruct (streq tt_ §"exited"); [now rewrite add_out_nil|now apply (result_here e mem K contacts F s1 keys H1)]).
  rewrite (bind_Done _ _ _ _ _ E6). set (s2 := add_out _ s1). assert (H2 : holds (r_heap s2) (cells K ++ F)) by exact Hh.
  destruct (key_there §"analysis" §"exit" s2 H2 ltac:(key_name) at_analysis) as (t5 & E7 & R5). rewrite (bind_Done _ _ _ _ _ E7).
  rewrite (bind_Done _ _ _ _ _ (analysis_ok ctag t1 t4 t5 s2 H2 R1 R4 R5)). unfold s2, s1. now rewrite !add_out_app.
Qed.
End Tag.

(** The lines of a run; pan writes no contacts, which are read as a pair of quotes. *)
Definition run_line (r : run) (v : cstr) : cstr := FORMAT (u_tag r) §"-" §"-" v [QUOTE; QUOTE].

Definition run_lines (r : run) : list cstr :=
  (if u_core r then [run_line r §"coredump"] else []) ++ (if streq (str (u_type r)) §"exited" then [] else [run_line r (str (u_type r))]) ++
  (if streq (str (u_type r)) §"timeout" then [] else [run_line r (if u_id r =? 0 then §"pass" else §"fail")]).

Lemma fmt_d_zero z : streq (fmt_d z) §"0" = (z =? 0).
Proof.
  destruct (Z.eqb_spec z 0) as [->|Hz]; [reflexivity|]. apply streq_false. unfold fmt_d. destruct (Z.ltb_spec z 0) as [Hl|Hl]; [intros [=]|].
  intros Hf. pose proof (fmt_nat_val 10 z ltac:(lia) Hl) as Hv. rewrite Hf in Hv. change (num_val 10 §"0") with 0 in Hv. lia.
Qed.

Lemma tag_report_run e ctag K a b r F s : mem_ok e -> run_ok r -> keys_are K (run_kvs a b r) -> holds (r_heap s) (cells K ++ F) ->
  tag_report e false ctag (ptr_of K) s = Done 0 (add_out (run_lines r) s).
Proof.
  intros mem Hr Hk Hh. destruct (keys_wf _ _ Hk) as [Ht Hw]. assert (Has : forall k v, assoc (run_kvs a b r) k = Some v -> text_at K [k] = Some v) by (intros; now rewrite (keys_text _ _ _ Hk)).
  assert (Hcont : keys_ok K [QUOTE; QUOTE]).
  { split; [done|done| |intros c q [= <- _]; discriminate]. pose proof (Has §"contacts" [QUOTE; QUOTE] eq_refl) as Hc. unfold text_at in Hc.
    destruct (tfind K [§"contacts"]) as [[|l v|]|]; try discriminate. injection Hc as ->. now exists l. }
  pose proof (ro_type r Hr) as (Hn & Hc & _).
  assert (Hb : " "%char ∉ str (u_type r)) by (intros Hin; apply list_elem_of_In, (proj1 (List.Forall_forall _ _) Hc) in Hin; discriminate).
  rewrite (tag_report_started e mem K [QUOTE; QUOTE] (u_tag r) (if u_core r then §"yes" else §"no") (str (u_type r)) (fmt_d (u_id r)) F Hcont (keys_flat _ _ Hk)
    (Has §"tag" _ eq_refl) (Has §"initiation_status" _ eq_refl) (Has §"corefile" _ eq_refl) (Has §"termination_type" _ eq_refl)
    (Has §"termination_id" _ eq_refl) (Has §"analysis" _ eq_refl) Hb ctag s Hh).
  do 2 f_equal. unfold started_lines, run_lines, lines_of, result_lines. change (strtok_all §"," [QUOTE; QUOTE]) with [[QUOTE; QUOTE]]. cbn [map]. rewrite fmt_d_zero.
  assert (Hs : shown (str (u_type r)) = str (u_type r)) by (destruct (str (u_type r)); done). rewrite Hs. destruct (u_core r), (u_id r =? 0); reflexivity.
Qed.

(** ** The report of all tags *)

(** What the reporter asks of a run besides: a tag that is no keyword of its own, and
    fits with the names of the keys. *)
Record report_ok (r : run) : Prop := {
  rp_run : run_ok r;
  rp_tag : u_tag r <> §"_RTS";
  rp_fits : (length (u_tag r) + 12 < KEYSIZE)%nat;
  rp_stime : LONG_MIN <= u_stime r <= LONG_MAX
}.

(** The header of the report. *)
Definition header_lines (d : cstr) : list cstr :=
  [§"System Configuration:"; fmt_pad 20 §"date" ++ §" " ++ d; []; FORMAT §"tag" §"tcid" §"testcase" §"status" §"contact"; replicate 79 "-"%char].

Section Reporter.
Variable e : menv.
Hypothesis mem : mem_ok e.
Variable la : loc.

(** The table of all tags, with its cursor, in the heap. *)
Definition tags_at (cur : ptr) (es : list (ent tree)) (s : rst) : Prop := exists L, holds (r_heap s) (cells (Tab la cur es) ++ L).

Lemma name_at cur es s n x : tags_at cur es s -> es !! n = Some x -> lift (load_block (e_kloc x)) s = Done (e_key x) s.
Proof.
  intros [L Hh] Hn. apply lift_same. rewrite cells_Tab in Hh. unfold load_block.
  rewrite (holds_in _ _ _ _ Hh ltac:(right; apply elem_of_app; left; exact (es_key_nth es n x Hn))). done.
Qed.

Lemma list_tags_ok es L : forall fuel n y s acc, es !! n = Some y -> at_ (es_cells None es) la (head_ptr es None) L (Some (e_node y)) s -> (length (drop n es) <= fuel)%nat ->
  exists s', list_tags e fuel la (e_kloc y) acc s = Done (acc ++ map e_kloc (drop n es)) s' /\ at_ (es_cells None es) la (head_ptr es None) L None s' /\ same_out s s'.
Proof.
  assert (Hl : listed (es_cells None es) es) by (apply listed_in; done).
  induction fuel as [|fuel IH]; intros n y s acc Hn Hs Hf; rewrite (drop_S _ _ _ Hn) in Hf |- *; [cbn in Hf; lia|]. cbn [length] in Hf. cbn [list_tags].
  destruct (next_to e _ la _ L es n y s Hl Hn Hs) as (s2 & E2 & H2 & O2). rewrite (bind_Done _ _ _ _ _ E2). unfold step_answer. destruct (es !! S n) as [y'|] eqn:En'.
  - destruct (IH (S n) y' s2 (acc ++ [e_kloc y]) En' H2 ltac:(lia)) as (s' & E3 & H3 & O3). exists s'. cbn [map].
    split; [rewrite E3, <- app_assoc; reflexivity|]. split; [exact H3|]. destruct O2 as (? & ? & ?), O3 as (? & ? & ?). repeat split; congruence.
  - rewrite (drop_ge es (S n)) by now apply lookup_ge_None. exists s2. done.
Qed.

(** The list of the tags. *)
Lemma tags_listed es cur s : es <> [] -> tags_at cur es s ->
  exists x s1 s2, lift (sym_seq e la [] R_FIRST) s = Done (0, Some x) s1 /\ list_tags e (size (r_heap s)) la x.1 [] s1 = Done (map e_kloc es) s2 /\
    tags_at None es s2 /\ same_out s s2.
Proof.
  intros Hn [L Hh]. destruct es as [|y es]; [done|]. set (all := y :: es) in *. assert (Hl : listed (es_cells None all) all) by (apply listed_in; done).
  assert (Hat : at_ (es_cells None all) la (head_ptr all None) L cur s) by (unfold at_; rewrite cells_Tab in Hh; exact Hh).
  destruct (cursor_to _ la _ L all 0 cur s Hl Hat) as (s1 & E1 & H1 & O1).
  assert (Hf : (length (drop 0 all) <= size (r_heap s))%nat).
  { pose proof (holds_size _ _ (holds_app_l _ _ _ Hh)) as Hs. rewrite cells_Tab in Hs. pose proof (length_es_cells None all) as Ha. change (drop 0 all) with all.
    etransitivity; [exact Ha|]. etransitivity; [apply Nat.le_succ_diag_r|exact Hs]. }
  destruct (list_tags_ok all L _ 0 y s1 [] eq_refl H1 Hf) as (s2 & E2 & H2 & O2). exists (e_kloc y, ptr_of (e_val y)), s1, s2. split; [|split; [exact E2|split]].
  - etransitivity; [|exact E1]. unfold lift, sym_seq. cbn -[at_cursor mbind]. now rewrite (bind_Done _ _ _ _ _ (load_symh_ok _ _ _ _ (holds_head _ _ _ _ Hat))).
  - exists L. rewrite cells_Tab. exact H2.
  - destruct O1 as (? & ? & ?), O2 as (? & ? & ?). repeat split; congruence.
Qed.

(** The keys of the test behind a tag. *)
Lemma tag_paths cur es tg x kvs : es_find es tg = Some x -> test_table (e_val x) kvs ->
  exists lc K, keys_are K kvs /\ ptr_of (e_val x) = Some lc /\ tfind (Tab la cur es) [tg] = Some (e_val x) /\ tfind (Tab la cur es) [tg; §"_keys"] = Some K /\
    forall k, tfind (Tab la cur es) [tg; §"_keys"; k] = tfind K [k].
Proof.
  intros Hf (lc & n & kl & K & Ev & Hk). exists lc, K. split; [done|]. split; [now rewrite Ev|]. cbn [tfind entries]. rewrite Hf. cbn [mbind option_bind]. rewrite Ev.
  split; [done|]. split; [reflexivity|]. intros k. change (es_find [Ent n kl §"_keys" K] §"_keys") with (Some (Ent n kl §"_keys" K)). cbn [mbind option_bind e_val]. done.
Qed.

Lemma path_key tg ks : key_ok [tg] -> key_ok ks -> key_ok (tg :: ks).
Proof. intros [_ H1] [_ H2]. split; [done|]. inversion_clear H1. now constructor. Qed.

(** [sym_get] in the table of all tags. *)
Lemma get_at cur es s ks : Forall (fun x => wf (e_val x)) es -> tags_at cur es s -> key_ok ks ->
  lift (sym_get e (Some la) (key_text ks)) s = Done (tfind (Tab la cur es) ks ≫= ptr_of) s.
Proof. intros Hw [L Hh] Hk. apply lift_same. exact (get_keys e mem (Tab la cur es) ks _ L eq_refl (wf_Tab _ _ _ Hw) Hh Hk). Qed.

(** A new key of two parts. *)
Lemma puts_two flags d k k' l cur es c t' : es_find es k = None -> puts flags d [k; k'] (Tab l cur es) c t' ->
  c = 0 /\ exists n kl l2 n2 kl2, t' = Tab l cur (es ++ [Ent n kl k (Tab l2 None [Ent n2 kl2 k' d])]).
Proof.
  intros Hn Hp. inversion Hp as [? ? ? ? ? x _ Hc| | | |]; subst; [|congruence..]. split; [done|].
  inversion Hc as [|? ? ? n kl l2 x' Hc']; subst. inversion Hc' as [? n2 kl2|]; subst. now exists n, kl, l2, n2, kl2.
Qed.

(** The entry with the date. *)
Definition date_entry (n kl l2 n2 kl2 ld : loc) (d : cstr) : ent tree := Ent n kl §"_RTS" (Tab l2 None [Ent n2 kl2 §"date" (Raw ld d)]).

Lemma put_date es d s : Forall (fun x => wf (e_val x)) es -> es_find es §"_RTS" = None -> tags_at None es s ->
  exists n kl l2 n2 kl2 ld s', (key ← lift (strdup e §"_RTS,date"); d ← lift (strdup e d);
      match key with None => undefined | Some k => key ← lift (load_block k); lift (sym_put e (Some la) key d 0);; mret tt end) s = Done tt s' /\
    tags_at None (es ++ [date_entry n kl l2 n2 kl2 ld d]) s' /\ same_out s s'.
Proof.
  intros Hw Hn [L Hh]. destruct (strdup_ok_loc e mem §"_RTS,date" _ _ Hh) as (lk & h1 & E1 & H1). rewrite (bind_Done _ _ _ _ _ (lift_Done _ _ s _ E1)).
  set (s1 := mkRst h1 _ _ _). destruct (strdup_ok_loc e mem d (r_heap s1) _ H1) as (ld & h2 & E2 & H2). rewrite (bind_Done _ _ _ _ _ (lift_Done _ _ s1 _ E2)). set (s2 := mkRst h2 _ _ _).
  assert (El : load_block lk h2 = Done §"_RTS,date" h2) by (apply load_block_ok; eapply holds_in; [exact H2|]; right; left).
  rewrite (bind_Done _ _ _ _ _ (lift_same _ _ s2 El)). set (T := Tab la None es) in *.
  assert (H3 : holds (r_heap s2) (cells T ++ cells (Raw ld d) ++ cells (Raw lk §"_RTS,date") ++ L)) by (eapply holds_perm; [|exact H2]; perm).
  destruct (put_ok e mem 0 (Raw ld d) [§"_RTS"; §"date"] T (r_heap s2) _ eq_refl (wf_Tab _ _ _ Hw) H3 ltac:(key_name)) as (c & T' & rest & h4 & E4 & Hp & H4 & _ & H5).
  change (key_text [§"_RTS"; §"date"]) with §"_RTS,date" in E4.
  destruct (puts_two _ _ _ _ _ _ _ _ _ Hn Hp) as (-> & n & kl & l2 & n2 & kl2 & ->).
  exists n, kl, l2, n2, kl2, ld. eexists. split; [|split].
  - cbn [ptr_of] in E4. erewrite bind_Done by exact (lift_Done _ _ s2 _ E4). reflexivity.
  - eexists. exact H4.
  - done.
Qed.

Lemma read_at cur es s ks l v : tags_at cur es s -> tfind (Tab la cur es) ks = Some (Raw l v) -> lift (load_block l) s = Done v s.
Proof.
  intros [L Hh] Hf. apply lift_same, load_block_ok. eapply holds_in; [exact Hh|]. apply elem_of_app. left. apply (tfind_cells _ _ _ _ Hf). left.
Qed.

Lemma tags_entries_wf es rs : Forall2 shows_run es rs -> Forall (fun x => wf (e_val x)) es.
Proof. induction 1 as [|x r es rs (_ & a & b & Ht) _ IH]; constructor; [exact (test_table_wf _ _ Ht)|done]. Qed.

Lemma no_rts es rs : Forall2 shows_run es rs -> Forall report_ok rs -> es_find es §"_RTS" = None.
Proof.
  unfold es_find. induction 1 as [|x r es rs [Hk _] _ IH]; intros Hr; [done|]. inversion_clear Hr as [|? ? [_ Ht _ _] Hr']. cbn [List.find]. rewrite Hk.
  rewrite (proj2 (streq_false _ _) Ht). now apply IH.
Qed.

(** The date of the first tag. *)
Lemma date_ok date x r es rs more s : Forall2 shows_run (x :: es) (r :: rs) -> Forall report_ok (r :: rs) -> tags_at None (x :: es) s ->
  exists n kl l2 n2 kl2 ld s', date_loop e date la (e_kloc x :: more) s = Done tt s' /\
    tags_at None ((x :: es) ++ [date_entry n kl l2 n2 kl2 ld (date (s32 (u_stime r)))]) s' /\ same_out s s'.
Proof.
  intros Hf Hr Hs. set (all := x :: es) in *. pose proof (tags_entries_wf _ _ Hf) as Hw. pose proof (no_rts _ _ Hf Hr) as Hn. inversion Hf as [|? ? ? ? [Hk (a & b & Ht)] _]; subst.
  inversion Hr as [|? ? [Hro _ Hfit Htime] _]; subst. cbn [date_loop]. rewrite (bind_Done _ _ _ _ _ (name_at None all s 0 x Hs eq_refl)), Hk.
  assert (Hx : es_find all (u_tag r) = Some x) by (unfold es_find, all; cbn [List.find]; now rewrite Hk, streq_refl).
  destruct (tag_paths None all (u_tag r) x _ Hx Ht) as (lc & K & HK & _ & _ & _ & Hpath).
  pose proof (keys_text K _ §"stime" HK) as Htx. change (assoc (run_kvs a b r) §"stime") with (Some (fmt_d (u_stime r))) in Htx.
  assert (Hts : exists l, tfind (Tab la None all) [u_tag r; §"_keys"; §"stime"] = Some (Raw l (fmt_d (u_stime r)))).
  { rewrite Hpath. unfold text_at in Htx. destruct (tfind K [§"stime"]) as [[|l v|]|]; try discriminate. injection Htx as ->. now exists l. }
  destruct Hts as [l Hl]. rewrite length_app. change (length §",_keys,stime") with 12%nat. rewrite (proj2 (Nat.ltb_lt _ _)) by exact Hfit.
  assert (Hks : key_ok [§"_keys"; §"stime"]) by key_name.
  pose proof (get_at None all s [u_tag r; §"_keys"; §"stime"] Hw Hs (path_key _ _ (ro_tag_key r Hro) Hks)) as Eg. rewrite Hl in Eg.
  change (key_text [u_tag r; §"_keys"; §"stime"]) with (u_tag r ++ §",_keys,stime") in Eg. rewrite (bind_Done _ _ _ _ _ Eg). cbn [mbind option_bind ptr_of].
  rewrite (bind_Done _ _ _ _ _ (read_at _ _ _ _ _ _ Hs Hl)).
  assert (Ea : atoi (fmt_d (u_stime r)) = s32 (u_stime r)) by (unfold atoi; rewrite <- (app_nil_r (fmt_d _)), strtol_fmt_d by done; done). rewrite Ea.
  exact (put_date all (date (s32 (u_stime r))) s Hw Hn Hs).
Qed.

Lemma date_find es n kl l2 n2 kl2 ld d : es_find es §"_RTS" = None ->
  es_find (es ++ [date_entry n kl l2 n2 kl2 ld d]) §"_RTS" = Some (date_entry n kl l2 n2 kl2 ld d).
Proof. intros Hn. rewrite es_find_app, Hn. unfold es_find. cbn [List.find date_entry e_key]. now rewrite streq_refl. Qed.

(** The loop over the keywords of the run, for the one that is the date. *)
Lemma header_loop_date B first L y d s : listed B [y] -> e_key y = §"date" -> (exists ld, e_val y = Raw ld d) -> at_ B la first L (Some (e_node y)) s ->
  exists s', header_loop e false (size (r_heap s)) la (e_kloc y) (ptr_of (e_val y)) s = Done tt s' /\ at_ B la first L None s' /\
    same_out (add_out [fmt_pad 20 §"date" ++ §" " ++ d] s) s'.
Proof.
  intros Hl Hk [ld Hv] Hs. pose proof (at_B _ _ _ _ _ _ Hs) as HB. destruct (Hl 0%nat y eq_refl) as (_ & Hkl & Hc). rewrite Hk in Hkl.
  pose proof (holds_size _ _ Hs) as Hf. destruct (size (r_heap s)) as [|f]; [cbn [length] in Hf; lia|]. cbn [header_loop].
  rewrite (bind_Done _ _ _ _ _ (lift_same _ _ s (reads_load _ _ _ (At (e_kloc y)) _ HB (or_intror Hkl)))). change (streq §"date" §"PATH") with false. rewrite Hv. cbn [ptr_of].
  assert (Hd : reads B (At ld) d) by (left; apply Hc; rewrite Hv; left).
  assert (E1 : (v ← lift (load_block ld); put_header false (fmt_pad 20 §"date" ++ §" " ++ v)) s = Done tt (add_out [fmt_pad 20 §"date" ++ §" " ++ d] s))
    by (rewrite (bind_Done _ _ _ _ _ (lift_same _ _ s (reads_load _ _ _ (At ld) _ HB Hd))); done).
  rewrite (bind_Done _ _ _ _ _ E1). destruct (next_to e B la first L [y] 0 y (add_out [fmt_pad 20 §"date" ++ §" " ++ d] s) Hl eq_refl Hs) as (s2 & E2 & H2 & O2).
  rewrite (bind_Done _ _ _ _ _ E2). exists s2. done.
Qed.

(** The header, with the date as the only keyword of the run. *)
Lemma header_ok es n kl l2 n2 kl2 ld d s : take 4 d <> SYM_MAGIC ->
  Forall (fun x => wf (e_val x)) es -> es_find es §"_RTS" = None -> tags_at None (es ++ [date_entry n kl l2 n2 kl2 ld d]) s ->
  exists s', print_header e false la s = Done 0 s' /\ tags_at None (es ++ [date_entry n kl l2 n2 kl2 ld d]) s' /\ same_out (add_out (header_lines d) s) s'.
Proof.
  intros Hm Hw Hn [L Hh]. set (y := Ent n2 kl2 §"date" (Raw ld d)). set (x := date_entry n kl l2 n2 kl2 ld d) in *. set (all := es ++ [x]) in *.
  assert (Hwx : Forall (fun x => wf (e_val x)) all) by (apply Forall_app; split; [done|]; constructor; [|constructor]; constructor; constructor; [now constructor|constructor]).
  assert (Hx : shows_test all x (§"_RTS", [(§"date", d)])).
  { split; [done|split; [key_name|vm_compute; lia]|exact (date_find es n kl l2 n2 kl2 ld d Hn)|]. exists l2, None, [y]. split; [done|]. split; [done|].
    apply List.Forall2_cons; [|apply List.Forall2_nil]. split; [done|now exists ld]. }
  unfold print_header. set (s1 := add_out [§"System Configuration:"] s). rewrite (bind_Done (put_header false _) _ tt s s1 eq_refl).
  assert (H1 : at_ (es_cells None all) la (head_ptr all None) L None s1) by (unfold at_; rewrite cells_Tab in Hh; exact Hh).
  destruct (cursor_tcid e mem la all L Hwx x (§"_RTS", [(§"date", d)]) l2 None [y] None s1 Hx eq_refl H1) as (s2 & E2 & H2 & O2).
  change (fst (§"_RTS", [(§"date", d)])) with §"_RTS" in E2. rewrite (bind_Done _ _ _ _ _ E2). change (step_answer [y] 0) with (0, Some (e_kloc y, ptr_of (e_val y))). cbn iota.
  assert (Hly : listed (es_cells None all) [y]).
  { destruct (es_find_nth all _ _ (date_find es n kl l2 n2 kl2 ld d Hn)) as [k Hk]. destruct (listed_in all all ltac:(done) k _ Hk) as (_ & _ & Hc).
    apply listed_in. intros c Hin. apply Hc. right. exact Hin. }
  destruct (header_loop_date _ _ L y d s2 Hly eq_refl (ex_intro _ ld eq_refl) H2) as (s3 & E3 & H3 & O3).
  erewrite (bind_Done (s ← get; _)) by (rewrite (bind_Done get _ s2 s2 s2 eq_refl); exact E3).
  eexists. split; [reflexivity|]. split; [exists L; rewrite cells_Tab; exact H3|].
  destruct O2 as (O21 & O22 & O23), O3 as (O31 & O32 & O33). unfold same_out, add_out in *. cbn [r_out r_err r_notag] in *. rewrite O31, O32, O33, O21, O22, O23.
  unfold s1, add_out, header_lines. cbn [r_out r_err r_notag]. rewrite <- !app_assoc. done.
Qed.

(** ** The tags, one by one *)

Lemma find_run es rs n x r : Forall2 shows_run es rs -> NoDup (map u_tag rs) -> es !! n = Some x -> rs !! n = Some r -> es_find es (u_tag r) = Some x.
Proof.
  intros Hf. revert n. induction Hf as [|y q es rs [Hk _] Hf IH]; intros n Hd Hx Hr; [done|]. cbn [map] in Hd. inversion_clear Hd as [|? ? Hq Hd'].
  unfold es_find. cbn [List.find]. rewrite Hk. destruct n as [|n]; cbn in Hx, Hr; simplify_eq; [now rewrite streq_refl|].
  rewrite (proj2 (streq_false _ _)); [now apply (IH n)|]. intros Heq. apply Hq. rewrite Heq. apply list_elem_of_In, List.in_map. apply list_elem_of_In, list_elem_of_lookup. eauto.
Qed.

Lemma report_one x r es more s : es_find es (u_tag r) = Some x -> shows_run x r -> report_ok r -> Forall (fun x => wf (e_val x)) es ->
  tags_at None es s -> (exists n, es !! n = Some x) ->
  report_loop e false la (e_kloc x :: more) s = report_loop e false la more (add_out (run_lines r) s).
Proof.
  intros Hx [Hk (a & b & Ht)] [Hro Htag Hfit _] Hw Hs [n Hn]. cbn [report_loop]. rewrite (bind_Done _ _ _ _ _ (name_at None es s n x Hs Hn)), Hk.
  rewrite (proj2 (streq_false _ _) Htag). rewrite length_app. change (length §",_keys") with 6%nat. rewrite (proj2 (Nat.ltb_lt _ _)) by lia.
  destruct (tag_paths None es (u_tag r) x _ Hx Ht) as (lc & K & HK & Hpx & H1 & H2 & _). assert (Hkk : key_ok [§"_keys"]) by key_name.
  pose proof (get_at None es s [u_tag r; §"_keys"] Hw Hs (path_key _ _ (ro_tag_key r Hro) Hkk)) as E1. rewrite H2 in E1.
  change (key_text [u_tag r; §"_keys"]) with (u_tag r ++ §",_keys") in E1. rewrite (bind_Done _ _ _ _ _ E1).
  assert (Hlk : exists lk, ptr_of K = Some lk) by (destruct HK as (lk & cur & kes & -> & _); now exists lk). destruct Hlk as [lk Hlk]. cbn [mbind option_bind]. rewrite Hlk.
  pose proof (get_at None es s [u_tag r] Hw Hs (ro_tag_key r Hro)) as E2. rewrite H1 in E2. change (key_text [u_tag r]) with (u_tag r) in E2. cbn [mbind option_bind] in E2. rewrite Hpx in E2.
  rewrite (bind_Done _ _ _ _ _ E2). destruct Hs as [L Hh]. destruct (tfind_perm _ _ _ H2) as [LK HLK].
  assert (HhK : holds (r_heap s) (cells K ++ LK ++ L)) by (rewrite HLK in Hh; eapply holds_perm; [|exact Hh]; perm).
  pose proof (tag_report_run e lc K a b r _ s mem Hro HK HhK) as E3. rewrite Hlk in E3. now rewrite (bind_Done _ _ _ _ _ E3).
Qed.

Lemma report_all all es rs s : Forall (fun x => wf (e_val x)) all -> tags_at None all s ->
  Forall2 (fun x r => es_find all (u_tag r) = Some x /\ shows_run x r /\ report_ok r /\ exists n, all !! n = Some x) es rs ->
  report_loop e false la (map e_kloc es) s = Done 0 (add_out (concat (map run_lines rs)) s).
Proof.
  intros Hw Hs Hall. revert s Hs. induction Hall as [|x r es rs (H1 & H2 & H3 & H4) _ IH]; intros s Hs; [now rewrite add_out_nil|].
  cbn [map concat]. rewrite (report_one x r all _ s H1 H2 H3 Hw Hs H4), (IH (add_out (run_lines r) s) Hs). now rewrite add_out_app.
Qed.

(** The report of all tags: the header with the date of the first, and the lines of each. *)
Lemma scanner_reporter_ok date cur es rs s : (forall t, take 4 (date t) <> SYM_MAGIC) ->
  Forall2 shows_run es rs -> NoDup (map u_tag rs) -> Forall report_ok rs -> rs <> [] -> tags_at cur es s ->
  exists s', scanner_reporter e false date la s = Done 0 s' /\
    same_out (add_out (header_lines (date (match rs with r :: _ => s32 (u_stime r) | [] => 0 end)) ++ concat (map run_lines rs)) s) s'.
Proof.
  intros Hd Hf Hnd Hr Hne Hs. pose proof (tags_entries_wf _ _ Hf) as Hw. pose proof (no_rts _ _ Hf Hr) as Hn.
  destruct es as [|x es]; [inversion Hf; subst; done|]. destruct rs as [|r rs]; [done|]. clear Hne.
  destruct (tags_listed (x :: es) cur s ltac:(done) Hs) as (p & s1 & s2 & E1 & E2 & H2 & O2).
  destruct (date_ok date x r es rs (map e_kloc es) s2 Hf Hr H2) as (n & kl & l2 & n2 & kl2 & ld & s3 & E3 & H3 & O3). set (dt := date (s32 (u_stime r))) in *.
  destruct (header_ok (x :: es) n kl l2 n2 kl2 ld dt s3 (Hd _) Hw Hn H3) as (s4 & E4 & H4 & O4). set (all := (x :: es) ++ [date_entry n kl l2 n2 kl2 ld dt]) in *.
  assert (Hwa : Forall (fun x => wf (e_val x)) all).
  { apply Forall_app. split; [done|]. repeat (constructor; try apply Hd). }
  assert (Hall : Forall2 (fun x r => es_find all (u_tag r) = Some x /\ shows_run x r /\ report_ok r /\ exists n, all !! n = Some x) (x :: es) (r :: rs)).
  { apply Forall2_same_length_lookup_2; [exact (Forall2_length _ _ _ Hf)|]. intros i y q Hy Hq. split; [|split; [exact (Forall2_lookup_lr _ _ _ _ _ _ Hf Hy Hq)|split]].
    - unfold all. rewrite es_find_app. now rewrite (find_run _ _ i y q Hf Hnd Hy Hq).
    - exact (Forall_lookup_1 _ _ _ _ Hr Hq).
    - exists i. now apply lookup_app_l_Some. }
  exists (add_out (concat (map run_lines (r :: rs))) s4). split.
  - unfold scanner_reporter. rewrite (bind_Done get _ s s s eq_refl), (bind_Done _ _ _ _ _ E1). destruct p as [kp dp]. cbn iota.
    rewrite (bind_Done _ _ _ _ _ E2). cbn [map] in E3 |- *. rewrite (bind_Done _ _ _ _ _ E3), (bind_Done _ _ _ _ _ E4). exact (report_all all (x :: es) (r :: rs) s4 Hwa H4 Hall).
  - destruct O2 as (? & ? & ?), O3 as (? & ? & ?), O4 as (O41 & O42 & O43). unfold same_out, add_out in *. cbn [r_out r_err r_notag] in *.
    rewrite O41, O42, O43. repeat split; [|congruence..]. rewrite app_assoc. congruence.
Qed.
End Reporter.

Lemma kept_tags rs : forall rs0, NoDup (map u_tag rs0) -> NoDup (map u_tag (fold_left (fun acc r => keep r acc) rs rs0)).
Proof. induction rs as [|r rs IH]; intros rs0 Hd; [done|]. cbn [fold_left]. apply IH. now apply keep_tags. Qed.

Lemma keep_all (P : run -> Prop) r rs : P r -> Forall P rs -> Forall P (keep r rs).
Proof.
  intros Hr. induction 1 as [|q rs Hq Hall IH]; cbn [keep]; [now repeat constructor|]. destruct (streq (u_tag q) (u_tag r)); now constructor.
Qed.

Lemma kept_all (P : run -> Prop) rs : Forall P rs -> forall rs0, Forall P rs0 -> Forall P (fold_left (fun acc r => keep r acc) rs rs0).
Proof. induction 1 as [|r rs Hr Hall IH]; intros rs0 H0; [done|]. cbn [fold_left]. apply IH. now apply keep_all. Qed.

Lemma keep_not_nil r rs : keep r rs <> [].
Proof. destruct rs as [|q rs]; cbn [keep]; [done|]. now destruct (streq _ _). Qed.

Lemma kept_not_nil rs : rs <> [] -> kept rs <> [].
Proof.
  intros Hn. unfold kept. destruct (exists_last Hn) as (l & r & ->). rewrite fold_left_app. apply keep_not_nil.
Qed.


(** A test that failed and one that was killed, the first run twice. *)
Definition sample_run (tag : cstr) (type : string) (id : Z) : run := mkRun tag §"prog -x" 1000 [§"some output"; []] 3 type id false 1 2.
Definition sample_runs : list run := [sample_run §"t1" "exited" 1; sample_run §"t2" "signaled" 9; sample_run §"t1" "exited" 0].
Definition sample_date (t : Z) : cstr := §"01/01/70".

Lemma sample_run_ok tag type id : tag ∈ [§"t1"; §"t2"] -> type ∈ ["exited"; "signaled"]%string -> report_ok (sample_run tag type id).
Proof.
  intros Ht Hy. apply list_elem_of_In in Ht, Hy. assert (Hb : forall v, v ∈ [§"t1"; §"t2"; §"exited"; §"signaled"] -> bare v /\ take 4 v <> SYM_MAGIC).
  { intros v Hv. apply list_elem_of_In in Hv. destruct Hv as [<-|[<-|[<-|[<-|[]]]]]; (split; [|discriminate]); (split; [discriminate|split; [repeat constructor|]]);
      right; intros c r [= <- _]; discriminate. }
  assert (Ht' : tag ∈ [§"t1"; §"t2"; §"exited"; §"signaled"]) by (apply list_elem_of_In; destruct Ht as [<-|[<-|[]]]; [now left|right; now left]).
  assert (Hy' : str type ∈ [§"t1"; §"t2"; §"exited"; §"signaled"]) by (apply list_elem_of_In; destruct Hy as [<-|[<-|[]]]; [right; right; now left|right; right; right; now left]).
  destruct (Hb _ Ht') as [T1 T2], (Hb _ Hy') as [Y1 Y2]. split; [split; cbn [sample_run u_tag u_cmd u_out u_type]| | |]; try done.
  - destruct Ht as [<-|[<-|[]]]; key_name.
  - split; [discriminate|]. repeat constructor; discriminate.
  - repeat constructor; (apply memc_false; reflexivity) || (intros Hi; apply list_elem_of_In in Hi; cbn in Hi; repeat destruct Hi as [Hi|Hi]; discriminate || done).
  - cbn [sample_run u_tag]. destruct Ht as [<-|[<-|[]]]; discriminate.
  - cbn [sample_run u_tag]. destruct Ht as [<-|[<-|[]]]; vm_compute; lia.
Qed.

