(* ===== verification/PanBump.v ===== *)
(** pan/ltp-bump.c: a signal for the tests whose names are given, by the pids that the
    active file has for them. *)
From Stdlib Require Import Ascii String ZArith Lia Bool.
From stdpp Require Import base list sets numbers.
From S2P Require Import Prelude CString Zoo Effects.

Local Open Scope Z_scope.

Definition SIGINT : Z := 2.
Definition SIGUSR1 : Z := 10.
Definition SIGUSR2 : Z := 12.
Definition ESRCH : Z := 3.

(** The zoo, the signals that were sent, and the lines on the standard error. *)
Record bst := mkBst { b_zoo : option zoo; b_kills : list (Z * Z); b_err : list cstr }.

Abbreviation B := (E bst).

(** The answers of the system: the environment variable ZOO, the active file, the calls
    of the n-th operation on it, and the errno of [kill] (0 for success). *)
Record bump_env := mkBump {
  be_ZOO : option cstr; be_file : option cstr; be_open : open_answer; be_zoo : nat -> zenv; be_kill : Z -> Z -> Z }.

Definition complain (line : cstr) : B unit := modify (fun s => mkBst (b_zoo s) (b_kills s) (b_err s ++ [line])).
Definition send (pid sig : Z) : B unit := modify (fun s => mkBst (b_zoo s) (b_kills s ++ [(pid, sig)]) (b_err s)).

(** An operation on the zoo. *)
Definition on_zoo (f : option zoo -> Z * option zoo) : B Z := fun s => let '(r, z) := f (b_zoo s) in Done r (mkBst z (b_kills s) (b_err s)).

Definition zoo_message : B cstr := s ← get; mret (match b_zoo s with Some z => str (z_error z) | None => [] end).

Section Bump.
Variable env : bump_env.

(** The answers of [getopt]: the name of the active file and the signal. *)
Fixpoint bump_options (opts : list (ascii * cstr)) (active : option cstr) (sig : Z) : option cstr * Z :=
  match opts with
  | [] => (active, sig)
  | (c, optarg) :: opts =>
      if ceqb c "a" then bump_options opts (Some optarg) sig
      else if ceqb c "s" then bump_options opts active (atoi optarg)
      else if ceqb c "1" then bump_options opts active SIGUSR1
      else if ceqb c "2" then bump_options opts active SIGUSR2
      else bump_options opts active sig
  end.

(** The loop over the names; [n] counts the operations on the zoo. *)
Fixpoint bump_names (names : list cstr) (sig : Z) (n : nat) : B unit :=
  match names with
  | [] => mret tt
  | name :: names =>
      nanny ← on_zoo (fun z => zoo_getpid (be_zoo env n) z name);
      if nanny =? -1 then
        complain (§"ltp-bump: Did not find tag '" ++ name ++ §"'");; bump_names names sig (S n)
      else
        send nanny sig;;
        if be_kill env nanny sig =? ESRCH then
          complain (§"ltp-bump: Tag " ++ name ++ §" (pid " ++ fmt_d nanny ++ §") seems to be dead already.");;
          r ← on_zoo (fun z => zoo_clear (be_zoo env (S n)) z nanny);
          (if r =? 0 then mret tt else m ← zoo_message; complain (§"ltp-bump: " ++ m));;
          bump_names names sig (S (S n))
        else bump_names names sig (S n)
  end.

(** What [zoo_close] answers at the end is not looked at. *)
Definition bump_main (opts : list (ascii * cstr)) (names : list cstr) : B unit :=
  let '(active, sig) := bump_options opts None SIGINT in
  match (match active with None => zoo_getname (be_ZOO env) | Some a => Some a end) with
  | None => complain §"ltp-bump: Must supply -a or set ZOO env variable";; exit 1
  | Some _ =>
      match names with
      | [] => complain §"ltp-bump: Must supply names";; exit 1
      | _ =>
          match zoo_open (be_open env) (be_file env) with
          | (None, m) => complain (§"ltp-bump: " ++ str m);; exit 1
          | (Some z, _) =>
              modify (fun s => mkBst (Some z) (b_kills s) (b_err s));;
              bump_names names sig 0;;
              exit 0
          end
      end
  end.

(** ** What it does to the lines of the active file *)

(** The signals that are sent and the lines that are left: a test that is dead loses
    its line. *)
Fixpoint bump_lines (names : list cstr) (sig : Z) (lines : list cstr) : list (Z * Z) * list cstr :=
  match names with
  | [] => ([], lines)
  | name :: names =>
      let p := getpid_lines lines name in
      if p =? -1 then bump_lines names sig lines
      else
        let lines := if be_kill env p sig =? ESRCH then default lines (clear_lines lines p) else lines in
        let '(ks, lines) := bump_lines names sig lines in ((p, sig) :: ks, lines)
  end.

Hypothesis calls : forall n, zenv_good (be_zoo env n).

Lemma on_zoo_Done f z r z' ks err : f z = (r, z') -> on_zoo f (mkBst z ks err) = Done r (mkBst z' ks err).
Proof. unfold on_zoo. cbn. now intros ->. Qed.

Lemma bump_names_ok names sig n lines z ks err : zoo_rep lines z ->
  exists z' err', bump_names names sig n (mkBst (Some z) ks err) = Done tt (mkBst (Some z') (ks ++ (bump_lines names sig lines).1) err') /\
    zoo_rep (bump_lines names sig lines).2 z'.
Proof.
  revert n lines z ks err. induction names as [|name names IH]; intros n lines z ks err Hz; cbn [bump_names bump_lines]; [exists z, err; now rewrite app_nil_r|].
  destruct (zoo_getpid_refines (be_zoo env n) z lines name (calls n) Hz) as (z1 & E1 & H1). erewrite bind_Done by (apply on_zoo_Done; exact E1).
  destruct (getpid_lines lines name =? -1); [now apply IH|]. set (p := getpid_lines lines name). unfold send. rewrite (bind_Done (modify _) _ tt _ _ eq_refl). cbn [b_kills b_zoo b_err].
  assert (Hgo : forall m lines1 z1 err1, zoo_rep lines1 z1 -> exists z' err', bump_names names sig m (mkBst (Some z1) (ks ++ [(p, sig)]) err1) =
      Done tt (mkBst (Some z') (ks ++ (p, sig) :: (bump_lines names sig lines1).1) err') /\ zoo_rep (bump_lines names sig lines1).2 z').
  { intros m lines1 z2 err1 H2. destruct (IH m lines1 z2 (ks ++ [(p, sig)]) err1 H2) as (z' & err' & E3 & H3). exists z', err'. rewrite E3, <- app_assoc. done. }
  destruct (be_kill env p sig =? ESRCH).
  - rewrite (bind_Done (complain _) _ tt _ _ eq_refl). cbn [b_kills b_zoo b_err].
    destruct (zoo_clear_refines (be_zoo env (S n)) z1 lines p (calls _) H1) as (z2 & E2 & H2). erewrite bind_Done by (apply on_zoo_Done; exact E2).
    destruct (clear_lines lines p) as [lines'|]; cbn [default from_option]; unfold id; destruct (bump_lines names sig _) as [ks' lines''] eqn:El.
    + erewrite bind_Done by reflexivity. pose proof (Hgo (S (S n)) lines' z2 (err ++ [§"ltp-bump: Tag " ++ name ++ §" (pid " ++ fmt_d p ++ §") seems to be dead already."]) H2) as Hg.
      now rewrite El in Hg.
    + erewrite bind_Done by reflexivity. pose proof (fun err => Hgo (S (S n)) lines z2 err H2) as Hg. rewrite El in Hg. apply Hg.
  - destruct (bump_lines names sig lines) as [ks' lines''] eqn:El. pose proof (Hgo (S n) lines z1 err H1) as Hg. now rewrite El in Hg.
Qed.
End Bump.

(** For a well-formed active file and names, ltp-bump ends with the status 0; it sends the signal that was asked for, SIGINT by
    default, to the pid of the first active line whose tag begins with each name, in their order, and to nothing else, and takes
    out of the file exactly the lines of the tests that are dead. *)
Theorem bump_main_signals env opts name names z lines :
  (forall n, zenv_good (be_zoo env n)) -> (bump_options opts None SIGINT).1 <> None \/ be_ZOO env <> None ->
  (zoo_open (be_open env) (be_file env)).1 = Some z -> zoo_rep lines z ->
  exists z' err, bump_main env opts (name :: names) (mkBst None [] []) =
      Exited 0 (mkBst (Some z') (bump_lines env (name :: names) (bump_options opts None SIGINT).2 lines).1 err) /\
    zoo_rep (bump_lines env (name :: names) (bump_options opts None SIGINT).2 lines).2 z'.
Proof.
  intros Hc Ha Ho Hz. unfold bump_main. destruct (bump_options opts None SIGINT) as [active sig]. cbn [fst snd] in *.
  assert (Hact : exists a, match active with None => zoo_getname (be_ZOO env) | Some a => Some a end = Some a)
    by (destruct active as [a|]; [now exists a|]; destruct Ha as [Ha|Ha]; [done|]; destruct (be_ZOO env); [cbn; eauto|done]).
  destruct Hact as [a ->]. destruct (zoo_open (be_open env) (be_file env)) as [zo m]. cbn [fst] in Ho. subst zo. rewrite (bind_Done (modify _) _ tt _ _ eq_refl). cbn [b_kills b_err].
  destruct (bump_names_ok env Hc (name :: names) sig 0 lines z [] [] Hz) as (z' & err & E1 & H1). rewrite (bind_Done _ _ _ _ _ E1). now exists z', err.
Qed.

(** A file with one test, which is dead. *)
Definition sample_line : cstr := fmt_pad 79 §"42,t1,prog".
Definition sample_zoo : zoo := mkZoo (bytes_of [sample_line]) false "".
Definition sample_bump : bump_env := mkBump None (Some (bytes_of [sample_line])) {| oa_r1 := 0; oa_append := 0; oa_r2 := 0 |} (fun _ => zenv_ok) (fun _ _ => ESRCH).

Lemma sample_zoo_rep : zoo_rep [sample_line] sample_zoo.
Proof. split; [done|]. split; [|done]. constructor; [|constructor]. split; [reflexivity|]. split; apply memc_false; reflexivity. Qed.

Lemma bump_main_signals_witness : exists z' err,
  bump_main sample_bump [("a"%char, §"active"); ("1"%char, [])] [§"t1"] (mkBst None [] []) = Exited 0 (mkBst (Some z') [(42, SIGUSR1)] err) /\
  zoo_rep [§"#" ++ tail sample_line] z'.
Proof.
  destruct (bump_main_signals sample_bump [("a"%char, §"active"); ("1"%char, [])] §"t1" [] sample_zoo [sample_line]) as (z' & err & E1 & H1).
  - intros n. exact zenv_ok_good.
  - left. discriminate.
  - reflexivity.
  - exact sample_zoo_rep.
  - exists z', err. split; [exact E1|exact H1].
Defined.
