(* ===== verification/CpusetText.v ===== *)
(** The text routines of the cpuset library
    (testcases/kernel/controllers/cpuset/cpuset_lib/libcpuset.c): the line
    readers, [chomp], [stolower] and the path compression, which works in place
    on a nul-terminated buffer with a reading and a writing index. *)
From Stdlib Require Import Ascii String ZArith Lia Bool.
From stdpp Require Import base list sets numbers.
From S2P Require Import Prelude CString.

Local Open Scope Z_scope.

Definition PATH_MAX : nat := 4096.
Definition SMALL_BUFSZ : nat := 16.

(** ** Lines *)

(** [getc] on the rest of a file: the next byte or EOF. *)
Definition getc (input : cstr) : Z * cstr :=
  match input with
  | c :: r => (chr_code c, r)
  | [] => (-1, [])
  end.

(** [sgetc] on the rest of a string: the next [char], which is signed, or EOF. *)
Definition sgetc (input : cstr) : Z * cstr :=
  match input with
  | c :: r => (swrap 8 (chr_code c), r)
  | [] => (-1, [])
  end.

Section Lines.
Variable next : cstr -> Z * cstr.

(** [while ((--buflen > 0) && ((c = getc(fp)) >= 0))]: whether a newline ended
    the loop, the line, the last [c] and the rest of the input. *)
Fixpoint line_loop (n : nat) (input line : cstr) (c : Z) : bool * cstr * Z * cstr :=
  match n with
  | O => (false, line, c, input)
  | S n =>
      let '(c, r) := next input in
      if c <? 0 then (false, line, c, r)
      else if c =? 10 then (true, line, c, r)
      else line_loop n r (line ++ [chr c]) c
  end.

(** [while ((c = getc(fp)) >= 0)]: the rest of a line that is too long. *)
Fixpoint discard_line (fuel : nat) (input : cstr) : cstr :=
  match fuel with
  | O => input
  | S fuel =>
      let '(c, r) := next input in
      if (c <? 0) || (c =? 10) then r else discard_line fuel r
  end.

(** The line and the rest of the input, [None] for NULL. *)
Definition lgets (buflen : nat) (input : cstr) : option (cstr * cstr) :=
  match line_loop (buflen - 1) input [] (-1) with
  | (true, line, _, r) => Some (line, r)
  | (false, line, c, r) =>
      if (c <? 0) && bool_decide (line = []) then None
      else if 0 <? c then Some (line, discard_line (S (length r)) r)
      else Some (line, r)
  end.
End Lines.

Definition flgets (buflen : nat) (input : cstr) : option (cstr * cstr) := lgets getc buflen input.
Definition slgets (buflen : nat) (input : cstr) : option (cstr * cstr) := lgets sgetc buflen input.

(** [for (t = s + strlen(s) - 1; t >= s; t--)]. *)
Definition chomp (s : cstr) : cstr :=
  rev (dropwhile (fun c => ceqb c LF || (chr_code c =? 13)) (rev s)).

Definition tolower (c : ascii) : ascii :=
  if (65 <=? chr_code c) && (chr_code c <=? 90) then chr (chr_code c + 32) else c.
Definition stolower (s : cstr) : cstr := map tolower s.

Definition strprefix (s pre : cstr) : bool := strneq s pre (length pre).

Definition s2nbits (s : cstr) : Z := Z.of_nat (length s) * 32 / 9.

(** ** Paths *)

(** The buffer of [pathcomp] with its two indices: [a] reads, [b] writes. *)
Record pbuf := mkP { pb_mem : cstr; pb_a : nat; pb_b : nat }.

Definition SL : ascii := "/"%char.
Definition DOT : ascii := "."%char.

Definition at_slash (m : cstr) (i : nat) : option bool := c ← m !! i; Some (ceqb c SL).
Definition eocomp (m : cstr) (i : nat) : option bool := c ← m !! i; Some (ceqb c SL || ceqb c NUL).
Definition dot1 (m : cstr) (i : nat) : option bool :=
  c ← m !! i; if ceqb c DOT then eocomp m (S i) else Some false.

(** [*b++ = c]: [None] outside the buffer. *)
Definition put (p : pbuf) (c : ascii) : option pbuf :=
  if (pb_b p <? length (pb_mem p))%nat
  then Some (mkP (<[pb_b p := c]> (pb_mem p)) (pb_a p) (S (pb_b p))) else None.

(** [while (slash(++a)) continue;]. *)
Fixpoint skip_slashes (fuel : nat) (p : pbuf) : option pbuf :=
  match fuel with
  | O => None
  | S fuel =>
      let p := mkP (pb_mem p) (S (pb_a p)) (pb_b p) in
      sl ← at_slash (pb_mem p) (pb_a p);
      if (sl : bool) then skip_slashes fuel p else Some p
  end.

(** [while (!eocomp(a)) *b++ = *a++;]. *)
Fixpoint copy_comp (fuel : nat) (p : pbuf) : option pbuf :=
  match fuel with
  | O => None
  | S fuel =>
      e ← eocomp (pb_mem p) (pb_a p);
      if (e : bool) then Some p
      else c ← pb_mem p !! pb_a p;
           p ← put (mkP (pb_mem p) (S (pb_a p)) (pb_b p)) c;
           copy_comp fuel p
  end.

(** The [for (;;)] loop; the fuel is the length of the buffer for each of the
    loops, and [None] is an access outside the buffer or no fuel left. *)
Fixpoint pathcomp_loop (fuel : nat) (p : pbuf) : option cstr :=
  match fuel with
  | O => None
  | S fuel' =>
      sl ← at_slash (pb_mem p) (pb_a p);
      p ← (if (sl : bool) then skip_slashes (length (pb_mem p)) p else Some p);
      c ← pb_mem p !! pb_a p;
      if ceqb c NUL then
        p ← (if (pb_b p =? 0)%nat then put p DOT else Some p);
        p ← put p NUL;
        Some (pb_mem p)
      else
        d ← dot1 (pb_mem p) (pb_a p);
        if (d : bool) then pathcomp_loop fuel' (mkP (pb_mem p) (S (pb_a p)) (pb_b p))
        else
          prev ← (if (pb_b p =? 0)%nat then Some true else at_slash (pb_mem p) (pb_b p - 1));
          p ← (if (prev : bool) then Some p else put p SL);
          p ← copy_comp (length (pb_mem p)) p;
          pathcomp_loop fuel' p
  end.

Definition pathcomp_buf (m : cstr) : option cstr :=
  c ← m !! 0%nat;
  if ceqb c NUL then Some m
  else
    p ← (if ceqb c SL then put (mkP m 1 0) c else Some (mkP m 0 0));
    pathcomp_loop (length m) p.

(** The string [pathcomp] leaves in the buffer that holds [p]. *)
Definition pathcomp (p : cstr) : option cstr := m ← pathcomp_buf (p ++ [NUL]); Some (cstr_of m).

Definition pathcat2 (buflen : nat) (name1 name2 : cstr) : option cstr :=
  pathcomp (snprintf_buf buflen (name1 ++ §"/" ++ name2)).

Definition pathcat3 (buflen : nat) (name1 name2 name3 : cstr) : option cstr :=
  pathcomp (snprintf_buf buflen (name1 ++ §"/" ++ name2 ++ §"/" ++ name3)).

(** ** The compressed path *)

(** The components of a path without the empty ones and the dots. *)
Definition components (p : cstr) : list cstr :=
  filter (fun c => c <> §".") (strtok_all §"/" p).

(** The path with these components; [.] is the empty relative path. *)
Definition path_of (absolute : bool) (l : list cstr) : cstr :=
  if absolute then §"/" ++ join §"/" l
  else match l with [] => §"." | _ => join §"/" l end.

Definition is_absolute (p : cstr) : bool := match p with c :: _ => ceqb c SL | [] => false end.

(** The buffer holds the output [out] below the writing index, and the unread
    text [t] from the reading index on. *)
Record holds_path (p : pbuf) (out t : cstr) : Prop := {
  hp_b : pb_b p = length out;
  hp_le : (pb_b p <= pb_a p)%nat;
  hp_out : take (pb_b p) (pb_mem p) = out;
  hp_t : drop (pb_a p) (pb_mem p) = t ++ [NUL];
}.

Lemma hp_lookup p out t i : holds_path p out t -> pb_mem p !! (pb_a p + i)%nat = (t ++ [NUL]) !! i.
Proof. intros H. rewrite <- (hp_t _ _ _ H), lookup_drop. done. Qed.

Lemma hp_head p out c t : holds_path p out (c :: t) -> pb_mem p !! pb_a p = Some c.
Proof. intros H. pose proof (hp_lookup _ _ _ 0 H) as E. now rewrite Nat.add_0_r in E. Qed.

Lemma hp_end p out : holds_path p out [] -> pb_mem p !! pb_a p = Some NUL.
Proof. intros H. pose proof (hp_lookup _ _ _ 0 H) as E. now rewrite Nat.add_0_r in E. Qed.

Lemma hp_length p out t :
  holds_path p out t -> length (pb_mem p) = (pb_a p + length t + 1)%nat.
Proof.
  intros H. pose proof (f_equal length (hp_t _ _ _ H)) as E.
  rewrite length_drop, length_app in E. cbn in E. lia.
Qed.

Lemma hp_advance p out c t :
  holds_path p out (c :: t) -> holds_path (mkP (pb_mem p) (S (pb_a p)) (pb_b p)) out t.
Proof.
  intros [H1 H2 H3 H4]. split; cbn; [done|lia|done|].
  replace (S (pb_a p)) with (pb_a p + 1)%nat by lia. rewrite <- drop_drop, H4. done.
Qed.

Lemma hp_put p out t c :
  holds_path p out t -> (pb_b p < pb_a p)%nat ->
  exists p', put p c = Some p' /\ holds_path p' (out ++ [c]) t /\
    length (pb_mem p') = length (pb_mem p) /\ pb_a p' = pb_a p.
Proof.
  intros H Hlt. pose proof (hp_length _ _ _ H) as Hl. destruct H as [H1 H2 H3 H4]. unfold put.
  rewrite (proj2 (Nat.ltb_lt _ _)) by lia. eexists. split; [done|]. split; [|cbn; now rewrite length_insert].
  split; cbn.
  - rewrite length_app. cbn. lia.
  - lia.
  - rewrite (take_S_r _ _ c) by (apply list_lookup_insert_eq; lia).
    rewrite take_insert_ge by lia. now rewrite H3.
  - rewrite drop_insert_lt by lia. done.
Qed.

(** Copying the head of the unread text. *)
Lemma hp_copy p out c t :
  holds_path p out (c :: t) ->
  exists p', put (mkP (pb_mem p) (S (pb_a p)) (pb_b p)) c = Some p' /\
    holds_path p' (out ++ [c]) t /\ length (pb_mem p') = length (pb_mem p).
Proof.
  intros H. pose proof (hp_advance _ _ _ _ H) as H'. destruct (hp_put _ _ _ c H') as (p' & E & Hp & L & _).
  - cbn. pose proof (hp_le _ _ _ H). lia.
  - eauto.
Qed.

Lemma hp_at_slash p out t :
  holds_path p out t -> at_slash (pb_mem p) (pb_a p) = Some (match t with c :: _ => ceqb c SL | [] => false end).
Proof.
  intros H. unfold at_slash. destruct t as [|c t]; [now rewrite (hp_end _ _ H)|now rewrite (hp_head _ _ _ _ H)].
Qed.

Lemma skip_slashes_ok fuel p out c t :
  holds_path p out (c :: t) -> (length t < fuel)%nat ->
  exists p', skip_slashes fuel p = Some p' /\ holds_path p' out (dropwhile (fun c => ceqb c SL) t) /\
    length (pb_mem p') = length (pb_mem p) /\ (pb_a p < pb_a p')%nat /\ pb_b p' = pb_b p.
Proof.
  revert p c t. induction fuel as [|fuel IH]; intros p c t H Hf; [lia|]. cbn [skip_slashes].
  apply hp_advance in H. set (q := mkP _ _ _) in *. rewrite (hp_at_slash _ _ _ H). cbn [mbind option_bind].
  destruct t as [|d t]; cbn [dropwhile].
  - exists q. split; [done|]. split; [exact H|]. cbn. lia.
  - destruct (ceqb d SL) eqn:Ed.
    + cbn in Hf. destruct (IH q d t H ltac:(lia)) as (p' & E & Hp & L & La & Lb).
      exists p'. split; [done|]. split; [done|]. cbn in *. lia.
    + exists q. split; [done|]. split; [exact H|]. cbn. lia.
Qed.

Definition not_sep (c : ascii) : bool := negb (ceqb c SL).

Lemma copy_comp_ok fuel p out t :
  holds_path p out t -> NUL ∉ t -> (length t < fuel)%nat ->
  exists p', copy_comp fuel p = Some p' /\
    holds_path p' (out ++ takewhile not_sep t) (dropwhile not_sep t) /\ length (pb_mem p') = length (pb_mem p).
Proof.
  revert p out t. induction fuel as [|fuel IH]; intros p out t H Hn Hf; [lia|]. cbn [copy_comp].
  unfold eocomp. destruct t as [|c t].
  - rewrite (hp_end _ _ H). cbn. exists p. now rewrite app_nil_r.
  - rewrite (hp_head _ _ _ _ H). apply not_elem_of_cons in Hn as [Hc Hn].
    cbn [mbind option_bind takewhile dropwhile]. unfold not_sep at 1 3.
    rewrite (proj2 (ceqb_neq c NUL)) by congruence. rewrite orb_false_r.
    destruct (ceqb c SL) eqn:Ec; cbn [negb].
    + exists p. now rewrite app_nil_r.
    + destruct (hp_copy _ _ _ _ H) as (q & Eq & Hq & Lq). cbn in Hf. rewrite Eq. cbn [mbind option_bind].
      destruct (IH q (out ++ [c]) t Hq Hn ltac:(lia)) as (p' & E & Hp & L).
      exists p'. rewrite <- app_assoc in Hp. split; [done|]. split; [done|]. lia.
Qed.

(** No separator is due behind this output. *)
Definition sep_free (out : cstr) : bool := match rev out with c :: _ => ceqb c SL | [] => true end.

Lemma hp_prev p out t :
  holds_path p out t ->
  (if (pb_b p =? 0)%nat then Some true else at_slash (pb_mem p) (pb_b p - 1)) =
  Some (sep_free out).
Proof.
  intros H. rewrite (hp_b _ _ _ H). destruct out as [|x out] using rev_ind; [done|].
  unfold sep_free. rewrite length_app, rev_unit. cbn [length].
  replace (length out + 1 =? 0)%nat with false by (symmetry; apply Nat.eqb_neq; lia).
  replace (length out + 1 - 1)%nat with (length out) by lia. unfold at_slash.
  assert (E : pb_mem p !! length out = Some x); [|now rewrite E].
  pose proof (hp_out _ _ _ H) as Ho. rewrite <- (lookup_take_lt _ (pb_b p)), Ho.
  - rewrite lookup_app_r, Nat.sub_diag by lia. done.
  - rewrite (hp_b _ _ _ H), length_app. cbn. lia.
Qed.

Lemma takewhile_cons_keep c t : ceqb c SL = false -> takewhile not_sep (c :: t) = c :: takewhile not_sep t.
Proof. intros E. cbn. unfold not_sep at 1. now rewrite E. Qed.

Lemma hp_dot1 p out c t :
  holds_path p out (c :: t) -> NUL ∉ c :: t -> ceqb c SL = false ->
  dot1 (pb_mem p) (pb_a p) = Some (streq (takewhile not_sep (c :: t)) §".").
Proof.
  intros H Hn Ec. rewrite takewhile_cons_keep by done.
  unfold dot1. rewrite (hp_head _ _ _ _ H). cbn [mbind option_bind].
  change (§".") with [DOT]. destruct (ceqb c DOT) eqn:Ed.
  - apply ceqb_eq in Ed as ->. unfold eocomp.
    pose proof (hp_lookup _ _ _ 1 H) as E. replace (pb_a p + 1)%nat with (S (pb_a p)) in E by lia.
    rewrite E. destruct t as [|d t]; [done|]. cbn [app lookup list_lookup mbind option_bind].
    rewrite !not_elem_of_cons in Hn. rewrite (proj2 (ceqb_neq d NUL)) by (intros ->; naive_solver).
    rewrite orb_false_r. f_equal. cbn [takewhile]. unfold not_sep at 1.
    destruct (ceqb d SL) eqn:Es; cbn [negb]; symmetry; [now apply streq_true|now apply streq_false].
  - apply ceqb_neq in Ed. f_equal. symmetry. apply streq_false. congruence.
Qed.

(** What the loop has written at its end, given its output so far and the
    components it still reads. *)
Fixpoint comp_out (out : cstr) (l : list cstr) : cstr :=
  match l with
  | [] => match out with [] => §"." | _ => out end
  | c :: l =>
      if streq c §"." then comp_out out l
      else comp_out (out ++ (if sep_free out then [] else [SL]) ++ c) l
  end.

Lemma cstr_of_put p out :
  holds_path p out [] -> NUL ∉ out ->
  exists p', put p NUL = Some p' /\ cstr_of (pb_mem p') = out.
Proof.
  intros H Hn. pose proof (hp_length _ _ _ H) as Hl. pose proof (hp_le _ _ _ H). unfold put.
  rewrite (proj2 (Nat.ltb_lt _ _)) by (cbn in *; lia). eexists. split; [done|]. cbn [pb_mem].
  rewrite insert_take_drop by (cbn in *; lia). rewrite (hp_out _ _ _ H). unfold cstr_of.
  apply takewhile_app; [|now rewrite ceqb_refl].
  apply List.Forall_forall. intros x Hx. apply negb_true_iff, ceqb_neq.
  intros ->. now apply Hn, list_elem_of_In.
Qed.

Lemma while_ext {A} (p q : A -> bool) l :
  (forall x, p x = q x) -> takewhile p l = takewhile q l /\ dropwhile p l = dropwhile q l.
Proof.
  intros H. induction l as [|x l [IH1 IH2]]; [done|]. cbn. rewrite H, IH1, IH2. done.
Qed.

Lemma memc_slash c : memc c §"/" = ceqb c SL.
Proof.
  unfold memc, ceqb. apply bool_decide_ext. change (§"/") with [SL]. now rewrite list_elem_of_singleton.
Qed.

Lemma strtok_slash t :
  strtok §"/" t =
  match dropwhile (fun c => ceqb c SL) t with
  | [] => None
  | s => Some (takewhile not_sep s, tail (dropwhile not_sep s))
  end.
Proof.
  unfold strtok. rewrite (proj2 (while_ext _ (fun c => ceqb c SL) t memc_slash)).
  destruct (dropwhile _ t) as [|c s]; [done|].
  destruct (while_ext (fun c => negb (memc c §"/")) not_sep (c :: s)) as [-> ->]; [|done].
  intros x. now rewrite memc_slash.
Qed.

(** The tokens behind a component. *)
Lemma strtok_all_behind s :
  strtok_all §"/" (tail (dropwhile not_sep s)) = strtok_all §"/" (dropwhile not_sep s).
Proof.
  destruct (dropwhile not_sep s) as [|c r] eqn:E; [done|]. apply dropwhile_head in E.
  apply negb_false_iff, ceqb_eq in E as ->. cbn [tail]. symmetry. apply strtok_all_sep.
  change (§"/") with [SL]. set_solver.
Qed.

(** The separators before a component. *)
Lemma skip_ok p out t :
  holds_path p out t -> NUL ∉ t ->
  (t = [] \/ is_absolute t = true \/ sep_free out = true) -> ((0 < pb_a p)%nat \/ t <> []) ->
  exists p1, (if match t with c :: _ => ceqb c SL | [] => false end
              then skip_slashes (length (pb_mem p)) p else Some p) = Some p1 /\
    let t1 := dropwhile (fun c => ceqb c SL) t in
    holds_path p1 out t1 /\ NUL ∉ t1 /\ length (pb_mem p1) = length (pb_mem p) /\
    (t1 = [] \/ sep_free out = true \/ (pb_b p1 < pb_a p1)%nat) /\ ((0 < pb_a p1)%nat \/ t1 <> []).
Proof.
  intros H Hn Hs Ha. pose proof (hp_length _ _ _ H) as Hl. destruct t as [|c t]; cbn [is_absolute dropwhile] in *.
  - exists p. split; [done|]. repeat split; try done; auto; apply H.
  - destruct (ceqb c SL) eqn:Ec.
    + cbn in Hl. destruct (skip_slashes_ok (length (pb_mem p)) p out c t H) as (p1 & E & Hp & L & La & Lb); [lia|].
      exists p1. split; [done|]. pose proof (hp_le _ _ _ H). split; [done|]. split.
      { apply not_elem_of_cons in Hn as [_ Hn]. intros Hin. apply Hn.
        rewrite <- (take_drop_while (fun c => ceqb c SL) t). apply elem_of_app. now right. }
      split; [done|]. split; [right; right; lia|left; lia].
    + exists p. split; [done|]. split; [done|]. split; [done|]. split; [done|].
      split; [|now right]. destruct Hs as [?|[?|?]]; [done|congruence|auto].
Qed.

(** The output and one more component. *)
Lemma sep_ok p out t :
  holds_path p out t -> (sep_free out = true \/ (pb_b p < pb_a p)%nat) ->
  exists p1, (if sep_free out then Some p else put p SL) = Some p1 /\
    holds_path p1 (out ++ (if sep_free out then [] else [SL])) t /\ length (pb_mem p1) = length (pb_mem p).
Proof.
  intros H Hs. destruct (sep_free out) eqn:E.
  - exists p. now rewrite app_nil_r.
  - destruct Hs as [?|Hlt]; [done|]. destruct (hp_put _ _ _ SL H Hlt) as (p1 & ? & ? & ? & _). eauto.
Qed.

Lemma finish_ok p out :
  holds_path p out [] -> NUL ∉ out -> (0 < pb_a p)%nat ->
  exists p1 p2, (if (pb_b p =? 0)%nat then put p DOT else Some p) = Some p1 /\ put p1 NUL = Some p2 /\
    cstr_of (pb_mem p2) = comp_out out [].
Proof.
  intros H Hn Ha. cbn [comp_out]. rewrite (hp_b _ _ _ H). destruct out as [|x out]; cbn [length Nat.eqb].
  - destruct (hp_put _ _ _ DOT H) as (p1 & E & Hp & _); [rewrite (hp_b _ _ _ H); cbn; lia|].
    destruct (cstr_of_put p1 ([] ++ [DOT]) Hp) as (p2 & E2 & Ec); [set_solver|]. eauto.
  - destruct (cstr_of_put p (x :: out) H Hn) as (p2 & E2 & Ec). eauto.
Qed.

Lemma not_in_while {A} (x : A) q l : x ∉ l -> x ∉ takewhile q l /\ x ∉ dropwhile q l.
Proof. rewrite <- (take_drop_while q l) at 1. now rewrite not_elem_of_app. Qed.

Lemma dropwhile_absolute s : dropwhile not_sep s = [] \/ is_absolute (dropwhile not_sep s) = true.
Proof.
  destruct (dropwhile not_sep s) as [|c r] eqn:E; [now left|right].
  apply dropwhile_head in E. now apply negb_false_iff in E.
Qed.

(** One component: it is skipped when it is a dot and copied otherwise. *)
Lemma component_ok fuel p out c t :
  holds_path p out (c :: t) -> NUL ∉ c :: t -> ceqb c SL = false ->
  (sep_free out = true \/ (pb_b p < pb_a p)%nat) ->
  let tok := takewhile not_sep (c :: t) in
  let out' := if streq tok §"." then out else out ++ (if sep_free out then [] else [SL]) ++ tok in
  exists p', (d ← dot1 (pb_mem p) (pb_a p);
     if (d : bool) then pathcomp_loop fuel (mkP (pb_mem p) (S (pb_a p)) (pb_b p))
     else
       prev ← (if (pb_b p =? 0)%nat then Some true else at_slash (pb_mem p) (pb_b p - 1));
       p ← (if (prev : bool) then Some p else put p SL);
       p ← copy_comp (length (pb_mem p)) p;
       pathcomp_loop fuel p) = pathcomp_loop fuel p' /\
    holds_path p' out' (dropwhile not_sep (c :: t)) /\ (0 < pb_a p')%nat.
Proof.
  intros H Hn Ec Hs tok out'. rewrite (hp_dot1 _ _ _ _ H Hn Ec). fold tok. cbn [mbind option_bind].
  subst out'. destruct (streq tok §".") eqn:Ed.
  - eexists. split; [reflexivity|]. split; [|cbn; lia]. apply streq_true in Ed.
    assert (Hd : dropwhile not_sep (c :: t) = t).
    { pose proof (take_drop_while not_sep (c :: t)) as E. fold tok in E. rewrite Ed in E. now injection E. }
    rewrite Hd. now apply hp_advance in H.
  - rewrite (hp_prev _ _ _ H). cbn [mbind option_bind].
    destruct (sep_ok _ _ _ H Hs) as (p1 & -> & H1 & L1). cbn [mbind option_bind].
    pose proof (hp_length _ _ _ H) as Hl. pose proof (hp_length _ _ _ H1) as Hl1.
    destruct (copy_comp_ok (length (pb_mem p1)) p1 _ _ H1 Hn) as (p2 & -> & H2 & L2); [lia|].
    exists p2. cbn [mbind option_bind]. rewrite <- app_assoc in H2. split; [done|]. split; [done|].
    pose proof (hp_le _ _ _ H2) as Hle. rewrite (hp_b _ _ _ H2), !length_app in Hle.
    unfold tok in *. rewrite takewhile_cons_keep in * by done. cbn [length] in Hle. lia.
Qed.

Lemma pathcomp_loop_ok fuel p out t :
  holds_path p out t -> NUL ∉ t -> NUL ∉ out -> (length t < fuel)%nat ->
  (t = [] \/ is_absolute t = true \/ sep_free out = true) -> ((0 < pb_a p)%nat \/ t <> []) ->
  exists m, pathcomp_loop fuel p = Some m /\ cstr_of m = comp_out out (strtok_all §"/" t).
Proof.
  revert p out t. induction fuel as [|fuel IH]; intros p out t H Hn Ho Hf Hs Ha; [lia|].
  cbn [pathcomp_loop]. rewrite (hp_at_slash _ _ _ H). cbn [mbind option_bind].
  destruct (skip_ok _ _ _ H Hn Hs Ha) as (p1 & -> & H1 & Hn1 & L1 & Hs1 & Ha1). cbn [mbind option_bind].
  rewrite strtok_all_unfold, strtok_slash.
  pose proof (dropwhile_length (fun c => ceqb c SL) t) as Hlen.
  destruct (dropwhile _ t) as [|c s] eqn:E1.
  - rewrite (hp_end _ _ H1). cbn [mbind option_bind]. rewrite ceqb_refl.
    destruct (finish_ok p1 out H1 Ho) as (p2 & p3 & -> & E3 & Ec); [destruct Ha1 as [?|?]; [done|congruence]|].
    cbn [mbind option_bind]. rewrite E3. cbn [mbind option_bind]. eauto.
  - apply dropwhile_head in E1 as Hc. rewrite (hp_head _ _ _ _ H1). cbn [mbind option_bind].
    rewrite (proj2 (ceqb_neq c NUL)) by (intros ->; set_solver).
    destruct (component_ok fuel p1 out c s H1 Hn1 Hc) as (p' & -> & Hp & Hpa); [destruct Hs1 as [?|?]; [done|done]|].
    destruct (not_in_while NUL not_sep (c :: s) Hn1) as [Ht Hd].
    rewrite strtok_all_behind. cbn [comp_out].
    destruct (IH p' _ _ Hp Hd) as (m & Em & Ecm).
    + destruct (streq _ _); [done|]. rewrite !not_elem_of_app. split; [done|]. split; [|done].
      destruct (sep_free out); set_solver.
    + assert (length (dropwhile not_sep (c :: s)) < S (length s))%nat; [|cbn in Hlen; lia].
      cbn [dropwhile]. unfold not_sep at 1. rewrite Hc. cbn [negb].
      pose proof (dropwhile_length not_sep s). lia.
    + destruct (dropwhile_absolute (c :: s)) as [?|?]; auto.
    + now left.
    + exists m. split; [done|]. rewrite Ecm. now destruct (streq (takewhile not_sep (c :: s)) §".").
Qed.

(** The output of the loop is the path of the components. *)
Lemma comp_out_path out l :
  Forall (fun t => t <> [] /\ Forall (fun c => c ∉ §"/") t) l -> sep_free out = false ->
  comp_out out l = out ++ concat (map (fun c => §"/" ++ c) (filter (fun c => c <> §".") l)).
Proof.
  intros Hl. revert out. induction Hl as [|c l [Hc Hcs] Hl IH]; intros out Ho; cbn [comp_out].
  - destruct out; [done|]. now rewrite app_nil_r.
  - destruct (streq c §".") eqn:E.
    + apply streq_true in E as ->. rewrite IH by done. rewrite filter_cons_False by auto. done.
    + apply streq_false in E. rewrite filter_cons_True by done. rewrite Ho, IH.
      * cbn [map concat]. rewrite <- !app_assoc. done.
      * unfold sep_free. rewrite !rev_app_distr, <- app_assoc.
        destruct (rev c) as [|x r] eqn:Er; [now apply (f_equal (@rev _)) in Er; rewrite rev_involutive in Er|].
        cbn [app]. apply ceqb_neq. intros ->. rewrite List.Forall_forall in Hcs.
        apply (Hcs SL); [|change (§"/") with [SL]; set_solver].
        apply in_rev. rewrite Er. now left.
Qed.

Lemma join_concat x l : join §"/" (x :: l) = x ++ concat (map (fun c => §"/" ++ c) l).
Proof.
  revert x. induction l as [|y l IH]; intros x; cbn [join map concat]; [now rewrite app_nil_r|].
  rewrite <- app_assoc. f_equal. f_equal. apply IH.
Qed.

Definition comp_ok (t : cstr) : Prop := t <> [] /\ Forall (fun c => c ∉ §"/") t.

Lemma comp_out_start out l :
  Forall comp_ok l -> out = [] \/ out = §"/" ->
  comp_out out l = path_of (is_absolute out) (filter (fun c => c <> §".") l).
Proof.
  intros Hl Ho. induction Hl as [|c l [Hc Hcs] Hl IH]; cbn [comp_out].
  - destruct Ho as [-> | ->]; done.
  - destruct (streq c §".") eqn:E.
    + apply streq_true in E as ->. rewrite IH, filter_cons_False by auto. done.
    + apply streq_false in E. rewrite filter_cons_True by done.
      assert (Hsep : sep_free out = true) by now destruct Ho as [-> | ->]. rewrite Hsep. cbn [app].
      rewrite comp_out_path; [|done|].
      * unfold path_of. rewrite <- app_assoc, <- join_concat. destruct Ho as [-> | ->]; done.
      * unfold sep_free. rewrite rev_app_distr.
        destruct (rev c) as [|x r] eqn:Er; [now apply (f_equal (@rev _)) in Er; rewrite rev_involutive in Er|].
        cbn [app]. apply ceqb_neq. intros ->. rewrite List.Forall_forall in Hcs.
        apply (Hcs SL); [|change (§"/") with [SL]; set_solver]. apply in_rev. rewrite Er. now left.
Qed.

Lemma pathcomp_path p :
  NUL ∉ p -> p <> [] -> pathcomp p = Some (path_of (is_absolute p) (components p)).
Proof.
  intros Hn Hp. destruct p as [|c p]; [done|]. unfold pathcomp, pathcomp_buf. cbn [app lookup list_lookup].
  cbn [mbind option_bind]. rewrite (proj2 (ceqb_neq c NUL)) by (intros ->; set_solver).
  assert (H0 : holds_path (mkP (c :: p ++ [NUL]) 0 0) [] (c :: p)) by now split.
  assert (Hok : Forall comp_ok (strtok_all §"/" (c :: p))) by apply strtok_all_tokens.
  apply not_elem_of_cons in Hn as Hn'. cbn [is_absolute]. destruct (ceqb c SL) eqn:Ec.
  - apply ceqb_eq in Ec as ->. destruct (hp_copy _ _ _ _ H0) as (q & Eq & Hq & Lq). cbn [pb_mem pb_a pb_b] in Eq. rewrite Eq.
    cbn [mbind option_bind].
    destruct (pathcomp_loop_ok (length (SL :: p ++ [NUL])) q [SL] p Hq) as (m & -> & Em);
      [tauto|set_solver|cbn; rewrite length_app; cbn; lia|now right; right| |].
    { left. pose proof (hp_le _ _ _ Hq) as Hle. rewrite (hp_b _ _ _ Hq) in Hle. cbn in Hle. lia. }
    cbn [mbind option_bind]. rewrite Em. unfold components in *.
    rewrite (strtok_all_sep §"/" SL) in * by (change (§"/") with [SL]; set_solver).
    rewrite comp_out_start; [done|done|now right].
  - cbn [mbind option_bind].
    destruct (pathcomp_loop_ok (length (c :: p ++ [NUL])) _ [] (c :: p) H0) as (m & -> & Em);
      [done|set_solver|cbn; rewrite length_app; cbn; lia|now right; right|now right|].
    cbn [mbind option_bind]. rewrite Em. now rewrite comp_out_start; [|done|left].
Qed.

Definition path_comp (t : cstr) : Prop := comp_ok t /\ t <> §"." /\ NUL ∉ t.

Lemma strtok_all_chars seps p : Forall (fun t => forall x, x ∈ t -> x ∈ p) (strtok_all seps p).
Proof.
  unfold strtok_all. generalize (S (length p)) as f. intros f.
  assert (H : forall s, (forall x, x ∈ s -> x ∈ p) ->
    Forall (fun t => forall x, x ∈ t -> x ∈ p) (strtok_loop f seps s)); [|now apply H].
  induction f as [|f IH]; intros s Hs; cbn [strtok_loop]; [constructor|].
  unfold strtok. destruct (dropwhile _ s) as [|c r] eqn:E; [constructor|].
  assert (Hr : forall x, x ∈ c :: r -> x ∈ p).
  { intros x Hx. apply Hs. rewrite <- (take_drop_while (fun c => memc c seps) s), E. apply elem_of_app. now right. }
  pose proof (take_drop_while (fun c => negb (memc c seps)) (c :: r)) as Ec.
  constructor.
  - intros x Hx. apply Hr. rewrite <- Ec. apply elem_of_app. now left.
  - apply IH. intros x Hx. apply Hr. rewrite <- Ec. apply elem_of_app. right.
    destruct (dropwhile _ (c :: r)); [done|]. now right.
Qed.

Lemma components_ok p : NUL ∉ p -> Forall path_comp (components p).
Proof.
  intros Hn. unfold components. apply List.Forall_forall. intros t Ht%list_elem_of_In.
  apply list_elem_of_filter in Ht as [Hd Ht%list_elem_of_In].
  pose proof (proj1 (List.Forall_forall _ _) (strtok_all_tokens §"/" p) t Ht) as Htok.
  pose proof (proj1 (List.Forall_forall _ _) (strtok_all_chars §"/" p) t Ht) as Hch. cbn in *.
  split; [done|]. split; [done|]. auto.
Qed.

Lemma filter_components l : Forall path_comp l -> filter (fun c => c <> §".") l = l.
Proof.
  induction 1 as [|t l (_ & Ht & _) Hl IH]; [done|]. now rewrite filter_cons_True, IH.
Qed.

Lemma strtok_all_slash l : Forall path_comp l -> strtok_all §"/" (join §"/" l) = l.
Proof.
  intros Hl. change (§"/") with [SL]. apply strtok_all_join; [set_solver|].
  eapply Forall_impl; [|exact Hl]. now intros t (H & _).
Qed.

Lemma components_path_of a l : Forall path_comp l -> components (path_of a l) = l.
Proof.
  intros Hl. unfold components, path_of. destruct a.
  - change (§"/" ++ join §"/" l) with (SL :: join §"/" l).
    rewrite strtok_all_sep by (change (§"/") with [SL]; set_solver).
    now rewrite strtok_all_slash, filter_components.
  - destruct l as [|t l]; [done|]. now rewrite strtok_all_slash, filter_components.
Qed.

Lemma path_of_absolute a l : Forall path_comp l -> is_absolute (path_of a l) = a.
Proof.
  intros Hl. unfold path_of. destruct a; [done|]. destruct Hl as [|t l ((Hne & Ht) & _) Hl]; [done|].
  rewrite join_concat. destruct t as [|c t]; [done|]. cbn. apply ceqb_neq. intros ->.
  rewrite List.Forall_forall in Ht. apply (Ht SL); [now left|]. change (§"/") with [SL]. set_solver.
Qed.

Lemma path_of_nul a l : Forall path_comp l -> NUL ∉ path_of a l /\ path_of a l <> [].
Proof.
  intros Hl.
  assert (Hj : NUL ∉ join §"/" l).
  { destruct Hl as [|t l (_ & _ & Ht) Hl]; [set_solver|]. rewrite join_concat, not_elem_of_app. split; [done|].
    clear Ht t. induction Hl as [|u l (_ & _ & Hu) Hl IH]; [set_solver|]. cbn [map concat].
    rewrite !not_elem_of_app. repeat split; auto. change (§"/") with [SL]. set_solver. }
  unfold path_of. destruct a.
  - split; [|done]. rewrite not_elem_of_app. split; [change (§"/") with [SL]; set_solver|done].
  - destruct Hl as [|t l ((Hne & _) & _) Hl]; [split; [change (§".") with [DOT]; set_solver|done]|].
    split; [done|]. rewrite join_concat. intros [? _]%app_nil. done.
Qed.

(** A compressed path is left as it is. *)
Lemma pathcomp_path_of a l : Forall path_comp l -> pathcomp (path_of a l) = Some (path_of a l).
Proof.
  intros Hl. destruct (path_of_nul a l Hl) as [H1 H2].
  rewrite pathcomp_path, path_of_absolute, components_path_of; done.
Qed.

(** C29: The compression in place ends without an access outside the buffer, and
    leaves the path made of the components of the old one, without the empty
    components and the dots, absolute if the old one is; compressing once more
    changes nothing. *)
Theorem pathcomp_normal p :
  NUL ∉ p -> p <> [] ->
  exists q, pathcomp p = Some q /\ q = path_of (is_absolute p) (components p) /\
    components q = components p /\ is_absolute q = is_absolute p /\ pathcomp q = Some q.
Proof.
  intros Hn Hp. pose proof (components_ok p Hn) as Hc. eexists. split; [now apply pathcomp_path|].
  split; [done|]. rewrite components_path_of, path_of_absolute, pathcomp_path_of; done.
Qed.

Lemma pathcomp_normal_witness :
  pathcomp §"/dev/cpuset//./a/.//b.c/" = Some §"/dev/cpuset/a/b.c" /\
  exists q, pathcomp §"./..//x/." = Some q /\ q = path_of false [§".."; §"x"] /\
    components q = components §"./..//x/." /\ is_absolute q = is_absolute §"./..//x/." /\ pathcomp q = Some q.
Proof.
  split; [vm_compute; reflexivity|]. apply (pathcomp_normal §"./..//x/.").
  - apply (bool_decide_unpack _). vm_compute. exact I.
  - done.
Defined.
