(* ===== verification/Cpuset.v ===== *)
(** The cpuset library
    (testcases/kernel/controllers/cpuset/cpuset_lib/libcpuset.c): the structure
    [cpuset] and its members, the settings files below the mount point, and
    creating, modifying, querying and deleting cpusets.  The kernel is the
    class [Kernel]; the static variables of the library are the record [lib]. *)
From Stdlib Require Import Ascii String ZArith Lia Bool.
From stdpp Require Import base list sets numbers.
From S2P Require Import Prelude CString Effects Bitmask CpusetText.

Local Open Scope Z_scope.

Definition ENOENT : Z := 2.
Definition ESRCH : Z := 3.
Definition ENXIO : Z := 6.
Definition E2BIG : Z := 7.
Definition ENOMEM : Z := 12.
Definition ENODEV : Z := 19.
Definition EINVAL : Z := 22.
Definition ENOSYS : Z := 38.

(** ** The kernel *)

(** A file that is opened and read: the error of [open] or of [read], or what it
    contains. *)
Inductive rfile :=
| NoOpen (e : Z)
| NoRead (e : Z)
| Contents (s : cstr).

(** System calls: the number of the error on the left. *)
Class Kernel := {
  kst : Type;
  k_read : cstr -> kst -> rfile;                (* open(O_RDONLY), read *)
  k_stat : cstr -> kst -> Z + (bool * Z);       (* a directory, modification time *)
  k_write : cstr -> cstr -> kst -> Z + kst;     (* open(O_WRONLY | O_CREAT), write *)
  k_mkdir : cstr -> kst -> Z + kst;
  k_rmdir : cstr -> kst -> Z + kst;
  k_readdir : cstr -> kst -> Z + list cstr;     (* opendir, all of readdir *)
  k_uname : kst -> Z + (cstr * cstr);           (* release, machine *)
}.

Inductive check_t := check_notdone | check_enosys | check_enodev | check_ok.

(** The kernel, [errno] and the static variables; [heap] are the results of the
    coming allocations, which succeed behind its end. *)
Record lib `{Kernel} := mkLib {
  kern : kst;
  errno : Z;
  heap : list bool;
  check_state : check_t;
  cpumask_sz : Z;
  nodemask_sz : Z;
  siblings : Z;
  susceptible_system : Z;
  cpunodemap : option (list Z) * Z;             (* map, mtime *)
}.
#[global] Arguments mkLib {_}.

(** ** The structure *)

Inductive flag :=
| cpu_exclusive | mem_exclusive | mem_hardwall | notify_on_release | memory_migrate
| memory_pressure_enabled | memory_spread_page | memory_spread_slab | sched_load_balance.

#[global] Instance flag_eq_dec : EqDecision flag.
Proof. solve_decision. Defined.

Definition flag_name (f : flag) : cstr :=
  match f with
  | cpu_exclusive => §"cpu_exclusive"
  | mem_exclusive => §"mem_exclusive"
  | mem_hardwall => §"mem_hardwall"
  | notify_on_release => §"notify_on_release"
  | memory_migrate => §"memory_migrate"
  | memory_pressure_enabled => §"memory_pressure_enabled"
  | memory_spread_page => §"memory_spread_page"
  | memory_spread_slab => §"memory_spread_slab"
  | sched_load_balance => §"sched_load_balance"
  end.

(** A member [x] with [x_valid] and [x_dirty]. *)
Record member (A : Type) := mkMem { val : A; valid : bool; dirty : bool }.
Arguments mkMem {A}.
Arguments val {A}.
Arguments valid {A}.
Arguments dirty {A}.

(** The masks are pointers, which may be NULL. *)
Record cpuset := mkCs {
  cpus : member (option bitmask);
  mems : member (option bitmask);
  flags : flag -> member Z;
  sched_relax_domain_level : member Z;
}.

Definition set_cpus (m : member (option bitmask)) (cp : cpuset) : cpuset :=
  mkCs m (mems cp) (flags cp) (sched_relax_domain_level cp).
Definition set_mems (m : member (option bitmask)) (cp : cpuset) : cpuset :=
  mkCs (cpus cp) m (flags cp) (sched_relax_domain_level cp).
Definition set_flag (f : flag) (m : member Z) (cp : cpuset) : cpuset :=
  mkCs (cpus cp) (mems cp) (fun g => if decide (g = f) then m else flags cp g)
    (sched_relax_domain_level cp).
Definition set_level (m : member Z) (cp : cpuset) : cpuset :=
  mkCs (cpus cp) (mems cp) (flags cp) m.

(** The cleared structure of [calloc]. *)
Definition cleared : cpuset :=
  mkCs (mkMem None false false) (mkMem None false false) (fun _ => mkMem 0 false false)
    (mkMem 0 false false).

(** The order in which [cpuset_set_iopt] and [cpuset_get_iopt] compare names. *)
Definition iopt_flags : list flag :=
  [cpu_exclusive; mem_exclusive; mem_hardwall; notify_on_release; memory_pressure_enabled;
   memory_migrate; memory_spread_page; memory_spread_slab; sched_load_balance].

Definition find_flag (l : list flag) (name : cstr) : option flag :=
  List.find (fun f => streq name (flag_name f)) l.

Definition cpuset_set_iopt (cp : cpuset) (optionname : cstr) (value : Z) : Z * cpuset :=
  match find_flag iopt_flags optionname with
  | Some f => (0, set_flag f (mkMem (Z.b2z (negb (value =? 0))) true true) cp)
  | None =>
      if streq optionname §"sched_relax_domain_level"
      then (0, set_level (mkMem value true true) cp)
      else (-2, cp)
  end.

Definition cpuset_get_iopt (cp : cpuset) (optionname : cstr) : Z :=
  match find_flag iopt_flags optionname with
  | Some f => val (flags cp f)
  | None =>
      if streq optionname §"sched_relax_domain_level" then val (sched_relax_domain_level cp) else -2
  end.

Section Library.
Context `{K : Kernel}.

Local Abbreviation M := (E lib).

(** ** Static variables, errors and memory *)

Definition set_kern (k : kst) (s : lib) : lib :=
  mkLib k (errno s) (heap s) (check_state s) (cpumask_sz s) (nodemask_sz s) (siblings s)
    (susceptible_system s) (cpunodemap s).
Definition set_errno (e : Z) (s : lib) : lib :=
  mkLib (kern s) e (heap s) (check_state s) (cpumask_sz s) (nodemask_sz s) (siblings s)
    (susceptible_system s) (cpunodemap s).
Definition set_heap (h : list bool) (s : lib) : lib :=
  mkLib (kern s) (errno s) h (check_state s) (cpumask_sz s) (nodemask_sz s) (siblings s)
    (susceptible_system s) (cpunodemap s).
Definition set_check (c : check_t) (s : lib) : lib :=
  mkLib (kern s) (errno s) (heap s) c (cpumask_sz s) (nodemask_sz s) (siblings s)
    (susceptible_system s) (cpunodemap s).
Definition set_sizes (c n : Z) (s : lib) : lib :=
  mkLib (kern s) (errno s) (heap s) (check_state s) c n (siblings s) (susceptible_system s)
    (cpunodemap s).
Definition set_siblings (n : Z) (s : lib) : lib :=
  mkLib (kern s) (errno s) (heap s) (check_state s) (cpumask_sz s) (nodemask_sz s) n
    (susceptible_system s) (cpunodemap s).
Definition set_susceptible (n : Z) (s : lib) : lib :=
  mkLib (kern s) (errno s) (heap s) (check_state s) (cpumask_sz s) (nodemask_sz s) (siblings s) n
    (cpunodemap s).
Definition set_map (m : option (list Z) * Z) (s : lib) : lib :=
  mkLib (kern s) (errno s) (heap s) (check_state s) (cpumask_sz s) (nodemask_sz s) (siblings s)
    (susceptible_system s) m.

(** What must not happen is undefined. *)
Definition some {A} (o : option A) : M A := match o with Some a => mret a | None => undefined end.

(** A system call that does not change the kernel. *)
Definition ask {A} (f : kst -> Z + A) : M (option A) := fun s =>
  match f (kern s) with
  | inl e => Done None (set_errno e s)
  | inr a => Done (Some a) s
  end.

(** A system call that changes the kernel: 0 or -1. *)
Definition sys (f : kst -> Z + kst) : M Z := fun s =>
  match f (kern s) with
  | inl e => Done (-1) (set_errno e s)
  | inr k => Done 0 (set_kern k s)
  end.

Definition read_file (path : cstr) : M rfile := fun s =>
  match k_read path (kern s) with
  | NoOpen e => Done (NoOpen e) (set_errno e s)
  | NoRead e => Done (NoRead e) (set_errno e s)
  | Contents t => Done (Contents t) s
  end.

(** [malloc] and [calloc]. *)
Definition malloc : M bool := fun s =>
  match heap s with
  | [] => Done true s
  | b :: h => Done b (set_heap h (if b then s else set_errno ENOMEM s))
  end.

Definition alloc_mask (n : Z) : M (option bitmask) :=
  m ← malloc;
  if m : bool then c ← malloc; mret (bitmask_alloc true c n) else mret None.

Definition check : M Z :=
  s ← get;
  _ ← match check_state s with
      | check_notdone =>
          a ← ask (k_stat §"/proc/self/cpuset");
          match a with
          | None => modify (set_check check_enosys)
          | Some _ =>
              b ← ask (k_stat §"/dev/cpuset/tasks");
              match b with
              | None => modify (set_check check_enodev)
              | Some _ => modify (set_check check_ok)
              end
          end
      | _ => mret tt
      end;
  s ← get;
  match check_state s with
  | check_enosys => _ ← modify (set_errno ENOSYS); mret (-1)
  | check_enodev => _ ← modify (set_errno ENODEV); mret (-1)
  | _ => mret 0
  end.

(** ** Sizes of the masks *)

Definition DEFCPUBITS : Z := 512.
Definition DEFNODEBITS : Z := DEFCPUBITS / 2.
Definition cpumask_prefix : cstr := §"Cpus_allowed:" ++ [TAB].
Definition nodemask_prefix : cstr := §"Mems_allowed:" ++ [TAB].

(** The lines [fgets(buf, fsize, fp)] returns: at most [n] characters, with the
    newline. *)
Fixpoint fgets_lines (fuel n : nat) (input : cstr) : list cstr :=
  match fuel with
  | O => []
  | S fuel =>
      match n, input with
      | O, _ | _, [] => []
      | _, _ =>
          let line := takewhile (fun c => negb (ceqb c LF)) input in
          let line := if (length line <? length input)%nat then line ++ [LF] else line in
          let line := take n line in
          line :: fgets_lines fuel n (drop (length line) input)
      end
  end.

Definition mask_size_line (sz : Z * Z) (buf : cstr) : Z * Z :=
  let buf := cstr_of buf in
  let c := if strprefix buf cpumask_prefix then s2nbits (drop (length cpumask_prefix) buf) else sz.1 in
  let n := if strprefix buf nodemask_prefix then s2nbits (drop (length nodemask_prefix) buf) else sz.2 in
  (c, n).

Definition update_mask_sizes : M unit :=
  s0 ← get;
  f ← read_file §"/proc/self/status";
  sz ← match f with
       | NoOpen _ => mret (cpumask_sz s0, nodemask_sz s0)
       | _ =>
           let text := match f with Contents t => t | _ => [] end in
           m ← malloc;
           if m : bool
           then _ ← require (negb (length text =? 1)%nat);   (* fgets(buf, 1, fp) for ever *)
                mret (fold_left mask_size_line (fgets_lines (length text) (length text - 1) text)
                        (cpumask_sz s0, nodemask_sz s0))
           else mret (cpumask_sz s0, nodemask_sz s0)
       end;
  modify (set_sizes (if sz.1 =? 0 then DEFCPUBITS else sz.1)
                    (if sz.2 =? 0 then DEFNODEBITS else sz.2)).

Definition cpuset_cpus_nbits : M Z :=
  s ← get;
  _ ← when (cpumask_sz s =? 0) update_mask_sizes;
  gets cpumask_sz.

Definition cpuset_mems_nbits : M Z :=
  s ← get;
  _ ← when (nodemask_sz s =? 0) update_mask_sizes;
  gets nodemask_sz.

(** ** Members *)

Definition cpuset_alloc : M (option cpuset) :=
  m ← malloc;
  if m : bool then
    nbits ← cpuset_cpus_nbits;
    c ← alloc_mask nbits;
    match c with
    | None => mret None
    | Some c =>
        nbits ← cpuset_mems_nbits;
        n ← alloc_mask nbits;
        match n with
        | None => mret None
        | Some n =>
            mret (Some (set_mems (mkMem (Some n) false false)
                         (set_cpus (mkMem (Some c) false false) cleared)))
        end
    end
  else mret None.

Definition cpuset_setcpus (cp : cpuset) (b : bitmask) : M (Z * cpuset) :=
  m ← alloc_mask (size b);
  match m with
  | None => mret (-1, set_cpus (mkMem None (valid (cpus cp)) (dirty (cpus cp))) cp)
  | Some m => mret (0, set_cpus (mkMem (Some (bitmask_copy m (Other b))) true true) cp)
  end.

Definition cpuset_setmems (cp : cpuset) (b : bitmask) : M (Z * cpuset) :=
  m ← alloc_mask (size b);
  match m with
  | None => mret (-1, set_mems (mkMem None (valid (mems cp)) (dirty (mems cp))) cp)
  | Some m => mret (0, set_mems (mkMem (Some (bitmask_copy m (Other b))) true true) cp)
  end.

(** ** Paths of cpusets *)

Definition cpusetmnt : cstr := §"/dev/cpuset".

(** [cpuset_getcpusetpath]: whether it is not NULL, and the string in [buf];
    [None] when the buffer holds no terminated string. *)
Definition cpuset_getcpusetpath (pid : Z) (size : nat) : M (bool * option cstr) :=
  c ← check;
  if c <? 0 then mret (false, Some [])
  else
    let name := if pid =? 0 then §"/proc/self/cpuset" else §"/proc/" ++ fmt_d pid ++ §"/cpuset" in
    if (size <=? length name)%nat then
      _ ← modify (set_errno E2BIG); mret (false, Some (snprintf_buf size name))
    else
      f ← read_file name;
      match f with
      | NoOpen e =>
          let e := if e =? ENOENT then ESRCH else e in
          g ← read_file §"/proc/self/cpuset";
          _ ← modify (set_errno (match g with NoOpen _ => ENOSYS | _ => e end));
          mret (false, Some name)
      | NoRead _ => mret (false, Some name)
      | Contents t =>
          if (size <=? length t)%nat then _ ← modify (set_errno E2BIG); mret (false, None)
          else mret (true, Some (chomp (cstr_of t)))
      end.

(** [strcat(buf, "/"); strcat(buf, name); pathcomp(buf)] behind the test of the
    length, which is computed with [size_t]. *)
Definition cat_checked (buflen : nat) (buf name : cstr) : M (Z * option cstr) :=
  if u64 (Z.of_nat buflen - 1 - Z.of_nat (length name)) <=? Z.of_nat (length buf) then
    _ ← modify (set_errno E2BIG); mret (-1, Some buf)
  else
    _ ← require (length buf + length name + 2 <=? buflen)%nat;
    p ← some (pathcomp (buf ++ §"/" ++ name));
    mret (0, Some p).

(** The return value and the string in [buf]. *)
Definition fullpath (buflen : nat) (name : cstr) : M (Z * option cstr) :=
  if is_absolute name then
    p ← some (pathcat2 buflen cpusetmnt name);
    p ← some (pathcomp p);
    mret (0, Some p)
  else
    let buf := snprintf_buf buflen (cpusetmnt ++ §"/") in
    r ← cpuset_getcpusetpath 0 (buflen - length buf);
    match r with
    | (false, rest) => mret (-1, option_map (app buf) rest)
    | (true, None) => undefined
    | (true, Some rest) => cat_checked buflen (buf ++ rest) name
    end.

Definition fullpath2 (buflen : nat) (name1 name2 : cstr) : M (Z * option cstr) :=
  r ← fullpath buflen name1;
  match r with
  | (rc, b) => if rc <? 0 then mret (-1, b) else buf ← some b; cat_checked buflen buf name2
  end.

(** A call whose return value is not used. *)
Definition full_path (name : cstr) : M cstr := r ← fullpath PATH_MAX name; some r.2.
Definition full_path2 (name1 name2 : cstr) : M cstr := r ← fullpath2 PATH_MAX name1 name2; some r.2.

(** ** Files *)

(** [atoi(buf)] on what [read] left in a buffer that is not terminated: the
    number must end inside it. *)
Definition atoi_read (t : cstr) : M Z :=
  let rest := match strto 10 t with
              | Some (_, _, r) => r
              | None => (scan_sign (dropwhile isspace t)).2
              end in
  _ ← require (negb (bool_decide (rest = [])));
  mret (atoi t).

(** [read(fd, buf, sizeof(buf))] of a small file: [None] below one byte. *)
Definition read_small (path : cstr) : M (option cstr) :=
  f ← read_file path;
  match f with
  | Contents (c :: t) => mret (Some (take SMALL_BUFSZ (c :: t)))
  | _ => mret None
  end.

(** The new value of the flag, [None] for -1. *)
Definition read_flag (filepath : cstr) : M (option Z) :=
  b ← read_small filepath;
  match b with
  | None => mret None
  | Some t => v ← atoi_read t; mret (Some (Z.b2z (negb (v =? 0))))
  end.

Definition load_flag (path : cstr) (flag : cstr) : M (option Z) :=
  buf ← some (pathcat2 PATH_MAX path flag);
  read_flag buf.

Definition read_number (filepath : cstr) : M (option Z) :=
  b ← read_small filepath;
  match b with
  | None => mret None
  | Some t => v ← atoi_read t; mret (Some v)
  end.

Definition load_number (path : cstr) (file : cstr) : M (option Z) :=
  buf ← some (pathcat2 PATH_MAX path file);
  read_number buf.

(** [bitmask_parselist]; a step of 0 loops for ever. *)
Definition parselist (arg : option cstr) (b : bitmask) : M (Z * bitmask) :=
  match arg with
  | None => mret (0, bitmask_clearall b)
  | Some a => some (bitmask_parselist (S (Z.to_nat (size b))) a b)
  end.

(** The mask that is read, [None] for -1. *)
Definition read_mask (filepath : cstr) (nbits : Z) : M (option bitmask) :=
  f ← read_file filepath;
  match f with
  | NoOpen _ => mret None
  | _ =>
      let text := match f with Contents t => t | _ => [] end in
      m ← malloc;
      if m : bool then
        match flgets (length text + 1) text with
        | None => mret None
        | Some (line, _) =>
            let buf := cstr_of line in
            b ← alloc_mask nbits;
            match b with
            | None => mret None
            | Some b =>
                if bool_decide (buf = []) then mret (Some b)
                else r ← parselist (Some buf) b;
                     mret (if r.1 <? 0 then None else Some r.2)
            end
        end
      else mret None
  end.

Definition load_mask (path : cstr) (nbits : Z) (mask : cstr) : M (option bitmask) :=
  buf ← some (pathcat2 PATH_MAX path mask);
  read_mask buf nbits.

Definition write_string_file (filepath text : cstr) : M Z := sys (k_write filepath text).

Definition sprint_mask_buf (b : bitmask) : M (option cstr) :=
  let buflen := snd (bitmask_displaylist 1 b) + 1 in
  m ← malloc;
  mret (if m : bool then Some (fst (bitmask_displaylist buflen b)) else None).

Definition exists_flag (path flag : cstr) : M bool :=
  buf ← some (pathcat2 PATH_MAX path flag);
  r ← ask (k_stat buf);
  _ ← modify (set_errno 0);
  mret (bool_decide (is_Some r)).

Definition store_flag (path flag : cstr) (v : Z) : M Z :=
  buf ← some (pathcat2 PATH_MAX path flag);
  write_string_file buf (if v =? 0 then §"0" else §"1").

Definition store_number (path file : cstr) (v : Z) : M Z :=
  buf ← some (pathcat2 PATH_MAX path file);
  write_string_file buf (snprintf_buf SMALL_BUFSZ (fmt_d v)).

Definition store_mask (path mask : cstr) (bmp : option bitmask) : M Z :=
  match bmp with
  | None => mret 0
  | Some b =>
      maskpath ← some (pathcat2 PATH_MAX path mask);
      bp ← sprint_mask_buf b;
      match bp with
      | None => mret (-1)
      | Some bp => write_string_file maskpath bp
      end
  end.

(** ** Settings *)

(** The flags in the order of [apply_cpuset_settings]; the later ones only where
    the kernel has the file. *)
Definition apply_flags : list (flag * bool) :=
  [(cpu_exclusive, false); (mem_exclusive, false); (mem_hardwall, false);
   (notify_on_release, false); (memory_migrate, true); (memory_pressure_enabled, true);
   (memory_spread_page, true); (memory_spread_slab, true); (sched_load_balance, true)].

Definition to_apply {A} (m : member A) : bool := valid m && dirty m.

Fixpoint apply_flag_loop (path : cstr) (cp : cpuset) (l : list (flag * bool)) : M Z :=
  match l with
  | [] => mret 0
  | (f, optional) :: l =>
      e ← (if to_apply (flags cp f)
           then if optional : bool then exists_flag path (flag_name f) else mret true
           else mret false);
      r ← (if e : bool then store_flag path (flag_name f) (val (flags cp f)) else mret 0);
      if r <? 0 then mret (-1) else apply_flag_loop path cp l
  end.

Definition apply_cpuset_settings (path : cstr) (cp : cpuset) : M Z :=
  r ← apply_flag_loop path cp apply_flags;
  if r <? 0 then mret (-1)
  else
    let lev := sched_relax_domain_level cp in
    e ← (if to_apply lev then exists_flag path §"sched_relax_domain_level" else mret false);
    r ← (if e : bool then store_number path §"sched_relax_domain_level" (val lev) else mret 0);
    if r <? 0 then mret (-1)
    else
      r ← (if to_apply (cpus cp) then store_mask path §"cpus" (val (cpus cp)) else mret 0);
      if r <? 0 then mret (-1)
      else
        r ← (if to_apply (mems cp) then store_mask path §"mems" (val (mems cp)) else mret 0);
        if r <? 0 then mret (-1) else mret 0.

(** The flags in the order of [cpuset_query]. *)
Definition query_flags : list (flag * bool) :=
  [(cpu_exclusive, false); (mem_exclusive, false); (notify_on_release, false);
   (memory_migrate, true); (mem_hardwall, true); (memory_pressure_enabled, true);
   (memory_spread_page, true); (memory_spread_slab, true); (sched_load_balance, true)].

(** A member that was read: its value is replaced and it becomes valid. *)
Definition loaded {A} (v : A) (m : member A) : member A := mkMem v true (dirty m).

Fixpoint query_flag_loop (buf : cstr) (cp : cpuset) (l : list (flag * bool)) : M (Z * cpuset) :=
  match l with
  | [] => mret (0, cp)
  | (f, optional) :: l =>
      e ← (if optional : bool then exists_flag buf (flag_name f) else mret true);
      if e : bool then
        r ← load_flag buf (flag_name f);
        match r with
        | None => mret (-1, cp)
        | Some v => query_flag_loop buf (set_flag f (loaded v (flags cp f)) cp) l
        end
      else query_flag_loop buf cp l
  end.

(** The return value and the structure, which keeps what was read before an
    error. *)
Definition cpuset_query (cp : cpuset) (relpath : cstr) : M (Z * cpuset) :=
  c ← check;
  if c <? 0 then mret (-1, cp)
  else
    buf ← full_path relpath;
    r ← query_flag_loop buf cp query_flags;
    let cp := r.2 in
    if r.1 <? 0 then mret (-1, cp)
    else
      e ← exists_flag buf §"sched_relax_domain_level";
      lev ← (if e : bool then load_number buf §"sched_relax_domain_level" else mret None);
      if (e : bool) && bool_decide (lev = None) then mret (-1, cp)
      else
        let cp := match lev with
                  | Some v => set_level (loaded v (sched_relax_domain_level cp)) cp
                  | None => cp
                  end in
        nc ← cpuset_cpus_nbits;
        b ← load_mask buf nc §"cpus";
        match b with
        | None => mret (-1, cp)
        | Some b =>
            let cp := set_cpus (loaded (Some b) (cpus cp)) cp in
            nm ← cpuset_mems_nbits;
            b ← load_mask buf nm §"mems";
            match b with
            | None => mret (-1, cp)
            | Some b => mret (0, set_mems (loaded (Some b) (mems cp)) cp)
            end
        end.

(** ** Kernels that would crash *)

(** [sscanf(buf, "siblings : %d", &s)]: blanks match any white space. *)
Definition sscanf_siblings (buf : cstr) : option Z :=
  let key := §"siblings" in
  if is_prefix key buf then
    match dropwhile isspace (drop (length key) buf) with
    | c :: r =>
        if ceqb c ":" then
          match strto 10 r with
          | Some _ => Some (s32 (strtol 10 r).1.1)
          | None => None
          end
        else None
    | [] => None
    end
  else None.

Fixpoint siblings_loop (fuel : nat) (input : cstr) (sib : Z) : Z :=
  match fuel with
  | O => sib
  | S fuel =>
      match flgets 32 input with
      | None => sib
      | Some (line, r) =>
          let sib := match sscanf_siblings (cstr_of line) with
                     | Some v => if sib <? v then v else sib
                     | None => sib
                     end in
          siblings_loop fuel r sib
      end
  end.

Definition get_siblings : M Z :=
  s ← get;
  if negb (siblings s =? 0) then mret (siblings s)
  else
    f ← read_file §"/proc/cpuinfo";
    match f with
    | NoOpen _ => mret 4
    | _ =>
        let text := match f with Contents t => t | _ => [] end in
        let n := siblings_loop (S (length text)) text 0 in
        let n := if n =? 0 then 1 else n in
        _ ← modify (set_siblings n);
        mret n
    end.

(** [for (cpu = 0; cpu < ncpus; cpu += siblings)]: whether some package has a
    proper part of its CPUs in the mask. *)
Fixpoint split_package (fuel : nat) (b : bitmask) (ncpus sib cpu : Z) : bool :=
  match fuel with
  | O => false
  | S fuel =>
      if cpu <? ncpus then
        let num_set := fold_left (fun n s => if bitmask_isbitset b (u32 (cpu + s)) then n + 1 else n)
                         (seqZ 0 sib) 0 in
        if (num_set =? 0) || (num_set =? sib) then split_package fuel b ncpus sib (u32 (cpu + sib))
        else true
      else false
  end.

(** 1 when the settings would crash the kernel. *)
Definition cpuset_would_crash_kernel (cp : cpuset) : M Z :=
  if val (flags cp cpu_exclusive) =? 0 then mret 0
  else
    s ← get;
    ok ← (if susceptible_system s =? -1 then
            u ← ask k_uname;
            match u with
            | None => mret false
            | Some (release, machine) =>
                _ ← modify (set_susceptible (Z.b2z (strprefix release §"2.6.16." &&
                      (streq machine §"i386" || streq machine §"x86_64"))));
                mret true
            end
          else mret true);
    if negb ok then mret 1
    else
      s ← get;
      if susceptible_system s =? 0 then mret 0
      else
        ncpus ← cpuset_cpus_nbits;
        sib ← get_siblings;
        b ← some (val (cpus cp));
        if split_package (Z.to_nat ncpus) b ncpus sib 0
        then _ ← modify (set_errno ENXIO); mret 1
        else mret 0.

(** ** Creating and modifying *)

Definition mark {A} (differs : bool) (m : member A) : member A :=
  if valid m && differs then mkMem (val m) true true else m.

(** The comparison of the masks, which must be there when [cp1] has a valid one. *)
Definition mark_mask (m1 m2 : member (option bitmask)) : M (member (option bitmask)) :=
  if valid m1 then
    b1 ← some (val m1);
    b2 ← some (val m2);
    mret (mark (negb (bitmask_equal b1 b2)) m1)
  else mret m1.

Definition mark_dirty_variable (cp1 cp2 : cpuset) : M cpuset :=
  let fl := fun f => mark (negb (val (flags cp1 f) =? val (flags cp2 f))) (flags cp1 f) in
  let lev := mark (negb (val (sched_relax_domain_level cp1) =? val (sched_relax_domain_level cp2)))
               (sched_relax_domain_level cp1) in
  c ← mark_mask (cpus cp1) (cpus cp2);
  n ← mark_mask (mems cp1) (mems cp2);
  mret (mkCs c n fl lev).

(** The error exit of [cr_or_mod]. *)
Definition restore (buf : option cstr) (cp_sav : option cpuset) (do_rmdir : bool) : M Z :=
  sav_errno ← gets errno;
  _ ← match buf, cp_sav with
      | Some buf, Some cp_sav => _ ← apply_cpuset_settings buf cp_sav; mret tt
      | _, _ => mret tt
      end;
  _ ← match buf with
      | Some buf => when do_rmdir (_ ← sys (k_rmdir buf); mret tt)
      | None => mret tt
      end;
  _ ← modify (set_errno sav_errno);
  mret (-1).

(** [cr_or_mod] once the directory [buf] is there: the old settings are read and
    the new ones applied. *)
Definition apply_or_restore (buf relpath : cstr) (cp : cpuset) (new : bool) : M Z :=
  a ← cpuset_alloc;
  match a with
  | None => restore (Some buf) None new
  | Some a =>
      q ← cpuset_query a relpath;
      if q.1 <? 0 then restore (Some buf) None new
      else
        cp_sav ← mark_dirty_variable q.2 cp;
        r ← apply_cpuset_settings buf cp;
        if r <? 0 then restore (Some buf) (Some cp_sav) new
        else mret 0
  end.

Definition cr_or_mod (relpath : cstr) (cp : cpuset) (new : bool) : M Z :=
  c ← check;
  if c <? 0 then restore None None false
  else
    w ← cpuset_would_crash_kernel cp;
    if negb (w =? 0) then restore None None false
    else
      buf ← full_path relpath;
      r ← (if new then sys (k_mkdir buf) else mret 0);
      if r <? 0 then restore None None false
      else apply_or_restore buf relpath cp new.

Definition cpuset_create (relpath : cstr) (cp : cpuset) : M Z := cr_or_mod relpath cp true.
Definition cpuset_modify (relpath : cstr) (cp : cpuset) : M Z := cr_or_mod relpath cp false.

Definition cpuset_delete (relpath : cstr) : M Z :=
  c ← check;
  if c <? 0 then mret (-1)
  else
    buf ← full_path relpath;
    sys (k_rmdir buf).

Definition cpuset_cpusetofpid (cp : cpuset) (pid : Z) : M (Z * cpuset) :=
  r ← cpuset_getcpusetpath pid PATH_MAX;
  match r with
  | (true, b) => buf ← some b; q ← cpuset_query cp buf; mret (if q.1 <? 0 then (-1, q.2) else (0, q.2))
  | (false, _) => mret (-1, cp)
  end.
End Library.
