(* ===== verification/CpusetFiles.v ===== *)
(** The settings files of a cpuset: their paths, what the library reads from a
    file that shows a flag, a number or a mask, and the laws of the cpuset file
    system the library relies on. *)
From Stdlib Require Import Ascii String ZArith Lia Bool.
From stdpp Require Import base list sets numbers.
From S2P Require Import Prelude CString Effects Bitmask BitmaskText CpusetText Cpuset.

Local Open Scope Z_scope.

(** ** Paths *)

Lemma strtok_all_app seps c a b :
  c ∈ seps -> strtok_all seps (a ++ c :: b) = strtok_all seps a ++ strtok_all seps b.
Proof.
  intros Hc. remember (length a) as n eqn:En. revert a En.
  induction n as [n IH] using lt_wf_ind. intros a ->. destruct a as [|x a].
  - cbn [app]. now rewrite strtok_all_sep.
  - destruct (decide (x ∈ seps)) as [Hx|Hx].
    + cbn [app]. rewrite !(strtok_all_sep seps x) by done. apply (IH (length a)); [cbn; lia|done].
    + pose proof (take_drop_while (fun y => negb (memc y seps)) (x :: a)) as E.
      set (t := takewhile _ _) in E. set (r := dropwhile _ _) in E.
      assert (Ht : t <> [] /\ Forall (fun y => y ∉ seps) t).
      { split.
        - subst t. cbn [takewhile]. rewrite (proj2 (memc_false x seps)) by done. done.
        - eapply Forall_impl; [|apply takewhile_all]. cbn. intros y Hy.
          now apply memc_false, negb_true_iff. }
      destruct Ht as [Hne Ht]. rewrite <- E. destruct r as [|y r'] eqn:Er.
      * rewrite app_nil_r. now rewrite strtok_all_token, (strtok_all_last seps t) by done.
      * apply dropwhile_head in Er as Hy. apply negb_false_iff, memc_true in Hy.
        rewrite <- app_assoc. cbn [app]. rewrite (strtok_all_token seps t y (r' ++ c :: b)), (strtok_all_token seps t y r') by done.
        cbn [app]. f_equal.
        apply (IH (length r')); [|done].
        pose proof (f_equal length E) as El. rewrite length_app in El. cbn in *. lia.
Qed.

Lemma components_app a b : components (a ++ §"/" ++ b) = components a ++ components b.
Proof.
  unfold components. change (§"/" ++ b) with (SL :: b).
  rewrite strtok_all_app by (change (§"/") with [SL]; set_solver). apply list.filter_app.
Qed.

(** The directory of the cpuset [relpath] and its files. *)
Definition dir_of (relpath : cstr) : cstr := path_of true ([§"dev"; §"cpuset"] ++ components relpath).
Definition fpath (dir file : cstr) : cstr := dir ++ §"/" ++ file.

Lemma dir_comps relpath :
  NUL ∉ relpath -> Forall path_comp ([§"dev"; §"cpuset"] ++ components relpath).
Proof.
  intros Hn. apply Forall_app. split; [|now apply components_ok].
  repeat apply List.Forall_cons; [| |apply List.Forall_nil];
    (split; [split; [done|apply (bool_decide_unpack _); vm_compute; exact I]|]);
    (split; [done|apply (bool_decide_unpack _); vm_compute; exact I]).
Qed.

Lemma mnt_nul : NUL ∉ cpusetmnt ++ §"/".
Proof. apply (bool_decide_unpack _). vm_compute. exact I. Qed.

Lemma pathcomp_dir relpath :
  NUL ∉ relpath -> pathcomp (cpusetmnt ++ §"/" ++ relpath) = Some (dir_of relpath).
Proof.
  intros Hn. rewrite pathcomp_path; [|rewrite app_assoc, not_elem_of_app; split; [apply mnt_nul|done]|done].
  now rewrite components_app.
Qed.

(** The last component of the path [dir/file]. *)
Lemma pathcat2_file relpath file :
  NUL ∉ relpath -> path_comp file -> (length (fpath (dir_of relpath) file) < PATH_MAX)%nat ->
  pathcat2 PATH_MAX (dir_of relpath) file = Some (fpath (dir_of relpath) file).
Proof.
  intros Hn Hf Hl. unfold pathcat2, snprintf_buf. fold (fpath (dir_of relpath) file).
  rewrite take_ge by lia. pose proof (dir_comps relpath Hn) as Hd.
  assert (E : fpath (dir_of relpath) file =
              path_of true (([§"dev"; §"cpuset"] ++ components relpath) ++ [file])).
  { unfold fpath, dir_of, path_of. cbn [app]. rewrite <- !app_assoc, !join_concat. f_equal.
    change (§"cpuset" :: components relpath ++ [file]) with ((§"cpuset" :: components relpath) ++ [file]).
    rewrite map_app, concat_app. rewrite <- app_assoc. f_equal. f_equal. cbn [map concat]. now rewrite app_nil_r. }
  rewrite E. apply pathcomp_path_of. apply Forall_app. split; [done|].
  apply List.Forall_cons; [done|constructor].
Qed.

Section Paths.
Context `{K : Kernel}.

(** An absolute path is resolved without asking the kernel. *)
Lemma fullpath_abs relpath s :
  is_absolute relpath = true -> NUL ∉ relpath -> (length relpath + 13 < PATH_MAX)%nat ->
  fullpath PATH_MAX relpath s = Done (0, Some (dir_of relpath)) s.
Proof.
  intros Ha Hn Hl. unfold fullpath. rewrite Ha. unfold pathcat2, snprintf_buf.
  rewrite take_ge by (rewrite !length_app; cbn [length cpusetmnt str]; change (length cpusetmnt) with 11%nat;
    change (length §"/") with 1%nat; lia).
  rewrite pathcomp_dir by done. unfold mbind, E_bind, mret, E_ret, dir_of. cbn [some].
  unfold mret, E_ret. rewrite pathcomp_path_of by now apply dir_comps. done.
Qed.

Lemma full_path_abs relpath s :
  is_absolute relpath = true -> NUL ∉ relpath ->
  (length relpath + 13 < PATH_MAX)%nat -> full_path relpath s = Done (dir_of relpath) s.
Proof. intros Ha Hn Hl. unfold full_path. now rewrite (bind_Done _ _ _ s s (fullpath_abs relpath s Ha Hn Hl)). Qed.
End Paths.

(** ** Settings *)

Inductive setting := SFlag (f : flag) | SLevel | SCpus | SMems.

#[global] Instance setting_eq_dec : EqDecision setting.
Proof. solve_decision. Defined.

Definition setting_name (x : setting) : cstr :=
  match x with
  | SFlag f => flag_name f
  | SLevel => §"sched_relax_domain_level"
  | SCpus => §"cpus"
  | SMems => §"mems"
  end.

Lemma setting_name_comp x : path_comp (setting_name x) /\ (length (setting_name x) <= 24)%nat.
Proof.
  destruct x as [[]| | |]; (split; [split; [split; [done|apply (bool_decide_unpack _); vm_compute; exact I]|];
    split; [done|apply (bool_decide_unpack _); vm_compute; exact I]|vm_compute; lia]).
Qed.

Lemma setting_name_inj x y : setting_name x = setting_name y -> x = y.
Proof. destruct x as [[]| | |], y as [[]| | |]; intros E; (reflexivity || (vm_compute in E; discriminate E)). Qed.

Lemma fpath_inj dir x y : fpath dir (setting_name x) = fpath dir (setting_name y) -> x = y.
Proof. intros E%app_inv_head%app_inv_head. now apply setting_name_inj. Qed.

(** A path whose files the library can name. *)
Record relpath_ok (relpath : cstr) : Prop := {
  rp_abs : is_absolute relpath = true;
  rp_nul : NUL ∉ relpath;
  rp_len : (length relpath + 40 < PATH_MAX)%nat;
}.

Definition slashed (l : list cstr) : cstr := concat (map (fun c => §"/" ++ c) l).

Lemma strtok_lengths seps p t r :
  strtok seps p = Some (t, r) ->
  (r = [] /\ length t <= length p)%nat \/ (length t + 1 + length r <= length p)%nat.
Proof.
  unfold strtok. pose proof (dropwhile_length (fun c => memc c seps) p) as H1.
  destruct (dropwhile _ p) as [|c s]; [done|].
  pose proof (f_equal length (take_drop_while (fun c => negb (memc c seps)) (c :: s))) as H2.
  rewrite length_app in H2. set (a := takewhile _ _) in *. set (b := dropwhile _ _) in *. clearbody a b.
  destruct b as [|y u]; intros [= <- <-]; [left|right]; cbn [length tail] in *; [split; [done|]|]; lia.
Qed.

Lemma slashed_tokens p :
  (length (slashed (strtok_all §"/" p)) <= match p with [] => 0 | _ => S (length p) end)%nat.
Proof.
  remember (length p) as n eqn:En. revert p En.
  induction n as [n IH] using lt_wf_ind. intros p ->. rewrite strtok_all_unfold.
  destruct (strtok §"/" p) as [[t r]|] eqn:E; [|cbn; lia].
  pose proof (strtok_shorter _ _ _ _ E) as Hr. specialize (IH (length r) Hr r eq_refl).
  apply strtok_lengths in E. destruct p as [|x p]; [cbn in Hr; lia|].
  unfold slashed in *. cbn [map concat]. rewrite !length_app. change (length §"/") with 1%nat.
  destruct E as [[-> E]|E]; [lia|]. destruct r; lia.
Qed.

Lemma slashed_filter (l : list cstr) (P : cstr -> Prop) `{forall c, Decision (P c)} :
  (length (slashed (filter P l)) <= length (slashed l))%nat.
Proof.
  unfold slashed. induction l as [|c l IH]; [done|]. rewrite filter_cons. destruct (decide (P c));
    cbn [map concat]; rewrite ?length_app in *; lia.
Qed.

Lemma fpath_length relpath x :
  relpath_ok relpath -> (length (fpath (dir_of relpath) (setting_name x)) < PATH_MAX)%nat.
Proof.
  intros [_ Hn Hl]. unfold fpath, dir_of, path_of. cbn [app]. rewrite join_concat.
  cbn [map concat]. fold (slashed (components relpath)). rewrite !length_app.
  destruct (setting_name_comp x) as [_ Hx]. pose proof (slashed_tokens relpath).
  pose proof (slashed_filter (strtok_all §"/" relpath) (fun c => c <> §".")) as Hf. fold (components relpath) in Hf.
  assert (length (slashed (components relpath)) <= S (length relpath))%nat by (destruct relpath; cbn in *; lia).
  change (length §"/") with 1%nat. change (length §"dev") with 3%nat. change (length §"cpuset") with 6%nat. lia.
Qed.

Lemma pathcat2_setting relpath x :
  relpath_ok relpath ->
  pathcat2 PATH_MAX (dir_of relpath) (setting_name x) = Some (fpath (dir_of relpath) (setting_name x)).
Proof.
  intros Hr. destruct (setting_name_comp x) as [Hx _].
  apply pathcat2_file; [apply Hr|done|now apply fpath_length].
Qed.

(** What a cpuset is set to; a file the kernel does not have shows nothing. *)
Record settings := mkSt {
  st_flags : flag -> option bool;
  st_level : option Z;
  st_cpus : bitmask;
  st_mems : bitmask;
}.

Definition flag_text (v : bool) : cstr := if v then §"1" else §"0".

Definition text_of (a : settings) (x : setting) : option cstr :=
  match x with
  | SFlag f => option_map flag_text (st_flags a f)
  | SLevel => option_map fmt_d (st_level a)
  | SCpus => Some (list_text (st_cpus a))
  | SMems => Some (list_text (st_mems a))
  end.

(** The cpuset file system: no file can be created; a value that is taken is
    shown with a newline from then on; and the other files stay as they are. *)
Definition file_exists `{Kernel} (p : cstr) (k : kst) : bool :=
  match k_stat p k with inl _ => false | inr _ => true end.

Class CpusetFs `{K : Kernel} : Prop := {
  fs_no_create dir x v k :
    file_exists (fpath dir (setting_name x)) k = false ->
    exists e, k_write (fpath dir (setting_name x)) v k = inl e;
  fs_write_shown dir x v k k' :
    k_write (fpath dir (setting_name x)) v k = inr k' ->
    k_read (fpath dir (setting_name x)) k' = Contents (v ++ [LF]);
  fs_write_other dir x v k k' p :
    k_write (fpath dir (setting_name x)) v k = inr k' -> p <> fpath dir (setting_name x) ->
    k_read p k' = k_read p k;
  fs_write_exists dir x v k k' p :
    k_write (fpath dir (setting_name x)) v k = inr k' -> file_exists p k' = file_exists p k;
}.

Section Shows.
Context `{FS : CpusetFs}.

Definition texts_t : Type := setting -> option cstr.

(** The directory shows these texts. *)
Definition shows (dir : cstr) (B : texts_t) (k : kst) : Prop :=
  forall x, match B x with
            | Some v => file_exists (fpath dir (setting_name x)) k = true /\
                        k_read (fpath dir (setting_name x)) k = Contents (v ++ [LF])
            | None => file_exists (fpath dir (setting_name x)) k = false
            end.

Definition put_text (x : setting) (v : cstr) (B : texts_t) : texts_t :=
  fun y => if decide (y = x) then Some v else B y.

Lemma shows_ext dir B B' k : (forall x, B x = B' x) -> shows dir B k -> shows dir B' k.
Proof. intros E H x. rewrite <- E. apply H. Qed.

Lemma shows_write dir B x v k k' :
  shows dir B k -> k_write (fpath dir (setting_name x)) v k = inr k' ->
  is_Some (B x) /\ shows dir (put_text x v B) k'.
Proof.
  intros H E. split.
  - specialize (H x). destruct (B x); [done|].
    destruct (fs_no_create dir x v k H) as [e Ee]. congruence.
  - intros y. unfold put_text. rewrite (fs_write_exists dir x v k k' _ E). destruct (decide (y = x)) as [->|Hy].
    + split; [|now apply (fs_write_shown dir x v k)].
      specialize (H x). destruct (B x) as [w|]; [apply H|].
      destruct (fs_no_create dir x v k H) as [e Ee]. congruence.
    + specialize (H y). destruct (B y) as [w|]; [|done].
      rewrite (fs_write_other dir x v k k' _ E); [done|]. intros Ep%fpath_inj. congruence.
Qed.

(** ** Steps that leave the static variables alone *)

Record keeps (s s' : lib) : Prop := {
  keeps_heap : heap s' = heap s;
  keeps_check : check_state s' = check_state s;
  keeps_cpus : cpumask_sz s' = cpumask_sz s;
  keeps_mems : nodemask_sz s' = nodemask_sz s;
  keeps_siblings : siblings s' = siblings s;
  keeps_susceptible : susceptible_system s' = susceptible_system s;
  keeps_map : cpunodemap s' = cpunodemap s;
}.

#[global] Instance keeps_preorder : PreOrder keeps.
Proof.
  split; [done|]. intros s1 s2 s3 [] []. split; congruence.
Qed.

(** Only [errno] may change. *)
Definition quiet (s s' : lib) : Prop := keeps s s' /\ kern s' = kern s.

#[global] Instance quiet_preorder : PreOrder quiet.
Proof.
  split; [done|]. intros s1 s2 s3 [H1 E1] [H2 E2]. split; [etransitivity; eassumption|congruence].
Qed.

Lemma bind_some {A B} (a : A) (f : A -> E lib B) s : (some (Some a) ≫= f) s = f a s.
Proof. done. Qed.

Lemma ends_step {S A B} (m : E S A) (f : A -> E S B) a s s' Q :
  m s = Done a s' -> ends (f a) Q s' -> ends (m ≫= f) Q s.
Proof. intros E. unfold ends, mbind, E_bind. now rewrite E. Qed.

Lemma ends_eq {S A} (m m' : E S A) s Q : m s = m' s -> ends m' Q s -> ends m Q s.
Proof. intros E. unfold ends. now rewrite E. Qed.

Lemma ends_intro {S A} (m : E S A) a s s' Q : m s = Done a s' -> Q a s' -> ends m Q s.
Proof. intros E. unfold ends. now rewrite E. Qed.

Lemma ends_some {A} (o : option A) a Q s : o = Some a -> Q a s -> ends (some o) Q s.
Proof. now intros ->. Qed.

Lemma exists_flag_ok relpath x s :
  relpath_ok relpath ->
  ends (exists_flag (dir_of relpath) (setting_name x))
    (fun b s' => b = file_exists (fpath (dir_of relpath) (setting_name x)) (kern s) /\ quiet s s') s.
Proof.
  intros Hr. unfold exists_flag. rewrite (pathcat2_setting relpath x Hr).
  unfold ends, mbind, E_bind, some, mret, E_ret, ask, modify, file_exists.
  destruct (k_stat _ (kern s)); done.
Qed.
End Shows.
