(* ===== verification/CpusetQuery.v ===== *)
(** Reading the settings of a cpuset: what [cpuset_query] makes of a directory
    that shows them. *)
From Stdlib Require Import Ascii String ZArith Lia Bool.
From stdpp Require Import base list sets numbers.
From S2P Require Import Prelude CString Effects Bitmask BitmaskText CpusetText Cpuset CpusetFiles.

Local Open Scope Z_scope.

(** ** Lines *)

Lemma line_loop_line next n line rest acc c0 :
  (forall c r, c ∈ line ++ [LF] -> next (c :: r) = (chr_code c, r)) -> LF ∉ line ->
  (length line < n)%nat ->
  line_loop next n (line ++ LF :: rest) acc c0 = (true, acc ++ line, 10, rest).
Proof.
  revert n acc c0. induction line as [|c line IH]; intros n acc c0 Hn Hl Hlen.
  - destruct n as [|n]; [cbn in Hlen; lia|]. cbn [app line_loop]. rewrite (Hn LF) by set_solver.
    change (chr_code LF) with 10. cbn. now rewrite app_nil_r.
  - destruct n as [|n]; [cbn in Hlen; lia|]. cbn [app line_loop]. rewrite (Hn c) by set_solver.
    pose proof (chr_code_range c) as Hc. rewrite (proj2 (Z.ltb_ge (chr_code c) 0)) by lia.
    apply not_elem_of_cons in Hl as [Hc10 Hl].
    assert (E : (chr_code c =? 10) = false).
    { apply Z.eqb_neq. intros E. apply Hc10. now rewrite <- (chr_chr_code c), E. }
    rewrite E, chr_chr_code, IH; [now rewrite <- app_assoc|set_solver|done|cbn in Hlen; lia].
Qed.

Lemma lgets_line next buflen line rest :
  (forall c r, c ∈ line ++ [LF] -> next (c :: r) = (chr_code c, r)) -> LF ∉ line ->
  (length line + 1 < buflen)%nat -> lgets next buflen (line ++ LF :: rest) = Some (line, rest).
Proof. intros Hn Hl Hlen. unfold lgets. rewrite line_loop_line by (done || lia). done. Qed.

Lemma cstr_of_id s : NUL ∉ s -> cstr_of s = s.
Proof.
  intros H. unfold cstr_of. apply takewhile_id. apply List.Forall_forall. intros x Hx.
  apply negb_true_iff, ceqb_neq. intros ->. now apply H, list_elem_of_In.
Qed.

(** ** Numbers *)

Lemma strto_fmt_d z r : ends_number 10 r -> strto 10 (fmt_d z ++ r) = Some (z <? 0, Z.abs z, r).
Proof.
  intros Hr. unfold fmt_d. destruct (z <? 0) eqn:E; zbool.
  - replace (Z.abs z) with (- z) by lia. apply (strto_fmt_nat true); [lia|done].
  - replace (Z.abs z) with z by lia. apply (strto_fmt_nat false); [lia|done].
Qed.

Lemma flags_step (rd : flag -> member Z -> member Z) (fl fl1 : flag -> member Z) f l g :
  (forall g, fl1 g = if decide (g = f) then rd f (fl f) else fl g) -> (forall m, rd f (rd f m) = rd f m) ->
  (if decide (g ∈ l) then rd g (fl1 g) else fl1 g) = if decide (g ∈ f :: l) then rd g (fl g) else fl g.
Proof.
  intros E I. rewrite E. destruct (decide (g = f)) as [->|Hg].
  - rewrite (decide_True (P := f ∈ f :: _)) by set_solver. rewrite I. now destruct (decide _).
  - destruct (decide (g ∈ l)); [rewrite decide_True by set_solver|rewrite decide_False by set_solver]; done.
Qed.

Section Query.
Context `{K : Kernel}.

Lemma atoi_read_ok z s :
  INT_MIN <= z <= INT_MAX -> atoi_read (fmt_d z ++ [LF]) s = Done z s.
Proof.
  intros Hz. unfold atoi_read. rewrite strto_fmt_d by done. cbn [bool_decide].
  rewrite atoi_fmt_d by done. done.
Qed.

Lemma read_small_ok p t s :
  k_read p (kern s) = Contents (t ++ [LF]) -> (length t < SMALL_BUFSZ)%nat ->
  read_small p s = Done (Some (t ++ [LF])) s.
Proof.
  intros E Hl. unfold read_small. rewrite (bind_Done _ _ (Contents (t ++ [LF])) s s).
  - destruct (t ++ [LF]) as [|c u] eqn:Et; [now destruct t|]. rewrite <- Et.
    rewrite take_ge by (rewrite length_app; cbn; unfold SMALL_BUFSZ in *; lia). done.
  - unfold read_file. now rewrite E.
Qed.

Lemma load_number_ok relpath x z s :
  relpath_ok relpath -> INT_MIN <= z <= INT_MAX ->
  k_read (fpath (dir_of relpath) (setting_name x)) (kern s) = Contents (fmt_d z ++ [LF]) ->
  load_number (dir_of relpath) (setting_name x) s = Done (Some z) s.
Proof.
  intros Hr Hz E. unfold load_number. rewrite (pathcat2_setting relpath x Hr).
  rewrite bind_some. unfold read_number.
  pose proof (fmt_d_length z Hz).
  rewrite (bind_Done _ _ _ s s (read_small_ok _ _ _ E ltac:(unfold SMALL_BUFSZ; lia))).
  now rewrite (bind_Done _ _ _ s s (atoi_read_ok z s Hz)).
Qed.

Lemma load_flag_ok relpath x (v : bool) s :
  relpath_ok relpath ->
  k_read (fpath (dir_of relpath) (setting_name x)) (kern s) = Contents (flag_text v ++ [LF]) ->
  load_flag (dir_of relpath) (setting_name x) s = Done (Some (Z.b2z v)) s.
Proof.
  intros Hr E. unfold load_flag. rewrite (pathcat2_setting relpath x Hr).
  rewrite bind_some. unfold read_flag.
  assert (Ht : flag_text v = fmt_d (Z.b2z v)) by now destruct v. rewrite Ht in E.
  pose proof (fmt_d_length (Z.b2z v)) as Hl. unfold INT_MIN, INT_MAX in *.
  assert (Hz : -2147483648 <= Z.b2z v <= 2147483647) by (destruct v; cbn; lia).
  rewrite (bind_Done _ _ _ s s (read_small_ok _ _ _ E ltac:(unfold SMALL_BUFSZ; lia))).
  rewrite (bind_Done _ _ _ s s (atoi_read_ok _ s Hz)). now destruct v.
Qed.

(** ** Masks *)

Lemma alloc_mask_ok n s :
  heap s = [] -> alloc_mask n s = Done (Some (mkMask n (replicate (Z.to_nat (longsperbits n)) 0))) s.
Proof. intros Hh. unfold alloc_mask, malloc, mbind, E_bind, mret, E_ret. now rewrite !Hh. Qed.

Lemma new_mask_wf n :
  0 <= n <= INT_MAX -> wf (mkMask n (replicate (Z.to_nat (longsperbits n)) 0)).
Proof.
  intros Hn. split; cbn; [done|]. rewrite length_replicate, Z2Nat.id; [done|].
  unfold longsperbits, howmany, bitsperlong. apply Z.div_pos; lia.
Qed.

Lemma new_mask_clear n k i : bit (mkMask n (replicate k 0)) i = false.
Proof.
  unfold bit, _getbit, word. cbn [size maskp]. destruct (i <? n); [|done].
  destruct (replicate k 0 !! _) as [w|] eqn:E; [apply lookup_replicate in E as [-> _]|];
    now rewrite Z.shiftr_0_l.
Qed.

(** A mask of [n] bits with the bits of [b]. *)
Definition same_bits (n : Z) (b b' : bitmask) : Prop :=
  wf b' /\ size b' = n /\ forall i, 0 <= i -> bit b' i = bit b i.

Lemma load_mask_ok relpath x b n s :
  relpath_ok relpath -> heap s = [] -> wf b -> size b = n ->
  k_read (fpath (dir_of relpath) (setting_name x)) (kern s) = Contents (list_text b ++ [LF]) ->
  exists b', load_mask (dir_of relpath) n (setting_name x) s = Done (Some b') s /\ same_bits n b b'.
Proof.
  intros Hr Hh Hwf Hn E. unfold load_mask. rewrite (pathcat2_setting relpath x Hr).
  rewrite bind_some. unfold read_mask.
  rewrite (bind_Done _ _ (Contents (list_text b ++ [LF])) s s) by (unfold read_file; now rewrite E).
  rewrite (bind_Done _ _ true s s) by (unfold malloc; now rewrite Hh).
  assert (Hlf : LF ∉ list_text b) by now apply list_text_chars.
  assert (Hnul : NUL ∉ list_text b) by now apply list_text_chars.
  unfold flgets. rewrite lgets_line; [|done|done|rewrite length_app; cbn; lia].
  rewrite (bind_Done _ _ _ s s (alloc_mask_ok n s Hh)). rewrite cstr_of_id by done.
  pose proof (wf_size b Hwf) as Hs. pose proof (new_mask_wf n ltac:(lia)) as Hw.
  case_bool_decide as Hne.
  { eexists. split; [done|]. split; [done|]. split; [done|]. intros i Hi.
    rewrite (proj1 (list_text_nil b Hwf) Hne i Hi). apply new_mask_clear. }
  destruct (list_text_parse b _ (S (Z.to_nat n)) Hwf Hw ltac:(cbn; lia) ltac:(lia))
    as (r & m' & Ep & Hm & Hms & Hb & Hcase).
  unfold parselist. cbn [size]. rewrite Ep. exists m'. rewrite bind_some.
  destruct Hcase as [[-> _]|[_ Hno]].
  - split; [done|]. split; [done|]. split; [lia|done].
  - now apply list_text_nil in Hno.
Qed.

(** ** The query *)

(** The library has found the cpuset file system and the sizes of the masks. *)
Record ready (nc nm : Z) (s : lib) : Prop := {
  rd_heap : heap s = [];
  rd_check : check_state s = check_ok;
  rd_cpus : cpumask_sz s = nc;
  rd_mems : nodemask_sz s = nm;
  rd_nc : 0 < nc <= INT_MAX;
  rd_nm : 0 < nm <= INT_MAX;
}.

Lemma ready_keeps nc nm s s' : keeps s s' -> ready nc nm s -> ready nc nm s'.
Proof. intros [] []. split; try done; congruence. Qed.

(** Settings the library can handle: the flags every kernel has, a number that
    is an [int], masks of the sizes of the kernel. *)
Record settings_ok (nc nm : Z) (a : settings) : Prop := {
  so_flags : Forall (fun f => is_Some (st_flags a f)) [cpu_exclusive; mem_exclusive; notify_on_release];
  so_level : match st_level a with Some z => INT_MIN <= z <= INT_MAX | None => True end;
  so_cpus : wf (st_cpus a) /\ size (st_cpus a) = nc;
  so_mems : wf (st_mems a) /\ size (st_mems a) = nm;
}.

Lemma check_ready nc nm s : ready nc nm s -> check s = Done 0 s.
Proof.
  intros Hr. unfold check, mbind, E_bind, mret, E_ret, get. now rewrite !(rd_check _ _ _ Hr).
Qed.

Lemma cpus_nbits_ready nc nm s : ready nc nm s -> cpuset_cpus_nbits s = Done nc s.
Proof.
  intros [_ _ Hc _ Hp _]. unfold cpuset_cpus_nbits, mbind, E_bind, get, when, gets.
  rewrite Hc, (proj2 (Z.eqb_neq nc 0)) by lia. unfold mret, E_ret. now rewrite Hc.
Qed.

Lemma mems_nbits_ready nc nm s : ready nc nm s -> cpuset_mems_nbits s = Done nm s.
Proof.
  intros [_ _ _ Hc _ Hp]. unfold cpuset_mems_nbits, mbind, E_bind, get, when, gets.
  rewrite Hc, (proj2 (Z.eqb_neq nm 0)) by lia. unfold mret, E_ret. now rewrite Hc.
Qed.

(** A member after reading the file that shows [v], if there is one. *)
Definition read_member {A} (v : option A) (m : member A) : member A :=
  match v with Some v => mkMem v true (dirty m) | None => m end.

Lemma read_member_idem {A} (v : option A) (m : member A) : read_member v (read_member v m) = read_member v m.
Proof. now destruct v. Qed.

Lemma query_flag_loop_ok relpath a cp l s :
  relpath_ok relpath -> shows (dir_of relpath) (text_of a) (kern s) ->
  (forall f, (f, false) ∈ l -> is_Some (st_flags a f)) ->
  ends (query_flag_loop (dir_of relpath) cp l)
    (fun r s' => r.1 = 0 /\ quiet s s' /\ cpus r.2 = cpus cp /\ mems r.2 = mems cp /\
       sched_relax_domain_level r.2 = sched_relax_domain_level cp /\
       forall f, flags r.2 f = if decide (f ∈ l.*1)
                               then read_member (Z.b2z <$> st_flags a f) (flags cp f) else flags cp f) s.
Proof.
  intros Hr. revert cp s. induction l as [|[f opt] l IH]; intros cp s Hs Hm; cbn [query_flag_loop].
  { apply ends_ret. repeat split; done. }
  apply ends_bind. eapply ends_mono with
    (Q := fun e s' => e = file_exists (fpath (dir_of relpath) (flag_name f)) (kern s) /\ quiet s s').
  { destruct opt; [now apply (exists_flag_ok relpath (SFlag f))|]. apply ends_ret. split; [|done].
    specialize (Hs (SFlag f)). destruct (Hm f ltac:(set_solver)) as [v Ev]. cbn in Hs. rewrite Ev in Hs.
    symmetry. apply Hs. }
  intros e s1 [-> Hq]. pose proof (Hs (SFlag f)) as Hf. cbn [text_of setting_name] in Hf.
  assert (Hs1 : shows (dir_of relpath) (text_of a) (kern s1)) by now rewrite (proj2 Hq).
  assert (Hm1 : forall f, (f, false) ∈ l -> is_Some (st_flags a f)) by (intros g Hg; apply Hm; set_solver).
  destruct (st_flags a f) as [v|] eqn:Ev; cbn [option_map] in Hf; [destruct Hf as [He Hf]; rewrite He|rewrite Hf].
  - pose proof (load_flag_ok relpath (SFlag f) v s1 Hr) as El. cbn [setting_name] in El.
    unfold ends. rewrite (bind_Done _ _ _ s1 s1) by (apply El; rewrite (proj2 Hq); exact Hf).
    eapply ends_mono; [now apply IH|]. intros r s2 (H1 & H2 & H3 & H4 & H5 & H6).
    split; [done|]. split; [now transitivity s1|]. repeat (split; [done|]). intros g. rewrite H6. cbn [fmap list_fmap fst].
    apply (flags_step (fun g => read_member (Z.b2z <$> st_flags a g))); [|intros; apply read_member_idem].
    intros h. cbn. now rewrite Ev.
  - eapply ends_mono; [now apply IH|]. intros r s2 (H1 & H2 & H3 & H4 & H5 & H6).
    split; [done|]. split; [now transitivity s1|]. repeat (split; [done|]). intros g. rewrite H6. cbn [fmap list_fmap fst].
    apply (flags_step (fun g => read_member (Z.b2z <$> st_flags a g))); [|intros; apply read_member_idem].
    intros h. rewrite Ev. cbn. destruct (decide (h = f)) as [->|]; done.
Qed.

(** What a query leaves in the structure. *)
Record queried (nc nm : Z) (a : settings) (cp cp' : cpuset) : Prop := {
  qd_flags : forall f, flags cp' f = read_member (Z.b2z <$> st_flags a f) (flags cp f);
  qd_level : sched_relax_domain_level cp' = read_member (st_level a) (sched_relax_domain_level cp);
  qd_cpus : exists b, cpus cp' = loaded (Some b) (cpus cp) /\ same_bits nc (st_cpus a) b;
  qd_mems : exists b, mems cp' = loaded (Some b) (mems cp) /\ same_bits nm (st_mems a) b;
}.

Lemma all_flags_queried f : f ∈ query_flags.*1.
Proof. destruct f; cbn; set_solver. Qed.

(** The two masks at the end of the query. *)
Lemma query_masks_ok nc nm relpath a cp s :
  relpath_ok relpath -> ready nc nm s -> settings_ok nc nm a ->
  shows (dir_of relpath) (text_of a) (kern s) ->
  exists b1 b2, same_bits nc (st_cpus a) b1 /\ same_bits nm (st_mems a) b2 /\
  (nc ← cpuset_cpus_nbits;
   b ← load_mask (dir_of relpath) nc §"cpus";
   match b with
   | None => mret (-1, cp)
   | Some b =>
       let cp := set_cpus (loaded (Some b) (cpus cp)) cp in
       nm ← cpuset_mems_nbits;
       b ← load_mask (dir_of relpath) nm §"mems";
       match b with
       | None => mret (-1, cp)
       | Some b => mret (0, set_mems (loaded (Some b) (mems cp)) cp)
       end
   end) s = Done (0, set_mems (loaded (Some b2) (mems cp)) (set_cpus (loaded (Some b1) (cpus cp)) cp)) s.
Proof.
  intros Hr Hrd Ha Hs. destruct (so_cpus _ _ _ Ha) as [C1 C2]. destruct (so_mems _ _ _ Ha) as [M1 M2].
  destruct (load_mask_ok relpath SCpus _ nc s Hr (rd_heap _ _ _ Hrd) C1 C2 (proj2 (Hs SCpus))) as (b1 & E1 & S1).
  destruct (load_mask_ok relpath SMems _ nm s Hr (rd_heap _ _ _ Hrd) M1 M2 (proj2 (Hs SMems))) as (b2 & E2 & S2).
  exists b1, b2. split; [done|]. split; [done|].
  rewrite (bind_Done _ _ _ s s (cpus_nbits_ready nc nm s Hrd)), (bind_Done _ _ _ s s E1). cbn zeta.
  now rewrite (bind_Done _ _ _ s s (mems_nbits_ready nc nm s Hrd)), (bind_Done _ _ _ s s E2).
Qed.

Lemma cpuset_query_ok nc nm relpath a cp s :
  relpath_ok relpath -> ready nc nm s -> settings_ok nc nm a ->
  shows (dir_of relpath) (text_of a) (kern s) ->
  ends (cpuset_query cp relpath) (fun r s' => r.1 = 0 /\ quiet s s' /\ queried nc nm a cp r.2) s.
Proof.
  intros Hr Hrd Ha Hs. unfold cpuset_query. eapply ends_step; [now apply (check_ready nc nm s)|].
  cbn [Z.ltb Z.compare].
  eapply ends_step; [apply full_path_abs; [apply Hr..|pose proof (rp_len _ Hr); lia]|].
  apply ends_bind. eapply ends_mono; [apply query_flag_loop_ok; [done|exact Hs|]|].
  { intros f Hf. pose proof (so_flags _ _ _ Ha) as Hfl. rewrite List.Forall_forall in Hfl.
    apply Hfl, list_elem_of_In. unfold query_flags in Hf. set_solver. }
  intros [r cp1] s1 (-> & Hq & Hc & Hm & Hl & Hf). cbn [fst snd Z.ltb Z.compare] in *.
  apply ends_bind. eapply ends_mono; [apply (exists_flag_ok relpath SLevel); done|].
  intros e s2 [-> Hq2]. assert (Hq02 : quiet s s2) by now transitivity s1.
  assert (Hrd2 : ready nc nm s2) by (apply (ready_keeps _ _ s); [apply Hq02|done]).
  assert (Hs2 : shows (dir_of relpath) (text_of a) (kern s2)) by now rewrite (proj2 Hq02).
  pose proof (Hs2 SLevel) as Hlev. cbn [text_of] in Hlev. rewrite (proj2 Hq), <- (proj2 Hq02).
  set (e := file_exists _ _) in *.
  assert (El : (if e then load_number (dir_of relpath) §"sched_relax_domain_level" else mret None) s2 =
               Done (st_level a) s2 /\ e && bool_decide (st_level a = None) = false).
  { pose proof (so_level _ _ _ Ha) as Hz. destruct (st_level a) as [z|]; cbn in Hlev.
    - destruct Hlev as [He Hlev]. subst e. rewrite He. split; [|done].
      now apply (load_number_ok relpath SLevel z).
    - subst e. rewrite Hlev. done. }
  destruct El as [El Eb]. eapply ends_step; [exact El|]. rewrite Eb.
  cbn zeta. set (cp2 := match st_level a with Some v => _ | None => cp1 end).
  destruct (query_masks_ok nc nm relpath a cp2 s2 Hr Hrd2 Ha Hs2) as (b1 & b2 & S1 & S2 & E).
  cbn zeta in E. eapply ends_intro; [exact E|]. clear E El.
  split; [reflexivity|]. split; [exact Hq02|]. subst cp2. split; cbn [snd].
  - intros f. destruct (st_level a); cbn; rewrite Hf, decide_True by apply all_flags_queried; done.
  - destruct (st_level a); cbn; rewrite ?Hl; done.
  - exists b1. split; [|done]. destruct (st_level a); cbn; now rewrite Hc.
  - exists b2. split; [|done]. destruct (st_level a); cbn; now rewrite Hm.
Qed.
End Query.
