(* ===== verification/CpusetModify.v ===== *)
(** Writing the settings of a cpuset: [apply_cpuset_settings] stores the members
    one after the other, and [cr_or_mod] brings the old values back when one of
    them is refused. *)
From Stdlib Require Import Ascii String ZArith Lia Bool.
From stdpp Require Import base list sets numbers.
From S2P Require Import Prelude CString Effects Bitmask BitmaskText CpusetText Cpuset CpusetFiles CpusetQuery.

Local Open Scope Z_scope.

(** ** The settings of a structure *)

(** The members [apply_cpuset_settings] stores, and what it writes. *)
Definition cp_sets (cp : cpuset) (x : setting) : bool :=
  match x with
  | SFlag f => to_apply (flags cp f)
  | SLevel => to_apply (sched_relax_domain_level cp)
  | SCpus => to_apply (cpus cp) && bool_decide (is_Some (val (cpus cp)))
  | SMems => to_apply (mems cp) && bool_decide (is_Some (val (mems cp)))
  end.

Definition mask_text (b : option bitmask) : cstr := match b with Some b => list_text b | None => [] end.

Definition cp_text (cp : cpuset) (x : setting) : cstr :=
  match x with
  | SFlag f => flag_text (negb (val (flags cp f) =? 0))
  | SLevel => fmt_d (val (sched_relax_domain_level cp))
  | SCpus => mask_text (val (cpus cp))
  | SMems => mask_text (val (mems cp))
  end.

Definition mask_ok (n : Z) (m : member (option bitmask)) : Prop :=
  exists b, val m = Some b /\ wf b /\ size b = n.

Record cp_ok (nc nm : Z) (cp : cpuset) : Prop := {
  co_level : INT_MIN <= val (sched_relax_domain_level cp) <= INT_MAX;
  co_cpus : mask_ok nc (cpus cp);
  co_mems : mask_ok nm (mems cp);
}.

Section Modify.
Context `{FS : CpusetFs}.
Variables (relpath : cstr) (nc nm : Z).
Hypothesis Hr : relpath_ok relpath.

Let dir := dir_of relpath.
Let file (x : setting) : cstr := fpath dir (setting_name x).

(** The texts behind a complete application. *)
Definition over (A : texts_t) (cp : cpuset) : texts_t := fun x =>
  match A x with
  | Some v => Some (if cp_sets cp x then cp_text cp x else v)
  | None => None
  end.

Lemma over_present A cp x : is_Some (over A cp x) <-> is_Some (A x).
Proof. unfold over. destruct (A x); [done|]. split; intros [? ?]; done. Qed.

(** The kernel has every file [cp] sets and takes its values, whatever the
    settings are. *)
Definition accepts (A : texts_t) (cp : cpuset) : Prop :=
  forall x, cp_sets cp x = true ->
    is_Some (A x) /\
    forall k B, shows dir B k -> is_Some (B x) -> exists k', k_write (file x) (cp_text cp x) k = inr k'.

Definition frame (k k' : kst) : Prop :=
  forall p, (forall x, p <> file x) -> k_read p k' = k_read p k.

(** After the settings [l]: they have been stored, or one was refused. *)
Definition stage (A : texts_t) (cp : cpuset) (s : lib) (l : list setting) (r : Z) (s' : lib) : Prop :=
  keeps s s' /\ frame (kern s) (kern s') /\
  exists B, shows dir B (kern s') /\
    ((r = 0 /\ forall x, B x = if decide (x ∈ l) then over A cp x else A x) \/
     (r = -1 /\ (forall x, B x = A x \/ B x = over A cp x) /\ ~ accepts A cp)).

Lemma stage_ext A cp s l l' r s' :
  (forall x, x ∈ l <-> x ∈ l') -> stage A cp s l r s' -> stage A cp s l' r s'.
Proof.
  intros E (H1 & H2 & B & H3 & H4). split; [done|]. split; [done|]. exists B. split; [done|].
  destruct H4 as [[-> H4]|H4]; [left|now right]. split; [done|]. intros x. rewrite H4.
  now rewrite (decide_ext _ _ _ _ (E x)).
Qed.

Lemma stage_quiet A cp s l r s1 s2 : stage A cp s l r s1 -> quiet s1 s2 -> stage A cp s l r s2.
Proof.
  intros (H1 & H2 & B & H3 & H4) [K1 K2]. split; [now transitivity s1|]. split; [now rewrite K2|].
  exists B. now rewrite K2.
Qed.

Lemma stage_skip A cp s l x s1 :
  stage A cp s l 0 s1 -> cp_sets cp x = false \/ A x = None -> stage A cp s (x :: l) 0 s1.
Proof.
  intros (H1 & H2 & B & H3 & H4) Hx. split; [done|]. split; [done|]. exists B. split; [done|].
  destruct H4 as [[_ H4]|[? _]]; [|done]. left. split; [done|]. intros y. rewrite H4.
  destruct (decide (y = x)) as [->|Hy].
  - rewrite (decide_True (P := x ∈ x :: _)) by set_solver. destruct (decide _); [done|].
    unfold over. destruct Hx as [-> | ->]; [|done]. now destruct (A x).
  - destruct (decide (y ∈ l)); [rewrite decide_True by set_solver|rewrite decide_False by set_solver]; done.
Qed.

(** One write. *)
Lemma stage_write A cp s l x s1 :
  stage A cp s l 0 s1 -> cp_sets cp x = true ->
  ends (write_string_file (file x) (cp_text cp x)) (stage A cp s (x :: l)) s1.
Proof.
  intros (H1 & H2 & B & H3 & H4) Hx. destruct H4 as [[_ H4]|[? _]]; [|done].
  unfold write_string_file, sys, ends.
  destruct (k_write (file x) (cp_text cp x) (kern s1)) as [e|k] eqn:E.
  - split; [now transitivity s1|]. split; [done|]. exists B. split; [done|]. right. split; [done|]. split.
    + intros y. rewrite H4. destruct (decide _); auto.
    + intros Hacc. destruct (Hacc x Hx) as [Ha Hw].
      destruct (Hw _ _ H3) as [k' Ek]; [|congruence]. rewrite H4. destruct (decide _); [now apply over_present|done].
  - destruct (shows_write _ _ _ _ _ _ H3 E) as [Hs Hsh].
    split; [now transitivity s1|]. split.
    { intros p Hp. cbn. rewrite (fs_write_other dir x _ _ _ p E) by apply Hp. now apply H2. }
    exists (put_text x (cp_text cp x) B). split; [done|]. left. split; [done|]. intros y. unfold put_text.
    destruct (decide (y = x)) as [->|Hy].
    + rewrite decide_True by set_solver. unfold over. rewrite H4 in Hs.
      destruct (A x) eqn:Ea; [now rewrite Hx|]. exfalso. unfold over in Hs. rewrite Ea in Hs.
      destruct (decide _); destruct Hs; done.
    + rewrite H4. destruct (decide (y ∈ l)); [rewrite decide_True by set_solver|rewrite decide_False by set_solver]; done.
Qed.

(** A write that is only made where the file exists. *)
Lemma stage_exists A cp s l x s1 :
  stage A cp s l 0 s1 ->
  ends (exists_flag dir (setting_name x))
    (fun e s' => stage A cp s l 0 s' /\ e = bool_decide (is_Some (A x))) s1.
Proof.
  intros Hst. eapply ends_mono; [now apply (exists_flag_ok relpath x)|].
  intros e s2 [-> Hq]. split; [now apply (stage_quiet _ _ _ _ _ s1)|].
  destruct Hst as (H1 & H2 & B & H3 & [[_ H4]|[? _]]); [|done].
  specialize (H3 x). rewrite H4 in H3. unfold over in H3. fold dir in H3 |- *.
  destruct (A x); [rewrite bool_decide_true by done|rewrite bool_decide_false by (intros [? ?]; done)];
    destruct (decide (x ∈ l)); apply H3.
Qed.

(** ** The application *)

Lemma stage_keeps A cp s l r s1 : stage A cp s l r s1 -> keeps s s1.
Proof. now intros [? _]. Qed.

Lemma stage_code A cp s l r s1 : stage A cp s l r s1 -> r = 0 \/ r = -1.
Proof. intros (_ & _ & B & _ & [[? _]|[? _]]); auto. Qed.

(** One member: stored when it is to be and, for the later flags, its file is
    there. *)
Lemma stage_step (A : texts_t) cp s l x s1 (sets opt : bool) (store : E lib Z) {T} (k : Z -> E lib T) Q :
  stage A cp s l 0 s1 -> cp_sets cp x = sets ->
  (forall s', keeps s s' -> store s' = write_string_file (file x) (cp_text cp x) s') ->
  (forall r s2, stage A cp s (x :: l) r s2 -> ends (k r) Q s2) ->
  ends (e ← (if sets then if opt then exists_flag dir (setting_name x) else mret true else mret false);
        r ← (if e : bool then store else mret 0); k r) Q s1.
Proof.
  intros Hst Hx Hw Hk. apply ends_bind. destruct sets.
  2: { apply ends_ret. apply ends_bind, ends_ret, Hk. apply stage_skip; auto. }
  assert (Hgo : forall s2, stage A cp s l 0 s2 -> ends (r ← store; k r) Q s2).
  { intros s2 Hs2. apply ends_bind. unfold ends at 1. rewrite Hw by now apply (stage_keeps _ _ _ _ _ _ Hs2).
    eapply (ends_mono (write_string_file _ _)); [now apply (stage_write A cp s l x)|]. exact Hk. }
  destruct opt; [|now apply ends_ret, Hgo].
  eapply ends_mono; [now apply (stage_exists A cp s l x)|]. intros e s2 [Hs2 ->].
  case_bool_decide as He; [now apply Hgo|]. apply ends_bind, ends_ret, Hk. apply stage_skip; [done|].
  right. destruct (A x); [|done]. exfalso. now apply He.
Qed.

Lemma stage_mandatory (A : texts_t) cp s l x s1 (sets : bool) (store : E lib Z) {T} (k : Z -> E lib T) Q :
  stage A cp s l 0 s1 -> cp_sets cp x = sets ->
  (forall s', keeps s s' -> sets = true -> store s' = write_string_file (file x) (cp_text cp x) s') ->
  (forall r s2, stage A cp s (x :: l) r s2 -> ends (k r) Q s2) ->
  ends (r ← (if sets then store else mret 0); k r) Q s1.
Proof.
  intros Hst Hx Hw Hk. apply ends_bind. destruct sets.
  - unfold ends at 1. rewrite Hw by (done || now apply (stage_keeps _ _ _ _ _ _ Hst)).
    eapply (ends_mono (write_string_file _ _)); [now apply (stage_write A cp s l x)|]. exact Hk.
  - apply ends_ret, Hk. apply stage_skip; auto.
Qed.

Lemma stage_refused A cp s l l' s1 : stage A cp s l (-1) s1 -> stage A cp s l' (-1) s1.
Proof.
  intros (H1 & H2 & B & H3 & [[? _]|H4]); [done|]. split; [done|]. split; [done|]. exists B. auto.
Qed.

Lemma store_flag_write cp f s :
  store_flag dir (flag_name f) (val (flags cp f)) s =
  write_string_file (file (SFlag f)) (cp_text cp (SFlag f)) s.
Proof.
  unfold store_flag. pose proof (pathcat2_setting relpath (SFlag f) Hr) as E. cbn [setting_name] in E.
  unfold dir. rewrite E, bind_some. cbn. now destruct (_ =? 0).
Qed.

Lemma store_number_write cp s :
  INT_MIN <= val (sched_relax_domain_level cp) <= INT_MAX ->
  store_number dir §"sched_relax_domain_level" (val (sched_relax_domain_level cp)) s =
  write_string_file (file SLevel) (cp_text cp SLevel) s.
Proof.
  intros Hz. unfold store_number. pose proof (pathcat2_setting relpath SLevel Hr) as E. cbn [setting_name] in E.
  unfold dir. rewrite E, bind_some. cbn. unfold snprintf_buf. pose proof (fmt_d_length _ Hz).
  now rewrite take_ge by (unfold SMALL_BUFSZ; lia).
Qed.

Lemma sprint_mask_buf_ok b s : wf b -> heap s = [] -> sprint_mask_buf b s = Done (Some (list_text b)) s.
Proof.
  intros Hwf Hh. unfold sprint_mask_buf. rewrite (bind_Done _ _ true s s) by (unfold malloc; now rewrite Hh).
  rewrite displaylist_text; [done|done|]. pose proof (wf_size b Hwf).
  pose proof (bitmask_next_spec b 0 ltac:(lia)) as (N1 & _). cbn zeta in N1. fold (bitmask_first b) in N1.
  unfold bitmask_displaylist. rewrite !(list_loop_len _ b _ _ _ [] []) by lia. lia.
Qed.

Lemma store_mask_write x b s :
  wf b -> heap s = [] ->
  store_mask dir (setting_name x) (Some b) s = write_string_file (file x) (list_text b) s.
Proof.
  intros Hwf Hh. unfold store_mask, dir. rewrite (pathcat2_setting relpath x Hr), bind_some.
  now rewrite (bind_Done _ _ _ s s (sprint_mask_buf_ok b s Hwf Hh)).
Qed.

Lemma apply_flag_loop_ok A cp fl s l s1 :
  stage A cp s l 0 s1 ->
  ends (apply_flag_loop dir cp fl) (stage A cp s (rev (SFlag <$> fl.*1) ++ l)) s1.
Proof.
  revert l s1. induction fl as [|[f opt] fl IH]; intros l s1 Hst; cbn [apply_flag_loop].
  { now apply ends_ret. }
  apply (stage_step A cp s l (SFlag f) s1 _ opt _ _ _ Hst eq_refl); [intros; apply store_flag_write|].
  intros r s2 Hs2. cbn [fmap list_fmap fst rev]. rewrite <- app_assoc. cbn [app].
  destruct (stage_code _ _ _ _ _ _ Hs2) as [-> | ->]; cbn [Z.ltb Z.compare].
  - now apply IH.
  - apply ends_ret. eapply stage_refused, Hs2.
Qed.

Definition all_settings : list setting :=
  SMems :: SCpus :: SLevel :: (rev (SFlag <$> apply_flags.*1) ++ []).

Lemma all_settings_all x : x ∈ all_settings.
Proof. destruct x as [[]| | |]; apply (bool_decide_unpack _); vm_compute; exact I. Qed.

Lemma mask_sets n m :
  mask_ok n m -> to_apply m && bool_decide (is_Some (val m)) = to_apply m.
Proof. intros (b & -> & _). now rewrite bool_decide_true, andb_true_r. Qed.

Lemma apply_ok A cp s :
  cp_ok nc nm cp -> heap s = [] -> shows dir A (kern s) ->
  ends (apply_cpuset_settings dir cp) (stage A cp s all_settings) s.
Proof.
  intros Hc Hh Hs. unfold apply_cpuset_settings. apply ends_bind.
  assert (H0 : stage A cp s [] 0 s).
  { split; [done|]. split; [done|]. exists A. split; [done|]. left. split; [done|].
    intros x. now rewrite decide_False by set_solver. }
  eapply ends_mono; [now apply (apply_flag_loop_ok A cp apply_flags s [] s)|]. intros r s1 H1.
  assert (Hend : forall l s', stage A cp s l (-1) s' -> ends (mret (-1)) (stage A cp s all_settings) s').
  { intros l s' Hl. apply ends_ret. eapply stage_refused, Hl. }
  destruct (stage_code _ _ _ _ _ _ H1) as [-> | ->]; cbn [Z.ltb Z.compare]; [|exact (Hend _ _ H1)].
  apply (stage_step A cp s _ SLevel s1 _ true _ _ _ H1 eq_refl);
    [intros; apply store_number_write, Hc|]. intros r s2 H2.
  destruct (stage_code _ _ _ _ _ _ H2) as [-> | ->]; cbn [Z.ltb Z.compare]; [|exact (Hend _ _ H2)].
  destruct (co_cpus _ _ _ Hc) as (b1 & E1 & W1 & _). destruct (co_mems _ _ _ Hc) as (b2 & E2 & W2 & _).
  apply (stage_mandatory A cp s _ SCpus s2 _ _ _ _ H2 (mask_sets nc _ (co_cpus _ _ _ Hc))).
  { intros s' Ks _. cbn [cp_text]. rewrite E1. apply (store_mask_write SCpus); [done|]. now rewrite (keeps_heap _ _ Ks). }
  intros r s3 H3. destruct (stage_code _ _ _ _ _ _ H3) as [-> | ->]; cbn [Z.ltb Z.compare]; [|exact (Hend _ _ H3)].
  apply (stage_mandatory A cp s _ SMems s3 _ _ _ _ H3 (mask_sets nm _ (co_mems _ _ _ Hc))).
  { intros s' Ks _. cbn [cp_text]. rewrite E2. apply (store_mask_write SMems); [done|]. now rewrite (keeps_heap _ _ Ks). }
  intros r s4 H4. destruct (stage_code _ _ _ _ _ _ H4) as [-> | ->]; cbn [Z.ltb Z.compare]; [|exact (Hend _ _ H4)].
  now apply ends_ret.
Qed.

(** ** The saved settings *)

(** The structure that is written back: it sets what the directory showed, and
    leaves alone only what [cp] would not change. *)
Record saved (a : settings) (cp sav : cpuset) : Prop := {
  sv_ok : cp_ok nc nm sav;
  sv_sets x : cp_sets sav x = true -> text_of a x = Some (cp_text sav x);
  sv_same x : cp_sets sav x = false -> text_of a x = None \/ text_of a x = Some (cp_text cp x);
}.

Lemma mask_equal_text b1 b2 :
  wf b1 -> wf b2 -> size b1 = size b2 -> bitmask_equal b1 b2 = true -> list_text b1 = list_text b2.
Proof.
  intros W1 W2 Hs He. destruct (bitmask_comparisons b1 b2 W1 W2) as [Hb _].
  apply list_text_ext; [done|]. now apply Hb.
Qed.

Lemma mark_mask_ok n b0 b m2 (s : lib) :
  wf b0 -> size b0 = n -> same_bits n b0 b -> mask_ok n m2 ->
  exists d, mark_mask (mkMem (Some b) true false) m2 s = Done (mkMem (Some b) true d) s /\
    list_text b = list_text b0 /\ (d = false -> mask_text (val m2) = list_text b0).
Proof.
  intros W0 S0 (Wb & Sb & Hb) (b2 & E2 & W2 & S2). unfold mark_mask. cbn [valid val]. rewrite bind_some, E2, bind_some.
  assert (Et : list_text b = list_text b0) by (apply list_text_ext; [lia|done]).
  exists (negb (bitmask_equal b b2)). unfold mark. cbn [valid val andb].
  destruct (bitmask_equal b b2) eqn:Ee; cbn [negb]; (split; [done|]); (split; [done|]); [|done].
  intros _. cbn. rewrite <- Et. symmetry. apply mask_equal_text; [done..|lia|done].
Qed.

(** The structure as it was allocated. *)
Definition fresh (cp : cpuset) : Prop :=
  (forall f, flags cp f = mkMem 0 false false) /\ sched_relax_domain_level cp = mkMem 0 false false /\
  dirty (cpus cp) = false /\ dirty (mems cp) = false.

Lemma cpuset_alloc_ok s : ready nc nm s -> exists cp, cpuset_alloc s = Done (Some cp) s /\ fresh cp.
Proof.
  intros Hrd. unfold cpuset_alloc. rewrite (bind_Done _ _ true s s) by (unfold malloc; now rewrite (rd_heap _ _ _ Hrd)).
  rewrite (bind_Done _ _ _ s s (cpus_nbits_ready nc nm s Hrd)).
  rewrite (bind_Done _ _ _ s s (alloc_mask_ok nc s (rd_heap _ _ _ Hrd))).
  rewrite (bind_Done _ _ _ s s (mems_nbits_ready nc nm s Hrd)).
  rewrite (bind_Done _ _ _ s s (alloc_mask_ok nm s (rd_heap _ _ _ Hrd))).
  eexists. split; [reflexivity|]. done.
Qed.

Lemma flag_saved (st : option bool) (v : Z) :
  let m := mark (negb (val (read_member (Z.b2z <$> st) (mkMem 0 false false)) =? v))
             (read_member (Z.b2z <$> st) (mkMem 0 false false)) in
  (to_apply m = true -> option_map flag_text st = Some (flag_text (negb (val m =? 0)))) /\
  (to_apply m = false -> option_map flag_text st = None \/
                         option_map flag_text st = Some (flag_text (negb (v =? 0)))).
Proof.
  destruct st as [v0|]; cbn; [|split; [discriminate|auto]]. unfold mark. cbn.
  destruct (Z.b2z v0 =? v) eqn:E; cbn; zbool; split; intros Hm; try discriminate Hm.
  - right. subst v. now destruct v0.
  - now destruct v0.
Qed.

Lemma level_saved (st : option Z) (v : Z) :
  let m := mark (negb (val (read_member st (mkMem 0 false false)) =? v)) (read_member st (mkMem 0 false false)) in
  (to_apply m = true -> option_map fmt_d st = Some (fmt_d (val m))) /\
  (to_apply m = false -> option_map fmt_d st = None \/ option_map fmt_d st = Some (fmt_d v)) /\
  val m = match st with Some z => z | None => 0 end.
Proof.
  destruct st as [v0|]; cbn; [|split; [discriminate|auto]]. unfold mark. cbn.
  destruct (v0 =? v) eqn:E; cbn; zbool; repeat split; intros; try done. right. now subst v.
Qed.

Lemma mark_dirty_ok a cp cp0 q s :
  settings_ok nc nm a -> cp_ok nc nm cp -> fresh cp0 -> queried nc nm a cp0 q ->
  exists sav, mark_dirty_variable q cp s = Done sav s /\ saved a cp sav.
Proof.
  intros Ha Hc (F1 & F2 & F3 & F4) [Qf Ql (b1 & Q1 & S1) (b2 & Q2 & S2)].
  destruct (so_cpus _ _ _ Ha) as [C1 C2]. destruct (so_mems _ _ _ Ha) as [M1 M2].
  unfold mark_dirty_variable. rewrite Q1, Q2. unfold loaded. rewrite F3, F4.
  destruct (mark_mask_ok nc _ _ _ s C1 C2 S1 (co_cpus _ _ _ Hc)) as (d1 & E1 & T1 & D1).
  destruct (mark_mask_ok nm _ _ _ s M1 M2 S2 (co_mems _ _ _ Hc)) as (d2 & E2 & T2 & D2).
  rewrite (bind_Done _ _ _ s s E1), (bind_Done _ _ _ s s E2). eexists. split; [reflexivity|].
  pose proof (fun f => flag_saved (st_flags a f) (val (flags cp f))) as Hf.
  destruct (level_saved (st_level a) (val (sched_relax_domain_level cp))) as (Hl1 & Hl2 & Hl3).
  split.
  - split; cbn [sched_relax_domain_level cpus mems].
    + rewrite Ql, F2, Hl3. pose proof (so_level _ _ _ Ha) as Hz.
      destruct (st_level a); [done|unfold INT_MIN, INT_MAX; lia].
    + exists b1. now destruct S1 as (? & ? & _).
    + exists b2. now destruct S2 as (? & ? & _).
  - intros x Hx. destruct x as [f| | |]; cbn in *.
    + rewrite Qf, F1 in *. now apply Hf.
    + rewrite Ql, F2 in *. now apply Hl1.
    + now rewrite T1.
    + now rewrite T2.
  - intros x Hx. destruct x as [f| | |]; cbn in *.
    + rewrite Qf, F1 in *. now apply Hf.
    + rewrite Ql, F2 in *. now apply Hl2.
    + right. rewrite D1; [done|]. now destruct d1.
    + right. rewrite D2; [done|]. now destruct d2.
Qed.

(** ** Creating and modifying *)

(** The kernel takes back every value a setting had. *)
Definition takes_back (a : settings) : Prop :=
  forall k B x v, shows dir B k -> is_Some (B x) -> text_of a x = Some v ->
    exists k', k_write (file x) v k = inr k'.

(** Writing the saved settings undoes an application that was refused. *)
Lemma undo_ok a cp sav B s :
  saved a cp sav -> takes_back a -> heap s = [] -> shows dir B (kern s) ->
  (forall x, B x = text_of a x \/ B x = over (text_of a) cp x) ->
  ends (apply_cpuset_settings dir sav)
    (fun _ s' => keeps s s' /\ frame (kern s) (kern s') /\ shows dir (text_of a) (kern s')) s.
Proof.
  intros [Hok Hsets Hsame] Ht Hh Hs HB. eapply ends_mono; [apply (apply_ok B sav s Hok Hh Hs)|].
  intros r s1 (H1 & H2 & B1 & H3 & H4). split; [done|]. split; [done|].
  assert (Hp : forall x, is_Some (text_of a x) -> is_Some (B x)).
  { intros x Hx. destruct (HB x) as [-> | ->]; [done|]. now apply over_present. }
  destruct H4 as [[_ H4]|(_ & _ & Hno)].
  2: { exfalso. apply Hno. intros x Hx. pose proof (Hsets x Hx) as Ex. split; [apply Hp; now rewrite Ex|].
       intros k B' HB' Hx'. exact (Ht k B' x _ HB' Hx' Ex). }
  apply (shows_ext _ B1); [|done]. intros x. rewrite H4, decide_True by apply all_settings_all. unfold over.
  destruct (cp_sets sav x) eqn:Ex.
  - rewrite (Hsets x Ex). destruct (Hp x) as [v ->]; [now rewrite (Hsets x Ex)|done].
  - assert (Eb : B x = text_of a x).
    { destruct (HB x) as [-> | ->]; [done|]. unfold over. destruct (Hsame x Ex) as [-> | ->]; [done|].
      now destruct (cp_sets cp x). }
    rewrite Eb. now destruct (text_of a x).
Qed.

(** The error exit: the settings are the old ones, if the kernel takes them
    back, and the directory is removed if it was new. *)
Definition rolled_back (a : settings) (new : bool) (s s' : lib) : Prop :=
  exists k, frame (kern s) k /\ (takes_back a -> shows dir (text_of a) k) /\
    kern s' = if new then match k_rmdir dir k with inl _ => k | inr k' => k' end else k.

Lemma restore_ok a cp sav B new s s1 :
  saved a cp sav -> heap s1 = [] -> keeps s s1 -> frame (kern s) (kern s1) -> shows dir B (kern s1) ->
  (forall x, B x = text_of a x \/ B x = over (text_of a) cp x) ->
  ends (restore (Some dir) (Some sav) new) (fun r s' => r = -1 /\ keeps s s' /\ rolled_back a new s s') s1.
Proof.
  intros Hsv Hh Hk Hf Hs HB. unfold restore. apply ends_bind, ends_gets. apply ends_bind, ends_bind.
  assert (Hu : ends (apply_cpuset_settings dir sav) (fun _ s' => keeps s1 s' /\ frame (kern s1) (kern s') /\
                 (takes_back a -> shows dir (text_of a) (kern s'))) s1).
  { pose proof (apply_ok B sav s1 (sv_ok _ _ _ Hsv) Hh Hs) as Hap.
    unfold ends in *. destruct (apply_cpuset_settings dir sav s1) as [r s2| |] eqn:E; [|done..].
    destruct Hap as (K1 & F1 & _). split; [done|]. split; [done|]. intros Ht.
    pose proof (undo_ok a cp sav B s1 Hsv Ht Hh Hs HB) as Hun. unfold ends in Hun. rewrite E in Hun. apply Hun. }
  eapply ends_mono; [exact Hu|]. intros _ s2 (K2 & F2 & Ht2). apply ends_ret.
  assert (Hf2 : frame (kern s) (kern s2)) by (intros p Hp; rewrite F2 by done; now apply Hf).
  assert (K02 : keeps s s2) by now transitivity s1.
  apply ends_bind. unfold when. destruct new; [apply ends_bind|apply ends_ret].
  - unfold sys, ends. destruct (k_rmdir dir (kern s2)) as [e|k'] eqn:Er;
      (split; [done|]); (split; [now transitivity s2|]); exists (kern s2); rewrite Er; done.
  - unfold ends. cbn. split; [done|]. split; [now transitivity s2|]. now exists (kern s2).
Qed.

Lemma apply_or_restore_ok a cp new s :
  ready nc nm s -> settings_ok nc nm a -> shows dir (text_of a) (kern s) -> cp_ok nc nm cp ->
  ends (apply_or_restore dir relpath cp new)
    (fun r s' => keeps s s' /\
       ((r = 0 /\ frame (kern s) (kern s') /\ shows dir (over (text_of a) cp) (kern s')) \/
        (r = -1 /\ rolled_back a new s s'))) s.
Proof.
  intros Hrd Ha Hs Hc. unfold apply_or_restore.
  destruct (cpuset_alloc_ok s Hrd) as (cp0 & E0 & Hf). eapply ends_step; [exact E0|].
  apply ends_bind. eapply ends_mono; [now apply (cpuset_query_ok nc nm relpath a cp0 s)|].
  intros [rq q] s1 (Er & [Hk Hkern] & Hq). cbn [fst snd] in *. subst rq. cbn [Z.ltb Z.compare].
  destruct (mark_dirty_ok a cp cp0 q s1 Ha Hc Hf Hq) as (sav & Es & Hsv). eapply ends_step; [exact Es|].
  assert (Hs1 : shows dir (text_of a) (kern s1)) by now rewrite Hkern.
  assert (Hh1 : heap s1 = []) by (rewrite (keeps_heap _ _ Hk); apply Hrd).
  apply ends_bind. eapply ends_mono; [now apply (apply_ok (text_of a) cp s1)|].
  intros r s2 (H1 & H2 & B & H3 & H4). destruct H4 as [[-> H4]|(-> & H4 & _)]; cbn [Z.ltb Z.compare].
  - apply ends_ret. split; [now transitivity s1|]. left. split; [done|]. split; [now rewrite <- Hkern|].
    apply (shows_ext _ B); [|done]. intros x. now rewrite H4, decide_True by apply all_settings_all.
  - eapply ends_mono; [apply (restore_ok a cp sav B new s s2)|]; try done.
    + now rewrite (keeps_heap _ _ H1).
    + now transitivity s1.
    + now rewrite <- Hkern.
    + intros r s' (-> & K' & R'). auto.
Qed.
End Modify.
