(* ===== verification/CpusetOk.v ===== *)
(** The contracts of [cpuset_modify] and [cpuset_create], for every kernel whose
    cpuset file system keeps its laws; a small kernel that keeps them; and a
    modification that cannot be undone. *)
From Stdlib Require Import Ascii String ZArith Lia Bool.
From stdpp Require Import base list sets numbers.
From S2P Require Import Prelude CString Effects Bitmask BitmaskText CpusetText Cpuset CpusetFiles CpusetQuery CpusetModify.

Local Open Scope Z_scope.

(** The settings [a] with the members [cp] applies. *)
Definition override (a : settings) (cp : cpuset) : settings :=
  mkSt (fun f => match st_flags a f with
                 | Some v => Some (if to_apply (flags cp f) then negb (val (flags cp f) =? 0) else v)
                 | None => None
                 end)
       (match st_level a with
        | Some z => Some (if to_apply (sched_relax_domain_level cp) then val (sched_relax_domain_level cp) else z)
        | None => None
        end)
       (if to_apply (cpus cp) then default (st_cpus a) (val (cpus cp)) else st_cpus a)
       (if to_apply (mems cp) then default (st_mems a) (val (mems cp)) else st_mems a).

Lemma override_text nc nm a cp x :
  cp_ok nc nm cp -> text_of (override a cp) x = over (text_of a) cp x.
Proof.
  intros Hc. destruct (co_cpus _ _ _ Hc) as (b1 & E1 & _). destruct (co_mems _ _ _ Hc) as (b2 & E2 & _).
  unfold over. destruct x as [f| | |]; cbn.
  - destruct (st_flags a f); cbn; [|done]. now destruct (to_apply _).
  - destruct (st_level a); cbn; [|done]. now destruct (to_apply _).
  - rewrite E1. rewrite bool_decide_true by done. rewrite andb_true_r. now destruct (to_apply _).
  - rewrite E2. rewrite bool_decide_true by done. rewrite andb_true_r. now destruct (to_apply _).
Qed.

Lemma override_ok nc nm a cp : settings_ok nc nm a -> cp_ok nc nm cp -> settings_ok nc nm (override a cp).
Proof.
  intros [Hf Hl Hc Hm] [Cl (b1 & E1 & W1 & S1) (b2 & E2 & W2 & S2)]. split; cbn.
  - eapply Forall_impl; [|exact Hf]. intros f [v ->]. eauto.
  - destruct (st_level a); [|done]. now destruct (to_apply _).
  - rewrite E1. cbn. now destruct (to_apply _).
  - rewrite E2. cbn. now destruct (to_apply _).
Qed.

Section Contracts.
Context `{FS : CpusetFs}.
Variables (relpath : cstr) (nc nm : Z).
Hypothesis Hr : relpath_ok relpath.

(** No check for the kernels that would crash is needed. *)
Definition not_susceptible (cp : cpuset) (s : lib) : Prop :=
  val (flags cp cpu_exclusive) = 0 \/ susceptible_system s = 0.

Lemma would_crash_no cp s : not_susceptible cp s -> cpuset_would_crash_kernel cp s = Done 0 s.
Proof.
  intros H. unfold cpuset_would_crash_kernel. destruct (val (flags cp cpu_exclusive) =? 0) eqn:E; [done|]. zbool.
  destruct H as [H|H]; [done|]. unfold mbind, E_bind, get. rewrite H. cbn. rewrite H. done.
Qed.

Lemma cr_or_mod_start cp new s :
  ready nc nm s -> not_susceptible cp s ->
  cr_or_mod relpath cp new s =
  (r ← (if new then sys (k_mkdir (dir_of relpath)) else mret 0);
   if r <? 0 then restore None None false else apply_or_restore (dir_of relpath) relpath cp new) s.
Proof.
  intros Hrd Hn. unfold cr_or_mod. rewrite (bind_Done _ _ _ s s (check_ready nc nm s Hrd)).
  cbn [Z.ltb Z.compare]. rewrite (bind_Done _ _ _ s s (would_crash_no cp s Hn)). cbn [Z.eqb negb].
  now rewrite (bind_Done _ _ _ s s (full_path_abs relpath s ltac:(apply Hr) ltac:(apply Hr)
    ltac:(pose proof (rp_len _ Hr); lia))).
Qed.

Lemma modify_ok a cp s :
  ready nc nm s -> not_susceptible cp s -> cp_ok nc nm cp -> settings_ok nc nm a ->
  shows (dir_of relpath) (text_of a) (kern s) -> takes_back relpath a ->
  ends (cpuset_modify relpath cp)
    (fun r s' => keeps s s' /\ frame relpath (kern s) (kern s') /\
       ((r = 0 /\ shows (dir_of relpath) (text_of (override a cp)) (kern s')) \/
        (r = -1 /\ shows (dir_of relpath) (text_of a) (kern s')))) s.
Proof.
  intros Hrd Hn Hc Ha Hs Ht. unfold cpuset_modify, ends. rewrite cr_or_mod_start by done.
  pose proof (apply_or_restore_ok relpath nc nm Hr a cp false s Hrd Ha Hs Hc) as H.
  eapply (ends_mono (apply_or_restore _ _ _ _)); [exact H|].
  intros r s' [Hk [(-> & Hf & Hsh)|(-> & k & Hf & Hsh & ->)]]; (split; [done|]); (split; [done|]).
  - left. split; [done|]. apply (shows_ext _ (over (text_of a) cp)); [|done].
    intros x. now rewrite (override_text nc nm).
  - right. split; [done|]. now apply Hsh.
Qed.

Lemma create_ok d cp s :
  ready nc nm s -> not_susceptible cp s -> cp_ok nc nm cp -> settings_ok nc nm d ->
  (forall k, k_mkdir (dir_of relpath) (kern s) = inr k -> shows (dir_of relpath) (text_of d) k) ->
  ends (cpuset_create relpath cp)
    (fun r s' => keeps s s' /\
       ((r = 0 /\ shows (dir_of relpath) (text_of (override d cp)) (kern s')) \/
        (r = -1 /\ (kern s' = kern s \/ exists k, k_mkdir (dir_of relpath) (kern s) = inr k /\
           rolled_back relpath d true (set_kern k s) s')))) s.
Proof.
  intros Hrd Hn Hc Hd Hmk. unfold cpuset_create, ends. rewrite cr_or_mod_start by done.
  apply ends_bind. unfold sys, ends at 1. destruct (k_mkdir (dir_of relpath) (kern s)) as [e|k] eqn:Em.
  - unfold ends. cbn. split; [done|]. right. auto.
  - cbn [Z.ltb Z.compare]. set (s1 := set_kern k s).
    assert (Hrd1 : ready nc nm s1) by (destruct Hrd; split; done).
    eapply ends_mono; [apply (apply_or_restore_ok relpath nc nm Hr d cp true s1 Hrd1 Hd); [now apply Hmk|done]|].
    intros r s' [Hk [(-> & Hf & Hsh)|(-> & Hrb)]]; (split; [now transitivity s1|]).
    + left. split; [done|]. apply (shows_ext _ (over (text_of d) cp)); [|done].
      intros x. now rewrite (override_text nc nm).
    + right. split; [done|]. right. eauto.
Qed.
End Contracts.

(** C4: A modification is all or nothing, for a kernel that takes back the values it
    had: the directory shows the old settings with the members the structure
    applies, or, when the call fails, the old settings; no other file and no
    static variable of the library changes. *)
Theorem modify_all_or_nothing `{FS : CpusetFs} relpath nc nm a cp s :
  relpath_ok relpath -> ready nc nm s -> not_susceptible cp s -> cp_ok nc nm cp -> settings_ok nc nm a ->
  shows (dir_of relpath) (text_of a) (kern s) -> takes_back relpath a ->
  ends (cpuset_modify relpath cp)
    (fun r s' => keeps s s' /\ frame relpath (kern s) (kern s') /\
       ((r = 0 /\ shows (dir_of relpath) (text_of (override a cp)) (kern s')) \/
        (r = -1 /\ shows (dir_of relpath) (text_of a) (kern s')))) s.
Proof. intros Hr. now apply modify_ok. Qed.

(** C13: A cpuset that was created is queried with the settings the kernel gives a
    new directory and the members the structure applies; a creation that fails
    leaves the kernel as it was, or takes the new directory away. *)
Theorem create_then_query `{FS : CpusetFs} relpath nc nm d cp cp1 s :
  relpath_ok relpath -> ready nc nm s -> not_susceptible cp s -> cp_ok nc nm cp -> settings_ok nc nm d ->
  (forall k, k_mkdir (dir_of relpath) (kern s) = inr k -> shows (dir_of relpath) (text_of d) k) ->
  ends (cpuset_create relpath cp)
    (fun r s' =>
       (r = 0 /\ ends (cpuset_query cp1 relpath)
                   (fun q s'' => q.1 = 0 /\ quiet s' s'' /\ queried nc nm (override d cp) cp1 q.2) s') \/
       (r = -1 /\ (kern s' = kern s \/ exists k, k_mkdir (dir_of relpath) (kern s) = inr k /\
           rolled_back relpath d true (set_kern k s) s'))) s.
Proof.
  intros Hr Hrd Hn Hc Hd Hmk. eapply ends_mono; [now apply (create_ok relpath nc nm Hr d)|].
  intros r s' [Hk [[-> Hs]|H]]; [left|now right]. split; [done|].
  apply cpuset_query_ok; [done|now apply (ready_keeps _ _ s)|now apply override_ok|done].
Qed.

(** ** A small kernel *)

(** The files with what they contain; [refuse] are the writes the kernel
    rejects, [initial] the contents of the files of a new directory. *)
Definition files : Type := cstr -> option cstr.

Section Small.
Variables (refuse : cstr -> cstr -> files -> bool) (initial : cstr -> option cstr).

Definition small : Kernel := {|
  kst := files;
  k_read p k := match k p with Some t => Contents t | None => NoOpen ENOENT end;
  k_stat p k := match k p with Some _ => inr (false, 0) | None => inl ENOENT end;
  k_write p v k :=
    match k p with
    | None => inl 13
    | Some _ => if refuse p v k then inl EINVAL
                else inr (fun q => if decide (q = p) then Some (v ++ [LF]) else k q)
    end;
  k_mkdir d k := inr (fun q => if is_prefix (d ++ §"/") q then initial (drop (length d) q) else k q);
  k_rmdir d k := inr (fun q => if is_prefix (d ++ §"/") q then None else k q);
  k_readdir _ _ := inl ENOENT;
  k_uname _ := inr (§"5.10.0", §"x86_64");
|}.

#[local] Existing Instance small.

Lemma small_fs : CpusetFs.
Proof.
  split; cbn; unfold file_exists; cbn.
  - intros dir x v k. destruct (k _); [done|]. eauto.
  - intros dir x v k k'. destruct (k _); [|done]. destruct (refuse _ _ _); intros [= <-]. now rewrite decide_True.
  - intros dir x v k k' p. destruct (k _); [|done]. destruct (refuse _ _ _); intros [= <-] Hp. now rewrite decide_False.
  - intros dir x v k k' p. destruct (k (fpath dir (setting_name x))) eqn:E; [|done].
    destruct (refuse _ _ _); intros [= <-]. destruct (decide _) as [->|]; [now rewrite E|done].
Qed.
End Small.

(** The files of a directory with these settings. *)
Definition files_of (dir : cstr) (a : settings) (q : cstr) : option cstr :=
  match List.find (fun x => bool_decide (q = fpath dir (setting_name x))) all_settings with
  | Some x => (fun t => t ++ [LF]) <$> text_of a x
  | None => None
  end.

Lemma files_of_setting dir a x :
  files_of dir a (fpath dir (setting_name x)) = (fun t => t ++ [LF]) <$> text_of a x.
Proof.
  unfold files_of. destruct (List.find _ _) as [y|] eqn:E.
  - apply List.find_some in E as [_ E%bool_decide_eq_true]. apply fpath_inj in E as ->. done.
  - pose proof (List.find_none _ _ E x (proj1 (list_elem_of_In _ _) (all_settings_all x))) as Hx.
    now apply bool_decide_eq_false in Hx.
Qed.

Lemma files_of_shows refuse initial dir a (k : files) :
  (forall x, k (fpath dir (setting_name x)) = files_of dir a (fpath dir (setting_name x))) ->
  @shows (small refuse initial) dir (text_of a) k.
Proof.
  intros H x. unfold file_exists. cbn. rewrite H, files_of_setting. now destruct (text_of a x).
Qed.

(** A cpuset with the CPUs 0 and 1 and the node 0, and a change to the CPUs 0 to
    3 and a node. *)
Definition old_settings (excl : bool) : settings :=
  mkSt (fun f => Some (if decide (f = cpu_exclusive) then excl else false)) (Some (-1)) (mask8 3) (mask8 1).
Definition change (nodes : Z) : cpuset :=
  mkCs (mkMem (Some (mask8 15)) true true) (mkMem (Some (mask8 nodes)) true true)
    (fun f => mkMem 0 true (bool_decide (f = cpu_exclusive))) (mkMem 0 false false).

Definition lib_of `{Kernel} (k : kst) : lib := mkLib k 0 [] check_ok 8 8 0 0 (None, 0).

Lemma old_settings_ok excl : settings_ok 8 8 (old_settings excl).
Proof.
  split; cbn; [|unfold INT_MIN, INT_MAX; lia|split; [apply mask8_wf|done]..].
  repeat apply List.Forall_cons; try apply List.Forall_nil; done.
Qed.

Lemma change_ok nodes : cp_ok 8 8 (change nodes).
Proof.
  split; [unfold INT_MIN, INT_MAX; cbn; lia|exists (mask8 15)|exists (mask8 nodes)];
    (split; [done|]); (split; [apply mask8_wf|done]).
Qed.

Lemma lib_of_ready `{Kernel} k : ready 8 8 (lib_of k).
Proof. split; done. Qed.

Lemma relpath_a : relpath_ok §"/a".
Proof. split; [done|apply (bool_decide_unpack _); vm_compute; exact I|unfold PATH_MAX; cbn; lia]. Qed.

(** The nodes beyond the first are not there. *)
Definition no_node (p v : cstr) (_ : files) : bool := bool_decide (v = §"5").
Definition kernel_a : Kernel := small no_node (files_of [] (old_settings false)).

Lemma kernel_a_takes_back : @takes_back kernel_a §"/a" (old_settings false).
Proof.
  intros k B x v Hs [t Et] Ev. specialize (Hs x). rewrite Et in Hs. cbn in Hs |- *.
  unfold file_exists in Hs. cbn in Hs. destruct (k _) as [u|]; [|now destruct Hs].
  unfold no_node. rewrite bool_decide_false; [eauto|]. intros ->.
  destruct x as [[]| | |]; vm_compute in Ev; discriminate Ev.
Qed.

(** The value a call returns. *)
Definition code `{Kernel} {A} (o : outcome lib A) : option A := match o with Done r _ => Some r | _ => None end.

(** A change to a node that is not there: the CPUs, which had been changed, are
    back. *)
Lemma modify_all_or_nothing_witness :
  exists s', @cpuset_modify kernel_a §"/a" (change 32) (@lib_of kernel_a (files_of (dir_of §"/a") (old_settings false))) =
    Done (-1) s' /\ k_read (fpath (dir_of §"/a") §"cpus") (kern s') = Contents (list_text (mask8 3) ++ [LF]).
Proof.
  pose proof (@modify_all_or_nothing kernel_a (small_fs _ _) §"/a" 8 8 (old_settings false) (change 32)
    (@lib_of kernel_a (files_of (dir_of §"/a") (old_settings false))) relpath_a (lib_of_ready _)
    (or_introl eq_refl) (change_ok 32) (old_settings_ok false)
    (files_of_shows _ _ _ _ _ (fun x => eq_refl)) kernel_a_takes_back) as H.
  assert (Er : code (@cpuset_modify kernel_a §"/a" (change 32)
    (@lib_of kernel_a (files_of (dir_of §"/a") (old_settings false)))) = Some (-1)) by (vm_compute; reflexivity).
  apply ends_Done in H as (r & s' & E & H). rewrite E in Er |- *.
  injection Er as ->. exists s'. split; [reflexivity|]. destruct H as (_ & _ & [[Hr _]|[_ Hs]]); [discriminate Hr|].
  exact (proj2 (Hs SCpus)).
Defined.

(** A new cpuset with the CPUs 0 to 3 and the node 0. *)
Lemma create_then_query_witness :
  exists s' q s'', @cpuset_create kernel_a §"/a" (change 1) (@lib_of kernel_a (fun _ => None)) = Done 0 s' /\
    @cpuset_query kernel_a cleared §"/a" s' = Done (0, q) s'' /\
    queried 8 8 (override (old_settings false) (change 1)) cleared q.
Proof.
  assert (Hmk : forall k, @k_mkdir kernel_a (dir_of §"/a") (fun _ => None) = inr k ->
                @shows kernel_a (dir_of §"/a") (text_of (old_settings false)) k).
  { intros k [= <-]. apply files_of_shows. intros x. destruct x as [[]| | |]; vm_compute; reflexivity. }
  pose proof (@create_then_query kernel_a (small_fs _ _) §"/a" 8 8 (old_settings false) (change 1) cleared
    (@lib_of kernel_a (fun _ => None)) relpath_a (lib_of_ready _) (or_introl eq_refl) (change_ok 1)
    (old_settings_ok false) Hmk) as H.
  assert (Er : code (@cpuset_create kernel_a §"/a" (change 1) (@lib_of kernel_a (fun _ => None))) = Some 0)
    by (vm_compute; reflexivity).
  apply ends_Done in H as (r & s' & E & H). rewrite E in Er |- *. injection Er as ->.
  destruct H as [[_ H]|[Hr _]]; [|discriminate Hr].
  apply ends_Done in H as ([rq q] & s'' & Eq & H1 & _ & H2).
  cbn [fst snd] in H1, H2. subst rq. exists s', q, s''. split; [reflexivity|]. split; [exact Eq|exact H2].
Defined.

(** ** A modification that is not undone *)

(** The kernel refuses a setting that would make a cpuset share CPUs with its
    sibling [b] while one of the two is exclusive. *)
Definition mask_of (t : option cstr) : bitmask :=
  match t with
  | Some t => match bitmask_parselist 9 (takewhile (fun c => negb (ceqb c LF)) t) (mask8 0) with
              | Some (_, b) => b
              | None => mask8 0
              end
  | None => mask8 0
  end.

Definition exclusive_rule (p v : cstr) (k : files) : bool :=
  let k := fun q => if decide (q = p) then Some (v ++ [LF]) else k q in
  let excl := fun d => bool_decide (k (d ++ §"/cpu_exclusive") = Some (§"1" ++ [LF])) in
  (excl §"/dev/cpuset/a" || excl §"/dev/cpuset/b") &&
  bitmask_intersects (mask_of (k §"/dev/cpuset/a/cpus")) (mask_of (k §"/dev/cpuset/b/cpus")).

Definition siblings_kernel : Kernel :=
  small (fun p v k => no_node p v k || exclusive_rule p v k) (fun _ => None).

(** The exclusive cpuset [a] with the CPUs 0 and 1, beside [b] with 2 and 3. *)
Definition two_cpusets : files := fun q =>
  match files_of §"/dev/cpuset/a" (old_settings true) q with
  | Some t => Some t
  | None => files_of §"/dev/cpuset/b" (mkSt (fun _ => Some false) None (mask8 12) (mask8 1)) q
  end.

