(* ===== verification/CpusetMap.v ===== *)
(** The map of CPUs to memory nodes of the cpuset library: it is rebuilt from
    sysfs, kept in a file that processes share, and used to find the CPUs local
    to nodes and the nodes local to CPUs. *)
From Stdlib Require Import Ascii String ZArith Lia Bool.
From stdpp Require Import base list sets numbers.
From S2P Require Import Prelude CString Effects Bitmask BitmaskText CpusetText Cpuset CpusetFiles CpusetQuery.

Local Open Scope Z_scope.

(** The calls on ordinary files. *)
Class FileKernel `{Kernel} := {
  k_time : kst -> Z;
  k_mkstemp : cstr -> kst -> Z + (cstr * kst);            (* the name of the new file *)
  k_fill : cstr -> cstr -> kst -> kst;                    (* fprintf, fclose *)
  k_utime : cstr -> Z -> kst -> Z + kst;
  k_rename : cstr -> cstr -> kst -> Z + kst;
  k_chmod : cstr -> Z -> kst -> Z + kst;
  k_unlink : cstr -> kst -> Z + kst;
}.

Definition mapfile : cstr := §"/var/run/cpunodemap".
Definition sysdevices : cstr := §"/sys/devices/system".

(** [sscanf(s, "%u", &v)]: the number and what follows it. *)
Definition scan_u (s : cstr) : option (Z * cstr) :=
  match strto 10 s with
  | Some _ => let '(v, r) := strtoul 10 s in Some (u32 v, r)
  | None => None
  end.

(** [sscanf(s, "key%u", &v)]. *)
Definition scan_key_u (key s : cstr) : option Z :=
  if is_prefix key s then fst <$> scan_u (drop (length key) s) else None.

(** [sscanf(s, "%u %u", &a, &b)]. *)
Definition scan_u_u (s : cstr) : option (Z * Z) :=
  match scan_u s with
  | Some (a, r) => match scan_u r with Some (b, _) => Some (a, b) | None => None end
  | None => None
  end.

(** [cpunodemap.map[cpu] = mem], for numbers in range. *)
Definition set_node (ncpus nmems cpu mem : Z) (m : list Z) : list Z :=
  if (ncpus <=? cpu) || (nmems <=? mem) then m else <[Z.to_nat cpu := mem]> m.

(** The lines of the map file. *)
Definition map_text (nmems : Z) (m : list Z) : cstr :=
  concat (imap (fun cpu node =>
    if u32 node <? nmems then fmt_d (Z.of_nat cpu) ++ §" " ++ fmt_d (u32 node) ++ [LF] else []) m).

Fixpoint load_lines (fuel : nat) (ncpus nmems : Z) (text : cstr) (m : list Z) : list Z :=
  match fuel with
  | O => m
  | S fuel =>
      match flgets SMALL_BUFSZ text with
      | None => m
      | Some (line, r) =>
          load_lines fuel ncpus nmems r
            (match scan_u_u (cstr_of line) with
             | Some (cpu, mem) => set_node ncpus nmems cpu mem m
             | None => m
             end)
      end
  end.

Section Map.
Context `{F : FileKernel}.

Local Abbreviation M := (E lib).

Definition get_mtime (path : cstr) : M Z :=
  r ← ask (k_stat path);
  mret (match r with Some (_, t) => t | None => 0 end).

(** The entries of one node directory. *)
Definition rebuild_node (ncpus nmems mem : Z) (names : list cstr) (m : list Z) : list Z :=
  fold_left (fun m name =>
    match scan_key_u §"cpu" name with
    | Some cpu => set_node ncpus nmems cpu mem m
    | None => m
    end) names m.

Fixpoint rebuild_loop (ncpus nmems : Z) (names : list cstr) (m : list Z) : M (list Z) :=
  match names with
  | [] => mret m
  | name :: names =>
      match scan_key_u §"node" name with
      | None => rebuild_loop ncpus nmems names m
      | Some mem =>
          buf ← some (pathcat3 PATH_MAX sysdevices §"node" name);
          d ← ask (k_readdir buf);
          rebuild_loop ncpus nmems names
            (match d with Some l => rebuild_node ncpus nmems mem l m | None => m end)
      end
  end.

Definition rebuild_map : M unit :=
  ncpus ← cpuset_cpus_nbits;
  nmems ← cpuset_mems_nbits;
  s ← get;
  let m := replicate (Z.to_nat ncpus) (-1) in
  _ ← modify (set_map (Some m, (cpunodemap s).2));
  buf ← some (pathcat2 PATH_MAX sysdevices §"node");
  d ← ask (k_readdir buf);
  match d with
  | None => mret tt
  | Some names =>
      m ← rebuild_loop ncpus nmems names m;
      s ← get;
      modify (set_map (Some m, k_time (kern s)))
  end.

Definition load_map : M unit :=
  ncpus ← cpuset_cpus_nbits;
  nmems ← cpuset_mems_nbits;
  c ← malloc;
  s ← get;
  if negb c then modify (set_map (None, (cpunodemap s).2))
  else
    t ← get_mtime mapfile;
    _ ← modify (set_map (Some (replicate (Z.to_nat ncpus) 0), t));
    f ← read_file mapfile;
    match f with
    | NoOpen _ => mret tt
    | _ =>
        let text := match f with Contents x => x | _ => [] end in
        modify (set_map (Some (load_lines (S (length text)) ncpus nmems text
                                 (replicate (Z.to_nat ncpus) nmems)), t))
    end.

Definition store_map : M unit :=
  ncpus ← cpuset_cpus_nbits;
  nmems ← cpuset_mems_nbits;
  s ← get;
  match k_mkstemp (mapfile ++ §".XXXXXX") (kern s) with
  | inl e =>
      _ ← modify (set_errno e);
      _ ← sys (k_unlink (mapfile ++ §".XXXXXX")); mret tt
  | inr (buf, k) =>
      _ ← modify (set_kern k);
      c ← malloc;
      if negb c then _ ← sys (k_unlink buf); mret tt
      else
        m ← some (cpunodemap s).1;
        _ ← modify (fun s => set_kern (k_fill buf (map_text nmems (take (Z.to_nat ncpus) m)) (kern s)) s);
        _ ← sys (k_utime buf (cpunodemap s).2);
        r ← sys (k_rename buf mapfile);
        if r <? 0 then undefined                  (* fclose of the closed stream *)
        else _ ← sys (k_chmod mapfile 292); mret tt
  end.

(** The lock is not modelled: there is one thread. *)
Definition get_map : M Z :=
  s ← get;
  ok ← match (cpunodemap s).1 with
       | Some _ => mret true
       | None =>
           ncpus ← cpuset_cpus_nbits;
           c ← malloc;
           _ ← when c (modify (set_map (Some (replicate (Z.to_nat ncpus) 0), (cpunodemap s).2)));
           mret c
       end;
  if negb ok then mret (-1)
  else
    file_mtime ← get_mtime mapfile;
    s ← get;
    _ ← when (((cpunodemap s).2 =? 0) && (file_mtime =? 0)) rebuild_map;
    file_mtime ← get_mtime mapfile;
    s ← get;
    _ ← (if (cpunodemap s).2 <? file_mtime then load_map
         else if file_mtime <? (cpunodemap s).2 then store_map
         else mret tt);
    mret 0.

(** The loops over the CPUs; the node of a CPU is an [int] that becomes
    [unsigned]. *)
Definition local_cpus (m : list Z) (nodes : bitmask) (ncpus : Z) (b : bitmask) : bitmask :=
  fold_left (fun b cpu =>
    if bitmask_isbitset nodes (u32 (nth (Z.to_nat cpu) m 0)) then bitmask_setbit b cpu else b)
    (seqZ 0 ncpus) (bitmask_clearall b).

Definition local_mems (m : list Z) (cs : bitmask) (ncpus : Z) (b : bitmask) : bitmask :=
  fold_left (fun b cpu =>
    if bitmask_isbitset cs cpu then bitmask_setbit b (u32 (nth (Z.to_nat cpu) m 0)) else b)
    (seqZ 0 ncpus) (bitmask_clearall b).

Definition cpuset_localcpus (nodes b : bitmask) : M (Z * bitmask) :=
  ncpus ← cpuset_cpus_nbits;
  c ← check;
  if c <? 0 then mret (-1, b)
  else
    _ ← get_map;
    s ← get;
    m ← some (cpunodemap s).1;
    mret (0, local_cpus m nodes ncpus b).

Definition cpuset_localmems (cs b : bitmask) : M (Z * bitmask) :=
  ncpus ← cpuset_cpus_nbits;
  c ← check;
  if c <? 0 then mret (-1, b)
  else
    _ ← get_map;
    s ← get;
    m ← some (cpunodemap s).1;
    mret (0, local_mems m cs ncpus b).

(** The node of a CPU. *)
Definition cpuset_cpu2node (cpu : Z) : M Z :=
  ncpus ← cpuset_cpus_nbits;
  nmems ← cpuset_mems_nbits;
  c ← check;
  if c <? 0 then mret (-1)
  else
    a ← alloc_mask ncpus;
    match a with
    | None => mret (-1)
    | Some a =>
        let a := bitmask_setbit a (u32 cpu) in
        b ← alloc_mask nmems;
        match b with
        | None => mret (-1)
        | Some b => r ← cpuset_localmems a b; mret (bitmask_first r.2)
        end
    end.
End Map.
