(* ===== verification/CpusetMapOk.v ===== *)
(** The map of CPUs to memory nodes is shared: what one process stores in the
    map file is what another one uses for the CPUs local to nodes and the nodes
    local to CPUs. *)
From Stdlib Require Import Ascii String ZArith Lia Bool.
From stdpp Require Import base list sets numbers.
From S2P Require Import Prelude CString Effects Bitmask BitmaskText CpusetText Cpuset CpusetFiles CpusetQuery CpusetMap.

Local Open Scope Z_scope.

(** ** The map file *)

Lemma scan_u_fmt z r : 0 <= z <= INT_MAX -> ends_number 10 r -> scan_u (fmt_d z ++ r) = Some (z, r).
Proof.
  intros Hz Hr. unfold INT_MAX in Hz. unfold scan_u, strtoul. rewrite strto_fmt_d by done.
  replace (z <? 0) with false by (symmetry; apply Z.ltb_ge; lia). rewrite Z.abs_eq by lia.
  unfold ULONG_MAX. rewrite (proj2 (Z.ltb_ge _ z)) by lia. now rewrite u32_small by lia.
Qed.

Lemma scan_u_space s : scan_u (" "%char :: s) = scan_u s.
Proof.
  unfold scan_u, strtoul. assert (E : strto 10 (" "%char :: s) = strto 10 s) by done.
  rewrite E. now destruct (strto 10 s) as [[[neg v] r]|].
Qed.

Lemma scan_u_u_line a b :
  0 <= a <= INT_MAX -> 0 <= b <= INT_MAX -> scan_u_u (fmt_d a ++ §" " ++ fmt_d b) = Some (a, b).
Proof.
  intros Ha Hb. unfold scan_u_u. rewrite scan_u_fmt by done. change (§" " ++ fmt_d b) with (" "%char :: fmt_d b).
  rewrite scan_u_space. rewrite <- (app_nil_r (fmt_d b)). now rewrite scan_u_fmt.
Qed.

(** The node as the file can tell it: those that are not there are [nmems]. *)
Definition known_node (nmems node : Z) : Z := if (0 <=? node) && (node <? nmems) then node else nmems.

Definition map_line (nmems : Z) (cpu : nat) (node : Z) : cstr :=
  if u32 node <? nmems then fmt_d (Z.of_nat cpu) ++ §" " ++ fmt_d (u32 node) ++ [LF] else [].

(** Machines whose numbers fit in the line buffer of 16 characters. *)
Record machine_ok (ncpus nmems : Z) : Prop := {
  mo_cpus : 0 < ncpus <= 10 ^ 7;
  mo_mems : 0 < nmems <= 10 ^ 6;
}.

Lemma fmt_d_width z w : 0 <= z < 10 ^ Z.of_nat w -> (0 < w)%nat -> (length (fmt_d z) <= w)%nat.
Proof. intros Hz Hw. rewrite fmt_d_nonneg by lia. unfold fmt_nat. apply num_str_length; [lia|done|done]. Qed.

Lemma load_line ncpus nmems cpu node fuel rest m :
  machine_ok ncpus nmems -> 0 <= cpu < ncpus -> 0 <= node < nmems ->
  load_lines (S fuel) ncpus nmems ((fmt_d cpu ++ §" " ++ fmt_d node ++ [LF]) ++ rest) m =
  load_lines fuel ncpus nmems rest (<[Z.to_nat cpu := node]> m).
Proof.
  intros [Hc Hm] Hcpu Hnode. cbn [load_lines].
  replace ((fmt_d cpu ++ §" " ++ fmt_d node ++ [LF]) ++ rest)
    with ((fmt_d cpu ++ §" " ++ fmt_d node) ++ LF :: rest) by now rewrite <- !app_assoc.
  assert (Hno : forall c, isdigit_base 10 c = false -> c <> " "%char -> c ∉ fmt_d cpu ++ §" " ++ fmt_d node).
  { intros c Hd Hs. rewrite !not_elem_of_app. split; [apply fmt_d_no_sep; [lia|done]|].
    split; [|apply fmt_d_no_sep; [lia|done]]. intros Hin. change (§" ") with [" "%char] in Hin. set_solver. }
  unfold flgets. rewrite lgets_line; [|done|now apply Hno|].
  2: { rewrite !length_app. pose proof (fmt_d_width cpu 7 ltac:(lia) ltac:(lia)).
       pose proof (fmt_d_width node 6 ltac:(lia) ltac:(lia)). unfold SMALL_BUFSZ. cbn [length str list_ascii_of_string]. lia. }
  rewrite cstr_of_id by now apply Hno. rewrite scan_u_u_line by (unfold INT_MAX; lia).
  unfold set_node. rewrite !(proj2 (Z.leb_gt _ _)) by lia. done.
Qed.

Lemma u32_node nmems node :
  0 < nmems <= 10 ^ 6 -> INT_MIN <= node <= INT_MAX ->
  (u32 node <? nmems) = ((0 <=? node) && (node <? nmems)) /\ (u32 node < nmems -> u32 node = node).
Proof.
  intros Hm Hn. unfold INT_MIN, INT_MAX in Hn. destruct (decide (0 <= node)) as [H|H].
  - rewrite u32_small by lia. rewrite (proj2 (Z.leb_le 0 node)) by lia. done.
  - assert (E : u32 node = node + 4294967296).
    { unfold u32, uwrap. change (2 ^ 32) with 4294967296.
      rewrite <- (Z.mod_unique_pos node 4294967296 (-1) (node + 4294967296)); lia. }
    rewrite E. rewrite (proj2 (Z.leb_gt 0 node)) by lia. split; [apply Z.ltb_ge; lia|lia].
Qed.

Lemma load_lines_ok ncpus nmems i m pre fuel :
  machine_ok ncpus nmems -> Forall (fun node => INT_MIN <= node <= INT_MAX) m ->
  length pre = i -> Z.of_nat (i + length m) = ncpus ->
  (length (concat (imap (fun k => map_line nmems (i + k)) m)) < fuel)%nat ->
  load_lines fuel ncpus nmems (concat (imap (fun k => map_line nmems (i + k)) m))
    (pre ++ replicate (length m) nmems) = pre ++ map (known_node nmems) m.
Proof.
  intros Hmo Hm. revert i pre fuel. induction Hm as [|node m Hn Hm IH]; intros i pre fuel Hp Hi Hf.
  { cbn [imap imap2 concat map length replicate] in *. destruct fuel as [|fuel]; [lia|]. done. }
  cbn [length replicate map] in *. rewrite imap_cons in *. cbn [concat] in *. rewrite Nat.add_0_r in *.
  assert (Eim : imap ((fun k => map_line nmems (i + k)) ∘ S) m = imap (fun k => map_line nmems (S i + k)) m).
  { apply imap_ext. intros k x _. cbn. now rewrite Nat.add_succ_r. }
  rewrite Eim in *. rewrite length_app in Hf.
  assert (Hlen : forall x : Z, length (pre ++ [x]) = S i) by (intros x; rewrite length_app; cbn; lia).
  destruct (u32_node nmems node (mo_mems _ _ Hmo) Hn) as [E1 E2].
  assert (Ek : known_node nmems node = if u32 node <? nmems then node else nmems) by (unfold known_node; now rewrite E1).
  rewrite Ek. unfold map_line at 1. unfold map_line at 1 in Hf. clear Ek E1.
  destruct (u32 node <? nmems) eqn:Eu; zbool.
  - pose proof (u32_range node) as Hu. specialize (E2 Eu). rewrite E2 in *. destruct fuel as [|fuel]; [lia|].
    rewrite load_line; [|done|lia|lia].
    rewrite Nat2Z.id, insert_app_r_alt by lia. rewrite Hp, Nat.sub_diag. cbn [insert list_insert replicate].
    assert (1 <= length (fmt_d (Z.of_nat i) ++ §" " ++ fmt_d node ++ [LF]))%nat
      by (rewrite !length_app; cbn [length]; lia).
    specialize (IH (S i) (pre ++ [node]) fuel (Hlen _) ltac:(lia) ltac:(lia)). now rewrite <- !app_assoc in IH.
  - cbn [length Nat.add] in Hf. specialize (IH (S i) (pre ++ [nmems]) fuel (Hlen _) ltac:(lia) Hf).
    now rewrite <- !app_assoc in IH.
Qed.

Lemma map_file_read ncpus nmems m :
  machine_ok ncpus nmems -> Forall (fun node => INT_MIN <= node <= INT_MAX) m -> Z.of_nat (length m) = ncpus ->
  load_lines (S (length (map_text nmems m))) ncpus nmems (map_text nmems m) (replicate (Z.to_nat ncpus) nmems) =
  map (known_node nmems) m.
Proof.
  intros Hmo Hm Hl. replace (Z.to_nat ncpus) with (length m) by lia.
  apply (load_lines_ok ncpus nmems 0 m [] _ Hmo Hm eq_refl); [done|exact (Nat.lt_succ_diag_r _)].
Qed.

(** ** Local CPUs and nodes *)

Lemma fold_bits_spec (sel : Z -> option Z) n b :
  wf b -> (forall cpu j, 0 <= cpu -> sel cpu = Some j -> 0 <= j) -> 0 <= n ->
  let b' := fold_left (fun b cpu => match sel cpu with Some j => bitmask_setbit b j | None => b end) (seqZ 0 n) b in
  wf b' /\ size b' = size b /\
  forall i, 0 <= i < size b -> bit b' i = true <-> bit b i = true \/ exists cpu, 0 <= cpu < n /\ sel cpu = Some i.
Proof.
  intros Hwf Hsel Hn. cbn zeta.
  assert (H : forall l, (forall c, c ∈ l -> 0 <= c < n) -> forall b, wf b ->
    let b' := fold_left (fun b cpu => match sel cpu with Some j => bitmask_setbit b j | None => b end) l b in
    wf b' /\ size b' = size b /\
    forall i, 0 <= i < size b -> bit b' i = true <-> bit b i = true \/ exists cpu, cpu ∈ l /\ sel cpu = Some i).
  { clear b Hwf. induction l as [|c l IH]; intros Hl b Hwf; cbn [fold_left].
    { split; [done|]. split; [done|]. intros i Hi. split; [auto|]. intros [?|(? & ? & _)]; [done|set_solver]. }
    destruct (sel c) as [j|] eqn:Ec.
    - destruct (IH ltac:(set_solver) (bitmask_setbit b j)) as (I1 & I2 & I3); [now apply setbit_wf|].
      unfold bitmask_setbit in *. rewrite setbit_size in *. split; [done|]. split; [done|]. intros i Hi.
      rewrite I3 by done. pose proof (Hsel c j ltac:(specialize (Hl c); set_solver) Ec). rewrite bit_setbit by (done || lia).
      destruct ((i =? j) && (j <? size b)) eqn:Eb; zbool.
      + split; [intros _; right; exists c; split; [set_solver|congruence]|auto].
      + split; [intros [?|(x & ? & ?)]; [auto|right; exists x; set_solver]|].
        intros [?|(x & [->|Hx]%elem_of_cons & Ex)]; [auto| |right; eauto].
        rewrite Ec in Ex. injection Ex as <-. lia.
    - destruct (IH ltac:(set_solver) b Hwf) as (I1 & I2 & I3). split; [done|]. split; [done|]. intros i Hi.
      rewrite I3 by done. split; [intros [?|(x & ? & ?)]; [auto|right; exists x; set_solver]|].
      intros [?|(x & [->|Hx]%elem_of_cons & Ex)]; [auto|congruence|right; eauto]. }
  destruct (H (seqZ 0 n)) with (b := b) as (H1 & H2 & H3); [intros c Hc%elem_of_seqZ; lia|done|].
  split; [done|]. split; [done|]. intros i Hi. rewrite H3 by done.
  split; (intros [?|(c & Hc & Ec)]; [auto|right; exists c; split; [|done]]); [apply elem_of_seqZ in Hc; lia|apply elem_of_seqZ; lia].
Qed.

Lemma fold_left_same {A B} (f g : A -> B -> A) l a : (forall a b, f a b = g a b) -> fold_left f l a = fold_left g l a.
Proof. intros H. revert a. induction l as [|x l IH]; intros a; cbn; [done|]. now rewrite H, IH. Qed.

Lemma local_cpus_spec m nodes ncpus b i :
  wf b -> size b = ncpus -> 0 <= i < ncpus ->
  bit (local_cpus m nodes ncpus b) i = bit nodes (u32 (nth (Z.to_nat i) m 0)).
Proof.
  intros Hwf Hs Hi. unfold local_cpus. destruct (clearall_spec b Hwf) as (C1 & C2 & C3).
  set (sel := fun cpu => if bit nodes (u32 (nth (Z.to_nat cpu) m 0)) then Some cpu else None).
  rewrite (fold_left_same _ (fun b cpu => match sel cpu with Some j => bitmask_setbit b j | None => b end))
    by (intros; unfold sel, bitmask_isbitset, bit; now destruct (negb _)).
  destruct (fold_bits_spec sel ncpus (bitmask_clearall b) C1) as (_ & _ & H); [|lia|].
  { intros cpu j Hc. unfold sel. destruct (bit _ _); [now intros [= <-]|done]. }
  apply eq_iff_eq_true. rewrite H, C3 by lia. unfold sel. split.
  - intros [?|(c & Hc & Ec)]; [done|]. destruct (bit nodes _) eqn:E in Ec; [|done]. now injection Ec as ->.
  - intros E. right. exists i. now rewrite E.
Qed.

Lemma local_mems_spec m cs ncpus b j :
  wf b -> 0 <= ncpus -> 0 <= j < size b ->
  bit (local_mems m cs ncpus b) j = true <->
  exists cpu, 0 <= cpu < ncpus /\ bit cs cpu = true /\ u32 (nth (Z.to_nat cpu) m 0) = j.
Proof.
  intros Hwf Hs Hj. unfold local_mems. destruct (clearall_spec b Hwf) as (C1 & C2 & C3).
  set (sel := fun cpu => if bit cs cpu then Some (u32 (nth (Z.to_nat cpu) m 0)) else None).
  rewrite (fold_left_same _ (fun b cpu => match sel cpu with Some j => bitmask_setbit b j | None => b end))
    by (intros; unfold sel, bitmask_isbitset, bit; now destruct (negb _)).
  destruct (fold_bits_spec sel ncpus (bitmask_clearall b) C1) as (_ & _ & H); [|lia|].
  { intros cpu i Hc. unfold sel. destruct (bit _ _); [|done]. intros [= <-]. apply u32_range. }
  rewrite H, C3 by lia. unfold sel. split.
  - intros [?|(c & Hc & Ec)]; [done|]. exists c. destruct (bit cs c); [|done]. now injection Ec as ->.
  - intros (c & Hc & E & <-). right. exists c. now rewrite E.
Qed.

(** ** The shared file *)

(** The calls of a process that may write the map file. *)
Class FileFs `{F : FileKernel} : Prop := {
  ff_mkstemp t k : exists buf k', k_mkstemp t k = inr (buf, k');
  ff_fill p t k : k_read p (k_fill p t k) = Contents t;
  ff_utime p x t k : k_read p k = Contents x ->
    exists k', k_utime p t k = inr k' /\ k_read p k' = Contents x /\ k_stat p k' = inr (false, t);
  ff_rename p q x st k : k_read p k = Contents x -> k_stat p k = inr st ->
    exists k', k_rename p q k = inr k' /\ k_read q k' = Contents x /\ k_stat q k' = inr st;
  ff_chmod p x st m k : k_read p k = Contents x -> k_stat p k = inr st ->
    exists k', k_chmod p m k = inr k' /\ k_read p k' = Contents x /\ k_stat p k' = inr st;
}.

Section Shared.
Context `{FF : FileFs}.

(** The file holds the map [m], written at [t]. *)
Definition stored (nmems : Z) (m : list Z) (t : Z) (k : kst) : Prop :=
  k_read mapfile k = Contents (map_text nmems m) /\ k_stat mapfile k = inr (false, t).

Lemma sys_ok f k s : f (kern s) = inr k -> sys f s = Done 0 (set_kern k s).
Proof. intros E. unfold sys. now rewrite E. Qed.

Lemma store_map_ok nc nm m t s :
  ready nc nm s -> cpunodemap s = (Some m, t) -> Z.of_nat (length m) = nc ->
  ends store_map (fun _ s' => keeps s s' /\ stored nm m t (kern s')) s.
Proof.
  intros Hrd Hm Hl. unfold store_map.
  eapply ends_step; [now apply (cpus_nbits_ready nc nm)|]. eapply ends_step; [now apply (mems_nbits_ready nc nm)|].
  eapply ends_step; [reflexivity|].
  destruct (ff_mkstemp (mapfile ++ §".XXXXXX") (kern s)) as (buf & k1 & ->).
  eapply ends_step; [reflexivity|].
  eapply ends_step; [unfold malloc; cbn [heap set_kern]; rewrite (rd_heap _ _ _ Hrd); reflexivity|]. cbn [negb].
  rewrite Hm. cbn [fst snd]. eapply ends_step; [reflexivity|]. eapply ends_step; [reflexivity|].
  rewrite take_ge by lia. set (text := map_text nm m).
  destruct (ff_utime buf text t (k_fill buf text k1) (ff_fill _ _ _)) as (k2 & E2 & R2 & S2).
  eapply ends_step; [apply sys_ok; exact E2|].
  destruct (ff_rename buf mapfile text (false, t) k2 R2 S2) as (k3 & E3 & R3 & S3).
  eapply ends_step; [apply sys_ok; exact E3|]. cbn [Z.ltb Z.compare].
  destruct (ff_chmod mapfile text (false, t) 292 k3 R3 S3) as (k4 & E4 & R4 & S4).
  eapply ends_step; [apply sys_ok; exact E4|]. apply ends_ret. split; done.
Qed.

Lemma get_mtime_ok p t s : k_stat p (kern s) = inr (false, t) -> get_mtime p s = Done t s.
Proof. intros E. unfold get_mtime, mbind, E_bind, ask, mret, E_ret. now rewrite E. Qed.

(** Another process loads the file. *)
Lemma get_map_loads nc nm m t s :
  machine_ok nc nm -> Forall (fun node => INT_MIN <= node <= INT_MAX) m -> Z.of_nat (length m) = nc ->
  ready nc nm s -> cpunodemap s = (None, 0) -> 0 < t -> stored nm m t (kern s) ->
  ends get_map (fun r s' => r = 0 /\ (cpunodemap s').1 = Some (map (known_node nm) m)) s.
Proof.
  intros Hmo Hm Hl Hrd Hmap Ht [Hread Hstat]. unfold get_map. eapply ends_step; [reflexivity|]. rewrite Hmap. cbn [fst snd].
  set (s1 := set_map (Some (replicate (Z.to_nat nc) 0), 0) s).
  assert (Hrd1 : ready nc nm s1) by (destruct Hrd; split; done).
  eapply (ends_step _ _ true s s1).
  { rewrite (bind_Done _ _ _ s s (cpus_nbits_ready nc nm s Hrd)).
    rewrite (bind_Done _ _ true s s) by (unfold malloc; now rewrite (rd_heap _ _ _ Hrd)). reflexivity. }
  cbn [negb]. assert (Et : get_mtime mapfile s1 = Done t s1) by now apply get_mtime_ok.
  eapply ends_step; [exact Et|]. eapply ends_step; [reflexivity|].
  eapply (ends_step _ _ tt s1 s1).
  { cbn [cpunodemap s1 set_map snd]. rewrite (proj2 (Z.eqb_neq t 0)) by lia. reflexivity. }
  eapply ends_step; [exact Et|]. eapply ends_step; [reflexivity|]. cbn [cpunodemap s1 set_map snd].
  rewrite (proj2 (Z.ltb_lt 0 t)) by lia. apply ends_bind. unfold load_map.
  eapply ends_step; [now apply (cpus_nbits_ready nc nm)|]. eapply ends_step; [now apply (mems_nbits_ready nc nm)|].
  eapply ends_step; [unfold malloc; rewrite (rd_heap _ _ _ Hrd1); reflexivity|]. eapply ends_step; [reflexivity|]. cbn [negb].
  eapply ends_step; [exact Et|]. eapply ends_step; [reflexivity|].
  eapply ends_step; [unfold read_file; cbn [kern s1 set_map]; rewrite Hread; reflexivity|].
  apply ends_modify. apply ends_ret. split; [done|]. cbn [cpunodemap set_map fst]. f_equal. now apply map_file_read.
Qed.
End Shared.

Lemma nth_known nm m i :
  0 < nm <= 10 ^ 6 -> 0 <= i < Z.of_nat (length m) ->
  u32 (nth (Z.to_nat i) (map (known_node nm) m) 0) = known_node nm (nth (Z.to_nat i) m 0).
Proof.
  intros Hm Hi. rewrite (nth_indep _ 0 (known_node nm 0)) by (rewrite length_map; lia). rewrite map_nth.
  apply u32_small. unfold known_node. destruct (_ && _) eqn:E; zbool; lia.
Qed.

Lemma known_bit nm nodes x :
  size nodes = nm -> bit nodes (known_node nm x) = true <-> 0 <= x /\ bit nodes x = true.
Proof.
  intros Hs. unfold known_node. destruct ((0 <=? x) && (x <? nm)) eqn:E; zbool; [naive_solver lia|].
  rewrite (bit_out nodes nm) by lia. split; [done|]. intros [Hx Hb].
  destruct (decide (x < nm)); [|now rewrite bit_out in Hb by lia].
  rewrite (proj2 (Z.leb_le 0 x)), (proj2 (Z.ltb_lt x nm)) in E by lia. done.
Qed.

(** C20: What one process stores another one uses: with the map [m] in the file, the
    CPUs local to a set of nodes are those [m] puts on one of them, and the nodes
    local to a set of CPUs are those [m] puts one of them on; a CPU without a
    node counts for none. *)
Theorem map_shared `{FF : FileFs} nc nm m t nodes cs b1 b2 s1 :
  machine_ok nc nm -> Forall (fun node => INT_MIN <= node <= INT_MAX) m -> Z.of_nat (length m) = nc ->
  ready nc nm s1 -> cpunodemap s1 = (Some m, t) -> 0 < t ->
  size nodes = nm -> wf b1 -> size b1 = nc -> wf b2 -> size b2 = nm ->
  ends store_map (fun _ s1' => forall s2, ready nc nm s2 -> cpunodemap s2 = (None, 0) -> kern s2 = kern s1' ->
    ends (cpuset_localcpus nodes b1) (fun r _ => r.1 = 0 /\ forall i, 0 <= i < nc ->
      bit r.2 i = true <-> 0 <= nth (Z.to_nat i) m 0 /\ bit nodes (nth (Z.to_nat i) m 0) = true) s2 /\
    ends (cpuset_localmems cs b2) (fun r _ => r.1 = 0 /\ forall j, 0 <= j < nm ->
      bit r.2 j = true <-> exists i, 0 <= i < nc /\ bit cs i = true /\ nth (Z.to_nat i) m 0 = j) s2) s1.
Proof.
  intros Hmo Hm Hl Hrd Hmap Ht Hn W1 S1 W2 S2. eapply ends_mono; [now apply (store_map_ok nc nm m t)|].
  intros _ s1' [_ Hst] s2 Hrd2 Hmap2 Hk. rewrite <- Hk in Hst.
  pose proof (get_map_loads nc nm m t s2 Hmo Hm Hl Hrd2 Hmap2 Ht Hst) as Hg. split.
  - unfold cpuset_localcpus. eapply ends_step; [now apply (cpus_nbits_ready nc nm)|].
    eapply ends_step; [now apply (check_ready nc nm)|]. cbn [Z.ltb Z.compare].
    apply ends_bind. eapply ends_mono; [exact Hg|]. intros r s3 [_ E3]. eapply ends_step; [reflexivity|].
    rewrite E3. eapply ends_step; [reflexivity|]. apply ends_ret. split; [done|]. intros i Hi. cbn [snd].
    rewrite local_cpus_spec, nth_known by (done || lia || apply Hmo). now apply known_bit.
  - unfold cpuset_localmems. eapply ends_step; [now apply (cpus_nbits_ready nc nm)|].
    eapply ends_step; [now apply (check_ready nc nm)|]. cbn [Z.ltb Z.compare].
    apply ends_bind. eapply ends_mono; [exact Hg|]. intros r s3 [_ E3]. eapply ends_step; [reflexivity|].
    rewrite E3. eapply ends_step; [reflexivity|]. apply ends_ret. split; [done|]. intros j Hj. cbn [snd].
    rewrite local_mems_spec by (done || lia). pose proof (mo_mems _ _ Hmo).
    split; intros (i & Hi & Hb & E); exists i; (split; [done|]); (split; [done|]).
    + rewrite nth_known in E by lia. unfold known_node in E. destruct (_ && _) eqn:Ek in E; lia.
    + rewrite nth_known by lia. unfold known_node. rewrite E.
      now rewrite (proj2 (Z.leb_le 0 j)), (proj2 (Z.ltb_lt j nm)) by lia.
Qed.

(** ** A small kernel *)

(** Files with their contents and times; what is not needed here fails. *)
Definition timed_files : Type := cstr -> option (cstr * Z).

Definition put_file (p : cstr) (x : option (cstr * Z)) (k : timed_files) : timed_files :=
  fun q => if decide (q = p) then x else k q.

Definition map_kernel : Kernel := {|
  kst := timed_files;
  k_read p k := match k p with Some (x, _) => Contents x | None => NoOpen ENOENT end;
  k_stat p k := match k p with Some (_, t) => inr (false, t) | None => inl ENOENT end;
  k_write _ _ _ := inl EINVAL;
  k_mkdir _ _ := inl EINVAL;
  k_rmdir _ _ := inl EINVAL;
  k_readdir _ _ := inl ENOENT;
  k_uname _ := inl EINVAL;
|}.

Definition map_files : @FileKernel map_kernel := @Build_FileKernel map_kernel
  (fun _ : timed_files => 7)
  (fun t (k : timed_files) => inr (t, put_file t (Some ([], 7)) k))
  (fun p x (k : timed_files) => put_file p (Some (x, 7)) k)
  (fun p t (k : timed_files) =>
     match k p with Some (x, _) => inr (put_file p (Some (x, t)) k) | None => inl ENOENT end)
  (fun p q (k : timed_files) =>
     match k p with Some x => inr (put_file q (Some x) (put_file p None k)) | None => inl ENOENT end)
  (fun p _ (k : timed_files) => match k p with Some _ => inr k | None => inl ENOENT end)
  (fun p (k : timed_files) => inr (put_file p None k)).

Lemma map_files_fs : @FileFs map_kernel map_files.
Proof.
  split; cbn.
  - eauto.
  - intros p t k. unfold put_file. now rewrite decide_True.
  - intros p x t k H. destruct (k p) as [[y u]|]; [|done]. injection H as ->. eexists. split; [done|].
    unfold put_file. now rewrite !decide_True.
  - intros p q x st k H1 H2. destruct (k p) as [[y u]|]; [|done]. injection H1 as ->. injection H2 as <-.
    eexists. split; [done|]. unfold put_file. now rewrite !decide_True.
  - intros p x st m k H1 H2. destruct (k p) as [[y u]|] eqn:E; [|done]. eexists. split; [done|].
    rewrite E. now injection H1 as ->.
Qed.

(** Four CPUs, two on each of two nodes and one of them without a node. *)
Lemma map_shared_witness :
  exists s1', @store_map map_kernel map_files
      (@mkLib map_kernel (fun _ => None) 0 [] check_ok 4 2 0 0 (Some [0; 1; -1; 1], 5)) = Done tt s1' /\
    forall s2, ready 4 2 s2 -> cpunodemap s2 = (None, 0) -> kern s2 = kern s1' ->
    exists r s3, @cpuset_localcpus map_kernel map_files (mkMask 2 [2]) (mkMask 4 [0]) s2 = Done r s3 /\
      forall i, 0 <= i < 4 -> bit r.2 i = true <->
        0 <= nth (Z.to_nat i) [0; 1; -1; 1] 0 /\ bit (mkMask 2 [2]) (nth (Z.to_nat i) [0; 1; -1; 1] 0) = true.
Proof.
  assert (W : forall n, 0 <= n <= 64 -> 1 <= n -> wf (mkMask n [0])).
  { intros n H H1. split; [unfold INT_MAX; cbn; lia|]. cbn. unfold longsperbits, howmany, bitsperlong.
    replace (n + (64 - 1)) with (n - 1 + 1 * 64) by lia. rewrite Z.div_add by lia. rewrite Z.div_small by lia. done. }
  pose proof (@map_shared map_kernel map_files map_files_fs 4 2 [0; 1; -1; 1] 5 (mkMask 2 [2]) (mkMask 4 [1])
    (mkMask 4 [0]) (mkMask 2 [0]) (@mkLib map_kernel (fun _ => None) 0 [] check_ok 4 2 0 0 (Some [0; 1; -1; 1], 5))) as H.
  apply ends_Done in H as ([] & s1' & E & H).
  - exists s1'. split; [exact E|]. intros s2 R2 M2 K2. destruct (H s2 R2 M2 K2) as [H1 _].
    apply ends_Done in H1 as (r & s3 & E3 & _ & H3). eauto.
  - split; lia.
  - repeat apply List.Forall_cons; try apply List.Forall_nil; unfold INT_MIN, INT_MAX; lia.
  - done.
  - split; try done; unfold INT_MAX; lia.
  - done.
  - lia.
  - done.
  - apply W; lia.
  - done.
  - apply W; lia.
  - done.
Defined.
