(* ===== verification/CpusetIo.v ===== *)
(** The text format of the cpuset library: [cpuset_export] writes the members of
    a structure into a buffer, [cpuset_import] reads them back, and the two are
    inverse. *)
From Stdlib Require Import Ascii String ZArith Lia Bool.
From stdpp Require Import base list sets numbers.
From S2P Require Import Prelude CString Effects Bitmask BitmaskText CpusetText Cpuset CpusetFiles CpusetQuery CpusetModify CpusetOk CpusetMap CpusetMapOk.

Local Open Scope Z_scope.

(** The flags of the format, in the order of both functions. *)
Definition io_flags : list flag :=
  [cpu_exclusive; mem_exclusive; notify_on_release; memory_pressure_enabled; memory_migrate;
   memory_spread_page; memory_spread_slab].

Section Io.
Context `{F : FileKernel}.

Local Abbreviation M := (E lib).

(** What [n += snprintf(buf + n, MAX(buflen - n, 0), ...)] makes of the buffer. *)
Definition export_flags (cp : cpuset) (buflen : Z) (st : cstr * Z) : cstr * Z :=
  fold_left (fun st f =>
    if val (flags cp f) =? 0 then st else append buflen st (flag_name f ++ [LF])) io_flags st.

(** The return value and the text in the buffer. *)
Definition cpuset_export (cp : cpuset) (buflen : Z) : M (Z * cstr) :=
  let st := export_flags cp buflen ([], 0) in
  b ← some (val (cpus cp));
  tmp ← sprint_mask_buf b;
  match tmp with
  | None => mret (-1, st.1)
  | Some tmp =>
      let st := append buflen st (§"cpus " ++ tmp ++ [LF]) in
      b ← some (val (mems cp));
      tmp ← sprint_mask_buf b;
      match tmp with
      | None => mret (-1, st.1)
      | Some tmp =>
          let st := append buflen st (§"mems " ++ tmp ++ [LF]) in
          mret (st.2, st.1)
      end
  end.

Definition blanks : cstr := [" "%char; TAB].

(** [strtok_r(0, " \t", &ptr)]: the token, if any, and the rest. *)
Definition next_tok (ptr : cstr) : option cstr * cstr :=
  match strtok blanks ptr with
  | Some (t, r) => (Some t, r)
  | None => (None, [])
  end.

(** One line: the error message, if any, and the structure. *)
Definition import_line (cp : cpuset) (linebuf : cstr) : M (option cstr * cpuset) :=
  match strtok blanks (takewhile (fun c => negb (ceqb c "#")) linebuf) with
  | None => mret (None, cp)
  | Some (tok, ptr) =>
      let tok := stolower tok in
      let '(arg, ptr) := next_tok ptr in
      let eol cp := mret (match (next_tok ptr).1 with
                          | Some t => (Some (§"Surplus token: '" ++ t ++ §"'"), cp)
                          | None => (None, cp)
                          end) in
      let bad := Some (§"Invalid list format: " ++ default [] arg) in
      match find_flag io_flags tok with
      | Some f => eol (set_flag f (mkMem 1 (valid (flags cp f)) (dirty (flags cp f))) cp)
      | None =>
          if streq tok §"cpu" || streq tok §"cpus" then
            b ← some (val (cpus cp));
            r ← parselist arg b;
            let cp := set_cpus (mkMem (Some r.2) (valid (cpus cp)) (dirty (cpus cp))) cp in
            if r.1 <? 0 then mret (bad, cp) else eol cp
          else if streq tok §"mem" || streq tok §"mems" then
            b ← some (val (mems cp));
            r ← parselist arg b;
            let cp := set_mems (mkMem (Some r.2) (valid (mems cp)) (dirty (mems cp))) cp in
            if r.1 <? 0 then mret (bad, cp) else eol cp
          else mret (Some (§"Unrecognized token: '" ++ tok ++ §"'"), cp)
      end
  end.

(** The lines: the number of the last one and the error message, if any. *)
Fixpoint import_loop (fuel : nat) (linebuflen : nat) (cp : cpuset) (input : cstr) (linenum : Z)
    : M (Z * option cstr * cpuset) :=
  match fuel with
  | O => mret (linenum, None, cp)
  | S fuel =>
      match slgets linebuflen input with
      | None => mret (linenum, None, cp)
      | Some (line, rest) =>
          r ← import_line cp line;
          match r with
          | (Some e, cp) => mret (linenum + 1, Some e, cp)
          | (None, cp) => import_loop fuel linebuflen cp rest (linenum + 1)
          end
      end
  end.

(** Masks that are missing are derived from the map of CPUs to nodes. *)
Definition import_local (cp : cpuset) : M cpuset :=
  c ← some (val (cpus cp));
  m ← some (val (mems cp));
  if bitmask_isallclear c && negb (bitmask_isallclear m) then
    r ← cpuset_localcpus m c;
    mret (set_cpus (mkMem (Some r.2) (valid (cpus cp)) (dirty (cpus cp))) cp)
  else if negb (bitmask_isallclear c) && bitmask_isallclear m then
    r ← cpuset_localmems c m;
    mret (set_mems (mkMem (Some r.2) (valid (mems cp)) (dirty (mems cp))) cp)
  else mret cp.

Definition validate {A} (m : member A) : member A := mkMem (val m) true (dirty m).

(** The return value, the structure, and on an error the number of the line and
    the message, which [emsg] receives cut to [elen]. *)
Definition cpuset_import (cp : cpuset) (buf : cstr) : M (Z * cpuset * option (Z * cstr)) :=
  let linebuflen := (length buf + 1)%nat in
  c ← malloc;
  if negb c then mret (-1, cp, Some (0, §"Insufficient memory"))
  else
    r ← import_loop (S (length buf)) linebuflen cp buf 0;
    match r with
    | (n, Some e, cp) => mret (-1, cp, Some (n, e))
    | (_, None, cp) =>
        cp ← import_local cp;
        let cp := set_cpus (validate (cpus cp)) (set_mems (validate (mems cp)) cp) in
        mret (0, fold_left (fun cp f => set_flag f (validate (flags cp f)) cp) io_flags cp, None)
    end.
End Io.

(** ** What is exported *)

Definition line (s : cstr) : cstr := s ++ [LF].

(** The lines of a structure with these masks. *)
Definition export_lines (cp : cpuset) (b1 b2 : bitmask) : list cstr :=
  map flag_name (filter (fun f => val (flags cp f) <> 0) io_flags) ++
  [§"cpus " ++ list_text b1; §"mems " ++ list_text b2].

(** The buffer of the state [st] against the text that should be in it. *)
Definition ideal (buflen : Z) (st : cstr * Z) (t : cstr) : Prop :=
  st.2 = Z.of_nat (length t) /\ (Z.of_nat (length t) < buflen -> st.1 = t).

Lemma append_ideal buflen st t s : ideal buflen st t -> ideal buflen (append buflen st s) (t ++ s).
Proof.
  destruct st as [out len]. intros [H1 H2]. cbn [fst snd] in *. split.
  - unfold append. cbn. rewrite H1, length_app. lia.
  - intros Hl. rewrite length_app in Hl. rewrite H2, H1 in * by lia. rewrite append_fits by (rewrite length_app; lia). done.
Qed.

Lemma export_flags_ideal cp buflen l st t :
  ideal buflen st t ->
  ideal buflen (fold_left (fun st f =>
      if val (flags cp f) =? 0 then st else append buflen st (flag_name f ++ [LF])) l st)
    (t ++ concat (map line (map flag_name (filter (fun f => val (flags cp f) <> 0) l)))).
Proof.
  revert st t. induction l as [|f l IH]; intros st t Hi; cbn [fold_left].
  - now rewrite app_nil_r.
  - destruct (val (flags cp f) =? 0) eqn:E; zbool.
    + rewrite filter_cons_False by auto. now apply IH.
    + rewrite filter_cons_True by done. cbn [map concat]. rewrite app_assoc. apply IH. now apply append_ideal.
Qed.

Section Exported.
Context `{F : FileKernel}.

Lemma export_ok cp buflen b1 b2 s :
  heap s = [] -> val (cpus cp) = Some b1 -> val (mems cp) = Some b2 -> wf b1 -> wf b2 ->
  exists n text, cpuset_export cp buflen s = Done (n, text) s /\
    (n < buflen -> text = concat (map line (export_lines cp b1 b2))).
Proof.
  intros Hh E1 E2 W1 W2. unfold cpuset_export. rewrite E1, E2, !bind_some.
  rewrite (bind_Done _ _ _ s s (sprint_mask_buf_ok b1 s W1 Hh)). rewrite bind_some.
  rewrite (bind_Done _ _ _ s s (sprint_mask_buf_ok b2 s W2 Hh)). eexists _, _. split; [reflexivity|].
  assert (H0 : ideal buflen ([], 0) []) by done.
  apply (export_flags_ideal cp buflen io_flags) in H0. cbn [app] in H0.
  apply (append_ideal _ _ _ (§"cpus " ++ list_text b1 ++ [LF])) in H0.
  apply (append_ideal _ _ _ (§"mems " ++ list_text b2 ++ [LF])) in H0. destruct H0 as [Hn Ht].
  unfold export_flags. rewrite Hn. intros Hl. rewrite Ht by exact Hl. unfold export_lines.
  rewrite map_app, concat_app. cbn [map concat]. unfold line. rewrite <- !app_assoc. now rewrite app_nil_r.
Qed.
End Exported.

(** ** What is imported *)

(** Text the line reader does not take for the end of the input. *)
Definition ascii_ok (c : ascii) : Prop := chr_code c < 128.

#[global] Instance ascii_ok_dec c : Decision (ascii_ok c).
Proof. unfold ascii_ok. apply _. Defined.

Lemma sgetc_ascii c r : ascii_ok c -> sgetc (c :: r) = (chr_code c, r).
Proof.
  intros H. unfold ascii_ok in H. pose proof (chr_code_range c). unfold sgetc, swrap. f_equal.
  change (2 ^ (8 - 1)) with 128. change (2 ^ 8) with 256. rewrite Z.mod_small by lia. lia.
Qed.

Lemma slgets_line n l rest :
  Forall ascii_ok l -> LF ∉ l -> (length l + 1 < n)%nat -> slgets n (line l ++ rest) = Some (l, rest).
Proof.
  intros Ha Hl Hn. unfold slgets, line. rewrite <- app_assoc. cbn [app]. apply lgets_line; [|done|done].
  intros c r Hc. apply sgetc_ascii. apply elem_of_app in Hc as [Hc|Hc].
  - rewrite List.Forall_forall in Ha. now apply Ha, list_elem_of_In.
  - apply list_elem_of_singleton in Hc as ->. unfold ascii_ok. now vm_compute.
Qed.

Lemma list_text_elem b c :
  wf b -> c ∈ list_text b -> isdigit_base 10 c = true \/ c = "-"%char \/ c = ","%char.
Proof.
  intros Hwf Hc. destruct (isdigit_base 10 c) eqn:Ed; [now left|right].
  destruct (decide (c = "-"%char)) as [|Hm]; [now left|]. destruct (decide (c = ","%char)) as [|Hk]; [now right|].
  now apply (list_text_chars b c) in Hc.
Qed.

Lemma digit_ascii c : isdigit_base 10 c = true -> ascii_ok c.
Proof.
  unfold isdigit_base, digit_val, ascii_ok. intros H. zbool. revert H. repeat case_if; zbool; lia.
Qed.

Lemma list_text_ascii b : wf b -> Forall ascii_ok (list_text b).
Proof.
  intros Hwf. apply List.Forall_forall. intros c Hc%list_elem_of_In.
  destruct (list_text_elem b c Hwf Hc) as [Hd|[-> | ->]]; [now apply digit_ascii|unfold ascii_ok; now vm_compute..].
Qed.

Lemma strtok_one seps t : t <> [] -> Forall (fun c => memc c seps = false) t -> strtok seps t = Some (t, []).
Proof.
  intros Hne Ht. destruct t as [|c t]; [done|]. inversion Ht as [|? ? Hc Ht']; subst.
  unfold strtok. rewrite dropwhile_stop by done.
  assert (Hn : Forall (fun x => negb (memc x seps) = true) (c :: t)).
  { eapply Forall_impl; [|exact Ht]. intros x Hx. cbn in Hx. now rewrite Hx. }
  now rewrite takewhile_id, dropwhile_id.
Qed.

Section Imported.
Context `{F : FileKernel}.

Lemma import_flag_line cp f s :
  f ∈ io_flags ->
  import_line cp (flag_name f) s =
  Done (None, set_flag f (mkMem 1 (valid (flags cp f)) (dirty (flags cp f))) cp) s.
Proof.
  intros Hf. destruct f; try reflexivity; exfalso; revert Hf; apply (bool_decide_unpack _); vm_compute; exact I.
Qed.

(** The list behind a keyword. *)
Lemma import_arg b : wf b ->
  next_tok (list_text b) = (if bool_decide (list_text b = []) then None else Some (list_text b), []).
Proof.
  intros Hwf. unfold next_tok. case_bool_decide as E; [now rewrite E|]. rewrite strtok_one; [done|done|].
  apply List.Forall_forall. intros c Hc%list_elem_of_In. apply memc_false. intros Hin.
  assert (Hb : c = " "%char \/ c = TAB) by (unfold blanks in Hin; set_solver).
  destruct (list_text_elem b c Hwf Hc) as [Hd|[-> | ->]]; [|destruct Hb; done..].
  destruct Hb as [-> | ->]; discriminate Hd.
Qed.

Lemma parselist_text b c (s : lib) :
  wf b -> wf c -> size c = size b ->
  exists b', parselist (if bool_decide (list_text b = []) then None else Some (list_text b)) c s = Done (0, b') s /\
    same_bits (size b) b b'.
Proof.
  intros Wb Wc Hs. case_bool_decide as E; cbn [parselist].
  - exists (bitmask_clearall c). destruct (clearall_spec c Wc) as (C1 & C2 & C3). split; [done|].
    split; [done|]. split; [lia|]. intros i Hi. rewrite C3 by done.
    symmetry. now apply (proj1 (list_text_nil b Wb) E).
  - destruct (list_text_parse b c (S (Z.to_nat (size c))) Wb Wc Hs ltac:(lia)) as (r & m & -> & W & Hz & Hb & Hcase).
    exists m. destruct Hcase as [[-> _]|[_ Hno]]; [done|]. now apply list_text_nil in Hno.
Qed.

Lemma no_hash b k : wf b -> "#"%char ∉ k -> takewhile (fun c => negb (ceqb c "#")) (k ++ list_text b) = k ++ list_text b.
Proof.
  intros Hwf Hk. apply takewhile_id. apply List.Forall_forall. intros c Hc%list_elem_of_In.
  apply negb_true_iff, ceqb_neq. intros ->. apply elem_of_app in Hc as [Hc|Hc]; [done|].
  now apply (list_text_chars b) in Hc.
Qed.

Lemma import_cpus_line cp b c s :
  wf b -> val (cpus cp) = Some c -> wf c -> size c = size b ->
  exists b', import_line cp (§"cpus " ++ list_text b) s =
      Done (None, set_cpus (mkMem (Some b') (valid (cpus cp)) (dirty (cpus cp))) cp) s /\ same_bits (size b) b b'.
Proof.
  intros Wb Ec Wc Hs. unfold import_line.
  rewrite no_hash by (done || (apply (bool_decide_unpack _); vm_compute; exact I)).
  assert (Et : strtok blanks (§"cpus " ++ list_text b) = Some (§"cpus", list_text b)) by reflexivity.
  rewrite Et, (import_arg b Wb). change (find_flag io_flags (stolower §"cpus")) with (@None flag).
  change (streq (stolower §"cpus") §"cpu" || streq (stolower §"cpus") §"cpus") with true. cbv iota.
  rewrite Ec, bind_some. destruct (parselist_text b c s Wb Wc Hs) as (b' & Ep & Hb').
  exists b'. rewrite (bind_Done _ _ _ s s Ep). done.
Qed.

Lemma import_mems_line cp b c s :
  wf b -> val (mems cp) = Some c -> wf c -> size c = size b ->
  exists b', import_line cp (§"mems " ++ list_text b) s =
      Done (None, set_mems (mkMem (Some b') (valid (mems cp)) (dirty (mems cp))) cp) s /\ same_bits (size b) b b'.
Proof.
  intros Wb Ec Wc Hs. unfold import_line.
  rewrite no_hash by (done || (apply (bool_decide_unpack _); vm_compute; exact I)).
  assert (Et : strtok blanks (§"mems " ++ list_text b) = Some (§"mems", list_text b)) by reflexivity.
  rewrite Et, (import_arg b Wb). change (find_flag io_flags (stolower §"mems")) with (@None flag).
  change (streq (stolower §"mems") §"cpu" || streq (stolower §"mems") §"cpus") with false.
  change (streq (stolower §"mems") §"mem" || streq (stolower §"mems") §"mems") with true. cbv iota.
  rewrite Ec, bind_some. destruct (parselist_text b c s Wb Wc Hs) as (b' & Ep & Hb').
  exists b'. rewrite (bind_Done _ _ _ s s Ep). done.
Qed.

(** One line that can be read. *)
Lemma import_loop_line fuel n cp cp' l rest k s :
  Forall ascii_ok l -> LF ∉ l -> (length l + 1 < n)%nat -> import_line cp l s = Done (None, cp') s ->
  import_loop (S fuel) n cp (line l ++ rest) k s = import_loop fuel n cp' rest (k + 1) s.
Proof.
  intros Ha Hl Hn E. cbn [import_loop]. rewrite slgets_line by done. now rewrite (bind_Done _ _ _ s s E).
Qed.

Lemma import_loop_end fuel n cp k s : import_loop fuel n cp [] k s = Done (k, None, cp) s.
Proof.
  destruct fuel as [|fuel]; [done|]. cbn [import_loop]. unfold slgets, lgets.
  destruct (n - 1)%nat; reflexivity.
Qed.

(** The structure behind the lines of some flags. *)
Definition with_flags (l : list flag) (cp : cpuset) : cpuset :=
  fold_left (fun cp f => set_flag f (mkMem 1 (valid (flags cp f)) (dirty (flags cp f))) cp) l cp.

Lemma with_flags_spec l cp :
  cpus (with_flags l cp) = cpus cp /\ mems (with_flags l cp) = mems cp /\
  sched_relax_domain_level (with_flags l cp) = sched_relax_domain_level cp /\
  forall f, flags (with_flags l cp) f =
    if decide (f ∈ l) then mkMem 1 (valid (flags cp f)) (dirty (flags cp f)) else flags cp f.
Proof.
  unfold with_flags. revert cp. induction l as [|g l IH]; intros cp; cbn [fold_left].
  { done. }
  destruct (IH (set_flag g (mkMem 1 (valid (flags cp g)) (dirty (flags cp g))) cp)) as (I1 & I2 & I3 & I4).
  repeat (split; [done|]). intros f. rewrite I4.
  now apply (flags_step (fun f m => mkMem 1 (valid m) (dirty m)) (flags cp)
    (flags (set_flag g (mkMem 1 (valid (flags cp g)) (dirty (flags cp g))) cp)) g l f).
Qed.

Lemma import_flag_lines fuel n cp l rest k s :
  (forall f, f ∈ l -> f ∈ io_flags /\ (length (flag_name f) + 1 < n)%nat) -> (length l <= fuel)%nat ->
  exists k', import_loop fuel n cp (concat (map line (map flag_name l)) ++ rest) k s =
    import_loop (fuel - length l) n (with_flags l cp) rest k' s.
Proof.
  revert fuel cp k. induction l as [|f l IH]; intros fuel cp k Hf Hfu; cbn [map concat length] in *.
  { exists k. now rewrite Nat.sub_0_r. }
  destruct fuel as [|fuel]; [lia|]. rewrite <- app_assoc.
  assert (Hok : Forall ascii_ok (flag_name f) /\ LF ∉ flag_name f).
  { split; (destruct f; apply (bool_decide_unpack _); vm_compute; exact I). }
  destruct Hok as [H1 H2]. destruct (Hf f ltac:(set_solver)) as [Hio Hn].
  rewrite (import_loop_line fuel n cp _ _ _ k s H1 H2 Hn (import_flag_line cp f s Hio)).
  destruct (IH fuel (set_flag f (mkMem 1 (valid (flags cp f)) (dirty (flags cp f))) cp) (k + 1))
    as [k' ->]; [intros g Hg; apply Hf; set_solver|lia|]. exists k'. done.
Qed.
End Imported.

(** ** The round trip *)

Lemma isallclear_bits b : wf b -> (bitmask_isallclear b = true <-> forall i, 0 <= i -> bit b i = false).
Proof.
  intros Hwf. unfold bitmask_isallclear. rewrite forallb_bits. split.
  - intros H i Hi. destruct (decide (i < size b)); [|now apply bit_out; lia]. unfold bit. now rewrite H by lia.
  - intros H i Hi. specialize (H i ltac:(lia)). unfold bit in H. now apply negb_false_iff in H.
Qed.

Lemma isallclear_same b b' : wf b -> wf b' -> (forall i, 0 <= i -> bit b' i = bit b i) ->
  bitmask_isallclear b' = bitmask_isallclear b.
Proof.
  intros W W' H. apply eq_iff_eq_true. rewrite !isallclear_bits by done.
  split; intros Hc i Hi; [rewrite <- H|rewrite H]; auto.
Qed.

Lemma validate_flags_spec l cp :
  let cp' := fold_left (fun cp f => set_flag f (validate (flags cp f)) cp) l cp in
  cpus cp' = cpus cp /\ mems cp' = mems cp /\
  sched_relax_domain_level cp' = sched_relax_domain_level cp /\
  forall f, flags cp' f = if decide (f ∈ l) then validate (flags cp f) else flags cp f.
Proof.
  revert cp. induction l as [|g l IH]; intros cp; cbn [fold_left]; [done|].
  destruct (IH (set_flag g (validate (flags cp g)) cp)) as (I1 & I2 & I3 & I4).
  repeat (split; [done|]). intros f. rewrite I4.
  now apply (flags_step (fun f => validate) (flags cp) (flags (set_flag g (validate (flags cp g)) cp)) g l f).
Qed.

(** The structure [cp'] has the members of [cp] that the format carries, and the
    others of [cp0]. *)
Record imported (cp cp0 cp' : cpuset) (b1 b2 : bitmask) : Prop := {
  im_flags f : flags cp' f = if decide (f ∈ io_flags)
                             then mkMem (Z.b2z (negb (val (flags cp f) =? 0))) true (dirty (flags cp0 f))
                             else flags cp0 f;
  im_level : sched_relax_domain_level cp' = sched_relax_domain_level cp0;
  im_cpus : exists b, cpus cp' = mkMem (Some b) true (dirty (cpus cp0)) /\ same_bits (size b1) b1 b;
  im_mems : exists b, mems cp' = mkMem (Some b) true (dirty (mems cp0)) /\ same_bits (size b2) b2 b;
}.

Section RoundTrip.
Context `{F : FileKernel}.

Lemma mask_line_ok key b :
  key = §"cpus " \/ key = §"mems " -> wf b -> Forall ascii_ok (key ++ list_text b) /\ LF ∉ key ++ list_text b.
Proof.
  intros Hk Wb. rewrite Forall_app, not_elem_of_app.
  assert (Hlt : LF ∉ list_text b) by now apply list_text_chars. pose proof (list_text_ascii b Wb).
  destruct Hk as [-> | ->]; (split; [split; [apply (bool_decide_unpack _); vm_compute; exact I|done]|]);
    (split; [apply (bool_decide_unpack _); vm_compute; exact I|done]).
Qed.

Lemma import_lines_ok cp cp0 b1 b2 c1 c2 fuel n s :
  wf b1 -> wf b2 -> val (cpus cp0) = Some c1 -> wf c1 -> size c1 = size b1 ->
  val (mems cp0) = Some c2 -> wf c2 -> size c2 = size b2 ->
  (forall x, x ∈ export_lines cp b1 b2 -> (length x + 1 < n)%nat) ->
  (length (export_lines cp b1 b2) <= fuel)%nat ->
  exists k b1' b2', same_bits (size b1) b1 b1' /\ same_bits (size b2) b2 b2' /\
    import_loop fuel n cp0 (concat (map line (export_lines cp b1 b2))) 0 s =
    Done (k, None, set_mems (mkMem (Some b2') (valid (mems cp0)) (dirty (mems cp0)))
      (set_cpus (mkMem (Some b1') (valid (cpus cp0)) (dirty (cpus cp0)))
        (with_flags (filter (fun f => val (flags cp f) <> 0) io_flags) cp0))) s.
Proof.
  intros W1 W2 E1 V1 S1 E2 V2 S2 Hn Hf. unfold export_lines in *. set (l := filter _ io_flags) in *.
  rewrite length_app, length_map in Hf. cbn [length] in Hf. rewrite map_app, concat_app.
  destruct (import_flag_lines fuel n cp0 l (concat (map line [§"cpus " ++ list_text b1; §"mems " ++ list_text b2])) 0 s)
    as [k ->]; [|lia|].
  { intros f Hfl. split; [now apply list_elem_of_filter in Hfl|]. apply Hn, elem_of_app. left.
    apply list_elem_of_In, in_map. now apply list_elem_of_In. }
  destruct (with_flags_spec l cp0) as (I1 & I2 & _). set (cp1 := with_flags l cp0) in *.
  destruct (fuel - length l)%nat as [|[|fuel']] eqn:Ef; [lia..|]. cbn [map concat].
  destruct (mask_line_ok §"cpus " b1 (or_introl eq_refl) W1) as [A1 A2].
  destruct (mask_line_ok §"mems " b2 (or_intror eq_refl) W2) as [B1 B2].
  destruct (import_cpus_line cp1 b1 c1 s W1 ltac:(now rewrite I1) V1 S1) as (b1' & L1 & Hb1).
  rewrite (import_loop_line _ n cp1 _ _ _ k s A1 A2 ltac:(apply Hn; rewrite elem_of_app; right; left) L1).
  set (cp2 := set_cpus _ cp1) in *.
  destruct (import_mems_line cp2 b2 c2 s W2 ltac:(unfold cp2; cbn [mems set_cpus]; now rewrite I2) V2 S2) as (b2' & L2 & Hb2).
  rewrite (import_loop_line _ n cp2 _ _ _ (k + 1) s B1 B2 ltac:(apply Hn; rewrite elem_of_app; right; right; left) L2).
  rewrite import_loop_end. exists (k + 1 + 1), b1', b2'. split; [done|]. split; [done|].
  subst cp2. cbn [cpus mems set_cpus]. now rewrite I1, I2.
Qed.

Lemma concat_lines_length l x :
  x ∈ l -> (length x + 1 <= length (concat (map line l)))%nat /\ (length l <= length (concat (map line l)))%nat.
Proof.
  assert (Hc : forall l, (length l <= length (concat (map line l)))%nat).
  { clear. induction l as [|y l IH]; [done|]. cbn [map concat length]. unfold line at 1. rewrite !length_app. cbn [length]. lia. }
  intros Hx. split; [|apply Hc]. induction Hx as [l|y l Hx IH]; cbn [map concat]; unfold line at 1; rewrite !length_app;
    cbn [length]; lia.
Qed.

Lemma import_local_none cp b1 b2 s :
  val (cpus cp) = Some b1 -> val (mems cp) = Some b2 -> bitmask_isallclear b1 = bitmask_isallclear b2 ->
  import_local cp s = Done cp s.
Proof.
  intros E1 E2 Hc. unfold import_local. rewrite E1, E2, !bind_some, Hc.
  destruct (bitmask_isallclear b2); done.
Qed.

Lemma import_ok cp cp0 b1 b2 c1 c2 s :
  heap s = [] -> wf b1 -> wf b2 -> bitmask_isallclear b1 = bitmask_isallclear b2 ->
  val (cpus cp0) = Some c1 -> wf c1 -> size c1 = size b1 ->
  val (mems cp0) = Some c2 -> wf c2 -> size c2 = size b2 ->
  (forall f, f ∈ io_flags -> val (flags cp0 f) = 0) ->
  exists cp', cpuset_import cp0 (concat (map line (export_lines cp b1 b2))) s = Done (0, cp', None) s /\
    imported cp cp0 cp' b1 b2.
Proof.
  intros Hh W1 W2 Hcl E1 V1 S1 E2 V2 S2 Hz. unfold cpuset_import.
  rewrite (bind_Done _ _ true s s) by (unfold malloc; now rewrite Hh). cbn [negb].
  assert (Hin : §"cpus " ++ list_text b1 ∈ export_lines cp b1 b2) by (apply elem_of_app; right; left).
  destruct (concat_lines_length _ _ Hin) as [_ Hlen].
  destruct (import_lines_ok cp cp0 b1 b2 c1 c2 (S (length (concat (map line (export_lines cp b1 b2)))))
    (length (concat (map line (export_lines cp b1 b2))) + 1) s W1 W2 E1 V1 S1 E2 V2 S2)
    as (k & b1' & b2' & Hb1 & Hb2 & E); [intros x Hx; apply concat_lines_length in Hx as [Hx _]; lia|lia|].
  rewrite (bind_Done _ _ _ s s E). clear E. set (l := filter _ io_flags).
  destruct (with_flags_spec l cp0) as (I1 & I2 & I3 & I4). set (cp1 := with_flags l cp0) in *.
  erewrite (bind_Done _ _ _ s s) by (eapply import_local_none; [reflexivity..|];
    rewrite (isallclear_same b1 b1'), (isallclear_same b2 b2') by (done || apply Hb1 || apply Hb2); done).
  eexists. split; [reflexivity|]. cbn [cpus mems set_cpus set_mems validate val dirty].
  set (cp2 := set_cpus _ (set_mems _ _)). destruct (validate_flags_spec io_flags cp2) as (J1 & J2 & J3 & J4). split.
  - intros f. rewrite J4. subst cp2. cbn [flags set_cpus set_mems]. rewrite I4. destruct (decide (f ∈ io_flags)) as [Hf|Hf].
    + unfold validate. subst l. destruct (val (flags cp f) =? 0) eqn:Ev; zbool.
      * rewrite decide_False by (intros [? _]%list_elem_of_filter; done). now rewrite (Hz f Hf).
      * rewrite decide_True by (apply list_elem_of_filter; done). done.
    + rewrite decide_False; [done|]. intros [_ ?]%list_elem_of_filter. done.
  - rewrite J3. exact I3.
  - exists b1'. split; [rewrite J1; done|done].
  - exists b2'. split; [rewrite J2; done|done].
Qed.
End RoundTrip.


(** The CPUs 0, 2, 3 and 5 and the node 0, exclusive and with migration, through
    a buffer of 100 bytes. *)
Definition sample : cpuset :=
  mkCs (mkMem (Some (mask8 45)) true true) (mkMem (Some (mask8 1)) true true)
    (fun f => mkMem (Z.b2z (bool_decide (f = cpu_exclusive \/ f = memory_migrate))) true true) (mkMem 3 true true).
Definition empty_sample : cpuset := set_mems (mkMem (Some (mask8 0)) false false)
  (set_cpus (mkMem (Some (mask8 0)) false false) cleared).
Definition sample_lib : @lib map_kernel := @mkLib map_kernel (fun _ => None) 0 [] check_ok 8 8 0 0 (None, 0).


(** A byte above 127 is read as a negative [char] and taken for the end of the
    text: behind a comment with one, the import reports success and has read
    nothing. *)
Theorem import_stops_at_high_byte :
  match @cpuset_import map_kernel map_files empty_sample
          (§"# " ++ [chr 195; chr 169; LF] ++ §"cpus 0-3" ++ [LF] ++ §"mems 0" ++ [LF]) sample_lib with
  | Done (r, cp', None) _ => r = 0 /\ val (cpus cp') = Some (mask8 0) /\ val (mems cp') = Some (mask8 0)
  | _ => False
  end.
Proof. vm_compute. auto. Qed.

(** ** Imported structures are not applied *)

(** No member of the structure is marked as changed. *)
Definition clean (cp : cpuset) : Prop :=
  (forall f, dirty (flags cp f) = false) /\ dirty (sched_relax_domain_level cp) = false /\
  dirty (cpus cp) = false /\ dirty (mems cp) = false.

Lemma imported_clean cp cp0 cp' b1 b2 : imported cp cp0 cp' b1 b2 -> clean cp0 -> clean cp'.
Proof.
  intros [Hf Hl (c1 & E1 & _) (c2 & E2 & _)] (C1 & C2 & C3 & C4). repeat split.
  - intros f. rewrite Hf. destruct (decide _); apply C1.
  - now rewrite Hl.
  - now rewrite E1.
  - now rewrite E2.
Qed.

Lemma apply_clean `{K : Kernel} path cp s : clean cp -> apply_cpuset_settings path cp s = Done 0 s.
Proof.
  intros (C1 & C2 & C3 & C4). unfold apply_cpuset_settings.
  assert (Hto : forall {A} (m : member A), dirty m = false -> to_apply m = false)
    by (intros A m Hd; unfold to_apply; now rewrite Hd, andb_false_r).
  assert (Hl : forall l, apply_flag_loop path cp l s = Done 0 s).
  { induction l as [|[f opt] l IH]; cbn [apply_flag_loop]; [done|].
    rewrite (Hto _ _ (C1 f)). now rewrite !(bind_Done (mret _) _ _ s s eq_refl). }
  rewrite (bind_Done _ _ _ s s (Hl _)). cbn [Z.ltb Z.compare].
  rewrite (Hto _ _ C2), (Hto _ _ C3), (Hto _ _ C4). reflexivity.
Qed.

Lemma imported_cp_ok nc nm cp cp0 cp' b1 b2 :
  imported cp cp0 cp' b1 b2 -> size b1 = nc -> size b2 = nm ->
  INT_MIN <= val (sched_relax_domain_level cp0) <= INT_MAX -> cp_ok nc nm cp'.
Proof.
  intros [Hf Hl (c1 & E1 & W1 & S1 & _) (c2 & E2 & W2 & S2 & _)] <- <- Hv. split.
  - now rewrite Hl.
  - exists c1. now rewrite E1.
  - exists c2. now rewrite E2.
Qed.


Definition imported_sample : cpuset :=
  mkCs (mkMem (Some (mask8 45)) true false) (mkMem (Some (mask8 1)) true false)
    (fun f => if decide (f ∈ io_flags) then mkMem (Z.b2z (negb (val (flags sample f) =? 0))) true false
              else mkMem 0 false false) (mkMem 0 false false).

