(* ===== verification/CpusetTasks.v ===== *)
(** The tasks of cpusets: the lists of process ids read from the tasks files,
    moving tasks between cpusets, walking a hierarchy, and [cpuset_nuke], which
    kills the tasks of a hierarchy and removes it. *)
From Stdlib Require Import Ascii String ZArith Lia Bool.
From stdpp Require Import base list sets numbers sorting.
From S2P Require Import Prelude CString Effects Bitmask CpusetText Cpuset.

Local Open Scope Z_scope.

Definition ENOTEMPTY : Z := 39.
Definition ETIME : Z := 62.

(** What [fts_read] finds: a directory before its contents, one that cannot be
    read, or something else. *)
Inductive fts_info := FTS_D | FTS_DNR | FTS_OTHER.

(** Processes, and the hierarchy in the order of [fts_read]. *)
Class TaskKernel `{Kernel} := {
  k_getpid : kst -> Z;
  k_kill : Z -> kst -> Z + kst;                               (* SIGKILL *)
  k_sleep : Z -> kst -> Z * kst;                              (* the seconds not slept *)
  k_same : cstr -> cstr -> kst -> bool;                       (* the same inode *)
  k_fts : cstr -> kst -> Z + list (fts_info * cstr * Z);      (* path and error *)
}.

(** ** Lists of process ids *)

(** [pidcount]: the number of newlines. *)
Definition pidcount (buf : cstr) : nat := length (filter (fun c => c = LF) buf).

(** [pid_transform]: the numbers of one block. *)
Fixpoint pid_transform (fuel : nat) (a : cstr) : list Z :=
  match fuel with
  | O => []
  | S fuel =>
      match a with
      | [] => []
      | _ =>
          match strto 10 a with
          | None => []
          | Some _ => let '(p, b) := strtoul 10 a in s32 p :: pid_transform fuel b
          end
      end
  end.

Definition block_pids (buf : cstr) : list Z := pid_transform (length buf) (cstr_of buf).

(** [numericsort], and [qsort] with it. *)
Definition numericsort (p1 p2 : Z) : Z := s32 (p1 - p2).

Definition sort_le (p1 p2 : Z) : Prop := numericsort p1 p2 <= 0.

#[global] Instance sort_le_dec p1 p2 : Decision (sort_le p1 p2).
Proof. unfold sort_le. apply _. Defined.

Definition qsort (l : list Z) : list Z := merge_sort sort_le l.

(** ** The hierarchy *)

Inductive entry_info := CPUSET_FTS_CPUSET | CPUSET_FTS_ERR_DNR | CPUSET_FTS_ERR_STAT | CPUSET_FTS_ERR_CPUSET.

Record cpuset_fts_entry := mkEntry {
  fe_cpuset : option cpuset;
  fe_path : cstr;
  fe_info : entry_info;
  fe_err : Z;
}.

(** The entries from [head] and from [next]. *)
Record cpuset_fts_tree := mkTree { ft_head : list cpuset_fts_entry; ft_next : list cpuset_fts_entry }.

Definition cpuset_fts_rewind (t : cpuset_fts_tree) : cpuset_fts_tree := mkTree (ft_head t) (ft_head t).

Definition cpuset_fts_read (t : cpuset_fts_tree) : option cpuset_fts_entry * cpuset_fts_tree :=
  match ft_next t with
  | [] => (None, t)
  | e :: l => (Some e, mkTree (ft_head t) l)
  end.

(** [while (cs3)]: [cs2] is the part whose links are turned. *)
Fixpoint reverse_loop (cs2 cs3 : list cpuset_fts_entry) : list cpuset_fts_entry :=
  match cs3 with
  | [] => cs2
  | e :: cs3 => reverse_loop (e :: cs2) cs3
  end.

Definition cpuset_fts_reverse (t : cpuset_fts_tree) : cpuset_fts_tree :=
  cpuset_fts_rewind (mkTree (reverse_loop [] (ft_head t)) (ft_next t)).

Section Tasks.
Context `{T : TaskKernel}.

Local Abbreviation M := (E lib).

(** One directory of the hierarchy; [None] when the memory is used up. *)
Definition fts_entry (info : fts_info) (path : cstr) (err : Z) : M (option cpuset_fts_entry) :=
  c ← malloc;
  if negb c then mret None
  else
    let relpath := match drop (length cpusetmnt) path with [] => §"/" | r => r end in
    c ← malloc;
    if negb c then mret None
    else
      match info with
      | FTS_DNR => mret (Some (mkEntry None relpath CPUSET_FTS_ERR_DNR err))
      | _ =>
          c ← malloc;
          if negb c then mret None
          else
            st ← ask (k_stat path);
            match st with
            | None => mret (Some (mkEntry None relpath CPUSET_FTS_ERR_STAT err))
            | Some _ =>
                c ← malloc;
                if negb c then mret None
                else
                  q ← cpuset_query cleared relpath;
                  e ← gets errno;
                  mret (Some (if q.1 <? 0 then mkEntry (Some q.2) relpath CPUSET_FTS_ERR_CPUSET e
                              else mkEntry (Some q.2) relpath CPUSET_FTS_CPUSET 0))
            end
      end.

Fixpoint fts_loop (l : list (fts_info * cstr * Z)) : M (option (list cpuset_fts_entry)) :=
  match l with
  | [] => mret (Some [])
  | (FTS_OTHER, _, _) :: l => fts_loop l
  | (info, path, err) :: l =>
      e ← fts_entry info path err;
      match e with
      | None => mret None
      | Some e => r ← fts_loop l; mret (cons e <$> r)
      end
  end.

Definition cpuset_fts_open (cpusetpath : cstr) : M (option cpuset_fts_tree) :=
  buf ← full_path cpusetpath;
  l ← ask (k_fts buf);
  match l with
  | None => mret None
  | Some l =>
      c ← malloc;
      if negb c then mret None
      else r ← fts_loop l; mret ((fun es => cpuset_fts_rewind (mkTree es [])) <$> r)
  end.

(** ** Reading the tasks files *)

(** [add_pidblock]: the blocks, the newest first. *)
Definition add_pidblock (file : cstr) (blocks : list cstr) : M (list cstr) :=
  f ← read_file file;
  match f with
  | Contents (c :: t) =>
      m ← malloc;
      if negb m then mret blocks
      else m ← malloc; mret (if m : bool then (c :: t) :: blocks else blocks)
  | _ => mret blocks
  end.

Definition read_task_file (relpath : cstr) (blocks : list cstr) : M (list cstr) :=
  buf ← full_path2 relpath §"tasks";
  add_pidblock buf blocks.

Fixpoint read_tree_tasks (l : list cpuset_fts_entry) (blocks : list cstr) : M (list cstr) :=
  match l with
  | [] => mret blocks
  | e :: l =>
      match fe_info e with
      | CPUSET_FTS_CPUSET => b ← read_task_file (fe_path e) blocks; read_tree_tasks l b
      | _ => read_tree_tasks l blocks
      end
  end.

(** The numbers of the blocks must fit in the array, which has one element for
    each newline; the elements that are not written are 0. *)
Definition gather (blocks : list cstr) : M (list Z) :=
  let npids := sum_list (map pidcount blocks) in
  let pids := concat (map block_pids blocks) in
  _ ← require (length pids <=? npids)%nat;
  mret (qsort (pids ++ replicate (npids - length pids) 0)).

Definition cpuset_init_pidlist (relpath : cstr) (recursiveflag : bool) : M (option (list Z)) :=
  c ← check;
  if c <? 0 then mret None
  else
    bs ← (if recursiveflag then
            t ← cpuset_fts_open relpath;
            match t with
            | None => mret None
            | Some t => b ← read_tree_tasks (ft_next t) []; mret (Some b)
            end
          else b ← read_task_file relpath []; mret (Some b));
    match bs with
    | None => mret None
    | Some bs =>
        m ← malloc;
        if negb m then mret None
        else
          m ← malloc;
          if negb m then mret None else l ← gather bs; mret (Some l)
    end.

Definition cpuset_pidlist_length (pl : option (list Z)) : Z :=
  match pl with Some l => Z.of_nat (length l) | None => 0 end.

Definition cpuset_get_pidlist (pl : option (list Z)) (i : Z) : Z :=
  match pl with
  | Some l => if (0 <=? i) && (i <? Z.of_nat (length l)) then nth (Z.to_nat i) l 0 else -1
  | None => -1
  end.

(** ** Moving tasks *)

Definition __cpuset_move (pid : Z) (path : cstr) : M Z :=
  write_string_file path (snprintf_buf SMALL_BUFSZ (fmt_d (u32 pid))).

Definition cpuset_move (pid : Z) (relpath : cstr) : M Z :=
  c ← check;
  if c <? 0 then mret (-1)
  else
    s ← get;
    let pid := if pid =? 0 then k_getpid (kern s) else pid in
    buf ← full_path2 relpath §"tasks";
    __cpuset_move pid buf.

Fixpoint move_loop (l : list Z) (buf : cstr) (ret : Z) : M Z :=
  match l with
  | [] => mret ret
  | p :: l => r ← __cpuset_move p buf; move_loop l buf (if r <? 0 then -1 else ret)
  end.

Definition cpuset_move_all (pl : list Z) (relpath : cstr) : M Z :=
  c ← check;
  if c <? 0 then mret (-1)
  else
    buf ← full_path2 relpath §"tasks";
    move_loop pl buf 0.

Definition cpuset_reattach (relpath : cstr) : M Z :=
  l ← cpuset_init_pidlist relpath false;
  match l with
  | None => mret (-1)
  | Some l => cpuset_move_all l relpath
  end.

(** [for (j = 0; j < plen; j++)]: the error that ends it, if any. *)
Fixpoint move_tasks (l : list Z) (torelpath : cstr) : M (option Z) :=
  match l with
  | [] => mret None
  | p :: l =>
      r ← cpuset_move p torelpath;
      if r <? 0 then
        e ← gets errno;
        if e =? ESRCH then move_tasks l torelpath else mret (Some e)
      else move_tasks l torelpath
  end.

Fixpoint move_attempts (n : nat) (fromrelpath torelpath : cstr) : M Z :=
  match n with
  | O => _ ← modify (set_errno ENOTEMPTY); mret (-1)
  | S n =>
      l ← cpuset_init_pidlist fromrelpath false;
      match l with
      | None =>
          e ← gets errno;
          if e =? ENOENT then _ ← modify (set_errno 0); mret 0 else mret (-1)
      | Some [] => _ ← modify (set_errno 0); mret 0
      | Some l =>
          e ← move_tasks l torelpath;
          match e with
          | Some e => _ ← modify (set_errno e); mret (-1)
          | None => move_attempts n fromrelpath torelpath
          end
      end
  end.

Definition NUMBER_MOVE_TASK_ATTEMPTS : nat := 10.

Definition cpuset_move_cpuset_tasks (fromrelpath torelpath : cstr) : M Z :=
  a ← full_path fromrelpath;
  b ← full_path torelpath;
  s ← get;
  if k_same a b (kern s) then cpuset_reattach fromrelpath
  else move_attempts NUMBER_MOVE_TASK_ATTEMPTS fromrelpath torelpath.

Definition cpuset_migrate_all (pl : list Z) (relpath : cstr) : M Z :=
  c ← check;
  if c <? 0 then mret (-1)
  else
    buf2 ← full_path relpath;
    v ← load_flag buf2 §"memory_migrate";
    match v with
    | None => mret (-1)
    | Some v =>
        r ← store_flag buf2 §"memory_migrate" 1;
        if r <? 0 then mret (-1)
        else
          buf ← full_path2 relpath §"tasks";
          ret ← move_loop pl buf 0;
          r ← store_flag buf2 §"memory_migrate" v;
          mret (if r <? 0 then -1 else ret)
    end.

(** One task; what the last [store_flag] returns is not used. *)
Definition cpuset_migrate (pid : Z) (relpath : cstr) : M Z :=
  c ← check;
  if c <? 0 then mret (-1)
  else
    s ← get;
    let pid := if pid =? 0 then k_getpid (kern s) else pid in
    buf2 ← full_path relpath;
    v ← load_flag buf2 §"memory_migrate";
    match v with
    | None => mret (-1)
    | Some v =>
        r ← store_flag buf2 §"memory_migrate" 1;
        if r <? 0 then mret (-1)
        else
          buf ← full_path2 relpath §"tasks";
          ret ← __cpuset_move pid buf;
          _ ← store_flag buf2 §"memory_migrate" v;
          mret ret
    end.

(** ** Killing and removing *)

(** [for (j = 0; j < plen; j++)]: the error that ends it, if any. *)
Fixpoint kill_all (l : list Z) : M (option Z) :=
  match l with
  | [] => mret None
  | p :: l =>
      if 1 <? p then
        r ← sys (k_kill p);
        e ← gets errno;
        if (r <? 0) && negb (e =? ESRCH) then mret (Some e) else kill_all l
      else kill_all l
  end.

(** Removing the directories, the deepest first: the return value and the error. *)
Fixpoint rmdir_loop (l : list cpuset_fts_entry) (ret sav_errno : Z) : M (Z * Z) :=
  match l with
  | [] => mret (ret, sav_errno)
  | e :: l =>
      buf ← full_path (fe_path e);
      r ← sys (k_rmdir buf);
      err ← gets errno;
      if (r <? 0) && negb (err =? ENOENT) then rmdir_loop l (-1) err else rmdir_loop l ret sav_errno
  end.

Definition rmdir_cpusets (relpath : cstr) : M Z :=
  t ← cpuset_fts_open relpath;
  match t with
  | None =>
      e ← gets errno;
      if negb (e =? ENOENT) then mret (-1) else undefined      (* the list behind NULL *)
  | Some t =>
      r ← rmdir_loop (ft_next (cpuset_fts_reverse t)) 0 0;
      _ ← modify (set_errno (if r.1 =? 0 then 0 else r.2));
      mret r.1
  end.

(** The seconds of the next sleep and of those that remain, when [sleep] returned
    [rest]; all are unsigned. *)
Definition next_secs (secs_left secs_loop rest : Z) : Z * Z :=
  let secs_slept := u32 (secs_loop - rest) in
  let secs_slept := if secs_slept =? 0 then 1 else secs_slept in
  let secs_slept := if secs_loop <? secs_slept then secs_loop else secs_slept in
  let secs_left := u32 (secs_left - secs_slept) in
  let secs_loop := if secs_loop <? 10 then secs_loop + 1 else secs_loop in
  (secs_left, Z.min secs_left secs_loop).

(** [while (1)]: the requests to [sleep] so far and the return value; [None] when
    the fuel is used up. *)
Fixpoint nuke_loop (fuel : nat) (relpath : cstr) (secs_left secs_loop : Z) (sleeps : list Z) : M (option (Z * list Z)) :=
  match fuel with
  | O => mret None
  | S fuel =>
      l ← cpuset_init_pidlist relpath true;
      match l with
      | None =>
          e ← gets errno;
          if e =? ENOENT then _ ← modify (set_errno 0); mret (Some (0, sleeps)) else mret (Some (-1, sleeps))
      | Some [] => r ← rmdir_cpusets relpath; mret (Some (r, sleeps))
      | Some l =>
          e ← kill_all l;
          match e with
          | Some e => _ ← modify (set_errno e); mret (Some (-1, sleeps))
          | None =>
              if secs_left =? 0 then _ ← modify (set_errno ETIME); mret (Some (-1, sleeps))
              else
                s ← get;
                let '(rest, k) := k_sleep secs_loop (kern s) in
                _ ← modify (set_kern k);
                let '(secs_left', secs_loop') := next_secs secs_left secs_loop rest in
                nuke_loop fuel relpath secs_left' secs_loop' (sleeps ++ [secs_loop - rest])
          end
      end
  end.

(** The return value and the seconds of each sleep. *)
Definition cpuset_nuke (relpath : cstr) (seconds : Z) : M (option (Z * list Z)) :=
  c ← check;
  if c <? 0 then mret (Some (-1, []))
  else if seconds =? 0 then r ← rmdir_cpusets relpath; mret (Some (r, []))
  else nuke_loop (S (Z.to_nat seconds)) relpath seconds 1 [].
End Tasks.
