(* ===== verification/CpusetTasksOk.v ===== *)
(** The lists of process ids are the sorted contents of the tasks files, and
    moving the tasks of a cpuset empties it. *)
From Stdlib Require Import Ascii String ZArith Lia Bool.
From stdpp Require Import base list sets numbers sorting.
From S2P Require Import Prelude CString Effects Bitmask BitmaskText CpusetText Cpuset CpusetFiles CpusetQuery CpusetTasks.

Local Open Scope Z_scope.

(** ** The text of a tasks file *)

Definition pid_ok (p : Z) : Prop := 0 < p <= INT_MAX.

(** One process id on each line. *)
Definition pid_text (l : list Z) : cstr := concat (map (fun p => fmt_d p ++ [LF]) l).

Lemma pid_text_count l : Forall pid_ok l -> pidcount (pid_text l) = length l.
Proof.
  unfold pidcount, pid_text. induction 1 as [|p l Hp Hl IH]; [done|]. cbn [map concat length].
  rewrite !list.filter_app, !length_app, IH.
  assert (E : filter (fun c => c = LF) (fmt_d p) = []).
  { apply elem_of_nil_inv. intros c [-> Hc]%list_elem_of_filter.
    now apply (fmt_d_no_sep p LF) in Hc; [|unfold pid_ok in Hp; lia|]. }
  rewrite E. done.
Qed.

Lemma strto_newline s : strto 10 (LF :: s) = strto 10 s.
Proof. done. Qed.

Lemma pid_transform_line fuel p rest pre :
  pid_ok p -> pre = [] \/ pre = [LF] ->
  pid_transform (S fuel) (pre ++ fmt_d p ++ LF :: rest) = p :: pid_transform fuel (LF :: rest).
Proof.
  intros [Hp Hm] Hpre. unfold INT_MAX in Hm.
  assert (E : strto 10 (pre ++ fmt_d p ++ LF :: rest) = Some (false, p, LF :: rest)).
  { assert (E0 : strto 10 (fmt_d p ++ LF :: rest) = Some (false, p, LF :: rest)).
    { rewrite strto_fmt_d by done. rewrite (proj2 (Z.ltb_ge p 0)), Z.abs_eq by lia. done. }
    destruct Hpre as [-> | ->]; [done|]. cbn [app]. now rewrite strto_newline. }
  cbn [pid_transform]. destruct (pre ++ fmt_d p ++ LF :: rest) as [|c t] eqn:Et.
  { exfalso. apply (f_equal length) in Et. rewrite !length_app in Et. cbn in Et. lia. }
  unfold strtoul. rewrite E. unfold ULONG_MAX. rewrite (proj2 (Z.ltb_ge _ p)) by lia.
  now rewrite s32_small by (unfold INT_MIN, INT_MAX; lia).
Qed.

Lemma pid_transform_text fuel l :
  Forall pid_ok l -> (length l < fuel)%nat -> pid_transform fuel (LF :: pid_text l) = l.
Proof.
  intros Hl. revert fuel. induction Hl as [|p l Hp Hl IH]; intros fuel Hf; (destruct fuel as [|fuel]; [cbn in Hf; lia|]).
  { done. }
  unfold pid_text in *. cbn [map concat length] in *. rewrite <- app_assoc. cbn [app].
  pose proof (pid_transform_line fuel p (concat (map (fun p => fmt_d p ++ [LF]) l)) [LF] Hp (or_intror eq_refl)) as E.
  cbn [app] in E. rewrite E. f_equal. apply IH. lia.
Qed.

Lemma pid_text_length l : (2 * length l <= length (pid_text l))%nat.
Proof.
  unfold pid_text. induction l as [|p l IH]; [done|]. cbn [map concat length]. rewrite !length_app. cbn [length].
  assert (1 <= length (fmt_d p))%nat; [|lia]. unfold fmt_d. destruct (p <? 0); [cbn; lia|].
  pose proof (fmt_nat_nonnil 10 p). destruct (fmt_nat 10 p); [done|cbn; lia].
Qed.

Lemma pid_text_nul l : Forall pid_ok l -> NUL ∉ pid_text l.
Proof.
  unfold pid_text. induction 1 as [|p l Hp Hl IH]; [apply not_elem_of_nil|]. cbn [map concat].
  rewrite !not_elem_of_app. split; [|done]. unfold pid_ok in Hp. split; [apply fmt_d_no_sep; [lia|done]|].
  intros Hin%list_elem_of_singleton. done.
Qed.

Lemma block_pids_text l : Forall pid_ok l -> block_pids (pid_text l) = l.
Proof.
  intros Hl. unfold block_pids. rewrite cstr_of_id by now apply pid_text_nul.
  pose proof (pid_text_length l) as Hlen. destruct Hl as [|p l Hp Hl]; [done|].
  destruct (length (pid_text (p :: l))) as [|fuel] eqn:E; [cbn in Hlen; lia|].
  unfold pid_text. cbn [map concat]. rewrite <- app_assoc. cbn [app].
  pose proof (pid_transform_line fuel p (pid_text l) [] Hp (or_introl eq_refl)) as E'.
  cbn [app] in E'. unfold pid_text in E'. rewrite E'. f_equal. apply pid_transform_text; [done|]. cbn in Hlen. lia.
Qed.

(** ** Sorting *)

Lemma sort_le_iff p q : pid_ok p -> pid_ok q -> (sort_le p q <-> p <= q).
Proof.
  unfold pid_ok, INT_MAX. intros Hp Hq. unfold sort_le, numericsort.
  rewrite s32_small by (unfold INT_MIN, INT_MAX; lia). lia.
Qed.

#[global] Instance sort_le_total : Total sort_le.
Proof.
  intros p q. unfold sort_le, numericsort. pose proof (s32_range (p - q)) as Hr.
  destruct (decide (s32 (p - q) <= 0)) as [|Hgt]; [now left|right].
  assert (E : s32 (q - p) = - s32 (p - q)); [|lia].
  unfold s32, swrap in *. change (2 ^ (32 - 1)) with 2147483648 in *. change (2 ^ 32) with 4294967296 in *.
  pose proof (Z.div_mod (p - q + 2147483648) 4294967296 ltac:(lia)) as Hd.
  set (k := (p - q + 2147483648) / 4294967296) in *. set (m := (p - q + 2147483648) mod 4294967296) in *.
  replace (q - p + 2147483648) with ((4294967296 - m) + (- k) * 4294967296) by lia.
  rewrite Z.mod_add by lia. pose proof (Z.mod_pos_bound (p - q + 2147483648) 4294967296 ltac:(lia)).
  rewrite Z.mod_small by lia. lia.
Qed.

Lemma Sorted_impl_on {A} (P : A -> Prop) (R R' : relation A) l :
  (forall x y, P x -> P y -> R x y -> R' x y) -> Forall P l -> Sorted R l -> Sorted R' l.
Proof.
  intros HR Hl Hs. induction Hs as [|x l Hs IH Hd]; [constructor|].
  inversion Hl as [|? ? Hx Hl']; subst. constructor; [auto|].
  destruct Hd as [|y l' Hxy]; constructor. inversion Hl'; subst. auto.
Qed.

Lemma qsort_ok l : Forall pid_ok l -> Forall pid_ok (qsort l).
Proof.
  rewrite !List.Forall_forall. intros Hl x Hx. apply Hl, (Permutation_in _ (merge_sort_Permutation sort_le l)), Hx.
Qed.

Lemma qsort_sorted l : Forall pid_ok l -> Sorted Z.le (qsort l) /\ qsort l ≡ₚ l.
Proof.
  intros Hl. assert (Hp : qsort l ≡ₚ l) by apply merge_sort_Permutation. split; [|done].
  apply (Sorted_impl_on pid_ok sort_le).
  - intros x y Hx Hy. now apply sort_le_iff.
  - now apply qsort_ok.
  - apply (Sorted_merge_sort sort_le).
Qed.

(** ** The list of a cpuset *)

Definition tasks_file (relpath : cstr) : cstr := fpath (dir_of relpath) §"tasks".

Lemma tasks_comp : path_comp §"tasks".
Proof. split; [split; [done|]|split; [done|]]; apply (bool_decide_unpack _); vm_compute; exact I. Qed.

Section Lists.
Context `{T : TaskKernel}.

Lemma dir_of_length relpath : relpath_ok relpath -> (length (dir_of relpath) + 15 < PATH_MAX)%nat.
Proof.
  intros Hr. pose proof (fpath_length relpath SLevel Hr) as Hf. unfold fpath in Hf. rewrite !length_app in Hf.
  change (length (setting_name SLevel)) with 24%nat in Hf. change (length §"/") with 1%nat in Hf. lia.
Qed.

Lemma full_path_ok relpath s : relpath_ok relpath -> full_path relpath s = Done (dir_of relpath) s.
Proof. intros Hr. apply full_path_abs; [apply Hr..|]. pose proof (rp_len _ Hr). lia. Qed.

Lemma cat_checked_fits n dir name p s :
  Z.of_nat n < 2 ^ 32 -> (length dir + length name + 2 <= n)%nat -> pathcat2 n dir name = Some p ->
  cat_checked n dir name s = Done (0, Some p) s.
Proof.
  intros Hn Hl. unfold pathcat2, snprintf_buf, cat_checked. intros Ep.
  assert (Hf : (length (dir ++ §"/" ++ name) <= n - 1)%nat).
  { rewrite !length_app. change (length §"/") with 1%nat. lia. }
  rewrite take_ge in Ep by exact Hf. unfold u64, uwrap. rewrite Z.mod_small by lia.
  rewrite (proj2 (Z.leb_gt _ _)) by lia. rewrite (proj2 (Nat.leb_le _ _) Hl).
  unfold mbind, E_bind, require, mret, E_ret. now rewrite Ep.
Qed.

Lemma cat_tasks relpath s :
  relpath_ok relpath -> cat_checked PATH_MAX (dir_of relpath) §"tasks" s = Done (0, Some (tasks_file relpath)) s.
Proof.
  intros Hr. pose proof (dir_of_length relpath Hr) as Hl. apply cat_checked_fits.
  - vm_compute. reflexivity.
  - change (length §"tasks") with 5%nat. lia.
  - apply pathcat2_file; [apply Hr|apply tasks_comp|]. unfold fpath. rewrite !length_app.
    change (length §"/") with 1%nat. change (length §"tasks") with 5%nat. lia.
Qed.

Lemma full_path2_tasks relpath s :
  relpath_ok relpath -> full_path2 relpath §"tasks" s = Done (tasks_file relpath) s.
Proof.
  intros Hr. unfold full_path2. rewrite (bind_Done _ _ (0, Some (tasks_file relpath)) s s); [done|]. unfold fullpath2.
  assert (E : fullpath PATH_MAX relpath s = Done (0, Some (dir_of relpath)) s).
  { apply fullpath_abs; [apply Hr..|]. pose proof (rp_len _ Hr). lia. }
  rewrite (bind_Done _ _ _ s s E). cbn [Z.ltb Z.compare]. rewrite bind_some. now apply cat_tasks.
Qed.

Lemma read_tasks_ok relpath l bs s :
  relpath_ok relpath -> heap s = [] -> k_read (tasks_file relpath) (kern s) = Contents (pid_text l) ->
  read_task_file relpath bs s = Done (match l with [] => bs | _ => pid_text l :: bs end) s.
Proof.
  intros Hr Hh Hf. unfold read_task_file. rewrite (bind_Done _ _ _ s s (full_path2_tasks relpath s Hr)).
  unfold add_pidblock. rewrite (bind_Done _ _ (Contents (pid_text l)) s s) by (unfold read_file; now rewrite Hf).
  destruct l as [|p l]; [done|]. destruct (pid_text (p :: l)) as [|c t] eqn:E.
  { pose proof (pid_text_length (p :: l)) as Hlen. rewrite E in Hlen. cbn in Hlen. lia. }
  unfold mbind, E_bind, malloc, mret, E_ret. rewrite Hh. cbn [negb]. now rewrite Hh.
Qed.

Lemma gather_ok ls s :
  Forall (Forall pid_ok) ls -> gather (map pid_text ls) s = Done (qsort (concat ls)) s.
Proof.
  intros Hl. unfold gather. rewrite !map_map.
  assert (E1 : map (fun l => block_pids (pid_text l)) ls = ls).
  { induction Hl as [|l ls Hl0 Hls IH]; [done|]. cbn [map]. now rewrite block_pids_text, IH. }
  assert (E2 : sum_list (map (fun l => pidcount (pid_text l)) ls) = length (concat ls)).
  { clear E1. induction Hl as [|l ls Hl0 Hls IH]; [done|]. cbn [map sum_list concat]. now rewrite pid_text_count, IH, length_app. }
  rewrite E1, E2, (proj2 (Nat.leb_le _ _)), Nat.sub_diag by lia. cbn [replicate]. now rewrite app_nil_r.
Qed.

Lemma init_pidlist_ok nc nm relpath l s :
  relpath_ok relpath -> ready nc nm s -> Forall pid_ok l ->
  k_read (tasks_file relpath) (kern s) = Contents (pid_text l) ->
  cpuset_init_pidlist relpath false s = Done (Some (qsort l)) s.
Proof.
  intros Hr Hrd Hl Hf. unfold cpuset_init_pidlist. rewrite (bind_Done _ _ _ s s (check_ready nc nm s Hrd)).
  cbn [Z.ltb Z.compare]. erewrite bind_Done; [|now rewrite (bind_Done _ _ _ s s (read_tasks_ok relpath l [] s Hr (rd_heap _ _ _ Hrd) Hf))].
  cbv beta iota. rewrite (bind_Done _ _ true s s) by (unfold malloc; now rewrite (rd_heap _ _ _ Hrd)). cbn [negb].
  rewrite (bind_Done _ _ true s s) by (unfold malloc; now rewrite (rd_heap _ _ _ Hrd)). cbn [negb].
  assert (E : match l with [] => [] | _ => [pid_text l] end = map pid_text (match l with [] => [] | _ => [l] end)) by now destruct l.
  rewrite E. assert (Hls : Forall (Forall pid_ok) (match l with [] => [] | _ => [l] end)).
  { destruct l; [constructor|]. apply List.Forall_cons; [done|constructor]. }
  rewrite (bind_Done _ _ _ s s (gather_ok _ s Hls)). destruct l; [done|]. cbn [concat]. now rewrite app_nil_r.
Qed.
(** ** Moving *)

(** A cpuset has the tasks [l]. *)
Definition shows_tasks (relpath : cstr) (l : list Z) (k : kst) : Prop :=
  k_read (tasks_file relpath) k = Contents (pid_text l) /\ Forall pid_ok l.

(** Writing the id of a process to a tasks file moves it there; other processes
    may end meanwhile.  ESRCH is the error for a process that has ended. *)
Class TaskFs : Prop := {
  tk_write from to p l k k' :
    pid_ok p -> tasks_file from <> tasks_file to -> shows_tasks from l k ->
    k_write (tasks_file to) (fmt_d p) k = inr k' ->
    exists l', shows_tasks from l' k' /\ (p ∉ l') /\ l' ⊆ l;
  tk_gone from to p l k :
    shows_tasks from l k -> k_write (tasks_file to) (fmt_d p) k = inl ESRCH -> p ∉ l;
}.

Context {FS : TaskFs}.

Lemma cpuset_move_ok nc nm p relpath s :
  ready nc nm s -> relpath_ok relpath -> pid_ok p ->
  cpuset_move p relpath s = sys (k_write (tasks_file relpath) (fmt_d p)) s.
Proof.
  intros Hrd Hr Hp. unfold cpuset_move. rewrite (bind_Done _ _ _ s s (check_ready nc nm s Hrd)).
  cbn [Z.ltb Z.compare]. rewrite (bind_Done _ _ s s s) by done. unfold pid_ok, INT_MAX in Hp.
  rewrite (proj2 (Z.eqb_neq p 0)) by lia. cbv zeta. rewrite (bind_Done _ _ _ s s (full_path2_tasks relpath s Hr)).
  unfold __cpuset_move, write_string_file, snprintf_buf.
  rewrite take_ge by (pose proof (fmt_d_length (u32 p)) as Hf; unfold u32, uwrap, SMALL_BUFSZ in *; rewrite Z.mod_small in * by lia; unfold INT_MIN, INT_MAX in Hf; lia).
  now rewrite u32_small by lia.
Qed.

(** What a loop that moves tasks leaves in [from]. *)
Definition moved (from to : cstr) (l m : list Z) (s : lib) (r : option Z) (s' : lib) : Prop :=
  keeps s s' /\
  exists m', shows_tasks from m' (kern s') /\ m' ⊆ m /\
    match r with
    | None => forall p, p ∈ l -> p ∉ m'
    | Some e => exists p, p ∈ l /\ k_write (tasks_file to) (fmt_d p) (kern s') = inl e
    end.

Lemma move_tasks_ok nc nm from to l s m :
  ready nc nm s -> relpath_ok to -> tasks_file from <> tasks_file to -> Forall pid_ok l ->
  shows_tasks from m (kern s) -> ends (move_tasks l to) (moved from to l m s) s.
Proof.
  intros Hrd Hto Hne Hl. revert s m Hrd.
  induction Hl as [|p l Hp Hl IH]; intros s m Hrd Hm; cbn [move_tasks].
  { apply ends_ret. split; [done|]. exists m. split; [done|]. split; [done|]. intros p Hp%not_elem_of_nil. done. }
  assert (Hrest : forall s' m0, keeps s s' -> shows_tasks from m0 (kern s') -> p ∉ m0 -> m0 ⊆ m ->
            ends (move_tasks l to) (moved from to (p :: l) m s) s').
  { intros s' m0 Hk Hm0 Hpm Hsub. eapply ends_mono; [apply (IH s' m0); [now apply (ready_keeps _ _ s)|done]|].
    intros r s2 (Hk2 & m' & Hm' & Hsub' & Hr). split; [now transitivity s'|]. exists m'. split; [done|].
    split; [set_solver|]. destruct r as [e|]; [set_solver|]. intros q [->|Hq]%elem_of_cons; set_solver. }
  pose proof (cpuset_move_ok nc nm p to s Hrd Hto Hp) as Em. unfold sys in Em.
  destruct (k_write (tasks_file to) (fmt_d p) (kern s)) as [e|k'] eqn:Ew; apply (ends_step _ _ _ _ _ _ Em); cbn [Z.ltb Z.compare].
  - apply (ends_step _ _ e _ (set_errno e s)); [done|]. destruct (e =? ESRCH) eqn:Ee.
    + apply Z.eqb_eq in Ee as ->. apply (Hrest _ m); [done|done| |done]. now apply (tk_gone from to p m (kern s)).
    + apply ends_ret. split; [done|]. exists m. split; [done|]. split; [done|]. exists p. split; [left|done].
  - destruct (tk_write from to p m (kern s) k' Hp Hne Hm Ew) as (m0 & H1 & H2 & H3). now apply (Hrest (set_kern k' s) m0).
Qed.

Lemma init_tasks nc nm from m s :
  relpath_ok from -> ready nc nm s -> shows_tasks from m (kern s) -> cpuset_init_pidlist from false s = Done (Some (qsort m)) s.
Proof. intros Hr Hrd [Hm Hp]. now apply (init_pidlist_ok nc nm). Qed.

Lemma move_attempts_empty nc nm n from to s :
  relpath_ok from -> ready nc nm s -> shows_tasks from [] (kern s) ->
  move_attempts (S n) from to s = Done 0 (set_errno 0 s).
Proof.
  intros Hr Hrd Hm. cbn [move_attempts]. now rewrite (bind_Done _ _ _ s s (init_tasks nc nm from [] s Hr Hrd Hm)).
Qed.

(** Tasks that are listed and moved leave an empty file, so the second attempt
    is the last one. *)
Lemma emptied (m m' : list Z) : Forall pid_ok m -> m' ⊆ m -> (forall p, p ∈ qsort m -> p ∉ m') -> m' = [].
Proof.
  intros Hm Hs Hn. apply elem_of_nil_inv. intros p Hp. apply (Hn p); [|done].
  apply list_elem_of_In, (Permutation_in _ (Permutation_sym (proj2 (qsort_sorted m Hm)))), list_elem_of_In. set_solver.
Qed.

(** The process ids of a cpuset are listed once each in ascending order, by
    [cpuset_get_pidlist] from 0 to the length. *)
Theorem pidlist_sorted nc nm relpath l s :
  relpath_ok relpath -> ready nc nm s -> shows_tasks relpath l (kern s) ->
  exists pl, cpuset_init_pidlist relpath false s = Done pl s /\
    cpuset_pidlist_length pl = Z.of_nat (length l) /\
    let listed := map (fun i => cpuset_get_pidlist pl (Z.of_nat i)) (seq 0 (length l)) in
    Sorted Z.le listed /\ listed ≡ₚ l /\
    (forall i, i < 0 \/ Z.of_nat (length l) <= i -> cpuset_get_pidlist pl i = -1).
Proof.
  intros Hr Hrd Hs. exists (Some (qsort l)). split; [now apply (init_tasks nc nm)|].
  destruct (qsort_sorted l (proj2 Hs)) as [Ho Hp]. pose proof (Permutation_length Hp) as Hlen.
  cbn [cpuset_pidlist_length]. split; [now rewrite Hlen|].
  assert (E : map (fun i => cpuset_get_pidlist (Some (qsort l)) (Z.of_nat i)) (seq 0 (length l)) = qsort l).
  { rewrite <- Hlen. transitivity (map (fun i => nth i (qsort l) 0) (seq 0 (length (qsort l)))).
    - apply List.map_ext_in. intros i Hi%List.in_seq. cbn [cpuset_get_pidlist].
      rewrite (proj2 (Z.leb_le _ _)), (proj2 (Z.ltb_lt _ _)), Nat2Z.id by lia. done.
    - clear. induction (qsort l) as [|p q IH] using List.rev_ind; [done|]. rewrite length_app, seq_app, map_app. cbn [length seq map].
      rewrite app_nth2, Nat.sub_diag by lia. f_equal. rewrite <- IH at 2. apply List.map_ext_in. intros i Hi%List.in_seq.
      apply app_nth1. lia. }
  cbv zeta. rewrite E. split; [done|]. split; [done|]. intros i Hi. cbn [cpuset_get_pidlist].
  destruct ((0 <=? i) && (i <? Z.of_nat (length (qsort l)))) eqn:Ei; [|done].
  apply andb_true_iff in Ei as [H1%Z.leb_le H2%Z.ltb_lt]. lia.
Qed.

End Lists.

(** ** Two cpusets *)

(** The processes in /a and in /b. *)
Definition two_a : cstr := §"/dev/cpuset/a/tasks".
Definition two_b : cstr := §"/dev/cpuset/b/tasks".

Definition two_read (p : cstr) (k : list Z * list Z) : rfile :=
  if decide (p = two_a) then Contents (pid_text (filter pid_ok k.1))
  else if decide (p = two_b) then Contents (pid_text (filter pid_ok k.2)) else NoOpen ENOENT.

Definition two_write (p t : cstr) (k : list Z * list Z) : Z + (list Z * list Z) :=
  match block_pids t with
  | [pid] =>
      if decide (pid ∈ k.1 ++ k.2) then
        let a := filter (fun q => q <> pid) k.1 in
        let b := filter (fun q => q <> pid) k.2 in
        if decide (p = two_a) then inr (pid :: a, b)
        else if decide (p = two_b) then inr (a, pid :: b) else inl ENOENT
      else inl ESRCH
  | _ => inl EINVAL
  end.

#[local] Instance two : Kernel := {|
  kst := list Z * list Z;
  k_read := two_read;
  k_stat _ _ := inl ENOENT;
  k_write := two_write;
  k_mkdir _ _ := inl ENOENT;
  k_rmdir _ _ := inl ENOENT;
  k_readdir _ _ := inl ENOENT;
  k_uname _ := inl ENOSYS;
|}.

#[local] Instance two_tasks : TaskKernel := {|
  k_getpid _ := 1;
  k_kill _ k := inr k;
  k_sleep _ k := (0, k);
  k_same p q _ := bool_decide (p = q);
  k_fts _ _ := inl ENOENT;
|}.

Lemma pid_text_inj l l' : Forall pid_ok l -> Forall pid_ok l' -> pid_text l = pid_text l' -> l = l'.
Proof. intros Hl Hl' E. rewrite <- (block_pids_text l Hl), <- (block_pids_text l' Hl'). now rewrite E. Qed.

Lemma block_pids_one p : pid_ok p -> block_pids (fmt_d p) = [p].
Proof.
  intros Hp. unfold block_pids. assert (Hn : NUL ∉ fmt_d p) by (apply fmt_d_no_sep; [unfold pid_ok in Hp; lia|done]).
  rewrite cstr_of_id by done. pose proof (pid_text_length [p]) as Hl. cbn [pid_text map concat length] in Hl.
  rewrite app_nil_r, length_app in Hl. cbn [length] in Hl. destruct (length (fmt_d p)) as [|n] eqn:En; [lia|].
  cbn [pid_transform]. destruct (fmt_d p) as [|c t] eqn:Ef; [done|]. rewrite <- Ef.
  assert (E : strto 10 (fmt_d p) = Some (false, p, [])).
  { rewrite <- (app_nil_r (fmt_d p)). rewrite strto_fmt_d by done. unfold pid_ok in Hp.
    rewrite (proj2 (Z.ltb_ge p 0)), Z.abs_eq by lia. done. }
  unfold strtoul. rewrite E. unfold pid_ok, INT_MAX in Hp. unfold ULONG_MAX. rewrite (proj2 (Z.ltb_ge _ p)) by lia.
  rewrite s32_small by (unfold INT_MIN, INT_MAX; lia). now destruct n.
Qed.

Lemma two_shows from l k :
  shows_tasks from l k <->
  (tasks_file from = two_a /\ l = filter pid_ok k.1) \/ (tasks_file from = two_b /\ l = filter pid_ok k.2).
Proof.
  assert (Hok : forall m : list Z, Forall pid_ok (filter pid_ok m)).
  { intros m. apply List.Forall_forall. intros x Hx%list_elem_of_In. now apply list_elem_of_filter in Hx. }
  assert (Hne : two_b <> two_a) by (apply (bool_decide_unpack _); vm_compute; exact I).
  unfold shows_tasks. cbn [k_read two]. unfold two_read. split.
  - intros [E Hl]. destruct (decide (tasks_file from = two_a)) as [Ea|_].
    + left. split; [done|]. injection E as E. apply pid_text_inj; [done|apply Hok|done].
    + destruct (decide (tasks_file from = two_b)) as [Eb|_]; [|discriminate E].
      right. split; [done|]. injection E as E. apply pid_text_inj; [done|apply Hok|done].
  - intros [[E ->]|[E ->]]; (split; [|apply Hok]); rewrite E.
    + now rewrite decide_True.
    + rewrite decide_False by done. now rewrite decide_True.
Qed.

Lemma filter_out_sub (p : Z) (m : list Z) :
  (p ∉ filter pid_ok (filter (fun q => q <> p) m)) /\ filter pid_ok (filter (fun q => q <> p) m) ⊆ filter pid_ok m.
Proof.
  split.
  - intros [_ [Hp _]%list_elem_of_filter]%list_elem_of_filter. now apply Hp.
  - intros q [H1 [_ H2]%list_elem_of_filter]%list_elem_of_filter. now apply list_elem_of_filter.
Qed.

#[local] Instance two_fs : TaskFs.
Proof.
  split.
  - intros from to p l k k' Hp Hne Hs. cbn [k_write two]. unfold two_write. rewrite block_pids_one by done.
    destruct (decide (p ∈ k.1 ++ k.2)); [|discriminate]. apply two_shows in Hs. cbv zeta.
    destruct (decide (tasks_file to = two_a)) as [Ea|Ea]; [|destruct (decide (tasks_file to = two_b)) as [Eb|Eb]; [|discriminate]].
    + intros E. injection E as <-. destruct Hs as [[Hf ->]|[Hf ->]]; [congruence|].
      eexists. split; [apply two_shows; right; split; [done|reflexivity]|]. apply filter_out_sub.
    + intros E. injection E as <-. destruct Hs as [[Hf ->]|[Hf ->]]; [|congruence].
      eexists. split; [apply two_shows; left; split; [done|reflexivity]|]. apply filter_out_sub.
  - intros from to p l k Hs. cbn [k_write two]. unfold two_write. intros Hw Hp.
    assert (Hpo : pid_ok p) by (destruct Hs as [_ Hl]; rewrite List.Forall_forall in Hl; now apply Hl, list_elem_of_In).
    rewrite block_pids_one in Hw by done. apply two_shows in Hs.
    destruct (decide (p ∈ k.1 ++ k.2)) as [Hin|Hin]; [|].
    { cbv zeta in Hw. repeat destruct (decide _); discriminate Hw. }
    apply Hin. apply elem_of_app. destruct Hs as [[_ ->]|[_ ->]]; apply list_elem_of_filter in Hp as [_ Hp]; auto.
Qed.

Definition two_lib (a b : list Z) : lib := mkLib (a, b) 0 [] check_ok 8 8 0 0 (None, 0).

Lemma two_ready a b : ready 8 8 (two_lib a b).
Proof. split; try reflexivity; split; reflexivity || discriminate. Qed.

Lemma two_rel c : c = §"/a" \/ c = §"/b" -> relpath_ok c.
Proof. intros [-> | ->]; (split; [reflexivity|apply (bool_decide_unpack _); vm_compute; exact I|apply Nat.ltb_lt; vm_compute; reflexivity]). Qed.

Lemma pidlist_sorted_witness :
  exists pl, cpuset_init_pidlist §"/a" false (two_lib [30; 4; 100] []) = Done pl (two_lib [30; 4; 100] []) /\
    cpuset_get_pidlist pl 0 <= cpuset_get_pidlist pl 1.
Proof.
  destruct (pidlist_sorted 8 8 §"/a" [30; 4; 100] (two_lib [30; 4; 100] []) (two_rel _ (or_introl eq_refl)) (two_ready _ _))
    as (pl & E & _ & Hs & _).
  - apply two_shows. left. split; vm_compute; reflexivity.
  - exists pl. split; [exact E|]. cbn [length seq map] in Hs. inversion Hs as [|? ? _ Hd]. inversion Hd as [|? ? Hle]. exact Hle.
Defined.

