(* ===== verification/CpusetNuke.v ===== *)
(** [cpuset_nuke] ends within its time, and removes a hierarchy whose tasks can
    be killed. *)
From Stdlib Require Import Ascii String ZArith Lia Bool.
From stdpp Require Import base list sets numbers sorting.
From S2P Require Import Prelude CString Effects Bitmask BitmaskText CpusetText Cpuset CpusetFiles CpusetQuery CpusetOk CpusetTasks CpusetTasksOk.

Local Open Scope Z_scope.

#[global] Instance fts_info_eq_dec : EqDecision fts_info.
Proof. solve_decision. Defined.

(** The path below the mount point. *)
Definition below (path : cstr) : cstr := match drop (length cpusetmnt) path with [] => §"/" | r => r end.

Definition total (l : list Z) : Z := foldr Z.add 0 l.

(** ** The hierarchy below [root] in every state of the kernel *)

(** A directory that can be queried and whose tasks can be listed. *)
Record dir_ok `{T : TaskKernel} (nc nm : Z) (k : kst) (d : cstr) (pids : list Z) : Prop := {
  do_rel : relpath_ok d;
  do_below : below (dir_of d) = d;
  do_stat : file_exists (dir_of d) k = true;
  do_tasks : shows_tasks d pids k;
  do_settings : exists a, settings_ok nc nm a /\ shows (dir_of d) (text_of a) k;
}.

(** [dirs] are the directories in the order of [fts_read]; [sleep] returns the
    seconds that are left. *)
Class Hierarchy `{T : TaskKernel} (root : cstr) (nc nm : Z) := {
  dirs : kst -> list cstr;
  tasks : kst -> cstr -> list Z;
  hi_root : relpath_ok root;
  hi_none k : dirs k = [] -> k_fts (dir_of root) k = inl ENOENT;
  hi_some k : dirs k <> [] ->
    exists es, k_fts (dir_of root) k = inr es /\
      filter (fun e => e.1.1 <> FTS_OTHER) es = map (fun d => (FTS_D, dir_of d, 0)) (dirs k);
  hi_dir k d : d ∈ dirs k -> dir_ok nc nm k d (tasks k d);
  hi_sleep n k : 0 < n -> 0 <= (k_sleep n k).1 <= n;
}.

Section Nuke.
Context `{HI : Hierarchy}.

Definition all_tasks (k : kst) : list Z := concat (map (tasks k) (dirs k)).

(** ** Opening the hierarchy *)

Lemma malloc_ok s : heap s = [] -> malloc s = Done true s.
Proof. intros Hh. unfold malloc. now rewrite Hh. Qed.

Lemma fts_entry_ok d s :
  ready nc nm s -> d ∈ dirs (kern s) ->
  ends (fts_entry FTS_D (dir_of d) 0) (fun r s' =>
    quiet s s' /\ exists e, r = Some e /\ fe_path e = d /\ fe_info e = CPUSET_FTS_CPUSET) s.
Proof.
  intros Hrd Hd. destruct (hi_dir _ _ Hd) as [Hr Hb Hst _ (a & Ha & Hs)]. unfold fts_entry.
  pose proof (malloc_ok s (rd_heap _ _ _ Hrd)) as Hm.
  apply (ends_step _ _ _ _ _ _ Hm). cbn [negb]. fold (below (dir_of d)). rewrite Hb. cbv zeta.
  apply (ends_step _ _ _ _ _ _ Hm). cbn [negb]. apply (ends_step _ _ _ _ _ _ Hm). cbn [negb].
  unfold file_exists in Hst. destruct (k_stat (dir_of d) (kern s)) as [|st] eqn:Est; [done|].
  apply (ends_step _ _ (Some st) _ s); [unfold ask; now rewrite Est|]. apply (ends_step _ _ _ _ _ _ Hm). cbn [negb].
  apply ends_bind. eapply ends_mono; [now apply (cpuset_query_ok nc nm d a)|].
  intros [r cp] s' (Hq & Hk & _). cbn [fst] in Hq. subst r. apply (ends_step _ _ (errno s') _ s'); [done|].
  cbn [fst snd Z.ltb Z.compare]. apply ends_ret. split; [done|]. eexists. split; [reflexivity|]. done.
Qed.

(** The entries for these directories. *)
Definition entries_for (ds : list cstr) (es : list cpuset_fts_entry) : Prop :=
  map fe_path es = ds /\ Forall (fun e => fe_info e = CPUSET_FTS_CPUSET) es.

Lemma fts_loop_ok es ds s :
  ready nc nm s -> filter (fun e => e.1.1 <> FTS_OTHER) es = map (fun d => (FTS_D, dir_of d, 0)) ds ->
  ds ⊆ dirs (kern s) ->
  ends (fts_loop es) (fun r s' => quiet s s' /\ exists l, r = Some l /\ entries_for ds l) s.
Proof.
  revert ds s. induction es as [|[[i p] err] es IH]; intros ds s Hrd Hf Hds.
  { destruct ds; [|done]. apply ends_ret. split; [done|]. exists []. repeat split. constructor. }
  destruct (decide (i = FTS_OTHER)) as [->|Hi].
  { rewrite filter_cons_False in Hf by (cbn; tauto). now apply IH. }
  rewrite filter_cons_True in Hf by done. destruct ds as [|d ds]; [done|]. cbn [map] in Hf.
  injection Hf as -> -> -> Hf. cbn [fts_loop]. apply ends_bind.
  eapply ends_mono; [apply fts_entry_ok; [done|set_solver]|]. intros r s1 (Hq & e & -> & Hp & He).
  apply ends_bind. eapply ends_mono; [apply (IH ds); [|done|rewrite (proj2 Hq); set_solver]|].
  { apply (ready_keeps _ _ s); [apply Hq|done]. }
  intros r s2 (Hq2 & l & -> & Hl & Hall). apply ends_ret. split; [now transitivity s1|]. exists (e :: l).
  split; [done|]. split; [cbn; now rewrite Hp, Hl|]. now apply List.Forall_cons.
Qed.

Lemma fts_open_none s :
  dirs (kern s) = [] -> cpuset_fts_open root s = Done None (set_errno ENOENT s).
Proof.
  intros Hd. unfold cpuset_fts_open. rewrite (bind_Done _ _ _ s s (full_path_ok root s hi_root)).
  unfold mbind, E_bind, ask. now rewrite (hi_none _ Hd).
Qed.

Lemma fts_open_some s :
  ready nc nm s -> dirs (kern s) <> [] ->
  ends (cpuset_fts_open root) (fun r s' =>
    quiet s s' /\ exists es, r = Some (mkTree es es) /\ entries_for (dirs (kern s)) es) s.
Proof.
  intros Hrd Hd. destruct (hi_some _ Hd) as (es & Ef & Hf). unfold cpuset_fts_open.
  apply (ends_step _ _ _ _ _ _ (full_path_ok root s hi_root)).
  apply (ends_step _ _ (Some es) _ s); [unfold ask; now rewrite Ef|].
  apply (ends_step _ _ _ _ _ _ (malloc_ok s (rd_heap _ _ _ Hrd))). cbn [negb].
  apply ends_bind. eapply ends_mono; [now apply (fts_loop_ok es (dirs (kern s)))|].
  intros r s' (Hq & l & -> & Hl). apply ends_ret. split; [done|]. exists l. done.
Qed.

(** ** Listing the tasks of the hierarchy *)

Lemma read_tree_ok s : ready nc nm s -> forall es ls,
  map fe_path es ⊆ dirs (kern s) -> Forall (fun e => fe_info e = CPUSET_FTS_CPUSET) es -> Forall (Forall pid_ok) ls ->
  exists ls', read_tree_tasks es (map pid_text ls) s = Done (map pid_text ls') s /\ Forall (Forall pid_ok) ls' /\
    concat ls' ≡ₚ concat (map (tasks (kern s)) (map fe_path es)) ++ concat ls.
Proof.
  intros Hrd. induction es as [|e es IH]; intros ls Hsub Hall Hls.
  { exists ls. done. }
  inversion Hall as [|? ? He Hall']; subst. cbn [map] in Hsub.
  destruct (hi_dir (kern s) (fe_path e)) as [Hr _ _ [Hf Hp] _]; [set_solver|].
  set (l := tasks (kern s) (fe_path e)) in *.
  destruct (IH (match l with [] => ls | _ => l :: ls end)) as (ls' & E & Hok & Hperm); [set_solver|done| |].
  { destruct l; [done|]. now apply List.Forall_cons. }
  exists ls'. split; [|split; [done|]].
  - cbn [read_tree_tasks]. rewrite He, (bind_Done _ _ _ s s (read_tasks_ok _ l _ s Hr (rd_heap _ _ _ Hrd) Hf)).
    rewrite <- E. now destruct l.
  - rewrite Hperm. cbn [map concat]. fold l. destruct l as [|p l]; [done|]. cbn [concat].
    rewrite (Permutation_app_comm (p :: l) (concat (map (tasks (kern s)) (map fe_path es)))), <- app_assoc. done.
Qed.

Lemma init_tree_ok s :
  ready nc nm s -> dirs (kern s) <> [] ->
  ends (cpuset_init_pidlist root true) (fun r s' =>
    quiet s s' /\ exists l, r = Some l /\ l ≡ₚ all_tasks (kern s)) s.
Proof.
  intros Hrd Hd. unfold cpuset_init_pidlist. apply (ends_step _ _ _ _ _ _ (check_ready nc nm s Hrd)). cbn [Z.ltb Z.compare].
  do 2 apply ends_bind. eapply ends_mono; [now apply fts_open_some|]. intros t s1 (Hq & es & -> & Hes & Hall).
  assert (Hrd1 : ready nc nm s1) by (apply (ready_keeps _ _ s); [apply Hq|done]).
  destruct (read_tree_ok s1 Hrd1 es []) as (ls & E & Hok & Hp); [now rewrite Hes, (proj2 Hq)|done|constructor|].
  cbn [ft_next]. apply (ends_step _ _ _ _ _ _ E), ends_ret. pose proof (malloc_ok s1 (rd_heap _ _ _ Hrd1)) as Hm.
  apply (ends_step _ _ _ _ _ _ Hm). cbn [negb]. apply (ends_step _ _ _ _ _ _ Hm). cbn [negb].
  apply (ends_step _ _ _ _ _ _ (gather_ok ls s1 Hok)), ends_ret. split; [done|]. eexists. split; [reflexivity|].
  unfold qsort. rewrite merge_sort_Permutation, Hp, app_nil_r, Hes, (proj2 Hq). done.
Qed.

Lemma init_tree_none s :
  ready nc nm s -> dirs (kern s) = [] -> cpuset_init_pidlist root true s = Done None (set_errno ENOENT s).
Proof.
  intros Hrd Hd. unfold cpuset_init_pidlist. rewrite (bind_Done _ _ _ s s (check_ready nc nm s Hrd)). cbn [Z.ltb Z.compare].
  unfold mbind, E_bind. now rewrite (fts_open_none s Hd).
Qed.

(** ** The time *)

Lemma next_secs_ok left loop rest left' loop' :
  1 <= loop <= left -> loop <= 10 -> left < 2 ^ 32 -> 0 <= rest <= loop -> next_secs left loop rest = (left', loop') ->
  0 <= left' < left /\ (loop - rest) + left' <= left /\ (0 < left' -> 1 <= loop' <= left') /\ loop' <= 10.
Proof.
  intros Hl H10 Hm Hr. unfold next_secs. rewrite (u32_small (loop - rest)) by lia.
  set (slept := if loop <? _ then _ else _).
  assert (Hs : slept = Z.max 1 (loop - rest)).
  { subst slept. destruct (Z.eqb_spec (loop - rest) 0) as [E|E];
      [destruct (Z.ltb_spec loop 1)|destruct (Z.ltb_spec loop (loop - rest))]; lia. }
  rewrite Hs, u32_small by lia. intros E. injection E as <- <-. destruct (Z.ltb_spec loop 10); lia.
Qed.

(** ** Killing and removing *)

Lemma kill_all_ends l s : ends (kill_all l) (fun _ s' => keeps s s') s.
Proof.
  revert s. induction l as [|p l IH]; intros s; cbn [kill_all]; [now apply ends_ret|].
  destruct (1 <? p); [|apply IH]. unfold sys.
  destruct (k_kill p (kern s)) as [e|k] eqn:Ek.
  - apply (ends_step _ _ (-1) _ (set_errno e s)); [unfold sys; now rewrite Ek|].
    apply (ends_step _ _ e _ (set_errno e s)); [done|]. destruct (_ && _); [now apply ends_ret|].
    eapply ends_mono; [apply IH|]. intros r s' Hk. now transitivity (set_errno e s).
  - apply (ends_step _ _ 0 _ (set_kern k s)); [unfold sys; now rewrite Ek|].
    apply (ends_step _ _ (errno s) _ (set_kern k s)); [done|]. cbn [Z.ltb Z.compare andb].
    eapply ends_mono; [apply IH|]. intros r s' Hk. now transitivity (set_kern k s).
Qed.

Lemma rmdir_loop_ends es ret err s :
  Forall (fun e => relpath_ok (fe_path e)) es ->
  ends (rmdir_loop es ret err) (fun r s' => keeps s s' /\ (r.1 = ret \/ r.1 = -1)) s.
Proof.
  intros Hes. revert ret err s. induction Hes as [|e es He Hes IH]; intros ret err s; cbn [rmdir_loop].
  { apply ends_ret. split; [done|now left]. }
  apply (ends_step _ _ _ _ _ _ (full_path_ok _ s He)). destruct (k_rmdir (dir_of (fe_path e)) (kern s)) as [n|k] eqn:Ek.
  - apply (ends_step _ _ (-1) _ (set_errno n s)); [unfold sys; now rewrite Ek|].
    apply (ends_step _ _ n _ (set_errno n s)); [done|].
    destruct (_ && _); (eapply ends_mono; [apply IH|]); intros r s' [Hk Hr]; (split; [now transitivity (set_errno n s)|tauto]).
  - apply (ends_step _ _ 0 _ (set_kern k s)); [unfold sys; now rewrite Ek|].
    apply (ends_step _ _ (errno s) _ (set_kern k s)); [done|]. cbn [Z.ltb Z.compare andb].
    eapply ends_mono; [apply IH|]. intros r s' [Hk Hr]. split; [now transitivity (set_kern k s)|tauto].
Qed.

Lemma reverse_loop_rev a b : reverse_loop a b = rev b ++ a.
Proof. revert a. induction b as [|e b IH]; intros a; [done|]. cbn. now rewrite IH, <- app_assoc. Qed.

Lemma rmdir_cpusets_ends s :
  ready nc nm s -> dirs (kern s) <> [] ->
  ends (rmdir_cpusets root) (fun r s' => (r = 0 \/ r = -1) /\ (r = 0 -> errno s' = 0)) s.
Proof.
  intros Hrd Hd. unfold rmdir_cpusets. apply ends_bind. eapply ends_mono; [now apply fts_open_some|].
  intros t s1 (Hq & es & -> & Hes & Hall). apply ends_bind. cbn [cpuset_fts_reverse cpuset_fts_rewind ft_next ft_head].
  rewrite reverse_loop_rev, app_nil_r. eapply ends_mono; [apply rmdir_loop_ends|].
  - apply List.Forall_forall. intros e He%List.in_rev. apply (do_rel nc nm (kern s) _ (tasks (kern s) (fe_path e))), hi_dir.
    rewrite <- Hes. now apply list_elem_of_In, List.in_map.
  - intros [r err] s2 [Hk Hr]. cbn [fst snd] in *. apply (ends_step _ _ tt _ (set_errno (if r =? 0 then 0 else err) s2)); [done|].
    apply ends_ret. split; [done|]. intros ->. done.
Qed.

(** ** The loop *)

Definition in_time (left : Z) (sl : list Z) (r : option (Z * list Z)) (s : lib) : Prop :=
  exists rc more, r = Some (rc, sl ++ more) /\ (rc = 0 \/ rc = -1) /\ (rc = 0 -> errno s = 0) /\
    Forall (fun n => 0 <= n <= 10) more /\ total more <= left.

Lemma in_time_now left sl rc s :
  0 <= left -> rc = 0 \/ rc = -1 -> (rc = 0 -> errno s = 0) -> in_time left sl (Some (rc, sl)) s.
Proof. intros Hl Hr He. exists rc, []. rewrite app_nil_r. repeat split; done || constructor. Qed.

Lemma nuke_loop_in_time fuel left loop sl s :
  ready nc nm s -> 0 <= left < 2 ^ 32 -> (0 < left -> 1 <= loop <= left) -> loop <= 10 -> left < Z.of_nat fuel ->
  ends (nuke_loop fuel root left loop sl) (in_time left sl) s.
Proof.
  revert left loop sl s. induction fuel as [|fuel IH]; intros left loop sl s Hrd Hl Hlp H10 Hf; [lia|]. cbn [nuke_loop].
  destruct (decide (dirs (kern s) = [])) as [Hd|Hd].
  { apply (ends_step _ _ _ _ _ _ (init_tree_none s Hrd Hd)). apply (ends_step _ _ ENOENT _ (set_errno ENOENT s)); [done|].
    rewrite Z.eqb_refl. apply (ends_step _ _ tt _ (set_errno 0 s)); [done|]. apply ends_ret, in_time_now; [lia|auto|done]. }
  apply ends_bind. eapply ends_mono; [now apply init_tree_ok|]. intros r s1 (Hq & l & -> & _).
  assert (Hrd1 : ready nc nm s1) by (apply (ready_keeps _ _ s); [apply Hq|done]).
  destruct l as [|p l].
  { apply ends_bind. eapply ends_mono; [apply rmdir_cpusets_ends; [done|now rewrite (proj2 Hq)]|].
    intros r s2 [Hr He]. apply ends_ret, in_time_now; [lia|done|done]. }
  apply ends_bind. eapply ends_mono; [apply kill_all_ends|]. intros e s2 Hk. destruct e as [e|].
  { apply (ends_step _ _ tt _ (set_errno e s2)); [done|]. apply ends_ret, in_time_now; [lia|auto|done]. }
  destruct (Z.eqb_spec left 0) as [->|Hne].
  { apply (ends_step _ _ tt _ (set_errno ETIME s2)); [done|]. apply ends_ret, in_time_now; [lia|auto|done]. }
  apply (ends_step _ _ s2 _ s2); [done|]. pose proof (hi_sleep loop (kern s2) ltac:(lia)) as Hs.
  destruct (k_sleep loop (kern s2)) as [rest k]. cbn [fst] in Hs.
  apply (ends_step _ _ tt _ (set_kern k s2)); [done|].
  destruct (next_secs left loop rest) as [left' loop'] eqn:En.
  apply next_secs_ok in En as (H1 & H2 & H3 & H4); [|lia..].
  eapply ends_mono; [apply IH; [|lia|lia|lia|lia]|].
  { apply (ready_keeps _ _ s1); [now transitivity s2|done]. }
  intros r s3 (rc & more & -> & Hrc & He & Hm & Ht). exists rc, (loop - rest :: more).
  rewrite <- app_assoc. unfold total in *. cbn [foldr].
  repeat split; try done; [|lia]. apply List.Forall_cons; [lia|done].
Qed.


(** ** Tasks that can be killed, directories that can be removed *)

(** A task that is killed is gone after the next sleep; the last directory of a
    hierarchy without tasks has none below it and can be removed. *)
Class Removable := {
  killed : kst -> list Z;
  rm_kill p k :
    match k_kill p k with
    | inl e => e = ESRCH /\ (p ∉ all_tasks k)
    | inr k' => dirs k' = dirs k /\ all_tasks k' ⊆ all_tasks k /\ p :: killed k ⊆ killed k'
    end;
  rm_sleep n k :
    0 < n -> dirs (k_sleep n k).2 = dirs k /\ all_tasks (k_sleep n k).2 ⊆ all_tasks k /\
             (forall p, p ∈ all_tasks (k_sleep n k).2 -> p ∉ killed k);
  rm_rmdir ds d k :
    dirs k = ds ++ [d] -> all_tasks k = [] ->
    exists k', k_rmdir (dir_of d) k = inr k' /\ dirs k' = ds /\ all_tasks k' = [];
}.

Context {RM : Removable}.

Lemma kill_all_ok l s :
  Forall (fun p => 1 < p) l ->
  ends (kill_all l) (fun r s' =>
    r = None /\ keeps s s' /\ dirs (kern s') = dirs (kern s) /\ all_tasks (kern s') ⊆ all_tasks (kern s) /\
    killed (kern s) ⊆ killed (kern s') /\ (forall p, p ∈ l -> p ∈ all_tasks (kern s') -> p ∈ killed (kern s'))) s.
Proof.
  intros Hl. revert s. induction Hl as [|p l Hp Hl IH]; intros s; cbn [kill_all].
  { apply ends_ret. repeat split; try done. intros p Hp%not_elem_of_nil. done. }
  rewrite (proj2 (Z.ltb_lt 1 p) Hp). pose proof (rm_kill p (kern s)) as Hk. destruct (k_kill p (kern s)) as [e|k] eqn:Ek.
  - destruct Hk as [-> Hn]. apply (ends_step _ _ (-1) _ (set_errno ESRCH s)); [unfold sys; now rewrite Ek|].
    apply (ends_step _ _ ESRCH _ (set_errno ESRCH s)); [done|]. rewrite Z.eqb_refl. cbn [Z.ltb Z.compare andb negb].
    eapply ends_mono; [apply IH|]. intros r s' (-> & Hkp & Hd & Ht & Hkl & Hin).
    split; [done|]. split; [now transitivity (set_errno ESRCH s)|]. repeat split; try done.
    intros q [->|Hq]%elem_of_cons; [|now apply Hin]. intros Hq. destruct Hn. now apply Ht.
  - destruct Hk as (Hd0 & Ht0 & Hk0). apply (ends_step _ _ 0 _ (set_kern k s)); [unfold sys; now rewrite Ek|].
    apply (ends_step _ _ (errno s) _ (set_kern k s)); [done|]. cbn [Z.ltb Z.compare andb].
    eapply ends_mono; [apply IH|]. intros r s' (-> & Hkp & Hd & Ht & Hkl & Hin). cbn [kern set_kern] in *.
    split; [done|]. split; [now transitivity (set_kern k s)|]. split; [congruence|]. repeat split; [set_solver..|].
    intros q [->|Hq]%elem_of_cons; [|now apply Hin]. intros _. set_solver.
Qed.

Lemma rmdir_loop_ok es s :
  all_tasks (kern s) = [] -> dirs (kern s) = rev (map fe_path es) -> ready nc nm s ->
  ends (rmdir_loop es 0 0) (fun r s' => r = (0, 0) /\ dirs (kern s') = []) s.
Proof.
  revert s. induction es as [|e es IH]; intros s Ht Hd Hrd; cbn [rmdir_loop]; [now apply ends_ret|].
  cbn [map rev] in Hd. assert (Hr : relpath_ok (fe_path e)).
  { apply (do_rel nc nm (kern s) _ (tasks (kern s) (fe_path e))), hi_dir. rewrite Hd. set_solver. }
  apply (ends_step _ _ _ _ _ _ (full_path_ok _ s Hr)). destruct (rm_rmdir _ _ _ Hd Ht) as (k & Ek & Hd' & Ht').
  apply (ends_step _ _ 0 _ (set_kern k s)); [unfold sys; now rewrite Ek|].
  apply (ends_step _ _ (errno s) _ (set_kern k s)); [done|]. cbn [Z.ltb Z.compare andb].
  apply IH; [done|done|]. now apply (ready_keeps _ _ s).
Qed.

Lemma rmdir_cpusets_ok s :
  ready nc nm s -> dirs (kern s) <> [] -> all_tasks (kern s) = [] ->
  ends (rmdir_cpusets root) (fun r s' => r = 0 /\ errno s' = 0 /\ dirs (kern s') = []) s.
Proof.
  intros Hrd Hd Ht. unfold rmdir_cpusets. apply ends_bind. eapply ends_mono; [now apply fts_open_some|].
  intros t s1 (Hq & es & -> & Hes & Hall). apply ends_bind. cbn [cpuset_fts_reverse cpuset_fts_rewind ft_next ft_head].
  rewrite reverse_loop_rev, app_nil_r. eapply ends_mono; [apply rmdir_loop_ok|].
  - now rewrite (proj2 Hq).
  - now rewrite (proj2 Hq), map_rev, rev_involutive.
  - apply (ready_keeps _ _ s); [apply Hq|done].
  - intros r s2 [-> Hd2]. apply (ends_step _ _ tt _ (set_errno 0 s2)); [done|]. now apply ends_ret.
Qed.

(** One round of the loop over a hierarchy without tasks. *)
Lemma nuke_round fuel left loop sl s :
  ready nc nm s -> all_tasks (kern s) = [] ->
  ends (nuke_loop (S fuel) root left loop sl) (fun r s' => r = Some (0, sl) /\ errno s' = 0 /\ dirs (kern s') = []) s.
Proof.
  intros Hrd Ht. cbn [nuke_loop]. destruct (decide (dirs (kern s) = [])) as [Hd|Hd].
  { apply (ends_step _ _ _ _ _ _ (init_tree_none s Hrd Hd)). apply (ends_step _ _ ENOENT _ (set_errno ENOENT s)); [done|].
    rewrite Z.eqb_refl. apply (ends_step _ _ tt _ (set_errno 0 s)); [done|]. now apply ends_ret. }
  apply ends_bind. eapply ends_mono; [now apply init_tree_ok|]. intros r s1 (Hq & l & -> & Hl).
  rewrite Ht in Hl. apply Permutation_sym, Permutation_nil in Hl as ->.
  apply ends_bind. eapply ends_mono; [apply rmdir_cpusets_ok; [|now rewrite (proj2 Hq)..]|].
  { apply (ready_keeps _ _ s); [apply Hq|done]. }
  intros r s2 (-> & He & Hd2). now apply ends_ret.
Qed.

(** C5: A hierarchy whose tasks can be killed, and whose directories can be removed
    when they are empty, is removed as a whole after at most one sleep: the
    directories are removed in the order in which each is empty. *)
Theorem nuke_removes seconds s :
  ready nc nm s -> 0 < seconds < 2 ^ 32 -> Forall (fun p => 1 < p) (all_tasks (kern s)) ->
  ends (cpuset_nuke root seconds) (fun r s' =>
    (exists sleeps, r = Some (0, sleeps) /\ (length sleeps <= 1)%nat) /\ errno s' = 0 /\ dirs (kern s') = []) s.
Proof.
  intros Hrd Hs Hp. unfold cpuset_nuke. apply (ends_step _ _ _ _ _ _ (check_ready nc nm s Hrd)). cbn [Z.ltb Z.compare].
  rewrite (proj2 (Z.eqb_neq seconds 0)) by lia. destruct (Z.to_nat seconds) as [|fuel] eqn:Ef; [lia|].
  destruct (decide (all_tasks (kern s) = [])) as [Ht|Ht].
  { eapply ends_mono; [now apply nuke_round|]. intros r s' (-> & He & Hd). split; [|done]. exists []. cbn. split; [done|lia]. }
  remember (S fuel) as fuel1 eqn:E1. cbn [nuke_loop].
  apply ends_bind. eapply ends_mono; [apply init_tree_ok; [done|]|].
  { intros Hd. unfold all_tasks in Ht. rewrite Hd in Ht. done. }
  intros r s1 (Hq & l & -> & Hl). destruct l as [|p l]; [now apply Permutation_nil in Hl|].
  assert (Hrd1 : ready nc nm s1) by (apply (ready_keeps _ _ s); [apply Hq|done]).
  apply ends_bind. eapply ends_mono; [apply kill_all_ok; now rewrite Hl|].
  intros e s2 (-> & Hk & Hd2 & Ht2 & _ & Hin). rewrite (proj2 (Z.eqb_neq seconds 0)) by lia.
  apply (ends_step _ _ s2 _ s2); [done|]. destruct (rm_sleep 1 (kern s2)) as (Hd3 & Ht3 & Hgone); [lia|].
  destruct (k_sleep 1 (kern s2)) as [rest k]. cbn [snd] in *. apply (ends_step _ _ tt _ (set_kern k s2)); [done|].
  destruct (next_secs seconds 1 rest) as [left' loop']. subst fuel1.
  eapply ends_mono; [apply nuke_round|].
  - apply (ready_keeps _ _ s1); [now transitivity s2|done].
  - apply elem_of_nil_inv. intros q Hq3. apply (Hgone q Hq3), Hin; [|now apply Ht3].
    rewrite Hl, <- (proj2 Hq). now apply Ht2, Ht3.
  - intros r s' (-> & He & Hd). split; [|done]. eexists. split; [reflexivity|]. cbn. lia.
Qed.

(** Without a number of seconds, a cpuset that is not there is undefined: the
    list behind a null pointer is reversed, though ENOENT is let through as if
    there were nothing left to do. *)
Theorem nuke_missing s :
  ready nc nm s -> dirs (kern s) = [] -> cpuset_nuke root 0 s = Undefined.
Proof.
  intros Hrd Hd. unfold cpuset_nuke. rewrite (bind_Done _ _ _ s s (check_ready nc nm s Hrd)). cbn [Z.ltb Z.compare Z.eqb].
  unfold rmdir_cpusets, mbind, E_bind. now rewrite (fts_open_none s Hd).
Qed.
End Nuke.

(** ** A cpuset with one below it *)

Inductive nest_live := Both | Outer | Gone.

(** The processes of the inner cpuset, and those that got a signal. *)
Record nest := mkNest { n_live : nest_live; n_pids : list Z; n_dead : list Z }.

Definition nest_dirs (k : nest) : list cstr :=
  match n_live k with Both => [§"/a"; §"/a/b"] | Outer => [§"/a"] | Gone => [] end.
Definition nest_tasks (k : nest) (d : cstr) : list Z :=
  if decide (d = §"/a/b") then filter pid_ok (n_pids k) else [].

Fixpoint nest_file (ds : list cstr) (k : nest) (p : cstr) : option cstr :=
  match ds with
  | [] => None
  | d :: ds =>
      if decide (p = tasks_file d) then Some (pid_text (nest_tasks k d))
      else if decide (p = dir_of d) then Some []
      else match files_of (dir_of d) (old_settings false) p with
           | Some t => Some t
           | None => nest_file ds k p
           end
  end.

Definition nest_rmdir (p : cstr) (k : nest) : Z + nest :=
  match n_live k with
  | Both => if decide (p = dir_of §"/a/b" /\ filter pid_ok (n_pids k) = [])
            then inr (mkNest Outer (n_pids k) (n_dead k)) else inl 16
  | Outer => if decide (p = dir_of §"/a") then inr (mkNest Gone (n_pids k) (n_dead k)) else inl ENOENT
  | Gone => inl ENOENT
  end.

#[local] Instance nest_kernel : Kernel := {|
  kst := nest;
  k_read p k := match nest_file (nest_dirs k) k p with Some t => Contents t | None => NoOpen ENOENT end;
  k_stat p k := match nest_file (nest_dirs k) k p with Some _ => inr (false, 0) | None => inl ENOENT end;
  k_write _ _ _ := inl EINVAL;
  k_mkdir _ _ := inl EINVAL;
  k_rmdir := nest_rmdir;
  k_readdir _ _ := inl ENOENT;
  k_uname _ := inl ENOSYS;
|}.

#[local] Instance nest_task_kernel : TaskKernel := {|
  k_getpid _ := 1;
  k_kill p k := inr (mkNest (n_live k) (n_pids k) (p :: n_dead k));
  k_sleep n k := (0, mkNest (n_live k) (filter (fun p => p ∉ n_dead k) (n_pids k)) (n_dead k));
  k_same p q _ := bool_decide (p = q);
  k_fts p k :=
    match nest_dirs k with
    | [] => inl ENOENT
    | ds => inr (map (fun d => (FTS_D, dir_of d, 0)) ds ++ [(FTS_OTHER, dir_of §"/a", 0)])
    end;
|}.

Lemma nest_dir k d : d ∈ nest_dirs k -> dir_ok 8 8 k d (nest_tasks k d).
Proof.
  intros Hd. assert (Hc : (d = §"/a" /\ n_live k <> Gone) \/ (d = §"/a/b" /\ n_live k = Both)).
  { destruct k as [[]]; cbn in *; set_solver. }
  assert (Hpid : Forall pid_ok (nest_tasks k d)).
  { unfold nest_tasks. destruct (decide _); [|constructor]. apply List.Forall_forall. intros x Hx%list_elem_of_In.
    now apply list_elem_of_filter in Hx. }
  split.
  - destruct Hc as [[-> _]|[-> _]]; [apply relpath_a|].
    split; [reflexivity|apply (bool_decide_unpack _); vm_compute; exact I|apply Nat.ltb_lt; vm_compute; reflexivity].
  - destruct Hc as [[-> _]|[-> _]]; vm_compute; reflexivity.
  - destruct k as [[] pids dead]; destruct Hc as [[-> Hl]|[-> Hl]]; try discriminate Hl; try (now destruct Hl);
      vm_compute; reflexivity.
  - split; [|done]. destruct k as [[] pids dead]; destruct Hc as [[-> Hl]|[-> Hl]]; try discriminate Hl; try (now destruct Hl).
    all: vm_compute; reflexivity.
  - exists (old_settings false). split; [apply old_settings_ok|]. intros x.
    destruct k as [[] pids dead]; destruct Hc as [[-> Hl]|[-> Hl]]; try discriminate Hl; try (now destruct Hl).
    all: destruct x as [f| | |]; try destruct f; vm_compute; auto.
Qed.

#[local] Instance nest_hierarchy : Hierarchy §"/a" 8 8.
Proof.
  refine {| dirs := nest_dirs : kst -> list cstr; tasks := nest_tasks : kst -> cstr -> list Z |}.
  - apply relpath_a.
  - intros k Hd. cbn [k_fts nest_task_kernel]. now rewrite Hd.
  - intros [[] pids dead] Hd; cbn [k_fts nest_task_kernel nest_dirs n_live] in *; [| |done];
      (eexists; split; [reflexivity|]); rewrite list.filter_app; vm_compute; reflexivity.
  - apply nest_dir.
  - intros n k Hn. cbn. lia.
Defined.

Lemma nest_all k : all_tasks k = match n_live k with Both => filter pid_ok (n_pids k) | _ => [] end.
Proof.
  destruct k as [[] pids dead]; [|reflexivity..]. unfold all_tasks. cbn [dirs tasks nest_hierarchy nest_dirs n_live map concat].
  unfold nest_tasks. rewrite decide_False, decide_True by (done || (apply (bool_decide_unpack _); vm_compute; exact I)).
  apply app_nil_r.
Qed.

#[local] Instance nest_removable : Removable.
Proof.
  refine {| killed := n_dead : kst -> list Z |}.
  - intros p k. cbn [k_kill nest_task_kernel]. rewrite !nest_all. done.
  - intros n k Hn. rewrite !nest_all. cbn [k_sleep nest_task_kernel snd n_live n_pids]. split; [done|].
    destruct (n_live k); [|set_solver..].
    split; intros p [Hp [Hd Hi]%list_elem_of_filter]%list_elem_of_filter; [now apply list_elem_of_filter|done].
  - intros ds d [[] pids dead] Hd; rewrite nest_all; cbn [n_live n_pids dirs nest_hierarchy nest_dirs] in *; intros Ht.
    + apply (app_inj_tail [§"/a"]) in Hd as [<- <-]. eexists. cbn [k_rmdir nest_kernel]. unfold nest_rmdir.
      cbn [n_live n_pids]. rewrite decide_True by done. split; [reflexivity|]. now rewrite nest_all.
    + apply (app_inj_tail []) in Hd as [<- <-]. eexists. cbn [k_rmdir nest_kernel]. unfold nest_rmdir.
      cbn [n_live n_pids]. rewrite decide_True by done. split; [reflexivity|]. now rewrite nest_all.
    + now destruct ds.
Defined.

Definition nest_lib : lib := lib_of (mkNest Both [20; 30] []).


Lemma nuke_removes_witness :
  ends (cpuset_nuke §"/a" 5) (fun r s' => exists sleeps, r = Some (0, sleeps)) nest_lib.
Proof.
  eapply ends_mono; [apply (nuke_removes (root := §"/a") 5)|].
  - apply lib_of_ready.
  - lia.
  - rewrite nest_all. apply (bool_decide_unpack _). vm_compute. exact I.
  - intros r s' [(sl & E & _) _]. exists sl. exact E.
Defined.

Lemma nuke_missing_witness : cpuset_nuke §"/a" 0 (lib_of (mkNest Gone [] [])) = Undefined.
Proof. apply (nuke_missing (root := §"/a")); [apply lib_of_ready|reflexivity]. Defined.
