(* ===== verification/CpusetBind.v ===== *)
(** Cpusets of processes: getting the masks of a cpuset, relative and system-wide
    numbers of CPUs and nodes, placements, binding a process to a CPU of its
    cpuset, and the test for collisions with exclusive siblings. *)
From Stdlib Require Import Ascii String ZArith Lia Bool.
From stdpp Require Import base list sets numbers.
From S2P Require Import Prelude CString Effects Bitmask CpusetText Cpuset.

Local Open Scope Z_scope.

Definition MPOL_DEFAULT : Z := 0.
Definition MPOL_BIND : Z := 2.

(** Binding to CPUs and nodes. *)
Class BindKernel `{Kernel} := {
  k_setaffinity : bitmask -> kst -> Z + kst;               (* of the calling process *)
  k_mempolicy : Z -> bitmask -> Z -> kst -> Z + kst;       (* mode, nodes, maxnode *)
  k_addr2node : Z -> kst -> Z + Z;                         (* get_mempolicy *)
  k_stack : kst -> cstr;                                   (* an array that is not initialised *)
}.

(** The numbers of the last field read by [cpuset_latestcpu]: behind a word and
    35 numbers. *)
Fixpoint skip_numbers (n : nat) (s : cstr) : option cstr :=
  match n with
  | O => Some s
  | S n => match strto 10 s with Some (_, _, r) => skip_numbers n r | None => None end
  end.

Definition scan_latest (s : cstr) : option Z :=
  let s := dropwhile isspace s in
  match takewhile (fun c => negb (isspace c)) s with
  | [] => None
  | w =>
      match skip_numbers 35 (drop (length w) s) with
      | Some r =>
          match strto 10 r with
          | Some _ => Some (s32 (strtoul 10 r).1)
          | None => None
          end
      | None => None
      end
  end.

Record cpuset_placement := mkPlc { plc_cpus : bitmask; plc_mems : bitmask; plc_path : option cstr }.

Section Bind.
Context `{B : BindKernel}.

Local Abbreviation M := (E lib).

(** ** Masks of a cpuset *)

(** [resolve_cp]: NULL is the cpuset of the process. *)
Definition resolve_cp (cp : option cpuset) : M (option cpuset) :=
  match cp with
  | Some cp => mret (Some cp)
  | None =>
      a ← cpuset_alloc;
      match a with
      | None => mret None
      | Some cp1 => r ← cpuset_cpusetofpid cp1 0; mret (if r.1 <? 0 then None else Some r.2)
      end
  end.

Definition get_mask (member_of : cpuset -> member (option bitmask)) (cp : option cpuset) : M (option bitmask) :=
  cp1 ← resolve_cp cp;
  match cp1 with
  | None => mret None
  | Some cp1 =>
      match val (member_of cp1) with
      | None => _ ← modify (set_errno EINVAL); mret None
      | Some b => mret (Some b)
      end
  end.

Definition cpuset_getcpus (cp : option cpuset) (b : bitmask) : M (Z * bitmask) :=
  m ← get_mask cpus cp;
  mret (match m with Some m => (0, bitmask_copy b (Other m)) | None => (-1, b) end).

Definition cpuset_getmems (cp : option cpuset) (b : bitmask) : M (Z * bitmask) :=
  m ← get_mask mems cp;
  mret (match m with Some m => (0, bitmask_copy b (Other m)) | None => (-1, b) end).

Definition cpuset_cpus_weight (cp : option cpuset) : M Z :=
  m ← get_mask cpus cp;
  mret (match m with Some m => bitmask_weight m | None => -1 end).

Definition cpuset_mems_weight (cp : option cpuset) : M Z :=
  m ← get_mask mems cp;
  mret (match m with Some m => bitmask_weight m | None => -1 end).

(** ** Relative and system-wide numbers *)

(** The positions are [unsigned] and become [int]; the mask must be there. *)
Definition c_map (member_of : cpuset -> member (option bitmask)) (pos : bitmask -> Z -> Z)
  (cp : option cpuset) (n : Z) : M Z :=
  cp1 ← resolve_cp cp;
  match cp1 with
  | None => mret (-1)
  | Some cp1 => b ← some (val (member_of cp1)); mret (s32 (pos b (u32 n)))
  end.

Definition cpuset_c_rel_to_sys_cpu : option cpuset -> Z -> M Z := c_map cpus bitmask_rel_to_abs_pos.
Definition cpuset_c_sys_to_rel_cpu : option cpuset -> Z -> M Z := c_map cpus bitmask_abs_to_rel_pos.
Definition cpuset_c_rel_to_sys_mem : option cpuset -> Z -> M Z := c_map mems bitmask_rel_to_abs_pos.
Definition cpuset_c_sys_to_rel_mem : option cpuset -> Z -> M Z := c_map mems bitmask_abs_to_rel_pos.

Definition p_map (c : option cpuset -> Z -> M Z) (pid n : Z) : M Z :=
  a ← cpuset_alloc;
  match a with
  | None => mret (-1)
  | Some cp =>
      r ← cpuset_cpusetofpid cp pid;
      if r.1 <? 0 then mret (-1) else c (Some r.2) n
  end.

Definition cpuset_p_rel_to_sys_cpu : Z -> Z -> M Z := p_map cpuset_c_rel_to_sys_cpu.
Definition cpuset_p_sys_to_rel_cpu : Z -> Z -> M Z := p_map cpuset_c_sys_to_rel_cpu.
Definition cpuset_p_rel_to_sys_mem : Z -> Z -> M Z := p_map cpuset_c_rel_to_sys_mem.
Definition cpuset_p_sys_to_rel_mem : Z -> Z -> M Z := p_map cpuset_c_sys_to_rel_mem.

(** ** Placements *)

Definition cpuset_get_placement (pid : Z) : M (option cpuset_placement) :=
  m ← malloc;
  if negb m then mret None
  else
    nbits ← cpuset_cpus_nbits;
    c ← alloc_mask nbits;
    match c with
    | None => mret None
    | Some c =>
        nbits ← cpuset_mems_nbits;
        n ← alloc_mask nbits;
        match n with
        | None => mret None
        | Some n =>
            a ← cpuset_alloc;
            match a with
            | None => mret None
            | Some cp =>
                p ← cpuset_getcpusetpath pid PATH_MAX;
                if negb p.1 then mret None
                else
                  buf ← some p.2;
                  q ← cpuset_query cp buf;
                  if q.1 <? 0 then mret None
                  else
                    bc ← some (val (cpus q.2));
                    bm ← some (val (mems q.2));
                    d ← malloc;
                    mret (Some (mkPlc (bitmask_copy c (Other bc)) (bitmask_copy n (Other bm))
                                  (if d : bool then Some buf else None)))
            end
        end
    end.

(** [cpuset_equal_placement]; the paths are compared last. *)
Definition cpuset_equal_placement (plc1 plc2 : cpuset_placement) : M bool :=
  if bitmask_equal (plc_cpus plc1) (plc_cpus plc2) && bitmask_equal (plc_mems plc1) (plc_mems plc2) then
    a ← some (plc_path plc1);
    b ← some (plc_path plc2);
    mret (streq a b)
  else mret false.

(** [do body while (!cpuset_equal_placement(plc1, plc2))], between two placements
    of the process; [None] when the fuel is used up. *)
Fixpoint same_place (fuel : nat) (body : M Z) : M (option Z) :=
  match fuel with
  | O => mret None
  | S fuel =>
      plc1 ← cpuset_get_placement 0;
      r ← body;
      plc2 ← cpuset_get_placement 0;
      plc1 ← some plc1;
      plc2 ← some plc2;
      e ← cpuset_equal_placement plc1 plc2;
      if e : bool then mret (Some r) else same_place fuel body
  end.

(** ** Binding *)

Definition cpuset_cpubind (cpu : Z) : M Z :=
  nbits ← cpuset_cpus_nbits;
  b ← alloc_mask nbits;
  match b with
  | None => mret (-1)
  | Some b => sys (k_setaffinity (bitmask_setbit b (u32 cpu)))
  end.

Definition cpuset_membind (mem : Z) : M Z :=
  nbits ← cpuset_mems_nbits;
  b ← alloc_mask nbits;
  match b with
  | None => mret (-1)
  | Some b => sys (k_mempolicy MPOL_BIND (bitmask_setbit b (u32 mem)) (size b + 1))
  end.

Definition cpuset_addr2node (addr : Z) : M Z :=
  n ← ask (k_addr2node addr);
  mret (match n with Some n => n | None => -1 end).

(** [read(fd, buf, sizeof(buf))] into the array that holds the name of the file
    and, behind it, what the stack holds; the array must have a NUL. *)
Definition stat_buf (stack name text : cstr) : option cstr :=
  let buf := name ++ NUL :: drop (S (length name)) (take PATH_MAX stack) in
  let buf := take PATH_MAX text ++ drop (length (take PATH_MAX text)) buf in
  if decide (NUL ∈ buf) then Some (cstr_of buf) else None.

Definition cpuset_latestcpu (pid : Z) : M Z :=
  let name := if pid =? 0 then §"/proc/self/stat" else §"/proc/" ++ fmt_d pid ++ §"/stat" in
  s ← get;
  f ← read_file name;
  match f with
  | Contents (c :: t) =>
      buf ← some (stat_buf (k_stack (kern s)) name (c :: t));
      let cpu := match strrchr buf ")" with
                 | Some (_ :: r) => default (-1) (scan_latest r)
                 | _ => -1
                 end in
      _ ← when (cpu <? 0) (modify (set_errno EINVAL));
      mret cpu
  | _ => mret (-1)
  end.

Definition cpuset_unpin : M Z :=
  c ← check;
  if c <? 0 then mret (-1)
  else
    nbits ← cpuset_cpus_nbits;
    b ← alloc_mask nbits;
    match b with
    | None => mret (-1)
    | Some b =>
        r ← sys (k_setaffinity (bitmask_setall b));
        if r <? 0 then mret (-1)
        else
          nbits ← cpuset_mems_nbits;
          n ← alloc_mask nbits;
          match n with
          | None => mret (-1)
          | Some n =>
              r ← sys (k_mempolicy MPOL_DEFAULT n (size n + 1));
              mret (if r <? 0 then -1 else 0)
          end
    end.

Definition pin_body (relcpu : Z) : M Z :=
  r ← cpuset_unpin;
  cpu ← cpuset_p_rel_to_sys_cpu 0 relcpu;
  r' ← cpuset_cpubind cpu;
  mret (if (r <? 0) || (r' <? 0) then -1 else 0).

Definition cpuset_pin (fuel : nat) (relcpu : Z) : M (option Z) :=
  c ← check;
  if c <? 0 then mret (Some (-1)) else same_place fuel (pin_body relcpu).

Definition cpuset_size (fuel : nat) : M (option Z) :=
  c ← check;
  if c <? 0 then mret (Some (-1)) else same_place fuel (cpuset_cpus_weight None).

Definition cpuset_where (fuel : nat) : M (option Z) :=
  c ← check;
  if c <? 0 then mret (Some (-1))
  else same_place fuel (cpu ← cpuset_latestcpu 0; cpuset_p_sys_to_rel_cpu 0 cpu).

(** ** Collisions *)

Definition isdir (path : cstr) : M bool :=
  r ← ask (k_stat path);
  mret (match r with Some (d, _) => d | None => false end).

(** What [cpuset_getcpus] and [cpuset_getmems] leave in the masks. *)
Record masks := mkMasks { cpus1 : bitmask; cpus2 : bitmask; mems1 : bitmask; mems2 : bitmask }.

(** One pair of masks, fetched and compared when one of the cpusets is exclusive. *)
Definition meets (get : option cpuset -> bitmask -> M (Z * bitmask)) (excl : bool) (cp1 cp2 : cpuset)
  (b1 b2 : bitmask) : M (bool * bitmask * bitmask) :=
  if excl then
    r1 ← get (Some cp1) b1;
    r2 ← get (Some cp2) b2;
    mret (bitmask_intersects r1.2 r2.2, r1.2, r2.2)
  else mret (false, b1, b2).

Definition exclusive (f : flag) (cp1 cp2 : cpuset) : bool :=
  negb (val (flags cp1 f) =? 0) || negb (val (flags cp2 f) =? 0).

(** [while ((dent = readdir(dir)) != NULL)]. *)
Fixpoint collides_loop (names : list cstr) (parent base : cstr) (cp1 cp2 : cpuset) (ms : masks) : M Z :=
  match names with
  | [] => mret 0
  | name :: names =>
      if streq name §"." || streq name §".." || streq name base then collides_loop names parent base cp1 cp2 ms
      else
        child ← some (pathcat2 PATH_MAX parent name);
        d ← isdir child;
        if negb d then collides_loop names parent base cp1 cp2 ms
        else
          q ← cpuset_query cp2 (drop (length cpusetmnt) child);
          if q.1 <? 0 then mret 0
          else
            let cp2 := q.2 in
            a ← meets cpuset_getcpus (exclusive cpu_exclusive cp1 cp2) cp1 cp2 (cpus1 ms) (cpus2 ms);
            if a.1.1 : bool then mret 1
            else
              b ← meets cpuset_getmems (exclusive mem_exclusive cp1 cp2) cp1 cp2 (mems1 ms) (mems2 ms);
              if b.1.1 : bool then mret 1
              else collides_loop names parent base cp1 cp2 (mkMasks a.1.2 a.2 b.1.2 b.2)
  end.

(** [bitmask_alloc] of the four masks. *)
Definition alloc_masks : M (option masks) :=
  n ← cpuset_cpus_nbits;
  c1 ← alloc_mask n;
  match c1 with
  | None => mret None
  | Some c1 =>
      n ← cpuset_cpus_nbits;
      c2 ← alloc_mask n;
      match c2 with
      | None => mret None
      | Some c2 =>
          n ← cpuset_mems_nbits;
          m1 ← alloc_mask n;
          match m1 with
          | None => mret None
          | Some m1 =>
              n ← cpuset_mems_nbits;
              m2 ← alloc_mask n;
              mret (match m2 with Some m2 => Some (mkMasks c1 c2 m1 m2) | None => None end)
          end
      end
  end.

Definition cpuset_collides_exclusive (cpusetpath : cstr) (cp1 : cpuset) : M Z :=
  c ← check;
  if c <? 0 then mret 0
  else
    path ← full_path cpusetpath;
    if streq path cpusetmnt then mret 0
    else
      m ← malloc;                                           (* strdup *)
      match strrchr path "/" with
      | None => mret 0
      | Some tail =>
          let parent := take (length path - length tail) path in
          _ ← require m;
          match drop 1 tail with
          | [] => mret 0
          | base =>
              d ← ask (k_readdir parent);
              match d with
              | None => mret 0
              | Some names =>
                  a ← cpuset_alloc;
                  match a with
                  | None => mret 0
                  | Some cp2 =>
                      ms ← alloc_masks;
                      match ms with
                      | None => mret 0
                      | Some ms => collides_loop names parent base cp1 cp2 ms
                      end
                  end
              end
          end
      end.

(** ** The mount point *)

Definition cpuset_mountpoint : M cstr :=
  c ← check;
  if c <? 0 then
    e ← gets errno;
    mret (if e =? ENODEV then §"[cpuset filesystem not mounted]" else §"[cpuset filesystem not supported]")
  else mret cpusetmnt.
End Bind.
