(* ===== verification/CpusetBindOk.v ===== *)
(** A process that is pinned to a CPU of its cpuset by its relative number runs
    there, and asking where it runs gives that number. *)
From Stdlib Require Import Ascii String ZArith Lia Bool.
From stdpp Require Import base list sets numbers.
From S2P Require Import Prelude CString Effects Bitmask BitmaskText CpusetText Cpuset CpusetFiles CpusetQuery CpusetModify CpusetOk CpusetBind.

Local Open Scope Z_scope.

(** ** Positions in a mask *)

Lemma rank_ext b b' n : (forall i, 0 <= i -> bit b' i = bit b i) -> 0 <= n -> rank b' n = rank b n.
Proof.
  intros Hb. revert n. apply natlike_ind; [now rewrite !rank_0|]. intros n Hn IH.
  unfold Z.succ. rewrite !rank_S by done. now rewrite IH, Hb.
Qed.

Lemma rank_onto b n r : 0 <= n -> 0 <= r < rank b n -> exists p, 0 <= p < n /\ bit b p = true /\ rank b p = r.
Proof.
  intros Hn. revert r. pattern n. apply natlike_ind; [intros r Hr; rewrite rank_0 in Hr; lia| |done].
  clear n Hn. intros n Hn IH r. unfold Z.succ. rewrite rank_S by done. intros Hr.
  destruct (decide (r < rank b n)) as [Hlt|Hge].
  - destruct (IH r ltac:(lia)) as (p & Hp & Hb & Hk). exists p. repeat split; try done; lia.
  - destruct (bit b n) eqn:E; cbn [Z.b2z] in Hr; [|lia]. exists n. repeat split; try done; lia.
Qed.

(** The CPU or node with the relative number [r]. *)
Record member_at (b : bitmask) (r p : Z) : Prop := {
  ma_pos : 0 <= p < size b;
  ma_bit : bit b p = true;
  ma_rank : rank b p = r;
}.

Lemma member_at_exists b r : wf b -> 0 <= r < bitmask_weight b -> exists p, member_at b r p.
Proof.
  intros Hwf Hr. destruct (rank_onto b (size b) r) as (p & H1 & H2 & H3); [apply Hwf|done|].
  exists p. split; done.
Qed.

Lemma rel_to_abs_at b b' r p :
  member_at b r p -> wf b' -> size b' = size b -> (forall i, 0 <= i -> bit b' i = bit b i) ->
  0 <= r <= p /\ bitmask_rel_to_abs_pos b' r = p /\ bitmask_abs_to_rel_pos b' p = r.
Proof.
  intros [Hp Hb Hk] Hwf Hs Hbits. pose proof (rank_mono b 0 p ltac:(lia)) as H0. rewrite rank_0 in H0.
  assert (Hle : forall n, 0 <= n -> rank b n <= n).
  { apply natlike_ind; [now rewrite rank_0|]. intros n Hn IH. unfold Z.succ. rewrite rank_S by done.
    destruct (bit b n); cbn [Z.b2z]; lia. }
  specialize (Hle p ltac:(lia)). split; [lia|]. rewrite <- Hbits in Hb by lia.
  assert (Hk' : rank b' p = r) by (rewrite (rank_ext b b') by (done || lia); done). split.
  - unfold bitmask_rel_to_abs_pos. apply rel_loop_spec; rewrite ?rank_0; try done; lia.
  - unfold bitmask_abs_to_rel_pos. rewrite getbit_bit, Hb by lia. cbn. done.
Qed.

Lemma copy_same n b b' m :
  same_bits n b b' -> wf m -> size m = n -> size b = n -> same_bits n b (bitmask_copy m (Other b')).
Proof.
  intros (Hw & Hs & Hb) Hm Hn Hsb.
  destruct (for_bits_spec m (fun c i => _getbit (rd (Other b') c) i)
              ltac:(intros j c Hj Hsz Hc; reflexivity) Hm) as (W & S' & Bt).
  split; [exact W|]. split; [unfold bitmask_copy; lia|]. intros i Hi. destruct (decide (i < n)) as [Hlt|Hge].
  - unfold bitmask_copy. rewrite Bt by lia. cbn [rd]. fold (bit b' i). now apply Hb.
  - rewrite (bit_out b) by lia. apply bit_out. unfold bitmask_copy. lia.
Qed.

(** ** The field of the last CPU *)

Definition RPAR : ascii := ")".

(** What /proc/self/stat shows: a name in parentheses, a letter and numbers. *)
Definition stat_text (pre state : cstr) (nums : list Z) : cstr :=
  pre ++ RPAR :: §" " ++ state ++ concat (map (fun z => §" " ++ fmt_d z) nums) ++ [LF].

Record state_ok (state : cstr) : Prop := {
  sk_word : state <> [];
  sk_space : Forall (fun c => isspace c = false) state;
  sk_par : RPAR ∉ state;
}.

Lemma strrchr_last pre rest c : c ∉ rest -> strrchr (pre ++ c :: rest) c = Some (c :: rest).
Proof.
  intros Hc. assert (Hn : forall s, c ∉ s -> strrchr s c = None).
  { induction s as [|x s IH]; intros Hs; [done|]. cbn. rewrite IH by set_solver.
    destruct (ceqb x c) eqn:E; [|done]. apply ceqb_eq in E as ->. set_solver. }
  induction pre as [|x pre IH]; cbn; [|now rewrite IH]. rewrite Hn by done.
  now rewrite ceqb_refl.
Qed.

Definition num_text (nums : list Z) : cstr := concat (map (fun z => §" " ++ fmt_d z) nums).

Lemma num_text_ends nums r : ends_number 10 r -> ends_number 10 (num_text nums ++ r).
Proof. destruct nums as [|z nums]; [done|]. intros _. done. Qed.

Lemma strto_space s : strto 10 (§" " ++ s) = strto 10 s.
Proof. done. Qed.

Lemma skip_numbers_text nums r :
  ends_number 10 r -> skip_numbers (length nums) (num_text nums ++ r) = Some r.
Proof.
  intros Hr. induction nums as [|z nums IH]; [done|]. cbn [length skip_numbers].
  change (num_text (z :: nums)) with ((§" " ++ fmt_d z) ++ num_text nums).
  rewrite <- !app_assoc, strto_space, strto_fmt_d by now apply num_text_ends. done.
Qed.

Lemma scan_latest_text state nums r cpu :
  state_ok state -> nums !! 35%nat = Some cpu -> 0 <= cpu <= INT_MAX ->
  scan_latest (§" " ++ state ++ num_text nums ++ LF :: r) = Some cpu.
Proof.
  intros [Hw Hsp _] Hc Hr. unfold scan_latest.
  destruct nums as [|z0 nums0] eqn:En; [done|]. rewrite <- En in *.
  assert (Hd : dropwhile isspace (§" " ++ state ++ num_text nums ++ LF :: r) = state ++ num_text nums ++ LF :: r).
  { destruct state as [|c state]; [done|]. inversion Hsp as [|? ? Hc0 _]; subst. cbn. now rewrite Hc0. }
  rewrite Hd. assert (Ht : takewhile (fun c => negb (isspace c)) (state ++ num_text nums ++ LF :: r) = state).
  { clear Hd. rewrite En. change (num_text (z0 :: nums0)) with (§" " ++ (fmt_d z0 ++ num_text nums0)).
    clear Hw. induction Hsp as [|c state Hc0 Hsp IH]; [done|]. cbn. rewrite Hc0. cbn. f_equal. exact IH. }
  rewrite Ht. destruct state as [|c state]; [done|]. rewrite drop_app_length.
  rewrite <- (take_drop_middle nums 35 cpu Hc). unfold num_text at 1. rewrite map_app, concat_app.
  fold (num_text (take 35 nums)). cbn [map concat]. fold (num_text (drop 36 nums)).
  rewrite <- !app_assoc. assert (E35 : 35%nat = length (take 35 nums)).
  { apply lookup_lt_Some in Hc. rewrite length_take. lia. }
  rewrite E35 at 1. rewrite skip_numbers_text by done. unfold strtoul. rewrite strto_space, strto_fmt_d by now apply num_text_ends.
  unfold INT_MAX in Hr. rewrite (proj2 (Z.ltb_ge cpu 0)), Z.abs_eq by lia. unfold ULONG_MAX.
  rewrite (proj2 (Z.ltb_ge _ cpu)) by lia. cbn [fst]. now rewrite s32_small by (unfold INT_MIN, INT_MAX; lia).
Qed.

Lemma num_text_free c nums : c <> " "%char -> c <> "-"%char -> isdigit_base 10 c = false -> c ∉ num_text nums.
Proof.
  intros H1 H2 Hd. induction nums as [|z nums IH]; [apply not_elem_of_nil|].
  change (num_text (z :: nums)) with ((§" " ++ fmt_d z) ++ num_text nums). rewrite !not_elem_of_app.
  split; [|done]. split; [intros Hin%list_elem_of_singleton; done|].
  destruct (decide (0 <= z)) as [Hz|Hz]; [now apply fmt_d_no_sep|].
  unfold fmt_d. rewrite (proj2 (Z.ltb_lt z 0)) by lia. intros [Hin|Hin]%elem_of_cons; [done|].
  assert (Hf : c ∈ fmt_d (- z)) by (unfold fmt_d; now rewrite (proj2 (Z.ltb_ge (- z) 0)) by lia).
  revert Hf. apply fmt_d_no_sep; [lia|done].
Qed.

(** ** A process in a cpuset *)

Definition self_stat : cstr := §"/proc/self/stat".

(** The bytes of the array of [cpuset_latestcpu] behind the text. *)
Definition behind (stack t : cstr) : cstr := drop (length t) (self_stat ++ NUL :: drop 16 (take PATH_MAX stack)).

(** What /proc/self/stat says for a process on this CPU. *)
Definition runs_on (stack t : cstr) (cpu : Z) : Prop :=
  exists pre state nums, t = stat_text pre state nums /\ state_ok state /\ nums !! 35%nat = Some cpu /\
    0 <= cpu <= INT_MAX /\ (NUL ∉ t) /\ (length t <= PATH_MAX)%nat /\
    (NUL ∈ behind stack t) /\ (RPAR ∉ cstr_of (behind stack t)).

Lemma stat_buf_text stack t :
  NUL ∉ t -> (length t <= PATH_MAX)%nat -> NUL ∈ behind stack t ->
  stat_buf stack self_stat t = Some (t ++ cstr_of (behind stack t)).
Proof.
  intros Hn Hl Hb. unfold stat_buf. cbv zeta. rewrite (take_ge t) by done.
  change (S (length self_stat)) with 16%nat. fold (behind stack t).
  rewrite decide_True by (apply elem_of_app; now right). now rewrite cstr_of_app.
Qed.

Section Place.
Context `{B : BindKernel}.

Lemma latestcpu_ok t cpu s :
  k_read self_stat (kern s) = Contents t -> runs_on (k_stack (kern s)) t cpu -> cpuset_latestcpu 0 s = Done cpu s.
Proof.
  intros Hf (pre & state & nums & Et & Hst & Hc & Hr & Hn & Hl & Hb & Hp). unfold cpuset_latestcpu. cbn [Z.eqb].
  rewrite (bind_Done _ _ s s s) by done. fold self_stat.
  rewrite (bind_Done _ _ (Contents t) s s) by (unfold read_file; now rewrite Hf).
  destruct t as [|c t0] eqn:E0; [unfold stat_text in Et; now destruct pre|]. rewrite <- E0 in *.
  rewrite stat_buf_text by done. rewrite bind_some. set (junk := cstr_of (behind (k_stack (kern s)) t)) in *.
  assert (Es : strrchr (t ++ junk) ")" = Some (RPAR :: §" " ++ state ++ num_text nums ++ LF :: junk)).
  { rewrite Et. unfold stat_text. fold (num_text nums). rewrite <- app_assoc. cbn [app]. rewrite <- !app_assoc. cbn [app].
    apply strrchr_last. change (" "%char :: state ++ num_text nums ++ LF :: junk) with ([" "%char] ++ state ++ num_text nums ++ [LF] ++ junk).
    rewrite !not_elem_of_app. repeat split; [intros H1%list_elem_of_singleton; done|apply Hst|now apply num_text_free|].
    intros [H1|H1]%elem_of_cons; done. }
  rewrite Es, (scan_latest_text state nums junk cpu Hst Hc Hr). unfold default, id. cbv zeta.
  rewrite (proj2 (Z.ltb_ge cpu 0)) by lia. done.
Qed.

(** The process is in the cpuset [path] with these settings. *)
Record sits (nc nm : Z) (path : cstr) (a : settings) (s : lib) : Prop := {
  si_ready : ready nc nm s;
  si_rel : relpath_ok path;
  si_line : (LF ∉ path) /\ ("013"%char ∉ path);
  si_path : k_read §"/proc/self/cpuset" (kern s) = Contents (path ++ [LF]);
  si_settings : settings_ok nc nm a;
  si_shows : shows (dir_of path) (text_of a) (kern s);
}.

Context {nc nm : Z} {path : cstr} {a : settings}.

Lemma sits_quiet s s' : quiet s s' -> sits nc nm path a s -> sits nc nm path a s'.
Proof.
  intros [Hk Ek] []. split; try done; [now apply (ready_keeps _ _ s)|now rewrite Ek..].
Qed.

Lemma chomp_line p : LF ∉ p -> "013"%char ∉ p -> chomp (p ++ [LF]) = p.
Proof.
  intros H1 H2. unfold chomp. rewrite rev_app_distr. cbn [rev app dropwhile]. rewrite ceqb_refl. cbn [orb].
  assert (E : dropwhile (fun c => ceqb c LF || (chr_code c =? 13)) (rev p) = rev p); [|now rewrite E, rev_involutive].
  destruct (rev p) as [|c r] eqn:Er; [done|]. assert (Hc : c ∈ p).
  { apply list_elem_of_In, List.in_rev. rewrite Er. now left. }
  cbn. destruct (ceqb c LF) eqn:E1; [apply ceqb_eq in E1; congruence|]. cbn.
  destruct (chr_code c =? 13) eqn:E2; [|done]. apply Z.eqb_eq in E2.
  destruct H2. replace "013"%char with c; [done|]. rewrite <- (chr_chr_code c), E2. done.
Qed.

Lemma getcpusetpath_ok s : sits nc nm path a s -> cpuset_getcpusetpath 0 PATH_MAX s = Done (true, Some path) s.
Proof.
  intros [Hrd Hr [Hl1 Hl2] Hp _ _]. unfold cpuset_getcpusetpath. rewrite (bind_Done _ _ _ s s (check_ready nc nm s Hrd)).
  cbn [Z.ltb Z.compare Z.eqb]. pose proof (rp_len _ Hr) as Hlen.
  rewrite (proj2 (Nat.leb_gt _ _)) by (change (length §"/proc/self/cpuset") with 17%nat; apply Nat.ltb_lt; vm_compute; reflexivity).
  rewrite (bind_Done _ _ (Contents (path ++ [LF])) s s) by (unfold read_file; now rewrite Hp).
  rewrite (proj2 (Nat.leb_gt _ _)) by (rewrite length_app; cbn [length]; lia).
  rewrite cstr_of_id, chomp_line; [done|done|done|]. rewrite not_elem_of_app. split; [apply Hr|].
  intros H1%list_elem_of_singleton. done.
Qed.

Lemma cpusetofpid_ok cp s :
  sits nc nm path a s ->
  ends (cpuset_cpusetofpid cp 0) (fun r s' => r.1 = 0 /\ quiet s s' /\ queried nc nm a cp r.2) s.
Proof.
  intros Hs. unfold cpuset_cpusetofpid. apply (ends_step _ _ _ _ _ _ (getcpusetpath_ok s Hs)).
  apply (ends_step _ _ path _ s); [done|]. apply ends_bind.
  eapply ends_mono; [apply (cpuset_query_ok nc nm path a); apply Hs|].
  intros [r q] s' (Hr & Hq & Hqd). cbn [fst snd] in *. subst r. now apply ends_ret.
Qed.

(** ** Placements *)

(** The placement of the process. *)
Record placed (p : cpuset_placement) : Prop := {
  pd_cpus : same_bits nc (st_cpus a) (plc_cpus p);
  pd_mems : same_bits nm (st_mems a) (plc_mems p);
  pd_path : plc_path p = Some path;
}.

Lemma get_placement_ok s :
  sits nc nm path a s ->
  ends (cpuset_get_placement 0) (fun r s' => quiet s s' /\ exists p, r = Some p /\ placed p) s.
Proof.
  intros Hs. pose proof (si_ready _ _ _ _ _ Hs) as Hrd. pose proof (rd_heap _ _ _ Hrd) as Hh. unfold cpuset_get_placement.
  apply (ends_step _ _ true _ s); [unfold malloc; now rewrite Hh|]. cbn [negb].
  apply (ends_step _ _ _ _ _ _ (cpus_nbits_ready nc nm s Hrd)), (ends_step _ _ _ _ _ _ (alloc_mask_ok nc s Hh)).
  apply (ends_step _ _ _ _ _ _ (mems_nbits_ready nc nm s Hrd)), (ends_step _ _ _ _ _ _ (alloc_mask_ok nm s Hh)).
  destruct (cpuset_alloc_ok nc nm s Hrd) as (cp & Ec & _). apply (ends_step _ _ _ _ _ _ Ec).
  apply (ends_step _ _ _ _ _ _ (getcpusetpath_ok s Hs)). cbn [fst snd negb]. apply (ends_step _ _ path _ s); [done|].
  apply ends_bind. eapply ends_mono; [apply (cpuset_query_ok nc nm path a); apply Hs|].
  intros [r q] s' (Hr & Hq & [_ _ (bc & Ebc & Hbc) (bm & Ebm & Hbm)]). cbn [fst snd] in *. subst r. cbn [Z.ltb Z.compare].
  rewrite Ebc, Ebm. cbn [val loaded]. apply (ends_step _ _ bc _ s'); [done|]. apply (ends_step _ _ bm _ s'); [done|].
  apply (ends_step _ _ true _ s'); [unfold malloc; now rewrite (keeps_heap _ _ (proj1 Hq)), Hh|].
  apply ends_ret. split; [done|]. eexists. split; [reflexivity|]. pose proof (rd_nc _ _ _ Hrd). pose proof (rd_nm _ _ _ Hrd).
  pose proof (si_settings _ _ _ _ _ Hs) as Ha.
  split; cbn; [|..|done]; apply copy_same; try done; try apply Ha; apply new_mask_wf; lia.
Qed.

Lemma equal_placed p q s : placed p -> placed q -> cpuset_equal_placement p q s = Done true s.
Proof.
  intros [(W1 & _ & B1) (W2 & _ & B2) P1] [(W3 & _ & B3) (W4 & _ & B4) P2]. unfold cpuset_equal_placement.
  assert (E1 : bitmask_equal (plc_cpus p) (plc_cpus q) = true).
  { apply (bitmask_comparisons _ _ W1 W3). intros i Hi. now rewrite B1, B3. }
  assert (E2 : bitmask_equal (plc_mems p) (plc_mems q) = true).
  { apply (bitmask_comparisons _ _ W2 W4). intros i Hi. now rewrite B2, B4. }
  rewrite E1, E2, P1, P2. cbn [andb]. rewrite !bind_some. unfold mret, E_ret. do 2 f_equal. now apply streq_true.
Qed.

(** A loop whose body leaves the process in its cpuset turns once. *)
Lemma same_place_ok fuel (body : E lib Z) Q s :
  sits nc nm path a s -> (forall s1, quiet s s1 -> ends body (fun r s2 => sits nc nm path a s2 /\ Q r s2) s1) ->
  (forall r s1 s2, quiet s1 s2 -> Q r s1 -> Q r s2) ->
  ends (same_place (S fuel) body) (fun v s' => sits nc nm path a s' /\ exists r, v = Some r /\ Q r s') s.
Proof.
  intros Hs Hb HQ. cbn [same_place]. apply ends_bind. eapply ends_mono; [now apply get_placement_ok|].
  intros p1 s1 (Hq1 & p & -> & Hp). apply ends_bind. eapply ends_mono; [now apply Hb|]. intros r s2 [Hs2 Hr].
  apply ends_bind. eapply ends_mono; [now apply get_placement_ok|]. intros p2 s3 (Hq3 & q & -> & Hpq).
  apply (ends_step _ _ p _ s3); [done|]. apply (ends_step _ _ q _ s3); [done|].
  apply (ends_step _ _ _ _ _ _ (equal_placed p q s3 Hp Hpq)), ends_ret. split; [now apply (sits_quiet s2)|].
  exists r. split; [done|]. now apply (HQ r s2).
Qed.

(** ** Numbers *)

Lemma p_map_ok pos n v s :
  sits nc nm path a s -> 0 <= n < 2 ^ 32 -> INT_MIN <= v <= INT_MAX ->
  (forall b, same_bits nc (st_cpus a) b -> pos b n = v) ->
  ends (p_map (c_map cpus pos) 0 n) (fun r s' => quiet s s' /\ r = v) s.
Proof.
  intros Hs Hn Hv Hpos. unfold p_map. destruct (cpuset_alloc_ok nc nm s (si_ready _ _ _ _ _ Hs)) as (cp & Ec & _).
  apply (ends_step _ _ _ _ _ _ Ec), ends_bind. eapply ends_mono; [now apply cpusetofpid_ok|].
  intros [r q] s' (Hr & Hq & [_ _ (bc & Ebc & Hbc) _]). cbn [fst snd] in *. subst r. cbn [Z.ltb Z.compare].
  unfold c_map. apply (ends_step _ _ (Some q) _ s'); [done|]. rewrite Ebc. cbn [val loaded].
  apply (ends_step _ _ bc _ s'); [done|]. apply ends_ret. split; [done|].
  now rewrite u32_small, (Hpos bc Hbc), s32_small.
Qed.

(** ** Binding *)

(** Only what /proc/self/stat shows has changed. *)
Definition unmoved (k k' : kst) : Prop :=
  (forall p, p <> self_stat -> k_read p k' = k_read p k) /\ (forall p, file_exists p k' = file_exists p k).

(** A process runs on a CPU of the mask it is bound to. *)
Class BindFs : Prop := {
  bf_aff b k k' :
    k_setaffinity b k = inr k' ->
    unmoved k k' /\
    exists t cpu, k_read self_stat k' = Contents t /\ runs_on (k_stack k') t cpu /\ bit b cpu = true;
  bf_policy mode b n k k' : k_mempolicy mode b n k = inr k' -> unmoved k k';
}.

Context {FS : BindFs}.

Lemma sits_unmoved s s' : keeps s s' -> unmoved (kern s) (kern s') -> sits nc nm path a s -> sits nc nm path a s'.
Proof.
  intros Hk [Hr He] []. split; try done; [now apply (ready_keeps _ _ s)|rewrite Hr; done|].
  intros x. rewrite He, Hr; [apply si_shows0|]. unfold fpath, dir_of, path_of. cbn. done.
Qed.

Lemma unpin_ok s :
  sits nc nm path a s -> ends cpuset_unpin (fun r s' => sits nc nm path a s' /\ (r = 0 \/ r = -1)) s.
Proof.
  intros Hs. pose proof (si_ready _ _ _ _ _ Hs) as Hrd. pose proof (rd_heap _ _ _ Hrd) as Hh. unfold cpuset_unpin.
  apply (ends_step _ _ _ _ _ _ (check_ready nc nm s Hrd)). cbn [Z.ltb Z.compare].
  apply (ends_step _ _ _ _ _ _ (cpus_nbits_ready nc nm s Hrd)), (ends_step _ _ _ _ _ _ (alloc_mask_ok nc s Hh)).
  set (b := bitmask_setall _). destruct (k_setaffinity b (kern s)) as [e|k] eqn:Ek.
  { apply (ends_step _ _ (-1) _ (set_errno e s)); [unfold sys; now rewrite Ek|]. cbn [Z.ltb Z.compare]. apply ends_ret.
    split; [now apply (sits_quiet s)|auto]. }
  apply (ends_step _ _ 0 _ (set_kern k s)); [unfold sys; now rewrite Ek|]. cbn [Z.ltb Z.compare].
  assert (Hs1 : sits nc nm path a (set_kern k s)) by (apply (sits_unmoved s); [done|now apply (bf_aff b)|done]).
  apply (ends_step _ _ _ _ _ _ (mems_nbits_ready nc nm _ (si_ready _ _ _ _ _ Hs1))).
  apply (ends_step _ _ _ _ _ _ (alloc_mask_ok nm (set_kern k s) Hh)). set (n := mkMask _ _). set (mx := size n + 1).
  destruct (k_mempolicy MPOL_DEFAULT n mx k) as [e|k'] eqn:Ep.
  - apply (ends_step _ _ (-1) _ (set_errno e (set_kern k s))); [unfold sys; cbn [kern set_kern]; now rewrite Ep|].
    apply ends_ret. split; [now apply (sits_quiet (set_kern k s))|auto].
  - apply (ends_step _ _ 0 _ (set_kern k' (set_kern k s))); [unfold sys; cbn [kern set_kern]; now rewrite Ep|].
    apply ends_ret. split; [|auto]. apply (sits_unmoved (set_kern k s)); [done|now apply (bf_policy MPOL_DEFAULT n mx)|done].
Qed.

(** The process was last bound to this CPU alone. *)
Definition bound (p : Z) (s : lib) : Prop :=
  exists b k0, k_setaffinity b k0 = inr (kern s) /\ forall i, 0 <= i -> bit b i = (i =? p).

Lemma cpubind_ok p s :
  sits nc nm path a s -> 0 <= p < nc ->
  ends (cpuset_cpubind p) (fun r s' => sits nc nm path a s' /\ (r = -1 \/ (r = 0 /\ bound p s'))) s.
Proof.
  intros Hs Hp. pose proof (si_ready _ _ _ _ _ Hs) as Hrd. pose proof (rd_heap _ _ _ Hrd) as Hh. unfold cpuset_cpubind.
  apply (ends_step _ _ _ _ _ _ (cpus_nbits_ready nc nm s Hrd)), (ends_step _ _ _ _ _ _ (alloc_mask_ok nc s Hh)).
  pose proof (rd_nc _ _ _ Hrd) as Hnc. unfold INT_MAX in Hnc. rewrite u32_small by lia.
  pose proof (new_mask_wf nc ltac:(unfold INT_MAX; lia)) as Hw. set (z := mkMask _ _) in *.
  destruct (k_setaffinity (bitmask_setbit z p) (kern s)) as [e|k] eqn:Ek.
  { apply (ends_intro _ (-1) _ (set_errno e s)); [unfold sys; now rewrite Ek|]. split; [now apply (sits_quiet s)|now left]. }
  apply (ends_intro _ 0 _ (set_kern k s)); [unfold sys; now rewrite Ek|].
  split; [apply (sits_unmoved s); [done|now apply (bf_aff _ _ _ Ek)|done]|]. right. split; [done|].
  exists (bitmask_setbit z p), (kern s). split; [done|]. intros i Hi. unfold bitmask_setbit.
  rewrite bit_setbit by (done || lia). rewrite (proj2 (Z.ltb_lt p (size z))) by (cbn; lia). rewrite andb_true_r.
  destruct (i =? p); [done|]. apply new_mask_clear.
Qed.

Lemma pin_body_ok r p s :
  sits nc nm path a s -> member_at (st_cpus a) r p ->
  ends (pin_body r) (fun v s' => sits nc nm path a s' /\ (v = -1 \/ (v = 0 /\ bound p s'))) s.
Proof.
  intros Hs Hm. pose proof (so_cpus _ _ _ (si_settings _ _ _ _ _ Hs)) as [Hwa Hsa]. pose proof (ma_pos _ _ _ Hm) as Hp.
  pose proof (rd_nc _ _ _ (si_ready _ _ _ _ _ Hs)) as Hnc. destruct (rel_to_abs_at _ _ r p Hm Hwa eq_refl ltac:(done)) as (Hrp & _).
  unfold INT_MAX in Hnc. unfold pin_body. apply ends_bind. eapply ends_mono; [now apply unpin_ok|]. intros r1 s1 [Hs1 Hr1].
  apply ends_bind. eapply ends_mono; [apply (p_map_ok bitmask_rel_to_abs_pos r p s1 Hs1)|].
  - lia.
  - unfold INT_MIN, INT_MAX. lia.
  - intros b (Hw & Hsz & Hb). apply (rel_to_abs_at (st_cpus a) b r p Hm Hw); [lia|done].
  - intros v s2 [Hq ->]. apply ends_bind. eapply ends_mono; [apply (cpubind_ok p s2); [now apply (sits_quiet s1)|lia]|].
    intros r2 s3 [Hs3 Hr2]. apply ends_ret. split; [done|]. destruct Hr1 as [-> | ->]; [|now left].
    destruct Hr2 as [-> |[-> Hb]]; [now left|]. right. done.
Qed.

Lemma where_ok fuel r p s :
  sits nc nm path a s -> member_at (st_cpus a) r p -> bound p s ->
  ends (cpuset_where (S fuel)) (fun v s' => v = Some r) s.
Proof.
  intros Hs Hm (b & k0 & Hb & Hbits). unfold cpuset_where.
  apply (ends_step _ _ _ _ _ _ (check_ready nc nm s (si_ready _ _ _ _ _ Hs))). cbn [Z.ltb Z.compare].
  eapply ends_mono; [apply (same_place_ok fuel _ (fun v _ => v = r) s Hs)|]; [|intros; done|].
  2: { intros v s' (_ & x & -> & ->). done. }
  intros s1 [Hk Ek]. assert (Hs1 : sits nc nm path a s1) by (apply (sits_quiet s); done).
  destruct (bf_aff _ _ _ Hb) as (_ & t & cpu & Ht & Hrun & Hbit).
  assert (cpu = p) as ->.
  { destruct Hrun as (? & ? & ? & _ & _ & _ & Hc & _). rewrite Hbits in Hbit by lia. now apply Z.eqb_eq. }
  rewrite <- Ek in Ht, Hrun. apply (ends_step _ _ _ _ _ _ (latestcpu_ok t p s1 Ht Hrun)).
  pose proof (so_cpus _ _ _ (si_settings _ _ _ _ _ Hs)) as [Hwa Hsa]. pose proof (ma_pos _ _ _ Hm) as Hp.
  pose proof (rd_nc _ _ _ (si_ready _ _ _ _ _ Hs)) as Hnc. unfold INT_MAX in Hnc.
  destruct (rel_to_abs_at _ _ r p Hm Hwa eq_refl ltac:(done)) as (Hrp & _).
  eapply ends_mono; [apply (p_map_ok bitmask_abs_to_rel_pos p r s1 Hs1)|].
  - lia.
  - unfold INT_MIN, INT_MAX. lia.
  - intros b' (Hw & Hsz & Hb'). apply (rel_to_abs_at (st_cpus a) b' r p Hm Hw); [lia|done].
  - intros v s2 [Hq ->]. split; [now apply (sits_quiet s1)|done].
Qed.

End Place.

(** ** A process without a placement *)

Section NoPlace.
Context `{B : BindKernel} {nc nm : Z} (e : Z).

Definition no_path (s : lib) : Prop := ready nc nm s /\ k_read §"/proc/self/cpuset" (kern s) = NoOpen e.

Lemma no_path_quiet s s' : quiet s s' -> no_path s -> no_path s'.
Proof. intros [Hk Ek] [Hr He]. split; [now apply (ready_keeps _ _ s)|now rewrite Ek]. Qed.

Lemma getcpusetpath_none s :
  no_path s -> ends (cpuset_getcpusetpath 0 PATH_MAX) (fun r s' => r.1 = false /\ quiet s s') s.
Proof.
  intros [Hrd He]. unfold cpuset_getcpusetpath. apply (ends_step _ _ _ _ _ _ (check_ready nc nm s Hrd)).
  cbn [Z.ltb Z.compare Z.eqb].
  rewrite (proj2 (Nat.leb_gt _ _)) by (change (length §"/proc/self/cpuset") with 17%nat; apply Nat.ltb_lt; vm_compute; reflexivity).
  apply (ends_step _ _ (NoOpen e) _ (set_errno e s)); [unfold read_file; now rewrite He|].
  apply (ends_step _ _ (NoOpen e) _ (set_errno e (set_errno e s))); [unfold read_file; cbn [kern set_errno]; now rewrite He|].
  eapply ends_step; [reflexivity|]. now apply ends_ret.
Qed.

Lemma get_placement_none s :
  no_path s -> ends (cpuset_get_placement 0) (fun r s' => r = None /\ quiet s s') s.
Proof.
  intros Hs. pose proof (proj1 Hs) as Hrd. pose proof (rd_heap _ _ _ Hrd) as Hh. unfold cpuset_get_placement.
  apply (ends_step _ _ true _ s); [unfold malloc; now rewrite Hh|]. cbn [negb].
  apply (ends_step _ _ _ _ _ _ (cpus_nbits_ready nc nm s Hrd)), (ends_step _ _ _ _ _ _ (alloc_mask_ok nc s Hh)).
  apply (ends_step _ _ _ _ _ _ (mems_nbits_ready nc nm s Hrd)), (ends_step _ _ _ _ _ _ (alloc_mask_ok nm s Hh)).
  destruct (cpuset_alloc_ok nc nm s Hrd) as (cp & Ec & _). apply (ends_step _ _ _ _ _ _ Ec), ends_bind.
  eapply ends_mono; [now apply getcpusetpath_none|]. intros [[] b] s' [Hb Hq]; [done|]. now apply ends_ret.
Qed.

(** When /proc/self/cpuset cannot be opened, the placements are null pointers,
    which are compared all the same. *)
Theorem size_without_placement fuel s : no_path s -> cpuset_size (S fuel) s = Undefined.
Proof.
  intros Hs. unfold cpuset_size. rewrite (bind_Done _ _ _ s s (check_ready nc nm s (proj1 Hs))). cbn [Z.ltb Z.compare same_place].
  destruct (ends_Done _ _ _ (get_placement_none s Hs)) as (? & s1 & E1 & -> & Q1). rewrite (bind_Done _ _ _ _ _ E1).
  assert (H1 : no_path s1) by now apply (no_path_quiet s).
  destruct (cpuset_alloc_ok nc nm s1 (proj1 H1)) as (cp & Ec & _).
  destruct (ends_Done _ _ _ (getcpusetpath_none s1 H1)) as ([? b] & s2 & E2 & Hb & Q2). cbn in Hb. subst.
  assert (Ew : cpuset_cpus_weight None s1 = Done (-1) s2).
  { unfold cpuset_cpus_weight, get_mask, resolve_cp, cpuset_cpusetofpid.
    unfold mbind, E_bind. now rewrite Ec, E2. }
  rewrite (bind_Done _ _ _ _ _ Ew). assert (H2 : no_path s2) by now apply (no_path_quiet s1).
  destruct (ends_Done _ _ _ (get_placement_none s2 H2)) as (? & s3 & E3 & -> & Q3).
  now rewrite (bind_Done _ _ _ _ _ E3).
Qed.
End NoPlace.

(** ** A machine with a process in /a *)

(** The state is the CPU the process runs on. *)
Definition here_stat (cpu : Z) : cstr := stat_text §"1 (sh" §"S" (replicate 35 0 ++ [cpu; 0]).

Definition here_files (q : cstr) : option cstr :=
  if decide (q = §"/proc/self/cpuset") then Some (§"/a" ++ [LF]) else files_of (dir_of §"/a") (old_settings false) q.

#[local] Instance here : Kernel := {|
  kst := Z;
  k_read p cpu := if decide (p = self_stat) then Contents (here_stat cpu)
                  else match here_files p with Some t => Contents t | None => NoOpen ENOENT end;
  k_stat p _ := match here_files p with Some _ => inr (false, 0) | None => inl ENOENT end;
  k_write _ _ _ := inl EINVAL;
  k_mkdir _ _ := inl EINVAL;
  k_rmdir _ _ := inl EINVAL;
  k_readdir _ _ := inl ENOENT;
  k_uname _ := inl ENOSYS;
|}.

#[local] Instance here_bind : BindKernel := {|
  k_setaffinity b _ :=
    let cpu := bitmask_first b in if decide (0 <= cpu <= 1023 /\ bit b cpu = true) then inr cpu else inl EINVAL;
  k_mempolicy _ _ _ cpu := inr cpu;
  k_addr2node _ _ := inr 0;
  k_stack _ := replicate PATH_MAX NUL;
|}.

Lemma here_behind n : (15 <= n < PATH_MAX)%nat ->
  exists m, drop n (self_stat ++ NUL :: drop 16 (take PATH_MAX (replicate PATH_MAX NUL))) = replicate (S m) NUL.
Proof.
  generalize PATH_MAX as len. intros len Hn. exists (len - n - 1 + (16 - len))%nat.
  rewrite take_replicate, drop_replicate, drop_app_ge by (change (length self_stat) with 15%nat; lia).
  change (length self_stat) with 15%nat. change (NUL :: replicate (len `min` len - 16) NUL) with (replicate (S (len `min` len - 16)) NUL).
  rewrite drop_replicate. f_equal. lia.
Qed.

Lemma here_runs cpu : 0 <= cpu <= 1023 -> runs_on (replicate PATH_MAX NUL) (here_stat cpu) cpu.
Proof.
  intros Hc. exists §"1 (sh", §"S", (replicate 35 0 ++ [cpu; 0]).
  assert (Hl : length (here_stat cpu) = (82 + length (fmt_d cpu))%nat).
  { unfold here_stat, stat_text. rewrite map_app, concat_app. rewrite !length_app. cbn [length map concat].
    rewrite !length_app. cbn. lia. }
  pose proof (fmt_d_length cpu ltac:(unfold INT_MIN, INT_MAX; lia)) as Hf.
  assert (Hp : (100 < PATH_MAX)%nat) by (apply Nat.ltb_lt; vm_compute; reflexivity).
  destruct (here_behind (length (here_stat cpu)) ltac:(lia)) as [m Hm]. fold (behind (replicate PATH_MAX NUL) (here_stat cpu)) in Hm.
  rewrite Hm. split; [reflexivity|]. split.
  { split; [done|repeat constructor|apply (bool_decide_unpack _); vm_compute; exact I]. }
  split; [done|]. split; [unfold INT_MAX; lia|]. split; [|split; [lia|split; [now left|apply not_elem_of_nil]]].
  unfold here_stat, stat_text. fold (num_text (replicate 35 0 ++ [cpu; 0])).
  assert (Hn : NUL ∉ num_text (replicate 35 0 ++ [cpu; 0])) by now apply num_text_free.
  intros Hin. rewrite elem_of_app, elem_of_cons, !elem_of_app in Hin.
  destruct Hin as [Hin|[Hin|[Hin|[Hin|[Hin|Hin]]]]]; [|discriminate Hin| | |now apply Hn|];
    revert Hin; apply (bool_decide_unpack _); vm_compute; exact I.
Qed.

#[local] Instance here_fs : BindFs.
Proof.
  split.
  - intros b k k'. cbn [k_setaffinity here_bind]. cbv zeta. destruct (decide _) as [[H1 H2]|]; [|discriminate].
    intros E. injection E as <-. split.
    + split; [|done]. intros p Hp. cbn [k_read here]. now rewrite !decide_False.
    + exists (here_stat (bitmask_first b)), (bitmask_first b). split; [|split; [now apply here_runs|done]].
      cbn [k_read here]. now rewrite decide_True.
  - intros mode b n k k' E. injection E as <-. done.
Qed.

Lemma here_sits cpu : sits 8 8 §"/a" (old_settings false) (lib_of cpu).
Proof.
  split.
  - apply lib_of_ready.
  - apply relpath_a.
  - split; apply (bool_decide_unpack _); vm_compute; exact I.
  - vm_compute. reflexivity.
  - apply old_settings_ok.
  - intros x. unfold file_exists. cbn [k_stat k_read here].
    assert (E : here_files (fpath (dir_of §"/a") (setting_name x)) = (fun t => t ++ [LF]) <$> text_of (old_settings false) x).
    { unfold here_files. rewrite decide_False; [apply files_of_setting|]. destruct x as [f| | |]; [destruct f|..];
        apply (bool_decide_unpack _); vm_compute; exact I. }
    rewrite E, decide_False; [now destruct (text_of _ x)|]. intros Hx. discriminate Hx.
Qed.


(** The same machine when no file can be opened. *)
Definition no_files : Kernel := {|
  kst := unit;
  k_read _ _ := NoOpen 24;
  k_stat _ _ := inl ENOENT;
  k_write _ _ _ := inl EINVAL;
  k_mkdir _ _ := inl EINVAL;
  k_rmdir _ _ := inl EINVAL;
  k_readdir _ _ := inl ENOENT;
  k_uname _ := inl ENOSYS;
|}.

Lemma size_without_placement_witness :
  @cpuset_size no_files 1 (@lib_of no_files tt) = Undefined.
Proof.
  apply (@size_without_placement no_files 8 8 24 0). split; [apply lib_of_ready|reflexivity].
Defined.
