(* ===== verification/CpusetCollide.v ===== *)
(** [cpuset_collides_exclusive] tells whether a cpuset shares CPUs or nodes with a
    sibling where one of the two is exclusive. *)
From Stdlib Require Import Ascii String ZArith Lia Bool.
From stdpp Require Import base list sets numbers.
From S2P Require Import Prelude CString Effects Bitmask CpusetText Cpuset CpusetFiles CpusetQuery CpusetModify CpusetOk CpusetBind CpusetBindOk.

Local Open Scope Z_scope.

(** ** Paths of siblings *)

Lemma dir_of_slashed relpath : dir_of relpath = cpusetmnt ++ slashed (components relpath).
Proof. unfold dir_of, path_of, slashed. cbn [app]. rewrite join_concat. done. Qed.

Lemma components_slashed cs : Forall path_comp cs -> components (slashed cs) = cs.
Proof.
  intros Hc. destruct cs as [|c cs]; [done|]. rewrite <- (components_path_of true (c :: cs) Hc) at 2.
  unfold path_of. rewrite join_concat. unfold slashed. cbn [map concat]. now rewrite <- app_assoc.
Qed.

Lemma slashed_snoc cs c : slashed (cs ++ [c]) = slashed cs ++ §"/" ++ c.
Proof. unfold slashed. rewrite map_app, concat_app. cbn [map concat]. now rewrite app_nil_r. Qed.

(** The sibling [name] in the directory with the components [cs]. *)
Definition sibling (cs : list cstr) (name : cstr) : cstr := slashed (cs ++ [name]).

Lemma sibling_dir cs name :
  Forall path_comp cs -> path_comp name -> dir_of (sibling cs name) = fpath (cpusetmnt ++ slashed cs) name.
Proof.
  intros Hc Hn. rewrite dir_of_slashed. unfold sibling. rewrite components_slashed by (apply Forall_app; split; [done|]; now apply List.Forall_cons).
  rewrite slashed_snoc. unfold fpath. now rewrite <- app_assoc.
Qed.

Lemma sibling_path cs name :
  Forall path_comp cs -> path_comp name -> relpath_ok (sibling cs name) ->
  pathcat2 PATH_MAX (cpusetmnt ++ slashed cs) name = Some (dir_of (sibling cs name)) /\
  drop (length cpusetmnt) (dir_of (sibling cs name)) = sibling cs name.
Proof.
  intros Hc Hn Hr. assert (Hu : NUL ∉ slashed cs).
  { pose proof (rp_nul _ Hr) as H. unfold sibling in H. rewrite slashed_snoc, not_elem_of_app in H. apply H. }
  assert (Ed : dir_of (slashed cs) = cpusetmnt ++ slashed cs) by now rewrite dir_of_slashed, components_slashed.
  split.
  - rewrite sibling_dir, <- Ed by done. apply pathcat2_file; [done|done|]. rewrite Ed, <- sibling_dir by done.
    pose proof (fpath_length (sibling cs name) SLevel Hr) as Hl. unfold fpath in Hl. rewrite length_app in Hl. lia.
  - rewrite sibling_dir by done. unfold fpath. rewrite <- app_assoc, drop_app_length. unfold sibling. now rewrite slashed_snoc.
Qed.

(** ** Collisions *)

Definition overlap (b1 b2 : bitmask) : Prop := exists i, 0 <= i /\ bit b1 i = true /\ bit b2 i = true.

Section Collide.
Context `{B : BindKernel} {nc nm : Z}.

(** The cpuset to be made: masks of the sizes of the kernel. *)
Record masks_of (cp : cpuset) (c m : bitmask) : Prop := {
  mk_cpus : val (cpus cp) = Some c;
  mk_mems : val (mems cp) = Some m;
  mk_wf : wf c /\ wf m;
  mk_size : size c = nc /\ size m = nm;
}.

Definition one_exclusive (f : flag) (cp1 : cpuset) (a : settings) : Prop :=
  val (flags cp1 f) <> 0 \/ st_flags a f = Some true.

(** The settings [a] of a sibling and the cpuset. *)
Definition collides (cp1 : cpuset) (c m : bitmask) (a : settings) : Prop :=
  (one_exclusive cpu_exclusive cp1 a /\ overlap c (st_cpus a)) \/
  (one_exclusive mem_exclusive cp1 a /\ overlap m (st_mems a)).

Definition masks_ok (ms : masks) : Prop :=
  (wf (cpus1 ms) /\ size (cpus1 ms) = nc) /\ (wf (cpus2 ms) /\ size (cpus2 ms) = nc) /\
  (wf (mems1 ms) /\ size (mems1 ms) = nm) /\ (wf (mems2 ms) /\ size (mems2 ms) = nm).

Lemma same_bits_refl n b : wf b -> size b = n -> same_bits n b b.
Proof. done. Qed.

Lemma intersects_same n b1 b2 b1' b2' :
  same_bits n b1 b1' -> same_bits n b2 b2' -> bitmask_intersects b1' b2' = true <-> overlap b1 b2.
Proof.
  intros (W1 & _ & B1) (W2 & _ & B2). destruct (bitmask_comparisons b1' b2' W1 W2) as (_ & _ & -> & _).
  unfold overlap. split; intros (i & Hi & H1 & H2); exists i; rewrite B1, B2 in * by done; done.
Qed.

(** One pair of masks, for either member of the structure. *)
Lemma meets_ok n member_of get excl cp1 cp2 m1 m2 m2' c1 c2 s :
  (forall cp x s, get (Some cp) x s =
     (m ← get_mask member_of (Some cp); mret (match m with Some m => (0, bitmask_copy x (Other m)) | None => (-1, x) end)) s) ->
  val (member_of cp1) = Some m1 -> val (member_of cp2) = Some m2' -> same_bits n m2 m2' ->
  wf m1 -> size m1 = n -> size m2 = n -> wf c1 -> size c1 = n -> wf c2 -> size c2 = n ->
  exists b c1' c2', meets get excl cp1 cp2 c1 c2 s = Done (b, c1', c2') s /\
    (wf c1' /\ size c1' = n) /\ (wf c2' /\ size c2' = n) /\ (b = true <-> excl = true /\ overlap m1 m2).
Proof.
  intros Hget E1 E2 Hs W1 S1 S2 Wc1 Sc1 Wc2 Sc2. unfold meets. destruct excl.
  - assert (G : forall cp x m, val (member_of cp) = Some m -> get (Some cp) x s = Done (0, bitmask_copy x (Other m)) s).
    { intros cp x m E. rewrite Hget. unfold get_mask. unfold mbind, E_bind, resolve_cp, mret, E_ret. now rewrite E. }
    rewrite (bind_Done _ _ _ _ _ (G cp1 c1 m1 E1)), (bind_Done _ _ _ _ _ (G cp2 c2 m2' E2)). cbn [fst snd].
    pose proof (copy_same n m1 m1 c1 (same_bits_refl n m1 W1 S1) Wc1 Sc1 S1) as C1.
    pose proof (copy_same n m2 m2' c2 Hs Wc2 Sc2 S2) as C2. eexists _, _, _. split; [reflexivity|].
    split; [split; apply C1|]. split; [split; apply C2|]. rewrite (intersects_same n _ _ _ _ C1 C2). tauto.
  - exists false, c1, c2. split; [done|]. split; [done|]. split; [done|]. split; [done|tauto].
Qed.

(** ** The loop over the directory *)

Context {cs : list cstr} {base : cstr} {cp1 : cpuset} {c m : bitmask} {sib : cstr -> settings}.

(** A name that is not the cpuset itself. *)
Definition other (name : cstr) : Prop := name <> §"." /\ name <> §".." /\ name <> base.

#[local] Instance other_dec name : Decision (other name).
Proof. unfold other. apply _. Defined.

Definition is_dir (k : kst) (name : cstr) : bool :=
  match k_stat (dir_of (sibling cs name)) k with inr (d, _) => d | inl _ => false end.

(** The names of the directory: those of cpusets show their settings. *)
Definition entry_ok (k : kst) (name : cstr) : Prop :=
  other name ->
  path_comp name /\ relpath_ok (sibling cs name) /\
  (is_dir k name = true -> settings_ok nc nm (sib name) /\ shows (dir_of (sibling cs name)) (text_of (sib name)) k).

Definition some_collides (k : kst) (names : list cstr) : Prop :=
  exists name, name ∈ names /\ other name /\ is_dir k name = true /\ collides cp1 c m (sib name).

Lemma exclusive_iff f a cp2 cp2' :
  (forall g, flags cp2' g = read_member (Z.b2z <$> st_flags a g) (flags cp2 g)) -> is_Some (st_flags a f) ->
  exclusive f cp1 cp2' = true <-> one_exclusive f cp1 a.
Proof.
  intros Hf [v Hv]. unfold exclusive, one_exclusive. rewrite Hf, Hv. cbn.
  rewrite orb_true_iff, !negb_true_iff, Z.eqb_neq. destruct v; cbn; naive_solver.
Qed.

Lemma required a f : settings_ok nc nm a -> f = cpu_exclusive \/ f = mem_exclusive -> is_Some (st_flags a f).
Proof.
  intros Ha Hf. pose proof (so_flags _ _ _ Ha) as H0. rewrite List.Forall_forall in H0. apply H0.
  cbn. destruct Hf as [-> | ->]; auto.
Qed.

Lemma isdir_ok name s :
  exists s1, isdir (dir_of (sibling cs name)) s = Done (is_dir (kern s) name) s1 /\ quiet s s1.
Proof.
  unfold isdir, ask, is_dir, mbind, E_bind, mret, E_ret. destruct (k_stat _ _) as [e|[d t]]; eexists; (split; [reflexivity|done]).
Qed.

(** Both pairs of masks, after the query of a sibling with the settings [a]. *)
Lemma meets_both a cp2 q ms s :
  masks_of cp1 c m -> masks_ok ms -> settings_ok nc nm a -> queried nc nm a cp2 q ->
  exists b1 b2 ms',
    meets cpuset_getcpus (exclusive cpu_exclusive cp1 q) cp1 q (cpus1 ms) (cpus2 ms) s = Done (b1, cpus1 ms', cpus2 ms') s /\
    meets cpuset_getmems (exclusive mem_exclusive cp1 q) cp1 q (mems1 ms) (mems2 ms) s = Done (b2, mems1 ms', mems2 ms') s /\
    masks_ok ms' /\ (b1 || b2 = true <-> collides cp1 c m a).
Proof.
  intros [Ec Em [Wc Wm] [Sc Sm]] ((M1 & M2) & (M3 & M4) & (M5 & M6) & (M7 & M8)) Ha [Hf _ (bc & Ebc & Hbc) (bm & Ebm & Hbm)].
  destruct (so_cpus _ _ _ Ha) as [_ Sa]. destruct (so_mems _ _ _ Ha) as [_ Sb].
  destruct (meets_ok nc cpus cpuset_getcpus (exclusive cpu_exclusive cp1 q) cp1 q c _ bc (cpus1 ms) (cpus2 ms) s
    ltac:(reflexivity) Ec ltac:(now rewrite Ebc) Hbc Wc Sc Sa M1 M2 M3 M4) as (b1 & d1 & d2 & E1 & I1 & I2 & Hb1).
  destruct (meets_ok nm mems cpuset_getmems (exclusive mem_exclusive cp1 q) cp1 q m _ bm (mems1 ms) (mems2 ms) s
    ltac:(reflexivity) Em ltac:(now rewrite Ebm) Hbm Wm Sm Sb M5 M6 M7 M8) as (b2 & d3 & d4 & E2 & I3 & I4 & Hb2).
  rewrite (exclusive_iff _ _ _ _ Hf) in Hb1 by (apply required; auto).
  rewrite (exclusive_iff _ _ _ _ Hf) in Hb2 by (apply required; auto).
  exists b1, b2, (mkMasks d1 d2 d3 d4). split; [exact E1|]. split; [exact E2|].
  split; [exact (conj I1 (conj I2 (conj I3 I4)))|]. unfold collides. rewrite orb_true_iff. tauto.
Qed.

Lemma not_other_skip k name names : ~ other name \/ is_dir k name = false -> some_collides k (name :: names) <-> some_collides k names.
Proof.
  intros Hn. unfold some_collides. split.
  - intros (x & [->|Hx]%elem_of_cons & Ho & Hd & Hc); [destruct Hn; congruence|]. exists x. done.
  - intros (x & Hx & Ho & Hd & Hc). exists x. split; [now right|done].
Qed.

(** What the loop returns, from a state with the kernel [k]. *)
Definition told (s : lib) (names : list cstr) (r : Z) (s' : lib) : Prop :=
  quiet s s' /\ ((r = 1 /\ some_collides (kern s) names) \/ (r = 0 /\ ~ some_collides (kern s) names)).

Lemma told_from s s1 names names' r s' :
  quiet s s1 -> (some_collides (kern s) names <-> some_collides (kern s) names') -> told s1 names' r s' -> told s names r s'.
Proof.
  intros Hq Hi [Hq' Hr]. split; [now transitivity s1|]. rewrite (proj2 Hq) in Hr. tauto.
Qed.

Lemma told_hit s s' name names :
  quiet s s' -> other name -> is_dir (kern s) name = true -> collides cp1 c m (sib name) -> told s (name :: names) 1 s'.
Proof. intros Hq Ho Hd Hc. split; [exact Hq|]. left. split; [reflexivity|]. exists name. split; [left|]. exact (conj Ho (conj Hd Hc)). Qed.

Lemma told_miss k name names :
  ~ collides cp1 c m (sib name) -> some_collides k (name :: names) <-> some_collides k names.
Proof.
  intros Hn. split.
  - intros (x & [->|Hx]%elem_of_cons & Hox & Hdx & Hc); [destruct (Hn Hc)|exists x; tauto].
  - intros (x & Hx & Hr). exists x. split; [right; exact Hx|exact Hr].
Qed.

Lemma other_test name : (streq name §"." || streq name §".." || streq name base = true) <-> ~ other name.
Proof.
  unfold other. rewrite !orb_true_iff, !streq_true. destruct (decide (name = §".")), (decide (name = §"..")), (decide (name = base)); tauto.
Qed.

Lemma collides_loop_ok names cp2 ms s :
  ready nc nm s -> Forall path_comp cs -> masks_of cp1 c m -> Forall (entry_ok (kern s)) names -> masks_ok ms ->
  ends (collides_loop names (cpusetmnt ++ slashed cs) base cp1 cp2 ms) (told s names) s.
Proof.
  intros Hrd Hcs Hcm Hns. revert cp2 ms s Hrd Hns. induction names as [|name names IH]; intros cp2 ms s Hrd Hns Hms.
  { apply ends_ret. split; [done|]. right. split; [done|]. intros (x & Hx%not_elem_of_nil & _). done. }
  inversion Hns as [|? ? Hn Hns']; subst. cbn [collides_loop].
  destruct (streq name §"." || streq name §".." || streq name base) eqn:Eo.
  { apply other_test in Eo. eapply ends_mono; [now apply IH|]. intros r s'. apply told_from; [done|apply not_other_skip; now left]. }
  assert (Ho : other name) by (destruct (decide (other name)); [done|]; apply other_test in n; congruence).
  destruct (Hn Ho) as (Hpc & Hrel & Hsib). destruct (sibling_path cs name Hcs Hpc Hrel) as [Ep Ed].
  rewrite Ep. apply (ends_step _ _ (dir_of (sibling cs name)) _ s); [done|].
  destruct (isdir_ok name s) as (s1 & Ei & Hq1). apply (ends_step _ _ _ _ _ _ Ei).
  assert (Hrd1 : ready nc nm s1) by (apply (ready_keeps _ _ s); [apply Hq1|done]).
  destruct (is_dir (kern s) name) eqn:Hd; cbn [negb].
  2: { eapply ends_mono; [apply IH; [done|now rewrite (proj2 Hq1)|done]|]. intros r s'. apply told_from; [done|]. apply not_other_skip. now right. }
  destruct (Hsib eq_refl) as [Ha Hsh]. rewrite Ed. apply ends_bind.
  eapply ends_mono; [apply (cpuset_query_ok nc nm _ (sib name) cp2 s1 Hrel Hrd1 Ha); now rewrite (proj2 Hq1)|].
  intros [r q] s2 (Er & Hq2 & Hqd). cbn [fst snd] in *. subst r. cbn [Z.ltb Z.compare].
  assert (Hq : quiet s s2) by now transitivity s1.
  destruct (meets_both (sib name) cp2 q ms s2 Hcm Hms Ha Hqd) as (b1 & b2 & ms' & E1 & E2 & Hms' & Hc).
  apply (ends_step _ _ _ _ _ _ E1). cbn [fst snd]. destruct b1.
  { apply ends_ret, told_hit; [exact Hq|exact Ho|exact Hd|]. apply Hc. reflexivity. }
  apply (ends_step _ _ _ _ _ _ E2). cbn [fst snd]. clear E1 E2. destruct b2.
  { apply ends_ret, told_hit; [exact Hq|exact Ho|exact Hd|]. apply Hc. reflexivity. }
  destruct ms' as [d1 d2 d3 d4]. eapply ends_mono; [apply IH; [|rewrite (proj2 Hq); exact Hns'|exact Hms']|].
  { apply (ready_keeps _ _ s); [apply Hq|exact Hrd]. }
  intros r s'. apply told_from; [exact Hq|]. apply told_miss. intros H1. apply Hc in H1. discriminate H1.
Qed.

(** ** The whole test *)

Lemma alloc_masks_ok s :
  ready nc nm s -> exists ms, alloc_masks s = Done (Some ms) s /\ masks_ok ms.
Proof.
  intros Hrd. pose proof (rd_heap _ _ _ Hrd) as Hh. unfold alloc_masks.
  pose proof (cpus_nbits_ready nc nm s Hrd) as E1. pose proof (mems_nbits_ready nc nm s Hrd) as E2.
  do 2 rewrite (bind_Done _ _ _ _ _ E1), (bind_Done _ _ _ _ _ (alloc_mask_ok nc s Hh)).
  do 2 rewrite (bind_Done _ _ _ _ _ E2), (bind_Done _ _ _ _ _ (alloc_mask_ok nm s Hh)).
  eexists. split; [reflexivity|]. pose proof (rd_nc _ _ _ Hrd). pose proof (rd_nm _ _ _ Hrd).
  repeat split; cbn; try done; try apply new_mask_wf; lia.
Qed.

(** C14: [cpuset_collides_exclusive] returns 1 exactly when some other cpuset in the
    same directory has a CPU in common where one of the two is exclusive for
    CPUs, or a node where one is exclusive for nodes; else it returns 0.  Nothing
    is changed. *)
Theorem collides_exclusive_iff relpath names s :
  ready nc nm s -> relpath_ok relpath -> components relpath = cs ++ [base] -> masks_of cp1 c m ->
  k_readdir (cpusetmnt ++ slashed cs) (kern s) = inr names -> Forall (entry_ok (kern s)) names ->
  ends (cpuset_collides_exclusive relpath cp1) (told s names) s.
Proof.
  intros Hrd Hr Hcb Hcm Hdir Hns. pose proof (components_ok relpath (rp_nul _ Hr)) as Hok. rewrite Hcb in Hok.
  apply Forall_app in Hok as [Hcs Hb%Forall_inv]. unfold cpuset_collides_exclusive.
  apply (ends_step _ _ _ _ _ _ (check_ready nc nm s Hrd)). cbn [Z.ltb Z.compare].
  assert (Hp : dir_of relpath = (cpusetmnt ++ slashed cs) ++ SL :: base).
  { rewrite dir_of_slashed, Hcb, slashed_snoc, <- app_assoc. done. }
  apply (ends_step _ _ (dir_of relpath) _ s); [apply full_path_abs; [apply Hr..|pose proof (rp_len _ Hr); lia]|].
  destruct (streq (dir_of relpath) cpusetmnt) eqn:Eq.
  { apply streq_true, (f_equal length) in Eq. rewrite Hp, !length_app in Eq. cbn in Eq. lia. }
  apply (ends_step _ _ true _ s); [unfold malloc; now rewrite (rd_heap _ _ _ Hrd)|].
  assert (Hsl : SL ∉ base).
  { destruct Hb as [[_ Hf] _]. rewrite List.Forall_forall in Hf. intros Hin%list_elem_of_In. apply (Hf SL Hin). set_solver. }
  rewrite Hp, (strrchr_last _ base SL Hsl).
  assert (Et : forall (x y : cstr), take (length (x ++ y) - length y) (x ++ y) = x).
  { intros x y. rewrite length_app, Nat.add_sub. apply take_app_length. }
  cbv zeta. rewrite Et. apply (ends_step _ _ tt _ s); [done|]. change (drop 1 (SL :: base)) with base.
  destruct base as [|b0 base'] eqn:Eb; [destruct Hb as [[Hb _] _]; now destruct Hb|]. cbv iota. rewrite <- Eb in *.
  apply (ends_step _ _ (Some names) _ s); [unfold ask; now rewrite Hdir|].
  destruct (cpuset_alloc_ok nc nm s Hrd) as (cp2 & Ea & _). apply (ends_step _ _ _ _ _ _ Ea).
  destruct (alloc_masks_ok s Hrd) as (ms & Em & Hms). apply (ends_step _ _ _ _ _ _ Em).
  now apply collides_loop_ok.
Qed.
End Collide.

(** ** A directory with two cpusets *)

(** The cpuset /b is exclusive for CPUs and has 0 and 1. *)
#[local] Instance pair_kernel : Kernel := {|
  kst := unit;
  k_read p _ := match files_of (dir_of §"/b") (old_settings true) p with Some t => Contents t | None => NoOpen ENOENT end;
  k_stat p _ := if decide (p = dir_of §"/b") then inr (true, 0)
                else match files_of (dir_of §"/b") (old_settings true) p with Some _ => inr (false, 0) | None => inl ENOENT end;
  k_write _ _ _ := inl EINVAL;
  k_mkdir _ _ := inl EINVAL;
  k_rmdir _ _ := inl EINVAL;
  k_readdir p _ := if decide (p = cpusetmnt) then inr [§"."; §".."; §"tasks"; §"a"; §"b"] else inl ENOENT;
  k_uname _ := inl ENOSYS;
|}.

#[local] Instance pair_bind : BindKernel := {|
  k_setaffinity _ _ := inl EINVAL;
  k_mempolicy _ _ _ _ := inl EINVAL;
  k_addr2node _ _ := inl EINVAL;
  k_stack _ := [];
|}.

Lemma pair_entries (k : kst) :
  Forall (entry_ok (nc := 8) (nm := 8) (cs := []) (base := §"a") (sib := fun _ => old_settings true) k)
    [§"."; §".."; §"tasks"; §"a"; §"b"].
Proof.
  assert (Hskip : forall name, ~ other (base := §"a") name ->
            entry_ok (nc := 8) (nm := 8) (cs := []) (base := §"a") (sib := fun _ => old_settings true) k name) by (intros name H1 H2; tauto).
  assert (Hc : forall name, name = §"tasks" \/ name = §"b" -> path_comp name /\ relpath_ok (sibling [] name)).
  { intros name [-> | ->]; (split; [split; [split; [done|]|split; [done|]]; apply (bool_decide_unpack _); vm_compute; exact I|]);
      (split; [reflexivity|apply (bool_decide_unpack _); vm_compute; exact I|apply Nat.ltb_lt; vm_compute; reflexivity]). }
  repeat apply List.Forall_cons; try apply List.Forall_nil.
  - apply Hskip. intros (H1 & _). now apply H1.
  - apply Hskip. intros (_ & H1 & _). now apply H1.
  - intros _. destruct (Hc §"tasks") as [H1 H2]; [now left|]. split; [exact H1|]. split; [exact H2|].
    intros Hd. vm_compute in Hd. discriminate Hd.
  - apply Hskip. intros (_ & _ & H1). now apply H1.
  - intros _. destruct (Hc §"b") as [H1 H2]; [now right|]. split; [exact H1|]. split; [exact H2|]. intros _.
    split; [apply old_settings_ok|]. intros x. destruct x as [f| | |]; [destruct f|..]; vm_compute; auto.
Qed.

Lemma collides_exclusive_iff_witness :
  ends (cpuset_collides_exclusive §"/a" (change 1)) (fun r _ => r = 1) (lib_of (tt : kst)).
Proof.
  eapply ends_mono; [apply (collides_exclusive_iff (nc := 8) (nm := 8) (cs := []) (base := §"a") (c := mask8 15) (m := mask8 1)
    (sib := fun _ => old_settings true) §"/a" [§"."; §".."; §"tasks"; §"a"; §"b"])|].
  - apply lib_of_ready.
  - apply relpath_a.
  - vm_compute. reflexivity.
  - split; [reflexivity|reflexivity|split; apply mask8_wf|split; reflexivity].
  - vm_compute. reflexivity.
  - apply pair_entries.
  - intros r s' [_ [[E _]|[_ Hn]]]; [exact E|]. destruct Hn. exists §"b". split; [|split; [|split; [vm_compute; reflexivity|]]].
    + do 4 right. left.
    + split; [|split]; apply (bool_decide_unpack _); vm_compute; exact I.
    + left. split; [right; reflexivity|]. exists 0. split; [lia|]. split; vm_compute; reflexivity.
Defined.
