(* ===== verification/CpusetDist.v ===== *)
(** The distances between CPUs and memory nodes of the cpuset library: the map
    [distmap] is built from the distance files of sysfs, or from the topology
    file of one architecture, and asked by [cpuset_cpumemdist]. *)
From Stdlib Require Import Ascii String ZArith Lia Bool.
From stdpp Require Import base list sets numbers.
From S2P Require Import Prelude CString Effects Bitmask CpusetText Cpuset CpusetMap.

Local Open Scope Z_scope.

Definition DISTMAP_MAX : Z := 255.
Definition distance_directory : cstr := §"/sys/devices/system/node".
Definition sn_topology : cstr := §"/proc/sgi_sn/sn_topology".
Definition sn_top_node_prefix : cstr := §"node ".

(** [strpbrk(p, "0123456789")]. *)
Definition first_digit (p : cstr) : option cstr :=
  match dropwhile (fun c => negb (isdigit c)) p with [] => None | q => Some q end.

(** [for (n = 0; n < nmems && *p; n++, p = q)], [k] turns from [n] on; [wrap] is
    the conversion to the type of [d]. *)
Fixpoint dist_loop (wrap : Z -> Z) (k n : nat) (p : cstr) (dists : list Z) : list Z :=
  match k, p with
  | O, _ | _, [] => dists
  | S k, _ =>
      match first_digit p with
      | None => dists
      | Some p =>
          match strto 10 p with
          | None => dists
          | Some _ =>
              let '(d, q) := strtoul 10 p in
              let d := wrap d in
              dist_loop wrap k (S n) q (if d <? DISTMAP_MAX then <[n := d]> dists else dists)
          end
      end
  end.

Definition parse_dists (wrap : Z -> Z) (nmems : Z) (p : cstr) : list Z :=
  dist_loop wrap (Z.to_nat nmems) 0 p (replicate (Z.to_nat nmems) DISTMAP_MAX).

(** [distmap[I(c, n)] = dists[n]] for all [n]. *)
Definition write_row (nmems c : Z) (dists dm : list Z) : list Z :=
  fold_left (fun dm n => <[Z.to_nat (c * nmems + n) := nth (Z.to_nat n) dists 0]> dm) (seqZ 0 nmems) dm.

(** The rows of the CPUs of a mask. *)
Fixpoint row_loop (fuel : nat) (b : bitmask) (ncpus nmems c : Z) (dists dm : list Z) : list Z :=
  match fuel with
  | O => dm
  | S fuel =>
      if c <? ncpus then row_loop fuel b ncpus nmems (bitmask_next b (c + 1)) dists (write_row nmems c dists dm)
      else dm
  end.

(** [distmap] and [tried_before] of the two functions that build it. *)
Record dist_state := mkDist { distmap : option (list Z); tried : bool; tried_sn : bool }.

Section Dist.
Context `{F : FileKernel}.

Local Abbreviation M := (E lib).

(** The rows of the CPUs local to a node; [None] when the memory is used up. *)
Definition set_rows (node : Z) (dists dm : list Z) : M (option (list Z)) :=
  ncpus ← cpuset_cpus_nbits;
  nmems ← cpuset_mems_nbits;
  m ← alloc_mask nmems;
  match m with
  | None => mret None
  | Some m =>
      let m := bitmask_setbit m node in
      b ← alloc_mask ncpus;
      match b with
      | None => mret None
      | Some b =>
          r ← cpuset_localcpus m b;
          mret (Some (row_loop (Z.to_nat ncpus) r.2 ncpus nmems (bitmask_first r.2) dists dm))
      end
  end.

Definition parse_distmap_line (node : Z) (buf : cstr) (dm : list Z) : M (option (list Z)) :=
  _ ← cpuset_cpus_nbits;
  nmems ← cpuset_mems_nbits;
  c ← malloc;
  if negb c then mret None else set_rows node (parse_dists u32 nmems buf) dm.

Definition parse_distance_file (node : Z) (path : cstr) (dm : list Z) : M (option (list Z)) :=
  f ← read_file path;
  match f with
  | NoOpen _ => mret None
  | _ =>
      let text := match f with Contents t => t | _ => [] end in
      c ← malloc;
      if negb c then mret None
      else
        match flgets (length text) text with
        | None => mret None
        | Some (line, _) => parse_distmap_line node (cstr_of line) dm
        end
  end.

Fixpoint build_loop (names : list cstr) (dm : list Z) : M (option (list Z)) :=
  match names with
  | [] => mret (Some dm)
  | name :: names =>
      match scan_key_u §"node" name with
      | None => build_loop names dm
      | Some node =>
          buf ← some (pathcat3 PATH_MAX distance_directory name §"distance");
          r ← parse_distance_file node buf dm;
          match r with
          | None => mret None
          | Some dm => build_loop names dm
          end
      end
  end.

(** An array of [ncpus * nmems] entries with the greatest distance; the product
    is an [int]. *)
Definition new_distmap : M (option (list Z)) :=
  ncpus ← cpuset_cpus_nbits;
  nmems ← cpuset_mems_nbits;
  _ ← require (ncpus * nmems <=? INT_MAX);
  c ← malloc;
  mret (if c : bool then Some (replicate (Z.to_nat (ncpus * nmems)) DISTMAP_MAX) else None).

Definition build_distmap (st : dist_state) : M dist_state :=
  if tried st then mret (mkDist None true (tried_sn st))
  else
    a ← new_distmap;
    match a with
    | None => mret (mkDist None true (tried_sn st))
    | Some dm =>
        d ← ask (k_readdir distance_directory);
        match d with
        | None => mret (mkDist None true (tried_sn st))
        | Some names => r ← build_loop names dm; mret (mkDist r true (tried_sn st))
        end
    end.

Definition parse_distmap_line_sn (buf : cstr) (dm : list Z) : M (list Z) :=
  _ ← cpuset_cpus_nbits;
  nmems ← cpuset_mems_nbits;
  match strchr buf " " with
  | None => mret dm
  | Some p =>
      let '(node, q) := strtoul 10 p in
      if u32 nmems <=? node then mret dm
      else
        match strstr q §" dist " with
        | None => mret dm
        | Some k =>
            let p := takewhile (fun c => negb (ceqb c " ")) (drop (k + 6) q) in
            c ← malloc;
            if negb c then mret dm
            else r ← set_rows node (parse_dists id nmems p) dm; mret (default dm r)
        end
  end.

Fixpoint sn_loop (fuel buflen : nat) (text : cstr) (dm : list Z) : M (list Z) :=
  match fuel with
  | O => mret dm
  | S fuel =>
      match flgets buflen text with
      | None => mret dm
      | Some (line, r) =>
          let buf := cstr_of line in
          dm ← (if strprefix buf sn_top_node_prefix then parse_distmap_line_sn buf dm else mret dm);
          sn_loop fuel buflen r dm
      end
  end.

Definition build_distmap_sn (st : dist_state) : M dist_state :=
  if tried_sn st then mret (mkDist None (tried st) true)
  else
    f ← read_file sn_topology;
    match f with
    | NoOpen _ => mret (mkDist None (tried st) true)
    | _ =>
        let text := match f with Contents t => t | _ => [] end in
        a ← new_distmap;
        match a with
        | None => mret (mkDist None (tried st) true)
        | Some dm =>
            c ← malloc;
            if negb c then mret (mkDist None (tried st) true)
            else dm ← sn_loop (S (length text)) (length text) text dm; mret (mkDist (Some dm) (tried st) true)
        end
    end.

Definition cpuset_cpumemdist (st : dist_state) (cpu mem : Z) : M (Z * dist_state) :=
  ncpus ← cpuset_cpus_nbits;
  nmems ← cpuset_mems_nbits;
  c ← check;
  if c <? 0 then mret (DISTMAP_MAX, st)
  else
    st ← match distmap st with None => build_distmap st | Some _ => mret st end;
    st ← match distmap st with None => build_distmap_sn st | Some _ => mret st end;
    match distmap st with
    | None => mret (DISTMAP_MAX, st)
    | Some dm =>
        if (cpu <? 0) || (ncpus <=? cpu) || (mem <? 0) || (nmems <=? mem) then mret (DISTMAP_MAX, st)
        else mret (nth (Z.to_nat (cpu * nmems + mem)) dm 0, st)
    end.
End Dist.
