(* ===== verification/CpusetDistOk.v ===== *)
(** [cpuset_cpumemdist] returns the distances of the files in sysfs. *)
From Stdlib Require Import Ascii String ZArith Lia Bool.
From stdpp Require Import base list sets numbers.
From S2P Require Import Prelude CString Effects Bitmask BitmaskText CpusetText Cpuset CpusetFiles CpusetQuery CpusetMap CpusetMapOk CpusetBindOk CpusetDist.

Local Open Scope Z_scope.

(** ** A line of distances *)

(** The first line of a distance file. *)
Definition dist_line (ds : list Z) : cstr := drop 1 (num_text ds).

Definition dist_ok (d : Z) : Prop := 0 <= d < 2 ^ 32.

(** The distance that is kept. *)
Definition clip (d : Z) : Z := if d <? DISTMAP_MAX then d else DISTMAP_MAX.

Lemma fmt_d_head z : 0 <= z -> exists c t, fmt_d z = c :: t /\ isdigit c = true.
Proof.
  intros Hz. rewrite fmt_d_nonneg by done. pose proof (fmt_nat_isdigit 10 z ltac:(lia) Hz) as Hd.
  pose proof (fmt_nat_nonnil 10 z) as Hn. destruct (fmt_nat 10 z) as [|c t]; [done|].
  inversion Hd; subst. exists c, t. done.
Qed.

Lemma first_digit_num d ds :
  dist_ok d -> first_digit (num_text (d :: ds)) = Some (fmt_d d ++ num_text ds) /\
               first_digit (fmt_d d ++ num_text ds) = Some (fmt_d d ++ num_text ds).
Proof.
  intros [Hd _]. destruct (fmt_d_head d Hd) as (c & t & E & Hc). unfold first_digit.
  change (num_text (d :: ds)) with (" "%char :: (fmt_d d ++ num_text ds)). rewrite E. cbn. now rewrite Hc.
Qed.

Lemma dist_loop_num k n d ds dists :
  dist_ok d ->
  dist_loop u32 (S k) n (num_text (d :: ds)) dists =
  dist_loop u32 k (S n) (num_text ds) (if d <? DISTMAP_MAX then <[n := d]> dists else dists) /\
  dist_loop u32 (S k) n (fmt_d d ++ num_text ds) dists = dist_loop u32 (S k) n (num_text (d :: ds)) dists.
Proof.
  intros Hd. destruct (first_digit_num d ds Hd) as [F1 F2]. destruct (fmt_d_head d (proj1 Hd)) as (c & t & E & _).
  assert (Es : strto 10 (fmt_d d ++ num_text ds) = Some (false, d, num_text ds)).
  { rewrite <- (app_nil_r (num_text ds)) at 1. rewrite strto_fmt_d by now apply num_text_ends. rewrite app_nil_r.
    unfold dist_ok in Hd. rewrite (proj2 (Z.ltb_ge d 0)), Z.abs_eq by lia. done. }
  assert (Eu : strtoul 10 (fmt_d d ++ num_text ds) = (d, num_text ds)).
  { unfold strtoul. rewrite Es. unfold dist_ok in Hd. unfold ULONG_MAX. now rewrite (proj2 (Z.ltb_ge _ d)) by lia. }
  assert (E1 : dist_loop u32 (S k) n (num_text (d :: ds)) dists =
               dist_loop u32 k (S n) (num_text ds) (if d <? DISTMAP_MAX then <[n := d]> dists else dists)).
  { cbn [dist_loop]. rewrite F1, Es, Eu. rewrite u32_small by exact Hd. done. }
  split; [exact E1|]. rewrite E1. cbn [dist_loop]. rewrite E at 1. cbn [app].
  rewrite F2, Es, Eu, u32_small by exact Hd. done.
Qed.

Lemma dist_loop_ok k n ds dists j :
  Forall dist_ok ds -> (n + k <= length dists)%nat -> (j < length dists)%nat ->
  nth j (dist_loop u32 k n (num_text ds) dists) 0 =
  (if decide (n <= j < n + k)%nat then match ds !! (j - n)%nat with
                                       | Some d => if d <? DISTMAP_MAX then d else nth j dists 0
                                       | None => nth j dists 0
                                       end
   else nth j dists 0) /\ length (dist_loop u32 k n (num_text ds) dists) = length dists.
Proof.
  intros Hds. revert k n dists. induction Hds as [|d ds Hd Hds IH]; intros k n dists Hk Hj.
  { destruct k; cbn; (split; [|done]); destruct (decide _); done. }
  destruct k as [|k]; [cbn; split; [|done]; rewrite decide_False by lia; done|].
  rewrite (proj1 (dist_loop_num k n d ds dists Hd)).
  set (dists' := if d <? DISTMAP_MAX then _ else dists).
  assert (Hl : length dists' = length dists) by (subst dists'; destruct (d <? _); [apply length_insert|done]).
  destruct (IH k (S n) dists') as [E L]; [lia..|]. rewrite E, L, Hl. split; [|done].
  assert (Hnth : forall i, i <> n -> nth i dists' 0 = nth i dists 0).
  { intros i Hi. subst dists'. destruct (d <? _); [|done]. rewrite !nth_lookup. now rewrite list_lookup_insert_ne by lia. }
  destruct (decide (j = n)) as [->|Hne].
  - rewrite decide_False, decide_True by lia. rewrite Nat.sub_diag. cbn. subst dists'. destruct (d <? _); [|done].
    rewrite nth_lookup, list_lookup_insert_eq by lia. done.
  - rewrite Hnth by done. destruct (decide (S n <= j < S n + k)%nat) as [Hin|Hout].
    + rewrite decide_True by lia. replace (j - n)%nat with (S (j - S n)) by lia. done.
    + rewrite decide_False by lia. done.
Qed.

(** The distance to the node [j]. *)
Definition dist_to (ds : list Z) (j : nat) : Z := match ds !! j with Some d => clip d | None => DISTMAP_MAX end.

Lemma parse_dists_ok nmems ds :
  Forall dist_ok ds -> ds <> [] -> 0 < nmems ->
  length (parse_dists u32 nmems (dist_line ds)) = Z.to_nat nmems /\
  forall j, (j < Z.to_nat nmems)%nat -> nth j (parse_dists u32 nmems (dist_line ds)) 0 = dist_to ds j.
Proof.
  intros Hds Hne Hn. unfold parse_dists. set (dists := replicate _ _).
  assert (E : dist_loop u32 (Z.to_nat nmems) 0 (dist_line ds) dists = dist_loop u32 (Z.to_nat nmems) 0 (num_text ds) dists).
  { destruct ds as [|d ds]; [done|]. inversion Hds; subst. destruct (Z.to_nat nmems) as [|k] eqn:Ek; [lia|].
    change (dist_line (d :: ds)) with (fmt_d d ++ num_text ds). now apply dist_loop_num. }
  rewrite E. assert (Hl : length dists = Z.to_nat nmems) by apply length_replicate. split.
  - destruct (dist_loop_ok (Z.to_nat nmems) 0 ds dists 0 Hds) as [_ L]; lia.
  - intros j Hj. destruct (dist_loop_ok (Z.to_nat nmems) 0 ds dists j Hds) as [Ej _]; [lia..|]. rewrite Ej.
    rewrite decide_True, Nat.sub_0_r by lia. unfold dist_to, clip. subst dists.
    assert (Er : nth j (replicate (Z.to_nat nmems) DISTMAP_MAX) 0 = DISTMAP_MAX) by (rewrite nth_lookup, lookup_replicate_2 by lia; done).
    destruct (ds !! j); rewrite ?Er; done.
Qed.

(** ** The first line of a file in a buffer of its size *)

Lemma line_loop_exact line rest acc c0 :
  LF ∉ line -> line <> [] ->
  exists c, line_loop getc (length line) (line ++ rest) acc c0 = (false, acc ++ line, chr_code c, rest) /\ c ∈ line.
Proof.
  revert acc c0. induction line as [|c line IH]; intros acc c0 Hl Hne; [done|].
  apply not_elem_of_cons in Hl as [Hc Hl]. cbn [length app line_loop getc].
  pose proof (chr_code_range c) as Hr. rewrite (proj2 (Z.ltb_ge (chr_code c) 0)) by lia.
  assert (E : (chr_code c =? 10) = false).
  { apply Z.eqb_neq. intros E. apply Hc. now rewrite <- (chr_chr_code c), E. }
  rewrite E, chr_chr_code. destruct line as [|d line].
  - exists c. split; [done|left].
  - destruct (IH (acc ++ [c]) (chr_code c) Hl) as (e & -> & He); [done|]. exists e. rewrite <- app_assoc. split; [done|now right].
Qed.

Lemma flgets_file line :
  LF ∉ line -> NUL ∉ line -> line <> [] -> flgets (length (line ++ [LF])) (line ++ [LF]) = Some (line, []).
Proof.
  intros Hl Hn Hne. unfold flgets, lgets. rewrite length_app, Nat.add_sub.
  destruct (line_loop_exact line [LF] [] (-1) Hl Hne) as (c & -> & Hc).
  pose proof (chr_code_range c) as Hr. assert (Hc0 : chr_code c <> 0).
  { intros E. apply Hn. replace NUL with c; [done|]. now rewrite <- (chr_chr_code c), E. }
  rewrite (proj2 (Z.ltb_ge (chr_code c) 0)), (proj2 (Z.ltb_lt 0 (chr_code c))) by lia. done.
Qed.

Lemma dist_line_free c ds : c <> " "%char -> c <> "-"%char -> isdigit_base 10 c = false -> c ∉ dist_line ds.
Proof.
  intros H1 H2 H3 Hin. apply (num_text_free c ds H1 H2 H3). unfold dist_line in Hin.
  rewrite <- (take_drop 1 (num_text ds)). apply elem_of_app. now right.
Qed.

(** ** Rows *)

(** The entry of a CPU and a node. *)
Definition entry (nmems : Z) (dm : list Z) (c n : Z) : Z := nth (Z.to_nat (c * nmems + n)) dm 0.

Lemma write_row_ok nmems c dists dm k :
  0 <= c -> 0 <= k <= nmems -> c * nmems + nmems <= Z.of_nat (length dm) ->
  let dm' := fold_left (fun dm n => <[Z.to_nat (c * nmems + n) := nth (Z.to_nat n) dists 0]> dm) (seqZ 0 k) dm in
  length dm' = length dm /\
  forall c' n', 0 <= c' -> 0 <= n' < nmems ->
    entry nmems dm' c' n' = if (c' =? c) && (n' <? k) then nth (Z.to_nat n') dists 0 else entry nmems dm c' n'.
Proof.
  intros Hc [Hk0 Hk] Hl. revert Hk. pattern k. apply natlike_ind; [| |done].
  { intros _. cbn. split; [done|]. intros c' n' _ Hn. rewrite (proj2 (Z.ltb_ge n' 0)) by lia. now rewrite andb_false_r. }
  clear k Hk0. intros k Hk0 IH Hk. cbv zeta in *. destruct (IH ltac:(lia)) as [IL IE]. clear IH.
  unfold Z.succ in *. rewrite seqZ_app, (seqZ_cons (0 + k)), (seqZ_nil _ (Z.pred 1)), fold_left_app by lia. cbn [fold_left]. set (dm1 := fold_left _ _ dm) in *.
  rewrite Z.add_0_l. split; [now rewrite length_insert|]. intros c' n' Hc' Hn'. unfold entry.
  destruct (decide (c' * nmems + n' = c * nmems + k)) as [E|E].
  - assert (c' = c) as -> by (destruct (Z.lt_trichotomy c' c) as [Hlt|[Heq|Hgt]]; nia). assert (n' = k) as -> by lia.
    assert (0 <= c * nmems) by nia. rewrite nth_lookup, list_lookup_insert_eq by lia.
    rewrite Z.eqb_refl, (proj2 (Z.ltb_lt k _)) by lia. done.
  - rewrite nth_lookup, list_lookup_insert_ne by nia. rewrite <- nth_lookup. fold (entry nmems dm1 c' n').
    rewrite IE by done. destruct (Z.eqb_spec c' c) as [->|]; [|done]. cbn [andb].
    destruct (Z.ltb_spec n' k), (Z.ltb_spec n' (k + 1)); try done; lia.
Qed.

Lemma row_loop_ok fuel b ncpus nmems i dists dm :
  wf b -> size b = ncpus -> 0 <= i -> ncpus - i <= Z.of_nat fuel -> 0 < nmems -> ncpus * nmems <= Z.of_nat (length dm) ->
  let dm' := row_loop fuel b ncpus nmems (bitmask_next b i) dists dm in
  length dm' = length dm /\
  forall c n, 0 <= c < ncpus -> 0 <= n < nmems ->
    entry nmems dm' c n = if (i <=? c) && bit b c then nth (Z.to_nat n) dists 0 else entry nmems dm c n.
Proof.
  intros Hw Hs. revert i dm. induction fuel as [|fuel IH]; intros i dm Hi Hf Hn Hl; cbv zeta.
  { cbn. split; [done|]. intros c n Hc _. rewrite (proj2 (Z.leb_gt i c)) by lia. done. }
  cbn [row_loop]. destruct (bitmask_next_spec b i Hi) as (N1 & N2 & N3 & _). cbv zeta in *. set (p := bitmask_next b i) in *.
  destruct (Z.ltb_spec p ncpus) as [Hlt|Hge].
  - destruct (write_row_ok nmems p dists dm nmems) as [WL WE]; [lia|lia|nia|]. cbv zeta in *. fold (write_row nmems p dists dm) in *.
    destruct (IH (p + 1) (write_row nmems p dists dm)) as [L E]; [lia|lia|lia|lia|]. split; [lia|]. intros c n Hc Hnn.
    rewrite E by done. rewrite WE by lia. rewrite (proj2 (Z.ltb_lt n nmems)) by lia. rewrite andb_true_r.
    destruct (Z.eqb_spec c p) as [->|Hne].
    + rewrite (proj2 (Z.leb_gt (p + 1) p)), (proj2 (Z.leb_le i p)), N2 by lia. done.
    + destruct (Z.leb_spec i c), (Z.leb_spec (p + 1) c); cbn [andb]; try done; [|lia].
      rewrite N3 by lia. done.
  - split; [done|]. intros c n Hc _. destruct (Z.leb_spec i c); [|done]. rewrite N3 by lia. done.
Qed.

Lemma local_cpus_wf m nodes ncpus b : wf b -> wf (local_cpus m nodes ncpus b) /\ size (local_cpus m nodes ncpus b) = size b.
Proof.
  intros Hw. destruct (clearall_spec b Hw) as (C1 & C2 & _). unfold local_cpus. rewrite <- C2. clear C2 Hw.
  generalize (bitmask_clearall b) as b0, C1. induction (seqZ 0 ncpus) as [|c l IH]; intros b0 Hb0; [done|]. cbn [fold_left].
  destruct (bitmask_isbitset _ _); [|now apply IH]. unfold bitmask_setbit. rewrite <- (setbit_size b0 c 1). now apply IH, setbit_wf.
Qed.

(** ** Building the map *)

Section Build.
Context `{F : FileKernel} {nc nm : Z} {m : list Z} {t : Z} {ds : Z -> list Z}.

(** The map of CPUs to nodes is as new as its file. *)
Record map_current (s : lib) : Prop := {
  mc_ready : ready nc nm s;
  mc_map : cpunodemap s = (Some m, t);
  mc_time : t <> 0 /\ k_stat mapfile (kern s) = inr (false, t);
  mc_int : nc * nm <= INT_MAX;
}.

Definition node_of (c : Z) : Z := u32 (nth (Z.to_nat c) m 0).

Lemma localcpus_current nodes b s :
  map_current s -> cpuset_localcpus nodes b s = Done (0, local_cpus m nodes nc b) s.
Proof.
  intros [Hrd Hm [Ht Hst] _]. unfold cpuset_localcpus. rewrite (bind_Done _ _ _ _ _ (cpus_nbits_ready nc nm s Hrd)).
  rewrite (bind_Done _ _ _ _ _ (check_ready nc nm s Hrd)). cbn [Z.ltb Z.compare].
  assert (Eg : get_map s = Done 0 s).
  { unfold get_map. rewrite (bind_Done _ _ s s s) by done. rewrite Hm. cbn [fst snd].
    rewrite (bind_Done _ _ true s s) by done. cbn [negb]. assert (Et : get_mtime mapfile s = Done t s).
    { unfold get_mtime, mbind, E_bind, ask, mret, E_ret. now rewrite Hst. }
    rewrite (bind_Done _ _ _ _ _ Et), (bind_Done _ _ s s s) by done. rewrite Hm. cbn [snd].
    rewrite (proj2 (Z.eqb_neq t 0)) by done. cbn [andb]. rewrite (bind_Done _ _ tt s s) by done.
    rewrite (bind_Done _ _ _ _ _ Et), (bind_Done _ _ s s s) by done. rewrite Hm. cbn [snd]. now rewrite Z.ltb_irrefl. }
  rewrite (bind_Done _ _ _ _ _ Eg), (bind_Done _ _ s s s) by done. rewrite Hm. done.
Qed.

(** What a step of the construction has done for these nodes. *)
Definition rows_set (nodes : list Z) (row : Z -> nat -> Z) (dm dm' : list Z) : Prop :=
  length dm' = length dm /\
  forall c n, 0 <= c < nc -> 0 <= n < nm ->
    entry nm dm' c n = if decide (node_of c ∈ nodes) then row (node_of c) (Z.to_nat n) else entry nm dm c n.

Lemma set_rows_ok node dists dm s :
  map_current s -> 0 <= node < nm -> nc * nm <= Z.of_nat (length dm) ->
  exists dm', set_rows node dists dm s = Done (Some dm') s /\ rows_set [node] (fun _ n => nth n dists 0) dm dm'.
Proof.
  intros Hs Hn Hl. pose proof (mc_ready _ Hs) as Hrd. pose proof (rd_heap _ _ _ Hrd) as Hh. unfold set_rows.
  pose proof (rd_nc _ _ _ Hrd) as Hc. pose proof (rd_nm _ _ _ Hrd) as Hm.
  rewrite (bind_Done _ _ _ _ _ (cpus_nbits_ready nc nm s Hrd)), (bind_Done _ _ _ _ _ (mems_nbits_ready nc nm s Hrd)).
  rewrite (bind_Done _ _ _ _ _ (alloc_mask_ok nm s Hh)). cbv zeta. rewrite (bind_Done _ _ _ _ _ (alloc_mask_ok nc s Hh)).
  pose proof (new_mask_wf nm ltac:(lia)) as Wm. pose proof (new_mask_wf nc ltac:(lia)) as Wc.
  set (mm := mkMask nm _) in *. set (mb := mkMask nc _) in *.
  rewrite (bind_Done _ _ _ _ _ (localcpus_current (bitmask_setbit mm node) mb s Hs)). cbn [snd].
  destruct (local_cpus_wf m (bitmask_setbit mm node) nc mb Wc) as [Lw Ls]. set (lc := local_cpus _ _ _ _) in *.
  destruct (row_loop_ok (Z.to_nat nc) lc nc nm 0 dists dm Lw Ls) as [RL RE]; [lia..|]. cbv zeta in *.
  eexists. split; [reflexivity|]. split; [exact RL|]. intros c n Hc' Hn'. unfold bitmask_first. rewrite RE by done.
  rewrite (proj2 (Z.leb_le 0 c)) by lia. cbn [andb]. unfold lc. rewrite local_cpus_spec by done. fold (node_of c).
  pose proof (u32_range (nth (Z.to_nat c) m 0)) as Hu. fold (node_of c) in Hu.
  unfold bitmask_setbit. rewrite bit_setbit by (done || lia). rewrite (proj2 (Z.ltb_lt node (size mm))), andb_true_r by (cbn; lia).
  destruct (Z.eqb_spec (node_of c) node) as [E|E].
  - rewrite decide_True by (rewrite E; left). done.
  - rewrite decide_False by (intros H1%list_elem_of_singleton; done). unfold mm. now rewrite new_mask_clear.
Qed.

Lemma parse_file_ok node path dm s :
  map_current s -> 0 <= node < nm -> nc * nm <= Z.of_nat (length dm) -> Forall dist_ok (ds node) -> ds node <> [] ->
  k_read path (kern s) = Contents (dist_line (ds node) ++ [LF]) ->
  exists dm', parse_distance_file node path dm s = Done (Some dm') s /\ rows_set [node] (fun x => dist_to (ds x)) dm dm'.
Proof.
  intros Hs Hn Hl Hd Hne Hf. pose proof (mc_ready _ Hs) as Hrd. pose proof (rd_heap _ _ _ Hrd) as Hh.
  assert (Hln : dist_line (ds node) <> []).
  { destruct (ds node) as [|d l]; [done|]. inversion Hd as [|? ? Hd0]; subst. destruct (fmt_d_head d (proj1 Hd0)) as (c & x & E & _).
    change (dist_line (d :: l)) with (fmt_d d ++ num_text l). now rewrite E. }
  unfold parse_distance_file. erewrite bind_Done by (unfold read_file; rewrite Hf; reflexivity). cbv beta iota zeta.
  rewrite (bind_Done _ _ true s s) by (unfold malloc; now rewrite Hh). cbn [negb].
  rewrite flgets_file; [|now apply dist_line_free..|done]. rewrite cstr_of_id by now apply dist_line_free.
  unfold parse_distmap_line. rewrite (bind_Done _ _ _ _ _ (cpus_nbits_ready nc nm s Hrd)).
  rewrite (bind_Done _ _ _ _ _ (mems_nbits_ready nc nm s Hrd)).
  rewrite (bind_Done _ _ true s s) by (unfold malloc; now rewrite Hh). cbn [negb].
  destruct (parse_dists_ok nm (ds node) Hd Hne) as [_ Hp]; [apply Hrd|].
  destruct (set_rows_ok node (parse_dists u32 nm (dist_line (ds node))) dm s Hs Hn Hl) as (dm' & E & RL & RE).
  exists dm'. split; [exact E|]. split; [exact RL|]. intros c n Hc Hn'. rewrite RE by done.
  destruct (decide (node_of c ∈ [node])) as [Hin|Hin]; [|done]. apply list_elem_of_singleton in Hin as ->. apply Hp. lia.
Qed.

(** A name in the directory: that of a node has a file of distances. *)
Definition name_ok (k : kst) (name : cstr) : Prop :=
  match scan_key_u §"node" name with
  | None => True
  | Some node =>
      0 <= node < nm /\ Forall dist_ok (ds node) /\ ds node <> [] /\
      exists path, pathcat3 PATH_MAX distance_directory name §"distance" = Some path /\
        k_read path k = Contents (dist_line (ds node) ++ [LF])
  end.

Definition nodes_of (names : list cstr) : list Z := omap (scan_key_u §"node") names.

Lemma build_loop_ok names dm s :
  map_current s -> nc * nm <= Z.of_nat (length dm) -> Forall (name_ok (kern s)) names ->
  exists dm', build_loop names dm s = Done (Some dm') s /\ rows_set (nodes_of names) (fun x => dist_to (ds x)) dm dm'.
Proof.
  intros Hs Hl Hns. revert dm Hl. induction Hns as [|name names Hn Hns IH]; intros dm Hl; cbn [build_loop].
  { exists dm. split; [done|]. split; [done|]. intros c n _ _. rewrite decide_False; [done|apply not_elem_of_nil]. }
  unfold name_ok in Hn. unfold nodes_of. cbn [omap list_omap]. destruct (scan_key_u §"node" name) as [node|] eqn:Ek; [|now apply IH].
  destruct Hn as (Hnode & Hd & Hne & path & Ep & Hf). rewrite Ep, bind_some.
  destruct (parse_file_ok node path dm s Hs Hnode Hl Hd Hne Hf) as (dm1 & E1 & RL1 & RE1).
  rewrite (bind_Done _ _ _ _ _ E1). destruct (IH dm1) as (dm' & E' & RL & RE); [lia|].
  exists dm'. split; [exact E'|]. clear Ep Hf E1 E' IH Hns Ek. split; [lia|]. intros c n Hc Hn'. rewrite RE by done. fold (nodes_of names).
  destruct (decide (node_of c ∈ nodes_of names)) as [Hin|Hin].
  - rewrite decide_True by now right. done.
  - rewrite RE1 by done. destruct (decide (node_of c ∈ [node])) as [H1|H1].
    + apply list_elem_of_singleton in H1. rewrite decide_True by (rewrite H1; left). done.
    + rewrite decide_False; [done|]. intros [H2|H2]%elem_of_cons; [|done]. apply H1. rewrite H2. left.
Qed.

(** The distance a CPU and a node have in the files. *)
Definition file_dist (names : list cstr) (c n : Z) : Z :=
  if decide (node_of c ∈ nodes_of names) then dist_to (ds (node_of c)) (Z.to_nat n) else DISTMAP_MAX.

Definition built (names : list cstr) (dm : list Z) : Prop :=
  forall c n, 0 <= c < nc -> 0 <= n < nm -> entry nm dm c n = file_dist names c n.

Lemma build_distmap_ok names sn s :
  map_current s -> k_readdir distance_directory (kern s) = inr names -> Forall (name_ok (kern s)) names ->
  exists dm, build_distmap (mkDist None false sn) s = Done (mkDist (Some dm) true sn) s /\ built names dm.
Proof.
  intros Hs Hdir Hns. pose proof (mc_ready _ Hs) as Hrd. pose proof (rd_heap _ _ _ Hrd) as Hh. pose proof (mc_int _ Hs) as Hi.
  pose proof (rd_nc _ _ _ Hrd) as Hnc. pose proof (rd_nm _ _ _ Hrd) as Hnm.
  set (dm0 := replicate (Z.to_nat (nc * nm)) DISTMAP_MAX).
  assert (Hl0 : nc * nm <= Z.of_nat (length dm0)) by (unfold dm0; rewrite length_replicate; lia).
  destruct (build_loop_ok names dm0 s Hs Hl0 Hns) as (dm & Eb & _ & RE). exists dm. split.
  - unfold build_distmap. cbn [tried tried_sn]. assert (En : new_distmap s = Done (Some dm0) s).
    { unfold new_distmap. rewrite (bind_Done _ _ _ _ _ (cpus_nbits_ready nc nm s Hrd)), (bind_Done _ _ _ _ _ (mems_nbits_ready nc nm s Hrd)).
      rewrite (proj2 (Z.leb_le _ _) Hi). rewrite (bind_Done _ _ tt s s) by done.
      rewrite (bind_Done _ _ true s s) by (unfold malloc; now rewrite Hh). done. }
    rewrite (bind_Done _ _ _ _ _ En). erewrite bind_Done by (unfold ask; rewrite Hdir; reflexivity).
    cbv beta iota. now rewrite (bind_Done _ _ _ _ _ Eb).
  - intros c n Hc Hn. rewrite RE by done. unfold file_dist. destruct (decide _); [done|].
    unfold entry, dm0. rewrite nth_lookup, lookup_replicate_2 by nia. done.
Qed.

(** A question, once the map is there or can be built. *)
Lemma cpumemdist_asked names dm st st' c n s :
  map_current s -> built names dm -> distmap st' = Some dm -> 0 <= c < nc -> 0 <= n < nm ->
  match distmap st with None => build_distmap st | Some _ => mret st end s = Done st' s ->
  cpuset_cpumemdist st c n s = Done (file_dist names c n, st') s.
Proof.
  intros Hs Hb Hd Hc Hn Est. pose proof (mc_ready _ Hs) as Hrd. unfold cpuset_cpumemdist.
  rewrite (bind_Done _ _ _ _ _ (cpus_nbits_ready nc nm s Hrd)), (bind_Done _ _ _ _ _ (mems_nbits_ready nc nm s Hrd)).
  rewrite (bind_Done _ _ _ _ _ (check_ready nc nm s Hrd)). cbn [Z.ltb Z.compare].
  rewrite (bind_Done _ _ _ _ _ Est), (bind_Done _ _ st' s s) by now rewrite Hd. rewrite Hd.
  rewrite (proj2 (Z.ltb_ge c 0)), (proj2 (Z.leb_gt nc c)), (proj2 (Z.ltb_ge n 0)), (proj2 (Z.leb_gt nm n)) by lia. cbn [orb].
  fold (entry nm dm c n). now rewrite Hb.
Qed.

(** C23: The first question builds the map and keeps it; the distance of a CPU and a
    node is the one in the file of the CPU's node, where it is below 255, and 255
    for a CPU whose node has no file, or whose file does not list the node. *)
Theorem cpumemdist_reads names cpu mem s :
  map_current s -> k_readdir distance_directory (kern s) = inr names -> Forall (name_ok (kern s)) names ->
  0 <= cpu < nc -> 0 <= mem < nm ->
  exists st, cpuset_cpumemdist (mkDist None false false) cpu mem s = Done (file_dist names cpu mem, st) s /\
    forall cpu' mem', 0 <= cpu' < nc -> 0 <= mem' < nm ->
      cpuset_cpumemdist st cpu' mem' s = Done (file_dist names cpu' mem', st) s.
Proof.
  intros Hs Hdir Hns Hc Hm. destruct (build_distmap_ok names false s Hs Hdir Hns) as (dm & Eb & Hb).
  exists (mkDist (Some dm) true false). split; [|intros c n Hc' Hn']; now apply (cpumemdist_asked names dm).
Qed.
End Build.

(** ** A machine with two nodes *)

(** CPU 0 is on node 0 and CPU 1 on node 1. *)
#[local] Instance numa : Kernel := {|
  kst := unit;
  k_read p _ := if decide (p = §"/sys/devices/system/node/node0/distance") then Contents (§"10 20" ++ [LF])
                else if decide (p = §"/sys/devices/system/node/node1/distance") then Contents (§"21 10" ++ [LF])
                else NoOpen ENOENT;
  k_stat p _ := if decide (p = mapfile) then inr (false, 5) else inl ENOENT;
  k_write _ _ _ := inl EINVAL;
  k_mkdir _ _ := inl EINVAL;
  k_rmdir _ _ := inl EINVAL;
  k_readdir p _ := if decide (p = distance_directory) then inr [§"."; §"has_cpu"; §"node0"; §"node1"] else inl ENOENT;
  k_uname _ := inl ENOSYS;
|}.

#[local] Instance numa_files : FileKernel := {|
  k_time _ := 5;
  k_mkstemp _ _ := inl EINVAL;
  k_fill _ _ k := k;
  k_utime _ _ _ := inl EINVAL;
  k_rename _ _ _ := inl EINVAL;
  k_chmod _ _ _ := inl EINVAL;
  k_unlink _ _ := inl EINVAL;
|}.

Definition numa_lib : lib := mkLib (tt : kst) 0 [] check_ok 8 8 0 0 (Some [0; 1; 8; 8; 8; 8; 8; 8], 5).
Definition numa_dist (node : Z) : list Z := if node =? 0 then [10; 20] else [21; 10].

Lemma cpumemdist_reads_witness :
  exists st, cpuset_cpumemdist (mkDist None false false) 1 0 numa_lib = Done (21, st) numa_lib.
Proof.
  destruct (cpumemdist_reads (nc := 8) (nm := 8) (m := [0; 1; 8; 8; 8; 8; 8; 8]) (t := 5) (ds := numa_dist)
              [§"."; §"has_cpu"; §"node0"; §"node1"] 1 0 numa_lib) as (st & E & _).
  - split; [split; try reflexivity; split; reflexivity || discriminate|reflexivity|split; [lia|vm_compute; reflexivity]|unfold INT_MAX; lia].
  - vm_compute. reflexivity.
  - assert (Hd : forall n, Forall dist_ok (numa_dist n) /\ numa_dist n <> []).
    { intros n. unfold numa_dist, dist_ok. destruct (n =? 0); (split; [repeat apply List.Forall_cons; try apply List.Forall_nil; lia|discriminate]). }
    repeat apply List.Forall_cons; try apply List.Forall_nil; unfold name_ok.
    + exact I.
    + exact I.
    + split; [split; vm_compute; [discriminate|reflexivity]|]. split; [apply Hd|]. split; [apply Hd|]. eexists. split; vm_compute; reflexivity.
    + split; [split; vm_compute; [discriminate|reflexivity]|]. split; [apply Hd|]. split; [apply Hd|]. eexists. split; vm_compute; reflexivity.
  - lia.
  - lia.
  - exists st. rewrite E. vm_compute. reflexivity.
Defined.
